(* ===== verification/_CoqProject ===== *)
-Q . S2P
Prelude.v
Surface.v
Pixel.v
Assets.v
Text.v
Box.v
Cursor.v
Pointer.v
Ps2.v
Image.v
Format.v
Console.v
SetupUi.v
TweenDemo.v
Kernel.v
Unshadowed.v
Firmware.v
Pci.v
Boot.v
DxePage.v
DxePool.v
DxeMap.v
DxeBoot.v
Heap.v
DevicePath.v
DxeHand.v
DxeHandOk.v
DxeOpen.v
DxeInstall.v
DxeLocate.v
DxeUninstall.v
DxeHandDemo.v
DxePci.v
DxeEvent.v
DxeEventOk.v
DxeTimer.v
DxeDispatch.v
DxeTick.v
DxeEventUse.v
DxeEventDemo.v
