(* ===== verification/Prelude.v ===== *)
(** * Dragon OS: verification library

    Dragon OS is one C file, [src/BootApp.c], a UEFI application that picks a
    frame buffer, plays a splash, collects the PCI devices and the memory map,
    leaves the boot services and runs a mouse-driven setup screen for ever,
    and the firmware it is built for, EDK II in [src/edk2].  This library
    models the application, function by function under the source's names, and
    those parts of the firmware's DXE core that serve it: the memory services,
    the handle database and the protocol services, events, timers and task
    priorities ([src/edk2/MdeModulePkg/Core/Dxe]), with the device path library
    they use.
    It proves what each part is for, and runs the application on the core.

    ** The application

    - [Prelude] (this file): the outcomes of C code ([Done], or the faults
      [OutOfBounds], [Diverges], [DivByZero]) with their monad, machine
      integers as [Z] reduced to their width, array access, counted loops and
      their invariant rules.
    - [Surface]: [FRAMEBUFFER_INFO] and memory, a finite map from byte
      addresses to 32-bit cells; [FillPixels32], [CopyPixels32],
      [ClearScreen], [ClearRect], [BlitSurfaceRect].  Its vocabulary is shared
      by every drawing routine: [draws] (never faults, stays in a region),
      [paints] (gives each pixel a stated value), [tints] (each pixel depends
      on itself only), [overwrites] (and not even on that), with the class
      [Drawing] to compose them.
    - [Pixel]: [MaskShift] to [AlphaBlendPixel], the channel arithmetic.
    - [Assets]: the class that stands for [generated_bitmap.h], and what its
      generator guarantees ([AssetsWf]).
    - [Text], [Box], [Image]: glyphs and strings, rounded boxes, images,
      tweens and the splash; they draw through [Surface] and [Pixel].
    - [Cursor]: [SOFTWARE_CURSOR], saving, drawing and compositing it.
    - [Pointer], [Ps2]: the firmware pointer protocols and the PS/2 driver;
      they move the cursor.  Devices are functions over an abstract world.
    - [Format], [Console]: [AppendText] and the numbers, the console blocks,
      [DrawMouseDebug], [DrawKernelStatusScreen], the boot record.
    - [SetupUi], [TweenDemo]: the setup screen and the tween demonstration.
    - [Kernel]: [RunKernelMouseLoop] as [kernel_start], [kernel_round] and
      the step relation [kernel_step]; [Unshadowed]: the same loop when no
      shadow surface could be allocated.
    - [Firmware]: GUIDs, status codes and offsets of the source, and the boot
      services as the class [Firmware] with its documented laws [FirmwareWf].
    - [Pci]: [CollectPciDevices].
    - [Boot]: [InitializeFramebuffer], [EstimateTscTicksPerSecond],
      [ExitBootServicesForKernel] and [EfiMain], which composes everything.

    ** The DXE core

    - [DxePage] ([Mem/Page.c]): the memory map, its key, allocating and
      freeing pages.  [DxePool] ([Mem/Pool.c]): size classes, free lists and
      pages cut into blocks, on top of it.  [DxeMap]: [CoreGetMemoryMap] and
      the check of the key in [CoreExitBootServices] ([DxeMain/DxeMain.c]).
    - [DxeBoot]: the memory services as a [Firmware], and
      [ExitBootServicesForKernel] of the application on them.
    - [Heap]: what a client relies on of the pool, the class [Heap] with its
      laws [HeapWf], and a heap that keeps them.
    - [DevicePath] ([UefiDevicePathLib/DevicePathUtilities.c]): paths as runs
      of nodes in a byte memory.
    - [DxeHand] ([Hand/Handle.c], [Hand/Locate.c], [Hand/Notify.c]): handles,
      protocol interfaces, who has them open, registrations, searches, as
      the record [DATABASE] and one definition per service.  [DxeHandOk]: the
      invariant ([linked], [owns], together [db_ok]) and a client's view
      ([protocols] of a handle, [order] of a protocol); [DxeOpen], [DxeInstall],
      [DxeLocate], [DxeUninstall]: what the services do to both; [DxeHandDemo]:
      a database in the small, for the witnesses.
    - [DxePci]: the handle services as a [Firmware], and [CollectPciDevices]
      of the application on them.

    - [DxeEvent] ([Event/Event.c], [Event/Timer.c], [Event/Tpl.c]): events,
      the queues of their notifications, timers and the task priority level,
      as the record [EVENTS] and one definition per function.  Lowering the
      level and dispatching call each other: [CoreRestoreTpl] is defined on
      fuel over the lowering its callees use.  [DxeEventOk]: levels and locks,
      the invariant of the queues ([queues_ok]) and what signalling does
      ([signalled]); [DxeTimer]: the list of timers ([timers_ok]) and what a
      check of it does ([expired]); [DxeDispatch]: the relation [delivered],
      which specifies lowering the level; [DxeTick]: a tick of the clock, end
      to end; [DxeEventUse]: setting up, creating, waiting for and closing
      events; [DxeEventDemo]: states in the small, for the witnesses.

    The application's theorems are proved against the class [Firmware];
    [DxeBoot] and [DxePci] discharge what they ask of it with the core's own
    code.  The handle database and the events are proved against the class
    [Heap].

    ** What the theorems show

    - Boot: [EfiMain_correct] (the boot completes without a fault; it ends in
      the firmware's error or in the running kernel loop, and the machine was
      handed over for the map that was recorded),
      [InitializeFramebuffer_correct] (which modes are accepted),
      [ExitBootServicesForKernel_correct] (the retry loop ends and never uses
      a stale map), [CollectPciDevices_correct] (against the list of the
      display and audio devices found).
    - Kernel loop: [kernel_invariant] (in every reachable state the screen is
      the setup screen with the cursor over it), [kernel_round_correct],
      [RunKernelMouseLoop_correct] (any number of rounds completes),
      [kernel_unshadowed] (safe without a shadow, but the old cursor stays).
    - Input: [Ps2Mouse_decodes] (the byte machine refines packet framing of
      the whole stream), the handshake and the two firmware pointers.
    - Drawing: unrolled and 64-bit copies and fills equal their one-pixel
      references; clipping and frames of every routine; blending and format
      round trips; the compositor ([BlitCursorComposite_correct],
      [cursor_save_draw_restore]); redrawing only what changed equals a full
      redraw ([RefreshSetupButtons_correct], [DrawTweenDemoMotion_correct]);
      the console screen as its list of blocks
      ([DrawKernelStatusScreen_correct]).
    - Text: numbers read back as printed, and no line leaves its buffer.
    - Memory services: [CoreInternalAllocatePages_correct] and its round trip,
      [CoreInternalAllocatePool_correct], [CoreInternalFreePool_correct] and
      [CoreInternalFreePool_twice], [CoreGetMemoryMap_correct] (the
      descriptors show what the map holds), [CoreExitBootServices_correct];
      on them the application leaves the boot services
      ([ExitBootServicesForKernel_dxe]), unless the drivers cut the map up
      too much ([ExitBootServicesForKernel_dxe_gives_up]).
    - Device paths: [IsDevicePathValid_correct] (exactly the encodings are
      accepted), [AppendDevicePath_correct], [DevicePathInstance_roundtrip].
    - Handle database: every service keeps [db_ok].
      [CoreOpenProtocol_correct] (who is refused, who is denied, and that an
      interface never has two owners),
      [CoreCloseProtocol_correct], [CoreInstallProtocolInterface_correct],
      [CoreUninstallProtocolInterface_correct] and their round trip
      [InstallUninstall_roundtrip], [CoreLocateHandleBuffer_correct],
      [CoreRegisterProtocolNotify_correct] and [CoreLocateProtocol_correct]
      (a registration is told of each interface once, in order),
      [CoreUninstallMultiple_loses_handle] (where the code does not undo what
      it says it undoes); on it the application finds the display and audio
      devices behind the PCI interfaces ([CollectPciDevices_dxe], against
      [devices_of], which reads the PCI registers).
    - Events: [CoreRestoreTpl_refines] (lowering the level implements
      [delivered] and ends, whatever notifications do, if each of them ends
      and lowers a rank),
      [CoreRestoreTpl_delivers] (with drivers that do not call back it ends,
      leaves nothing above the level, and keeps to the order of levels and
      queues), [CoreTimerTick_correct] (no timer that is due is forgotten),
      [CoreCheckTimers_correct] and [CoreCheckTimers_never_ends] (where a
      period past the end of time hangs the core), [CoreSignalEvent_correct],
      [CoreSetTimer_correct], [CoreWaitForEvent_correct],
      [CoreCreateEvent_CloseEvent_roundtrip] and
      [CoreInitializeEventServices_correct] (the invariants hold from the
      start).

    ** Conventions, bounds and fuel

    A struct is a Record, an out parameter a result (an option where it is
    written only on success), an uninitialised local an argument.  A [char]
    array is a list of its declared length; a write outside it faults.  A
    surface pointer is an address into the memory, so aliasing is visible:
    [SavedPixels], the shadow and the compose surface are addresses.  Shift
    counts are taken modulo 32 as the compiled code does.  In the core a
    structure from the pool is its address, a linked list the list of the
    addresses on it, and following a pointer to what has been freed a fault.
    The core is built for X64, as a release: [ASSERT] does nothing, the heap
    guard is off, memory is not cleared on release.

    A loop with no bound of its own carries fuel, and running out is the
    fault [Diverges].  Fixed fuels are the loop's own limit plus one: 33 for
    the mask scans (a 32-bit mask), 64 and 97 for the pointer and packet loops
    (64 polls, 96 bytes), the polling limits of the PS/2 controller, 11
    digits, 5 for the retries of the page and pool services, which retry once.
    [AbsolutePointer_loop], [exit_loop] and the kernel loop have no limit: the
    theorems state how much fuel is enough from what the device or the
    firmware promises, or quantify over the number of rounds.  Walks over a
    device path need more fuel than it has nodes, disconnecting drivers more
    than there are ([rounds_ok]).  A check of the timers needs two steps for
    each timer and one more; how much lowering the level needs depends on the
    notifications, and the theorems say that there is a fuel from which on the
    result is the same.

    ** Assumptions

    [AssetsWf] (the generator's guarantees), [PortIOWf] (a port read is a
    byte), [FirmwareWf] (fresh pool memory, handle buffers of the announced
    size, no map written to a null buffer, finitely many refusals of a fresh
    map key), and [setup_assets], [roomy], [modest] (the fonts fit the
    buttons; the screen is at least 408 by 370 and at most 32768 a side).
    Of the core: the drivers' notification functions and the services that
    connect and disconnect drivers ([DriverSupport.c]) are parameters;
    [drivers_ok] and [disconnect_ok] say what is asked of them, [HeapWf] what
    is asked of the pool by its clients, [ending] with a rank that every
    notification lowers what is asked of notifications for lowering the level
    to end, [no_overflow] what is asked of the periods of timers for a check
    of them to end.  Each has a concrete instance that the witnesses use.

    The theorems on allocating and freeing, of pages and of the pool, assume
    [settled]: all memory that was reported has been tested, so
    [PromoteMemoryResource], which is modelled, finds nothing to add, and the
    second attempt of [CoreInternalAllocatePages] after a promotion is not
    covered by them.  They also assume fewer than 2^52 pages (what happens
    beyond is [AllocatePages_truncates]), for the pool a type below 16 and a
    size of at most 2^64 - 8192 bytes (beyond, see [block_size_correct]), and
    unused descriptors, or a free page to make them from.

    ** Not modelled

    [PreserveUiSubsystemReferences] (it only takes addresses).  The contents
    of [generated_bitmap.h] and, for the application, the boot services
    (parameters).  The table look-ups that fetch the service pointers from the
    system table: the services are the fields of [Firmware], and only the
    stall pointer, which the code tests, can be null.  Null arguments no
    caller passes.  The C# host builder ([Program.cs],
    [NativeUefiCompiler.cs], [UefiSupport.cs], [ImapiIsoBuilder.cs]), which
    drives external tools.  Of the DXE core: interrupts between two steps of
    the code (the clock ticks where [CoreTimerTick] is called), the locks
    around the handle database and the memory services, the bins of
    [CoreAddMemoryDescriptor], the heap guard, memory protection and
    profiling, the dispatcher, image loading and driver connection.  The rest
    of [src/edk2], drivers, shells and libraries, the application neither
    includes nor calls. *)
From Stdlib Require Import ZArith Lia.
From stdpp Require Import base gmap list.

(* ------------------------------------------------------------------ *)
(** ** Outcomes of C code *)

(** What can go wrong when the C code runs: an access outside every
    mapped object, a loop that never ends, a division by zero. *)
Inductive fault : Type :=
| OutOfBounds
| Diverges
| DivByZero.

Inductive outcome (A : Type) : Type :=
| Done (a : A)
| Fault (f : fault).
Arguments Done {A} a.
Arguments Fault {A} f.

#[export] Instance outcome_ret : MRet outcome := @Done.
#[export] Instance outcome_bind : MBind outcome :=
  fun A B k o => match o with Done a => k a | Fault f => Fault f end.

#[export] Instance fault_eq_dec : EqDecision fault.
Proof. solve_decision. Defined.

#[export] Instance outcome_eq_dec {A} `{EqDecision A} : EqDecision (outcome A).
Proof. solve_decision. Defined.

(** An array read: the element, or an out-of-bounds fault. *)
Definition rd {A} (l : list A) (i : Z) : outcome A :=
  if decide (0 <= i)%Z then
    match l !! Z.to_nat i with Some v => Done v | None => Fault OutOfBounds end
  else Fault OutOfBounds.

(** An array write, with the same bound. *)
Definition wr {A} (l : list A) (i : Z) (v : A) : outcome (list A) :=
  if decide (0 <= i < Z.of_nat (length l))%Z then Done (<[Z.to_nat i := v]> l)
  else Fault OutOfBounds.

(** Unsigned division with the hardware trap on a zero divisor. *)
Definition udiv (a b : Z) : outcome Z :=
  if decide (b = 0)%Z then Fault DivByZero else Done (a / b)%Z.

(* ------------------------------------------------------------------ *)
(** ** Machine integers: values in [Z], reduced to their width *)

Declare Scope c_scope.
Delimit Scope c_scope with C.

Definition u8 (z : Z) : Z := (z mod 256)%Z.
Definition u16 (z : Z) : Z := (z mod 65536)%Z.
Definition u32 (z : Z) : Z := (z mod 4294967296)%Z.
Definition u64 (z : Z) : Z := (z mod 18446744073709551616)%Z.
Definition i8 (z : Z) : Z := ((z + 128) mod 256 - 128)%Z.
Definition i32 (z : Z) : Z := ((z + 2147483648) mod 4294967296 - 2147483648)%Z.
Definition i64 (z : Z) : Z :=
  ((z + 9223372036854775808) mod 18446744073709551616 - 9223372036854775808)%Z.

(** Shifts of a 32-bit register: the count is taken modulo 32. *)
Definition shr32 (a s : Z) : Z := Z.shiftr a (Z.land s 31).
Definition shl32 (a s : Z) : Z := u32 (Z.shiftl a (Z.land s 31)).

Notation "a >>u s" := (shr32 a s) (at level 40, left associativity) : c_scope.
Notation "a <<u s" := (shl32 a s) (at level 40, left associativity) : c_scope.

(** Range predicates for the widths. *)
Abbreviation is_u8 z := (0 <= z < 256)%Z.
Abbreviation is_u16 z := (0 <= z < 65536)%Z.
Abbreviation is_u32 z := (0 <= z < 4294967296)%Z.
Abbreviation is_u64 z := (0 <= z < 18446744073709551616)%Z.
Abbreviation is_i32 z := (-2147483648 <= z < 2147483648)%Z.

#[global] Arguments u8 : simpl never.
#[global] Arguments u16 : simpl never.
#[global] Arguments u32 : simpl never.
#[global] Arguments u64 : simpl never.
#[global] Arguments i8 : simpl never.
#[global] Arguments i32 : simpl never.
#[global] Arguments i64 : simpl never.

(* ------------------------------------------------------------------ *)
(** ** Counted loops *)

#[local] Open Scope Z_scope.

(** [n] rounds of [body], the index starting at [i] and stepping by [step]. *)
Fixpoint for_loop {S : Type} (n : nat) (i step : Z)
    (body : Z -> S -> outcome S) (s : S) : outcome S :=
  match n with
  | O => Done s
  | Datatypes.S n' => s' ← body i s; for_loop n' (i + step) step body s'
  end.

(** [for (i = start; i < stop; i += step) body]. *)
Definition for_range {S : Type} (start stop step : Z)
    (body : Z -> S -> outcome S) (s : S) : outcome S :=
  for_loop (Z.to_nat ((stop - start + step - 1) / step)) start step body s.

(** [for (i = 0; i < count; i++) body]. *)
Definition for_count {S : Type} (count : Z)
    (body : Z -> S -> outcome S) (s : S) : outcome S :=
  for_range 0 count 1 body s.

(* ------------------------------------------------------------------ *)
(** ** Lemmas: integers *)

Lemma u8_range z : is_u8 (u8 z).
Proof. unfold u8. apply Z.mod_pos_bound. lia. Qed.
Lemma u16_range z : is_u16 (u16 z).
Proof. unfold u16. apply Z.mod_pos_bound. lia. Qed.
Lemma u32_range z : is_u32 (u32 z).
Proof. unfold u32. apply Z.mod_pos_bound. lia. Qed.
Lemma u64_range z : is_u64 (u64 z).
Proof. unfold u64. apply Z.mod_pos_bound. lia. Qed.
Lemma i32_range z : is_i32 (i32 z).
Proof.
  unfold i32.
  pose proof (Z.mod_pos_bound (z + 2147483648) 4294967296 ltac:(lia)). lia.
Qed.
Lemma i8_range z : -128 <= i8 z < 128.
Proof.
  unfold i8. pose proof (Z.mod_pos_bound (z + 128) 256 ltac:(lia)). lia.
Qed.

Lemma u8_id z : is_u8 z -> u8 z = z.
Proof. intros. unfold u8. by apply Z.mod_small. Qed.
Lemma u16_id z : is_u16 z -> u16 z = z.
Proof. intros. unfold u16. by apply Z.mod_small. Qed.
Lemma u32_id z : is_u32 z -> u32 z = z.
Proof. intros. unfold u32. by apply Z.mod_small. Qed.
Lemma u64_id z : is_u64 z -> u64 z = z.
Proof. intros. unfold u64. by apply Z.mod_small. Qed.
Lemma i32_id z : is_i32 z -> i32 z = z.
Proof. intros. unfold i32. rewrite Z.mod_small by lia. lia. Qed.
Lemma i8_id z : -128 <= z < 128 -> i8 z = z.
Proof. intros. unfold i8. rewrite Z.mod_small by lia. lia. Qed.
Lemma i64_id z : -9223372036854775808 <= z < 9223372036854775808 -> i64 z = z.
Proof. intros. unfold i64. rewrite Z.mod_small by lia. lia. Qed.

(** A 32-bit value read back as unsigned after a signed conversion. *)
Lemma u32_i32 z : u32 (i32 z) = u32 z.
Proof.
  unfold u32, i32.
  rewrite Zminus_mod_idemp_l. f_equal. lia.
Qed.

Lemma i32_u32 z : i32 (u32 z) = i32 z.
Proof. unfold i32, u32. by rewrite Zplus_mod_idemp_l. Qed.

Lemma i32_nonneg z : is_u32 z -> 0 <= i32 z -> i32 z = z.
Proof.
  unfold i32. intros Hz Hp.
  pose proof (Z.div_mod (z + 2147483648) 4294967296 ltac:(lia)).
  pose proof (Z.mod_pos_bound (z + 2147483648) 4294967296 ltac:(lia)).
  nia.
Qed.

(** A signed sum that came out non-negative did not wrap. *)
Lemma i32_add_nonneg a b : is_i32 a -> 0 <= b < 2147483648 -> 0 <= i32 (a + b) ->
  i32 (a + b) = a + b.
Proof.
  unfold i32. intros Ha Hb Hp.
  pose proof (Z.div_mod (a + b + 2147483648) 4294967296 ltac:(lia)).
  pose proof (Z.mod_pos_bound (a + b + 2147483648) 4294967296 ltac:(lia)).
  assert ((a + b + 2147483648) / 4294967296 <= 0); [|nia].
  destruct (decide (a + b < 2147483648)).
  - apply Z.lt_succ_r. apply Z.div_lt_upper_bound; lia.
  - exfalso. assert ((a + b + 2147483648) / 4294967296 = 1) as E
      by (symmetry; apply Z.div_unique with (a + b - 2147483648); lia). lia.
Qed.

(** Row-major indices stay inside the array. *)
Lemma index2_bound i j w h : 0 <= i < h -> 0 <= j < w -> 0 <= i * w + j < w * h.
Proof.
  intros Hi Hj. assert (i * w <= (h - 1) * w) by (apply Z.mul_le_mono_nonneg_r; lia).
  assert (0 <= i * w) by (apply Z.mul_nonneg_nonneg; lia). lia.
Qed.

Lemma index3_bound k i j n w h : 0 <= k < n -> 0 <= i < h -> 0 <= j < w ->
  0 <= k * w * h + i * w + j < n * w * h.
Proof.
  intros Hk Hi Hj. pose proof (index2_bound i j w h Hi Hj).
  pose proof (index2_bound k (i * w + j) (w * h) n Hk ltac:(lia)).
  replace (k * w * h) with (k * (w * h)) by lia.
  replace (n * w * h) with (w * h * n) by lia. lia.
Qed.

Lemma mul3_le a b c A B C : 0 <= a <= A -> 0 <= b <= B -> 0 <= c <= C -> a * b * c <= A * B * C.
Proof.
  intros. assert (0 <= a * b) by (apply Z.mul_nonneg_nonneg; lia).
  apply Z.mul_le_mono_nonneg; try lia. apply Z.mul_le_mono_nonneg; lia.
Qed.

Create Rewrite HintDb wrap.
Create HintDb ranges.
#[export] Hint Rewrite u8_id u16_id u32_id u64_id i32_id i8_id i64_id using lia : wrap.

(** Remove every wrap whose argument is in range. *)
Ltac unwrap := autorewrite with wrap.
Tactic Notation "unwrap" "in" hyp(H) := autorewrite with wrap in H.

(** Reduce the binds of finished computations, and nothing else. *)
Ltac mred := cbn [mbind outcome_bind mret outcome_ret].
Tactic Notation "mred" "in" hyp(H) := cbn [mbind outcome_bind mret outcome_ret] in H.

(** Linear arithmetic with division and modulo by constants. *)
Ltac dlia := Z.to_euclidean_division_equations; lia.
Ltac dnia := Z.to_euclidean_division_equations; nia.

(** Put the ranges of the wraps of the goal and context in scope. *)
Ltac wrap_ranges :=
  repeat match goal with
  | |- context [u8 ?z] =>
      lazymatch goal with _ : is_u8 (u8 z) |- _ => fail | _ => pose proof (u8_range z) end
  | |- context [u32 ?z] =>
      lazymatch goal with _ : is_u32 (u32 z) |- _ => fail | _ => pose proof (u32_range z) end
  | _ : context [u32 ?z] |- _ =>
      lazymatch goal with _ : is_u32 (u32 z) |- _ => fail | _ => pose proof (u32_range z) end
  end.

(* ------------------------------------------------------------------ *)
(** ** Lemmas: outcomes *)

Lemma bind_done {A B} (o : outcome A) (k : A -> outcome B) b :
  (o ≫= k) = Done b <-> exists a, o = Done a /\ k a = Done b.
Proof.
  destruct o as [a|f]; cbn; split.
  - eauto.
  - intros (a' & [= ->] & ?). done.
  - done.
  - intros (a' & ? & ?). done.
Qed.

Lemma bind_assoc {A B C} (o : outcome A) (k : A -> outcome B) (l : B -> outcome C) :
  ((o ≫= k) ≫= l) = (o ≫= fun a => k a ≫= l).
Proof. by destruct o. Qed.

Lemma bind_ext {A B} (o : outcome A) (k l : A -> outcome B) :
  (forall a, k a = l a) -> (o ≫= k) = (o ≫= l).
Proof. intros H. destruct o; cbn; auto. Qed.

Lemma rd_done {A} (l : list A) i :
  0 <= i < Z.of_nat (length l) -> exists v, rd l i = Done v /\ l !! Z.to_nat i = Some v.
Proof.
  intros Hi. unfold rd. rewrite decide_True by lia.
  destruct (lookup_lt_is_Some_2 l (Z.to_nat i)) as [v Hv]; [lia|].
  exists v. by rewrite Hv.
Qed.

Lemma wr_done {A} (l : list A) i v :
  0 <= i < Z.of_nat (length l) -> wr l i v = Done (<[Z.to_nat i := v]> l).
Proof. intros. unfold wr. by rewrite decide_True. Qed.

(** Reading an array whose elements all satisfy [P]. *)
Lemma rd_forall {A} (P : A -> Prop) (l : list A) i :
  Forall P l -> 0 <= i < Z.of_nat (length l) -> exists v, rd l i = Done v /\ P v.
Proof.
  intros HP Hi. destruct (rd_done l i Hi) as (v & Hv & Hl).
  exists v. split; [done|]. by eapply Forall_lookup_1.
Qed.

Lemma Done_inj {A} (a a' : A) : Done a = Done a' -> a = a'.
Proof. by injection 1. Qed.

Lemma Done_pair_inj {A B} (a a' : A) (b b' : B) : Done (a, b) = Done (a', b') -> a = a' /\ b = b'.
Proof. by intros [= -> ->]. Qed.

Lemma udiv_done a b : b <> 0 -> udiv a b = Done (a / b).
Proof. intros. unfold udiv. by rewrite decide_False. Qed.

(* ------------------------------------------------------------------ *)
(** ** Lemmas: loops *)

Section loops.
Context {S : Type}.
Implicit Types (body : Z -> S -> outcome S) (s : S).

Lemma for_loop_app n1 n2 i step body s :
  for_loop (n1 + n2) i step body s =
  (s' ← for_loop n1 i step body s; for_loop n2 (i + Z.of_nat n1 * step) step body s').
Proof.
  revert i s. induction n1 as [|n1 IH]; intros i s; simpl.
  - f_equal. lia.
  - rewrite bind_assoc. apply bind_ext. intros s'. rewrite IH.
    apply bind_ext. intros s''. f_equal. lia.
Qed.

(** Blocks of [k] unit rounds are rounds of step [k]. *)
Lemma for_loop_blocks n k i body s :
  for_loop (n * k) i 1 body s =
  for_loop n i (Z.of_nat k) (fun j => for_loop k j 1 body) s.
Proof.
  revert i s. induction n as [|n IH]; intros i s; simpl; [done|].
  rewrite for_loop_app. apply bind_ext. intros s'.
  rewrite Z.mul_1_r. apply IH.
Qed.

Lemma for_loop_ext n i step body1 body2 s :
  (forall k s, 0 <= k < Z.of_nat n ->
    body1 (i + k * step) s = body2 (i + k * step) s) ->
  for_loop n i step body1 s = for_loop n i step body2 s.
Proof.
  revert i s. induction n as [|n IH]; intros i s H; simpl; [done|].
  pose proof (H 0 s ltac:(lia)) as H0. rewrite Z.mul_0_l, Z.add_0_r in H0.
  rewrite H0. apply bind_ext. intros s'. apply IH. intros k s'' Hk.
  specialize (H (k + 1) s'' ltac:(lia)).
  by replace (i + step + k * step) with (i + (k + 1) * step) by lia.
Qed.

(** Every loop is a unit loop from 0 with the index recomputed. *)
Lemma for_loop_reindex n i step body s :
  for_loop n i step body s = for_loop n 0 1 (fun k => body (i + k * step)) s.
Proof.
  assert (forall d, for_loop n (i + d * step) step body s =
    for_loop n d 1 (fun k => body (i + k * step)) s) as H.
  { revert s. induction n as [|n IH]; intros s d; simpl; [done|].
    apply bind_ext. intros s'. rewrite <- IH. f_equal. lia. }
  specialize (H 0). by rewrite Z.mul_0_l, Z.add_0_r in H.
Qed.

(** The invariant rule: [I i s] holds when the index is [i]. *)
Lemma for_loop_inv (I : Z -> S -> Prop) n i step body s :
  I i s ->
  (forall k s, 0 <= k < Z.of_nat n -> I (i + k * step) s ->
    exists s', body (i + k * step) s = Done s' /\ I (i + (k + 1) * step) s') ->
  exists s', for_loop n i step body s = Done s' /\ I (i + Z.of_nat n * step) s'.
Proof.
  revert i s. induction n as [|n IH]; intros i s Hi Hstep; cbn [for_loop].
  - exists s. split; [done|]. by replace (i + Z.of_nat 0 * step) with i by lia.
  - destruct (Hstep 0 s) as (s1 & E1 & H1);
      [lia|by rewrite Z.mul_0_l, Z.add_0_r|].
    rewrite Z.mul_0_l, Z.add_0_r in E1. rewrite E1. cbn.
    replace (i + (0 + 1) * step) with (i + step) in H1 by lia.
    destruct (IH (i + step) s1 H1) as (s2 & E2 & H2).
    { intros k s2 Hk. specialize (Hstep (k + 1) s2 ltac:(lia)).
      replace (i + step + k * step) with (i + (k + 1) * step) by lia.
      by replace (i + step + (k + 1) * step) with (i + (k + 1 + 1) * step) by lia. }
    exists s2. split; [done|].
    by replace (i + Z.of_nat (Datatypes.S n) * step)
      with (i + step + Z.of_nat n * step) by lia.
Qed.

Lemma for_range_inv (I : Z -> S -> Prop) start stop body s :
  start <= stop ->
  I start s ->
  (forall i s, start <= i < stop -> I i s ->
    exists s', body i s = Done s' /\ I (i + 1) s') ->
  exists s', for_range start stop 1 body s = Done s' /\ I stop s'.
Proof.
  intros Hle H0 Hstep. unfold for_range. rewrite Z.div_1_r.
  destruct (for_loop_inv I (Z.to_nat (stop - start + 1 - 1)) start 1 body s H0)
    as (s' & E & HI).
  - intros k s1 Hk H1. rewrite Z.mul_1_r in *.
    replace (start + (k + 1) * 1) with (start + k + 1) by lia.
    apply Hstep; [lia|done].
  - exists s'. split; [done|].
    by replace (start + Z.of_nat (Z.to_nat (stop - start + 1 - 1)) * 1)
      with stop in HI by lia.
Qed.

Lemma for_count_inv (I : Z -> S -> Prop) n body s :
  0 <= n ->
  I 0 s ->
  (forall i s, 0 <= i < n -> I i s -> exists s', body i s = Done s' /\ I (i + 1) s') ->
  exists s', for_count n body s = Done s' /\ I n s'.
Proof. intros. by apply (for_range_inv I). Qed.

Lemma for_count_ext n body1 body2 s :
  (forall i s, 0 <= i < n -> body1 i s = body2 i s) ->
  for_count n body1 s = for_count n body2 s.
Proof.
  intros H. unfold for_count, for_range. rewrite Z.div_1_r.
  apply for_loop_ext. intros k s' Hk. rewrite Z.mul_1_r. apply H. lia.
Qed.

Lemma for_count_le_0 n body s : n <= 0 -> for_count n body s = Done s.
Proof.
  intros H. unfold for_count, for_range.
  by replace (Z.to_nat ((n - 0 + 1 - 1) / 1)) with O by (rewrite Z.div_1_r; lia).
Qed.

Lemma for_range_empty a b body s : b <= a -> for_range a b 1 body s = Done s.
Proof.
  intros H. unfold for_range.
  by replace (Z.to_nat ((b - a + 1 - 1) / 1)) with O by (rewrite Z.div_1_r; lia).
Qed.

Lemma for_range_split a b c body s :
  a <= b <= c ->
  for_range a c 1 body s =
  (s' ← for_range a b 1 body s; for_range b c 1 body s').
Proof.
  intros H. unfold for_range. rewrite !Z.div_1_r.
  replace (Z.to_nat (c - a + 1 - 1))
    with (Z.to_nat (b - a + 1 - 1) + Z.to_nat (c - b + 1 - 1))%nat by lia.
  rewrite for_loop_app. apply bind_ext. intros s'. f_equal. lia.
Qed.
End loops.

(** Two loops agree when their bodies agree on the states an invariant
    holds of, and the first preserves it. *)
Lemma for_loop_ext_inv {S} (P : S -> Prop) n i step (body1 body2 : Z -> S -> outcome S) s :
  P s ->
  (forall k s, P s -> body1 k s = body2 k s) ->
  (forall k s s', P s -> body1 k s = Done s' -> P s') ->
  for_loop n i step body1 s = for_loop n i step body2 s.
Proof.
  intros HP Heq Hpres. revert i s HP. induction n as [|n IH]; intros i s HP; [done|].
  simpl. rewrite <- (Heq i s HP). destruct (body1 i s) as [s'|f] eqn:E; [|done].
  cbn. eauto.
Qed.

(** A loop over [n] pairs is the loop over the [2 * n] halves. *)
Lemma for_range_pairs {S} (pair cell : Z -> S -> outcome S) n s :
  0 <= n ->
  (forall k s, pair k s = (s ← cell (2 * k) s; cell (2 * k + 1) s)) ->
  for_range 0 n 1 pair s = for_range 0 (2 * n) 1 cell s.
Proof.
  intros Hn Hp. unfold for_range. rewrite !Z.div_1_r.
  replace (Z.to_nat (2 * n - 0 + 1 - 1)) with (Z.to_nat (n - 0 + 1 - 1) * 2)%nat by lia.
  rewrite for_loop_blocks, (for_loop_reindex _ _ (Z.of_nat 2)).
  apply for_loop_ext. intros k s' Hk. rewrite Hp.
  replace (0 + (0 + k * 1) * Z.of_nat 2) with (2 * (0 + k * 1)) by lia.
  simpl. apply bind_ext. intros s''. by destruct (cell _ s'').
Qed.

(** The eight-fold unrolled loop of the pixel routines, followed by the
    loop over what is left, is the plain loop. *)
Lemma for_range_unroll8 {S} (pair : Z -> S -> outcome S) q n s :
  0 <= 8 * q <= n ->
  (s ← for_range 0 (8 * q) 8 (fun i s =>
     s ← pair (i + 0) s; s ← pair (i + 1) s; s ← pair (i + 2) s; s ← pair (i + 3) s;
     s ← pair (i + 4) s; s ← pair (i + 5) s; s ← pair (i + 6) s; pair (i + 7) s) s;
   for_range (8 * q) n 1 pair s) = for_range 0 n 1 pair s.
Proof.
  intros Hq. rewrite (for_range_split 0 (8 * q) n) by lia.
  assert (for_range 0 (8 * q) 1 pair s = for_range 0 (8 * q) 8 (fun i s =>
     s ← pair (i + 0) s; s ← pair (i + 1) s; s ← pair (i + 2) s; s ← pair (i + 3) s;
     s ← pair (i + 4) s; s ← pair (i + 5) s; s ← pair (i + 6) s; pair (i + 7) s) s)
    as ->; [|done].
  unfold for_range. rewrite Z.div_1_r.
  replace ((8 * q - 0 + 8 - 1) / 8) with q by (apply Z.div_unique with 7; lia).
  replace (Z.to_nat (8 * q - 0 + 1 - 1)) with (Z.to_nat q * 8)%nat by lia.
  rewrite for_loop_blocks. apply for_loop_ext. intros k s' Hk.
  set (j := 0 + k * 8). change (0 + k * Z.of_nat 8) with j. cbn [for_loop].
  repeat match goal with |- context [j + 0] => rewrite Z.add_0_r end.
  replace (j + 1 + 1) with (j + 2) by lia. replace (j + 2 + 1) with (j + 3) by lia.
  replace (j + 3 + 1) with (j + 4) by lia. replace (j + 4 + 1) with (j + 5) by lia.
  replace (j + 5 + 1) with (j + 6) by lia. replace (j + 6 + 1) with (j + 7) by lia.
  repeat (apply bind_ext; intros ?). by destruct (pair _ _).
Qed.
