(* ===== verification/Surface.v ===== *)
(** * Pixel memory and the surface primitives

    [FRAMEBUFFER_INFO] and the routines of [BootApp.c] that move pixels
    without blending them: [FillPixels32], [CopyPixels32], [ClearScreen],
    [ClearRect] and [BlitSurfaceRect].  Memory is a partial map from byte
    addresses to 32-bit cells, so an access outside every mapped buffer is
    a fault of the model and "the routine never faults" is memory safety. *)
From Stdlib Require Import ZArith Lia.
From stdpp Require Import base gmap list.
From S2P Require Import Prelude.
#[local] Open Scope Z_scope.

(* ------------------------------------------------------------------ *)
(** ** Memory *)

(** The 32-bit cells the program can touch, by byte address. *)
Abbreviation mem := (gmap Z Z).

Definition load32 (p : Z) (m : mem) : outcome Z :=
  match m !! p with Some v => Done v | None => Fault OutOfBounds end.

Definition store32 (p v : Z) (m : mem) : outcome mem :=
  match m !! p with Some _ => Done (<[p := u32 v]> m) | None => Fault OutOfBounds end.

(** 64-bit accesses, little endian, on two neighbouring cells. *)
Definition load64 (p : Z) (m : mem) : outcome Z :=
  lo ← load32 p m;
  hi ← load32 (u64 (p + 4)) m;
  Done (lo + hi * 4294967296).

Definition store64 (p v : Z) (m : mem) : outcome mem :=
  m ← store32 p v m;
  store32 (u64 (p + 4)) (v / 4294967296) m.

(** Pointer arithmetic on [UINT32*] and [UINT64*]. *)
Definition elem (p i : Z) : Z := u64 (p + 4 * i).
Definition elem64 (p i : Z) : Z := u64 (p + 8 * i).

(* ------------------------------------------------------------------ *)
(** ** Data *)

Record FRAMEBUFFER_INFO : Type := mkFB {
  ScreenWidth : Z;
  ScreenHeight : Z;
  PixelsPerScanLine : Z;
  PixelFormat : Z;
  RedMask : Z;
  GreenMask : Z;
  BlueMask : Z;
  Framebuffer : Z;
}.

(* ------------------------------------------------------------------ *)
(** ** Operations *)

Definition FillPixels32 (Destination Count Color : Z) (m : mem) : outcome mem :=
  '(Index, m) ←
    (if Z.land Destination 7 =? 0 then
       let Color64 := Z.lor (u64 (Z.shiftl Color 32)) Color in
       let PairCount := Z.shiftr Count 1 in
       let BulkPairCount := Z.land PairCount (u32 (Z.lnot 7)) in
       m ← for_range 0 BulkPairCount 8 (fun PairIndex m =>
         m ← store64 (elem64 Destination (PairIndex + 0)) Color64 m;
         m ← store64 (elem64 Destination (PairIndex + 1)) Color64 m;
         m ← store64 (elem64 Destination (PairIndex + 2)) Color64 m;
         m ← store64 (elem64 Destination (PairIndex + 3)) Color64 m;
         m ← store64 (elem64 Destination (PairIndex + 4)) Color64 m;
         m ← store64 (elem64 Destination (PairIndex + 5)) Color64 m;
         m ← store64 (elem64 Destination (PairIndex + 6)) Color64 m;
         store64 (elem64 Destination (PairIndex + 7)) Color64 m) m;
       m ← for_range BulkPairCount PairCount 1 (fun PairIndex m =>
         store64 (elem64 Destination PairIndex) Color64 m) m;
       Done (u32 (Z.shiftl PairCount 1), m)
     else Done (0, m));
  for_range Index Count 1 (fun Index m =>
    store32 (elem Destination Index) Color m) m.

Definition copy64 (Destination Source PairIndex : Z) (m : mem) : outcome mem :=
  v ← load64 (elem64 Source PairIndex) m;
  store64 (elem64 Destination PairIndex) v m.

Definition CopyPixels32 (Destination Source Count : Z) (m : mem) : outcome mem :=
  '(Index, m) ←
    (if Z.land (Z.lor Destination Source) 7 =? 0 then
       let PairCount := Z.shiftr Count 1 in
       let BulkPairCount := Z.land PairCount (u32 (Z.lnot 7)) in
       m ← for_range 0 BulkPairCount 8 (fun PairIndex m =>
         m ← copy64 Destination Source (PairIndex + 0) m;
         m ← copy64 Destination Source (PairIndex + 1) m;
         m ← copy64 Destination Source (PairIndex + 2) m;
         m ← copy64 Destination Source (PairIndex + 3) m;
         m ← copy64 Destination Source (PairIndex + 4) m;
         m ← copy64 Destination Source (PairIndex + 5) m;
         m ← copy64 Destination Source (PairIndex + 6) m;
         copy64 Destination Source (PairIndex + 7) m) m;
       m ← for_range BulkPairCount PairCount 1 (fun PairIndex m =>
         copy64 Destination Source PairIndex m) m;
       Done (u32 (Z.shiftl PairCount 1), m)
     else Done (0, m));
  for_range Index Count 1 (fun Index m =>
    v ← load32 (elem Source Index) m;
    store32 (elem Destination Index) v m) m.

Definition ClearScreen (Fb : FRAMEBUFFER_INFO) (Color IgnoreBlackPixels : Z)
    (m : mem) : outcome mem :=
  if (negb (IgnoreBlackPixels =? 0) && (Color =? 0))%bool then Done m
  else
    let Total := u32 (PixelsPerScanLine Fb * ScreenHeight Fb) in
    FillPixels32 (Framebuffer Fb) Total Color m.

Definition ClearRect (fb : FRAMEBUFFER_INFO) (x y width height color : Z)
    (m : mem) : outcome mem :=
  if ((ScreenWidth fb <=? x) || (ScreenHeight fb <=? y))%bool then Done m
  else
    let maxWidth := u32 (ScreenWidth fb - x) in
    let maxHeight := u32 (ScreenHeight fb - y) in
    let width := if maxWidth <? width then maxWidth else width in
    let height := if maxHeight <? height then maxHeight else height in
    for_count height (fun row m =>
      let offset := u32 (u32 (y + row) * PixelsPerScanLine fb + x) in
      FillPixels32 (elem (Framebuffer fb) offset) width color m) m.

(** A [NULL] surface pointer is [None]. *)
Definition BlitSurfaceRect (Destination Source : option FRAMEBUFFER_INFO)
    (X Y Width Height : Z) (m : mem) : outcome mem :=
  match Destination, Source with
  | Some Destination, Some Source =>
    if ((Framebuffer Destination =? 0) || (Framebuffer Source =? 0))%bool then Done m
    else if ((ScreenWidth Destination <=? X) || (ScreenHeight Destination <=? Y) ||
             (ScreenWidth Source <=? X) || (ScreenHeight Source <=? Y))%bool then Done m
    else
      let MaxWidth := u32 (ScreenWidth Destination - X) in
      let MaxWidth := if u32 (ScreenWidth Source - X) <? MaxWidth
                      then u32 (ScreenWidth Source - X) else MaxWidth in
      let MaxHeight := u32 (ScreenHeight Destination - Y) in
      let MaxHeight := if u32 (ScreenHeight Source - Y) <? MaxHeight
                       then u32 (ScreenHeight Source - Y) else MaxHeight in
      let Width := if MaxWidth <? Width then MaxWidth else Width in
      let Height := if MaxHeight <? Height then MaxHeight else Height in
      for_count Height (fun Row m =>
        let DestinationOffset := u32 (u32 (Y + Row) * PixelsPerScanLine Destination + X) in
        let SourceOffset := u32 (u32 (Y + Row) * PixelsPerScanLine Source + X) in
        CopyPixels32 (elem (Framebuffer Destination) DestinationOffset)
          (elem (Framebuffer Source) SourceOffset) Width m) m
  | _, _ => Done m
  end.

(* ------------------------------------------------------------------ *)
(** ** Specification vocabulary *)

(** Every cell holds a 32-bit value. *)
Definition mem_wf (m : mem) : Prop := forall a v, m !! a = Some v -> is_u32 v.

(** The [n] cells from [p] on are mapped, and the range does not wrap. *)
Definition cells (p n : Z) (m : mem) : Prop :=
  0 <= p /\ p + 4 * n <= 18446744073709551616 /\
  forall i, 0 <= i < n -> is_Some (m !! (p + 4 * i)).

Definition in_cells (p n a : Z) : Prop := exists i, 0 <= i < n /\ a = p + 4 * i.

(** [m'] is [m] but for the values of the cells in [A]; nothing is mapped
    or unmapped. *)
Definition same_off (A : Z -> Prop) (m m' : mem) : Prop :=
  dom m' = dom m /\ forall a, ~ A a -> m' !! a = m !! a.

(** A framebuffer descriptor the firmware can hand out. *)
Record fb_wf (fb : FRAMEBUFFER_INFO) : Prop := {
  wf_width : 0 <= ScreenWidth fb <= PixelsPerScanLine fb;
  wf_width_int : ScreenWidth fb < 2147483648;
  wf_pitch : is_u32 (PixelsPerScanLine fb);
  wf_height : 0 <= ScreenHeight fb < 2147483648;
  wf_total : PixelsPerScanLine fb * ScreenHeight fb < 4294967296;
  wf_base : 0 <= Framebuffer fb;
  wf_top : Framebuffer fb + 4 * (PixelsPerScanLine fb * ScreenHeight fb)
           <= 18446744073709551616;
}.

(** The address of pixel [(x, y)]. *)
Definition pix (fb : FRAMEBUFFER_INFO) (x y : Z) : Z :=
  Framebuffer fb + 4 * (y * PixelsPerScanLine fb + x).

Definition in_buffer (fb : FRAMEBUFFER_INFO) (x y : Z) : Prop :=
  0 <= x < PixelsPerScanLine fb /\ 0 <= y < ScreenHeight fb.

Definition on_screen (fb : FRAMEBUFFER_INFO) (x y : Z) : Prop :=
  0 <= x < ScreenWidth fb /\ 0 <= y < ScreenHeight fb.

Definition mapped (fb : FRAMEBUFFER_INFO) (m : mem) : Prop :=
  forall x y, in_buffer fb x y -> is_Some (m !! pix fb x y).

Record ready (fb : FRAMEBUFFER_INFO) (m : mem) : Prop := {
  ready_fb : fb_wf fb;
  ready_mem : mem_wf m;
  ready_mapped : mapped fb m;
}.

(** The addresses of the pixels of [fb] that satisfy [R]. *)
Definition region (fb : FRAMEBUFFER_INFO) (R : Z -> Z -> Prop) (a : Z) : Prop :=
  exists x y, R x y /\ in_buffer fb x y /\ a = pix fb x y.

Definition rect (x0 y0 w h x y : Z) : Prop := x0 <= x < x0 + w /\ y0 <= y < y0 + h.

#[export] Instance on_screen_dec fb x y : Decision (on_screen fb x y).
Proof. unfold on_screen. apply _. Defined.

#[export] Instance rect_dec x0 y0 w h x y : Decision (rect x0 y0 w h x y).
Proof. unfold rect. apply _. Defined.

(** [c] never faults on a mapped surface and changes at most the pixels
    of [fb] in [R]. *)
Definition draws (fb : FRAMEBUFFER_INFO) (R : Z -> Z -> Prop)
    (c : mem -> outcome mem) : Prop :=
  forall m, ready fb m ->
    exists m', c m = Done m' /\ ready fb m' /\ same_off (region fb R) m m'.

(** [c] never faults on a mapped surface, changes at most the pixels of
    [fb] in [R], and gives each of them the value [f] computes from what
    the pixel held. *)
Definition paints (fb : FRAMEBUFFER_INFO) (R : Z -> Z -> Prop)
    (f : Z -> Z -> Z -> outcome Z) (c : mem -> outcome mem) : Prop :=
  forall m, ready fb m ->
    exists m', c m = Done m' /\ ready fb m' /\ same_off (region fb R) m m' /\
      forall px py old, in_buffer fb px py -> R px py -> m !! pix fb px py = Some old ->
        exists v, f px py old = Done v /\ m' !! pix fb px py = Some v.

(** Each pixel [c] leaves depends on what that pixel held and on nothing
    else of the memory. *)
Definition pointwise (fb : FRAMEBUFFER_INFO) (c : mem -> outcome mem) : Prop :=
  forall m1 m2 m1' m2', ready fb m1 -> ready fb m2 -> c m1 = Done m1' -> c m2 = Done m2' ->
    forall px py, in_buffer fb px py -> m1 !! pix fb px py = m2 !! pix fb px py ->
      m1' !! pix fb px py = m2' !! pix fb px py.

(** [c] draws in [R], pixel by pixel. *)
Definition tints (fb : FRAMEBUFFER_INFO) (R : Z -> Z -> Prop) (c : mem -> outcome mem) : Prop :=
  draws fb R c /\ pointwise fb c.

(** [c] tints [R] and what it leaves there does not depend on the memory. *)
Definition overwrites (fb : FRAMEBUFFER_INFO) (R : Z -> Z -> Prop) (c : mem -> outcome mem) : Prop :=
  tints fb R c /\
  forall m1 m2 m1' m2', ready fb m1 -> ready fb m2 -> c m1 = Done m1' -> c m2 = Done m2' ->
    forall px py, in_buffer fb px py -> R px py -> m1' !! pix fb px py = m2' !! pix fb px py.

(** What every judgement on drawing code promises to the routines that walk
    over glyphs, rows and offsets: it holds of doing nothing, of sequences,
    and of equal functions. *)
Class Drawing (J : (mem -> outcome mem) -> Prop) : Prop := {
  drawing_ret : J (fun m => Done m);
  drawing_seq c1 c2 : J c1 -> J c2 -> J (fun m => m' ← c1 m; c2 m');
  drawing_ext c1 c2 : (forall m, c1 m = c2 m) -> J c2 -> J c1;
}.

(** The memory with one [w]-cell buffer at [p], every cell [v]. *)
Definition buffer (p : Z) (n : nat) (v : Z) : mem :=
  list_to_map ((fun i => (p + 4 * Z.of_nat i, v)) <$> seq 0 n).

(** A six by four surface with a pitch of eight pixels, for the witnesses. *)
Definition demo_fb (p : Z) : FRAMEBUFFER_INFO := mkFB 6 4 8 1 0 0 0 p.

(** The plain loops the fill and the copy optimise. *)
Definition fill_ref (Destination Count Color : Z) : mem -> outcome mem :=
  for_count Count (fun i => store32 (elem Destination i) Color).

Definition copy_ref (Destination Source Count : Z) : mem -> outcome mem :=
  for_count Count (fun i m =>
    v ← load32 (elem Source i) m; store32 (elem Destination i) v m).

(** Two surfaces share no pixel. *)
Definition disjoint_surfaces (d s : FRAMEBUFFER_INFO) : Prop :=
  forall x y x' y', in_buffer d x y -> in_buffer s x' y' -> pix d x y <> pix s x' y'.

(* ------------------------------------------------------------------ *)
(** ** Lemmas: memory *)

#[export] Instance same_off_equiv A : Equivalence (same_off A).
Proof.
  unfold same_off. split.
  - intros m. done.
  - intros m m' [? H]. split; [done|]. intros a Ha. by rewrite H.
  - intros m1 m2 m3 [? H] [? H']. split; [congruence|].
    intros a Ha. by rewrite H', H.
Qed.

Lemma same_off_weaken (A B : Z -> Prop) m m' :
  (forall a, A a -> B a) -> same_off A m m' -> same_off B m m'.
Proof. intros HAB [? H]. split; [done|]. intros a Ha. apply H. eauto. Qed.

Lemma same_off_is_Some A m m' a : same_off A m m' -> is_Some (m !! a) -> is_Some (m' !! a).
Proof. intros [Hd _]. rewrite <- !elem_of_dom. by rewrite Hd. Qed.

Lemma same_off_cells A m m' p n : same_off A m m' -> cells p n m -> cells p n m'.
Proof.
  intros H (? & ? & Hc). split_and!; [done..|]. intros i Hi.
  eapply same_off_is_Some; eauto.
Qed.

Lemma store32_done p v m :
  is_Some (m !! p) ->
  store32 p v m = Done (<[p := u32 v]> m) /\ same_off (eq p) m (<[p := u32 v]> m).
Proof.
  intros [w Hw]. unfold store32. rewrite Hw. split; [done|]. split.
  - rewrite dom_insert_lookup_L; [done|]. by exists w.
  - intros a Ha. by rewrite lookup_insert_ne.
Qed.

Lemma store32_mem_wf p v m m' : mem_wf m -> store32 p v m = Done m' -> mem_wf m'.
Proof.
  intros Hm. unfold store32. destruct (m !! p); [|done]. intros [= <-] a w.
  rewrite lookup_insert_Some. intros [[<- <-]|[_ H]]; [apply u32_range|eauto].
Qed.

Lemma load32_done p m : mem_wf m -> is_Some (m !! p) ->
  exists v, load32 p m = Done v /\ is_u32 v /\ m !! p = Some v.
Proof.
  intros Hm [v Hv]. exists v. unfold load32. rewrite Hv. split_and!; try done; by eapply Hm.
Qed.

Lemma elem_id p n i : 0 <= p -> p + 4 * n <= 18446744073709551616 -> 0 <= i < n ->
  elem p i = p + 4 * i.
Proof. intros. unfold elem. apply u64_id. lia. Qed.

Lemma elem_elem64 p k : elem p (2 * k) = elem64 p k.
Proof. unfold elem, elem64. f_equal. lia. Qed.

Lemma elem_elem64_hi p k : elem p (2 * k + 1) = u64 (elem64 p k + 4).
Proof.
  unfold elem, elem64, u64. rewrite Zplus_mod_idemp_l. f_equal. lia.
Qed.

Lemma land7 x : Z.land x 7 = x mod 8.
Proof. change 7 with (Z.ones 3). by rewrite Z.land_ones. Qed.

(** [x & ~7] on 32 bits. *)
Lemma land_not7 x : is_u32 x -> Z.land x (u32 (Z.lnot 7)) = 8 * (x / 8).
Proof.
  intros Hx. change (u32 (Z.lnot 7)) with (Z.land (Z.ones 32) (Z.lnot (Z.ones 3))).
  rewrite Z.land_assoc, Z.land_ones by lia.
  rewrite Z.mod_small by lia.
  rewrite <- Z.ldiff_land, Z.ldiff_ones_r by lia.
  rewrite Z.shiftr_div_pow2, Z.shiftl_mul_pow2 by lia. change (2 ^ 3) with 8. lia.
Qed.

Lemma unroll_bounds n : is_u32 n -> 0 <= 8 * (Z.shiftr n 1 / 8) <= Z.shiftr n 1.
Proof. intros. rewrite Z.shiftr_div_pow2 by lia. change (2 ^ 1) with 2. dlia. Qed.

(* ------------------------------------------------------------------ *)
(** ** Lemmas: [FillPixels32] and [CopyPixels32] *)

Lemma store64_halves p c k m :
  is_u32 c ->
  store64 (elem64 p k) (Z.lor (u64 (Z.shiftl c 32)) c) m =
  (m ← store32 (elem p (2 * k)) c m; store32 (elem p (2 * k + 1)) c m).
Proof.
  intros Hc. unfold store64. rewrite elem_elem64, elem_elem64_hi.
  assert (Z.lor (u64 (Z.shiftl c 32)) c = c * 4294967296 + c) as ->.
  { rewrite Z.shiftl_mul_pow2 by lia. change (2 ^ 32) with 4294967296.
    rewrite u64_id by lia. symmetry. apply Z.add_nocarry_lor.
    apply Z.bits_inj'. intros n Hn. rewrite Z.land_spec, Z.bits_0.
    change 4294967296 with (2 ^ 32). destruct (decide (n < 32)).
    - by rewrite Z.mul_pow2_bits_low.
    - rewrite (Z.bits_above_log2 c n); [by rewrite andb_false_r|lia|].
      destruct (decide (c = 0)) as [->|]; [cbn; lia|].
      apply Z.log2_lt_pow2; [lia|].
      pose proof (Z.pow_le_mono_r 2 32 n ltac:(lia) ltac:(lia)). lia. }
  assert (store32 (elem64 p k) (c * 4294967296 + c) m = store32 (elem64 p k) c m) as ->.
  { unfold store32, u32. by rewrite Z.add_comm, Z_mod_plus_full. }
  apply bind_ext. intros m'. unfold store32, u32.
  rewrite Z.div_add_l, (Z.div_small c) by lia. by rewrite Z.add_0_r.
Qed.

Lemma FillPixels32_ref p n c m :
  is_u32 n -> is_u32 c -> FillPixels32 p n c m = fill_ref p n c m.
Proof.
  intros Hn Hc. unfold FillPixels32. destruct (_ =? 0); [|done].
  cbn zeta.
  assert (is_u32 (Z.shiftr n 1)) by (rewrite Z.shiftr_div_pow2 by lia; change (2^1) with 2; dlia).
  rewrite land_not7 by done.
  pose proof (unroll_bounds n Hn).
  rewrite <- bind_assoc.
  rewrite (for_range_unroll8 (fun k => store64 (elem64 p k) _) _ (Z.shiftr n 1) m) by lia.
  rewrite (for_range_pairs _ (fun i => store32 (elem p i) c)) by
    (first [lia | intros; by apply store64_halves]).
  rewrite bind_assoc. cbn.
  rewrite Z.shiftl_mul_pow2, Z.shiftr_div_pow2 by lia. change (2 ^ 1) with 2.
  rewrite u32_id by dlia.
  unfold fill_ref, for_count. rewrite (for_range_split 0 (2 * (n / 2)) n) by dlia.
  by rewrite Z.mul_comm.
Qed.

Lemma copy64_halves d s k m :
  mem_wf m -> d mod 8 = 0 -> s mod 8 = 0 ->
  copy64 d s k m =
  (m ← (v ← load32 (elem s (2 * k)) m; store32 (elem d (2 * k)) v m);
   v ← load32 (elem s (2 * k + 1)) m; store32 (elem d (2 * k + 1)) v m).
Proof.
  intros Hm Hd Hs. unfold copy64, load64, store64.
  rewrite !elem_elem64, !elem_elem64_hi.
  assert (elem64 d k <> u64 (elem64 s k + 4)) as Hne.
  { unfold elem64, u64. intros E. apply (f_equal (fun z => z mod 8)) in E.
    rewrite !Zplus_mod_idemp_l in E.
    rewrite !Z.mod_mod_divide in E by (exists 2305843009213693952; lia).
    dlia. }
  unfold load32, store32.
  destruct (m !! elem64 s k) as [lo|] eqn:Elo; [|done]. cbn.
  pose proof (Hm _ _ Elo) as Hlo.
  destruct (m !! u64 (elem64 s k + 4)) as [hi|] eqn:Ehi; cbn.
  - pose proof (Hm _ _ Ehi) as Hhi.
    destruct (m !! elem64 d k) as [w|] eqn:Ed; [|done]. cbn.
    rewrite (lookup_insert_ne m (elem64 d k) (u64 (elem64 s k + 4))) by done. rewrite Ehi. cbn.
    replace (u32 (lo + hi * 4294967296)) with (u32 lo)
      by (unfold u32; by rewrite Z_mod_plus_full).
    by replace ((lo + hi * 4294967296) / 4294967296) with hi
      by (rewrite Z.div_add, Z.div_small by lia; lia).
  - destruct (m !! elem64 d k) as [w|] eqn:Ed; [|done]. cbn.
    rewrite (lookup_insert_ne m (elem64 d k) (u64 (elem64 s k + 4))) by done. by rewrite Ehi.
Qed.

Lemma copy_cell_mem_wf d s i m m' : mem_wf m ->
  (v ← load32 (elem s i) m; store32 (elem d i) v m) = Done m' -> mem_wf m'.
Proof.
  intros Hm. rewrite bind_done. intros (v & _ & E). by eapply store32_mem_wf.
Qed.

Lemma CopyPixels32_ref d s n m :
  is_u32 n -> mem_wf m -> CopyPixels32 d s n m = copy_ref d s n m.
Proof.
  intros Hn Hm. unfold CopyPixels32. destruct (_ =? 0) eqn:Ea; [|done].
  apply Z.eqb_eq in Ea. rewrite Z.land_lor_distr_l in Ea.
  apply Z.lor_eq_0_iff in Ea as [Ed Es]. rewrite land7 in Ed, Es.
  cbn zeta.
  assert (is_u32 (Z.shiftr n 1)) by (rewrite Z.shiftr_div_pow2 by lia; change (2^1) with 2; dlia).
  rewrite land_not7 by done.
  pose proof (unroll_bounds n Hn).
  rewrite <- bind_assoc.
  rewrite (for_range_unroll8 (copy64 d s) _ (Z.shiftr n 1) m) by lia.
  set (cell := fun i (m : mem) => v ← load32 (elem s i) m; store32 (elem d i) v m).
  assert (for_range 0 (Z.shiftr n 1) 1 (copy64 d s) m =
    for_range 0 (Z.shiftr n 1) 1 (fun k m => m ← cell (2 * k) m; cell (2 * k + 1) m) m)
    as ->.
  { apply (for_loop_ext_inv mem_wf); [done|..].
    - intros k m' Hm'. by apply copy64_halves.
    - intros k m1 m2 Hm1. rewrite (copy64_halves d s k m1 Hm1 Ed Es).
      rewrite bind_done. intros (m3 & E3 & E2).
      eapply copy_cell_mem_wf; [|exact E2]. by eapply copy_cell_mem_wf. }
  rewrite (for_range_pairs _ cell) by (first [lia | done]).
  rewrite bind_assoc. cbn.
  rewrite Z.shiftl_mul_pow2, Z.shiftr_div_pow2 by lia. change (2 ^ 1) with 2.
  rewrite u32_id by dlia.
  unfold copy_ref, for_count. rewrite (for_range_split 0 (2 * (n / 2)) n) by dlia.
  by rewrite Z.mul_comm.
Qed.

(** What a fill does to the cells. *)
Lemma fill_spec p n c m :
  is_u32 n -> is_u32 c -> cells p n m -> mem_wf m ->
  exists m', FillPixels32 p n c m = Done m' /\ mem_wf m' /\
    same_off (in_cells p n) m m' /\
    forall i, 0 <= i < n -> m' !! (p + 4 * i) = Some c.
Proof.
  intros Hn Hc (Hp & Htop & Hcells) Hm. rewrite FillPixels32_ref by done.
  destruct (for_count_inv (fun k m' => mem_wf m' /\ same_off (in_cells p n) m m' /\
      forall i, 0 <= i < k -> m' !! (p + 4 * i) = Some c) n
    (fun i => store32 (elem p i) c) m) as (m' & E & ? & ? & ?); [lia|..].
  - split_and!; [done|done|intros; lia].
  - intros i m1 Hi (Hwf & Hsame & Hdone).
    rewrite (elem_id p n i) by lia.
    destruct (store32_done (p + 4 * i) c m1) as [E Hs];
      [eapply same_off_is_Some; eauto|].
    rewrite E. eexists. split; [done|]. rewrite u32_id in * by done. split_and!.
    + by eapply store32_mem_wf.
    + etrans; [done|]. eapply same_off_weaken; [|done]. intros a <-. by exists i.
    + intros k Hk. destruct (decide (k = i)) as [->|].
      * apply lookup_insert_eq.
      * rewrite lookup_insert_ne by lia. apply Hdone. lia.
  - exists m'. done.
Qed.

(** What a copy between disjoint buffers does to the cells. *)
Lemma copy_spec d s n m :
  is_u32 n -> mem_wf m -> cells d n m -> cells s n m ->
  (forall i j, 0 <= i < n -> 0 <= j < n -> d + 4 * i <> s + 4 * j) ->
  exists m', CopyPixels32 d s n m = Done m' /\ mem_wf m' /\
    same_off (in_cells d n) m m' /\
    forall i, 0 <= i < n -> m' !! (d + 4 * i) = m !! (s + 4 * i).
Proof.
  intros Hn Hm (Hd & Hdt & Hdc) (Hs & Hst & Hsc) Hdisj.
  rewrite CopyPixels32_ref by done.
  destruct (for_count_inv (fun k m' => mem_wf m' /\ same_off (in_cells d n) m m' /\
      forall i, 0 <= i < k -> m' !! (d + 4 * i) = m !! (s + 4 * i)) n
    (fun i m => v ← load32 (elem s i) m; store32 (elem d i) v m) m)
    as (m' & E & ? & ? & ?); [lia|..].
  - split_and!; [done|done|intros; lia].
  - intros i m1 Hi (Hwf & Hsame & Hdone).
    rewrite (elem_id d n i), (elem_id s n i) by lia.
    destruct (load32_done (s + 4 * i) m1) as (v & Ev & Hv & Hlk);
      [done|eapply same_off_is_Some; eauto|].
    destruct (store32_done (d + 4 * i) v m1) as [E Hst1];
      [eapply same_off_is_Some; eauto|].
    rewrite Ev. cbn. rewrite E. eexists. split; [done|].
    assert (m !! (s + 4 * i) = Some v) as Hv0.
    { rewrite <- Hlk. symmetry. apply Hsame. intros (j & Hj & Ej). by apply (Hdisj j i). }
    rewrite u32_id in * by done. split_and!.
    + by eapply store32_mem_wf.
    + etrans; [done|]. eapply same_off_weaken; [|done]. intros a <-. by exists i.
    + intros k Hk. destruct (decide (k = i)) as [->|].
      * by rewrite lookup_insert_eq, Hv0.
      * rewrite lookup_insert_ne by lia. apply Hdone. lia.
  - exists m'. done.
Qed.

(** Copying a buffer onto itself changes nothing. *)
Lemma copy_self p n m :
  is_u32 n -> mem_wf m -> cells p n m -> CopyPixels32 p p n m = Done m.
Proof.
  intros Hn Hm (Hp & Htop & Hc). rewrite CopyPixels32_ref by done.
  destruct (for_count_inv (fun _ m' => m' = m) n
    (fun i m => v ← load32 (elem p i) m; store32 (elem p i) v m) m)
    as (m' & E & ->); [lia|done| |done].
  intros i m1 Hi ->. rewrite (elem_id p n i) by lia.
  destruct (load32_done (p + 4 * i) m) as (v & Ev & Hv & Hlk); [done|eauto|].
  rewrite Ev. cbn. unfold store32. rewrite Hlk. eexists. split; [done|].
  rewrite u32_id by done. by apply insert_id.
Qed.

(* ------------------------------------------------------------------ *)
(** ** Lemmas: pixels and the [draws] judgement *)

Lemma pix_in_range fb x y : fb_wf fb -> in_buffer fb x y ->
  0 <= y * PixelsPerScanLine fb + x < PixelsPerScanLine fb * ScreenHeight fb.
Proof. intros [] [Hx Hy]. nia. Qed.

Lemma pix_inj fb x y x' y' :
  in_buffer fb x y -> in_buffer fb x' y' -> pix fb x y = pix fb x' y' -> x = x' /\ y = y'.
Proof.
  unfold pix, in_buffer. intros [Hx Hy] [Hx' Hy'] E.
  assert (y = y') as -> by nia. lia.
Qed.

Lemma on_screen_in_buffer fb x y : fb_wf fb -> on_screen fb x y -> in_buffer fb x y.
Proof. intros [] [Hx Hy]. split; lia. Qed.

(** The address the code computes for pixel [(x, y)]. *)
Lemma elem_pix fb x y : fb_wf fb -> in_buffer fb x y ->
  elem (Framebuffer fb) (u32 (y * PixelsPerScanLine fb + x)) = pix fb x y.
Proof.
  intros Hfb Hxy. pose proof (pix_in_range fb x y Hfb Hxy). destruct Hfb.
  rewrite u32_id by lia. unfold elem, pix. apply u64_id. lia.
Qed.

(** A row segment is a run of cells. *)
Lemma row_cells fb m x y n :
  ready fb m -> 0 <= x -> x + n <= PixelsPerScanLine fb -> 0 <= y < ScreenHeight fb ->
  cells (pix fb x y) n m.
Proof.
  intros [Hfb Hm Hmap] Hx Hn Hy. unfold cells.
  destruct (decide (0 < n)).
  - pose proof (pix_in_range fb x y Hfb ltac:(split; lia)).
    pose proof (pix_in_range fb (x + n - 1) y Hfb ltac:(split; lia)).
    destruct Hfb. unfold pix. split_and!; [lia..|].
    intros i Hi. replace (_ + _ + 4 * i) with (pix fb (x + i) y) by (unfold pix; lia).
    apply Hmap. split; lia.
  - pose proof (wf_top _ Hfb). pose proof (wf_base _ Hfb). pose proof (wf_pitch _ Hfb).
    assert (y * PixelsPerScanLine fb + x + n <= PixelsPerScanLine fb * ScreenHeight fb) by nia.
    unfold pix. split_and!; [nia|nia|intros; lia].
Qed.

Lemma in_cells_row fb x y n a :
  0 <= x -> x + n <= PixelsPerScanLine fb -> 0 <= y < ScreenHeight fb ->
  in_cells (pix fb x y) n a -> region fb (rect x y n 1) a.
Proof.
  intros Hx Hn Hy (i & Hi & ->). exists (x + i), y. unfold rect, in_buffer, pix.
  split_and!; lia.
Qed.

Lemma ready_same_off A fb m m' : ready fb m -> mem_wf m' -> same_off A m m' -> ready fb m'.
Proof.
  intros [Hfb _ Hmap] Hm' Hs. split; [done..|].
  intros x y Hxy. eapply same_off_is_Some; [done|by apply Hmap].
Qed.

Section draws.
Context (fb : FRAMEBUFFER_INFO).
Implicit Types (R : Z -> Z -> Prop) (c : mem -> outcome mem).

Lemma region_mono R R' a :
  (forall x y, in_buffer fb x y -> R x y -> R' x y) -> region fb R a -> region fb R' a.
Proof. intros H (x & y & HR & Hb & ->). exists x, y. auto. Qed.

Lemma draws_ret R : draws fb R (fun m => Done m).
Proof. intros m Hm. exists m. done. Qed.

Lemma draws_seq R c1 c2 :
  draws fb R c1 -> draws fb R c2 -> draws fb R (fun m => m' ← c1 m; c2 m').
Proof.
  intros H1 H2 m Hm. destruct (H1 m Hm) as (m1 & E1 & Hm1 & Hs1).
  destruct (H2 m1 Hm1) as (m2 & E2 & Hm2 & Hs2). rewrite E1. cbn.
  exists m2. split_and!; [done..|]. by etrans.
Qed.

Lemma draws_weaken R R' c :
  (forall x y, in_buffer fb x y -> R x y -> R' x y) -> draws fb R c -> draws fb R' c.
Proof.
  intros HR Hc m Hm. destruct (Hc m Hm) as (m' & E & Hm' & Hs).
  exists m'. split_and!; [done..|]. eapply same_off_weaken; [|done].
  intros a. by apply region_mono.
Qed.

Lemma draws_count R n (body : Z -> mem -> outcome mem) :
  (forall i, 0 <= i < n -> draws fb R (body i)) ->
  draws fb R (fun m => for_count n body m).
Proof.
  intros Hb m Hm. destruct (decide (0 <= n)) as [Hn|].
  - apply (for_count_inv (fun _ m' => ready fb m' /\ same_off (region fb R) m m')); [done..|].
    intros i m1 Hi [Hm1 Hs1]. destruct (Hb i Hi m1 Hm1) as (m2 & E & Hm2 & Hs2).
    exists m2. split_and!; [done..|]. by etrans.
  - rewrite for_count_le_0 by lia. by exists m.
Qed.

Lemma draws_range R a b (body : Z -> mem -> outcome mem) :
  (forall i, a <= i < b -> draws fb R (body i)) ->
  draws fb R (fun m => for_range a b 1 body m).
Proof.
  intros Hb m Hm. destruct (decide (a <= b)) as [Hn|].
  - apply (for_range_inv (fun _ m' => ready fb m' /\ same_off (region fb R) m m')); [done..|].
    intros i m1 Hi [Hm1 Hs1]. destruct (Hb i Hi m1 Hm1) as (m2 & E & Hm2 & Hs2).
    exists m2. split_and!; [done..|]. by etrans.
  - rewrite for_range_empty by lia. by exists m.
Qed.

Lemma draws_bind_pure {A} R (o : outcome A) a (k : A -> mem -> outcome mem) :
  o = Done a -> draws fb R (k a) -> draws fb R (fun m => a ← o; k a m).
Proof. intros ->. done. Qed.

Lemma draws_if R (b : bool) c1 c2 :
  (b = true -> draws fb R c1) -> (b = false -> draws fb R c2) ->
  draws fb R (fun m => if b then c1 m else c2 m).
Proof. destruct b; auto. Qed.

Lemma draws_store R x y v :
  (fb_wf fb -> in_buffer fb x y) -> R x y ->
  draws fb R (store32 (elem (Framebuffer fb) (u32 (y * PixelsPerScanLine fb + x))) v).
Proof.
  intros Hxy HR m Hm. pose proof Hm as [Hfb Hwf Hmap]. specialize (Hxy Hfb).
  rewrite elem_pix by done.
  destruct (store32_done (pix fb x y) v m) as [E Hs]; [by apply Hmap|].
  exists (<[pix fb x y := u32 v]> m). split; [done|].
  assert (same_off (region fb R) m (<[pix fb x y:=u32 v]> m)).
  { eapply same_off_weaken; [|done]. intros a <-. by exists x, y. }
  split; [|done]. eapply ready_same_off; [done| |done]. by eapply store32_mem_wf.
Qed.

Lemma draws_load R x y (k : Z -> mem -> outcome mem) :
  (fb_wf fb -> in_buffer fb x y) ->
  (forall v, is_u32 v -> draws fb R (k v)) ->
  draws fb R (fun m =>
    v ← load32 (elem (Framebuffer fb) (u32 (y * PixelsPerScanLine fb + x))) m; k v m).
Proof.
  intros Hxy Hk m Hm. pose proof Hm as [Hfb Hwf Hmap]. specialize (Hxy Hfb).
  rewrite elem_pix by done.
  destruct (load32_done (pix fb x y) m) as (v & E & Hv & _); [done|by apply Hmap|].
  rewrite E. by apply Hk.
Qed.

Lemma draws_fill R x y n color :
  0 <= x -> 0 <= y < ScreenHeight fb -> is_u32 n -> is_u32 color ->
  (fb_wf fb -> x + n <= PixelsPerScanLine fb) ->
  (forall k, 0 <= k < n -> R (x + k) y) ->
  draws fb R (FillPixels32 (elem (Framebuffer fb) (u32 (y * PixelsPerScanLine fb + x))) n color).
Proof.
  intros Hx Hy Hn Hc Hxn HR m Hm. pose proof (ready_fb _ _ Hm) as Hfb.
  specialize (Hxn Hfb).
  destruct (decide (n = 0)) as [->|].
  { rewrite FillPixels32_ref by done. by exists m. }
  rewrite elem_pix by (try done; split; lia).
  destruct (fill_spec (pix fb x y) n color m) as (m' & E & Hwf & Hs & _);
    [done|done|by apply row_cells|apply Hm|].
  exists m'. split; [done|].
  assert (same_off (region fb R) m m').
  { eapply same_off_weaken; [|done]. intros a Ha.
    apply in_cells_row in Ha; [|lia..].
    eapply region_mono; [|done]. intros x1 y1 _ [Hx1 Hy1].
    assert (y1 = y) as -> by lia. replace x1 with (x + (x1 - x)) by lia. apply HR. lia. }
  split; [|done]. by eapply ready_same_off.
Qed.
End draws.

Create HintDb draws.
#[export] Hint Resolve draws_ret draws_seq draws_count draws_if draws_store draws_load : draws.

(* ------------------------------------------------------------------ *)
(** ** Lemmas: row loops *)

(** A loop over rows that sets row [y + i] of a rectangle to the values
    [V] sets the rectangle to [V] and touches nothing else. *)
Lemma rows_loop fb x y w h (body : Z -> mem -> outcome mem) (V : Z -> Z -> option Z) m :
  ready fb m -> 0 <= x -> 0 <= w -> x + w <= PixelsPerScanLine fb ->
  0 <= y -> 0 <= h -> y + h <= ScreenHeight fb ->
  (forall i m1, 0 <= i < h -> ready fb m1 ->
    same_off (region fb (rect x y w i)) m m1 ->
    exists m2, body i m1 = Done m2 /\ mem_wf m2 /\
      same_off (in_cells (pix fb x (y + i)) w) m1 m2 /\
      forall k, 0 <= k < w -> m2 !! (pix fb x (y + i) + 4 * k) = V (x + k) (y + i)) ->
  exists m', for_count h body m = Done m' /\ ready fb m' /\
    same_off (region fb (rect x y w h)) m m' /\
    forall x' y', rect x y w h x' y' -> m' !! pix fb x' y' = V x' y'.
Proof.
  intros Hm Hx Hw Hxw Hy Hh Hyh Hbody.
  destruct (for_count_inv (fun i m1 => ready fb m1 /\
      same_off (region fb (rect x y w i)) m m1 /\
      forall x' y', rect x y w i x' y' -> m1 !! pix fb x' y' = V x' y') h body m)
    as (m' & E & ? & ? & ?); [lia|..].
  - split_and!; [done|done|]. intros x' y' [_ ?]. lia.
  - intros i m1 Hi (Hm1 & Hs1 & HV1).
    destruct (Hbody i m1 Hi Hm1 Hs1) as (m2 & E & Hwf2 & Hs2 & HV2).
    exists m2. split; [done|]. split_and!.
    + by eapply ready_same_off.
    + etrans; (eapply same_off_weaken; [|done]).
      * intros a. apply region_mono. unfold rect. lia.
      * intros a Ha. apply in_cells_row in Ha; [|lia..].
        eapply region_mono; [|done]. unfold rect. lia.
    + intros x' y' [Hx' Hy']. destruct (decide (y' = y + i)) as [->|].
      * replace (pix fb x' (y + i)) with (pix fb x (y + i) + 4 * (x' - x))
          by (unfold pix; lia).
        rewrite HV2 by lia. f_equal; lia.
      * destruct Hs2 as [_ Hs2]. rewrite Hs2.
        { apply HV1. split; lia. }
        intros Ha. apply in_cells_row in Ha as (x2 & y2 & HR & Hb & Ea); [|lia..].
        apply pix_inj in Ea as [-> ->]; [|split; lia|done].
        destruct HR as [_ ?]. lia.
  - exists m'. done.
Qed.

(** The cells of a row of a rectangle, as the code addresses them. *)
Lemma row_elem fb x y i w : fb_wf fb -> is_u32 x -> is_u32 y ->
  0 < w -> x + w <= PixelsPerScanLine fb -> 0 <= i -> y + i < ScreenHeight fb ->
  elem (Framebuffer fb) (u32 (u32 (y + i) * PixelsPerScanLine fb + x)) = pix fb x (y + i).
Proof.
  intros Hfb Hx Hy Hw Hxw Hi Hyi. pose proof (wf_height _ Hfb).
  rewrite (u32_id (y + i)) by lia. apply elem_pix; [done|]. split; lia.
Qed.

(* ------------------------------------------------------------------ *)
(** ** Lemmas: [ClearScreen], [ClearRect], [BlitSurfaceRect] *)

(** Every cell of the buffer is a pixel. *)
Lemma cell_pix fb i : fb_wf fb ->
  0 <= i < PixelsPerScanLine fb * ScreenHeight fb ->
  exists x y, in_buffer fb x y /\ Framebuffer fb + 4 * i = pix fb x y.
Proof.
  intros [] Hi. assert (0 < PixelsPerScanLine fb) by nia.
  exists (i mod PixelsPerScanLine fb), (i / PixelsPerScanLine fb). split; [split|].
  - by apply Z.mod_pos_bound.
  - split; [apply Z.div_pos; lia|]. apply Z.div_lt_upper_bound; lia.
  - unfold pix. rewrite (Z.div_mod i (PixelsPerScanLine fb)) at 1 by lia. lia.
Qed.

Lemma buffer_cells fb m : ready fb m ->
  cells (Framebuffer fb) (PixelsPerScanLine fb * ScreenHeight fb) m.
Proof.
  intros [Hfb Hm Hmap]. pose proof Hfb as []. split_and!; [lia|lia|].
  intros i Hi. destruct (cell_pix fb i Hfb Hi) as (x & y & Hxy & ->). by apply Hmap.
Qed.

Lemma ClearScreen_spec fb color ignore m :
  ready fb m -> is_u32 color ->
  exists m', ClearScreen fb color ignore m = Done m' /\ ready fb m' /\
    same_off (region fb (fun _ _ => True)) m m' /\
    (ignore = 0 \/ color <> 0 ->
      forall x y, in_buffer fb x y -> m' !! pix fb x y = Some color) /\
    (ignore <> 0 /\ color = 0 -> m' = m).
Proof.
  intros Hm Hc. unfold ClearScreen.
  destruct (negb (ignore =? 0) && (color =? 0))%bool eqn:Eb.
  { apply andb_prop in Eb as [E1%negb_true_iff%Z.eqb_neq E2%Z.eqb_eq].
    exists m. split_and!; [done|done|done|lia|done]. }
  pose proof (ready_fb _ _ Hm) as Hfb. pose proof Hfb as [].
  cbn zeta. rewrite u32_id by nia.
  destruct (fill_spec (Framebuffer fb) (PixelsPerScanLine fb * ScreenHeight fb) color m)
    as (m' & E & Hwf & Hs & HV); [nia|done|by apply buffer_cells|apply Hm|].
  exists m'. split; [done|].
  assert (forall x y, in_buffer fb x y -> m' !! pix fb x y = Some color) as Hpix.
  { intros x y Hxy. apply HV. by apply pix_in_range. }
  assert (same_off (region fb (fun _ _ => True)) m m').
  { eapply same_off_weaken; [|done]. intros a (i & Hi & ->).
    destruct (cell_pix fb i Hfb Hi) as (x & y & Hxy & ->). by exists x, y. }
  split_and!; [by eapply ready_same_off|done|done|].
  intros [Hi ->]. apply andb_false_iff in Eb as [Eb|Eb]; [|done].
  apply negb_false_iff, Z.eqb_eq in Eb. done.
Qed.

Lemma ClearRect_spec fb x y w h color m :
  ready fb m -> is_u32 x -> is_u32 y -> is_u32 w -> is_u32 h -> is_u32 color ->
  exists m', ClearRect fb x y w h color m = Done m' /\ ready fb m' /\
    same_off (region fb (fun x' y' => rect x y w h x' y' /\ on_screen fb x' y')) m m' /\
    forall x' y', rect x y w h x' y' -> on_screen fb x' y' ->
      m' !! pix fb x' y' = Some color.
Proof.
  intros Hm Hx Hy Hw Hh Hc. unfold ClearRect.
  pose proof (ready_fb _ _ Hm) as Hfb. pose proof Hfb as [].
  destruct ((ScreenWidth fb <=? x) || (ScreenHeight fb <=? y))%bool eqn:Eb.
  { exists m. split_and!; [done|done|done|].
    intros x' y' [] []. apply orb_true_iff in Eb as [Eb|Eb]; apply Z.leb_le in Eb; lia. }
  apply orb_false_iff in Eb as [Ex%Z.leb_gt Ey%Z.leb_gt].
  cbn zeta. rewrite !(u32_id (ScreenWidth fb - x)), !(u32_id (ScreenHeight fb - y)) by lia.
  set (w' := if _ <? w then _ else _). set (h' := if _ <? h then _ else _).
  assert (w' = Z.min w (ScreenWidth fb - x)) as Ew
    by (subst w'; destruct (Z.ltb_spec (ScreenWidth fb - x) w); lia).
  assert (h' = Z.min h (ScreenHeight fb - y)) as Eh
    by (subst h'; destruct (Z.ltb_spec (ScreenHeight fb - y) h); lia).
  destruct (rows_loop fb x y w' h' (fun row m =>
      FillPixels32 (elem (Framebuffer fb) (u32 (u32 (y + row) * PixelsPerScanLine fb + x)))
        w' color m) (fun _ _ => Some color) m) as (m' & E & Hm' & Hs & HV); [done|lia..| |].
  - intros i m1 Hi Hm1 _. destruct (decide (w' = 0)) as [->|].
    + rewrite FillPixels32_ref by lia. exists m1. split_and!; [done|apply Hm1|done|lia].
    + rewrite (row_elem fb x y i w') by (try done; lia).
      destruct (fill_spec (pix fb x (y + i)) w' color m1) as (m2 & ? & ? & ? & ?);
        [lia|done|apply row_cells; try done; lia|apply Hm1|].
      exists m2. done.
  - exists m'. split_and!; [done|done| |].
    + eapply same_off_weaken; [|done]. intros a. apply region_mono.
      unfold rect, on_screen. lia.
    + intros x' y' [] []. apply HV. split; lia.
Qed.

Lemma pix_add fb x y k : pix fb x y + 4 * k = pix fb (x + k) y.
Proof. unfold pix. lia. Qed.

(** Rows copied from one surface to another: the pixels of the target
    rectangle are those of the source rectangle. *)
Lemma copy_rows d s dx dy sx sy w h (body : Z -> mem -> outcome mem) m :
  ready d m -> ready s m -> disjoint_surfaces d s ->
  0 <= w -> 0 <= h ->
  0 <= dx -> dx + w <= PixelsPerScanLine d -> 0 <= dy -> dy + h <= ScreenHeight d ->
  0 <= sx -> sx + w <= PixelsPerScanLine s -> 0 <= sy -> sy + h <= ScreenHeight s ->
  (forall i m1, 0 <= i < h -> mem_wf m1 ->
    body i m1 = if w =? 0 then Done m1
                else CopyPixels32 (pix d dx (dy + i)) (pix s sx (sy + i)) w m1) ->
  exists m', for_count h body m = Done m' /\ ready d m' /\ ready s m' /\
    same_off (region d (rect dx dy w h)) m m' /\
    forall i j, 0 <= i < w -> 0 <= j < h ->
      m' !! pix d (dx + i) (dy + j) = m !! pix s (sx + i) (sy + j).
Proof.
  intros Hd Hs Hdisj Hw Hh Hdx Hdxw Hdy Hdyh Hsx Hsxw Hsy Hsyh Hbody.
  destruct (rows_loop d dx dy w h body
    (fun x y => m !! pix s (sx + (x - dx)) (sy + (y - dy))) m)
    as (m' & E & Hm' & Hsame & HV); [done|lia..| |].
  - intros i m1 Hi Hm1 Hs1. rewrite Hbody by (done || apply Hm1).
    destruct (Z.eqb_spec w 0) as [->|].
    { exists m1. split_and!; [done|apply Hm1|done|lia]. }
    assert (ready s m1) as Hsm1 by (eapply ready_same_off; [done|apply Hm1|done]).
    pose proof (wf_pitch _ (ready_fb _ _ Hd)).
    destruct (copy_spec (pix d dx (dy + i)) (pix s sx (sy + i)) w m1)
      as (m2 & E & Hwf & Hs2 & HV2);
      [lia|apply Hm1|apply row_cells; try done; lia|apply row_cells; try done; lia|..].
    { intros j k Hj Hk. rewrite !pix_add. apply Hdisj; split; lia. }
    exists m2. split_and!; [done..|]. intros k Hk. rewrite HV2, pix_add by done.
    replace (sx + (dx + k - dx)) with (sx + k) by lia.
    replace (sy + (dy + i - dy)) with (sy + i) by lia.
    apply Hs1. intros (x' & y' & _ & Hb & Ea). symmetry in Ea. revert Ea.
    apply Hdisj; [done|split; lia].
  - exists m'. split_and!; [done|done| |done|].
    + eapply ready_same_off; [done|apply Hm'|done].
    + intros i j Hi Hj. rewrite HV by (split; lia). f_equal. f_equal; lia.
Qed.

(** The size of a blit: what both surfaces have room for. *)
Lemma blit_clip (a limit_d limit_s : Z) :
  let mx := if limit_s <? limit_d then limit_s else limit_d in
  (if mx <? a then mx else a) = Z.min a (Z.min limit_d limit_s).
Proof.
  cbn zeta. destruct (Z.ltb_spec limit_s limit_d).
  - destruct (Z.ltb_spec limit_s a); lia.
  - destruct (Z.ltb_spec limit_d a); lia.
Qed.

Lemma BlitSurfaceRect_spec d s X Y W H m :
  ready d m -> ready s m -> disjoint_surfaces d s ->
  Framebuffer d <> 0 -> Framebuffer s <> 0 ->
  is_u32 X -> is_u32 Y -> is_u32 W -> is_u32 H ->
  exists m', BlitSurfaceRect (Some d) (Some s) X Y W H m = Done m' /\ ready d m' /\ ready s m' /\
    same_off (region d (fun x y => rect X Y W H x y /\ on_screen d x y /\ on_screen s x y)) m m' /\
    forall x y, rect X Y W H x y -> on_screen d x y -> on_screen s x y ->
      m' !! pix d x y = m !! pix s x y.
Proof.
  intros Hd Hs Hdisj Hd0 Hs0 HX HY HW HH. unfold BlitSurfaceRect.
  pose proof (ready_fb _ _ Hd) as Hdf. pose proof (ready_fb _ _ Hs) as Hsf.
  pose proof Hdf as []. pose proof Hsf as [].
  apply Z.eqb_neq in Hd0, Hs0. rewrite Hd0, Hs0. cbn [orb].
  destruct (_ || _)%bool eqn:Eb.
  { exists m. split_and!; [done|done|done|done|]. intros x y [] [] [].
    rewrite !orb_true_iff, !Z.leb_le in Eb. lia. }
  rewrite !orb_false_iff, !Z.leb_gt in Eb. destruct Eb as [[[E1 E2] E3] E4].
  cbn zeta.
  rewrite !(u32_id (ScreenWidth d - X)), !(u32_id (ScreenHeight d - Y)),
    !(u32_id (ScreenWidth s - X)), !(u32_id (ScreenHeight s - Y)) by lia.
  rewrite (blit_clip W), (blit_clip H).
  set (w' := Z.min W _) in *. set (h' := Z.min H _) in *.
  destruct (copy_rows d s X Y X Y w' h' (fun Row m =>
      CopyPixels32 (elem (Framebuffer d) (u32 (u32 (Y + Row) * PixelsPerScanLine d + X)))
        (elem (Framebuffer s) (u32 (u32 (Y + Row) * PixelsPerScanLine s + X))) w' m) m)
    as (m' & E & Hm' & Hsm' & Hsame & HV); [done|done|done|lia..| |].
  - intros i m1 Hi Hm1. destruct (Z.eqb_spec w' 0) as [->|].
    { by rewrite CopyPixels32_ref by (try done; lia). }
    by rewrite (row_elem d X Y i w'), (row_elem s X Y i w') by (try done; lia).
  - exists m'. split_and!; [done|done|done| |].
    + eapply same_off_weaken; [|done]. intros a. apply region_mono.
      unfold rect, on_screen. lia.
    + intros x y [] [] []. specialize (HV (x - X) (y - Y) ltac:(lia) ltac:(lia)).
      by replace (X + (x - X)) with x in HV by lia;
        replace (Y + (y - Y)) with y in HV by lia.
Qed.

(** A surface blitted onto itself is unchanged. *)
Lemma BlitSurfaceRect_self fb X Y W H m :
  ready fb m -> is_u32 X -> is_u32 Y -> is_u32 W -> is_u32 H ->
  BlitSurfaceRect (Some fb) (Some fb) X Y W H m = Done m.
Proof.
  intros Hm HX HY HW HH. unfold BlitSurfaceRect.
  pose proof (ready_fb _ _ Hm) as Hfb. pose proof Hfb as [].
  destruct (_ || _)%bool; [done|]. destruct (_ || _ || _ || _)%bool eqn:Eb; [done|].
  rewrite !orb_false_iff, !Z.leb_gt in Eb. destruct Eb as [[[E1 E2] _] _].
  cbn zeta. rewrite !(u32_id (ScreenWidth fb - X)), !(u32_id (ScreenHeight fb - Y)) by lia.
  rewrite !Z.ltb_irrefl.
  set (w' := if _ <? W then _ else _). set (h' := if _ <? H then _ else _).
  assert (w' = Z.min W (ScreenWidth fb - X)) as Ew
    by (subst w'; case_match; rewrite ?Z.ltb_lt, ?Z.ltb_ge in *; lia).
  assert (h' = Z.min H (ScreenHeight fb - Y)) as Eh
    by (subst h'; case_match; rewrite ?Z.ltb_lt, ?Z.ltb_ge in *; lia).
  clearbody w' h'.
  destruct (for_count_inv (fun _ m' => m' = m) h' (fun Row m =>
      CopyPixels32 (elem (Framebuffer fb) (u32 (u32 (Y + Row) * PixelsPerScanLine fb + X)))
        (elem (Framebuffer fb) (u32 (u32 (Y + Row) * PixelsPerScanLine fb + X))) w' m) m)
    as (m' & E & ->); [lia|done| |done].
  intros i m1 Hi ->. exists m. split; [|done].
  destruct (decide (w' = 0)) as [->|].
  { by rewrite CopyPixels32_ref by (try apply Hm; lia). }
  rewrite (row_elem fb X Y i w') by (try done; lia).
  apply copy_self; [lia|apply Hm|]. apply row_cells; try done; lia.
Qed.

(* ------------------------------------------------------------------ *)
(** ** Lemmas: the [paints] judgement *)

Section paints.
Context (fb : FRAMEBUFFER_INFO) (f : Z -> Z -> Z -> outcome Z).
Implicit Types (R : Z -> Z -> Prop) (c : mem -> outcome mem).

Lemma paints_draws R c : paints fb R f c -> draws fb R c.
Proof. intros Hc m Hm. destruct (Hc m Hm) as (m' & ? & ? & ? & _). by exists m'. Qed.

Lemma paints_none R : (forall px py, in_buffer fb px py -> ~ R px py) ->
  paints fb R f (fun m => Done m).
Proof.
  intros HR m Hm. exists m. split_and!; [done..|]. intros px py old Hb HRp. exfalso. by eapply HR.
Qed.

Lemma paints_iff R R' c :
  (forall px py, in_buffer fb px py -> R px py <-> R' px py) ->
  paints fb R f c -> paints fb R' f c.
Proof.
  intros HR Hc m Hm. destruct (Hc m Hm) as (m' & E & Hm' & Hs & HV).
  exists m'. split_and!; [done..| |].
  - eapply same_off_weaken; [|done]. intros a. apply region_mono. intros x y Hb. by apply HR.
  - intros px py old Hb HRp. apply HV; [done|]. by apply HR.
Qed.

Lemma same_off_pixel R m m' px py :
  same_off (region fb R) m m' -> in_buffer fb px py -> ~ R px py ->
  m' !! pix fb px py = m !! pix fb px py.
Proof.
  intros [_ Hs] Hb HR. apply Hs. intros (x & y & HRx & Hbx & Ea).
  by apply pix_inj in Ea as [-> ->].
Qed.

(** A loop whose rounds paint disjoint regions paints their union. *)
Lemma paints_count n (body : Z -> mem -> outcome mem) (R : Z -> Z -> Z -> Prop) :
  (forall i, 0 <= i < n -> paints fb (R i) f (body i)) ->
  (forall i j px py, 0 <= i < n -> 0 <= j < n -> R i px py -> R j px py -> i = j) ->
  paints fb (fun px py => exists i, 0 <= i < n /\ R i px py) f (fun m => for_count n body m).
Proof.
  intros Hb Hdisj m Hm. destruct (decide (0 <= n)) as [Hn|].
  2: { rewrite for_count_le_0 by lia. exists m. split_and!; [done..|].
       intros px py old _ (i & ? & _). lia. }
  destruct (for_count_inv (fun k m1 => ready fb m1 /\
      same_off (region fb (fun px py => exists i, 0 <= i < k /\ R i px py)) m m1 /\
      forall px py old, in_buffer fb px py -> (exists i, 0 <= i < k /\ R i px py) ->
        m !! pix fb px py = Some old ->
        exists v, f px py old = Done v /\ m1 !! pix fb px py = Some v) n body m)
    as (m' & E & ? & ? & ?); [done|..].
  - split_and!; [done..|]. intros px py old _ (i & ? & _). lia.
  - intros k m1 Hk (Hm1 & Hs1 & HV1).
    destruct (Hb k Hk m1 Hm1) as (m2 & E & Hm2 & Hs2 & HV2).
    exists m2. split; [done|]. split_and!; [done| |].
    + etrans; (eapply same_off_weaken; [|done]); intros a; apply region_mono.
      * intros px py _ (i & ? & ?). exists i. split; [lia|done].
      * intros px py _ ?. exists k. split; [lia|done].
    + intros px py old Hpb (i & Hi & HRi) Hold. destruct (decide (i = k)) as [->|].
      * apply HV2; [done|done|]. rewrite <- Hold. eapply same_off_pixel; [done|done|].
        intros (j & Hj & HRj). assert (j = k) by (apply (Hdisj j k px py); try done; lia). lia.
      * destruct (HV1 px py old) as (v & Ev & Hv); [done|exists i; split; [lia|done]|done|].
        exists v. split; [done|]. rewrite <- Hv. eapply same_off_pixel; [done|done|].
        intros HRk. assert (i = k) by (apply (Hdisj i k px py); try done; lia). lia.
  - by exists m'.
Qed.

(** A rectangle painted row by row, and a row painted column by column;
    [C] is what else the code asks of a pixel. *)
Lemma paints_rows (C : Z -> Z -> Prop) X Y w h (row : Z -> mem -> outcome mem) :
  (forall j, 0 <= j < h ->
    paints fb (fun px py => py = Y + j /\ X <= px < X + w /\ C px py) f (row j)) ->
  paints fb (fun px py => rect X Y w h px py /\ C px py) f (fun m => for_count h row m).
Proof.
  intros Hrow. eapply paints_iff; [|apply paints_count; [exact Hrow|]].
  - intros px py _. unfold rect. split.
    + intros (j & Hj & -> & ? & ?). split_and!; try done; lia.
    + intros [[] ?]. exists (py - Y). split_and!; try done; lia.
  - intros i j px py _ _ (-> & _) (? & _). lia.
Qed.

Lemma paints_columns (C : Z -> Z -> Prop) X y w (cell : Z -> mem -> outcome mem) :
  (forall i, 0 <= i < w -> paints fb (fun px py => px = X + i /\ py = y /\ C px py) f (cell i)) ->
  paints fb (fun px py => py = y /\ X <= px < X + w /\ C px py) f (fun m => for_count w cell m).
Proof.
  intros Hcell. eapply paints_iff; [|apply paints_count; [exact Hcell|]].
  - intros px py _. split.
    + intros (i & Hi & -> & -> & ?). split_and!; try done; lia.
    + intros (-> & ? & ?). exists (px - X). split_and!; try done; lia.
  - intros i j px py _ _ (-> & _) (? & _). lia.
Qed.

(** A whole rectangle, cell by cell. *)
Lemma paints_rect X Y w h (cell : Z -> Z -> mem -> outcome mem) :
  (forall j i, 0 <= j < h -> 0 <= i < w ->
    paints fb (fun px py => px = X + i /\ py = Y + j) f (cell j i)) ->
  paints fb (rect X Y w h) f (fun m => for_count h (fun j m => for_count w (cell j) m) m).
Proof.
  intros Hcell.
  eapply paints_iff; [|apply (paints_rows (fun _ _ => True) X Y w h)]; [intros px py _; tauto|].
  intros j Hj. apply paints_columns. intros i Hi.
  eapply paints_iff; [|by apply Hcell]. intros px py _. tauto.
Qed.

(** Storing a pixel computed from its old value. *)
Lemma paints_update px py (g : Z -> outcome Z) :
  (fb_wf fb -> in_buffer fb px py) ->
  (forall old, is_u32 old -> exists v, g old = Done v /\ is_u32 v /\ f px py old = Done v) ->
  paints fb (fun x y => x = px /\ y = py) f (fun m =>
    old ← load32 (elem (Framebuffer fb) (u32 (py * PixelsPerScanLine fb + px))) m;
    v ← g old;
    store32 (elem (Framebuffer fb) (u32 (py * PixelsPerScanLine fb + px))) v m).
Proof.
  intros Hb Hg m Hm. pose proof Hm as [Hfb Hwf Hmap]. specialize (Hb Hfb).
  rewrite elem_pix by done.
  destruct (load32_done (pix fb px py) m) as (old & E & Hold & Hlk); [done|by apply Hmap|].
  rewrite E. mred. destruct (Hg old Hold) as (v & Ev & Hv & Ef). rewrite Ev. mred.
  destruct (store32_done (pix fb px py) v m) as [Es Hs]; [by apply Hmap|].
  assert (same_off (region fb (fun x y => x = px /\ y = py)) m (<[pix fb px py:=u32 v]> m)).
  { eapply same_off_weaken; [|done]. intros a <-. by exists px, py. }
  eexists. split; [done|]. split_and!; [|done|].
  - eapply ready_same_off; [done| |done]. by eapply store32_mem_wf.
  - intros x y old' _ [-> ->] Hold'. rewrite Hlk in Hold'. injection Hold' as ->.
    exists v. split; [done|]. rewrite u32_id by done. apply lookup_insert_eq.
Qed.

(** Storing a pixel whatever it held. *)
Lemma paints_store px py v :
  (fb_wf fb -> in_buffer fb px py) -> is_u32 v ->
  (forall old, is_u32 old -> f px py old = Done v) ->
  paints fb (fun x y => x = px /\ y = py) f
    (store32 (elem (Framebuffer fb) (u32 (py * PixelsPerScanLine fb + px))) v).
Proof.
  intros Hb Hv Hf m Hm.
  destruct (paints_update px py (fun _ => Done v) Hb) with (m := m)
    as (m' & E & ? & ? & ?); [|done|].
  { intros old Hold. exists v. auto. }
  exists m'. split; [|done]. rewrite bind_done in E. destruct E as (old & _ & E).
  by mred.
Qed.
End paints.

(* ------------------------------------------------------------------ *)
(** ** Lemmas: drawing judgements *)

Section drawing.
Context (J : (mem -> outcome mem) -> Prop) `{!Drawing J}.

Lemma drawing_if (b : bool) c1 c2 :
  (b = true -> J c1) -> (b = false -> J c2) -> J (fun m => if b then c1 m else c2 m).
Proof. destruct b; auto. Qed.

Lemma drawing_loop n i step body : (forall j, J (body j)) -> J (for_loop n i step body).
Proof.
  intros Hb. revert i. induction n as [|n IH]; intros i; [apply drawing_ret|].
  apply drawing_seq; [apply Hb|apply IH].
Qed.
End drawing.

(** Whether an address is a pixel's can be computed from the address. *)
Lemma address_pixel fb a : fb_wf fb ->
  (exists px py, in_buffer fb px py /\ a = pix fb px py) \/
  (forall px py, in_buffer fb px py -> a <> pix fb px py).
Proof.
  intros Hfb. pose proof Hfb as [].
  set (k := (a - Framebuffer fb) / 4).
  destruct (decide (0 <= k < PixelsPerScanLine fb * ScreenHeight fb /\ a = Framebuffer fb + 4 * k))
    as [[Hk Ea]|Hn].
  - left. destruct (cell_pix fb k Hfb Hk) as (x & y & Hb & E). exists x, y. by rewrite <- E.
  - right. intros px py Hb ->. apply Hn. pose proof (pix_in_range fb px py Hfb Hb) as Hr.
    assert (k = py * PixelsPerScanLine fb + px) as ->
      by (unfold k, pix; symmetry; apply (Z.div_unique _ _ _ 0); lia).
    split; [|done]. unfold pix in Hr. lia.
Qed.

Section tints.
Context (fb : FRAMEBUFFER_INFO).
Implicit Types (R : Z -> Z -> Prop) (c : mem -> outcome mem).

#[export] Instance draws_drawing R : Drawing (draws fb R).
Proof.
  split; [apply draws_ret|apply draws_seq|].
  intros c1 c2 E Hc m Hm. rewrite E. by apply Hc.
Qed.

#[export] Instance tints_drawing R : Drawing (tints fb R).
Proof.
  split.
  - split; [apply draws_ret|].
    intros m1 m2 m1' m2' _ _ E1%Done_inj E2%Done_inj px py _ E. by subst.
  - intros c1 c2 [H1 P1] [H2 P2]. split; [by apply draws_seq|].
    intros m1 m2 m1' m2' Hm1 Hm2 E1 E2 px py Hb E.
    destruct (H1 m1 Hm1) as (n1 & F1 & Hn1 & _). destruct (H1 m2 Hm2) as (n2 & F2 & Hn2 & _).
    rewrite F1 in E1. rewrite F2 in E2. mred in E1. mred in E2.
    eapply (P2 n1 n2); try done. by eapply (P1 m1 m2).
  - intros c1 c2 E [H1 P1]. split; [by eapply drawing_ext|].
    intros m1 m2 m1' m2' Hm1 Hm2. rewrite !E. by apply P1.
Qed.

Lemma tints_draws R c : tints fb R c -> draws fb R c.
Proof. by intros []. Qed.

Lemma tints_weaken R R' c :
  (forall x y, in_buffer fb x y -> R x y -> R' x y) -> tints fb R c -> tints fb R' c.
Proof. intros HR [H P]. split; [by eapply draws_weaken|done]. Qed.

Lemma paints_tints R f c `{!forall x y, Decision (R x y)} : paints fb R f c -> tints fb R c.
Proof.
  intros Hc. split; [by eapply paints_draws|].
  intros m1 m2 m1' m2' Hm1 Hm2 E1 E2 px py Hb E.
  destruct (Hc m1 Hm1) as (n1 & F1 & _ & Hs1 & HV1). rewrite E1 in F1. apply Done_inj in F1 as <-.
  destruct (Hc m2 Hm2) as (n2 & F2 & _ & Hs2 & HV2). rewrite E2 in F2. apply Done_inj in F2 as <-.
  destruct (ready_mapped _ _ Hm1 px py Hb) as [old Hold].
  destruct (decide (R px py)) as [HR|HR].
  - destruct (HV1 px py old Hb HR Hold) as (v1 & Ev1 & ->).
    destruct (HV2 px py old Hb HR) as (v2 & Ev2 & ->); [by rewrite <- E|]. congruence.
  - rewrite (same_off_pixel fb R m1 m1'), (same_off_pixel fb R m2 m2') by done. done.
Qed.

(** Two memories that differ at most in [D] still differ at most in [D]. *)
Lemma tints_agree R D c m1 m2 : tints fb R c -> ready fb m1 -> ready fb m2 ->
  same_off (region fb D) m1 m2 ->
  exists m1' m2', c m1 = Done m1' /\ c m2 = Done m2' /\ ready fb m1' /\ ready fb m2' /\
    same_off (region fb R) m1 m1' /\ same_off (region fb R) m2 m2' /\
    same_off (region fb D) m1' m2'.
Proof.
  intros [Hd Hp] Hm1 Hm2 HD.
  destruct (Hd m1 Hm1) as (m1' & E1 & Hm1' & Hs1). destruct (Hd m2 Hm2) as (m2' & E2 & Hm2' & Hs2).
  exists m1', m2'. split_and!; try done.
  split; [destruct HD, Hs1, Hs2; congruence|].
  intros a Ha. destruct HD as [_ HD], Hs1 as [_ Hs1], Hs2 as [_ Hs2].
  destruct (address_pixel fb a) as [(px & py & Hb & ->)|Hoff]; [apply Hm1| |].
  - symmetry. apply (Hp m1 m2); try done. symmetry. by apply HD.
  - rewrite Hs1, Hs2 by (intros (x & y & _ & Hb & ->); by eapply Hoff). by apply HD.
Qed.

(** Memories with the same cells and the same pixels everywhere but in
    [R], where the pixels are equal too, are equal. *)
Lemma same_off_eq R m1 m2 : ready fb m1 -> same_off (region fb R) m1 m2 ->
  (forall px py, in_buffer fb px py -> R px py -> m1 !! pix fb px py = m2 !! pix fb px py) -> m1 = m2.
Proof.
  intros Hm1 [_ Hs] HR. apply map_eq. intros a.
  destruct (address_pixel fb a) as [(px & py & Hb & ->)|Hoff]; [apply Hm1| |].
  - destruct (decide (m1 !! pix fb px py = m2 !! pix fb px py)) as [|Hne]; [done|].
    symmetry. apply Hs. intros (x & y & HRx & Hbx & Ea). apply Hne.
    apply pix_inj in Ea as [-> ->]; [by apply HR|done|done].
  - symmetry. apply Hs. intros (x & y & _ & Hb & ->). by eapply Hoff.
Qed.

Lemma overwrites_tints R c : overwrites fb R c -> tints fb R c.
Proof. by intros []. Qed.

(** Memories that differ at most where [c] overwrites become equal. *)
Lemma overwrites_absorbs R c m1 m2 : overwrites fb R c -> ready fb m1 -> ready fb m2 ->
  same_off (region fb R) m1 m2 -> c m1 = c m2.
Proof.
  intros [Hc Ho] Hm1 Hm2 Hs.
  destruct (tints_agree R R c m1 m2) as (m1' & m2' & E1 & E2 & Hm1' & Hm2' & _ & _ & Hs'); [done..|].
  rewrite E1, E2. f_equal. apply (same_off_eq R); [done|done|]. intros px py Hb HR.
  by eapply (Ho m1 m2).
Qed.

(** Painting a fixed colour overwrites. *)
Lemma paints_overwrites R v c `{!forall x y, Decision (R x y)} :
  paints fb R (fun _ _ _ => Done v) c -> overwrites fb R c.
Proof.
  intros Hc. split; [by eapply paints_tints|]. intros m1 m2 m1' m2' Hm1 Hm2 E1 E2 px py Hb HR.
  destruct (Hc m1 Hm1) as (n1 & F1 & _ & _ & HV1). rewrite E1 in F1. apply Done_inj in F1 as <-.
  destruct (Hc m2 Hm2) as (n2 & F2 & _ & _ & HV2). rewrite E2 in F2. apply Done_inj in F2 as <-.
  destruct (ready_mapped _ _ Hm1 px py Hb) as [o1 Ho1].
  destruct (ready_mapped _ _ Hm2 px py Hb) as [o2 Ho2].
  destruct (HV1 px py o1 Hb HR Ho1) as (w1 & [= <-] & ->).
  by destruct (HV2 px py o2 Hb HR Ho2) as (w2 & [= <-] & ->).
Qed.

Lemma overwrites_seq R c d : overwrites fb R c -> tints fb R d ->
  overwrites fb R (fun m => m' ← c m; d m').
Proof.
  intros [Hc Ho] Hd. split; [by apply drawing_seq|]. intros m1 m2 m1' m2' Hm1 Hm2 E1 E2 px py Hb HR.
  destruct (tints_draws _ _ Hc m1 Hm1) as (n1 & F1 & Hn1 & _).
  destruct (tints_draws _ _ Hc m2 Hm2) as (n2 & F2 & Hn2 & _).
  rewrite F1 in E1. rewrite F2 in E2. mred in E1. mred in E2.
  destruct Hd as [_ Hp]. eapply (Hp n1 n2); try done. by eapply (Ho m1 m2).
Qed.

Lemma overwrites_ext R c1 c2 : (forall m, c1 m = c2 m) -> overwrites fb R c2 -> overwrites fb R c1.
Proof.
  intros E [Hc Ho]. split; [by eapply drawing_ext|]. intros m1 m2 m1' m2' ??. rewrite !E.
  by apply Ho.
Qed.

(** Drawing over a part of the screen after the rest was finished gives
    what drawing it in its turn would have given. *)
Lemma late_redraw R D c c' d m : overwrites fb R c -> tints fb R c' -> tints fb D d ->
  (forall x y, in_buffer fb x y -> R x y -> D x y -> False) -> ready fb m ->
  exists m1 m2 m3, c' m = Done m1 /\ d m1 = Done m2 /\ c m2 = Done m3 /\
    (m1 ← c m; d m1) = Done m3 /\ ready fb m3.
Proof.
  intros Hover Hc' Hd Hdisj Hm. pose proof (overwrites_tints _ _ Hover) as Hc.
  assert (forall m1 m2, ready fb m1 -> ready fb m2 -> same_off (region fb R) m1 m2 -> c m1 = c m2) as Habs
    by (intros; by apply (overwrites_absorbs R)).
  destruct (tints_draws _ _ Hc' m Hm) as (m1 & E1 & Hm1 & Hs1).
  destruct (tints_draws _ _ Hc m Hm) as (n1 & F1 & Hn1 & Ht1).
  assert (same_off (region fb R) m1 n1) as Hmn by (etrans; [by symmetry|done]).
  destruct (tints_agree D R d m1 n1) as (m2 & n2 & E2 & F2 & Hm2 & Hn2 & Hs2 & Ht2 & Hmn2); [done..|].
  destruct (tints_draws _ _ Hc n2 Hn2) as (n3 & F3 & Hn3 & Ht3).
  assert (c m2 = Done n3) as E3 by (rewrite <- F3; by apply Habs).
  exists m1, m2, n3. split_and!; try done. rewrite F1. mred. rewrite F2. f_equal.
  apply (same_off_eq R n2 n3); [done|done|]. intros px py Hb HR.
  assert (n2 !! pix fb px py = n1 !! pix fb px py) as E
    by (eapply same_off_pixel; [exact Ht2|done|]; intros HD; by eapply Hdisj).
  assert (c n1 = Done n1) as Fn by (rewrite <- F1; apply Habs; [done|done|by symmetry]).
  rewrite E. destruct Hc as [_ Hp]. by eapply (Hp n1 n2).
Qed.
End tints.

Lemma ClearScreen_paints fb color : is_u32 color ->
  paints fb (fun _ _ => True) (fun _ _ _ => Done color) (ClearScreen fb color 0).
Proof.
  intros Hc m Hm. destruct (ClearScreen_spec fb color 0 m Hm Hc) as (m' & E & Hm' & Hs & HV & _).
  exists m'. split_and!; try done. intros px py old Hb _ _. exists color. split; [done|].
  apply HV; [by left|done].
Qed.

Lemma ClearScreen_overwrites fb color : is_u32 color ->
  overwrites fb (fun _ _ => True) (ClearScreen fb color 0).
Proof. intros. by eapply paints_overwrites, ClearScreen_paints; [apply _|]. Qed.

Lemma ClearRect_paints fb x y w h color :
  is_u32 x -> is_u32 y -> is_u32 w -> is_u32 h -> is_u32 color ->
  paints fb (fun px py => rect x y w h px py /\ on_screen fb px py) (fun _ _ _ => Done color)
    (ClearRect fb x y w h color).
Proof.
  intros ????? m Hm. destruct (ClearRect_spec fb x y w h color m) as (m' & E & Hm' & Hs & HV); [done..|].
  exists m'. split_and!; try done. intros px py old Hb [Hr Ho] _. exists color. split; [done|].
  by apply HV.
Qed.

Lemma ClearRect_overwrites fb x y w h color :
  is_u32 x -> is_u32 y -> is_u32 w -> is_u32 h -> is_u32 color ->
  overwrites fb (fun px py => rect x y w h px py /\ on_screen fb px py) (ClearRect fb x y w h color).
Proof. intros. by eapply paints_overwrites, ClearRect_paints; [apply _|..]. Qed.

(* ------------------------------------------------------------------ *)
(** ** Lemmas: concrete memories *)

Lemma buffer_lookup p n v a :
  buffer p n v !! a = Some v \/ buffer p n v !! a = None.
Proof.
  destruct (buffer p n v !! a) as [w|] eqn:E; [|by right]. left.
  apply elem_of_list_to_map_2 in E. apply list_elem_of_fmap in E as (i & [= -> ->] & _). done.
Qed.

Lemma buffer_mem_wf p n v : is_u32 v -> mem_wf (buffer p n v).
Proof. intros Hv a w Hw. destruct (buffer_lookup p n v a) as [E|E]; congruence. Qed.

Lemma buffer_mapped p n v i : 0 <= i < Z.of_nat n -> is_Some (buffer p n v !! (p + 4 * i)).
Proof.
  intros Hi. apply elem_of_dom. unfold buffer. rewrite dom_list_to_map.
  apply elem_of_list_to_set. rewrite <- list_fmap_compose. apply list_elem_of_fmap.
  exists (Z.to_nat i). split; [cbn; lia|]. apply elem_of_seq. lia.
Qed.

Lemma ready_buffer fb v : fb_wf fb -> is_u32 v ->
  ready fb (buffer (Framebuffer fb) (Z.to_nat (PixelsPerScanLine fb * ScreenHeight fb)) v).
Proof.
  intros Hfb Hv. split; [done|by apply buffer_mem_wf|].
  intros x y Hxy. apply buffer_mapped. pose proof (pix_in_range fb x y Hfb Hxy). lia.
Qed.

(** Buffers side by side in one memory. *)
Lemma mem_wf_union m1 m2 : mem_wf m1 -> mem_wf m2 -> mem_wf (m1 ∪ m2).
Proof. intros H1 H2 a v. rewrite lookup_union_Some_raw. intros [?|[_ ?]]; eauto. Qed.

Lemma ready_union_l fb m1 m2 : ready fb m1 -> mem_wf m2 -> ready fb (m1 ∪ m2).
Proof.
  intros [Hfb Hwf Hmap] H2. split; [done|by apply mem_wf_union|].
  intros x y Hxy. apply lookup_union_is_Some. left. by apply Hmap.
Qed.

Lemma ready_union_r fb m1 m2 : ready fb m2 -> mem_wf m1 -> ready fb (m1 ∪ m2).
Proof.
  intros [Hfb Hwf Hmap] H2. split; [done|by apply mem_wf_union|].
  intros x y Hxy. apply lookup_union_is_Some. right. by apply Hmap.
Qed.

(** Buffers at different places share no pixel. *)
Lemma apart_disjoint d s : fb_wf d -> fb_wf s ->
  (Framebuffer d + 4 * (PixelsPerScanLine d * ScreenHeight d) <= Framebuffer s \/
   Framebuffer s + 4 * (PixelsPerScanLine s * ScreenHeight s) <= Framebuffer d) ->
  disjoint_surfaces d s.
Proof.
  intros Hd Hs Hap x y x' y' Hb Hb'.
  pose proof (pix_in_range d x y Hd Hb). pose proof (pix_in_range s x' y' Hs Hb').
  unfold pix. lia.
Qed.

Lemma demo_fb_wf p : 0 <= p < 1000000 -> fb_wf (demo_fb p).
Proof. split; cbn; lia. Qed.

Lemma demo_ready p v : 0 <= p < 1000000 -> is_u32 v -> ready (demo_fb p) (buffer p 32 v).
Proof. intros Hp Hv. exact (ready_buffer (demo_fb p) v (demo_fb_wf p Hp) Hv). Qed.

Lemma demo_disjoint p q : 0 <= p < 1000000 -> 0 <= q < 1000000 -> p + 128 <= q \/ q + 128 <= p ->
  disjoint_surfaces (demo_fb p) (demo_fb q).
Proof. intros. apply apart_disjoint; [by apply demo_fb_wf..|]. cbn. lia. Qed.

(* ------------------------------------------------------------------ *)
(** ** Properties *)

(** The eight-fold unrolled 64-bit fill writes exactly what the plain
    loop of 32-bit stores writes, for every destination, count and colour. *)
Theorem FillPixels32_correct Destination Count Color m :
  is_u32 Count -> is_u32 Color ->
  FillPixels32 Destination Count Color m = fill_ref Destination Count Color m.
Proof. apply FillPixels32_ref. Qed.

Lemma FillPixels32_correct_witness :
  FillPixels32 4096 19 7 (buffer 4096 19 0) = fill_ref 4096 19 7 (buffer 4096 19 0).
Proof. apply (FillPixels32_correct 4096 19 7); lia. Defined.

(** The 64-bit copy is the plain loop of 32-bit copies, overlapping
    source and destination included. *)
Theorem CopyPixels32_correct Destination Source Count m :
  is_u32 Count -> mem_wf m ->
  CopyPixels32 Destination Source Count m = copy_ref Destination Source Count m.
Proof. apply CopyPixels32_ref. Qed.

Lemma CopyPixels32_correct_witness :
  CopyPixels32 4104 4096 17 (buffer 4096 19 5) = copy_ref 4104 4096 17 (buffer 4096 19 5).
Proof. apply (CopyPixels32_correct 4104 4096 17); [lia|apply buffer_mem_wf; lia]. Defined.

(** [BlitSurfaceRect] never leaves either surface, makes the pixels of
    the rectangle that are on both screens those of the source, and changes
    no other cell of memory. *)
Theorem BlitSurfaceRect_correct d s X Y W H m :
  ready d m -> ready s m -> disjoint_surfaces d s ->
  Framebuffer d <> 0 -> Framebuffer s <> 0 ->
  is_u32 X -> is_u32 Y -> is_u32 W -> is_u32 H ->
  exists m', BlitSurfaceRect (Some d) (Some s) X Y W H m = Done m' /\ ready d m' /\
    same_off (region d (fun x y => rect X Y W H x y /\ on_screen d x y /\ on_screen s x y)) m m' /\
    forall x y, rect X Y W H x y -> on_screen d x y -> on_screen s x y ->
      m' !! pix d x y = m !! pix s x y.
Proof.
  intros. destruct (BlitSurfaceRect_spec d s X Y W H m) as (m' & ? & ? & _ & ? & ?); [done..|].
  by exists m'.
Qed.

Lemma BlitSurfaceRect_correct_witness :
  let m := buffer 4096 32 1 ∪ buffer 8192 32 2 in
  exists m', BlitSurfaceRect (Some (demo_fb 4096)) (Some (demo_fb 8192)) 1 1 9 2 m = Done m' /\
    m' !! pix (demo_fb 4096) 1 1 = m !! pix (demo_fb 8192) 1 1.
Proof.
  intros m.
  destruct (BlitSurfaceRect_correct (demo_fb 4096) (demo_fb 8192) 1 1 9 2 m) as (m' & E & _ & _ & H).
  - apply ready_union_l; [apply demo_ready; lia|apply buffer_mem_wf; lia].
  - apply ready_union_r; [apply demo_ready; lia|apply buffer_mem_wf; lia].
  - apply demo_disjoint; lia.
  - done.
  - done.
  - lia.
  - lia.
  - lia.
  - lia.
  - exists m'. split; [exact E|]. apply H; split; cbn; lia.
Defined.

(** [ClearRect] gives the colour to exactly the pixels of the
    rectangle that are on the screen, however far the rectangle reaches. *)
Theorem ClearRect_correct fb x y w h color m :
  ready fb m -> is_u32 x -> is_u32 y -> is_u32 w -> is_u32 h -> is_u32 color ->
  exists m', ClearRect fb x y w h color m = Done m' /\ ready fb m' /\
    same_off (region fb (fun x' y' => rect x y w h x' y' /\ on_screen fb x' y')) m m' /\
    forall x' y', rect x y w h x' y' -> on_screen fb x' y' ->
      m' !! pix fb x' y' = Some color.
Proof. apply ClearRect_spec. Qed.

Lemma ClearRect_correct_witness :
  exists m', ClearRect (demo_fb 4096) 2 1 4294967295 2 9 (buffer 4096 32 0) = Done m' /\
    m' !! pix (demo_fb 4096) 3 2 = Some 9.
Proof.
  destruct (ClearRect_correct (demo_fb 4096) 2 1 4294967295 2 9 (buffer 4096 32 0))
    as (m' & E & _ & _ & H).
  - apply demo_ready; lia.
  - lia.
  - lia.
  - lia.
  - lia.
  - lia.
  - exists m'. split; [exact E|]. apply H; split; cbn; lia.
Defined.
