(* ===== verification/Pixel.v ===== *)
(** * Pixel formats and blending

    The channel arithmetic of [BootApp.c]: packing and unpacking a colour
    in the three pixel formats of the graphics protocol ([ComposePixel],
    [DecomposePixel] with their mask helpers), and the blending of a colour
    over a pixel ([AlphaBlendPixel]) or over black ([BlendChannelOverBlack]).
    The mask scans are loops with no bound of their own: they carry fuel,
    and running out of it is the fault [Diverges]; [MaskShift_total] and
    [MaskWidth_total] show that the fuel is enough whenever the loop ends. *)
From Stdlib Require Import ZArith Lia.
From stdpp Require Import base gmap list.
From S2P Require Import Prelude Surface.
#[local] Open Scope Z_scope.

(* ------------------------------------------------------------------ *)
(** ** Constants *)

Definition GOP_PIXEL_RED_GREEN_BLUE_RESERVED_8BIT : Z := 0.
Definition GOP_PIXEL_BLUE_GREEN_RED_RESERVED_8BIT : Z := 1.
Definition GOP_PIXEL_BIT_MASK : Z := 2.
Definition GOP_PIXEL_BLT_ONLY : Z := 3.

(* ------------------------------------------------------------------ *)
(** ** Operations *)

Fixpoint MaskShift_loop (fuel : nat) (mask shift : Z) : outcome Z :=
  match fuel with
  | O => Fault Diverges
  | S fuel =>
    if Z.land (shr32 mask shift) 1 =? 0 then MaskShift_loop fuel mask (u32 (shift + 1))
    else Done shift
  end.

Definition MaskShift (mask : Z) : outcome Z := MaskShift_loop 33 mask 0.

Fixpoint MaskWidth_loop (fuel : nat) (value width : Z) : outcome Z :=
  match fuel with
  | O => Fault Diverges
  | S fuel =>
    if negb (Z.land value 1 =? 0) then MaskWidth_loop fuel (Z.shiftr value 1) (u32 (width + 1))
    else Done width
  end.

Definition MaskWidth (mask shift : Z) : outcome Z :=
  MaskWidth_loop 33 (shr32 mask shift) 0.

Definition ScaleChannel (channel mask : Z) : outcome Z :=
  if mask =? 0 then Done 0
  else
    shift ← MaskShift mask;
    width ← MaskWidth mask shift;
    let maxValue := u32 (shl32 1 width - 1) in
    let scaled := u32 (channel * maxValue + 127) / 255 in
    Done (Z.land (shl32 scaled shift) mask).

Definition ExpandChannel (channel width : Z) : outcome Z :=
  if width =? 0 then Done 0
  else
    let maxValue := u32 (shl32 1 width - 1) in
    q ← udiv (u32 (channel * 255 + Z.shiftr maxValue 1)) maxValue;
    Done (u8 q).

Definition ComposePixel (red green blue pixelFormat redMask greenMask blueMask : Z)
    : outcome Z :=
  if pixelFormat =? GOP_PIXEL_RED_GREEN_BLUE_RESERVED_8BIT then
    Done (Z.lor (Z.lor red (shl32 green 8)) (shl32 blue 16))
  else if pixelFormat =? GOP_PIXEL_BLUE_GREEN_RED_RESERVED_8BIT then
    Done (Z.lor (Z.lor blue (shl32 green 8)) (shl32 red 16))
  else if pixelFormat =? GOP_PIXEL_BIT_MASK then
    r ← ScaleChannel red redMask;
    g ← ScaleChannel green greenMask;
    b ← ScaleChannel blue blueMask;
    Done (Z.lor (Z.lor r g) b)
  else Done 0.

(** The three out parameters, in order. *)
Definition DecomposePixel (pixel pixelFormat redMask greenMask blueMask : Z)
    : outcome (Z * Z * Z) :=
  if pixelFormat =? GOP_PIXEL_RED_GREEN_BLUE_RESERVED_8BIT then
    Done (u8 (Z.land pixel 255), u8 (Z.land (shr32 pixel 8) 255),
          u8 (Z.land (shr32 pixel 16) 255))
  else if pixelFormat =? GOP_PIXEL_BLUE_GREEN_RED_RESERVED_8BIT then
    Done (u8 (Z.land (shr32 pixel 16) 255), u8 (Z.land (shr32 pixel 8) 255),
          u8 (Z.land pixel 255))
  else if pixelFormat =? GOP_PIXEL_BIT_MASK then
    redShift ← MaskShift redMask;
    greenShift ← MaskShift greenMask;
    blueShift ← MaskShift blueMask;
    redWidth ← MaskWidth redMask redShift;
    greenWidth ← MaskWidth greenMask greenShift;
    blueWidth ← MaskWidth blueMask blueShift;
    redOut ← ExpandChannel (shr32 (Z.land pixel redMask) redShift) redWidth;
    greenOut ← ExpandChannel (shr32 (Z.land pixel greenMask) greenShift) greenWidth;
    blueOut ← ExpandChannel (shr32 (Z.land pixel blueMask) blueShift) blueWidth;
    Done (redOut, greenOut, blueOut)
  else Done (0, 0, 0).

(** [ComposePixel] with the format fields of a surface. *)
Abbreviation ComposeFor fb red green blue :=
  (ComposePixel red green blue (PixelFormat fb) (RedMask fb) (GreenMask fb) (BlueMask fb)).

(** One channel of [AlphaBlendPixel]. *)
Definition blend (source destination alpha inverseAlpha : Z) : Z :=
  u8 (u32 (source * alpha + destination * inverseAlpha + 127) / 255).

Definition AlphaBlendPixel (fb : FRAMEBUFFER_INFO)
    (destinationPixel red green blue alpha : Z) : outcome Z :=
  if alpha =? 255 then ComposeFor fb red green blue
  else if alpha =? 0 then Done destinationPixel
  else
    '(destinationRed, destinationGreen, destinationBlue) ←
      DecomposePixel destinationPixel (PixelFormat fb) (RedMask fb) (GreenMask fb) (BlueMask fb);
    let inverseAlpha := u32 (255 - alpha) in
    let outputRed := blend red destinationRed alpha inverseAlpha in
    let outputGreen := blend green destinationGreen alpha inverseAlpha in
    let outputBlue := blend blue destinationBlue alpha inverseAlpha in
    ComposeFor fb outputRed outputGreen outputBlue.

Definition BlendChannelOverBlack (channel alpha : Z) : Z :=
  u8 (u32 (channel * alpha + 127) / 255).

(* ------------------------------------------------------------------ *)
(** ** Specification vocabulary *)

(** A contiguous channel mask: [w] ones from bit [s] on. *)
Definition field (s w : Z) : Z := Z.shiftl (Z.ones w) s.

(** The formats whose channels survive a round trip: the two byte formats,
    and bit masks of three disjoint fields at least a byte wide. *)
Inductive deep_format : Z -> Z -> Z -> Z -> Prop :=
| deep_rgb rm gm bm : deep_format GOP_PIXEL_RED_GREEN_BLUE_RESERVED_8BIT rm gm bm
| deep_bgr rm gm bm : deep_format GOP_PIXEL_BLUE_GREEN_RED_RESERVED_8BIT rm gm bm
| deep_mask rs rw gs gw bs bw :
    8 <= rw -> 8 <= gw -> 8 <= bw ->
    0 <= rs -> 0 <= gs -> 0 <= bs ->
    rs + rw <= 32 -> gs + gw <= 32 -> bs + bw <= 32 ->
    (rs + rw <= gs \/ gs + gw <= rs) ->
    (rs + rw <= bs \/ bs + bw <= rs) ->
    (gs + gw <= bs \/ bs + bw <= gs) ->
    deep_format GOP_PIXEL_BIT_MASK (field rs rw) (field gs gw) (field bs bw).

(** The masks a bit-mask surface must not have for blending to end. *)
Definition usable_mask (mask : Z) : Prop := 0 < mask < 4294967295.

Definition blendable (fb : FRAMEBUFFER_INFO) : Prop :=
  is_u32 (RedMask fb) /\ is_u32 (GreenMask fb) /\ is_u32 (BlueMask fb) /\
  (PixelFormat fb = GOP_PIXEL_BIT_MASK ->
   usable_mask (RedMask fb) /\ usable_mask (GreenMask fb) /\ usable_mask (BlueMask fb)).

(* ------------------------------------------------------------------ *)
(** ** Lemmas: the mask scans *)

Lemma land1 x : Z.land x 1 = x mod 2.
Proof. change 1 with (Z.ones 1) at 1. by rewrite Z.land_ones. Qed.

Lemma odd_bit x : (Z.land x 1 =? 0) = negb (Z.testbit x 0).
Proof.
  rewrite land1, Z.bit0_odd, Zmod_odd. by destruct (Z.odd x).
Qed.

Lemma shr32_id a s : 0 <= s < 32 -> shr32 a s = Z.shiftr a s.
Proof.
  intros Hs. unfold shr32. change 31 with (Z.ones 5).
  rewrite Z.land_ones by lia. by rewrite Z.mod_small by (change (2 ^ 5) with 32; lia).
Qed.

Lemma shl32_id a s : 0 <= s < 32 -> shl32 a s = u32 (a * 2 ^ s).
Proof.
  intros Hs. unfold shl32. change 31 with (Z.ones 5).
  rewrite Z.land_ones by lia. rewrite Z.mod_small by (change (2 ^ 5) with 32; lia).
  by rewrite Z.shiftl_mul_pow2 by lia.
Qed.

Lemma shr32_bit mask s : 0 <= s < 32 -> (Z.land (shr32 mask s) 1 =? 0) = negb (Z.testbit mask s).
Proof.
  intros. rewrite odd_bit, shr32_id by done. by rewrite Z.shiftr_spec, Z.add_0_l by lia.
Qed.

(** The scan finds the lowest set bit when there is one. *)
Lemma MaskShift_loop_spec mask k fuel s :
  0 <= s <= k -> k < 32 -> Z.testbit mask k = true ->
  (forall i, s <= i < k -> Z.testbit mask i = false) ->
  (Z.to_nat (k - s) < fuel)%nat ->
  MaskShift_loop fuel mask s = Done k.
Proof.
  revert s. induction fuel as [|fuel IH]; intros s Hs Hk Hbit Hlow Hf; [lia|].
  cbn [MaskShift_loop]. rewrite shr32_bit by lia.
  destruct (decide (s = k)) as [->|].
  - by rewrite Hbit.
  - rewrite Hlow by lia. cbn. rewrite u32_id by lia.
    apply IH; try done; [lia|intros; apply Hlow; lia|lia].
Qed.

(** Every non-zero 32-bit mask has a lowest set bit. *)
Lemma lowest_bit mask : 0 < mask < 4294967296 ->
  exists k, 0 <= k < 32 /\ Z.testbit mask k = true /\
    forall i, 0 <= i < k -> Z.testbit mask i = false.
Proof.
  intros Hm.
  assert (forall n : nat, (n <= 32)%nat -> (forall i, 0 <= i < Z.of_nat n -> Z.testbit mask i = false)
    \/ exists k, 0 <= k < Z.of_nat n /\ Z.testbit mask k = true /\
       forall i, 0 <= i < k -> Z.testbit mask i = false) as H.
  { induction n as [|n IH]; intros Hn; [left; lia|].
    destruct IH as [IH|(k & Hk & ? & ?)]; [lia| |right; exists k; split_and!; try done; lia].
    destruct (Z.testbit mask (Z.of_nat n)) eqn:E.
    - right. exists (Z.of_nat n). split_and!; [lia|lia|done|done].
    - left. intros i Hi. destruct (decide (i = Z.of_nat n)) as [->|]; [done|]. apply IH. lia. }
  destruct (H 32%nat) as [H0|(k & Hk & Hbit & Hlow)]; [lia| |].
  - exfalso. assert (mask = 0); [|lia]. apply Z.bits_inj'. intros i Hi.
    rewrite Z.bits_0. destruct (decide (i < 32)); [apply H0; lia|].
    apply Z.bits_above_log2; [lia|]. apply Z.log2_lt_pow2; [lia|].
    pose proof (Z.pow_le_mono_r 2 32 i). lia.
  - exists k. done.
Qed.

Lemma MaskShift_total mask : 0 < mask < 4294967296 ->
  exists k, MaskShift mask = Done k /\ 0 <= k < 32 /\ Z.testbit mask k = true /\
    forall i, 0 <= i < k -> Z.testbit mask i = false.
Proof.
  intros Hm. destruct (lowest_bit mask Hm) as (k & Hk & Hbit & Hlow).
  exists k. split; [|done]. apply MaskShift_loop_spec; try done; lia.
Qed.

(** With no bit set the scan never ends, however long it runs. *)
Lemma MaskShift_loop_zero fuel s : MaskShift_loop fuel 0 s = Fault Diverges.
Proof.
  revert s. induction fuel as [|fuel IH]; intros s; [done|]. cbn [MaskShift_loop].
  unfold shr32. rewrite Z.shiftr_0_l. cbn. apply IH.
Qed.

(** The width scan counts the run of ones at the bottom of its value. *)
Lemma MaskWidth_loop_spec fuel value width :
  0 <= value < 2 ^ (Z.of_nat fuel - 1) -> 0 <= width -> width + Z.of_nat fuel <= 4294967296 ->
  exists w, MaskWidth_loop fuel value width = Done (width + w) /\
    0 <= w < Z.of_nat fuel /\ Z.testbit value w = false /\
    forall i, 0 <= i < w -> Z.testbit value i = true.
Proof.
  revert value width. induction fuel as [|fuel IH]; intros value width Hv Hw Hf.
  { change (Z.of_nat 0 - 1) with (-1) in Hv. cbn in Hv. lia. }
  cbn [MaskWidth_loop]. rewrite odd_bit, negb_involutive.
  destruct (Z.testbit value 0) eqn:E.
  - assert (0 < Z.of_nat fuel) as Hfu.
    { destruct fuel; [|lia]. change (2 ^ (Z.of_nat 1 - 1)) with 1 in Hv.
      assert (value = 0) as -> by lia. done. }
    destruct (IH (Z.shiftr value 1) (u32 (width + 1))) as (w & Ew & Hw1 & Hbit & Hlow).
    + rewrite Z.shiftr_div_pow2 by lia. split; [apply Z.div_pos; lia|].
      apply Z.div_lt_upper_bound; [lia|]. rewrite <- Z.pow_add_r by lia.
      replace (1 + (Z.of_nat fuel - 1)) with (Z.of_nat (S fuel) - 1) by lia. lia.
    + apply u32_range.
    + rewrite u32_id by lia. lia.
    + rewrite u32_id in Ew by lia. exists (w + 1). split_and!.
      * rewrite u32_id by lia. rewrite Ew. f_equal. lia.
      * lia.
      * lia.
      * rewrite <- Hbit, Z.shiftr_spec by lia. done.
      * intros i Hi. destruct (decide (i = 0)) as [->|]; [done|].
        specialize (Hlow (i - 1) ltac:(lia)). rewrite Z.shiftr_spec in Hlow by lia.
        by replace (i - 1 + 1) with i in Hlow by lia.
  - exists 0. split_and!; [by rewrite Z.add_0_r|lia|lia|done|lia].
Qed.

Lemma MaskWidth_total mask shift : is_u32 mask -> 0 <= shift < 32 ->
  exists w, MaskWidth mask shift = Done w /\ 0 <= w <= 32 /\
    Z.testbit mask (shift + w) = false /\
    forall i, 0 <= i < w -> Z.testbit mask (shift + i) = true.
Proof.
  intros Hm Hs. unfold MaskWidth. rewrite shr32_id by done.
  destruct (MaskWidth_loop_spec 33 (Z.shiftr mask shift) 0) as (w & E & Hw & Hbit & Hlow).
  - rewrite Z.shiftr_div_pow2 by lia. split; [apply Z.div_pos; lia|].
    change (2 ^ (Z.of_nat 33 - 1)) with 4294967296.
    apply Z.div_lt_upper_bound; [lia|]. nia.
  - lia.
  - lia.
  - rewrite Z.add_0_l in E. exists w. split_and!; [done|lia|lia| |].
    + rewrite <- Hbit, Z.shiftr_spec by lia. f_equal. lia.
    + intros i Hi. rewrite <- (Hlow i Hi), Z.shiftr_spec by lia. f_equal. lia.
Qed.

(* ------------------------------------------------------------------ *)
(** ** Lemmas: fields *)

Lemma field_bit s w i : 0 <= s -> 0 <= w -> 0 <= i ->
  Z.testbit (field s w) i = bool_decide (s <= i < s + w).
Proof.
  intros Hs Hw Hi. unfold field. destruct (decide (s <= i)) as [Hsi|Hsi].
  - rewrite Z.shiftl_spec by lia. destruct (decide (i < s + w)).
    + rewrite bool_decide_true by lia. apply Z.ones_spec_low. lia.
    + rewrite bool_decide_false by lia. apply Z.ones_spec_high. lia.
  - rewrite bool_decide_false by lia. apply Z.shiftl_spec_low. lia.
Qed.

Lemma field_val s w : 0 <= s -> 0 <= w -> field s w = (2 ^ w - 1) * 2 ^ s.
Proof.
  intros. unfold field. rewrite Z.shiftl_mul_pow2 by done. rewrite Z.ones_equiv. lia.
Qed.

Lemma pow2_le_32 k : 0 <= k <= 32 -> 0 < 2 ^ k <= 4294967296.
Proof.
  intros. split; [apply Z.pow_pos_nonneg; lia|].
  change 4294967296 with (2 ^ 32). apply Z.pow_le_mono_r; lia.
Qed.

Lemma field_range s w : 0 <= s -> 0 < w -> s + w <= 32 -> 0 < field s w < 4294967296.
Proof.
  intros. rewrite field_val by lia.
  pose proof (pow2_le_32 (w + s) ltac:(lia)). rewrite Z.pow_add_r in * by lia.
  assert (2 ^ 1 <= 2 ^ w) by (apply Z.pow_le_mono_r; lia).
  assert (0 < 2 ^ s) by (apply Z.pow_pos_nonneg; lia). nia.
Qed.

Lemma MaskShift_field s w : 0 <= s -> 0 < w -> s + w <= 32 -> MaskShift (field s w) = Done s.
Proof.
  intros. destruct (MaskShift_total (field s w)) as (k & E & Hk & Hbit & Hlow);
    [by apply field_range|].
  rewrite E. f_equal. rewrite field_bit in Hbit by lia. apply bool_decide_eq_true in Hbit.
  destruct (decide (s < k)); [|lia].
  specialize (Hlow s ltac:(lia)). rewrite field_bit in Hlow by lia.
  apply bool_decide_eq_false in Hlow. lia.
Qed.

Lemma MaskWidth_field s w : 0 <= s -> 0 < w -> s + w <= 32 -> MaskWidth (field s w) s = Done w.
Proof.
  intros Hs Hw Hsw. pose proof (field_range s w Hs Hw Hsw).
  destruct (MaskWidth_total (field s w) s) as (k & E & Hk & Hbit & Hlow); [lia|lia|].
  rewrite E. f_equal. rewrite field_bit in Hbit by lia. apply bool_decide_eq_false in Hbit.
  destruct (decide (w < k)); [|lia].
  specialize (Hlow w ltac:(lia)). rewrite field_bit in Hlow by lia.
  apply bool_decide_eq_true in Hlow. lia.
Qed.

(** The value a channel takes in a field of [w] bits. *)
Definition scaled (channel w : Z) : Z := (channel * (2 ^ w - 1) + 127) / 255.

Lemma pow2_channel w : 8 <= w <= 24 -> 256 <= 2 ^ w <= 16777216.
Proof.
  intros. change 256 with (2 ^ 8). change 16777216 with (2 ^ 24).
  split; apply Z.pow_le_mono_r; lia.
Qed.

Lemma scaled_range c w : is_u8 c -> 8 <= w <= 24 -> 0 <= scaled c w < 2 ^ w.
Proof.
  intros Hc Hw. unfold scaled. pose proof (pow2_channel w Hw). 
  split; [apply Z.div_pos; nia|]. apply Z.div_lt_upper_bound; nia.
Qed.

Lemma maxValue_id w : 0 < w < 32 -> u32 (shl32 1 w - 1) = 2 ^ w - 1.
Proof.
  intros. pose proof (pow2_le_32 w ltac:(lia)).
  assert (2 ^ w < 2 ^ 32) by (apply Z.pow_lt_mono_r; lia).
  change (2 ^ 32) with 4294967296 in *.
  rewrite shl32_id, Z.mul_1_l by lia. rewrite (u32_id (2 ^ w)), u32_id by lia. done.
Qed.

(** A value below [2 ^ w] moved to bit [s] lies inside the field. *)
Lemma shifted_bits v s w i : 0 <= v < 2 ^ w -> 0 <= s -> 0 <= w -> 0 <= i ->
  Z.testbit (v * 2 ^ s) i = true -> s <= i < s + w.
Proof.
  intros Hv Hs Hw Hi Hb. destruct (decide (v = 0)) as [->|]; [by rewrite Z.bits_0 in Hb|].
  destruct (decide (i < s)).
  { by rewrite Z.mul_pow2_bits_low in Hb by lia. }
  split; [lia|]. destruct (decide (i < s + w)); [done|].
  rewrite Z.mul_pow2_bits in Hb by lia.
  assert (Z.log2 v < w) by (apply Z.log2_lt_pow2; lia).
  by rewrite Z.bits_above_log2 in Hb by lia.
Qed.

Lemma shl32_shifted v s w : 0 <= v < 2 ^ w -> 0 <= s < 32 -> 0 <= w -> s + w <= 32 ->
  shl32 v s = v * 2 ^ s.
Proof.
  intros Hv Hs Hw Hsw. rewrite shl32_id by lia. apply u32_id.
  pose proof (pow2_le_32 (w + s) ltac:(lia)). rewrite Z.pow_add_r in * by lia.
  assert (0 < 2 ^ s) by (apply Z.pow_pos_nonneg; lia). nia.
Qed.

Lemma land_field_id v s w : 0 <= v < 2 ^ w -> 0 <= s -> 0 <= w ->
  Z.land (v * 2 ^ s) (field s w) = v * 2 ^ s.
Proof.
  intros Hv Hs Hw. apply Z.bits_inj'. intros i Hi. rewrite Z.land_spec.
  destruct (Z.testbit (v * 2 ^ s) i) eqn:E; [|done].
  rewrite field_bit by done. apply bool_decide_true. by eapply shifted_bits.
Qed.

Lemma ScaleChannel_field c s w : is_u8 c -> 0 <= s -> 8 <= w <= 24 -> s + w <= 32 ->
  ScaleChannel c (field s w) = Done (scaled c w * 2 ^ s).
Proof.
  intros Hc Hs Hw Hsw. unfold ScaleChannel.
  pose proof (field_range s w ltac:(lia) ltac:(lia) ltac:(lia)).
  pose proof (pow2_channel w Hw).
  destruct (Z.eqb_spec (field s w) 0); [lia|].
  rewrite MaskShift_field by lia. mred. rewrite MaskWidth_field by lia. cbn.
  rewrite maxValue_id by lia. rewrite u32_id by nia. fold (scaled c w).
  rewrite (shl32_shifted _ s w) by (try apply scaled_range; lia).
  rewrite land_field_id by (try apply scaled_range; lia). done.
Qed.

(** Widening a scaled channel gives the channel back. *)
Lemma expand_scaled c w : is_u8 c -> 8 <= w <= 24 ->
  ExpandChannel (scaled c w) w = Done c.
Proof.
  intros Hc Hw. unfold ExpandChannel. destruct (Z.eqb_spec w 0); [lia|].
  pose proof (pow2_channel w Hw). pose proof (scaled_range c w Hc Hw).
  rewrite maxValue_id by lia.
  rewrite Z.shiftr_div_pow2 by lia. change (2 ^ 1) with 2.
  unfold scaled in *. set (P := 2 ^ w) in *. clearbody P.
  set (v := (c * (P - 1) + 127) / 255) in *.
  assert (255 * v <= c * (P - 1) + 127 < 255 * v + 255) as Hv
    by (subst v; clear; dlia).
  clearbody v. rewrite u32_id by (split; [dnia|dnia]).
  rewrite udiv_done by lia. mred. f_equal.
  assert ((v * 255 + (P - 1) / 2) / (P - 1) = c) as ->; [|by apply u8_id].
  symmetry. apply Z.div_unique with (v * 255 + (P - 1) / 2 - (P - 1) * c); [|lia].
  left. dnia.
Qed.

Lemma land_select R G B s w : 0 <= s -> 0 <= w ->
  (forall i, 0 <= i -> Z.testbit R i = true -> s <= i < s + w) ->
  (forall i, 0 <= i -> Z.testbit G i = true -> ~ (s <= i < s + w)) ->
  (forall i, 0 <= i -> Z.testbit B i = true -> ~ (s <= i < s + w)) ->
  Z.land (Z.lor (Z.lor R G) B) (field s w) = R.
Proof.
  intros Hs Hw HR HG HB. apply Z.bits_inj'. intros i Hi.
  rewrite Z.land_spec, !Z.lor_spec, field_bit by done.
  specialize (HR i Hi). specialize (HG i Hi). specialize (HB i Hi).
  destruct (decide (s <= i < s + w)).
  - rewrite bool_decide_true by done.
    destruct (Z.testbit R i), (Z.testbit G i), (Z.testbit B i); try done;
      exfalso; first [by apply HG | by apply HB].
  - rewrite bool_decide_false by done. rewrite andb_false_r.
    destruct (Z.testbit R i); [exfalso; auto|done].
Qed.

(* ------------------------------------------------------------------ *)
(** ** Lemmas: composing and decomposing *)

Lemma lor_u32 a b : is_u32 a -> is_u32 b -> is_u32 (Z.lor a b).
Proof.
  intros Ha Hb. split; [apply Z.lor_nonneg; lia|].
  destruct (decide (Z.lor a b = 0)) as [->|]; [lia|].
  change 4294967296 with (2 ^ 32). apply Z.log2_lt_pow2.
  { assert (0 <= Z.lor a b) by (apply Z.lor_nonneg; lia). lia. }
  rewrite Z.log2_lor by lia.
  destruct (decide (a = 0)) as [->|], (decide (b = 0)) as [->|]; [done| | |];
    repeat match goal with
    | H : ?x <> 0 |- _ =>
        lazymatch goal with _ : Z.log2 x < 32 |- _ => fail | _ => 
        assert (Z.log2 x < 32) by (apply Z.log2_lt_pow2; change (2 ^ 32) with 4294967296; lia) end
    end; cbn [Z.log2] in *; lia.
Qed.

Lemma land_u32 a b : is_u32 a -> 0 <= b -> is_u32 (Z.land a b).
Proof.
  intros Ha Hb. split; [apply Z.land_nonneg; lia|].
  assert (Z.land a b <= a); [|lia].
  apply Z.ldiff_le; [lia|]. rewrite Z.ldiff_land. apply Z.bits_inj'. intros i Hi.
  rewrite !Z.land_spec, Z.lnot_spec, Z.bits_0 by lia. by destruct (Z.testbit a i), (Z.testbit b i).
Qed.

Lemma ScaleChannel_total c mask : is_u32 mask ->
  exists v, ScaleChannel c mask = Done v /\ is_u32 v.
Proof.
  intros Hm. unfold ScaleChannel. destruct (Z.eqb_spec mask 0); [exists 0; split; [done|lia]|].
  destruct (MaskShift_total mask) as (k & -> & Hk & _); [lia|]. mred.
  destruct (MaskWidth_total mask k) as (w & -> & Hw & _); [lia|lia|]. mred.
  eexists. split; [done|]. apply land_u32; [apply u32_range|lia].
Qed.

(** Composing a colour always ends with a 32-bit pixel. *)
Lemma ComposePixel_total r g b pf rm gm bm :
  is_u8 r -> is_u8 g -> is_u8 b -> is_u32 rm -> is_u32 gm -> is_u32 bm ->
  exists p, ComposePixel r g b pf rm gm bm = Done p /\ is_u32 p.
Proof.
  intros Hr Hg Hb Hrm Hgm Hbm. unfold ComposePixel.
  destruct (_ =? _); [|destruct (_ =? _); [|destruct (_ =? _)]].
  1,2: eexists; split; [done|]; repeat apply lor_u32; first [lia | apply u32_range].
  - destruct (ScaleChannel_total r rm Hrm) as (x & -> & ?).
    destruct (ScaleChannel_total g gm Hgm) as (y & -> & ?).
    destruct (ScaleChannel_total b bm Hbm) as (z & -> & ?). mred.
    eexists. split; [done|]. by repeat apply lor_u32.
  - exists 0. split; [done|lia].
Qed.

Lemma ExpandChannel_total v w : 0 <= w < 32 -> exists c, ExpandChannel v w = Done c /\ is_u8 c.
Proof.
  intros Hw. unfold ExpandChannel. destruct (Z.eqb_spec w 0); [exists 0; split; [done|lia]|].
  rewrite maxValue_id by lia.
  assert (2 ^ 1 <= 2 ^ w) by (apply Z.pow_le_mono_r; lia).
  rewrite udiv_done by lia. mred. eexists. split; [done|apply u8_range].
Qed.

(** A usable mask has fewer than 32 ones in its first run. *)
Lemma MaskWidth_usable mask k : usable_mask mask -> MaskShift mask = Done k ->
  exists w, MaskWidth mask k = Done w /\ 0 <= w < 32.
Proof.
  intros [H0 H1] Hk. destruct (MaskShift_total mask) as (k' & E & Hk' & _ & Hlow); [lia|].
  rewrite E in Hk. injection Hk as ->.
  destruct (MaskWidth_total mask k) as (w & Ew & Hw & Hbit & Hones); [lia|lia|].
  exists w. split; [done|]. split; [lia|]. destruct (decide (w = 32)) as [->|]; [|lia].
  exfalso. assert (k = 0) as ->.
  { destruct (decide (k = 0)); [done|]. exfalso.
    specialize (Hones 31 ltac:(lia)).
    rewrite Z.bits_above_log2 in Hones; [done|lia|].
    assert (Z.log2 mask < 32) by (apply Z.log2_lt_pow2; change (2^32) with 4294967296; lia). lia. }
  assert (mask = Z.ones 32); [|change (Z.ones 32) with 4294967295 in *; lia].
  apply Z.bits_inj'. intros i Hi. destruct (decide (i < 32)).
  - rewrite Z.ones_spec_low by lia. specialize (Hones i ltac:(lia)). by rewrite Z.add_0_l in Hones.
  - rewrite Z.ones_spec_high by lia. apply Z.bits_above_log2; [lia|].
    assert (Z.log2 mask < 32) by (apply Z.log2_lt_pow2; change (2^32) with 4294967296; lia). lia.
Qed.

Lemma DecomposePixel_total p pf rm gm bm :
  (pf = GOP_PIXEL_BIT_MASK -> usable_mask rm /\ usable_mask gm /\ usable_mask bm) ->
  exists r g b, DecomposePixel p pf rm gm bm = Done (r, g, b) /\ is_u8 r /\ is_u8 g /\ is_u8 b.
Proof.
  intros Hu. unfold DecomposePixel.
  destruct (_ =? _); [|destruct (_ =? _); [|destruct (Z.eqb_spec pf GOP_PIXEL_BIT_MASK)]].
  1,2: do 3 eexists; split; [done|]; split_and!; apply u8_range.
  - destruct (Hu ltac:(done)) as (Hr & Hg & Hb).
    destruct (MaskShift_total rm) as (rk & Er & _); [unfold usable_mask in *; lia|].
    destruct (MaskShift_total gm) as (gk & Eg & _); [unfold usable_mask in *; lia|].
    destruct (MaskShift_total bm) as (bk & Eb & _); [unfold usable_mask in *; lia|].
    destruct (MaskWidth_usable rm rk Hr Er) as (rw & Ewr & ?).
    destruct (MaskWidth_usable gm gk Hg Eg) as (gw & Ewg & ?).
    destruct (MaskWidth_usable bm bk Hb Eb) as (bw & Ewb & ?).
    rewrite Er, Eg, Eb. mred. rewrite Ewr, Ewg, Ewb. mred.
    destruct (ExpandChannel_total (shr32 (Z.land p rm) rk) rw) as (r & -> & ?); [done|].
    destruct (ExpandChannel_total (shr32 (Z.land p gm) gk) gw) as (g & -> & ?); [done|].
    destruct (ExpandChannel_total (shr32 (Z.land p bm) bk) bw) as (b & -> & ?); [done|].
    mred. by exists r, g, b.
  - exists 0, 0, 0. split; [done|lia].
Qed.

Lemma blend_range s d a i : is_u8 (blend s d a i).
Proof. apply u8_range. Qed.

(** Blending ends, with a 32-bit pixel, on every surface whose bit masks
    (if it uses them) are usable. *)
Lemma AlphaBlendPixel_total fb p r g b a :
  blendable fb -> is_u32 p -> is_u8 r -> is_u8 g -> is_u8 b ->
  exists v, AlphaBlendPixel fb p r g b a = Done v /\ is_u32 v.
Proof.
  intros (Hr & Hg & Hb & Hu) Hp ???. unfold AlphaBlendPixel.
  destruct (_ =? _); [by apply ComposePixel_total|].
  destruct (_ =? _); [by exists p|].
  destruct (DecomposePixel_total p (PixelFormat fb) (RedMask fb) (GreenMask fb) (BlueMask fb) Hu)
    as (dr & dg & db & -> & ? & ? & ?). mred. cbn zeta.
  apply ComposePixel_total; try done; apply blend_range.
Qed.

Lemma u8_land255 x : u8 (Z.land x 255) = x mod 256.
Proof.
  change 255 with (Z.ones 8). rewrite Z.land_ones by lia. change (2 ^ 8) with 256.
  apply u8_id. apply Z.mod_pos_bound. lia.
Qed.

(** The three bytes of the byte formats. *)
Lemma pack_bytes a b c : is_u8 a -> is_u8 b -> is_u8 c ->
  Z.lor (Z.lor a (shl32 b 8)) (shl32 c 16) = a + b * 256 + c * 65536.
Proof.
  intros Ha Hb Hc. rewrite !shl32_id by lia.
  change (2 ^ 8) with 256. change (2 ^ 16) with 65536. rewrite !u32_id by lia.
  assert (forall x k y, 0 <= x < 2 ^ k -> 0 <= k -> 0 <= y -> Z.lor x (y * 2 ^ k) = x + y * 2 ^ k)
    as Hl.
  { intros x k y Hx Hk Hy. symmetry. apply Z.add_nocarry_lor.
    apply Z.bits_inj'. intros i Hi. rewrite Z.land_spec, Z.bits_0.
    destruct (decide (i < k)).
    - by rewrite (Z.mul_pow2_bits_low y), andb_false_r by lia.
    - destruct (decide (x = 0)) as [->|]; [by rewrite Z.bits_0|].
      assert (Z.log2 x < k) by (apply Z.log2_lt_pow2; lia).
      by rewrite (Z.bits_above_log2 x) by lia. }
  pose proof (Hl a 8 b) as H8. change (2 ^ 8) with 256 in H8. rewrite H8 by lia.
  pose proof (Hl (a + b * 256) 16 c) as H16. change (2 ^ 16) with 65536 in H16.
  by rewrite H16 by lia.
Qed.

Lemma unpack_bytes a b c : is_u8 a -> is_u8 b -> is_u8 c ->
  let p := a + b * 256 + c * 65536 in
  u8 (Z.land p 255) = a /\ u8 (Z.land (shr32 p 8) 255) = b /\ u8 (Z.land (shr32 p 16) 255) = c.
Proof.
  intros Ha Hb Hc p. rewrite !u8_land255, !shr32_id, !Z.shiftr_div_pow2 by lia.
  change (2 ^ 8) with 256. change (2 ^ 16) with 65536. subst p. split_and!; dlia.
Qed.

Lemma shr32_shifted v s : 0 <= s < 32 -> shr32 (v * 2 ^ s) s = v.
Proof.
  intros. rewrite shr32_id, Z.shiftr_div_pow2 by lia.
  apply Z.div_mul. apply Z.pow_nonzero; lia.
Qed.

(** Decomposing a composed colour gives the colour back. *)
Lemma compose_decompose r g b pf rm gm bm :
  deep_format pf rm gm bm -> is_u8 r -> is_u8 g -> is_u8 b ->
  (p ← ComposePixel r g b pf rm gm bm; DecomposePixel p pf rm gm bm) = Done (r, g, b).
Proof.
  intros Hd Hr Hg Hb. destruct Hd as [rm gm bm|rm gm bm|rs rw gs gw bs bw].
  - change (ComposePixel _ _ _ _ _ _ _) with (Done (Z.lor (Z.lor r (shl32 g 8)) (shl32 b 16))).
    mred. rewrite pack_bytes by done.
    destruct (unpack_bytes r g b Hr Hg Hb) as (E1 & E2 & E3).
    unfold DecomposePixel, GOP_PIXEL_RED_GREEN_BLUE_RESERVED_8BIT,
      GOP_PIXEL_BLUE_GREEN_RED_RESERVED_8BIT. cbn [Z.eqb].
    by rewrite E1, E2, E3.
  - change (ComposePixel _ _ _ _ _ _ _) with (Done (Z.lor (Z.lor b (shl32 g 8)) (shl32 r 16))).
    mred. rewrite pack_bytes by done.
    destruct (unpack_bytes b g r Hb Hg Hr) as (E1 & E2 & E3).
    unfold DecomposePixel, GOP_PIXEL_RED_GREEN_BLUE_RESERVED_8BIT,
      GOP_PIXEL_BLUE_GREEN_RED_RESERVED_8BIT. cbn [Z.eqb].
    by rewrite E1, E2, E3.
  - unfold ComposePixel, DecomposePixel, GOP_PIXEL_BIT_MASK,
      GOP_PIXEL_RED_GREEN_BLUE_RESERVED_8BIT, GOP_PIXEL_BLUE_GREEN_RED_RESERVED_8BIT.
    cbn [Z.eqb Pos.eqb].
    rewrite !ScaleChannel_field by lia. mred.
    rewrite !MaskShift_field by lia. mred. rewrite !MaskWidth_field by lia. mred.
    set (R := scaled r rw * 2 ^ rs). set (G := scaled g gw * 2 ^ gs).
    set (B := scaled b bw * 2 ^ bs).
    pose proof (scaled_range r rw Hr ltac:(lia)) as HR.
    pose proof (scaled_range g gw Hg ltac:(lia)) as HG.
    pose proof (scaled_range b bw Hb ltac:(lia)) as HB.
    assert (forall i, 0 <= i -> Z.testbit R i = true -> rs <= i < rs + rw) as HRb
      by (intros i Hi; by apply shifted_bits; lia).
    assert (forall i, 0 <= i -> Z.testbit G i = true -> gs <= i < gs + gw) as HGb
      by (intros i Hi; by apply shifted_bits; lia).
    assert (forall i, 0 <= i -> Z.testbit B i = true -> bs <= i < bs + bw) as HBb
      by (intros i Hi; by apply shifted_bits; lia).
    rewrite (land_select R G B rs rw) by (first [lia | done |
      intros i Hi Hbi; first [specialize (HGb i Hi Hbi) | specialize (HBb i Hi Hbi)]; lia]).
    assert (Z.land (Z.lor (Z.lor R G) B) (field gs gw) = G) as ->.
    { rewrite (Z.lor_comm R G). apply land_select; first [lia | done |
        intros i Hi Hbi; first [specialize (HRb i Hi Hbi) | specialize (HBb i Hi Hbi)]; lia]. }
    assert (Z.land (Z.lor (Z.lor R G) B) (field bs bw) = B) as ->.
    { rewrite (Z.lor_comm _ B), Z.lor_assoc. apply land_select; first [lia | done |
        intros i Hi Hbi; first [specialize (HRb i Hi Hbi) | specialize (HGb i Hi Hbi)]; lia]. }
    subst R G B. rewrite !shr32_shifted by lia.
    by rewrite !expand_scaled by lia.
Qed.

(** Blending between the extremes of alpha rounds the weighted mean of
    source and destination to the nearest integer. *)
Lemma blend_rounds s d a : is_u8 s -> is_u8 d -> is_u8 a ->
  let c := blend s d a (u32 (255 - a)) in
  Z.abs (255 * c - (s * a + d * (255 - a))) <= 127 /\ Z.min s d <= c <= Z.max s d.
Proof.
  intros Hs Hd Ha c. subst c. unfold blend.
  rewrite (u32_id (255 - a)) by lia. rewrite u32_id by nia.
  set (t := s * a + d * (255 - a)).
  assert (Z.min s d * 255 <= t <= Z.max s d * 255) as Ht by (subst t; nia).
  clearbody t. rewrite u8_id by dlia. split; [dlia|]. split; dlia.
Qed.

Lemma AlphaBlendPixel_mid fb sr sg sb dr dg db a p :
  deep_format (PixelFormat fb) (RedMask fb) (GreenMask fb) (BlueMask fb) ->
  is_u8 dr -> is_u8 dg -> is_u8 db -> 0 < a < 255 ->
  ComposeFor fb dr dg db = Done p ->
  AlphaBlendPixel fb p sr sg sb a =
  ComposeFor fb (blend sr dr a (u32 (255 - a))) (blend sg dg a (u32 (255 - a)))
    (blend sb db a (u32 (255 - a))).
Proof.
  intros Hdeep ??? Ha Hp. unfold AlphaBlendPixel.
  destruct (Z.eqb_spec a 255); [lia|]. destruct (Z.eqb_spec a 0); [lia|].
  pose proof (compose_decompose dr dg db _ _ _ _ Hdeep) as Hrt. rewrite Hp in Hrt.
  mred. cbn in Hrt. by rewrite Hrt.
Qed.

Lemma deep_format_u32 pf rm gm bm : deep_format pf rm gm bm ->
  pf = GOP_PIXEL_BIT_MASK -> usable_mask rm /\ usable_mask gm /\ usable_mask bm.
Proof.
  destruct 1 as [| |rs rw gs gw bs bw]; [done|done|]. intros _.
  assert (forall s w, 0 <= s -> 8 <= w <= 24 -> s + w <= 32 -> usable_mask (field s w)) as H'.
  { intros s w Hs Hw Hsw. pose proof (field_range s w ltac:(lia) ltac:(lia) Hsw).
    split; [lia|]. destruct (decide (field s w = 4294967295)) as [E|]; [|lia].
    pose proof (field_bit s w 0 ltac:(lia) ltac:(lia) ltac:(lia)) as B0.
    pose proof (field_bit s w 31 ltac:(lia) ltac:(lia) ltac:(lia)) as B31.
    rewrite E in B0, B31. symmetry in B0, B31.
    apply bool_decide_eq_true in B0, B31. lia. }
  split_and!; apply H'; lia.
Qed.

Lemma deep_compose r g b pf rm gm bm : deep_format pf rm gm bm ->
  is_u8 r -> is_u8 g -> is_u8 b -> exists q, ComposePixel r g b pf rm gm bm = Done q.
Proof.
  intros Hdeep Hr Hg Hb. pose proof (compose_decompose r g b _ _ _ _ Hdeep Hr Hg Hb) as E.
  apply bind_done in E as (q & E & _). by exists q.
Qed.

Lemma demo_blendable p : blendable (demo_fb p).
Proof. split_and!; cbn; try lia. done. Qed.

(* ------------------------------------------------------------------ *)
(** ** Properties *)

(** Decomposing a composed colour gives the colour back, in the two byte
    formats and in every bit-mask format whose three channels are disjoint
    fields of at least eight bits. *)
Theorem ComposePixel_roundtrip r g b pf rm gm bm :
  deep_format pf rm gm bm -> is_u8 r -> is_u8 g -> is_u8 b ->
  (p ← ComposePixel r g b pf rm gm bm; DecomposePixel p pf rm gm bm) = Done (r, g, b).
Proof. apply compose_decompose. Qed.

Lemma ComposePixel_roundtrip_witness :
  (p ← ComposePixel 12 200 77 GOP_PIXEL_BIT_MASK (field 20 10) (field 10 10) (field 0 10);
   DecomposePixel p GOP_PIXEL_BIT_MASK (field 20 10) (field 10 10) (field 0 10))
  = Done (12, 200, 77).
Proof. apply ComposePixel_roundtrip; [constructor; lia|lia|lia|lia]. Defined.

(** On a surface in one of those formats, blending a colour over a pixel
    that holds a colour gives a pixel that holds, channel by channel, the
    weighted mean rounded to the nearest integer, which lies between the two. *)
Theorem AlphaBlendPixel_blends fb sr sg sb dr dg db a p :
  deep_format (PixelFormat fb) (RedMask fb) (GreenMask fb) (BlueMask fb) ->
  is_u8 sr -> is_u8 sg -> is_u8 sb -> is_u8 dr -> is_u8 dg -> is_u8 db -> is_u8 a ->
  ComposeFor fb dr dg db = Done p ->
  exists r g b q, AlphaBlendPixel fb p sr sg sb a = Done q /\
    DecomposePixel q (PixelFormat fb) (RedMask fb) (GreenMask fb) (BlueMask fb) = Done (r, g, b) /\
    Forall (fun '(s, d, c) =>
      Z.abs (255 * c - (s * a + d * (255 - a))) <= 127 /\ Z.min s d <= c <= Z.max s d)
      [(sr, dr, r); (sg, dg, g); (sb, db, b)].
Proof.
  intros Hdeep Hsr Hsg Hsb Hdr Hdg Hdb Ha Hp.
  assert (forall r g b q, is_u8 r -> is_u8 g -> is_u8 b -> ComposeFor fb r g b = Done q ->
    DecomposePixel q (PixelFormat fb) (RedMask fb) (GreenMask fb) (BlueMask fb) = Done (r, g, b))
    as Hrt.
  { intros r g b q ??? E. pose proof (compose_decompose r g b _ _ _ _ Hdeep) as Hcd.
    rewrite E in Hcd. by apply Hcd. }
  destruct (decide (a = 255)) as [->|]; [|destruct (decide (a = 0)) as [->|]].
  - destruct (deep_compose sr sg sb _ _ _ _ Hdeep) as [q Hq]; [done..|].
    exists sr, sg, sb, q. split; [done|]. split; [by eapply Hrt|].
    repeat constructor; cbn; lia.
  - exists dr, dg, db, p. split; [done|]. split; [by eapply Hrt|]. repeat constructor; cbn; lia.
  - rewrite (AlphaBlendPixel_mid fb sr sg sb dr dg db a p) by (done || lia).
    destruct (deep_compose (blend sr dr a (u32 (255 - a))) (blend sg dg a (u32 (255 - a)))
      (blend sb db a (u32 (255 - a))) _ _ _ _ Hdeep) as [q Hq]; [apply blend_range..|].
    do 4 eexists. split; [done|]. split; [eapply Hrt; [apply blend_range..|done]|].
    repeat constructor; by apply blend_rounds.
Qed.

Lemma AlphaBlendPixel_blends_witness :
  exists r g b q, AlphaBlendPixel (demo_fb 4096) 1312 200 0 10 100 = Done q /\
    DecomposePixel q 1 0 0 0 = Done (r, g, b) /\
    Forall (fun '(s, d, c) =>
      Z.abs (255 * c - (s * 100 + d * (255 - 100))) <= 127 /\ Z.min s d <= c <= Z.max s d)
      [(200, 0, r); (0, 5, g); (10, 32, b)].
Proof.
  apply (AlphaBlendPixel_blends (demo_fb 4096) 200 0 10 0 5 32 100 1312);
    [apply deep_bgr|lia|lia|lia|lia|lia|lia|lia|reflexivity].
Defined.

(** [MaskShift] finds the lowest set bit of every non-zero mask, and
    [MaskWidth] the length of the run of ones that starts there; both loops
    end. *)
Theorem MaskScan_correct mask : 0 < mask < 4294967296 ->
  exists s w, MaskShift mask = Done s /\ MaskWidth mask s = Done w /\
    0 <= s < 32 /\ 0 < w <= 32 /\
    (forall i, 0 <= i < s -> Z.testbit mask i = false) /\
    (forall i, 0 <= i < w -> Z.testbit mask (s + i) = true) /\
    Z.testbit mask (s + w) = false.
Proof.
  intros Hm. destruct (MaskShift_total mask Hm) as (s & Es & Hs & Hbit & Hlow).
  destruct (MaskWidth_total mask s) as (w & Ew & Hw & Hend & Hones); [lia|done|].
  exists s, w. split_and!; try done; try lia.
  destruct (decide (w = 0)) as [->|]; [|lia]. rewrite Z.add_0_r in Hend. congruence.
Qed.

Lemma MaskScan_correct_witness : exists s w,
  MaskShift 16711680 = Done s /\ MaskWidth 16711680 s = Done w /\ 0 < w <= 32.
Proof.
  destruct (MaskScan_correct 16711680) as (s & w & Hs & Hw & _ & Hr & _); [lia|].
  exists s, w. exact (conj Hs (conj Hw Hr)).
Defined.

(** A bit-mask surface with an empty channel mask stops the machine:
    however long the scan of [DecomposePixel] runs it does not end, so neither
    does any blend with an alpha between the extremes. *)
Theorem AlphaBlendPixel_empty_mask fb p r g b a :
  PixelFormat fb = GOP_PIXEL_BIT_MASK -> RedMask fb = 0 -> a <> 0 -> a <> 255 ->
  (forall fuel, MaskShift_loop fuel (RedMask fb) 0 = Fault Diverges) /\
  AlphaBlendPixel fb p r g b a = Fault Diverges.
Proof.
  intros Hf Hr H0 H255. rewrite Hr. split; [intros; apply MaskShift_loop_zero|].
  unfold AlphaBlendPixel. apply Z.eqb_neq in H0, H255. by rewrite H0, H255, Hf, Hr.
Qed.

Lemma AlphaBlendPixel_empty_mask_witness :
  let fb := mkFB 6 4 8 GOP_PIXEL_BIT_MASK 0 65280 255 4096 in
  (forall fuel, MaskShift_loop fuel (RedMask fb) 0 = Fault Diverges) /\
  AlphaBlendPixel fb 0 1 2 3 4 = Fault Diverges.
Proof. apply AlphaBlendPixel_empty_mask; [reflexivity|reflexivity|lia|lia]. Defined.
