(* ===== verification/Assets.v ===== *)
(** * The generated header

    [generated_bitmap.h] is written by the builder ([WriteGeneratedHeader]
    of [NativeUefiCompiler.cs]) and included by [BootApp.c]; it is not in
    the repository.  Its macros and arrays are the fields of the class
    [Assets], a parameter of every definition that uses them, and
    [assets_wf] states what the generator guarantees of them: array
    lengths, byte ranges, and tween values clamped to [0, 1024]. *)
From Stdlib Require Import ZArith Lia String Ascii.
From stdpp Require Import base gmap list.
From S2P Require Import Prelude.
#[local] Open Scope Z_scope.

(* ------------------------------------------------------------------ *)
(** ** C strings *)

(** The bytes of a C string before its terminator. *)
Definition str (s : string) : list Z :=
  (fun a => Z.of_nat (nat_of_ascii a)) <$> list_ascii_of_string s.

(* ------------------------------------------------------------------ *)
(** ** Data *)

(** One font: the four [*_FONT_*] macros and the two glyph arrays. *)
Record FontAtlas : Type := mkFont {
  FIRST_CHAR : Z;
  GLYPH_COUNT : Z;
  GLYPH_WIDTH : Z;
  GLYPH_HEIGHT : Z;
  GlyphAlpha : list Z;
  GlyphAdvance : list Z;
}.

(** The four curves of one tween family. *)
Record TweenFamily : Type := mkTween {
  tweenIn : list Z;
  tweenOut : list Z;
  tweenInOut : list Z;
  tweenOutIn : list Z;
}.

Class Assets : Type := mkAssets {
  SPLASH_WIDTH : Z;
  SPLASH_HEIGHT : Z;
  gSplashPixels : list Z;
  CURSOR_WIDTH : Z;
  CURSOR_HEIGHT : Z;
  gCursorPixels : list Z;
  gCursorAlpha : list Z;
  SETUP_ICON_WIDTH : Z;
  SETUP_ICON_HEIGHT : Z;
  gSetupIconPixels : list Z;
  gSetupIconAlpha : list Z;
  gFont : FontAtlas;
  gIconFont : FontAtlas;
  gSetupTitleFont : FontAtlas;
  gSetupUiFont : FontAtlas;
  gTweenLinear : TweenFamily;
  gTweenSine : TweenFamily;
  gTweenCubic : TweenFamily;
  gTweenExponential : TweenFamily;
  gTweenBack : TweenFamily;
  gRuntimeSummaryText : list Z;
  gRuntimeVideoText : list Z;
  gConsoleIconText : list Z;
  gRuntimeRegistryText : list Z;
}.

(* ------------------------------------------------------------------ *)
(** ** What the generator guarantees *)

Definition bytes (l : list Z) : Prop := Forall (fun b => is_u8 b) l.

(** An image of [w * h] pixels of [k] bytes. *)
Record image_wf (w h k : Z) (pixels : list Z) : Prop := {
  image_w : 0 < w < 65536;
  image_h : 0 < h < 65536;
  image_size : w * h * 3 < 4294967296;
  image_len : Z.of_nat (length pixels) = w * h * k;
  image_bytes : bytes pixels;
}.

(** [FontAtlasBuilder.Build]: characters 32 to 126, advances at most the
    glyph width. *)
Record font_wf (f : FontAtlas) : Prop := {
  font_first : 0 <= FIRST_CHAR f;
  font_count : 0 < GLYPH_COUNT f;
  font_last : FIRST_CHAR f + GLYPH_COUNT f <= 256;
  font_w : 0 < GLYPH_WIDTH f < 256;
  font_h : 0 < GLYPH_HEIGHT f < 256;
  font_alpha : Z.of_nat (length (GlyphAlpha f)) = GLYPH_COUNT f * GLYPH_WIDTH f * GLYPH_HEIGHT f;
  font_alpha_bytes : bytes (GlyphAlpha f);
  font_advance : Z.of_nat (length (GlyphAdvance f)) = GLYPH_COUNT f;
  font_advance_bytes : bytes (GlyphAdvance f);
}.

(** [TweenTableBuilder.BuildTable]: 1025 values clamped to [0, 1024]. *)
Definition curve_wf (t : list Z) : Prop :=
  length t = 1025%nat /\ Forall (fun v => 0 <= v <= 1024) t.

Definition tween_wf (t : TweenFamily) : Prop :=
  curve_wf (tweenIn t) /\ curve_wf (tweenOut t) /\
  curve_wf (tweenInOut t) /\ curve_wf (tweenOutIn t).

Class AssetsWf (A : Assets) : Prop := {
  splash_wf : image_wf SPLASH_WIDTH SPLASH_HEIGHT 3 gSplashPixels;
  cursor_wf : image_wf CURSOR_WIDTH CURSOR_HEIGHT 3 gCursorPixels;
  cursor_alpha_wf : image_wf CURSOR_WIDTH CURSOR_HEIGHT 1 gCursorAlpha;
  icon_wf : image_wf SETUP_ICON_WIDTH SETUP_ICON_HEIGHT 3 gSetupIconPixels;
  icon_alpha_wf : image_wf SETUP_ICON_WIDTH SETUP_ICON_HEIGHT 1 gSetupIconAlpha;
  gFont_wf : font_wf gFont;
  gIconFont_wf : font_wf gIconFont;
  gSetupTitleFont_wf : font_wf gSetupTitleFont;
  gSetupUiFont_wf : font_wf gSetupUiFont;
  linear_wf : tween_wf gTweenLinear;
  sine_wf : tween_wf gTweenSine;
  cubic_wf : tween_wf gTweenCubic;
  exponential_wf : tween_wf gTweenExponential;
  back_wf : tween_wf gTweenBack;
}.

Create HintDb assets.
#[export] Hint Resolve splash_wf cursor_wf cursor_alpha_wf icon_wf icon_alpha_wf gFont_wf
  gIconFont_wf gSetupTitleFont_wf gSetupUiFont_wf linear_wf sine_wf cubic_wf
  exponential_wf back_wf : assets.

(* ------------------------------------------------------------------ *)
(** ** A small concrete header, for the witnesses *)

Definition flat_font (w h : nat) : FontAtlas := {|
  FIRST_CHAR := 32; GLYPH_COUNT := 95;
  GLYPH_WIDTH := Z.of_nat w; GLYPH_HEIGHT := Z.of_nat h;
  GlyphAlpha := replicate (95 * w * h) 128;
  GlyphAdvance := replicate 95 2;
|}.

(** [BuildTable(t => t)]: the linear curve. *)
Definition linear_curve : list Z := Z.of_nat <$> seq 0 1025.

Definition linear_family : TweenFamily := {|
  tweenIn := linear_curve; tweenOut := linear_curve;
  tweenInOut := linear_curve; tweenOutIn := linear_curve;
|}.

Definition demo_assets : Assets := {|
  SPLASH_WIDTH := 2; SPLASH_HEIGHT := 2; gSplashPixels := replicate 12 200;
  CURSOR_WIDTH := 2; CURSOR_HEIGHT := 2;
  gCursorPixels := replicate 12 100; gCursorAlpha := [255; 0; 0; 255];
  SETUP_ICON_WIDTH := 2; SETUP_ICON_HEIGHT := 2;
  gSetupIconPixels := replicate 12 50; gSetupIconAlpha := replicate 4 255;
  gFont := flat_font 3 3; gIconFont := flat_font 2 2;
  gSetupTitleFont := flat_font 3 3; gSetupUiFont := flat_font 3 3;
  gTweenLinear := linear_family; gTweenSine := linear_family;
  gTweenCubic := linear_family; gTweenExponential := linear_family;
  gTweenBack := linear_family;
  gRuntimeSummaryText := str "DLL:0"; gRuntimeVideoText := str "MP4";
  gConsoleIconText := str "Dragon OS"; gRuntimeRegistryText := str "none";
|}.

Lemma bytes_replicate n b : is_u8 b -> bytes (replicate n b).
Proof. intros. by apply Forall_replicate. Qed.

Lemma flat_font_wf w h : (0 < w < 256)%nat -> (0 < h < 256)%nat -> font_wf (flat_font w h).
Proof.
  intros. split; cbn [FIRST_CHAR GLYPH_COUNT GLYPH_WIDTH GLYPH_HEIGHT GlyphAlpha GlyphAdvance flat_font];
    rewrite ?length_replicate; try lia; apply bytes_replicate; lia.
Qed.

Lemma linear_curve_wf : curve_wf linear_curve.
Proof.
  split; [done|]. apply Forall_forall. intros v Hv.
  apply list_elem_of_fmap in Hv as (n & -> & Hn). apply elem_of_seq in Hn. lia.
Qed.

#[export] Instance demo_assets_wf : AssetsWf demo_assets.
Proof.
  split; try (apply flat_font_wf; lia); try (split_and!; apply linear_curve_wf);
    split; cbn; try lia; repeat constructor; lia.
Qed.
