(* ===== verification/Text.v ===== *)
(** * Text rendering

    The glyph and text routines of [BootApp.c]: one glyph
    ([DrawGlyph], [DrawGlyphAtlas], [DrawGlyphScaled], [DrawIconGlyph]),
    a string of them ([DrawTextString] and variants), its width
    ([MeasureTextStringAtlas], [MeasureTextStringScaled]) and the outlined
    gradient titles.  A [const char*] is [None] for [NULL] and otherwise the
    bytes before the terminator; a [const UINT8*] likewise. *)
From Stdlib Require Import ZArith Lia String.
From stdpp Require Import base gmap list.
From S2P Require Import Prelude Surface Pixel Assets.
#[local] Open Scope Z_scope.

(* ------------------------------------------------------------------ *)
(** ** Operations *)

(** [Framebuffer[y * pitch + x] = AlphaBlendPixel(Framebuffer[...], ...)]. *)
Definition blend_at (fb : FRAMEBUFFER_INFO) (pixelX pixelY red green blue alpha : Z)
    (m : mem) : outcome mem :=
  let index := u32 (u32 pixelY * PixelsPerScanLine fb + u32 pixelX) in
  destination ← load32 (elem (Framebuffer fb) index) m;
  v ← AlphaBlendPixel fb destination red green blue alpha;
  store32 (elem (Framebuffer fb) index) v m.

(** A font has the character. *)
Definition has_glyph (glyph firstChar glyphCount : Z) : bool :=
  (firstChar <=? glyph) && (glyph <? u32 (firstChar + glyphCount)).

Definition DrawGlyphAtlas (fb : FRAMEBUFFER_INFO) (x y glyph red green blue : Z)
    (firstChar glyphCount glyphWidth glyphHeight : Z) (glyphAlpha : option (list Z))
    (m : mem) : outcome mem :=
  match glyphAlpha with
  | None => Done m
  | Some glyphAlpha =>
    if ((glyph <? firstChar) || (u32 (firstChar + glyphCount) <=? glyph))%bool then Done m
    else
      let glyphIndex := u32 (glyph - firstChar) in
      for_count glyphHeight (fun row m =>
        let pixelY := i32 (y + i32 row) in
        if ((pixelY <? 0) || (i32 (ScreenHeight fb) <=? pixelY))%bool then Done m
        else
          for_count glyphWidth (fun column m =>
            let pixelX := i32 (x + i32 column) in
            if ((pixelX <? 0) || (i32 (ScreenWidth fb) <=? pixelX))%bool then Done m
            else
              let alphaIndex := u32 (glyphIndex * glyphWidth * glyphHeight
                                     + row * glyphWidth + column) in
              alpha ← rd glyphAlpha alphaIndex;
              if alpha =? 0 then Done m
              else blend_at fb pixelX pixelY red green blue alpha m) m) m
  end.

Fixpoint DrawTextStringAtlas_loop (fb : FRAMEBUFFER_INFO) (x : Z) (text : list Z)
    (cursorX y red green blue firstChar glyphCount glyphWidth glyphHeight : Z)
    (glyphAlpha : option (list Z)) (glyphAdvance : list Z) (m : mem) : outcome mem :=
  match text with
  | [] => Done m
  | c :: text =>
    let glyph := u8 c in
    if glyph =? 10 then
      DrawTextStringAtlas_loop fb x text x (i32 (y + i32 glyphHeight)) red green blue
        firstChar glyphCount glyphWidth glyphHeight glyphAlpha glyphAdvance m
    else
      m ← DrawGlyphAtlas fb cursorX y glyph red green blue
            firstChar glyphCount glyphWidth glyphHeight glyphAlpha m;
      cursorX ←
        (if has_glyph glyph firstChar glyphCount then
           advance ← rd glyphAdvance (u32 (glyph - firstChar));
           Done (i32 (cursorX + advance))
         else Done (i32 (cursorX + i32 (glyphWidth / 2))));
      DrawTextStringAtlas_loop fb x text cursorX y red green blue
        firstChar glyphCount glyphWidth glyphHeight glyphAlpha glyphAdvance m
  end.

Definition DrawTextStringAtlas (fb : FRAMEBUFFER_INFO) (x y : Z) (text : option (list Z))
    (red green blue firstChar glyphCount glyphWidth glyphHeight : Z)
    (glyphAlpha glyphAdvance : option (list Z)) (m : mem) : outcome mem :=
  match text, glyphAdvance with
  | Some text, Some glyphAdvance =>
    DrawTextStringAtlas_loop fb x text x y red green blue
      firstChar glyphCount glyphWidth glyphHeight glyphAlpha glyphAdvance m
  | _, _ => Done m
  end.

(** The pixels the pen moves for one character. *)
Definition advance_of (glyphAdvance : list Z) (firstChar glyphCount fallback glyph : Z) : outcome Z :=
  if has_glyph glyph firstChar glyphCount
  then rd glyphAdvance (u32 (glyph - firstChar))
  else Done (i32 fallback).

Fixpoint MeasureTextStringAtlas_loop (text : list Z) (firstChar glyphCount : Z)
    (glyphAdvance : list Z) (fallbackAdvance lineWidth maxWidth : Z) : outcome Z :=
  match text with
  | [] => Done (if maxWidth <? lineWidth then lineWidth else maxWidth)
  | c :: text =>
    let glyph := u8 c in
    if glyph =? 10 then
      MeasureTextStringAtlas_loop text firstChar glyphCount glyphAdvance fallbackAdvance
        0 (if maxWidth <? lineWidth then lineWidth else maxWidth)
    else
      advance ← advance_of glyphAdvance firstChar glyphCount fallbackAdvance glyph;
      MeasureTextStringAtlas_loop text firstChar glyphCount glyphAdvance fallbackAdvance
        (i32 (lineWidth + advance)) maxWidth
  end.

Definition MeasureTextStringAtlas (text : option (list Z)) (firstChar glyphCount : Z)
    (glyphAdvance : option (list Z)) (fallbackAdvance : Z) : outcome Z :=
  match text, glyphAdvance with
  | Some text, Some glyphAdvance =>
    MeasureTextStringAtlas_loop text firstChar glyphCount glyphAdvance fallbackAdvance 0 0
  | _, _ => Done 0
  end.

(** One channel of the gradient at [progress1024]. *)
Definition gradient (start stop progress1024 : Z) : Z :=
  u8 (i32 (start + Z.quot (i32 ((stop - start) * i32 progress1024)) 1024)).

(** [progress1024] of a glyph whose centre is [glyphCenter] pixels in. *)
Definition gradient_progress (glyphCenter totalWidth : Z) : Z :=
  let progress1024 := if 0 <? totalWidth
                      then u32 (Z.quot (i32 (glyphCenter * 1024)) totalWidth) else 0 in
  if 1024 <? progress1024 then 1024 else progress1024.

Fixpoint gradient_loop (draw : Z -> Z -> Z -> Z -> Z -> Z -> mem -> outcome mem)
    (advance : Z -> outcome Z) (lineHeight x totalWidth : Z) (text : list Z)
    (startRed startGreen startBlue endRed endGreen endBlue cursorX y : Z)
    (m : mem) : outcome mem :=
  match text with
  | [] => Done m
  | c :: text =>
    let glyph := u8 c in
    if glyph =? 10 then
      gradient_loop draw advance lineHeight x totalWidth text
        startRed startGreen startBlue endRed endGreen endBlue x (i32 (y + i32 lineHeight)) m
    else
      glyphAdvance ← advance glyph;
      let glyphCenter := i32 (cursorX - x + Z.quot glyphAdvance 2) in
      let progress1024 := gradient_progress glyphCenter totalWidth in
      let red := gradient startRed endRed progress1024 in
      let green := gradient startGreen endGreen progress1024 in
      let blue := gradient startBlue endBlue progress1024 in
      m ← draw cursorX y glyph red green blue m;
      gradient_loop draw advance lineHeight x totalWidth text
        startRed startGreen startBlue endRed endGreen endBlue (i32 (cursorX + glyphAdvance)) y m
  end.

(** The black outline: the text drawn at every offset but the centre. *)
Definition outline_loop (outlineThickness : Z) (draw : Z -> Z -> mem -> outcome mem)
    (m : mem) : outcome mem :=
  if outlineThickness =? 0 then Done m
  else
    let t := i32 outlineThickness in
    for_range (i32 (- t)) (t + 1) 1 (fun offsetY m =>
      for_range (i32 (- t)) (t + 1) 1 (fun offsetX m =>
        if ((offsetX =? 0) && (offsetY =? 0))%bool then Done m
        else draw offsetX offsetY m) m) m.

Definition DrawGradientOutlinedTextAtlas (fb : FRAMEBUFFER_INFO) (x y : Z)
    (text : option (list Z)) (startRed startGreen startBlue endRed endGreen endBlue : Z)
    (outlineThickness firstChar glyphCount glyphWidth glyphHeight : Z)
    (glyphAlpha glyphAdvance : option (list Z)) (fallbackAdvance : Z)
    (m : mem) : outcome mem :=
  match text with
  | None => Done m
  | Some bytes =>
    totalWidth ← MeasureTextStringAtlas text firstChar glyphCount glyphAdvance fallbackAdvance;
    m ← outline_loop outlineThickness (fun offsetX offsetY =>
          DrawTextStringAtlas fb (i32 (x + offsetX)) (i32 (y + offsetY)) text 0 0 0
            firstChar glyphCount glyphWidth glyphHeight glyphAlpha glyphAdvance) m;
    gradient_loop
      (fun cursorX y glyph red green blue =>
         DrawGlyphAtlas fb cursorX y glyph red green blue
           firstChar glyphCount glyphWidth glyphHeight glyphAlpha)
      (advance_of (from_option id [] glyphAdvance) firstChar glyphCount fallbackAdvance)
      glyphHeight x totalWidth bytes
      startRed startGreen startBlue endRed endGreen endBlue x y m
  end.

Section text.
Context `{Assets}.

Definition DrawGlyph (fb : FRAMEBUFFER_INFO) (x y glyph red green blue : Z)
    (m : mem) : outcome mem :=
  if ((glyph <? FIRST_CHAR gFont) ||
      (u32 (FIRST_CHAR gFont + GLYPH_COUNT gFont) <=? glyph))%bool then Done m
  else
    let glyphIndex := u32 (glyph - FIRST_CHAR gFont) in
    for_count (GLYPH_HEIGHT gFont) (fun row m =>
      let pixelY := i32 (y + i32 row) in
      if ((pixelY <? 0) || (i32 (ScreenHeight fb) <=? pixelY))%bool then Done m
      else
        for_count (GLYPH_WIDTH gFont) (fun column m =>
          let pixelX := i32 (x + i32 column) in
          if ((pixelX <? 0) || (i32 (ScreenWidth fb) <=? pixelX))%bool then Done m
          else
            let alphaIndex := u32 (glyphIndex * GLYPH_WIDTH gFont * GLYPH_HEIGHT gFont
                                   + row * GLYPH_WIDTH gFont + column) in
            alpha ← rd (GlyphAlpha gFont) alphaIndex;
            if alpha =? 0 then Done m
            else blend_at fb pixelX pixelY red green blue alpha m) m) m.

Fixpoint DrawTextString_loop (fb : FRAMEBUFFER_INFO) (x : Z) (text : list Z)
    (cursorX y red green blue : Z) (m : mem) : outcome mem :=
  match text with
  | [] => Done m
  | c :: text =>
    let glyph := u8 c in
    if glyph =? 10 then
      DrawTextString_loop fb x text x (i32 (y + i32 (GLYPH_HEIGHT gFont))) red green blue m
    else
      m ← DrawGlyph fb cursorX y glyph red green blue m;
      cursorX ←
        (if has_glyph glyph (FIRST_CHAR gFont) (GLYPH_COUNT gFont) then
           advance ← rd (GlyphAdvance gFont) (u32 (glyph - FIRST_CHAR gFont));
           Done (i32 (cursorX + advance))
         else Done (i32 (cursorX + 8)));
      DrawTextString_loop fb x text cursorX y red green blue m
  end.

Definition DrawTextString (fb : FRAMEBUFFER_INFO) (x y : Z) (text : option (list Z))
    (red green blue : Z) (m : mem) : outcome mem :=
  match text with
  | None => Done m
  | Some text => DrawTextString_loop fb x text x y red green blue m
  end.

Definition DrawGlyphScaled (fb : FRAMEBUFFER_INFO) (x y glyph red green blue scale : Z)
    (m : mem) : outcome mem :=
  if ((scale =? 0) || (glyph <? FIRST_CHAR gFont) ||
      (u32 (FIRST_CHAR gFont + GLYPH_COUNT gFont) <=? glyph))%bool then Done m
  else
    let glyphIndex := u32 (glyph - FIRST_CHAR gFont) in
    for_count (GLYPH_HEIGHT gFont) (fun row m =>
      for_count (GLYPH_WIDTH gFont) (fun column m =>
        let alphaIndex := u32 (glyphIndex * GLYPH_WIDTH gFont * GLYPH_HEIGHT gFont
                               + row * GLYPH_WIDTH gFont + column) in
        alpha ← rd (GlyphAlpha gFont) alphaIndex;
        if alpha =? 0 then Done m
        else
          for_count scale (fun scaleY m =>
            let pixelY := i32 (y + i32 (row * scale + scaleY)) in
            if ((pixelY <? 0) || (i32 (ScreenHeight fb) <=? pixelY))%bool then Done m
            else
              for_count scale (fun scaleX m =>
                let pixelX := i32 (x + i32 (column * scale + scaleX)) in
                if ((pixelX <? 0) || (i32 (ScreenWidth fb) <=? pixelX))%bool then Done m
                else blend_at fb pixelX pixelY red green blue alpha m) m) m) m) m.

(** The advance of a character of the default font at a scale. *)
Definition scaled_advance (scale glyph : Z) : outcome Z :=
  if has_glyph glyph (FIRST_CHAR gFont) (GLYPH_COUNT gFont) then
    advance ← rd (GlyphAdvance gFont) (u32 (glyph - FIRST_CHAR gFont));
    Done (i32 (advance * scale))
  else Done (i32 (8 * scale)).

Fixpoint DrawTextStringScaled_loop (fb : FRAMEBUFFER_INFO) (x : Z) (text : list Z)
    (cursorX y red green blue scale : Z) (m : mem) : outcome mem :=
  match text with
  | [] => Done m
  | c :: text =>
    let glyph := u8 c in
    if glyph =? 10 then
      DrawTextStringScaled_loop fb x text x (i32 (y + i32 (GLYPH_HEIGHT gFont * scale)))
        red green blue scale m
    else
      m ← DrawGlyphScaled fb cursorX y glyph red green blue scale m;
      advance ← scaled_advance scale glyph;
      DrawTextStringScaled_loop fb x text (i32 (cursorX + advance)) y red green blue scale m
  end.

Definition DrawTextStringScaled (fb : FRAMEBUFFER_INFO) (x y : Z) (text : option (list Z))
    (red green blue scale : Z) (m : mem) : outcome mem :=
  match text with
  | Some text =>
    if scale =? 0 then Done m
    else DrawTextStringScaled_loop fb x text x y red green blue scale m
  | None => Done m
  end.

Fixpoint MeasureTextStringScaled_loop (text : list Z) (scale lineWidth maxWidth : Z) : outcome Z :=
  match text with
  | [] => Done (if maxWidth <? lineWidth then lineWidth else maxWidth)
  | c :: text =>
    let glyph := u8 c in
    if glyph =? 10 then
      MeasureTextStringScaled_loop text scale 0
        (if maxWidth <? lineWidth then lineWidth else maxWidth)
    else
      advance ← scaled_advance scale glyph;
      MeasureTextStringScaled_loop text scale (i32 (lineWidth + advance)) maxWidth
  end.

Definition MeasureTextStringScaled (text : option (list Z)) (scale : Z) : outcome Z :=
  match text with
  | Some text => if scale =? 0 then Done 0 else MeasureTextStringScaled_loop text scale 0 0
  | None => Done 0
  end.

Definition DrawGradientOutlinedTextScaled (fb : FRAMEBUFFER_INFO) (x y : Z)
    (text : option (list Z)) (scale startRed startGreen startBlue endRed endGreen endBlue : Z)
    (outlineThickness : Z) (m : mem) : outcome mem :=
  match text with
  | None => Done m
  | Some bytes =>
    if scale =? 0 then Done m
    else
      totalWidth ← MeasureTextStringScaled text scale;
      m ← outline_loop outlineThickness (fun offsetX offsetY =>
            DrawTextStringScaled fb (i32 (x + offsetX)) (i32 (y + offsetY)) text 0 0 0 scale) m;
      gradient_loop
        (fun cursorX y glyph red green blue =>
           DrawGlyphScaled fb cursorX y glyph red green blue scale)
        (scaled_advance scale) (GLYPH_HEIGHT gFont * scale) x totalWidth bytes
        startRed startGreen startBlue endRed endGreen endBlue x y m
  end.

Definition DrawIconGlyph (fb : FRAMEBUFFER_INFO) (x y glyph red green blue : Z)
    (m : mem) : outcome mem :=
  if ((glyph <? FIRST_CHAR gIconFont) ||
      (u32 (FIRST_CHAR gIconFont + GLYPH_COUNT gIconFont) <=? glyph))%bool then Done m
  else
    let glyphIndex := u32 (glyph - FIRST_CHAR gIconFont) in
    for_count (GLYPH_HEIGHT gIconFont) (fun row m =>
      let pixelY := i32 (y + i32 row) in
      if ((pixelY <? 0) || (i32 (ScreenHeight fb) <=? pixelY))%bool then Done m
      else
        for_count (GLYPH_WIDTH gIconFont) (fun column m =>
          let pixelX := i32 (x + i32 column) in
          if ((pixelX <? 0) || (i32 (ScreenWidth fb) <=? pixelX))%bool then Done m
          else
            let alphaIndex := u32 (glyphIndex * GLYPH_WIDTH gIconFont * GLYPH_HEIGHT gIconFont
                                   + row * GLYPH_WIDTH gIconFont + column) in
            alpha ← rd (GlyphAlpha gIconFont) alphaIndex;
            if alpha =? 0 then Done m
            else blend_at fb pixelX pixelY red green blue alpha m) m) m.

Fixpoint DrawIconTextString_loop (fb : FRAMEBUFFER_INFO) (x : Z) (text : list Z)
    (cursorX y red green blue : Z) (m : mem) : outcome mem :=
  match text with
  | [] => Done m
  | c :: text =>
    let glyph := u8 c in
    if glyph =? 10 then
      DrawIconTextString_loop fb x text x (i32 (y + i32 (GLYPH_HEIGHT gIconFont)))
        red green blue m
    else
      m ← DrawIconGlyph fb cursorX y glyph red green blue m;
      cursorX ←
        (if has_glyph glyph (FIRST_CHAR gIconFont) (GLYPH_COUNT gIconFont) then
           advance ← rd (GlyphAdvance gIconFont) (u32 (glyph - FIRST_CHAR gIconFont));
           Done (i32 (cursorX + advance))
         else Done (i32 (cursorX + 4)));
      DrawIconTextString_loop fb x text cursorX y red green blue m
  end.

Definition DrawIconTextString (fb : FRAMEBUFFER_INFO) (x y : Z) (text : option (list Z))
    (red green blue : Z) (m : mem) : outcome mem :=
  match text with
  | None => Done m
  | Some text => DrawIconTextString_loop fb x text x y red green blue m
  end.
End text.

(* ------------------------------------------------------------------ *)
(** ** Lemmas: the three glyph routines are one *)

Lemma DrawGlyph_atlas `{Assets} fb x y glyph r g b m :
  DrawGlyph fb x y glyph r g b m =
  DrawGlyphAtlas fb x y glyph r g b (FIRST_CHAR gFont) (GLYPH_COUNT gFont)
    (GLYPH_WIDTH gFont) (GLYPH_HEIGHT gFont) (Some (GlyphAlpha gFont)) m.
Proof. reflexivity. Qed.

Lemma DrawIconGlyph_atlas `{Assets} fb x y glyph r g b m :
  DrawIconGlyph fb x y glyph r g b m =
  DrawGlyphAtlas fb x y glyph r g b (FIRST_CHAR gIconFont) (GLYPH_COUNT gIconFont)
    (GLYPH_WIDTH gIconFont) (GLYPH_HEIGHT gIconFont) (Some (GlyphAlpha gIconFont)) m.
Proof. reflexivity. Qed.

(* ------------------------------------------------------------------ *)
(** ** Lemmas: one glyph *)

(** The value pixel [(px, py)] takes when a glyph is drawn at [(x, y)]. *)
Definition glyph_pixel (fb : FRAMEBUFFER_INFO) (f : FontAtlas) (x y glyph r g b : Z)
    (px py old : Z) : outcome Z :=
  alpha ← rd (GlyphAlpha f) ((glyph - FIRST_CHAR f) * GLYPH_WIDTH f * GLYPH_HEIGHT f
                             + (py - y) * GLYPH_WIDTH f + (px - x));
  if alpha =? 0 then Done old else AlphaBlendPixel fb old r g b alpha.

(** [DrawGlyphAtlas] with the macros and arrays of one font. *)
Abbreviation DrawGlyphOf f fb x y glyph r g b :=
  (DrawGlyphAtlas fb x y glyph r g b (FIRST_CHAR f) (GLYPH_COUNT f)
     (GLYPH_WIDTH f) (GLYPH_HEIGHT f) (Some (GlyphAlpha f))).

Section glyph.
Context (fb : FRAMEBUFFER_INFO) (f : FontAtlas) (x y glyph r g b : Z).
Context (Hfont : font_wf f) (Hblend : blendable fb).
Context (Hx : is_i32 x) (Hy : is_i32 y) (Hr : is_u8 r) (Hg : is_u8 g) (Hb : is_u8 b).

(** The column loop of one row. *)
Lemma glyph_columns row pixelY :
  has_glyph glyph (FIRST_CHAR f) (GLYPH_COUNT f) = true ->
  0 <= row < GLYPH_HEIGHT f -> pixelY = y + row -> 0 <= pixelY ->
  (fb_wf fb -> pixelY < ScreenHeight fb) ->
  paints fb (fun px py => py = pixelY /\ x <= px < x + GLYPH_WIDTH f /\ on_screen fb px py)
    (glyph_pixel fb f x y glyph r g b) (fun m =>
    for_count (GLYPH_WIDTH f) (fun column m =>
      let pixelX := i32 (x + i32 column) in
      if ((pixelX <? 0) || (i32 (ScreenWidth fb) <=? pixelX))%bool then Done m
      else
        let alphaIndex := u32 (u32 (glyph - FIRST_CHAR f) * GLYPH_WIDTH f * GLYPH_HEIGHT f
                               + row * GLYPH_WIDTH f + column) in
        alpha ← rd (GlyphAlpha f) alphaIndex;
        if alpha =? 0 then Done m
        else blend_at fb pixelX pixelY r g b alpha m) m).
Proof.
  intros Hglyph Hrow EpY HpY HpY2. destruct Hfont.
  unfold has_glyph in Hglyph. apply andb_prop in Hglyph as [Hg1%Z.leb_le Hg2%Z.ltb_lt].
  rewrite u32_id in Hg2 by lia.
  apply paints_columns.
  intros column Hc. cbn zeta. rewrite (i32_id column) by lia.
  intros m Hm. pose proof (ready_fb _ _ Hm) as Hfb. pose proof Hfb as [].
  specialize (HpY2 Hfb). rewrite (i32_id (ScreenWidth fb)) by lia. revert m Hm.
  destruct (_ || _)%bool eqn:Eb.
  { apply paints_none. intros px py _ (-> & -> & [Hon _]).
    rewrite orb_true_iff, Z.ltb_lt, Z.leb_le in Eb. rewrite i32_id in Eb by lia. lia. }
  apply orb_false_iff in Eb as [E1%Z.ltb_ge E2%Z.leb_gt].
  rewrite i32_add_nonneg in * by lia.
  rewrite (u32_id (glyph - _)) by lia.
  assert (0 <= (glyph - FIRST_CHAR f) * GLYPH_WIDTH f * GLYPH_HEIGHT f
    + row * GLYPH_WIDTH f + column < GLYPH_COUNT f * GLYPH_WIDTH f * GLYPH_HEIGHT f) as Hidx.
  { apply index3_bound; lia. }
  assert (GLYPH_COUNT f * GLYPH_WIDTH f * GLYPH_HEIGHT f <= 256 * 256 * 256)
    by (apply mul3_le; lia).
  rewrite u32_id by lia.
  destruct (rd_forall (fun a => is_u8 a) (GlyphAlpha f) ((glyph - FIRST_CHAR f) * GLYPH_WIDTH f * GLYPH_HEIGHT f
    + row * GLYPH_WIDTH f + column)) as (alpha & Ealpha & Ha); [done|lia|].
  assert (forall old, glyph_pixel fb f x y glyph r g b (x + column) pixelY old =
    if alpha =? 0 then Done old else AlphaBlendPixel fb old r g b alpha) as Hf.
  { intros old. unfold glyph_pixel.
    replace (_ + (pixelY - y) * _ + (x + column - x)) with ((glyph - FIRST_CHAR f) * GLYPH_WIDTH f * GLYPH_HEIGHT f
      + row * GLYPH_WIDTH f + column) by lia. by rewrite Ealpha. }
  rewrite Ealpha. mred. 
  assert (in_buffer fb (x + column) pixelY) by (split; lia).
  eapply paints_iff with (R := fun px py => px = x + column /\ py = pixelY).
  { intros px py _. split; [|tauto]. intros [-> ->]. split_and!; [done..|]. split; lia. }
  destruct (alpha =? 0) eqn:E0.
  + intros m Hm. exists m. split_and!; [done..|]. intros px py old _ [-> ->] Hold.
    exists old. by rewrite Hf.
  + unfold blend_at. cbn zeta. rewrite (u32_id pixelY), (u32_id (x + column)) by lia.
    apply paints_update; [done|].
    intros old Hold. rewrite Hf.
    destruct (AlphaBlendPixel_total fb old r g b alpha) as (v & Ev & Hv); [done..|].
    exists v. done.
Qed.

Lemma DrawGlyphAtlas_paints :
  paints fb (fun px py => has_glyph glyph (FIRST_CHAR f) (GLYPH_COUNT f) = true /\
      rect x y (GLYPH_WIDTH f) (GLYPH_HEIGHT f) px py /\ on_screen fb px py)
    (glyph_pixel fb f x y glyph r g b) (DrawGlyphOf f fb x y glyph r g b).
Proof.
  unfold DrawGlyphAtlas.
  assert (((glyph <? FIRST_CHAR f) || (u32 (FIRST_CHAR f + GLYPH_COUNT f) <=? glyph))%bool =
    negb (has_glyph glyph (FIRST_CHAR f) (GLYPH_COUNT f))) as ->.
  { unfold has_glyph. destruct (Z.ltb_spec glyph (FIRST_CHAR f)), (Z.leb_spec (FIRST_CHAR f) glyph),
      (Z.ltb_spec glyph (u32 (FIRST_CHAR f + GLYPH_COUNT f))),
      (Z.leb_spec (u32 (FIRST_CHAR f + GLYPH_COUNT f)) glyph); try done; lia. }
  destruct (has_glyph _ _ _) eqn:Eg; cbn [negb].
  2: { apply paints_none. intros px py _ [? _]. done. }
  cbn zeta.
  eapply paints_iff; [|apply (paints_rows _ _ (on_screen fb) x y (GLYPH_WIDTH f))]; [intros px py _; split; [intros []|intros (_ & ? & ?)]; by split_and!|].
  intros row Hrow. rewrite (i32_id row) by (destruct Hfont; lia).
  intros m Hm. pose proof (ready_fb _ _ Hm) as Hfb. pose proof Hfb as [].
  rewrite (i32_id (ScreenHeight fb)) by lia. revert m Hm.
  destruct ((_ <? 0) || _)%bool eqn:Eb.
  { apply paints_none. intros px py _ (-> & _ & [_ Hon]).
    rewrite orb_true_iff, Z.ltb_lt, Z.leb_le in Eb. rewrite i32_id in Eb by lia. lia. }
  apply orb_false_iff in Eb as [E1%Z.ltb_ge E2%Z.leb_gt].
  assert (0 <= row < 256) by (destruct Hfont; lia).
  rewrite i32_add_nonneg in * by lia.
  by apply glyph_columns.
Qed.
End glyph.

Lemma DrawGlyphAtlas_draws fb f x y glyph r g b :
  font_wf f -> blendable fb -> is_i32 x -> is_i32 y -> is_u8 r -> is_u8 g -> is_u8 b ->
  draws fb (on_screen fb) (DrawGlyphOf f fb x y glyph r g b).
Proof.
  intros. eapply draws_weaken; [|by eapply paints_draws, DrawGlyphAtlas_paints].
  intros px py _ (_ & _ & ?). done.
Qed.

(* ------------------------------------------------------------------ *)
(** ** Lemmas: advances and widths *)

Lemma has_glyph_index f glyph : font_wf f -> has_glyph glyph (FIRST_CHAR f) (GLYPH_COUNT f) = true ->
  u32 (glyph - FIRST_CHAR f) = glyph - FIRST_CHAR f /\ 0 <= glyph - FIRST_CHAR f < GLYPH_COUNT f.
Proof.
  intros [] [H1%Z.leb_le H2%Z.ltb_lt]%andb_prop. rewrite u32_id in H2 by lia.
  rewrite u32_id; lia.
Qed.

Lemma advance_of_total f fallback glyph : font_wf f ->
  exists a, advance_of (GlyphAdvance f) (FIRST_CHAR f) (GLYPH_COUNT f) fallback glyph = Done a /\
    is_i32 a /\ (0 <= fallback < 2147483648 -> 0 <= a <= Z.max 255 fallback).
Proof.
  intros Hf. unfold advance_of. destruct (has_glyph _ _ _) eqn:Eg.
  - destruct (has_glyph_index f glyph Hf Eg) as [-> Hi]. destruct Hf.
    destruct (rd_forall (fun a => is_u8 a) (GlyphAdvance f) (glyph - FIRST_CHAR f))
      as (a & -> & Ha); [done|lia|].
    exists a. split; [done|]. lia.
  - exists (i32 fallback). split; [done|]. split; [apply i32_range|].
    intros. rewrite i32_id by lia. lia.
Qed.

(** The pen's travel over each line of a text. *)
Fixpoint line_widths (adv : Z -> Z) (text : list Z) (w : Z) : list Z :=
  match text with
  | [] => [w]
  | c :: text => if u8 c =? 10 then w :: line_widths adv text 0
                 else line_widths adv text (w + adv (u8 c))
  end.

Definition widest (l : list Z) (start : Z) : Z := foldl Z.max start l.

Lemma MeasureTextStringAtlas_loop_spec f fallback text w mx adv :
  font_wf f -> 0 <= fallback < 2147483648 ->
  (forall glyph, advance_of (GlyphAdvance f) (FIRST_CHAR f) (GLYPH_COUNT f) fallback glyph
                 = Done (adv glyph)) ->
  0 <= w -> w + Z.of_nat (length text) * Z.max 255 fallback < 2147483648 ->
  MeasureTextStringAtlas_loop text (FIRST_CHAR f) (GLYPH_COUNT f) (GlyphAdvance f) fallback w mx
  = Done (widest (line_widths adv text w) mx).
Proof.
  intros Hf Hfb Hadv. revert w mx.
  assert (forall a b, (if a <? b then b else a) = Z.max a b) as Hmax
    by (intros a b; destruct (Z.ltb_spec a b); lia).
  induction text as [|c text IH]; intros w mx Hw Hlen;
    cbn [MeasureTextStringAtlas_loop line_widths].
  - by rewrite Hmax.
  - destruct (u8 c =? 10).
    + rewrite Hmax. rewrite IH by (cbn [length] in Hlen; lia). done.
    + rewrite Hadv. mred.
      destruct (advance_of_total f fallback (u8 c) Hf) as (a & Ea & _ & Ha).
      rewrite Hadv in Ea. injection Ea as Ea. specialize (Ha Hfb).
      cbn [length] in Hlen. rewrite i32_id by lia. apply IH; lia.
Qed.

Lemma MeasureTextStringAtlas_total f fallback text : font_wf f ->
  exists w, MeasureTextStringAtlas (Some text) (FIRST_CHAR f) (GLYPH_COUNT f)
    (Some (GlyphAdvance f)) fallback = Done w /\ is_i32 w.
Proof.
  intros Hf. cbn [MeasureTextStringAtlas].
  assert (forall w mx, is_i32 w -> is_i32 mx -> exists v,
    MeasureTextStringAtlas_loop text (FIRST_CHAR f) (GLYPH_COUNT f) (GlyphAdvance f) fallback w mx
    = Done v /\ is_i32 v) as H; [|by apply H].
  induction text as [|c text IH]; intros w mx Hw Hmx; cbn [MeasureTextStringAtlas_loop].
  - destruct (mx <? w); eauto.
  - destruct (_ =? 10); [destruct (mx <? w); by apply IH|].
    destruct (advance_of_total f fallback (u8 c) Hf) as (a & -> & Ha & _). mred.
    apply IH; [apply i32_range|done].
Qed.

Lemma scaled_advance_total `{Assets} scale glyph : font_wf gFont ->
  exists a, scaled_advance scale glyph = Done a /\ is_i32 a.
Proof.
  intros Hf. unfold scaled_advance. destruct (has_glyph _ _ _) eqn:Eg.
  - destruct (has_glyph_index gFont glyph Hf Eg) as [-> Hi]. destruct Hf.
    destruct (rd_forall (fun a => is_u8 a) (GlyphAdvance gFont) (glyph - FIRST_CHAR gFont))
      as (a & -> & Ha); [done|lia|].
    mred. eexists. split; [done|apply i32_range].
  - eexists. split; [done|apply i32_range].
Qed.

Lemma MeasureTextStringScaled_total `{Assets} text scale : font_wf gFont ->
  exists w, MeasureTextStringScaled (Some text) scale = Done w /\ is_i32 w.
Proof.
  intros Hf. cbn [MeasureTextStringScaled]. destruct (_ =? 0); [by exists 0|].
  assert (forall w mx, is_i32 w -> is_i32 mx -> exists v,
    MeasureTextStringScaled_loop text scale w mx = Done v /\ is_i32 v) as H'; [|by apply H'].
  induction text as [|c text IH]; intros w mx Hw Hmx; cbn [MeasureTextStringScaled_loop].
  - destruct (mx <? w); eauto.
  - destruct (_ =? 10); [destruct (mx <? w); by apply IH|].
    destruct (scaled_advance_total scale (u8 c) Hf) as (a & -> & Ha). mred.
    apply IH; [apply i32_range|done].
Qed.

(* ------------------------------------------------------------------ *)
(** ** Lemmas: strings *)

Lemma i32_is_i32 z : is_i32 (i32 z).
Proof. apply i32_range. Qed.
#[export] Hint Resolve i32_is_i32 u8_range u32_range : ranges.

(** The walk every string routine makes: draw, advance, break lines. *)
Fixpoint text_walk (draw : Z -> Z -> Z -> mem -> outcome mem) (adv : Z -> outcome Z)
    (lineHeight x : Z) (text : list Z) (cursorX y : Z) (m : mem) : outcome mem :=
  match text with
  | [] => Done m
  | c :: text =>
    let glyph := u8 c in
    if glyph =? 10 then text_walk draw adv lineHeight x text x (i32 (y + i32 lineHeight)) m
    else
      m ← draw cursorX y glyph m;
      a ← adv glyph;
      text_walk draw adv lineHeight x text (i32 (cursorX + a)) y m
  end.

Lemma DrawTextStringAtlas_walk fb x text cursorX y r g b first count w h alpha adv m :
  DrawTextStringAtlas_loop fb x text cursorX y r g b first count w h alpha adv m =
  text_walk (fun cx cy c => DrawGlyphAtlas fb cx cy c r g b first count w h alpha)
    (advance_of adv first count (w / 2)) h x text cursorX y m.
Proof.
  revert cursorX y m. induction text as [|c text IH]; intros cursorX y m; [done|].
  cbn [DrawTextStringAtlas_loop text_walk]. destruct (_ =? 10); [apply IH|].
  apply bind_ext. intros m'. unfold advance_of.
  destruct (has_glyph _ _ _); mred; [rewrite bind_assoc; apply bind_ext; intros a; mred|]; apply IH.
Qed.

Lemma DrawTextString_walk `{Assets} fb x text cursorX y r g b m :
  DrawTextString_loop fb x text cursorX y r g b m =
  text_walk (fun cx cy c => DrawGlyphOf gFont fb cx cy c r g b)
    (advance_of (GlyphAdvance gFont) (FIRST_CHAR gFont) (GLYPH_COUNT gFont) 8)
    (GLYPH_HEIGHT gFont) x text cursorX y m.
Proof.
  revert cursorX y m. induction text as [|c text IH]; intros cursorX y m; [done|].
  cbn [DrawTextString_loop text_walk]. destruct (_ =? 10); [apply IH|].
  apply bind_ext. intros m'. unfold advance_of.
  destruct (has_glyph _ _ _); mred; [rewrite bind_assoc; apply bind_ext; intros a; mred|]; apply IH.
Qed.

Lemma DrawIconTextString_walk `{Assets} fb x text cursorX y r g b m :
  DrawIconTextString_loop fb x text cursorX y r g b m =
  text_walk (fun cx cy c => DrawGlyphOf gIconFont fb cx cy c r g b)
    (advance_of (GlyphAdvance gIconFont) (FIRST_CHAR gIconFont) (GLYPH_COUNT gIconFont) 4)
    (GLYPH_HEIGHT gIconFont) x text cursorX y m.
Proof.
  revert cursorX y m. induction text as [|c text IH]; intros cursorX y m; [done|].
  cbn [DrawIconTextString_loop text_walk]. destruct (_ =? 10); [apply IH|].
  apply bind_ext. intros m'. unfold advance_of.
  destruct (has_glyph _ _ _); mred; [rewrite bind_assoc; apply bind_ext; intros a; mred|]; apply IH.
Qed.

Lemma DrawTextStringScaled_walk `{Assets} fb x text cursorX y r g b scale m :
  DrawTextStringScaled_loop fb x text cursorX y r g b scale m =
  text_walk (fun cx cy c => DrawGlyphScaled fb cx cy c r g b scale)
    (scaled_advance scale) (GLYPH_HEIGHT gFont * scale) x text cursorX y m.
Proof.
  revert cursorX y m. induction text as [|c text IH]; intros cursorX y m; [done|].
  cbn [DrawTextStringScaled_loop text_walk]. destruct (_ =? 10); [apply IH|].
  by repeat (apply bind_ext; intros ?).
Qed.

(** A walk over a text, for any judgement on drawing code: [P] is what the
    walk knows of the pen and of the text still to draw. *)
Lemma text_walk_drawing J `{!Drawing J} draw adv h x (P : list Z -> Z -> Z -> Prop) text cursorX y :
  (forall c text cx cy, P (c :: text) cx cy ->
    if u8 c =? 10 then P text x (i32 (cy + i32 h))
    else J (draw cx cy (u8 c)) /\ exists a, adv (u8 c) = Done a /\ P text (i32 (cx + a)) cy) ->
  P text cursorX y -> J (text_walk draw adv h x text cursorX y).
Proof.
  intros Hstep. revert cursorX y.
  induction text as [|c text IH]; intros cursorX y HP; cbn [text_walk]; [apply drawing_ret|].
  specialize (Hstep c text cursorX y HP). destruct (u8 c =? 10); [by apply IH|].
  destruct Hstep as (Hdraw & a & -> & HP'). apply drawing_seq; [done|]. mred. by apply IH.
Qed.

(** A walk whose glyphs stay on the screen stays on the screen. *)
Lemma text_walk_anywhere J `{!Drawing J} draw adv h x text cursorX y :
  (forall cx cy c, is_i32 cx -> is_i32 cy -> J (draw cx cy c)) ->
  (forall c, exists a, adv c = Done a) ->
  is_i32 x -> is_i32 cursorX -> is_i32 y -> J (text_walk draw adv h x text cursorX y).
Proof.
  intros Hdraw Hadv Hx Hc Hy.
  apply (text_walk_drawing J _ _ _ _ (fun _ cx cy => is_i32 cx /\ is_i32 cy)); [|done].
  clear dependent cursorX y. intros c t cx cy [Hcx Hcy]. destruct (_ =? 10); [auto with ranges|].
  split; [by apply Hdraw|]. destruct (Hadv (u8 c)) as [a ->]. exists a. auto with ranges.
Qed.

Lemma advance_of_done f fallback : font_wf f -> forall c, exists a,
  advance_of (GlyphAdvance f) (FIRST_CHAR f) (GLYPH_COUNT f) fallback c = Done a.
Proof. intros Hf c. destruct (advance_of_total f fallback c Hf) as (a & ? & _). eauto. Qed.

Section strings.
Context (fb : FRAMEBUFFER_INFO) (x y r g b : Z).
Context (Hblend : blendable fb) (Hx : is_i32 x) (Hy : is_i32 y).
Context (Hr : is_u8 r) (Hg : is_u8 g) (Hb : is_u8 b).

Lemma DrawTextStringAtlas_draws f text : font_wf f ->
  draws fb (on_screen fb)
    (DrawTextStringAtlas fb x y text r g b (FIRST_CHAR f) (GLYPH_COUNT f)
       (GLYPH_WIDTH f) (GLYPH_HEIGHT f) (Some (GlyphAlpha f)) (Some (GlyphAdvance f))).
Proof.
  intros Hf. destruct text as [text|]; [|apply draws_ret].
  eapply drawing_ext; [intros m; apply DrawTextStringAtlas_walk|].
  apply (text_walk_anywhere (draws fb (on_screen fb))); try done; [|by apply advance_of_done].
  intros. by apply DrawGlyphAtlas_draws.
Qed.

Lemma DrawTextString_draws `{A : Assets, !AssetsWf A} text :
  draws fb (on_screen fb) (DrawTextString fb x y text r g b).
Proof.
  destruct text as [text|]; [|apply draws_ret].
  eapply drawing_ext; [intros m; apply DrawTextString_walk|].
  apply (text_walk_anywhere (draws fb (on_screen fb))); try done; [|apply advance_of_done; auto with assets].
  intros. apply DrawGlyphAtlas_draws; auto with assets.
Qed.

Lemma DrawIconTextString_draws `{A : Assets, !AssetsWf A} text :
  draws fb (on_screen fb) (DrawIconTextString fb x y text r g b).
Proof.
  destruct text as [text|]; [|apply draws_ret].
  eapply drawing_ext; [intros m; apply DrawIconTextString_walk|].
  apply (text_walk_anywhere (draws fb (on_screen fb))); try done; [|apply advance_of_done; auto with assets].
  intros. apply DrawGlyphAtlas_draws; auto with assets.
Qed.
End strings.

(* ------------------------------------------------------------------ *)
(** ** Lemmas: outlined gradient titles *)

Lemma gradient_loop_drawing J `{!Drawing J} draw adv h x totalWidth text sr sg sb er eg eb cursorX y :
  (forall cx cy c r g b, is_i32 cx -> is_i32 cy -> is_u8 r -> is_u8 g -> is_u8 b ->
    J (draw cx cy c r g b)) ->
  (forall c, exists a, adv c = Done a) ->
  is_i32 x -> is_i32 cursorX -> is_i32 y ->
  J (gradient_loop draw adv h x totalWidth text sr sg sb er eg eb cursorX y).
Proof.
  intros Hdraw Hadv Hx. revert cursorX y.
  induction text as [|c text IH]; intros cursorX y Hc Hy; cbn [gradient_loop]; [apply drawing_ret|].
  destruct (_ =? 10); [by apply IH; auto with ranges|].
  destruct (Hadv (u8 c)) as [a ->]. mred.
  apply drawing_seq; [apply Hdraw; try done; apply u8_range|]. apply IH; auto with ranges.
Qed.

Lemma outline_loop_drawing J `{!Drawing J} t draw :
  (forall ox oy, J (draw ox oy)) -> J (outline_loop t draw).
Proof.
  intros Hdraw. unfold outline_loop. destruct (_ =? 0); [apply drawing_ret|].
  apply (drawing_loop J). intros oy. apply (drawing_loop J). intros ox.
  destruct (_ && _)%bool; [apply drawing_ret|apply Hdraw].
Qed.

Lemma DrawGradientOutlinedTextAtlas_draws fb f x y text sr sg sb er eg eb t fallback :
  font_wf f -> blendable fb -> is_i32 x -> is_i32 y ->
  draws fb (on_screen fb)
    (DrawGradientOutlinedTextAtlas fb x y text sr sg sb er eg eb t (FIRST_CHAR f) (GLYPH_COUNT f)
       (GLYPH_WIDTH f) (GLYPH_HEIGHT f) (Some (GlyphAlpha f)) (Some (GlyphAdvance f)) fallback).
Proof.
  intros Hf Hblend Hx Hy. destruct text as [text|]; [|apply draws_ret].
  unfold DrawGradientOutlinedTextAtlas.
  destruct (MeasureTextStringAtlas_total f fallback text Hf) as (w & -> & _). mred.
  apply draws_seq.
  - apply (outline_loop_drawing (draws fb (on_screen fb))). intros ox oy.
    apply DrawTextStringAtlas_draws; auto with ranges; lia.
  - apply (gradient_loop_drawing (draws fb (on_screen fb))); try done; [|by apply advance_of_done].
    intros. by apply DrawGlyphAtlas_draws.
Qed.

(* ------------------------------------------------------------------ *)
(** ** Lemmas: text is drawn pixel by pixel *)

Definition single_line (text : list Z) : Prop := Forall (fun c => u8 c <> 10) text.

(** What the pen moves for one character, and for a line of them. *)
Definition adv_value (f : FontAtlas) (fallback glyph : Z) : Z :=
  match advance_of (GlyphAdvance f) (FIRST_CHAR f) (GLYPH_COUNT f) fallback glyph with
  | Done a => a
  | _ => 0
  end.

Definition text_width (f : FontAtlas) (fallback : Z) (text : list Z) : Z :=
  foldr (fun c w => adv_value f fallback (u8 c) + w) 0 text.

Section tints.
Context (fb : FRAMEBUFFER_INFO) (f : FontAtlas) (Hfont : font_wf f) (Hblend : blendable fb).

Lemma adv_value_done fallback glyph : 0 <= fallback < 2147483648 ->
  advance_of (GlyphAdvance f) (FIRST_CHAR f) (GLYPH_COUNT f) fallback glyph =
    Done (adv_value f fallback glyph) /\
  0 <= adv_value f fallback glyph <= Z.max 255 fallback.
Proof.
  intros Hfb. destruct (advance_of_total f fallback glyph Hfont) as (a & E & _ & Ha).
  unfold adv_value. rewrite E. split; [done|]. by apply Ha.
Qed.

Lemma text_width_nonneg fallback text : 0 <= fallback < 2147483648 -> 0 <= text_width f fallback text.
Proof.
  intros Hfb. induction text as [|c text IH]; [done|].
  pose proof (adv_value_done fallback (u8 c) Hfb) as [_ ?]. cbn [text_width foldr].
  unfold text_width in IH. lia.
Qed.

(** The measured width of one line is the sum of its advances. *)
Lemma MeasureTextStringAtlas_line fallback text : 0 <= fallback < 2147483648 ->
  single_line text -> text_width f fallback text < 2147483648 ->
  MeasureTextStringAtlas (Some text) (FIRST_CHAR f) (GLYPH_COUNT f) (Some (GlyphAdvance f)) fallback =
  Done (text_width f fallback text).
Proof.
  intros Hfb Hl. cbn [MeasureTextStringAtlas].
  enough (forall w, 0 <= w -> w + text_width f fallback text < 2147483648 ->
    MeasureTextStringAtlas_loop text (FIRST_CHAR f) (GLYPH_COUNT f) (GlyphAdvance f) fallback w 0 =
    Done (w + text_width f fallback text)) as H by (intros; by apply H).
  induction Hl as [|c text Hc Hl IH]; intros w Hw Hs; cbn [MeasureTextStringAtlas_loop].
  - cbn [text_width foldr]. destruct (Z.ltb_spec 0 w); f_equal; lia.
  - destruct (Z.eqb_spec (u8 c) 10); [done|].
    destruct (adv_value_done fallback (u8 c) Hfb) as [-> Ha]. mred.
    pose proof (text_width_nonneg fallback text Hfb) as H0.
    change (text_width f fallback (c :: text)) with
      (adv_value f fallback (u8 c) + text_width f fallback text) in *.
    rewrite i32_id by lia. rewrite IH by lia. f_equal. lia.
Qed.

Context (r g b : Z) (Hr : is_u8 r) (Hg : is_u8 g) (Hb : is_u8 b).

Lemma DrawGlyphAtlas_tints x y glyph : is_i32 x -> is_i32 y ->
  tints fb (fun px py => rect x y (GLYPH_WIDTH f) (GLYPH_HEIGHT f) px py /\ on_screen fb px py)
    (DrawGlyphOf f fb x y glyph r g b).
Proof.
  intros Hx Hy. eapply tints_weaken;
    [|by eapply paints_tints, DrawGlyphAtlas_paints; [apply _|..]].
  intros px py _ (_ & ? & ?). done.
Qed.

(** A single line colours pixels of its box only. *)
Lemma DrawTextStringAtlas_line x y text : is_i32 x -> is_i32 y -> single_line text ->
  x + text_width f (GLYPH_WIDTH f / 2) text < 2147483648 ->
  tints fb (fun px py =>
      rect x y (text_width f (GLYPH_WIDTH f / 2) text + GLYPH_WIDTH f) (GLYPH_HEIGHT f) px py /\
      on_screen fb px py)
    (DrawTextStringAtlas fb x y (Some text) r g b (FIRST_CHAR f) (GLYPH_COUNT f)
       (GLYPH_WIDTH f) (GLYPH_HEIGHT f) (Some (GlyphAlpha f)) (Some (GlyphAdvance f))).
Proof.
  intros Hx Hy Hl Hw. set (J := tints fb _). eapply drawing_ext; [intros m; apply DrawTextStringAtlas_walk|].
  assert (0 <= GLYPH_WIDTH f / 2 < 2147483648) as Hfb by (destruct Hfont; dlia).
  apply (text_walk_drawing J _ _ _ _ (fun rest cx cy => cy = y /\ single_line rest /\ x <= cx /\
    cx + text_width f (GLYPH_WIDTH f / 2) rest <= x + text_width f (GLYPH_WIDTH f / 2) text));
    [|split_and!; [done|done|lia|lia]].
  intros c rest cx cy (-> & Hrest & Hcx & Hcw). apply Forall_cons in Hrest as [Hc Hrest].
  destruct (Z.eqb_spec (u8 c) 10); [done|].
  destruct (adv_value_done _ (u8 c) Hfb) as [Ea Ha].
  pose proof (text_width_nonneg _ rest Hfb).
  change (text_width f (GLYPH_WIDTH f / 2) (c :: rest)) with
    (adv_value f (GLYPH_WIDTH f / 2) (u8 c) + text_width f (GLYPH_WIDTH f / 2) rest) in Hcw.
  split.
  - eapply tints_weaken; [|apply DrawGlyphAtlas_tints; [lia|done]].
    intros px py _ [Hrect ?]. split; [|done]. unfold rect in *. lia.
  - eexists. split; [exact Ea|]. rewrite i32_id by lia. split_and!; [done|done|lia|lia].
Qed.

Lemma DrawTextStringAtlas_tints x y text : is_i32 x -> is_i32 y ->
  tints fb (on_screen fb)
    (DrawTextStringAtlas fb x y text r g b (FIRST_CHAR f) (GLYPH_COUNT f)
       (GLYPH_WIDTH f) (GLYPH_HEIGHT f) (Some (GlyphAlpha f)) (Some (GlyphAdvance f))).
Proof.
  intros Hx Hy. destruct text as [text|]; [|apply drawing_ret].
  eapply drawing_ext; [intros m; apply DrawTextStringAtlas_walk|].
  apply (text_walk_anywhere (tints fb (on_screen fb))); try done; [|by apply advance_of_done].
  intros. eapply tints_weaken; [|by apply DrawGlyphAtlas_tints]. by intros ? ? _ [_ ?].
Qed.
End tints.

(** A line of the default font touches no row above its own. *)
Lemma DrawTextString_below `{A : Assets, !AssetsWf A} fb x y text r g b :
  blendable fb -> is_u8 r -> is_u8 g -> is_u8 b -> is_i32 x -> is_i32 y -> single_line text ->
  tints fb (fun px py => y <= py /\ on_screen fb px py) (DrawTextString fb x y (Some text) r g b).
Proof.
  intros Hblend Hr Hg Hb Hx Hy Hl. set (J := tints fb _).
  eapply drawing_ext; [intros m; apply DrawTextString_walk|].
  apply (text_walk_drawing J _ _ _ _ (fun rest cx cy => cy = y /\ single_line rest /\ is_i32 cx));
    [|done].
  intros c rest cx cy (-> & Hrest & Hcx). apply Forall_cons in Hrest as [Hc Hrest].
  destruct (Z.eqb_spec (u8 c) 10); [done|]. split.
  - eapply tints_weaken; [|apply DrawGlyphAtlas_tints; auto with assets].
    intros px py _ [[_ ?] ?]. split; [lia|done].
  - destruct (advance_of_done gFont 8 gFont_wf (u8 c)) as [a ->]. exists a. auto with ranges.
Qed.

Lemma DrawGradientOutlinedTextAtlas_tints fb f x y text sr sg sb er eg eb t fallback :
  font_wf f -> blendable fb -> is_i32 x -> is_i32 y ->
  tints fb (on_screen fb)
    (DrawGradientOutlinedTextAtlas fb x y text sr sg sb er eg eb t (FIRST_CHAR f) (GLYPH_COUNT f)
       (GLYPH_WIDTH f) (GLYPH_HEIGHT f) (Some (GlyphAlpha f)) (Some (GlyphAdvance f)) fallback).
Proof.
  intros Hf Hblend Hx Hy. destruct text as [text|]; [|apply drawing_ret].
  unfold DrawGradientOutlinedTextAtlas.
  destruct (MeasureTextStringAtlas_total f fallback text Hf) as (w & -> & _). mred.
  apply (drawing_seq (J := tints fb (on_screen fb))).
  - apply (outline_loop_drawing (tints fb (on_screen fb))). intros ox oy.
    apply DrawTextStringAtlas_tints; auto with ranges; lia.
  - apply (gradient_loop_drawing (tints fb (on_screen fb))); try done; [|by apply advance_of_done].
    intros. eapply tints_weaken; [|by apply DrawGlyphAtlas_tints]. by intros ? ? _ [_ ?].
Qed.

(* ------------------------------------------------------------------ *)
(** ** Lemmas: scaled glyphs *)

Lemma blend_at_draws fb R px py r g b a :
  blendable fb -> is_u8 r -> is_u8 g -> is_u8 b ->
  0 <= px < 2147483648 -> 0 <= py < 2147483648 ->
  (fb_wf fb -> on_screen fb px py) -> R px py ->
  draws fb R (blend_at fb px py r g b a).
Proof.
  intros Hblend Hr Hg Hb Hpx Hpy Hon HR. unfold blend_at. cbn zeta.
  rewrite (u32_id py), (u32_id px) by lia.
  assert (fb_wf fb -> in_buffer fb px py) by (intros; by apply on_screen_in_buffer; auto).
  apply draws_load; [done|]. intros v Hv.
  destruct (AlphaBlendPixel_total fb v r g b a) as (w & -> & _); [done..|].
  mred. by apply draws_store.
Qed.

(** The alpha a glyph array holds is a byte, wherever a glyph loop reads. *)
Lemma glyph_alpha_read f glyph row column : font_wf f ->
  has_glyph glyph (FIRST_CHAR f) (GLYPH_COUNT f) = true ->
  0 <= row < GLYPH_HEIGHT f -> 0 <= column < GLYPH_WIDTH f ->
  exists alpha,
    rd (GlyphAlpha f) (u32 (u32 (glyph - FIRST_CHAR f) * GLYPH_WIDTH f * GLYPH_HEIGHT f
                            + row * GLYPH_WIDTH f + column)) = Done alpha /\
    rd (GlyphAlpha f) ((glyph - FIRST_CHAR f) * GLYPH_WIDTH f * GLYPH_HEIGHT f
                            + row * GLYPH_WIDTH f + column) = Done alpha /\ is_u8 alpha.
Proof.
  intros Hf Hg Hrow Hcol. destruct (has_glyph_index f glyph Hf Hg) as [-> Hi]. destruct Hf.
  pose proof (index3_bound (glyph - FIRST_CHAR f) row column (GLYPH_COUNT f) (GLYPH_WIDTH f)
    (GLYPH_HEIGHT f) Hi Hrow Hcol).
  assert (GLYPH_COUNT f * GLYPH_WIDTH f * GLYPH_HEIGHT f <= 256 * 256 * 256) by (apply mul3_le; lia).
  rewrite u32_id by lia.
  destruct (rd_forall (fun a => is_u8 a) (GlyphAlpha f) ((glyph - FIRST_CHAR f) * GLYPH_WIDTH f
    * GLYPH_HEIGHT f + row * GLYPH_WIDTH f + column)) as (a & -> & Ha); [done|lia|].
  by exists a.
Qed.

(** A coordinate the code accepted is on the screen. *)
Lemma accepted_coordinate c limit : is_i32 c ->
  ((c <? 0) || (i32 limit <=? c))%bool = false -> 0 <= limit < 2147483648 -> 0 <= c < limit.
Proof.
  intros Hc [E1%Z.ltb_ge E2%Z.leb_gt]%orb_false_iff Hl. rewrite i32_id in E2 by lia. lia.
Qed.

(** The value pixel [(px, py)] takes when a glyph is drawn at a scale:
    the glyph's alpha at the pixel the scaled-down offset falls in. *)
Definition scaled_pixel (fb : FRAMEBUFFER_INFO) (f : FontAtlas) (x y glyph r g b scale : Z)
    (px py old : Z) : outcome Z :=
  alpha ← rd (GlyphAlpha f) ((glyph - FIRST_CHAR f) * GLYPH_WIDTH f * GLYPH_HEIGHT f
            + (py - y) / scale * GLYPH_WIDTH f + (px - x) / scale);
  if alpha =? 0 then Done old else AlphaBlendPixel fb old r g b alpha.

Section scaled.
Context `{A : Assets, !AssetsWf A} (fb : FRAMEBUFFER_INFO) (x y glyph r g b scale : Z).
Context (Hblend : blendable fb) (Hr : is_u8 r) (Hg : is_u8 g) (Hb : is_u8 b).
Context (Hx : is_i32 x) (Hy : is_i32 y) (Hscale : 0 < scale < 8388608).

(** The block of pixels one glyph pixel becomes. *)
Lemma scaled_block row column alpha :
  0 <= row < GLYPH_HEIGHT gFont -> 0 <= column < GLYPH_WIDTH gFont -> alpha <> 0 ->
  rd (GlyphAlpha gFont) ((glyph - FIRST_CHAR gFont) * GLYPH_WIDTH gFont * GLYPH_HEIGHT gFont
    + row * GLYPH_WIDTH gFont + column) = Done alpha ->
  paints fb (fun px py => rect (x + column * scale) (y + row * scale) scale scale px py /\
                          on_screen fb px py)
    (scaled_pixel fb gFont x y glyph r g b scale) (fun m =>
    for_count scale (fun scaleY m =>
      let pixelY := i32 (y + i32 (row * scale + scaleY)) in
      if ((pixelY <? 0) || (i32 (ScreenHeight fb) <=? pixelY))%bool then Done m
      else
        for_count scale (fun scaleX m =>
          let pixelX := i32 (x + i32 (column * scale + scaleX)) in
          if ((pixelX <? 0) || (i32 (ScreenWidth fb) <=? pixelX))%bool then Done m
          else blend_at fb pixelX pixelY r g b alpha m) m) m).
Proof.
  intros Hrow Hcol Ha Halpha. pose proof gFont_wf as [].
  assert (0 <= row * scale <= 255 * 8388607) by (split; nia).
  assert (0 <= column * scale <= 255 * 8388607) by (split; nia).
  apply paints_rows.
  intros sy Hsy m Hm. pose proof (ready_fb _ _ Hm) as Hfb. revert m Hm. cbn zeta.
  rewrite (i32_id (row * scale + sy)) by lia.
  destruct (_ || _)%bool eqn:EY.
  { apply paints_none. intros px py _ (-> & _ & [_ Hon]). pose proof (wf_height _ Hfb).
    rewrite orb_true_iff, Z.ltb_lt, Z.leb_le in EY. rewrite !i32_id in EY by lia. lia. }
  pose proof (accepted_coordinate _ _ (i32_range _) EY (wf_height _ Hfb)) as HY.
  rewrite i32_add_nonneg in * by lia.
  apply paints_columns.
  intros sx Hsx. cbn zeta. rewrite (i32_id (column * scale + sx)) by lia.
  destruct ((i32 (x + _) <? 0) || _)%bool eqn:EX.
  { apply paints_none. intros px py _ (-> & _ & [Hon _]). pose proof (wf_width _ Hfb).
    pose proof (wf_width_int _ Hfb).
    rewrite orb_true_iff, Z.ltb_lt, Z.leb_le in EX. rewrite !i32_id in EX by lia. lia. }
  pose proof (accepted_coordinate _ _ (i32_range _) EX) as HX.
  pose proof (wf_width _ Hfb). pose proof (wf_width_int _ Hfb). specialize (HX ltac:(lia)).
  rewrite i32_add_nonneg in * by lia.
  unfold blend_at. cbn zeta.
  rewrite (u32_id (y + (row * scale + sy))), (u32_id (x + (column * scale + sx))) by lia.
  eapply paints_iff with (R := fun px py => px = x + (column * scale + sx) /\ py = y + (row * scale + sy)).
  { intros px py _. unfold on_screen. lia. }
  apply paints_update; [intros _; split; lia|].
  intros old Hold.
  destruct (AlphaBlendPixel_total fb old r g b alpha) as (v & Ev & Hv); [done..|].
  exists v. split_and!; [done|lia..|]. unfold scaled_pixel.
  replace ((y + (row * scale + sy) - y) / scale) with row
    by (apply Z.div_unique with sy; lia).
  replace ((x + (column * scale + sx) - x) / scale) with column
    by (apply Z.div_unique with sx; lia).
  rewrite Halpha. mred. by apply Z.eqb_neq in Ha as ->.
Qed.

Lemma DrawGlyphScaled_paints :
  has_glyph glyph (FIRST_CHAR gFont) (GLYPH_COUNT gFont) = true ->
  paints fb (fun px py =>
      rect x y (GLYPH_WIDTH gFont * scale) (GLYPH_HEIGHT gFont * scale) px py /\
      on_screen fb px py)
    (scaled_pixel fb gFont x y glyph r g b scale) (DrawGlyphScaled fb x y glyph r g b scale).
Proof.
  intros Hglyph. unfold DrawGlyphScaled. pose proof gFont_wf as Hfont. pose proof Hfont as [].
  destruct (has_glyph_index gFont glyph Hfont Hglyph) as [Hidx ?].
  assert (((scale =? 0) || (glyph <? FIRST_CHAR gFont) ||
      (u32 (FIRST_CHAR gFont + GLYPH_COUNT gFont) <=? glyph))%bool = false) as ->.
  { rewrite !orb_false_iff, Z.eqb_neq, Z.ltb_ge, Z.leb_gt. rewrite u32_id by lia. lia. }
  cbn zeta.
  eapply paints_iff; [|eapply (paints_count _ _ _ _ (fun row px py =>
    y + row * scale <= py < y + row * scale + scale /\
    x <= px < x + GLYPH_WIDTH gFont * scale /\ on_screen fb px py))].
  { intros px py _. unfold rect. split.
    - intros (row & Hrow & ? & ? & ?). split_and!; try done; nia.
    - intros [[] ?]. exists ((py - y) / scale).
      pose proof (Z.div_mod (py - y) scale ltac:(lia)).
      pose proof (Z.mod_pos_bound (py - y) scale ltac:(lia)).
      split_and!; try done; try lia; [apply Z.div_pos; lia|apply Z.div_lt_upper_bound; lia]. }
  2: { intros i j px py _ _ (Hi & _) (Hj & _). nia. }
  intros row Hrow.
  eapply paints_iff; [|eapply (paints_count _ _ _ _ (fun column px py =>
    rect (x + column * scale) (y + row * scale) scale scale px py /\ on_screen fb px py))].
  { intros px py _. unfold rect. split.
    - intros (col & Hcol & [] & ?). split_and!; try done; nia.
    - intros (? & ? & ?). exists ((px - x) / scale).
      pose proof (Z.div_mod (px - x) scale ltac:(lia)).
      pose proof (Z.mod_pos_bound (px - x) scale ltac:(lia)).
      split_and!; try done; try lia; [apply Z.div_pos; lia|apply Z.div_lt_upper_bound; lia]. }
  2: { intros i j px py _ _ [[Hi _] _] [[Hj _] _]. nia. }
  intros column Hcol. cbn zeta.
  destruct (glyph_alpha_read gFont glyph row column Hfont Hglyph Hrow Hcol)
    as (alpha & -> & Halpha & Hbyte). mred.
  destruct (Z.eqb_spec alpha 0) as [->|Ha]; [|by apply scaled_block].
  intros m Hm. exists m. split_and!; [done|done|done|].
  intros px py old _ [[Hpx Hpy] _] Hold. exists old. split; [|done]. unfold scaled_pixel.
  replace ((py - y) / scale) with row by (apply Z.div_unique with (py - y - scale * row); lia).
  replace ((px - x) / scale) with column
    by (apply Z.div_unique with (px - x - scale * column); lia).
  by rewrite Halpha.
Qed.
End scaled.

(** At any scale, a scaled glyph stays on the screen. *)
Lemma DrawGlyphScaled_draws `{A : Assets, !AssetsWf A} fb x y glyph r g b scale :
  blendable fb -> is_u8 r -> is_u8 g -> is_u8 b ->
  draws fb (on_screen fb) (DrawGlyphScaled fb x y glyph r g b scale).
Proof.
  intros Hblend Hr Hg Hb. unfold DrawGlyphScaled. pose proof gFont_wf as Hfont.
  destruct (_ || _)%bool eqn:Eb; [apply draws_ret|]. cbn zeta.
  assert (has_glyph glyph (FIRST_CHAR gFont) (GLYPH_COUNT gFont) = true) as Hglyph.
  { rewrite !orb_false_iff, Z.ltb_ge, Z.leb_gt in Eb. unfold has_glyph.
    rewrite andb_true_iff, Z.leb_le, Z.ltb_lt. tauto. }
  clear Eb. apply draws_count. intros row Hrow. apply draws_count. intros column Hcol.
  destruct (glyph_alpha_read gFont glyph row column Hfont Hglyph Hrow Hcol)
    as (alpha & -> & _). mred.
  destruct (alpha =? 0); [apply draws_ret|].
  apply draws_count. intros sy _ m Hm. pose proof (ready_fb _ _ Hm) as Hfb. pose proof Hfb as [].
  revert m Hm. cbn zeta. destruct (_ || _)%bool eqn:EY; [apply draws_ret|].
  apply accepted_coordinate in EY; [|apply i32_range|done].
  apply draws_count. intros sx _.
  destruct (_ || _)%bool eqn:EX; [apply draws_ret|].
  apply accepted_coordinate in EX; [|apply i32_range|lia].
  apply blend_at_draws; try done; try lia; intros; split; lia.
Qed.

Lemma DrawTextStringScaled_draws `{A : Assets, !AssetsWf A} fb x y text r g b scale :
  blendable fb -> is_i32 x -> is_i32 y -> is_u8 r -> is_u8 g -> is_u8 b ->
  draws fb (on_screen fb) (DrawTextStringScaled fb x y text r g b scale).
Proof.
  intros. destruct text as [text|]; [|apply draws_ret].
  unfold DrawTextStringScaled. destruct (_ =? 0); [apply draws_ret|].
  eapply drawing_ext; [intros m; apply DrawTextStringScaled_walk|].
  apply (text_walk_anywhere (draws fb (on_screen fb))); try done.
  - intros. by apply DrawGlyphScaled_draws.
  - intros c. destruct (scaled_advance_total scale c gFont_wf) as (a & ? & _). eauto.
Qed.

Lemma DrawGradientOutlinedTextScaled_draws `{A : Assets, !AssetsWf A} fb x y text scale
    sr sg sb er eg eb t :
  blendable fb -> is_i32 x -> is_i32 y ->
  draws fb (on_screen fb)
    (DrawGradientOutlinedTextScaled fb x y text scale sr sg sb er eg eb t).
Proof.
  intros Hblend Hx Hy. destruct text as [text|]; [|apply draws_ret].
  unfold DrawGradientOutlinedTextScaled. destruct (scale =? 0) eqn:Es; [apply draws_ret|].
  destruct (MeasureTextStringScaled_total text scale gFont_wf) as (w & -> & _). mred.
  apply draws_seq.
  - apply (outline_loop_drawing (draws fb (on_screen fb))). intros ox oy. apply DrawTextStringScaled_draws; auto with ranges; lia.
  - apply (gradient_loop_drawing (draws fb (on_screen fb))); try done.
    + intros. by apply DrawGlyphScaled_draws.
    + intros c. destruct (scaled_advance_total scale c gFont_wf) as (a & ? & _). eauto.
Qed.

Lemma flat_font_advance w h fallback glyph : is_i32 fallback ->
  advance_of (GlyphAdvance (flat_font w h)) 32 95 fallback glyph =
  Done (if has_glyph glyph 32 95 then 2 else fallback).
Proof.
  intros Hf. unfold advance_of. destruct (has_glyph glyph 32 95) eqn:E; [|by rewrite i32_id].
  unfold has_glyph in E. apply andb_prop in E as [E1%Z.leb_le E2%Z.ltb_lt].
  rewrite (u32_id (32 + 95)) in E2 by lia. rewrite u32_id by lia.
  destruct (rd_done (GlyphAdvance (flat_font w h)) (glyph - 32)) as (v & -> & Hv).
  { cbn [GlyphAdvance flat_font]. rewrite length_replicate. lia. }
  apply lookup_replicate_1 in Hv as [-> _]. done.
Qed.

(* ------------------------------------------------------------------ *)
(** ** Properties *)

(** a glyph of a generated font drawn at any position of a mapped
    surface blends the colour, by the glyph's alpha, over exactly the pixels
    of its cell that are on the screen; a character the font does not have
    draws nothing. *)
Theorem DrawGlyphAtlas_correct fb f x y glyph r g b :
  font_wf f -> blendable fb -> is_i32 x -> is_i32 y -> is_u8 r -> is_u8 g -> is_u8 b ->
  paints fb (fun px py => has_glyph glyph (FIRST_CHAR f) (GLYPH_COUNT f) = true /\
      rect x y (GLYPH_WIDTH f) (GLYPH_HEIGHT f) px py /\ on_screen fb px py)
    (glyph_pixel fb f x y glyph r g b)
    (DrawGlyphAtlas fb x y glyph r g b (FIRST_CHAR f) (GLYPH_COUNT f)
       (GLYPH_WIDTH f) (GLYPH_HEIGHT f) (Some (GlyphAlpha f))).
Proof. intros. by apply DrawGlyphAtlas_paints. Qed.

Lemma DrawGlyphAtlas_correct_witness :
  let fb := demo_fb 4096 in let f := flat_font 3 3 in
  paints fb (fun px py => has_glyph 65 (FIRST_CHAR f) (GLYPH_COUNT f) = true /\
      rect (-1) 2 (GLYPH_WIDTH f) (GLYPH_HEIGHT f) px py /\ on_screen fb px py)
    (glyph_pixel fb f (-1) 2 65 255 128 0)
    (DrawGlyphAtlas fb (-1) 2 65 255 128 0 (FIRST_CHAR f) (GLYPH_COUNT f)
       (GLYPH_WIDTH f) (GLYPH_HEIGHT f) (Some (GlyphAlpha f))).
Proof.
  apply DrawGlyphAtlas_correct; [apply flat_font_wf; lia|apply demo_blendable|lia..].
Defined.

(** At a scale, each alpha of the glyph colours a square block: the
    drawing is the nearest-neighbour enlargement of the glyph, clipped to the
    screen. *)
Theorem DrawGlyphScaled_correct `{A : Assets, !AssetsWf A} fb x y glyph r g b scale :
  blendable fb -> is_u8 r -> is_u8 g -> is_u8 b -> is_i32 x -> is_i32 y ->
  0 < scale < 8388608 ->
  has_glyph glyph (FIRST_CHAR gFont) (GLYPH_COUNT gFont) = true ->
  paints fb (fun px py =>
      rect x y (GLYPH_WIDTH gFont * scale) (GLYPH_HEIGHT gFont * scale) px py /\
      on_screen fb px py)
    (scaled_pixel fb gFont x y glyph r g b scale) (DrawGlyphScaled fb x y glyph r g b scale).
Proof. intros. by apply DrawGlyphScaled_paints. Qed.

Lemma DrawGlyphScaled_correct_witness :
  let fb := demo_fb 4096 in
  paints fb (fun px py => rect 1 1 (3 * 2) (3 * 2) px py /\ on_screen fb px py)
    (scaled_pixel fb (@gFont demo_assets) 1 1 66 9 9 9 2)
    (@DrawGlyphScaled demo_assets fb 1 1 66 9 9 9 2).
Proof.
  apply (@DrawGlyphScaled_correct demo_assets demo_assets_wf);
    [apply demo_blendable|lia|lia|lia|lia|lia|lia|reflexivity].
Defined.

(** The measured width of a text is the width of its widest line, for
    every text too short to overflow the counter. *)
Theorem MeasureTextStringAtlas_correct f fallback text adv :
  font_wf f -> 0 <= fallback < 2147483648 ->
  (forall glyph, advance_of (GlyphAdvance f) (FIRST_CHAR f) (GLYPH_COUNT f) fallback glyph
                 = Done (adv glyph)) ->
  Z.of_nat (length text) * Z.max 255 fallback < 2147483648 ->
  MeasureTextStringAtlas (Some text) (FIRST_CHAR f) (GLYPH_COUNT f) (Some (GlyphAdvance f)) fallback
  = Done (widest (line_widths adv text 0) 0).
Proof. intros. by apply MeasureTextStringAtlas_loop_spec. Qed.

Lemma MeasureTextStringAtlas_correct_witness :
  let f := flat_font 3 3 in
  MeasureTextStringAtlas (Some [65; 66; 10; 65; 66; 67; 200]) (FIRST_CHAR f) (GLYPH_COUNT f)
    (Some (GlyphAdvance f)) 8 = Done 14.
Proof.
  refine (MeasureTextStringAtlas_correct (flat_font 3 3) 8 [65; 66; 10; 65; 66; 67; 200]
    (fun glyph => if has_glyph glyph 32 95 then 2 else 8) _ _ _ _).
  - apply flat_font_wf; lia.
  - lia.
  - intros glyph. apply flat_font_advance. lia.
  - cbn. lia.
Defined.

(** An outlined gradient title, at any position and thickness and in any
    colours, never faults and never touches a pixel off the screen. *)
Theorem DrawGradientOutlinedTextAtlas_safe fb f x y text sr sg sb er eg eb t fallback :
  font_wf f -> blendable fb -> is_i32 x -> is_i32 y ->
  draws fb (on_screen fb)
    (DrawGradientOutlinedTextAtlas fb x y text sr sg sb er eg eb t (FIRST_CHAR f) (GLYPH_COUNT f)
       (GLYPH_WIDTH f) (GLYPH_HEIGHT f) (Some (GlyphAlpha f)) (Some (GlyphAdvance f)) fallback).
Proof. apply DrawGradientOutlinedTextAtlas_draws. Qed.

Lemma DrawGradientOutlinedTextAtlas_safe_witness :
  let f := flat_font 3 3 in
  draws (demo_fb 4096) (on_screen (demo_fb 4096))
    (DrawGradientOutlinedTextAtlas (demo_fb 4096) (-2) 3 (Some (str "Dragon")) 255 0 0 0 0 255 2
       (FIRST_CHAR f) (GLYPH_COUNT f) (GLYPH_WIDTH f) (GLYPH_HEIGHT f)
       (Some (GlyphAlpha f)) (Some (GlyphAdvance f)) 8).
Proof.
  apply DrawGradientOutlinedTextAtlas_safe; [apply flat_font_wf; lia|apply demo_blendable|lia..].
Defined.
