(* ===== verification/Box.v ===== *)
(** * Rounded boxes

    [UI_BOX], the hit test [PointInRoundedBox] and [DrawRoundedBox], which
    fills exactly the points of the hit test that are on the screen. *)
From Stdlib Require Import ZArith Lia.
From stdpp Require Import base gmap list.
From S2P Require Import Prelude Surface.
#[local] Open Scope Z_scope.

(* ------------------------------------------------------------------ *)
(** ** Data *)

Record UI_BOX : Type := mkBox {
  BoxX : Z;
  BoxY : Z;
  Width : Z;
  Height : Z;
  Radius : Z;
  Color : Z;
  Dragging : Z;
  DragOffsetX : Z;
  DragOffsetY : Z;
}.

(** The copies the code makes to change one field of a box. *)
Definition set_Color (box : UI_BOX) (color : Z) : UI_BOX :=
  mkBox (BoxX box) (BoxY box) (Width box) (Height box) (Radius box) color
    (Dragging box) (DragOffsetX box) (DragOffsetY box).

Definition set_BoxY (box : UI_BOX) (y : Z) : UI_BOX :=
  mkBox (BoxX box) y (Width box) (Height box) (Radius box) (Color box)
    (Dragging box) (DragOffsetX box) (DragOffsetY box).

(* ------------------------------------------------------------------ *)
(** ** Operations *)

Definition PointInRoundedBox (x y : Z) (box : UI_BOX) : Z :=
  if ((x <? BoxX box) || (y <? BoxY box) || (u32 (BoxX box + Width box) <=? x) ||
      (u32 (BoxY box + Height box) <=? y))%bool then 0
  else
    let radius := i32 (Radius box) in
    if radius <=? 0 then 1
    else
      let localX := i32 (x - BoxX box) in
      let localY := i32 (y - BoxY box) in
      if ((Radius box <=? u32 localX) && (u32 localX <? u32 (Width box - Radius box)))%bool then 1
      else if ((Radius box <=? u32 localY) && (u32 localY <? u32 (Height box - Radius box)))%bool
      then 1
      else
        let dx := if localX <? radius then i32 (radius - 1 - localX)
                  else i32 (localX - i32 (i32 (Width box) - radius)) in
        let dy := if localY <? radius then i32 (radius - 1 - localY)
                  else i32 (localY - i32 (i32 (Height box) - radius)) in
        if i32 (dx * dx + dy * dy) <? i32 (radius * radius) then 1 else 0.

Definition DrawRoundedBox (fb : FRAMEBUFFER_INFO) (box : UI_BOX) (m : mem) : outcome mem :=
  for_count (Height box) (fun row m =>
    for_count (Width box) (fun column m =>
      let pixelX := u32 (BoxX box + column) in
      let pixelY := u32 (BoxY box + row) in
      if ((ScreenWidth fb <=? pixelX) || (ScreenHeight fb <=? pixelY))%bool then Done m
      else if negb (PointInRoundedBox pixelX pixelY box =? 0) then
        store32 (elem (Framebuffer fb) (u32 (pixelY * PixelsPerScanLine fb + pixelX)))
          (Color box) m
      else Done m) m) m.

(* ------------------------------------------------------------------ *)
(** ** Specification vocabulary *)

(** A box that does not wrap, with a radius its sides have room for. *)
Record box_wf (box : UI_BOX) : Prop := {
  box_x : 0 <= BoxX box;
  box_y : 0 <= BoxY box;
  box_w : 0 <= Width box;
  box_h : 0 <= Height box;
  box_right : BoxX box + Width box < 2147483648;
  box_bottom : BoxY box + Height box < 2147483648;
  box_r : 0 <= Radius box < 32768;
  box_rw : 2 * Radius box <= Width box;
  box_rh : 2 * Radius box <= Height box;
}.

(** How far [l] is outside the part of [0, len) a radius leaves straight. *)
Definition corner_distance (l len r : Z) : Z := Z.max 0 (Z.max (r - 1 - l) (l - (len - r))).

(** The points at distance less than the radius of the inner rectangle. *)
Definition in_rounded (box : UI_BOX) (x y : Z) : Prop :=
  rect (BoxX box) (BoxY box) (Width box) (Height box) x y /\
  (Radius box = 0 \/
   let dx := corner_distance (x - BoxX box) (Width box) (Radius box) in
   let dy := corner_distance (y - BoxY box) (Height box) (Radius box) in
   dx * dx + dy * dy < Radius box * Radius box).

(* ------------------------------------------------------------------ *)
(** ** Lemmas *)

Lemma PointInRoundedBox_bool x y box : PointInRoundedBox x y box = 0 \/ PointInRoundedBox x y box = 1.
Proof. unfold PointInRoundedBox. repeat case_match; auto. Qed.

(** Outside its rectangle a box contains nothing, whatever its fields. *)
Lemma PointInRoundedBox_inside x y box :
  PointInRoundedBox x y box = 1 ->
  BoxX box <= x < u32 (BoxX box + Width box) /\ BoxY box <= y < u32 (BoxY box + Height box).
Proof.
  unfold PointInRoundedBox. destruct (_ || _ || _ || _)%bool eqn:E; [done|]. intros _.
  rewrite !orb_false_iff, !Z.ltb_ge, !Z.leb_gt in E. lia.
Qed.

Lemma corner_distance_small l len r : 0 <= l < len -> 0 < r -> 2 * r <= len ->
  0 <= corner_distance l len r <= r - 1.
Proof. unfold corner_distance. lia. Qed.

Lemma square_le a b : 0 <= a <= b -> a * a <= b * b.
Proof. intros. apply Z.mul_le_mono_nonneg; lia. Qed.

(** The code's distance to the straight part, outside it. *)
Lemma code_corner l len r : 0 <= l < len -> len < 2147483648 -> 0 < r < 32768 -> 2 * r <= len ->
  l < r \/ len - r <= l ->
  (if l <? r then i32 (r - 1 - l) else i32 (l - i32 (i32 len - r))) = corner_distance l len r.
Proof.
  intros. rewrite (i32_id len), (i32_id (len - r)) by lia. unfold corner_distance.
  destruct (Z.ltb_spec l r); rewrite i32_id by lia; lia.
Qed.

Lemma PointInRoundedBox_spec x y box : box_wf box ->
  PointInRoundedBox x y box = 1 <-> in_rounded box x y.
Proof.
  intros []. unfold PointInRoundedBox, in_rounded, rect.
  rewrite !(u32_id (_ + _)) by lia.
  destruct (_ || _ || _ || _)%bool eqn:E.
  { rewrite !orb_true_iff, !Z.ltb_lt, !Z.leb_le in E. split; [done|]. lia. }
  rewrite !orb_false_iff, !Z.ltb_ge, !Z.leb_gt in E.
  cbn zeta. rewrite !(i32_id (Radius box)) by lia.
  destruct (Z.leb_spec (Radius box) 0).
  { split; [|done]. intros _. split; [lia|]. left. lia. }
  rewrite (i32_id (x - _)), (i32_id (y - _)) by lia.
  rewrite !(u32_id (x - _)), !(u32_id (y - _)), !(u32_id (Width box - _)),
    !(u32_id (Height box - _)) by lia.
  set (lx := x - BoxX box) in *. set (ly := y - BoxY box) in *.
  assert (0 <= lx < Width box) as Hlx by lia. assert (0 <= ly < Height box) as Hly by lia.
  pose proof (corner_distance_small lx (Width box) (Radius box) Hlx ltac:(lia) ltac:(lia)) as Hdx.
  pose proof (corner_distance_small ly (Height box) (Radius box) Hly ltac:(lia) ltac:(lia)) as Hdy.
  destruct ((Radius box <=? lx) && _)%bool eqn:EX.
  { apply andb_prop in EX as [?%Z.leb_le ?%Z.ltb_lt]. split; [|done]. intros _.
    split; [lia|]. right. assert (corner_distance lx (Width box) (Radius box) = 0) as ->
      by (unfold corner_distance; lia). pose proof (square_le _ _ Hdy). lia. }
  destruct ((Radius box <=? ly) && _)%bool eqn:EY.
  { apply andb_prop in EY as [?%Z.leb_le ?%Z.ltb_lt]. split; [|done]. intros _.
    split; [lia|]. right. assert (corner_distance ly (Height box) (Radius box) = 0) as ->
      by (unfold corner_distance; lia). pose proof (square_le _ _ Hdx). lia. }
  rewrite andb_false_iff, Z.leb_gt, Z.ltb_ge in EX, EY.
  rewrite (code_corner lx (Width box)), (code_corner ly (Height box)) by lia.
  pose proof (square_le _ _ Hdx) as Hx2. pose proof (square_le _ _ Hdy) as Hy2.
  assert ((Radius box - 1) * (Radius box - 1) <= 32767 * 32767) by (apply square_le; lia).
  assert (Radius box * Radius box <= 32767 * 32767) by (apply square_le; lia).
  pose proof (Z.square_nonneg (corner_distance lx (Width box) (Radius box))).
  pose proof (Z.square_nonneg (corner_distance ly (Height box) (Radius box))).
  pose proof (Z.square_nonneg (Radius box)).
  rewrite (i32_id (_ + _)), (i32_id (Radius box * Radius box)) by lia.
  match goal with |- context [if ?a <? ?b then _ else _] => destruct (Z.ltb_spec a b) end.
  - split; [|done]. intros _. split; [lia|by right].
  - split; [done|]. intros [_ [?|?]]; lia.
Qed.

(** The shape is its own mirror image, left to right and top to bottom. *)
Lemma in_rounded_mirror box x y :
  in_rounded box x y <->
  in_rounded box (2 * BoxX box + Width box - 1 - x) y /\
  in_rounded box x (2 * BoxY box + Height box - 1 - y).
Proof.
  assert (forall l len r, corner_distance (len - 1 - l) len r = corner_distance l len r) as Hc
    by (intros; unfold corner_distance; lia).
  unfold in_rounded, rect.
  replace (2 * BoxX box + Width box - 1 - x - BoxX box) with (Width box - 1 - (x - BoxX box)) by lia.
  replace (2 * BoxY box + Height box - 1 - y - BoxY box) with (Height box - 1 - (y - BoxY box)) by lia.
  rewrite !Hc. cbn zeta. lia.
Qed.

(** [DrawRoundedBox] gives the box's colour to exactly the points of the
    box that are on the screen. *)
Lemma DrawRoundedBox_paints fb box : box_wf box -> is_u32 (Color box) ->
  paints fb (fun px py => in_rounded box px py /\ on_screen fb px py)
    (fun _ _ _ => Done (Color box)) (DrawRoundedBox fb box).
Proof.
  intros Hbox Hcolor. pose proof Hbox as []. unfold DrawRoundedBox.
  eapply paints_iff; [|apply (paints_rows _ _ (fun px py => in_rounded box px py /\ on_screen fb px py)
    (BoxX box) (BoxY box) (Width box))]; [intros px py _; unfold in_rounded; tauto|].
  intros row Hrow.
  apply paints_columns.
  intros column Hcol. cbn zeta.
  rewrite (u32_id (BoxX box + column)), (u32_id (BoxY box + row)) by lia.
  destruct (_ || _)%bool eqn:Eb.
  { apply paints_none. intros px py _ (-> & -> & _ & []).
    rewrite orb_true_iff, !Z.leb_le in Eb. lia. }
  rewrite orb_false_iff, !Z.leb_gt in Eb.
  assert (on_screen fb (BoxX box + column) (BoxY box + row)) by (split; lia).
  destruct (PointInRoundedBox_bool (BoxX box + column) (BoxY box + row) box) as [E|E];
    rewrite E; cbn [Z.eqb negb].
  - apply paints_none. intros px py _ (-> & -> & Hin & _).
    apply PointInRoundedBox_spec in Hin; [|done]. congruence.
  - eapply paints_iff; [|apply paints_store; [|done|done]].
    + intros px py _. apply PointInRoundedBox_spec in E; [|done]. split.
      * intros [-> ->]. done.
      * intros (-> & -> & _). done.
    + intros. by apply on_screen_in_buffer.
Qed.

Lemma DrawRoundedBox_draws fb box : box_wf box -> is_u32 (Color box) ->
  draws fb (fun px py => in_rounded box px py /\ on_screen fb px py) (DrawRoundedBox fb box).
Proof. intros. by eapply paints_draws, DrawRoundedBox_paints. Qed.

#[export] Instance in_rounded_dec box x y : Decision (in_rounded box x y).
Proof. unfold in_rounded. cbn zeta. apply _. Defined.

Lemma DrawRoundedBox_overwrites fb box : box_wf box -> is_u32 (Color box) ->
  overwrites fb (fun px py => in_rounded box px py /\ on_screen fb px py) (DrawRoundedBox fb box).
Proof. intros. by eapply paints_overwrites, DrawRoundedBox_paints; [apply _|..]. Qed.

(** Even a degenerate box never draws off the screen. *)
Lemma DrawRoundedBox_safe fb box : draws fb (on_screen fb) (DrawRoundedBox fb box).
Proof.
  unfold DrawRoundedBox. apply draws_count. intros row _. apply draws_count. intros column _.
  cbn zeta. destruct (_ || _)%bool eqn:Eb; [apply draws_ret|].
  rewrite orb_false_iff, !Z.leb_gt in Eb.
  pose proof (u32_range (BoxX box + column)). pose proof (u32_range (BoxY box + row)).
  destruct (negb _); [|apply draws_ret].
  apply draws_store; [|split; lia]. intros Hfb. apply on_screen_in_buffer; [done|]. split; lia.
Qed.

(* ------------------------------------------------------------------ *)
(** ** Properties *)

(** the integer hit test accepts exactly the points of the rounded
    rectangle: those at distance less than the radius of the part of the box
    its corners leave straight. *)
Theorem PointInRoundedBox_correct x y box : box_wf box ->
  PointInRoundedBox x y box = 1 <-> in_rounded box x y.
Proof. apply PointInRoundedBox_spec. Qed.

Lemma PointInRoundedBox_correct_witness :
  let box := mkBox 10 20 100 40 12 0 0 0 0 in PointInRoundedBox 11 21 box = 1 <-> in_rounded box 11 21.
Proof. apply PointInRoundedBox_correct. split; cbn; lia. Defined.

(** [DrawRoundedBox] gives the box's colour to exactly the points of the
    rounded rectangle that are on the screen. *)
Theorem DrawRoundedBox_correct fb box : box_wf box -> is_u32 (Color box) ->
  paints fb (fun px py => in_rounded box px py /\ on_screen fb px py)
    (fun _ _ _ => Done (Color box)) (DrawRoundedBox fb box).
Proof. apply DrawRoundedBox_paints. Qed.

Lemma DrawRoundedBox_correct_witness :
  let box := mkBox 1 1 100 40 12 255 0 0 0 in
  paints (demo_fb 4096) (fun px py => in_rounded box px py /\ on_screen (demo_fb 4096) px py)
    (fun _ _ _ => Done (Color box)) (DrawRoundedBox (demo_fb 4096) box).
Proof. apply DrawRoundedBox_correct; [split; cbn; lia|cbn; lia]. Defined.
