(* ===== verification/Cursor.v ===== *)
(** * The software cursor

    [SOFTWARE_CURSOR] and the routines that resolve its image for the
    pixel format, save and restore what it covers, draw it and composite
    it.  [SavedPixels] is the only array of the struct the code hands to
    [CopyPixels32] by address: it lives in memory, and the field is its
    address; the two other arrays are lists. *)
From Stdlib Require Import ZArith Lia.
From stdpp Require Import base gmap list.
From S2P Require Import Prelude Surface Pixel Assets.
#[local] Open Scope Z_scope.

(* ------------------------------------------------------------------ *)
(** ** Data *)

Record SOFTWARE_CURSOR : Type := mkCursor {
  CursorX : Z;
  CursorY : Z;
  SavedWidth : Z;
  SavedHeight : Z;
  Visible : Z;
  SavedPixels : Z;
  ResolvedPixels : list Z;
  OpaqueMask : list Z;
  AccumX : Z;
  AccumY : Z;
  LeftButtonDown : Z;
  LastRawX : Z;
  LastRawY : Z;
  LastPixelX : Z;
  LastPixelY : Z;
  LastPollCount : Z;
}.

(** Assignments to fields of the struct. *)
Definition set_position (c : SOFTWARE_CURSOR) (x y : Z) : SOFTWARE_CURSOR :=
  mkCursor x y (SavedWidth c) (SavedHeight c) (Visible c) (SavedPixels c) (ResolvedPixels c)
    (OpaqueMask c) (AccumX c) (AccumY c) (LeftButtonDown c) (LastRawX c) (LastRawY c)
    (LastPixelX c) (LastPixelY c) (LastPollCount c).

Definition set_saved (c : SOFTWARE_CURSOR) (w h : Z) : SOFTWARE_CURSOR :=
  mkCursor (CursorX c) (CursorY c) w h (Visible c) (SavedPixels c) (ResolvedPixels c)
    (OpaqueMask c) (AccumX c) (AccumY c) (LeftButtonDown c) (LastRawX c) (LastRawY c)
    (LastPixelX c) (LastPixelY c) (LastPollCount c).

Definition set_Visible (c : SOFTWARE_CURSOR) (v : Z) : SOFTWARE_CURSOR :=
  mkCursor (CursorX c) (CursorY c) (SavedWidth c) (SavedHeight c) v (SavedPixels c)
    (ResolvedPixels c) (OpaqueMask c) (AccumX c) (AccumY c) (LeftButtonDown c) (LastRawX c)
    (LastRawY c) (LastPixelX c) (LastPixelY c) (LastPollCount c).

Definition set_image (c : SOFTWARE_CURSOR) (resolved opaque : list Z) : SOFTWARE_CURSOR :=
  mkCursor (CursorX c) (CursorY c) (SavedWidth c) (SavedHeight c) (Visible c) (SavedPixels c)
    resolved opaque (AccumX c) (AccumY c) (LeftButtonDown c) (LastRawX c) (LastRawY c)
    (LastPixelX c) (LastPixelY c) (LastPollCount c).

Definition set_accum (c : SOFTWARE_CURSOR) (x y : Z) : SOFTWARE_CURSOR :=
  mkCursor (CursorX c) (CursorY c) (SavedWidth c) (SavedHeight c) (Visible c) (SavedPixels c)
    (ResolvedPixels c) (OpaqueMask c) x y (LeftButtonDown c) (LastRawX c) (LastRawY c)
    (LastPixelX c) (LastPixelY c) (LastPollCount c).

Definition set_LeftButtonDown (c : SOFTWARE_CURSOR) (b : Z) : SOFTWARE_CURSOR :=
  mkCursor (CursorX c) (CursorY c) (SavedWidth c) (SavedHeight c) (Visible c) (SavedPixels c)
    (ResolvedPixels c) (OpaqueMask c) (AccumX c) (AccumY c) b (LastRawX c) (LastRawY c)
    (LastPixelX c) (LastPixelY c) (LastPollCount c).

Definition set_raw (c : SOFTWARE_CURSOR) (x y : Z) : SOFTWARE_CURSOR :=
  mkCursor (CursorX c) (CursorY c) (SavedWidth c) (SavedHeight c) (Visible c) (SavedPixels c)
    (ResolvedPixels c) (OpaqueMask c) (AccumX c) (AccumY c) (LeftButtonDown c) x y
    (LastPixelX c) (LastPixelY c) (LastPollCount c).

Definition set_last_pixel (c : SOFTWARE_CURSOR) (x y : Z) : SOFTWARE_CURSOR :=
  mkCursor (CursorX c) (CursorY c) (SavedWidth c) (SavedHeight c) (Visible c) (SavedPixels c)
    (ResolvedPixels c) (OpaqueMask c) (AccumX c) (AccumY c) (LeftButtonDown c) (LastRawX c)
    (LastRawY c) x y (LastPollCount c).

Definition set_LastPollCount (c : SOFTWARE_CURSOR) (n : Z) : SOFTWARE_CURSOR :=
  mkCursor (CursorX c) (CursorY c) (SavedWidth c) (SavedHeight c) (Visible c) (SavedPixels c)
    (ResolvedPixels c) (OpaqueMask c) (AccumX c) (AccumY c) (LeftButtonDown c) (LastRawX c)
    (LastRawY c) (LastPixelX c) (LastPixelY c) n.

(* ------------------------------------------------------------------ *)
(** ** Operations *)

Section cursor.
Context `{Assets}.

(** One pixel of the cursor image. *)
Definition resolve_pixel (fb : FRAMEBUFFER_INFO) (PixelIndex SourceIndex : Z)
    (cursor : SOFTWARE_CURSOR) : outcome SOFTWARE_CURSOR :=
  Alpha ← rd gCursorAlpha PixelIndex;
  if Alpha =? 0 then
    opaque ← wr (OpaqueMask cursor) PixelIndex 0;
    resolved ← wr (ResolvedPixels cursor) PixelIndex 0;
    Done (set_image cursor resolved opaque)
  else
    opaque ← wr (OpaqueMask cursor) PixelIndex 1;
    red ← rd gCursorPixels (u32 (SourceIndex + 0));
    green ← rd gCursorPixels (u32 (SourceIndex + 1));
    blue ← rd gCursorPixels (u32 (SourceIndex + 2));
    pixel ← ComposeFor fb (BlendChannelOverBlack red Alpha)
              (BlendChannelOverBlack green Alpha) (BlendChannelOverBlack blue Alpha);
    resolved ← wr (ResolvedPixels cursor) PixelIndex pixel;
    Done (set_image cursor resolved opaque).

Definition InitializeCursorSurface (fb : FRAMEBUFFER_INFO) (cursor : SOFTWARE_CURSOR)
    : outcome SOFTWARE_CURSOR :=
  for_count CURSOR_HEIGHT (fun Y cursor =>
    let CursorRow := u32 (Y * CURSOR_WIDTH) in
    let PixelRow := u32 (CursorRow * 3) in
    for_count CURSOR_WIDTH (fun X cursor =>
      let PixelIndex := u32 (CursorRow + X) in
      let SourceIndex := u32 (PixelRow + X * 3) in
      resolve_pixel fb PixelIndex SourceIndex cursor) cursor) cursor.

Definition RestoreCursorBackground (fb : FRAMEBUFFER_INFO) (cursor : SOFTWARE_CURSOR)
    (m : mem) : outcome (SOFTWARE_CURSOR * mem) :=
  if Visible cursor =? 0 then Done (cursor, m)
  else
    m ← for_count (SavedHeight cursor) (fun y m =>
      let framebufferRow := u32 (u32 (CursorY cursor + y) * PixelsPerScanLine fb + CursorX cursor) in
      let savedRow := u32 (y * CURSOR_WIDTH) in
      CopyPixels32 (elem (Framebuffer fb) framebufferRow)
        (elem (SavedPixels cursor) savedRow) (SavedWidth cursor) m) m;
    Done (set_Visible cursor 0, m).

Definition SaveCursorBackground (fb : FRAMEBUFFER_INFO) (cursor : SOFTWARE_CURSOR)
    (m : mem) : outcome (SOFTWARE_CURSOR * mem) :=
  let width := if ScreenWidth fb <? u32 (CursorX cursor + CURSOR_WIDTH)
               then u32 (ScreenWidth fb - CursorX cursor) else CURSOR_WIDTH in
  let height := if ScreenHeight fb <? u32 (CursorY cursor + CURSOR_HEIGHT)
                then u32 (ScreenHeight fb - CursorY cursor) else CURSOR_HEIGHT in
  let cursor := set_saved cursor width height in
  m ← for_count (SavedHeight cursor) (fun y m =>
    let framebufferRow := u32 (u32 (CursorY cursor + y) * PixelsPerScanLine fb + CursorX cursor) in
    let savedRow := u32 (y * CURSOR_WIDTH) in
    CopyPixels32 (elem (SavedPixels cursor) savedRow)
      (elem (Framebuffer fb) framebufferRow) (SavedWidth cursor) m) m;
  Done (cursor, m).

Definition DrawCursor (fb : FRAMEBUFFER_INFO) (cursor : SOFTWARE_CURSOR) (m : mem) : outcome mem :=
  for_count (SavedHeight cursor) (fun Y m =>
    let FramebufferRow := u32 (u32 (CursorY cursor + Y) * PixelsPerScanLine fb + CursorX cursor) in
    let CursorRow := u32 (Y * CURSOR_WIDTH) in
    for_count (SavedWidth cursor) (fun X m =>
      let PixelIndex := u32 (CursorRow + X) in
      opaque ← rd (OpaqueMask cursor) PixelIndex;
      if opaque =? 0 then Done m
      else
        resolved ← rd (ResolvedPixels cursor) PixelIndex;
        store32 (elem (Framebuffer fb) (u32 (FramebufferRow + X))) resolved m) m) m.

(** [NULL] descriptors are [None]; [cursor] is never [NULL] in a call. *)
Definition BlitCursorComposite (destination shadow compose : option FRAMEBUFFER_INFO)
    (cursor : SOFTWARE_CURSOR) (m : mem) : outcome (SOFTWARE_CURSOR * mem) :=
  match destination, shadow with
  | Some d, Some s =>
    '(cursor, m) ← SaveCursorBackground s cursor m;
    m ←
      (match compose with
       | Some k =>
         if (negb (Framebuffer k =? 0) && negb (Framebuffer k =? Framebuffer d) &&
             negb (Framebuffer k =? Framebuffer s))%bool
         then
           m ← for_count (SavedHeight cursor) (fun y m =>
             let framebufferRow :=
               u32 (u32 (CursorY cursor + y) * PixelsPerScanLine k + CursorX cursor) in
             let savedRow := u32 (y * CURSOR_WIDTH) in
             CopyPixels32 (elem (Framebuffer k) framebufferRow)
               (elem (SavedPixels cursor) savedRow) (SavedWidth cursor) m) m;
           m ← DrawCursor k cursor m;
           BlitSurfaceRect (Some d) (Some k) (CursorX cursor) (CursorY cursor)
             (SavedWidth cursor) (SavedHeight cursor) m
         else DrawCursor d cursor m
       | None => DrawCursor d cursor m
       end);
    Done (set_Visible cursor 1, m)
  | _, _ => Done (cursor, m)
  end.
End cursor.

(* ------------------------------------------------------------------ *)
(** ** Specification vocabulary *)

Section cursor_spec.
Context `{A : Assets, !AssetsWf A}.

(** The saved pixels, seen as a surface whose pitch is the cursor width. *)
Definition saved_surface (c : SOFTWARE_CURSOR) : FRAMEBUFFER_INFO :=
  mkFB CURSOR_WIDTH CURSOR_HEIGHT CURSOR_WIDTH 0 0 0 0 (SavedPixels c).

(** The two image arrays have their declared length and hold pixels. *)
Record image_ready (c : SOFTWARE_CURSOR) : Prop := {
  opaque_len : Z.of_nat (length (OpaqueMask c)) = CURSOR_WIDTH * CURSOR_HEIGHT;
  resolved_len : Z.of_nat (length (ResolvedPixels c)) = CURSOR_WIDTH * CURSOR_HEIGHT;
  resolved_u32 : Forall (fun p => is_u32 p) (ResolvedPixels c);
}.

(** The cursor's corner is on the surface, or just past its edge. *)
Definition cursor_in (fb : FRAMEBUFFER_INFO) (c : SOFTWARE_CURSOR) : Prop :=
  0 <= CursorX c <= ScreenWidth fb /\ 0 <= CursorY c <= ScreenHeight fb.

(** The size of what the cursor covers. *)
Definition cover_w (fb : FRAMEBUFFER_INFO) (c : SOFTWARE_CURSOR) : Z :=
  Z.min CURSOR_WIDTH (ScreenWidth fb - CursorX c).
Definition cover_h (fb : FRAMEBUFFER_INFO) (c : SOFTWARE_CURSOR) : Z :=
  Z.min CURSOR_HEIGHT (ScreenHeight fb - CursorY c).

Definition covered (fb : FRAMEBUFFER_INFO) (c : SOFTWARE_CURSOR) : Z -> Z -> Prop :=
  rect (CursorX c) (CursorY c) (cover_w fb c) (cover_h fb c).

(** The saved size is what the last save on [fb] computed. *)
Definition saved_fits (fb : FRAMEBUFFER_INFO) (c : SOFTWARE_CURSOR) : Prop :=
  SavedWidth c = cover_w fb c /\ SavedHeight c = cover_h fb c.

(** The arrays have their declared length, whatever they hold. *)
Definition image_sized (c : SOFTWARE_CURSOR) : Prop :=
  Z.of_nat (length (OpaqueMask c)) = CURSOR_WIDTH * CURSOR_HEIGHT /\
  Z.of_nat (length (ResolvedPixels c)) = CURSOR_WIDTH * CURSOR_HEIGHT /\
  Forall (fun p => is_u32 p) (ResolvedPixels c).

(** What pixel [i] of the image resolves to: its opacity and its colour. *)
Definition resolved_at (fb : FRAMEBUFFER_INFO) (i : Z) : outcome (Z * Z) :=
  alpha ← rd gCursorAlpha i;
  if alpha =? 0 then Done (0, 0)
  else
    red ← rd gCursorPixels (i * 3);
    green ← rd gCursorPixels (i * 3 + 1);
    blue ← rd gCursorPixels (i * 3 + 2);
    pixel ← ComposeFor fb (BlendChannelOverBlack red alpha)
              (BlendChannelOverBlack green alpha) (BlendChannelOverBlack blue alpha);
    Done (1, pixel).

(** The first [n] pixels of the image are resolved. *)
Definition resolved_upto (fb : FRAMEBUFFER_INFO) (n : Z) (c : SOFTWARE_CURSOR) : Prop :=
  forall i, 0 <= i < n -> exists o p, resolved_at fb i = Done (o, p) /\
    OpaqueMask c !! Z.to_nat i = Some o /\ ResolvedPixels c !! Z.to_nat i = Some p.

(** What the cursor makes of a pixel it covers. *)
Definition cursor_pixel (c : SOFTWARE_CURSOR) (px py old : Z) : outcome Z :=
  opaque ← rd (OpaqueMask c) ((py - CursorY c) * CURSOR_WIDTH + (px - CursorX c));
  if opaque =? 0 then Done old
  else rd (ResolvedPixels c) ((py - CursorY c) * CURSOR_WIDTH + (px - CursorX c)).

(** The two surfaces have the same visible size. *)
Definition same_screen (d s : FRAMEBUFFER_INFO) : Prop :=
  ScreenWidth d = ScreenWidth s /\ ScreenHeight d = ScreenHeight s.

(** A compose surface [BlitCursorComposite] makes use of. *)
Definition usable_compose (d s k : FRAMEBUFFER_INFO) : bool :=
  negb (Framebuffer k =? 0) && negb (Framebuffer k =? Framebuffer d) &&
  negb (Framebuffer k =? Framebuffer s).

(** [d] shows, in the rectangle [R], what [s] holds. *)
Definition mirrors (d s : FRAMEBUFFER_INFO) (R : Z -> Z -> Prop) (m : mem) : Prop :=
  forall x y, R x y -> on_screen d x y -> m !! pix d x y = m !! pix s x y.

(** [d] shows, in the rectangle [R], the cursor over what [s] holds. *)
Definition overlays (d s : FRAMEBUFFER_INFO) (c : SOFTWARE_CURSOR) (R : Z -> Z -> Prop)
    (m : mem) : Prop :=
  forall x y, R x y -> on_screen d x y ->
    exists old v, m !! pix s x y = Some old /\ m !! pix d x y = Some v /\
      cursor_pixel c x y old = Done v.

(* ------------------------------------------------------------------ *)
(** ** Lemmas: drawing the cursor *)

Lemma cursor_dims : 0 < CURSOR_WIDTH < 65536 /\ 0 < CURSOR_HEIGHT < 65536 /\
  CURSOR_WIDTH * CURSOR_HEIGHT * 3 < 4294967296.
Proof. destruct cursor_wf. lia. Qed.

Lemma cursor_index i j : 0 <= i < CURSOR_WIDTH -> 0 <= j < CURSOR_HEIGHT ->
  u32 (u32 (j * CURSOR_WIDTH) + i) = j * CURSOR_WIDTH + i /\
  0 <= j * CURSOR_WIDTH + i < CURSOR_WIDTH * CURSOR_HEIGHT.
Proof.
  intros Hi Hj. pose proof cursor_dims.
  pose proof (index2_bound j i CURSOR_WIDTH CURSOR_HEIGHT Hj Hi).
  assert (0 <= j * CURSOR_WIDTH) by (apply Z.mul_nonneg_nonneg; lia).
  rewrite (u32_id (j * CURSOR_WIDTH)), u32_id by lia. lia.
Qed.

Lemma cursor_pixel_total c px py old :
  image_ready c -> 0 <= px - CursorX c < CURSOR_WIDTH -> 0 <= py - CursorY c < CURSOR_HEIGHT ->
  is_u32 old -> exists v, cursor_pixel c px py old = Done v /\ is_u32 v.
Proof.
  intros [Ho Hr Hu] Hx Hy Hold. unfold cursor_pixel.
  destruct (cursor_index _ _ Hx Hy) as [_ Hi].
  destruct (rd_done (OpaqueMask c) _ ltac:(rewrite Ho; exact Hi)) as (o & -> & _). mred.
  destruct (o =? 0); [by exists old|].
  destruct (rd_forall (fun p => is_u32 p) (ResolvedPixels c) _ Hu
    ltac:(rewrite Hr; exact Hi)) as (v & -> & Hv). by exists v.
Qed.

(** [DrawCursor] overlays the opaque pixels of the cursor on what it
    covers, and touches nothing else. *)
Lemma DrawCursor_paints fb c : image_ready c -> cursor_in fb c -> saved_fits fb c ->
  paints fb (covered fb c) (cursor_pixel c) (DrawCursor fb c).
Proof.
  intros Himg Hin [Ew Eh] m0 Hm0. pose proof (ready_fb _ _ Hm0) as Hfb. revert m0 Hm0.
  pose proof cursor_dims. pose proof Hfb as []. destruct Hin as [HX HY].
  unfold DrawCursor, covered, cover_w, cover_h in *. rewrite Ew, Eh.
  set (w := Z.min CURSOR_WIDTH _) in *. set (h := Z.min CURSOR_HEIGHT _) in *.
  change (paints fb (rect (CursorX c) (CursorY c) w h) (cursor_pixel c) (fun m =>
    for_count h (fun Y m => for_count w (fun X m =>
      opaque ← rd (OpaqueMask c) (u32 (u32 (Y * CURSOR_WIDTH) + X));
      if opaque =? 0 then Done m
      else
        resolved ← rd (ResolvedPixels c) (u32 (u32 (Y * CURSOR_WIDTH) + X));
        store32 (elem (Framebuffer fb)
          (u32 (u32 (u32 (CursorY c + Y) * PixelsPerScanLine fb + CursorX c) + X))) resolved m)
      m) m)).
  apply (paints_rect _ _ _ _ _ _ (fun Y X m => _)). intros j i Hj Hi.
  destruct (cursor_index i j ltac:(lia) ltac:(lia)) as [-> Hidx].
  assert (forall old, cursor_pixel c (CursorX c + i) (CursorY c + j) old =
    opaque ← rd (OpaqueMask c) (j * CURSOR_WIDTH + i);
    if opaque =? 0 then Done old else rd (ResolvedPixels c) (j * CURSOR_WIDTH + i)) as Hf.
  { intros old. unfold cursor_pixel.
    by replace ((CursorY c + j - CursorY c) * CURSOR_WIDTH + (CursorX c + i - CursorX c))
      with (j * CURSOR_WIDTH + i) by lia. }
  destruct Himg as [Ho Hr Hu].
  destruct (rd_done (OpaqueMask c) (j * CURSOR_WIDTH + i)) as (o & Eo & _); [lia|].
  rewrite Eo. mred. setoid_rewrite Eo in Hf. cbn [mbind outcome_bind] in Hf.
  destruct (o =? 0).
  - intros m Hm. exists m. split_and!; [done..|]. intros px py old _ [-> ->] Hold.
    exists old. by rewrite Hf.
  - destruct (rd_forall (fun p => is_u32 p) (ResolvedPixels c) (j * CURSOR_WIDTH + i))
      as (v & Ev & Hv); [done|lia|].
    rewrite Ev. mred.
    assert (u32 (u32 (u32 (CursorY c + j) * PixelsPerScanLine fb + CursorX c) + i) =
      u32 ((CursorY c + j) * PixelsPerScanLine fb + (CursorX c + i))) as ->.
    { rewrite (u32_id (CursorY c + j)) by lia. unfold u32. rewrite Zplus_mod_idemp_l. f_equal. lia. }
    apply paints_store; [intros _; split; lia|done|]. intros old _. by rewrite Hf.
Qed.

(* ------------------------------------------------------------------ *)
(** ** Lemmas: saving and restoring *)

Lemma saved_index j : 0 <= j < CURSOR_HEIGHT -> 
  u32 (j * CURSOR_WIDTH) = j * CURSOR_WIDTH /\ 0 <= j * CURSOR_WIDTH.
Proof.
  intros Hj. pose proof cursor_dims. pose proof (cursor_index 0 j ltac:(lia) Hj) as [_ ?].
  assert (0 <= j * CURSOR_WIDTH) by (apply Z.mul_nonneg_nonneg; lia).
  rewrite u32_id by lia. done.
Qed.

(** The address of a row of the saved pixels. *)
Lemma elem_saved c j : fb_wf (saved_surface c) -> 0 <= j < CURSOR_HEIGHT ->
  elem (SavedPixels c) (u32 (j * CURSOR_WIDTH)) = pix (saved_surface c) 0 (0 + j).
Proof.
  intros Hfb Hj. pose proof cursor_dims.
  replace (j * CURSOR_WIDTH) with (j * PixelsPerScanLine (saved_surface c) + 0) by (cbn; lia).
  apply (elem_pix (saved_surface c) 0 j Hfb). split; cbn; lia.
Qed.

(** The address of the covered part of a row of the surface. *)
Lemma elem_covered fb c j : fb_wf fb -> cursor_in fb c -> 0 < cover_w fb c -> 0 <= j < cover_h fb c ->
  elem (Framebuffer fb) (u32 (u32 (CursorY c + j) * PixelsPerScanLine fb + CursorX c)) =
  pix fb (CursorX c) (CursorY c + j).
Proof.
  intros Hfb [HX HY] Hw Hj. pose proof Hfb as []. unfold cover_w, cover_h in *.
  rewrite (row_elem fb (CursorX c) (CursorY c) j (cover_w fb c));
    unfold cover_w; try done; lia.
Qed.

(** Saving copies what the cursor covers. *)
Lemma SaveCursorBackground_spec fb c m :
  ready fb m -> ready (saved_surface c) m -> disjoint_surfaces (saved_surface c) fb ->
  cursor_in fb c ->
  let c' := set_saved c (cover_w fb c) (cover_h fb c) in
  exists m', SaveCursorBackground fb c m = Done (c', m') /\
    ready fb m' /\ ready (saved_surface c) m' /\
    same_off (region (saved_surface c) (fun _ _ => True)) m m' /\
    forall i j, 0 <= i < cover_w fb c -> 0 <= j < cover_h fb c ->
      m' !! pix (saved_surface c) i j = m !! pix fb (CursorX c + i) (CursorY c + j).
Proof.
  intros Hm Hs Hdisj Hin c'. pose proof (ready_fb _ _ Hm) as Hfb. pose proof Hfb as [].
  pose proof cursor_dims. pose proof Hin as [HX HY]. unfold SaveCursorBackground. cbn zeta.
  rewrite !(u32_id (CursorX c + _)), !(u32_id (CursorY c + _)), !(u32_id (ScreenWidth fb - _)),
    !(u32_id (ScreenHeight fb - _)) by lia.
  assert ((if ScreenWidth fb <? CursorX c + CURSOR_WIDTH then ScreenWidth fb - CursorX c
    else CURSOR_WIDTH) = cover_w fb c) as ->
    by (unfold cover_w; destruct (Z.ltb_spec (ScreenWidth fb) (CursorX c + CURSOR_WIDTH)); lia).
  assert ((if ScreenHeight fb <? CursorY c + CURSOR_HEIGHT then ScreenHeight fb - CursorY c
    else CURSOR_HEIGHT) = cover_h fb c) as ->
    by (unfold cover_h; destruct (Z.ltb_spec (ScreenHeight fb) (CursorY c + CURSOR_HEIGHT)); lia).
  fold c'. cbn [SavedWidth SavedHeight CursorX CursorY SavedPixels set_saved c'].
  assert (0 <= cover_w fb c <= CURSOR_WIDTH /\ 0 <= cover_h fb c <= CURSOR_HEIGHT /\
    CursorX c + cover_w fb c <= ScreenWidth fb /\ CursorY c + cover_h fb c <= ScreenHeight fb)
    as (? & ? & ? & ?) by (unfold cover_w, cover_h; lia).
  destruct (copy_rows (saved_surface c) fb 0 0 (CursorX c) (CursorY c) (cover_w fb c) (cover_h fb c)
    (fun y m => CopyPixels32 (elem (SavedPixels c) (u32 (y * CURSOR_WIDTH)))
       (elem (Framebuffer fb) (u32 (u32 (CursorY c + y) * PixelsPerScanLine fb + CursorX c)))
       (cover_w fb c) m) m) as (m' & E & Hsm' & Hm' & Hsame & HV); [done|done|done|cbn; lia..| |].
  { intros i m1 Hi Hm1. destruct (Z.eqb_spec (cover_w fb c) 0) as [->|].
    { by rewrite CopyPixels32_ref by (try done; lia). }
    rewrite (elem_saved c i), (elem_covered fb c i) by (try done; try apply Hs; lia). done. }
  rewrite E. mred. exists m'. split_and!; [done|done|done| |].
  - eapply same_off_weaken; [|done]. intros a. by apply region_mono.
  - intros i j Hi Hj. by rewrite <- (HV i j), !Z.add_0_l.
Qed.

(** Restoring writes back what was saved. *)
Lemma RestoreCursorBackground_spec fb c m :
  ready fb m -> ready (saved_surface c) m -> disjoint_surfaces fb (saved_surface c) ->
  cursor_in fb c -> saved_fits fb c -> Visible c <> 0 ->
  exists m', RestoreCursorBackground fb c m = Done (set_Visible c 0, m') /\ ready fb m' /\
    same_off (region fb (covered fb c)) m m' /\
    forall i j, 0 <= i < cover_w fb c -> 0 <= j < cover_h fb c ->
      m' !! pix fb (CursorX c + i) (CursorY c + j) = m !! pix (saved_surface c) i j.
Proof.
  intros Hm Hs Hdisj Hin [Ew Eh] Hvis. pose proof (ready_fb _ _ Hm) as Hfb. pose proof Hfb as [].
  pose proof cursor_dims. pose proof Hin as [HX HY]. unfold RestoreCursorBackground.
  apply Z.eqb_neq in Hvis. rewrite Hvis, Ew, Eh.
  assert (0 <= cover_w fb c <= CURSOR_WIDTH /\ 0 <= cover_h fb c <= CURSOR_HEIGHT /\
    CursorX c + cover_w fb c <= ScreenWidth fb /\ CursorY c + cover_h fb c <= ScreenHeight fb)
    as (? & ? & ? & ?) by (unfold cover_w, cover_h; lia).
  destruct (copy_rows fb (saved_surface c) (CursorX c) (CursorY c) 0 0 (cover_w fb c) (cover_h fb c)
    (fun y m => CopyPixels32
       (elem (Framebuffer fb) (u32 (u32 (CursorY c + y) * PixelsPerScanLine fb + CursorX c)))
       (elem (SavedPixels c) (u32 (y * CURSOR_WIDTH))) (cover_w fb c) m) m)
    as (m' & E & Hm' & Hsm' & Hsame & HV); [done|done|done|cbn; lia..| |].
  { intros i m1 Hi Hm1. destruct (Z.eqb_spec (cover_w fb c) 0) as [->|].
    { by rewrite CopyPixels32_ref by (try done; lia). }
    rewrite (elem_saved c i), (elem_covered fb c i) by (try done; try apply Hs; lia). done. }
  cbn zeta. rewrite E. mred. exists m'. split_and!; [done|done|done|].
  intros i j Hi Hj. by rewrite (HV i j), !Z.add_0_l.
Qed.

(* ------------------------------------------------------------------ *)
(** ** Lemmas: resolving the image *)

Lemma resolve_pixel_spec fb c i :
  blendable fb -> image_sized c -> 0 <= i < CURSOR_WIDTH * CURSOR_HEIGHT ->
  resolved_upto fb i c ->
  exists resolved opaque, resolve_pixel fb i (u32 (i * 3)) c = Done (set_image c resolved opaque) /\
    image_sized (set_image c resolved opaque) /\
    resolved_upto fb (i + 1) (set_image c resolved opaque).
Proof.
  intros (Hr & Hg & Hb & _) (Ho & Hp & Hu) Hi Hup. pose proof cursor_dims.
  assert (forall o p, is_u32 p -> resolved_at fb i = Done (o, p) ->
    let c' := set_image c (<[Z.to_nat i := p]> (ResolvedPixels c)) (<[Z.to_nat i := o]> (OpaqueMask c)) in
    image_sized c' /\ resolved_upto fb (i + 1) c') as Hset.
  { intros o p Hpu Hat. split.
    - unfold image_sized. cbn. rewrite !length_insert. split_and!; [done..|].
      by apply Forall_insert.
    - intros j Hj. cbn. destruct (decide (j = i)) as [->|].
      + exists o, p. rewrite !list_lookup_insert_eq by lia. done.
      + destruct (Hup j ltac:(lia)) as (o' & p' & ? & ? & ?). exists o', p'.
        rewrite !list_lookup_insert_ne by lia. done. }
  destruct (rd_forall (fun b => is_u8 b) gCursorAlpha i) as (a & Ea & Ha);
    [apply cursor_alpha_wf|destruct cursor_alpha_wf; lia|].
  assert (forall k, 0 <= k < 3 -> exists v, rd gCursorPixels (i * 3 + k) = Done v) as Hrd.
  { intros k Hk. destruct (rd_done gCursorPixels (i * 3 + k)) as (v & ? & _); [|by exists v].
    destruct cursor_wf. lia. }
  unfold resolve_pixel. unfold resolved_at in Hset. rewrite Ea in *. mred. mred in Hset.
  destruct (a =? 0).
  - rewrite !wr_done by lia. mred. do 2 eexists. split; [done|]. by apply Hset.
  - rewrite (u32_id (i * 3)) by lia. rewrite !u32_id by lia.
    destruct (Hrd 0 ltac:(lia)) as (r & Er). destruct (Hrd 1 ltac:(lia)) as (g & Eg).
    destruct (Hrd 2 ltac:(lia)) as (b & Eb).
    rewrite Z.add_0_r in *. rewrite wr_done by lia. rewrite Er, Eg, Eb in *. mred. mred in Hset.
    destruct (ComposePixel_total (BlendChannelOverBlack r a) (BlendChannelOverBlack g a)
      (BlendChannelOverBlack b a) (PixelFormat fb) (RedMask fb) (GreenMask fb) (BlueMask fb))
      as (p & Ep & Hpu); [apply u8_range..|done|done|done|].
    rewrite Ep in *. mred. mred in Hset. rewrite wr_done by lia. mred.
    do 2 eexists. split; [done|]. by apply Hset.
Qed.

(** The image is resolved for the surface's format, pixel by pixel; only
    the two arrays of the struct change. *)
Lemma InitializeCursorSurface_spec fb c : blendable fb -> image_sized c ->
  exists resolved opaque, InitializeCursorSurface fb c = Done (set_image c resolved opaque) /\
    image_ready (set_image c resolved opaque) /\
    resolved_upto fb (CURSOR_WIDTH * CURSOR_HEIGHT) (set_image c resolved opaque).
Proof.
  intros Hfb Hc. pose proof cursor_dims.
  assert (c = set_image c (ResolvedPixels c) (OpaqueMask c)) as E0. { by destruct c. }
  destruct (for_count_inv (fun Y c' => (exists r o, c' = set_image c r o) /\ image_sized c' /\
      resolved_upto fb (Y * CURSOR_WIDTH) c') CURSOR_HEIGHT (fun Y cursor =>
    for_count CURSOR_WIDTH (fun X cursor =>
      resolve_pixel fb (u32 (u32 (Y * CURSOR_WIDTH) + X))
        (u32 (u32 (u32 (Y * CURSOR_WIDTH) * 3) + X * 3)) cursor) cursor) c)
    as (c' & E & (r & o & ->) & (Ho & Hp & Hu) & Hup); [lia| | |].
  - split_and!; [by eexists _, _|done|]. intros i ?. lia.
  - intros j c1 Hj (Hc1 & Hs1 & Hup1).
    destruct (for_count_inv (fun X c' => (exists r o, c' = set_image c r o) /\ image_sized c' /\
        resolved_upto fb (j * CURSOR_WIDTH + X) c') CURSOR_WIDTH (fun X cursor =>
      resolve_pixel fb (u32 (u32 (j * CURSOR_WIDTH) + X))
        (u32 (u32 (u32 (j * CURSOR_WIDTH) * 3) + X * 3)) cursor) c1)
      as (c' & E & Hc' & Hs' & Hup'); [lia| | |].
    + split_and!; [done|done|]. by rewrite Z.add_0_r.
    + intros i c2 Hi ((r & o & ->) & Hs2 & Hup2).
      destruct (cursor_index i j Hi Hj) as [-> Hidx].
      assert (u32 (u32 (u32 (j * CURSOR_WIDTH) * 3) + i * 3) = u32 ((j * CURSOR_WIDTH + i) * 3)) as ->.
      { destruct (saved_index j Hj) as [-> ?]. unfold u32. rewrite Zplus_mod_idemp_l. f_equal. lia. }
      destruct (resolve_pixel_spec fb (set_image c r o) (j * CURSOR_WIDTH + i))
        as (r' & o' & E' & ? & ?); [done..|].
      eexists. split; [done|]. split_and!; [by exists r', o'|done|].
      by rewrite Z.add_assoc.
    + exists c'. split; [done|]. split_and!; [done|done|].
      by replace ((j + 1) * CURSOR_WIDTH) with (j * CURSOR_WIDTH + CURSOR_WIDTH) by lia.
  - exists r, o. split; [done|]. split; [by split|].
    by rewrite Z.mul_comm.
Qed.

(* ------------------------------------------------------------------ *)
(** ** Lemmas: compositing *)

(** Changes to one surface leave a disjoint one alone. *)
Lemma other_surface R d s m m' x y :
  same_off (region d R) m m' -> disjoint_surfaces d s -> in_buffer s x y ->
  m' !! pix s x y = m !! pix s x y.
Proof.
  intros [_ Hs] Hd Hb. apply Hs. intros (x' & y' & _ & Hb' & E). by eapply Hd.
Qed.

Lemma ready_other R d s m m' : ready d m' -> ready s m -> same_off (region d R) m m' -> ready s m'.
Proof. intros [_ Hwf _] Hs Hsame. by eapply ready_same_off. Qed.

Lemma covered_size fb c : fb_wf fb -> cursor_in fb c ->
  0 <= cover_w fb c <= CURSOR_WIDTH /\ 0 <= cover_h fb c <= CURSOR_HEIGHT /\
  CursorX c + cover_w fb c <= ScreenWidth fb /\ CursorY c + cover_h fb c <= ScreenHeight fb.
Proof.
  intros [] [HX HY]. pose proof cursor_dims. unfold cover_w, cover_h. lia.
Qed.

(** The rows [BlitCursorComposite] copies from the saved pixels to the
    compose surface are what a restore onto it would copy. *)
Lemma compose_restore k c m :
  ready k m -> ready (saved_surface c) m -> disjoint_surfaces k (saved_surface c) ->
  cursor_in k c -> saved_fits k c ->
  exists m', for_count (SavedHeight c) (fun y m =>
      CopyPixels32
        (elem (Framebuffer k) (u32 (u32 (CursorY c + y) * PixelsPerScanLine k + CursorX c)))
        (elem (SavedPixels c) (u32 (y * CURSOR_WIDTH))) (SavedWidth c) m) m = Done m' /\
    ready k m' /\ same_off (region k (covered k c)) m m' /\
    forall i j, 0 <= i < cover_w k c -> 0 <= j < cover_h k c ->
      m' !! pix k (CursorX c + i) (CursorY c + j) = m !! pix (saved_surface c) i j.
Proof.
  intros Hk Hs Hdisj Hin Hfit.
  destruct (RestoreCursorBackground_spec k (set_Visible c 1) m) as (m' & E & ? & ? & ?);
    [done..|].
  unfold RestoreCursorBackground in E. cbn in E. apply bind_done in E as (m1 & E1 & [= <-]).
  by exists m1.
Qed.

(** The cursor drawn on a surface that shows, in the covered rectangle,
    what [s] holds. *)
Lemma DrawCursor_overlays d s c m :
  image_ready c -> ready d m -> cursor_in d c -> saved_fits d c ->
  disjoint_surfaces d s -> fb_wf s -> same_screen d s ->
  mirrors d s (covered d c) m ->
  exists m', DrawCursor d c m = Done m' /\ ready d m' /\
    same_off (region d (covered d c)) m m' /\ overlays d s c (covered d c) m'.
Proof.
  intros Himg Hd Hin Hfit Hdisj Hsf [Ew Eh] Hmir.
  destruct (DrawCursor_paints d c Himg Hin Hfit m Hd) as (m' & E & Hd' & Hsame & HV).
  exists m'. split_and!; [done..|]. intros x y Hc Hon.
  assert (in_buffer d x y) as Hb by (apply on_screen_in_buffer; [apply Hd|done]).
  destruct (ready_mapped _ _ Hd x y Hb) as [old Hold].
  destruct (HV x y old Hb Hc Hold) as (v & Ev & Hv). exists old, v. split_and!; [|done|done].
  rewrite (other_surface _ d s m m') by
    first [done | apply on_screen_in_buffer; [done|destruct Hon; split; lia]].
  by rewrite <- Hmir.
Qed.

(** What the compositor needs of memory: a destination and a shadow of
    the same size, the saved pixels, and the compose surface when it is
    used, all ready and apart from one another. *)
Record stage (d s : FRAMEBUFFER_INFO) (k : option FRAMEBUFFER_INFO) (p : FRAMEBUFFER_INFO)
    (m : mem) : Prop := {
  stage_d : ready d m;
  stage_s : ready s m;
  stage_p : ready p m;
  stage_size : same_screen d s;
  stage_base : Framebuffer d <> 0 /\ Framebuffer s <> 0;
  stage_ds : disjoint_surfaces d s;
  stage_ps : disjoint_surfaces p s;
  stage_pd : disjoint_surfaces p d;
  stage_k : match k with
            | Some k => usable_compose d s k = true ->
                ready k m /\ same_screen k s /\ disjoint_surfaces k s /\
                disjoint_surfaces k p /\ disjoint_surfaces d k
            | None => True
            end;
}.

Lemma stage_same_off d s k p R m m' : stage d s k p m -> mem_wf m' -> same_off R m m' ->
  stage d s k p m'.
Proof.
  intros [Hd Hs Hp ? ? ? ? ? Hk] Hwf Hsame. split; try done; try by eapply ready_same_off.
  destruct k as [k|]; [|done]. intros Hu. destruct (Hk Hu) as (? & ? & ? & ? & ?).
  split_and!; [by eapply ready_same_off|done..].
Qed.

Lemma disjoint_sym d s : disjoint_surfaces d s -> disjoint_surfaces s d.
Proof. intros Hd x y x' y' H1 H2 E. by apply (Hd x' y' x y). Qed.

(** What the drawing half of a composite leaves: the destination overlaid
    with the cursor, nothing else of it changed, the shadow and the saved
    pixels untouched. *)
Definition composited (d s : FRAMEBUFFER_INFO) (c : SOFTWARE_CURSOR) (m : mem)
    (o : outcome mem) : Prop :=
  exists m', o = Done m' /\ ready d m' /\ (exists R, same_off R m m') /\
    (forall x y, in_buffer s x y -> m' !! pix s x y = m !! pix s x y) /\
    (forall x y, in_buffer (saved_surface c) x y -> m' !! pix (saved_surface c) x y = m !! pix (saved_surface c) x y) /\
    (forall x y, on_screen d x y -> ~ covered d c x y -> m' !! pix d x y = m !! pix d x y) /\
    overlays d s c (covered d c) m'.

Lemma on_screen_same d s x y : same_screen d s -> fb_wf s -> on_screen d x y -> in_buffer s x y.
Proof. intros [? ?] Hs []. apply on_screen_in_buffer; [done|]. split; lia. Qed.

(** Without a compose surface the cursor is drawn in place. *)
Lemma composited_direct d s k c m :
  stage d s k (saved_surface c) m -> image_ready c -> cursor_in d c -> saved_fits d c ->
  mirrors d s (covered d c) m -> composited d s c m (DrawCursor d c m).
Proof.
  intros [] Himg Hin Hfit Hmir.
  destruct (DrawCursor_overlays d s c m) as (m' & E & Hd' & Hsame & Hov);
    [done|done|done|done|done|by eapply ready_fb|done|done|].
  exists m'. split_and!; [done|done|by eexists| | | |done].
  - intros. by eapply other_surface.
  - intros. eapply other_surface; [exact Hsame|by apply disjoint_sym|done].
  - intros x y Hon Hc. eapply same_off_pixel; [done| |done].
    apply on_screen_in_buffer; [by eapply ready_fb|done].
Qed.

(** The compose surface: the saved pixels, and the cursor over them. *)
Lemma composed d s k c m :
  stage d s (Some k) (saved_surface c) m -> usable_compose d s k = true ->
  image_ready c -> cursor_in d c -> saved_fits d c ->
  (forall i j, 0 <= i < cover_w d c -> 0 <= j < cover_h d c ->
    m !! pix (saved_surface c) i j = m !! pix s (CursorX c + i) (CursorY c + j)) ->
  exists m', (m ← for_count (SavedHeight c) (fun y m =>
      CopyPixels32
        (elem (Framebuffer k) (u32 (u32 (CursorY c + y) * PixelsPerScanLine k + CursorX c)))
        (elem (SavedPixels c) (u32 (y * CURSOR_WIDTH))) (SavedWidth c) m) m;
    DrawCursor k c m) = Done m' /\ ready k m' /\ same_off (region k (covered k c)) m m' /\
    overlays k s c (covered d c) m'.
Proof.
  intros Hst Hu Himg Hin [Ew Eh] Hsaved. pose proof Hst as [Hd Hs Hp [Dw Dh] _ _ _ _ Hk].
  destruct (Hk Hu) as (Hk0 & [Kw Kh] & Hks & Hkp & Hdk). clear Hk.
  assert (cover_w k c = cover_w d c /\ cover_h k c = cover_h d c) as [Ekw Ekh]
    by (unfold cover_w, cover_h; lia).
  assert (cursor_in k c) as Hink by (unfold cursor_in in *; lia).
  assert (saved_fits k c) as Hfitk by (split; congruence).
  destruct (compose_restore k c m) as (m1 & E1 & Hk1 & Hsame1 & HV1); [done..|].
  rewrite E1. mred.
  assert (mirrors k s (covered k c) m1) as Hmir.
  { intros x y [Hx Hy] Hon. rewrite (other_surface _ k s m m1) by
      first [done | eapply on_screen_same; [by split|apply Hs|done]].
    specialize (HV1 (x - CursorX c) (y - CursorY c) ltac:(lia) ltac:(lia)).
    replace (CursorX c + (x - CursorX c)) with x in HV1 by lia.
    replace (CursorY c + (y - CursorY c)) with y in HV1 by lia.
    rewrite HV1, Hsaved by lia. f_equal. f_equal; lia. }
  destruct (DrawCursor_overlays k s c m1) as (m2 & E2 & Hk2 & Hsame2 & Hov2);
    [done|done|done|done|done|by eapply ready_fb|by split|done|].
  exists m2. split; [exact E2|]. split; [done|]. split; [by etrans|].
  intros x y Hc. apply Hov2. unfold covered. by rewrite Ekw, Ekh.
Qed.

(** With one, it is drawn there over the saved pixels and copied out. *)
Lemma composited_buffered d s k c m :
  stage d s (Some k) (saved_surface c) m -> usable_compose d s k = true ->
  image_ready c -> cursor_in d c -> saved_fits d c ->
  (forall i j, 0 <= i < cover_w d c -> 0 <= j < cover_h d c ->
    m !! pix (saved_surface c) i j = m !! pix s (CursorX c + i) (CursorY c + j)) ->
  composited d s c m (
    m ← for_count (SavedHeight c) (fun y m =>
      CopyPixels32
        (elem (Framebuffer k) (u32 (u32 (CursorY c + y) * PixelsPerScanLine k + CursorX c)))
        (elem (SavedPixels c) (u32 (y * CURSOR_WIDTH))) (SavedWidth c) m) m;
    m ← DrawCursor k c m;
    BlitSurfaceRect (Some d) (Some k) (CursorX c) (CursorY c) (SavedWidth c) (SavedHeight c) m).
Proof.
  intros Hst Hu Himg Hin Hfit Hsaved.
  destruct (composed d s k c m Hst Hu Himg Hin Hfit Hsaved) as (m2 & E2 & Hk2 & Hsame2 & Hov2).
  pose proof Hst as [Hd Hs Hp Hds_size [Hd0 _] Hds Hps Hpd Hk].
  destruct (Hk Hu) as (Hk0 & Hks_size & Hks & Hkp & Hdk). clear Hk.
  pose proof Hds_size as [Dw Dh]. pose proof Hks_size as [Kw Kh]. destruct Hfit as [Ew Eh].
  apply bind_done in E2 as (m1 & E1 & E2). rewrite E1. mred. rewrite E2. mred.
  assert (ready d m2) as Hd2 by (by eapply ready_other; [exact Hk2| |]).
  pose proof cursor_dims. pose proof (covered_size d c (ready_fb _ _ Hd) Hin) as (? & ? & ? & ?).
  pose proof (ready_fb _ _ Hd) as [].
  destruct (BlitSurfaceRect_spec d k (CursorX c) (CursorY c) (SavedWidth c) (SavedHeight c) m2)
    as (m3 & E3 & Hd3 & Hk3 & Hsame3 & HV3); [done|done|done|done| |destruct Hin; lia..|].
  { unfold usable_compose in Hu. rewrite !andb_true_iff, !negb_true_iff, !Z.eqb_neq in Hu. lia. }
  rewrite Ew, Eh in *.
  assert (forall x y, in_buffer s x y -> m3 !! pix s x y = m2 !! pix s x y) as Hs32
    by (intros x y Hb; by eapply other_surface).
  exists m3. split_and!; [done|done| | | | |].
  - exists (fun _ => True). split; [|by intros a []]. etrans; [apply Hsame3|]. apply Hsame2.
  - intros x y Hb. rewrite Hs32 by done. by eapply other_surface; [exact Hsame2|..].
  - intros x y Hb. transitivity (m2 !! pix (saved_surface c) x y); eapply other_surface; [exact Hsame3|by apply disjoint_sym|done|exact Hsame2|done|done].
  - intros x y Hon Hc.
    assert (in_buffer d x y) as Hb by (apply on_screen_in_buffer; [apply Hd|done]).
    rewrite (same_off_pixel d _ m2 m3) by (try done; intros []; done).
    pose proof (disjoint_sym _ _ Hdk) as Hkd.
    by eapply other_surface; [exact Hsame2|..].
  - intros x y Hc Hon. assert (on_screen k x y) as Honk by (destruct Hon; split; lia).
    destruct (Hov2 x y Hc Honk) as (old & v & Hold & Hv & Hpx). exists old, v. split_and!; [| |done].
    + rewrite Hs32; [done|]. by eapply on_screen_same; [|apply Hs|].
    + by rewrite HV3.
Qed.

(** Whether a composite goes through the compose surface. *)
Definition composes (d s : FRAMEBUFFER_INFO) (k : option FRAMEBUFFER_INFO) : bool :=
  match k with Some k => usable_compose d s k | None => false end.

(** Compositing saves what the cursor covers on the shadow and leaves the
    cursor over it on the destination; nothing else of the destination
    changes, and the shadow is untouched. *)
Lemma BlitCursorComposite_spec d s k c m :
  stage d s k (saved_surface c) m -> image_ready c -> cursor_in d c ->
  (composes d s k = false -> mirrors d s (covered d c) m) ->
  let c' := set_Visible (set_saved c (cover_w d c) (cover_h d c)) 1 in
  exists m', BlitCursorComposite (Some d) (Some s) k c m = Done (c', m') /\
    stage d s k (saved_surface c') m' /\
    (forall x y, in_buffer s x y -> m' !! pix s x y = m !! pix s x y) /\
    (forall i j, 0 <= i < cover_w d c -> 0 <= j < cover_h d c ->
       m' !! pix (saved_surface c') i j = m !! pix s (CursorX c + i) (CursorY c + j)) /\
    (forall x y, on_screen d x y -> ~ covered d c x y -> m' !! pix d x y = m !! pix d x y) /\
    overlays d s c' (covered d c') m'.
Proof.
  intros Hst Himg Hin Hmir c'. pose proof Hst as [Hd Hs Hp Hsize _ Hds Hps Hpd _].
  pose proof Hsize as [Ew Eh].
  assert (cursor_in s c) as Hins by (unfold cursor_in in *; lia).
  assert (cover_w s c = cover_w d c /\ cover_h s c = cover_h d c) as [Ecw Ech]
    by (unfold cover_w, cover_h; lia).
  assert (image_ready (set_saved c (cover_w d c) (cover_h d c))) as Himg1
    by (destruct Himg; by split).
  unfold BlitCursorComposite.
  destruct (SaveCursorBackground_spec s c m Hs Hp Hps Hins) as (m1 & E1 & Hs1 & Hp1 & Hsame1 & HV1).
  rewrite E1, Ecw, Ech in *. mred. set (c1 := set_saved c (cover_w d c) (cover_h d c)) in *.
  assert (stage d s k (saved_surface c1) m1) as Hst1
    by (eapply stage_same_off; [exact Hst|apply Hs1|done]).
  assert (forall x y, in_buffer s x y -> m1 !! pix s x y = m !! pix s x y) as Hsk1
    by (intros; by eapply other_surface).
  assert (forall x y, on_screen d x y -> m1 !! pix d x y = m !! pix d x y) as Hdk1.
  { intros x y Hon. eapply other_surface; [done..|].
    apply on_screen_in_buffer; [apply Hd|done]. }
  assert (composes d s k = false -> mirrors d s (covered d c1) m1) as Hmir1.
  { intros Hk x y Hc Hon. rewrite Hdk1, Hsk1 by
      first [done | by eapply on_screen_same; [|apply Hs|]]. by apply Hmir. }
  match goal with |- context [?o ≫= fun m => Done (set_Visible c1 1, m)] => set (branch := o) end.
  assert (composited d s c1 m1 branch) as (m' & E & Hd' & [R HR] & Hsp & Hpp & Hdp & Hov).
  { assert (composes d s k = false -> composited d s c1 m1 (DrawCursor d c1 m1)) as Hdir
      by (intros Hk; by apply (composited_direct d s k c1 m1 Hst1 Himg1 Hin), Hmir1).
    subst branch. destruct k as [k|]; [|by apply Hdir]. fold (usable_compose d s k). cbn in Hdir.
    destruct (usable_compose d s k) eqn:Eu; [|by apply Hdir].
    apply (composited_buffered d s k c1); try done.
    intros i j Hi Hj. rewrite Hsk1; [by apply HV1|].
    pose proof (covered_size d c (ready_fb _ _ Hd) Hin). destruct Hin.
    apply on_screen_in_buffer; [apply Hs|]. cbn in Hi, Hj.
    change (cover_w d c1) with (cover_w d c) in Hi. change (cover_h d c1) with (cover_h d c) in Hj.
    split; cbn; lia. }
  rewrite E. mred. exists m'. split; [done|]. split_and!.
  - eapply stage_same_off; [exact Hst1|apply Hd'|done].
  - intros x y Hb. by rewrite Hsp, Hsk1.
  - intros i j Hi Hj. pose proof (covered_size d c (ready_fb _ _ Hd) Hin). change (saved_surface (set_Visible c1 1)) with (saved_surface c1).
    rewrite Hpp; [by apply HV1|split; cbn; lia].
  - intros x y Hon Hc. by rewrite Hdp, Hdk1.
  - done.
Qed.

(** Saving, drawing and restoring leaves every pixel as it was. *)
Lemma cursor_roundtrip fb c m :
  ready fb m -> ready (saved_surface c) m ->
  disjoint_surfaces fb (saved_surface c) -> disjoint_surfaces (saved_surface c) fb ->
  cursor_in fb c -> image_ready c ->
  exists c' m', ('(c, m) ← SaveCursorBackground fb c m;
     m ← DrawCursor fb c m;
     RestoreCursorBackground fb (set_Visible c 1) m) = Done (c', m') /\ ready fb m' /\
    forall x y, in_buffer fb x y -> m' !! pix fb x y = m !! pix fb x y.
Proof.
  intros Hm Hs Hdisj Hdisj' Hin Himg.
  destruct (SaveCursorBackground_spec fb c m) as (m1 & E1 & Hm1 & Hs1 & Hsame1 & HV1); [done..|].
  rewrite E1. mred. set (c1 := set_saved c (cover_w fb c) (cover_h fb c)) in *.
  assert (image_ready c1) as Himg1 by (destruct Himg; by split).
  destruct (DrawCursor_paints fb c1 Himg1 Hin ltac:(done) m1 Hm1) as (m2 & E2 & Hm2 & Hsame2 & _).
  rewrite E2. mred.
  assert (ready (saved_surface c1) m2) as Hs2 by (by eapply ready_other; [exact Hm2| |done]).
  destruct (RestoreCursorBackground_spec fb (set_Visible c1 1) m2)
    as (m3 & E3 & Hm3 & Hsame3 & HV3); [done..|].
  rewrite E3. do 2 eexists. split; [done|]. split; [done|]. intros x y Hb.
  destruct (decide (CursorX c <= x < CursorX c + cover_w fb c /\
                    CursorY c <= y < CursorY c + cover_h fb c)) as [[Hx Hy]|Hout].
  - change (forall i j, 0 <= i < cover_w fb c -> 0 <= j < cover_h fb c ->
      m3 !! pix fb (CursorX c + i) (CursorY c + j) = m2 !! pix (saved_surface c) i j) in HV3.
    specialize (HV3 (x - CursorX c) (y - CursorY c) ltac:(lia) ltac:(lia)).
    specialize (HV1 (x - CursorX c) (y - CursorY c) ltac:(lia) ltac:(lia)).
    replace (CursorX c + (x - CursorX c)) with x in * by lia.
    replace (CursorY c + (y - CursorY c)) with y in * by lia.
    rewrite HV3, <- HV1. eapply other_surface; [exact Hsame2|done|].
    pose proof (covered_size fb c (ready_fb _ _ Hm) Hin). split; cbn; lia.
  - etrans; [eapply same_off_pixel; [exact Hsame3|done|exact Hout]|].
    etrans; [eapply same_off_pixel; [exact Hsame2|done|exact Hout]|].
    by eapply other_surface.
Qed.
End cursor_spec.

(* ------------------------------------------------------------------ *)
(** ** A concrete cursor, for the witnesses *)

Definition demo_cursor (x y : Z) : SOFTWARE_CURSOR :=
  mkCursor x y 0 0 0 65536 [7; 0; 0; 7] [1; 0; 0; 1] 0 0 0 0 0 0 0 0.

Section demo.
#[local] Existing Instance demo_assets.

Lemma demo_image_ready x y : image_ready (demo_cursor x y).
Proof. split; [done..|]. repeat constructor; lia. Qed.

Lemma demo_saved_wf x y : fb_wf (saved_surface (demo_cursor x y)).
Proof. split; cbn; lia. Qed.

(** A destination, a shadow, a compose surface and the saved pixels. *)
Definition demo_memory : mem :=
  buffer 4096 32 1 ∪ (buffer 8192 32 1 ∪ (buffer 12288 32 0 ∪ buffer 65536 4 0)).

Lemma demo_stage x y :
  stage (demo_fb 4096) (demo_fb 8192) (Some (demo_fb 12288)) (saved_surface (demo_cursor x y))
    demo_memory.
Proof.
  assert (forall p n v, is_u32 v -> mem_wf (buffer p n v)) as Hwf by (intros; by apply buffer_mem_wf).
  assert (ready (saved_surface (demo_cursor x y)) demo_memory) as Hsaved.
  { repeat (apply ready_union_r; [|apply Hwf; lia]).
    exact (ready_buffer (saved_surface (demo_cursor x y)) 0 (demo_saved_wf x y) ltac:(lia)). }
  assert (forall p, 0 <= p < 60000 -> disjoint_surfaces (saved_surface (demo_cursor x y)) (demo_fb p))
    as Hap.
  { intros p Hp. apply apart_disjoint; [apply demo_saved_wf|apply demo_fb_wf; lia|]. cbn. lia. }
  split.
  - apply ready_union_l; [apply demo_ready; lia|].
    repeat (apply mem_wf_union; [apply Hwf; lia|]). apply Hwf; lia.
  - apply ready_union_r; [|apply Hwf; lia].
    apply ready_union_l; [apply demo_ready; lia|]. apply mem_wf_union; apply Hwf; lia.
  - exact Hsaved.
  - by split.
  - by split.
  - apply demo_disjoint; lia.
  - apply Hap. lia.
  - apply Hap. lia.
  - intros _. split_and!; [|by split|apply demo_disjoint; lia| |apply demo_disjoint; lia].
    + do 2 (apply ready_union_r; [|apply Hwf; lia]).
      apply ready_union_l; [apply demo_ready; lia|]. apply Hwf; lia.
    + intros ???? Hb Hb' E. by eapply (Hap 12288 ltac:(lia) _ _ _ _ Hb' Hb).
Qed.
End demo.

(* ------------------------------------------------------------------ *)
(** ** Properties *)

(** [InitializeCursorSurface] resolves every pixel of the cursor image
    for the surface's format and changes no other field of the struct. *)
Theorem InitializeCursorSurface_correct `{A : Assets, !AssetsWf A} fb c :
  blendable fb -> image_sized c ->
  exists resolved opaque, InitializeCursorSurface fb c = Done (set_image c resolved opaque) /\
    image_ready (set_image c resolved opaque) /\
    resolved_upto fb (CURSOR_WIDTH * CURSOR_HEIGHT) (set_image c resolved opaque).
Proof. apply InitializeCursorSurface_spec. Qed.

Lemma InitializeCursorSurface_correct_witness :
  exists resolved opaque,
    @InitializeCursorSurface demo_assets (demo_fb 4096) (demo_cursor 1 1) =
      Done (set_image (demo_cursor 1 1) resolved opaque) /\
    @image_ready demo_assets (set_image (demo_cursor 1 1) resolved opaque).
Proof.
  destruct (@InitializeCursorSurface_correct demo_assets demo_assets_wf (demo_fb 4096)
    (demo_cursor 1 1)) as (r & o & E & H & _).
  - apply demo_blendable.
  - split; [reflexivity|]. split; [reflexivity|]. repeat constructor; lia.
  - exists r, o. exact (conj E H).
Defined.

(** C31: saving what is under the cursor, drawing the cursor and restoring
    leaves every pixel of the surface as it was, wherever the cursor is and
    however the edge of the screen clips it. *)
Theorem cursor_save_draw_restore `{A : Assets, !AssetsWf A} fb c m :
  ready fb m -> ready (saved_surface c) m ->
  disjoint_surfaces fb (saved_surface c) -> disjoint_surfaces (saved_surface c) fb ->
  cursor_in fb c -> image_ready c ->
  exists c' m', ('(c, m) ← SaveCursorBackground fb c m;
     m ← DrawCursor fb c m;
     RestoreCursorBackground fb (set_Visible c 1) m) = Done (c', m') /\ ready fb m' /\
    forall x y, in_buffer fb x y -> m' !! pix fb x y = m !! pix fb x y.
Proof. apply cursor_roundtrip. Qed.

Lemma cursor_save_draw_restore_witness :
  let fb := demo_fb 4096 in let c := demo_cursor 5 3 in
  exists c' m', ('(c, m) ← @SaveCursorBackground demo_assets fb c demo_memory;
     m ← @DrawCursor demo_assets fb c m;
     @RestoreCursorBackground demo_assets fb (set_Visible c 1) m) = Done (c', m') /\ ready fb m' /\
    forall x y, in_buffer fb x y -> m' !! pix fb x y = demo_memory !! pix fb x y.
Proof.
  apply (@cursor_save_draw_restore demo_assets demo_assets_wf).
  - apply (demo_stage 5 3).
  - apply (demo_stage 5 3).
  - apply apart_disjoint; [apply demo_fb_wf; lia|apply demo_saved_wf|cbn; lia].
  - apply (demo_stage 5 3).
  - split; cbn; lia.
  - apply demo_image_ready.
Defined.

(** C8: compositing saves what the shadow holds under the cursor, pixel by
    pixel, leaves the destination showing the cursor over the shadow in the
    covered rectangle, changes no other visible pixel of the destination and
    none of the shadow.  The surfaces are mapped and apart, the image is
    resolved and the cursor's corner on the screen; and if no compose surface
    is used, so that the cursor is drawn in place, the destination shows the
    shadow under the cursor before. *)
Theorem BlitCursorComposite_correct `{A : Assets, !AssetsWf A} d s k c m :
  stage d s k (saved_surface c) m -> image_ready c -> cursor_in d c ->
  (composes d s k = false -> mirrors d s (covered d c) m) ->
  let c' := set_Visible (set_saved c (cover_w d c) (cover_h d c)) 1 in
  exists m', BlitCursorComposite (Some d) (Some s) k c m = Done (c', m') /\
    stage d s k (saved_surface c') m' /\
    (forall x y, in_buffer s x y -> m' !! pix s x y = m !! pix s x y) /\
    (forall i j, 0 <= i < cover_w d c -> 0 <= j < cover_h d c ->
       m' !! pix (saved_surface c') i j = m !! pix s (CursorX c + i) (CursorY c + j)) /\
    (forall x y, on_screen d x y -> ~ covered d c x y -> m' !! pix d x y = m !! pix d x y) /\
    overlays d s c' (covered d c') m'.
Proof. apply BlitCursorComposite_spec. Qed.

Lemma BlitCursorComposite_correct_witness :
  let d := demo_fb 4096 in let s := demo_fb 8192 in let c := demo_cursor 5 1 in
  (exists m', @BlitCursorComposite demo_assets (Some d) (Some s) (Some (demo_fb 12288)) c demo_memory
      = Done (set_Visible (set_saved c 1 2) 1, m') /\
    (forall x y, in_buffer s x y -> m' !! pix s x y = demo_memory !! pix s x y)) /\
  exists m', @BlitCursorComposite demo_assets (Some d) (Some s) None c demo_memory = Done (set_Visible (set_saved c 1 2) 1, m').
Proof.
  assert (mirrors (demo_fb 4096) (demo_fb 8192) (@covered demo_assets (demo_fb 4096) (demo_cursor 5 1)) demo_memory) as Hmir.
  { intros x y [Hx Hy] _. change (5 <= x < 6) in Hx. change (1 <= y < 3) in Hy.
    assert (x = 5) as -> by lia. assert (y = 1 \/ y = 2) as [-> | ->] by lia; reflexivity. }
  split.
  - destruct (@BlitCursorComposite_correct demo_assets demo_assets_wf (demo_fb 4096) (demo_fb 8192)
      (Some (demo_fb 12288)) (demo_cursor 5 1) demo_memory) as (m' & E & _ & H & _).
    + apply demo_stage.
    + apply demo_image_ready.
    + split; cbn; lia.
    + intros _. exact Hmir.
    + exists m'. exact (conj E H).
  - destruct (@BlitCursorComposite_correct demo_assets demo_assets_wf (demo_fb 4096) (demo_fb 8192)
      None (demo_cursor 5 1) demo_memory) as (m' & E & _).
    + destruct (demo_stage 5 1). constructor; done.
    + apply demo_image_ready.
    + split; cbn; lia.
    + intros _. exact Hmir.
    + exists m'. exact E.
Defined.
