(* ===== verification/Pointer.v ===== *)
(** * Pointer arithmetic and the firmware pointers

    The clamping and acceleration shared by every pointer device
    ([ClampCoordinate], [ClampCursorX], [ClampCursorY], [ClampI32],
    [ApplyMouseCurve], [CountsToFixedPixels], [ApplyMouseAcceleration]) and
    the two routines that poll a firmware pointer protocol
    ([TryUpdateCursorFromSimplePointer], [TryUpdateCursorFromAbsolutePointer]).
    [GetState] is firmware code: a parameter over an abstract world. *)
From Stdlib Require Import ZArith Lia.
From stdpp Require Import base gmap list.
From S2P Require Import Prelude Surface Assets Cursor.
#[local] Open Scope Z_scope.

(* ------------------------------------------------------------------ *)
(** ** Constants *)

Definition EFI_SUCCESS : Z := 0.
Definition EFI_ERROR_BIT : Z := 9223372036854775808.
Definition EFI_NOT_READY : Z := Z.lor EFI_ERROR_BIT 6.

Definition POINTER_SENSITIVITY_PCT : Z := 100.
Definition FIXED_PIXEL_SHIFT : Z := 8.
Definition FIXED_PIXEL_ONE : Z := Z.shiftl 1 FIXED_PIXEL_SHIFT.

(* ------------------------------------------------------------------ *)
(** ** Data *)

Record EFI_SIMPLE_POINTER_STATE : Type := mkSimpleState {
  RelativeMovementX : Z;
  RelativeMovementY : Z;
  RelativeMovementZ : Z;
  LeftButton : Z;
  RightButton : Z;
}.

Record EFI_SIMPLE_POINTER_MODE : Type := mkSimpleMode {
  ResolutionX : Z;
  ResolutionY : Z;
  ResolutionZ : Z;
}.

Record EFI_ABSOLUTE_POINTER_STATE : Type := mkAbsoluteState {
  CurrentX : Z;
  CurrentY : Z;
  CurrentZ : Z;
  ActiveButtons : Z;
}.

Record EFI_ABSOLUTE_POINTER_MODE : Type := mkAbsoluteMode {
  AbsoluteMinX : Z;
  AbsoluteMinY : Z;
  AbsoluteMaxX : Z;
  AbsoluteMaxY : Z;
}.

(** A pointer protocol: [GetState], which gets the buffer's old contents
    and returns a status and the new ones, and the [Mode] pointer. *)
Record POINTER_PROTOCOL (World State Mode : Type) : Type := mkPointer {
  GetState : State -> World -> Z * State * World;
  ModeOf : option Mode;
}.
Arguments mkPointer {World State Mode} GetState ModeOf.
Arguments GetState {World State Mode} _.
Arguments ModeOf {World State Mode} _.

(* ------------------------------------------------------------------ *)
(** ** Operations: clamping and acceleration *)

Definition ClampCoordinate (value limit : Z) : Z :=
  if limit =? 0 then 0
  else if value <? 0 then 0
  else
    let maxValue := i32 (u32 (limit - 1)) in
    if maxValue <? value then u32 (limit - 1) else u32 value.

Definition ClampCursorX `{Assets} (value : Z) (fb : FRAMEBUFFER_INFO) : Z :=
  let limit := if CURSOR_WIDTH <? ScreenWidth fb then u32 (ScreenWidth fb - CURSOR_WIDTH) else 0 in
  ClampCoordinate value (u32 (limit + 1)).

Definition ClampCursorY `{Assets} (value : Z) (fb : FRAMEBUFFER_INFO) : Z :=
  let limit := if CURSOR_HEIGHT <? ScreenHeight fb then u32 (ScreenHeight fb - CURSOR_HEIGHT) else 0 in
  ClampCoordinate value (u32 (limit + 1)).

Definition ClampI32 (Value Min Max : Z) : Z :=
  if Value <? Min then Min else if Max <? Value then Max else Value.

Definition ApplyMouseCurve (Delta : Z) : Z :=
  let AbsDelta := if Delta <? 0 then i32 (- Delta) else Delta in
  if AbsDelta <=? 1 then Delta
  else
    let Curve := i32 (AbsDelta + Z.quot (i32 (AbsDelta * AbsDelta)) 8) in
    let Curve := if 64 <? Curve then 64 else Curve in
    if Delta <? 0 then i32 (- Curve) else Curve.

Definition CountsToFixedPixels (Counts Resolution Span : Z) : Z :=
  if ((Counts =? 0) || (Span =? 0))%bool then 0
  else
    let Res := if ((Resolution =? 0) || (400 <? Resolution))%bool then 8 else Resolution in
    let Pixels := Z.quot (i64 (Counts * Span * 2 * POINTER_SENSITIVITY_PCT * FIXED_PIXEL_ONE))
                         (i64 (Res * 10000)) in
    i32 Pixels.

Definition ApplyMouseAcceleration (DeltaFixed : Z) : Z :=
  let AbsDelta := if DeltaFixed <? 0 then i32 (- DeltaFixed) else DeltaFixed in
  let Gain1024 := u32 (1024 + u32 (Z.quot (i32 (AbsDelta * 192)) FIXED_PIXEL_ONE)) in
  let Gain1024 := if 3072 <? Gain1024 then 3072 else Gain1024 in
  let Accelerated := Z.quot (i64 (DeltaFixed * Gain1024)) 1024 in
  i32 Accelerated.

(* ------------------------------------------------------------------ *)
(** ** Operations: the firmware pointers *)

Section pointers.
Context `{Assets} {World : Type}.

(** The loop over [GetState]: the counts, how many polls, the button; or
    [None] where the routine returns on an error status. *)
Fixpoint SimplePointer_loop (fuel : nat)
    (Pointer : POINTER_PROTOCOL World EFI_SIMPLE_POINTER_STATE EFI_SIMPLE_POINTER_MODE)
    (State : EFI_SIMPLE_POINTER_STATE) (TotalCountsX TotalCountsY PollCount LeftButtonDown : Z)
    (w : World) : outcome (option (Z * Z * Z * Z) * World) :=
  match fuel with
  | O => Fault Diverges
  | S fuel =>
    let '(Status, State, w) := GetState Pointer State w in
    if Status =? EFI_NOT_READY then
      Done (Some (TotalCountsX, TotalCountsY, PollCount, LeftButtonDown), w)
    else if negb (Status =? EFI_SUCCESS) then Done (None, w)
    else
      let TotalCountsX := i64 (TotalCountsX + RelativeMovementX State) in
      let TotalCountsY := i64 (TotalCountsY + RelativeMovementY State) in
      let LeftButtonDown := if negb (LeftButton State =? 0) then 1 else 0 in
      let PollCount := u32 (PollCount + 1) in
      if 64 <=? PollCount then
        Done (Some (TotalCountsX, TotalCountsY, PollCount, LeftButtonDown), w)
      else SimplePointer_loop fuel Pointer State TotalCountsX TotalCountsY PollCount LeftButtonDown w
  end.

(** One axis of the movement: fixed-point pixels from the counts. *)
Definition SimplePointer_delta (TotalCounts Resolution Span : Z) : Z :=
  let DeltaFixed :=
    CountsToFixedPixels (ApplyMouseCurve (ClampI32 (i32 TotalCounts) (-256) 256)) Resolution Span in
  let DeltaFixed :=
    if ((DeltaFixed =? 0) && negb (TotalCounts =? 0))%bool
    then i32 (ClampI32 (i32 TotalCounts) (-8) 8 * Z.quot FIXED_PIXEL_ONE 2) else DeltaFixed in
  ApplyMouseAcceleration DeltaFixed.

(** Adding a movement to the sub-pixel accumulator. *)
Definition accumulate (Accum DeltaFixed : Z) : Z :=
  ClampI32 (i32 (Accum + DeltaFixed)) (i32 (- (FIXED_PIXEL_ONE * 64))) (FIXED_PIXEL_ONE * 64).

(** The state of the pointer buffer before the first call is arbitrary. *)
Definition TryUpdateCursorFromSimplePointer
    (Pointer : option (POINTER_PROTOCOL World EFI_SIMPLE_POINTER_STATE EFI_SIMPLE_POINTER_MODE))
    (State : EFI_SIMPLE_POINTER_STATE) (Cursor : SOFTWARE_CURSOR) (fb : FRAMEBUFFER_INFO)
    (w : World) : outcome (Z * SOFTWARE_CURSOR * World) :=
  match Pointer with
  | None => Done (0, Cursor, w)
  | Some Pointer =>
    '(polled, w) ← SimplePointer_loop 64 Pointer State 0 0 0 (LeftButtonDown Cursor) w;
    match polled with
    | None => Done (0, Cursor, w)
    | Some (TotalCountsX, TotalCountsY, PollCount, Left) =>
      if PollCount =? 0 then Done (0, Cursor, w)
      else
        let Cursor := set_LeftButtonDown Cursor Left in
        let Cursor := set_raw Cursor (ClampI32 (i32 TotalCountsX) (-9999) 9999)
                        (ClampI32 (i32 TotalCountsY) (-9999) 9999) in
        let Cursor := set_LastPollCount Cursor PollCount in
        if ((TotalCountsX =? 0) && (TotalCountsY =? 0))%bool then
          Done (0, set_last_pixel Cursor 0 0, w)
        else
          let ResX := match ModeOf Pointer with Some Mode => ResolutionX Mode | None => 0 end in
          let ResY := match ModeOf Pointer with Some Mode => ResolutionY Mode | None => 0 end in
          let DeltaXFixed := SimplePointer_delta TotalCountsX ResX (ScreenWidth fb) in
          let DeltaYFixed := SimplePointer_delta TotalCountsY ResY (ScreenHeight fb) in
          let AccumX := accumulate (AccumX Cursor) DeltaXFixed in
          let AccumY := accumulate (AccumY Cursor) DeltaYFixed in
          let DeltaX := Z.quot AccumX FIXED_PIXEL_ONE in
          let DeltaY := Z.quot AccumY FIXED_PIXEL_ONE in
          let Cursor := set_accum Cursor (i32 (AccumX - DeltaX * FIXED_PIXEL_ONE))
                          (i32 (AccumY - DeltaY * FIXED_PIXEL_ONE)) in
          let Cursor := set_last_pixel Cursor DeltaX DeltaY in
          if ((DeltaX =? 0) && (DeltaY =? 0))%bool then Done (0, Cursor, w)
          else
            let NewX := i32 (i32 (CursorX Cursor) + DeltaX) in
            let NewY := i32 (i32 (CursorY Cursor) + DeltaY) in
            Done (1, set_position Cursor (ClampCursorX NewX fb) (ClampCursorY NewY fb), w)
    end
  end.

(** The loop over [GetState] has no bound: it drains the device until it
    is not ready, and carries fuel. *)
Fixpoint AbsolutePointer_loop (fuel : nat)
    (Pointer : POINTER_PROTOCOL World EFI_ABSOLUTE_POINTER_STATE EFI_ABSOLUTE_POINTER_MODE)
    (State : EFI_ABSOLUTE_POINTER_STATE) (HasState : Z) (w : World)
    : outcome (option (EFI_ABSOLUTE_POINTER_STATE * Z) * World) :=
  match fuel with
  | O => Fault Diverges
  | S fuel =>
    let '(Status, State, w) := GetState Pointer State w in
    if Status =? EFI_NOT_READY then Done (Some (State, HasState), w)
    else if negb (Status =? EFI_SUCCESS) then Done (None, w)
    else AbsolutePointer_loop fuel Pointer State 1 w
  end.

Definition TryUpdateCursorFromAbsolutePointer (fuel : nat)
    (Pointer : option (POINTER_PROTOCOL World EFI_ABSOLUTE_POINTER_STATE EFI_ABSOLUTE_POINTER_MODE))
    (State : EFI_ABSOLUTE_POINTER_STATE) (Cursor : SOFTWARE_CURSOR) (fb : FRAMEBUFFER_INFO)
    (w : World) : outcome (Z * SOFTWARE_CURSOR * World) :=
  match Pointer with
  | None => Done (0, Cursor, w)
  | Some Pointer =>
    match ModeOf Pointer with
    | None => Done (0, Cursor, w)
    | Some Mode =>
      '(drained, w) ← AbsolutePointer_loop fuel Pointer State 0 w;
      match drained with
      | None => Done (0, Cursor, w)
      | Some (State, HasState) =>
        if HasState =? 0 then Done (0, Cursor, w)
        else
          let RangeX := u64 (AbsoluteMaxX Mode - AbsoluteMinX Mode) in
          let RangeY := u64 (AbsoluteMaxY Mode - AbsoluteMinY Mode) in
          if ((RangeX =? 0) || (RangeY =? 0))%bool then Done (0, Cursor, w)
          else
            qx ← udiv (u64 (u64 (CurrentX State - AbsoluteMinX Mode) * ScreenWidth fb)) RangeX;
            qy ← udiv (u64 (u64 (CurrentY State - AbsoluteMinY Mode) * ScreenHeight fb)) RangeY;
            let NewX := u32 qx in
            let NewY := u32 qy in
            let Cursor := set_LeftButtonDown Cursor
                            (if negb (Z.land (ActiveButtons State) 1 =? 0) then 1 else 0) in
            if ((NewX =? CursorX Cursor) && (NewY =? CursorY Cursor))%bool then Done (0, Cursor, w)
            else Done (1, set_position Cursor (ClampCursorX (i32 NewX) fb)
                            (ClampCursorY (i32 NewY) fb), w)
      end
    end
  end.
End pointers.

(* ------------------------------------------------------------------ *)
(** ** Specification vocabulary *)

(** The mouse curve: quadratic gain, capped at 64, odd. *)
Definition curve (d : Z) : Z :=
  let a := Z.abs d in Z.sgn d * (if a <=? 1 then a else Z.min 64 (a + a * a / 8)).

(** The acceleration: gain from 1 to 3 with the speed, odd. *)
Definition accel (d : Z) : Z :=
  Z.sgn d * (Z.abs d * Z.min 3072 (1024 + Z.abs d * 192 / 256) / 1024).

(** The furthest right and down the cursor's corner may be. *)
Definition limit_x `{Assets} (fb : FRAMEBUFFER_INFO) : Z := Z.max 0 (ScreenWidth fb - CURSOR_WIDTH).
Definition limit_y `{Assets} (fb : FRAMEBUFFER_INFO) : Z := Z.max 0 (ScreenHeight fb - CURSOR_HEIGHT).

(** A screen small enough for the fixed-point arithmetic. *)
Definition modest (fb : FRAMEBUFFER_INFO) : Prop :=
  0 <= ScreenWidth fb <= 32768 /\ 0 <= ScreenHeight fb <= 32768.

(** The cursor is where the clamps leave it, its accumulators below one
    pixel. *)
Record pointer_ok `{Assets} (fb : FRAMEBUFFER_INFO) (c : SOFTWARE_CURSOR) : Prop := {
  ok_x : 0 <= CursorX c <= limit_x fb;
  ok_y : 0 <= CursorY c <= limit_y fb;
  ok_accum_x : -256 < AccumX c < 256;
  ok_accum_y : -256 < AccumY c < 256;
}.

(** A pointer update leaves the fields of the drawing side alone. *)
Definition same_image (c c' : SOFTWARE_CURSOR) : Prop :=
  SavedWidth c' = SavedWidth c /\ SavedHeight c' = SavedHeight c /\ Visible c' = Visible c /\
  SavedPixels c' = SavedPixels c /\ ResolvedPixels c' = ResolvedPixels c /\
  OpaqueMask c' = OpaqueMask c.

Definition moved_to `{Assets} (fb : FRAMEBUFFER_INFO) (c c' : SOFTWARE_CURSOR) (dx dy : Z) : Prop :=
  CursorX c' = Z.max 0 (Z.min (CursorX c + dx) (limit_x fb)) /\
  CursorY c' = Z.max 0 (Z.min (CursorY c + dy) (limit_y fb)).

(* ------------------------------------------------------------------ *)
(** ** Lemmas: clamping *)

Lemma ClampCoordinate_spec v limit : is_i32 v -> 0 < limit <= 2147483648 ->
  ClampCoordinate v limit = Z.max 0 (Z.min v (limit - 1)).
Proof.
  intros Hv Hl. unfold ClampCoordinate. cbn zeta.
  rewrite (u32_id (limit - 1)), (i32_id (limit - 1)) by lia.
  destruct (Z.eqb_spec limit 0); [lia|]. destruct (Z.ltb_spec v 0); [lia|].
  destruct (Z.ltb_spec (limit - 1) v); [lia|]. rewrite u32_id by lia. lia.
Qed.

Lemma ClampI32_spec v lo hi : lo <= hi -> ClampI32 v lo hi = Z.max lo (Z.min v hi).
Proof.
  intros. unfold ClampI32. destruct (Z.ltb_spec v lo); [lia|]. destruct (Z.ltb_spec hi v); lia.
Qed.

Section clamp.
Context `{A : Assets, !AssetsWf A}.

Lemma ClampCursorX_spec v fb : is_i32 v -> 0 <= ScreenWidth fb < 2147483648 ->
  ClampCursorX v fb = Z.max 0 (Z.min v (limit_x fb)).
Proof.
  intros Hv Hw. unfold ClampCursorX, limit_x. destruct cursor_wf. cbn zeta.
  destruct (Z.ltb_spec CURSOR_WIDTH (ScreenWidth fb)).
  - rewrite (u32_id (ScreenWidth fb - _)), u32_id by lia. rewrite ClampCoordinate_spec by lia. lia.
  - rewrite u32_id by lia. rewrite ClampCoordinate_spec by lia. lia.
Qed.

Lemma ClampCursorY_spec v fb : is_i32 v -> 0 <= ScreenHeight fb < 2147483648 ->
  ClampCursorY v fb = Z.max 0 (Z.min v (limit_y fb)).
Proof.
  intros Hv Hw. unfold ClampCursorY, limit_y. destruct cursor_wf. cbn zeta.
  destruct (Z.ltb_spec CURSOR_HEIGHT (ScreenHeight fb)).
  - rewrite (u32_id (ScreenHeight fb - _)), u32_id by lia. rewrite ClampCoordinate_spec by lia. lia.
  - rewrite u32_id by lia. rewrite ClampCoordinate_spec by lia. lia.
Qed.

(** A clamped cursor is on the screen, or just past its edge. *)
Lemma pointer_ok_cursor_in fb c : fb_wf fb -> pointer_ok fb c -> cursor_in fb c.
Proof.
  intros [] [HX HY _ _]. unfold limit_x, limit_y in *. destruct cursor_wf. split; lia.
Qed.
End clamp.

(* ------------------------------------------------------------------ *)
(** ** Lemmas: the curve and the acceleration *)

Lemma sgn_cases d : (d < 0 /\ Z.sgn d = -1 /\ Z.abs d = - d) \/ (0 <= d /\ Z.sgn d * Z.abs d = d /\ Z.abs d = d).
Proof. destruct (Z.sgn_spec d) as [[? ->]|[[? ->]|[? ->]]]; lia. Qed.

Lemma ApplyMouseCurve_spec d : Z.abs d <= 46340 -> ApplyMouseCurve d = curve d.
Proof.
  intros Hd. unfold ApplyMouseCurve, curve. cbn zeta.
  assert ((if d <? 0 then i32 (- d) else d) = Z.abs d) as ->.
  { destruct (Z.ltb_spec d 0); [rewrite i32_id by lia|]; lia. }
  assert (0 <= Z.abs d * Z.abs d <= 46340 * 46340) by (split; nia).
  destruct (Z.leb_spec (Z.abs d) 1); [lia|].
  rewrite (i32_id (Z.abs d * Z.abs d)) by lia. rewrite Z.quot_div_nonneg by lia.
  assert (0 <= Z.abs d * Z.abs d / 8 <= 46340 * 46340) by dlia.
  set (q := Z.abs d * Z.abs d / 8) in *. rewrite (i32_id (Z.abs d + q)) by lia.
  destruct (Z.sgn_spec d) as [[? ->]|[[? ->]|[? ->]]];
    destruct (Z.ltb_spec 64 (Z.abs d + q)), (Z.ltb_spec d 0); rewrite ?i32_id by lia; lia.
Qed.

Lemma curve_bound d : -64 <= curve d <= 64.
Proof.
  unfold curve. cbn zeta. assert (0 <= Z.abs d * Z.abs d / 8) by (apply Z.div_pos; nia).
  destruct (Z.leb_spec (Z.abs d) 1); lia.
Qed.

Lemma curve_odd d : curve (- d) = - curve d.
Proof. unfold curve. rewrite Z.abs_opp, Z.sgn_opp. cbn zeta. lia. Qed.

Lemma accel_odd d : accel (- d) = - accel d.
Proof. unfold accel. rewrite Z.abs_opp, Z.sgn_opp. lia. Qed.

(** On non-negative movements both are monotone, so by oddness on all. *)
Lemma odd_monotone (f : Z -> Z) : (forall d, f (- d) = - f d) ->
  (forall a b, 0 <= a <= b -> f a <= f b) -> (forall a, 0 <= a -> 0 <= f a) ->
  forall a b, a <= b -> f a <= f b.
Proof.
  intros Hodd Hmono Hpos a b Hab. destruct (decide (0 <= a)); [apply Hmono; lia|].
  destruct (decide (0 <= b)).
  - specialize (Hodd (- a)). rewrite Z.opp_involutive in Hodd.
    pose proof (Hpos (- a) ltac:(lia)). pose proof (Hpos b ltac:(lia)). lia.
  - pose proof (Hodd (- a)) as Ha. pose proof (Hodd (- b)) as Hb. rewrite Z.opp_involutive in Ha, Hb.
    specialize (Hmono (- b) (- a) ltac:(lia)). lia.
Qed.

Lemma curve_monotone a b : a <= b -> curve a <= curve b.
Proof.
  apply odd_monotone; [apply curve_odd| |].
  - intros c d Hcd. unfold curve. cbn zeta. rewrite !Z.abs_eq by lia.
    assert (c * c / 8 <= d * d / 8) by (apply Z.div_le_mono; nia).
    assert (0 <= d * d / 8) by (apply Z.div_pos; nia).
    destruct (Z.sgn_spec c) as [[? ->]|[[? ->]|[? ->]]];
      destruct (Z.sgn_spec d) as [[? ->]|[[? ->]|[? ->]]]; try lia;
      destruct (Z.leb_spec c 1), (Z.leb_spec d 1); lia.
  - intros c Hc. unfold curve. cbn zeta. assert (0 <= Z.abs c * Z.abs c / 8) by (apply Z.div_pos; nia).
    destruct (Z.sgn_spec c) as [[? ->]|[[? ->]|[? ->]]]; destruct (Z.leb_spec (Z.abs c) 1); lia.
Qed.

(** The gain is between one and three. *)
Lemma gain_bound a : 0 <= a -> 1024 <= Z.min 3072 (1024 + a * 192 / 256) <= 3072.
Proof. intros. assert (0 <= a * 192 / 256) by (apply Z.div_pos; lia). lia. Qed.

Lemma accel_abs a : 0 <= a -> a <= a * Z.min 3072 (1024 + a * 192 / 256) / 1024 <= 3 * a.
Proof.
  intros Ha. pose proof (gain_bound a Ha) as Hg. set (g := Z.min _ _) in *.
  split; [apply Z.div_le_lower_bound; nia|].
  apply Z.lt_succ_r. apply Z.div_lt_upper_bound; nia.
Qed.

Lemma accel_bound d : Z.abs d <= Z.abs (accel d) <= 3 * Z.abs d /\ 0 <= Z.sgn d * accel d.
Proof.
  unfold accel. pose proof (accel_abs (Z.abs d) ltac:(lia)) as H.
  set (q := _ / 1024) in *. clearbody q. destruct (Z.sgn_spec d) as [[? ->]|[[? ->]|[? ->]]]; lia.
Qed.

Lemma accel_monotone a b : a <= b -> accel a <= accel b.
Proof.
  apply odd_monotone; [apply accel_odd| |].
  - intros c d Hcd. unfold accel. rewrite !Z.abs_eq by lia.
    pose proof (accel_abs c ltac:(lia)). pose proof (accel_abs d ltac:(lia)).
    assert (c * 192 / 256 <= d * 192 / 256) by (apply Z.div_le_mono; lia).
    pose proof (gain_bound c ltac:(lia)). pose proof (gain_bound d ltac:(lia)).
    assert (c * Z.min 3072 (1024 + c * 192 / 256) / 1024 <=
            d * Z.min 3072 (1024 + d * 192 / 256) / 1024).
    { apply Z.div_le_mono; [lia|]. apply Z.mul_le_mono_nonneg; lia. }
    destruct (Z.sgn_spec c) as [[? ->]|[[? ->]|[? ->]]], (Z.sgn_spec d) as [[? ->]|[[? ->]|[? ->]]]; lia.
  - intros c Hc. pose proof (accel_bound c) as [_ H].
    destruct (Z.sgn_spec c) as [[? E]|[[E1 E]|[? E]]]; rewrite E in H; [lia|subst c; unfold accel; cbn; lia|lia].
Qed.

Lemma ApplyMouseAcceleration_spec d : Z.abs d <= 11184810 -> ApplyMouseAcceleration d = accel d.
Proof.
  intros Hd. unfold ApplyMouseAcceleration, accel. change FIXED_PIXEL_ONE with 256. cbn zeta.
  assert ((if d <? 0 then i32 (- d) else d) = Z.abs d) as ->.
  { destruct (Z.ltb_spec d 0); [rewrite i32_id by lia|]; lia. }
  rewrite (i32_id (Z.abs d * 192)) by lia. rewrite (Z.quot_div_nonneg (Z.abs d * 192) 256) by lia.
  assert (0 <= Z.abs d * 192 / 256 <= 11184810) by dlia.
  rewrite (u32_id (Z.abs d * 192 / 256)), (u32_id (1024 + _)) by lia.
  assert ((if 3072 <? 1024 + Z.abs d * 192 / 256 then 3072 else 1024 + Z.abs d * 192 / 256) =
    Z.min 3072 (1024 + Z.abs d * 192 / 256)) as ->
    by (destruct (Z.ltb_spec 3072 (1024 + Z.abs d * 192 / 256)); lia).
  pose proof (gain_bound (Z.abs d) ltac:(lia)) as Hg.
  pose proof (accel_abs (Z.abs d) ltac:(lia)) as Hb.
  set (g := Z.min _ _) in *. clearbody g.
  rewrite i64_id by nia.
  destruct (sgn_cases d) as [(? & -> & E)|(? & E & E')].
  - rewrite E in *. replace (d * g) with (- (- d * g)) by lia.
    rewrite Z.quot_opp_l by lia. rewrite Z.quot_div_nonneg by nia. rewrite i32_id by lia. lia.
  - rewrite E' in *. rewrite Z.quot_div_nonneg by nia. rewrite i32_id by lia.
    destruct (Z.sgn_spec d) as [[? ->]|[[? ->]|[? ->]]]; lia.
Qed.

(* ------------------------------------------------------------------ *)
(** ** Lemmas: the accumulators *)

(** One axis of an update: the accumulator is clamped to 64 pixels, its
    whole pixels are taken out, less than one pixel stays. *)
Lemma accumulate_spec a d : -256 < a < 256 -> Z.abs d <= 1073741824 ->
  let A := accumulate a d in
  let q := Z.quot A FIXED_PIXEL_ONE in
  A = Z.max (-16384) (Z.min (a + d) 16384) /\ -64 <= q <= 64 /\
  i32 (A - q * FIXED_PIXEL_ONE) = A - q * 256 /\ -256 < A - q * 256 < 256.
Proof.
  intros Ha Hd A q.
  assert (A = Z.max (-16384) (Z.min (a + d) 16384)) as E.
  { subst A. unfold accumulate. change (i32 (- (FIXED_PIXEL_ONE * 64))) with (-16384).
    change (FIXED_PIXEL_ONE * 64) with 16384. rewrite i32_id by lia. apply ClampI32_spec. lia. }
  assert (-16384 <= A <= 16384) as HA by lia. clearbody A. change FIXED_PIXEL_ONE with 256 in *.
  assert (-64 <= q <= 64 /\ -256 < A - q * 256 < 256) as [Hq Hr].
  { subst q. clear E. Z.to_euclidean_division_equations. lia. }
  split_and!; try done; try lia. apply i32_id. lia.
Qed.

Lemma CountsToFixedPixels_bound counts res span :
  Z.abs counts <= 64 -> 0 <= res -> 0 <= span <= 32768 ->
  Z.abs (CountsToFixedPixels counts res span) <= 10737419.
Proof.
  intros Hc Hr Hs. unfold CountsToFixedPixels. destruct (_ || _)%bool; [lia|]. cbn zeta.
  set (res' := if (_ || _)%bool then 8 else res).
  assert (1 <= res' <= 400) as Hr'.
  { subst res'. destruct (_ || _)%bool eqn:E; [lia|].
    rewrite orb_false_iff, Z.eqb_neq, Z.ltb_ge in E. lia. }
  clearbody res'. change POINTER_SENSITIVITY_PCT with 100. change FIXED_PIXEL_ONE with 256.
  assert (Z.abs (counts * span) <= 64 * 32768) by (rewrite Z.abs_mul, (Z.abs_eq span) by lia; nia).
  rewrite (i64_id (counts * span * _ * _ * _)), (i64_id (res' * _)) by lia.
  set (n := counts * span) in *. clearbody n.
  assert (Z.abs (n * 2 * 100 * 256 ÷ (res' * 10000)) <= 10737419).
  { rewrite <- Z.quot_abs by lia. rewrite Z.quot_div_nonneg by lia.
    apply Z.div_le_upper_bound; nia. }
  rewrite i32_id by lia. done.
Qed.

Lemma SimplePointer_delta_bound n res span : 0 <= res -> 0 <= span <= 32768 ->
  Z.abs (SimplePointer_delta n res span) <= 1073741824.
Proof.
  intros Hr Hs. unfold SimplePointer_delta. cbn zeta.
  rewrite (ClampI32_spec _ (-256)), (ClampI32_spec _ (-8)) by lia.
  rewrite ApplyMouseCurve_spec by lia.
  pose proof (CountsToFixedPixels_bound (curve (Z.max (-256) (Z.min (i32 n) 256))) res span) as Hb.
  pose proof (curve_bound (Z.max (-256) (Z.min (i32 n) 256))) as Hc.
  specialize (Hb ltac:(lia) Hr Hs). set (f := CountsToFixedPixels _ _ _) in *. clearbody f.
  change (FIXED_PIXEL_ONE ÷ 2) with 128.
  set (g := if (_ && _)%bool then _ else f).
  assert (Z.abs g <= 10737419) as Hg.
  { subst g. destruct (_ && _)%bool; [rewrite i32_id by lia|]; lia. }
  rewrite ApplyMouseAcceleration_spec by lia. pose proof (accel_bound g). lia.
Qed.

(* ------------------------------------------------------------------ *)
(** ** Lemmas: the firmware pointers *)

Section pointer_spec.
Context `{A : Assets, !AssetsWf A} {World : Type}.
Implicit Types (w : World) (fb : FRAMEBUFFER_INFO) (c : SOFTWARE_CURSOR).

(** The poll loop ends after at most 64 reads: its fuel is enough. *)
Lemma SimplePointer_loop_total fuel
    (p : POINTER_PROTOCOL World EFI_SIMPLE_POINTER_STATE EFI_SIMPLE_POINTER_MODE) st tx ty n l w :
  0 <= n -> n + Z.of_nat fuel = 64 -> (0 < fuel)%nat ->
  exists r w', SimplePointer_loop fuel p st tx ty n l w = Done (r, w') /\
    forall tx' ty' n' l', r = Some (tx', ty', n', l') -> n <= n' <= 64.
Proof.
  revert st tx ty n l w. induction fuel as [|fuel IH]; intros st tx ty n l w Hn Hf Hpos; [lia|].
  cbn [SimplePointer_loop]. destruct (GetState p st w) as [[s st'] w'].
  destruct (s =? EFI_NOT_READY).
  { do 2 eexists. split; [done|]. intros ???? [= _ _ <- _]. lia. }
  destruct (negb _); [by do 2 eexists|]. cbn zeta. rewrite (u32_id (n + 1)) by lia.
  destruct (Z.leb_spec 64 (n + 1)).
  { do 2 eexists. split; [done|]. intros ???? [= _ _ <- _]. lia. }
  destruct (IH st' (i64 (tx + RelativeMovementX st')) (i64 (ty + RelativeMovementY st')) (n + 1)
    (if negb (LeftButton st' =? 0) then 1 else 0) w') as (r & w2 & E & Hr); [lia|lia|lia|].
  exists r, w2. split; [done|]. intros ???? E'. specialize (Hr _ _ _ _ E'). lia.
Qed.

(** Moving a clamped cursor by at most 64 pixels and clamping again. *)
Lemma move_clamped fb c q r : fb_wf fb -> modest fb -> pointer_ok fb c ->
  -64 <= q <= 64 -> -64 <= r <= 64 ->
  ClampCursorX (i32 (i32 (CursorX c) + q)) fb = Z.max 0 (Z.min (CursorX c + q) (limit_x fb)) /\
  ClampCursorY (i32 (i32 (CursorY c) + r)) fb = Z.max 0 (Z.min (CursorY c + r) (limit_y fb)).
Proof.
  intros Hfb [Hw Hh] [HX HY _ _] Hq Hr. destruct cursor_wf.
  unfold limit_x, limit_y in *.
  rewrite (i32_id (CursorX c)), (i32_id (CursorY c)) by lia.
  rewrite (i32_id (CursorX c + q)), (i32_id (CursorY c + r)) by lia.
  by rewrite ClampCursorX_spec, ClampCursorY_spec by lia.
Qed.

Lemma TryUpdateCursorFromSimplePointer_spec
    (p : option (POINTER_PROTOCOL World EFI_SIMPLE_POINTER_STATE EFI_SIMPLE_POINTER_MODE))
    st fb c w :
  fb_wf fb -> modest fb -> pointer_ok fb c ->
  (forall q m, p = Some q -> ModeOf q = Some m -> 0 <= ResolutionX m /\ 0 <= ResolutionY m) ->
  exists r c' w', TryUpdateCursorFromSimplePointer p st c fb w = Done (r, c', w') /\
    pointer_ok fb c' /\ same_image c c' /\
    ((r = 0 /\ CursorX c' = CursorX c /\ CursorY c' = CursorY c) \/
     (r = 1 /\ moved_to fb c c' (LastPixelX c') (LastPixelY c'))).
Proof.
  intros Hfb Hmod Hok Hres. unfold TryUpdateCursorFromSimplePointer.
  assert (forall w, exists r c' w', Done (0, c, w) = Done (r, c', w') /\
    pointer_ok fb c' /\ same_image c c' /\
    ((r = 0 /\ CursorX c' = CursorX c /\ CursorY c' = CursorY c) \/
     (r = 1 /\ moved_to fb c c' (LastPixelX c') (LastPixelY c')))) as Hstay.
  { intros w'. exists 0, c, w'. split_and!; try done. by left. }
  destruct p as [p|]; [|done].
  destruct (SimplePointer_loop_total 64 p st 0 0 0 (LeftButtonDown c) w) as (polled & w' & -> & _);
    [lia|lia|lia|]. mred.
  destruct polled as [[[[tx ty] n] l]|]; [|done]. destruct (n =? 0); [done|]. cbn zeta.
  destruct Hok as [HX HY HaX HaY].
  destruct ((tx =? 0) && (ty =? 0))%bool.
  { do 3 eexists. split; [done|]. split_and!; [by split|done|]. by left. }
  set (resx := match ModeOf p with Some m => ResolutionX m | None => 0 end).
  set (resy := match ModeOf p with Some m => ResolutionY m | None => 0 end).
  assert (0 <= resx /\ 0 <= resy) as [Hrx Hry].
  { subst resx resy. destruct (ModeOf p) as [m|] eqn:E; [by eapply Hres|lia]. }
  pose proof Hmod as [Hw Hh]. cbn [AccumX AccumY set_LastPollCount set_raw set_LeftButtonDown].
  destruct (accumulate_spec (AccumX c) (SimplePointer_delta tx resx (ScreenWidth fb)))
    as (_ & Hqx & -> & Hrx2); [done|by apply SimplePointer_delta_bound|].
  destruct (accumulate_spec (AccumY c) (SimplePointer_delta ty resy (ScreenHeight fb)))
    as (_ & Hqy & -> & Hry2); [done|by apply SimplePointer_delta_bound|].
  set (qx := accumulate (AccumX c) _ ÷ _) in *. set (qy := accumulate (AccumY c) _ ÷ _) in *.
  destruct ((qx =? 0) && (qy =? 0))%bool.
  { do 3 eexists. split; [done|]. split_and!; [by split|done|]. by left. }
  cbn [CursorX CursorY set_last_pixel set_accum set_LastPollCount set_raw set_LeftButtonDown].
  destruct (move_clamped fb c qx qy) as [-> ->]; [done|done|by split|done|done|].
  do 3 eexists. split; [done|]. split_and!; [|done|by right].
  split; cbn; unfold limit_x, limit_y in *; lia.
Qed.

(** Draining a device that is ready [n] times and then is not. *)
Fixpoint ready_for (n : nat)
    (p : POINTER_PROTOCOL World EFI_ABSOLUTE_POINTER_STATE EFI_ABSOLUTE_POINTER_MODE)
    (st : EFI_ABSOLUTE_POINTER_STATE) w : bool :=
  match n with
  | O => let '(s, _, _) := GetState p st w in negb (s =? EFI_SUCCESS)
  | S n => let '(s, st, w) := GetState p st w in (s =? EFI_SUCCESS) && ready_for n p st w
  end.

Lemma AbsolutePointer_loop_total n fuel
    (p : POINTER_PROTOCOL World EFI_ABSOLUTE_POINTER_STATE EFI_ABSOLUTE_POINTER_MODE) st h w :
  ready_for n p st w = true -> (n < fuel)%nat ->
  exists r w', AbsolutePointer_loop fuel p st h w = Done (r, w').
Proof.
  revert fuel st h w. induction n as [|n IH]; intros [|fuel] st h w; try lia; cbn;
    destruct (GetState p st w) as [[s st'] w']; intros Hr Hf.
  - destruct (s =? EFI_NOT_READY); [by do 2 eexists|]. rewrite Hr. by do 2 eexists.
  - apply andb_prop in Hr as [Hs%Z.eqb_eq Hr]. subst s. cbn. apply IH; [done|lia].
Qed.

(** A device that always has a state never lets the routine return. *)
Lemma AbsolutePointer_loop_hangs fuel
    (p : POINTER_PROTOCOL World EFI_ABSOLUTE_POINTER_STATE EFI_ABSOLUTE_POINTER_MODE) st h w :
  (forall st w, (GetState p st w).1.1 = EFI_SUCCESS) ->
  AbsolutePointer_loop fuel p st h w = Fault Diverges.
Proof.
  intros Hp. revert st h w. induction fuel as [|fuel IH]; intros st h w; [done|]. cbn.
  specialize (Hp st w). destruct (GetState p st w) as [[s st'] w']. cbn in Hp. subst s. apply IH.
Qed.

Lemma TryUpdateCursorFromAbsolutePointer_spec n fuel
    (p : POINTER_PROTOCOL World EFI_ABSOLUTE_POINTER_STATE EFI_ABSOLUTE_POINTER_MODE) st fb c w :
  fb_wf fb -> pointer_ok fb c -> ready_for n p st w = true -> (n < fuel)%nat ->
  exists r c' w', TryUpdateCursorFromAbsolutePointer fuel (Some p) st c fb w = Done (r, c', w') /\
    pointer_ok fb c' /\ same_image c c' /\ (r = 0 \/ r = 1) /\
    (r = 0 -> CursorX c' = CursorX c /\ CursorY c' = CursorY c).
Proof.
  intros Hfb Hok Hn Hf. unfold TryUpdateCursorFromAbsolutePointer.
  destruct (ModeOf p) as [mode|]; [|exists 0, c, w; split_and!; auto; done].
  destruct (AbsolutePointer_loop_total n fuel p st 0 w Hn Hf) as (r & w' & ->). mred.
  destruct r as [[s h]|]; [|exists 0, c, w'; split_and!; auto; done].
  destruct (h =? 0); [exists 0, c, w'; split_and!; auto; done|]. cbn zeta.
  destruct (_ || _)%bool eqn:Er; [exists 0, c, w'; split_and!; auto; done|].
  rewrite orb_false_iff, !Z.eqb_neq in Er. destruct Er as [Ex Ey].
  rewrite !udiv_done by done. mred. pose proof Hok as [HX HY ? ?].
  destruct (_ && _)%bool.
  - do 3 eexists. split; [done|]. split_and!; [by split|done|by left|done].
  - do 3 eexists. split; [done|]. pose proof Hfb as []. 
    rewrite ClampCursorX_spec, ClampCursorY_spec by (try apply i32_range; lia).
    split_and!; [|done|by right|done].
    split; cbn; unfold limit_x, limit_y in *; lia.
Qed.
End pointer_spec.

(* ------------------------------------------------------------------ *)
(** ** A concrete device, for the witnesses *)

(** A queue of states, [EFI_NOT_READY] when it is empty. *)
Definition queue {State Mode : Type} (mode : Mode) : POINTER_PROTOCOL (list State) State Mode :=
  mkPointer (fun old w => match w with
                          | [] => (EFI_NOT_READY, old, [])
                          | s :: w => (EFI_SUCCESS, s, w)
                          end) (Some mode).

Lemma demo_pointer_ok :
  @pointer_ok demo_assets (demo_fb 4096) (demo_cursor 3 1).
Proof. by split; vm_compute. Qed.

(* ------------------------------------------------------------------ *)
(** ** Properties *)

(** Within the range the callers use, the acceleration does not
    overflow, keeps the direction, is monotone, and multiplies the movement
    by a gain between one and three. *)
Theorem ApplyMouseAcceleration_correct d d' :
  Z.abs d <= 11184810 -> Z.abs d' <= 11184810 -> d <= d' ->
  ApplyMouseAcceleration d <= ApplyMouseAcceleration d' /\
  ApplyMouseAcceleration (- d) = - ApplyMouseAcceleration d /\
  Z.abs d <= Z.abs (ApplyMouseAcceleration d) <= 3 * Z.abs d.
Proof.
  intros. rewrite !ApplyMouseAcceleration_spec by lia.
  split_and!; [by apply accel_monotone|apply accel_odd|apply accel_bound..].
Qed.

Lemma ApplyMouseAcceleration_correct_witness :
  ApplyMouseAcceleration (-700) <= ApplyMouseAcceleration 640 /\
  ApplyMouseAcceleration (- -700) = - ApplyMouseAcceleration (-700) /\
  Z.abs (-700) <= Z.abs (ApplyMouseAcceleration (-700)) <= 3 * Z.abs (-700).
Proof. apply (ApplyMouseAcceleration_correct (-700) 640); lia. Defined.

(** Whatever a firmware mouse reports, one poll of it returns, after
    at most 64 reads; the cursor stays where the clamps allow, less than a
    pixel stays in the accumulators, the drawing fields are untouched, and
    the result tells whether the cursor was moved, by the recorded number of
    pixels. *)
Theorem TryUpdateCursorFromSimplePointer_correct `{A : Assets, !AssetsWf A} {World : Type}
    (p : option (POINTER_PROTOCOL World EFI_SIMPLE_POINTER_STATE EFI_SIMPLE_POINTER_MODE))
    st fb c w :
  fb_wf fb -> modest fb -> pointer_ok fb c ->
  (forall q m, p = Some q -> ModeOf q = Some m -> 0 <= ResolutionX m /\ 0 <= ResolutionY m) ->
  exists r c' w', TryUpdateCursorFromSimplePointer p st c fb w = Done (r, c', w') /\
    pointer_ok fb c' /\ same_image c c' /\
    ((r = 0 /\ CursorX c' = CursorX c /\ CursorY c' = CursorY c) \/
     (r = 1 /\ moved_to fb c c' (LastPixelX c') (LastPixelY c'))).
Proof. apply TryUpdateCursorFromSimplePointer_spec. Qed.

Lemma TryUpdateCursorFromSimplePointer_correct_witness :
  exists r c' w', @TryUpdateCursorFromSimplePointer demo_assets _
      (Some (queue (mkSimpleMode 8 8 0))) (mkSimpleState 0 0 0 0 0) (demo_cursor 3 1) (demo_fb 4096)
      [mkSimpleState 5 (-2) 0 1 0; mkSimpleState 100 0 0 0 0] = Done (r, c', w') /\
    @pointer_ok demo_assets (demo_fb 4096) c'.
Proof.
  destruct (@TryUpdateCursorFromSimplePointer_correct demo_assets demo_assets_wf _
    (Some (queue (mkSimpleMode 8 8 0))) (mkSimpleState 0 0 0 0 0) (demo_fb 4096) (demo_cursor 3 1)
    [mkSimpleState 5 (-2) 0 1 0; mkSimpleState 100 0 0 0 0]) as (r & c' & w' & E & H & _).
  - apply demo_fb_wf; lia.
  - split; cbn; lia.
  - apply demo_pointer_ok.
  - intros q m Eq Em. injection Eq as <-. injection Em as <-. cbn. lia.
  - exists r, c', w'. exact (conj E H).
Defined.

(** The absolute pointer routine returns once the device stops being
    ready, however many states it had queued, with the cursor clamped; but
    the drain has no bound of its own, and a device that always has a state
    keeps it in the loop for ever. *)
Theorem TryUpdateCursorFromAbsolutePointer_correct `{A : Assets, !AssetsWf A} {World : Type}
    (p : POINTER_PROTOCOL World EFI_ABSOLUTE_POINTER_STATE EFI_ABSOLUTE_POINTER_MODE) st fb c w :
  fb_wf fb -> pointer_ok fb c ->
  (forall n fuel, ready_for n p st w = true -> (n < fuel)%nat ->
    exists r c' w', TryUpdateCursorFromAbsolutePointer fuel (Some p) st c fb w = Done (r, c', w') /\
      pointer_ok fb c' /\ same_image c c' /\ (r = 0 \/ r = 1) /\
      (r = 0 -> CursorX c' = CursorX c /\ CursorY c' = CursorY c)) /\
  ((forall st w, (GetState p st w).1.1 = EFI_SUCCESS) -> ModeOf p <> None ->
    forall fuel, TryUpdateCursorFromAbsolutePointer fuel (Some p) st c fb w = Fault Diverges).
Proof.
  intros Hfb Hok. split.
  - intros n fuel Hn Hf. by eapply TryUpdateCursorFromAbsolutePointer_spec.
  - intros Hready Hmode fuel. unfold TryUpdateCursorFromAbsolutePointer.
    destruct (ModeOf p); [|done]. by rewrite AbsolutePointer_loop_hangs.
Qed.

Lemma TryUpdateCursorFromAbsolutePointer_correct_witness :
  exists r c' w', @TryUpdateCursorFromAbsolutePointer demo_assets _ 3
      (Some (queue (mkAbsoluteMode 0 0 1000 1000))) (mkAbsoluteState 0 0 0 0) (demo_cursor 3 1)
      (demo_fb 4096) [mkAbsoluteState 1 2 0 0; mkAbsoluteState 500 10 0 1] = Done (r, c', w') /\
    @pointer_ok demo_assets (demo_fb 4096) c'.
Proof.
  destruct (@TryUpdateCursorFromAbsolutePointer_correct demo_assets demo_assets_wf _
    (queue (mkAbsoluteMode 0 0 1000 1000)) (mkAbsoluteState 0 0 0 0) (demo_fb 4096) (demo_cursor 3 1)
    [mkAbsoluteState 1 2 0 0; mkAbsoluteState 500 10 0 1]) as [H _].
  - apply demo_fb_wf; lia.
  - apply demo_pointer_ok.
  - destruct (H 2%nat 3%nat) as (r & c' & w' & E & Hok & _).
    + reflexivity.
    + lia.
    + exists r, c', w'. exact (conj E Hok).
Defined.
