(* ===== verification/Ps2.v ===== *)
(** * The PS/2 mouse driver

    The kernel's own mouse driver: the controller handshake ([Ps2Wait*],
    [Ps2TryReadByte], [Ps2FlushOutputBuffer], [Ps2Write*]), the
    initialisation sequence and [UpdateCursorFromPs2Mouse], which assembles
    three-byte packets from whatever the controller has and moves the cursor.
    [__inbyte] and [__outbyte] are compiler intrinsics over the hardware: the
    class [PortIO] over an abstract world.  An out parameter that is written
    exactly when a routine returns 1 is returned as an option. *)
From Stdlib Require Import ZArith Lia.
From stdpp Require Import base gmap list.
From S2P Require Import Prelude Surface Pixel Assets Cursor Pointer.
#[local] Open Scope Z_scope.

(* ------------------------------------------------------------------ *)
(** ** Data *)

(** The two port intrinsics. *)
Class PortIO (World : Type) : Type := {
  inbyte : Z -> World -> Z * World;
  outbyte : Z -> Z -> World -> World;
}.

(** A port read is a byte. *)
Class PortIOWf (World : Type) `{PortIO World} : Prop :=
  inbyte_u8 : forall port w, is_u8 (inbyte port w).1.

Record PS2_MOUSE_STATE : Type := mkMouse {
  Enabled : Z;
  PacketIndex : Z;
  MouseLeftButtonDown : Z;
  Reserved : Z;
  Packet : list Z;
  LastDeltaX : Z;
  LastDeltaY : Z;
  PacketCount : Z;
}.

Definition set_Enabled (s : PS2_MOUSE_STATE) (v : Z) : PS2_MOUSE_STATE :=
  mkMouse v (PacketIndex s) (MouseLeftButtonDown s) (Reserved s) (Packet s)
    (LastDeltaX s) (LastDeltaY s) (PacketCount s).

Definition set_packet (s : PS2_MOUSE_STATE) (index : Z) (packet : list Z) : PS2_MOUSE_STATE :=
  mkMouse (Enabled s) index (MouseLeftButtonDown s) (Reserved s) packet
    (LastDeltaX s) (LastDeltaY s) (PacketCount s).

Definition set_delta (s : PS2_MOUSE_STATE) (x y : Z) : PS2_MOUSE_STATE :=
  mkMouse (Enabled s) (PacketIndex s) (MouseLeftButtonDown s) (Reserved s) (Packet s)
    x y (PacketCount s).

Definition set_PacketCount (s : PS2_MOUSE_STATE) (n : Z) : PS2_MOUSE_STATE :=
  mkMouse (Enabled s) (PacketIndex s) (MouseLeftButtonDown s) (Reserved s) (Packet s)
    (LastDeltaX s) (LastDeltaY s) n.

(** The locals of the packet loop. *)
Record Ps2Totals : Type := mkTotals {
  totalDeltaX : Z;
  totalDeltaY : Z;
  packetCount : Z;
  leftButtonDown : Z;
}.

(* ------------------------------------------------------------------ *)
(** ** Operations *)

(** The loop only burns time. *)
Definition BusyPause (iterations : Z) : outcome unit :=
  for_count iterations (fun _ u => Done u) tt.

Section ps2.
Context {World : Type} `{PortIO World}.

Fixpoint Ps2WaitForInputClear_loop (attempts : nat) (w : World) : outcome (Z * World) :=
  match attempts with
  | O => Done (0, w)
  | S attempts =>
    let '(status, w) := inbyte 100 w in
    if Z.land status 2 =? 0 then Done (1, w)
    else _ ← BusyPause 32; Ps2WaitForInputClear_loop attempts w
  end.

Definition Ps2WaitForInputClear (w : World) : outcome (Z * World) :=
  Ps2WaitForInputClear_loop (Z.to_nat 100000) w.

Fixpoint Ps2WaitForOutputByte_loop (attempts : nat) (requireMouseData : Z) (w : World)
    : outcome (option Z * World) :=
  match attempts with
  | O => Done (None, w)
  | S attempts =>
    let '(status, w) := inbyte 100 w in
    if negb (Z.land status 1 =? 0) then
      let '(data, w) := inbyte 96 w in
      if ((requireMouseData =? 0) || negb (Z.land status 32 =? 0))%bool then Done (Some data, w)
      else _ ← BusyPause 32; Ps2WaitForOutputByte_loop attempts requireMouseData w
    else _ ← BusyPause 32; Ps2WaitForOutputByte_loop attempts requireMouseData w
  end.

Definition Ps2WaitForOutputByte (requireMouseData : Z) (w : World) : outcome (option Z * World) :=
  Ps2WaitForOutputByte_loop (Z.to_nat 100000) requireMouseData w.

(** The byte and whether it is mouse data. *)
Definition Ps2TryReadByte (w : World) : option (Z * Z) * World :=
  let '(status, w) := inbyte 100 w in
  if Z.land status 1 =? 0 then (None, w)
  else
    let '(data, w) := inbyte 96 w in
    (Some (data, u8 (if negb (Z.land status 32 =? 0) then 1 else 0)), w).

Fixpoint Ps2FlushOutputBuffer_loop (count : nat) (w : World) : outcome World :=
  match count with
  | O => Done w
  | S count =>
    let '(status, w) := inbyte 100 w in
    if Z.land status 1 =? 0 then Done w
    else
      let '(_, w) := inbyte 96 w in
      _ ← BusyPause 16; Ps2FlushOutputBuffer_loop count w
  end.

Definition Ps2FlushOutputBuffer (w : World) : outcome World := Ps2FlushOutputBuffer_loop 64 w.

Definition Ps2WriteControllerCommand (command : Z) (w : World) : outcome (Z * World) :=
  '(clear, w) ← Ps2WaitForInputClear w;
  if clear =? 0 then Done (0, w) else Done (1, outbyte 100 command w).

Definition Ps2WriteControllerData (value : Z) (w : World) : outcome (Z * World) :=
  '(clear, w) ← Ps2WaitForInputClear w;
  if clear =? 0 then Done (0, w) else Done (1, outbyte 96 value w).

Definition Ps2WriteMouseCommand (command : Z) (w : World) : outcome (Z * World) :=
  '(ok, w) ← Ps2WriteControllerCommand 212 w;
  if ok =? 0 then Done (0, w)
  else
    '(ok, w) ← Ps2WriteControllerData command w;
    if ok =? 0 then Done (0, w) else Done (1, w).

(** [mouseState] is never [NULL]; the old contents of [Packet] stay. *)
Definition InitializePs2Mouse (mouseState : PS2_MOUSE_STATE) (w : World)
    : outcome (Z * PS2_MOUSE_STATE * World) :=
  let mouseState := mkMouse 0 0 0 0 (Packet mouseState) 0 0 0 in
  w ← Ps2FlushOutputBuffer w;
  '(ok, w) ← Ps2WriteControllerCommand 168 w;
  if ok =? 0 then Done (0, mouseState, w) else
  '(ok, w) ← Ps2WriteControllerCommand 32 w;
  if ok =? 0 then Done (0, mouseState, w) else
  '(controllerConfig, w) ← Ps2WaitForOutputByte 0 w;
  match controllerConfig with
  | None => Done (0, mouseState, w)
  | Some controllerConfig =>
    let controllerConfig := u8 (Z.lor controllerConfig 2) in
    let controllerConfig := u8 (Z.land controllerConfig 223) in
    '(ok, w) ← Ps2WriteControllerCommand 96 w;
    if ok =? 0 then Done (0, mouseState, w) else
    '(ok, w) ← Ps2WriteControllerData controllerConfig w;
    if ok =? 0 then Done (0, mouseState, w) else
    w ← Ps2FlushOutputBuffer w;
    '(ok, w) ← Ps2WriteMouseCommand 246 w;
    if ok =? 0 then Done (0, mouseState, w) else
    '(acknowledge, w) ← Ps2WaitForOutputByte 1 w;
    if negb (from_option (fun a => a =? 250) false acknowledge) then Done (0, mouseState, w) else
    '(ok, w) ← Ps2WriteMouseCommand 244 w;
    if ok =? 0 then Done (0, mouseState, w) else
    '(acknowledge, w) ← Ps2WaitForOutputByte 1 w;
    if negb (from_option (fun a => a =? 250) false acknowledge) then Done (0, mouseState, w) else
    Done (1, set_Enabled mouseState 1, w)
  end.

(** What the packet loop does with one byte of mouse data. *)
Definition Ps2Mouse_byte (data : Z) (mouseState : PS2_MOUSE_STATE) (t : Ps2Totals)
    : outcome (PS2_MOUSE_STATE * Ps2Totals) :=
  if ((PacketIndex mouseState =? 0) && (Z.land data 8 =? 0))%bool then Done (mouseState, t)
  else
    packet ← wr (Packet mouseState) (PacketIndex mouseState) data;
    let mouseState := set_packet mouseState (u8 (PacketIndex mouseState + 1)) packet in
    if PacketIndex mouseState <? 3 then Done (mouseState, t)
    else
      let mouseState := set_packet mouseState 0 (Packet mouseState) in
      p0 ← rd (Packet mouseState) 0;
      let left := u8 (if negb (Z.land p0 1 =? 0) then 1 else 0) in
      if negb (Z.land p0 192 =? 0) then
        Done (mouseState, mkTotals (totalDeltaX t) (totalDeltaY t) (packetCount t) left)
      else
        p1 ← rd (Packet mouseState) 1;
        p2 ← rd (Packet mouseState) 2;
        Done (mouseState, mkTotals (i32 (totalDeltaX t + i8 p1)) (i32 (totalDeltaY t + i8 p2))
                            (u32 (packetCount t + 1)) left).

(** [while (readCount < 96)].  A round that completes no packet goes on;
    one that counts the 32nd breaks. *)
Fixpoint Ps2Mouse_loop (fuel : nat) (readCount : Z) (mouseState : PS2_MOUSE_STATE) (t : Ps2Totals)
    (w : World) : outcome (PS2_MOUSE_STATE * Ps2Totals * World) :=
  match fuel with
  | O => Fault Diverges
  | S fuel =>
    if 96 <=? readCount then Done (mouseState, t, w)
    else
      match Ps2TryReadByte w with
      | (None, w) => Done (mouseState, t, w)
      | (Some (data, isMouseData), w) =>
        let readCount := u32 (readCount + 1) in
        if isMouseData =? 0 then Ps2Mouse_loop fuel readCount mouseState t w
        else
          '(mouseState, t') ← Ps2Mouse_byte data mouseState t;
          if (negb (packetCount t' =? packetCount t) && (32 <=? packetCount t'))%bool
          then Done (mouseState, t', w)
          else Ps2Mouse_loop fuel readCount mouseState t' w
      end
  end.

(** After the loop: the totals move the cursor. *)
Definition Ps2Mouse_move `{Assets} (mouseState : PS2_MOUSE_STATE) (cursor : SOFTWARE_CURSOR)
    (fb : FRAMEBUFFER_INFO) (t : Ps2Totals) : Z * PS2_MOUSE_STATE * SOFTWARE_CURSOR :=
  let cursor := set_LeftButtonDown cursor (leftButtonDown t) in
  let cursor := set_LastPollCount cursor (packetCount t) in
  if packetCount t =? 0 then (0, mouseState, cursor)
  else
    let cursor := set_raw cursor (ClampI32 (totalDeltaX t) (-9999) 9999)
                    (ClampI32 (totalDeltaY t) (-9999) 9999) in
    if ((totalDeltaX t =? 0) && (totalDeltaY t =? 0))%bool then
      (1, mouseState, set_last_pixel cursor 0 0)
    else
      let mouseState := set_delta mouseState
        (ApplyMouseAcceleration (i32 (ClampI32 (totalDeltaX t) (-64) 64 * Z.quot FIXED_PIXEL_ONE 2)))
        (ApplyMouseAcceleration
           (i32 (ClampI32 (i32 (- totalDeltaY t)) (-64) 64 * Z.quot FIXED_PIXEL_ONE 2))) in
      let AccX := accumulate (AccumX cursor) (LastDeltaX mouseState) in
      let AccY := accumulate (AccumY cursor) (LastDeltaY mouseState) in
      let cursor := set_last_pixel cursor (Z.quot AccX FIXED_PIXEL_ONE)
                      (Z.quot AccY FIXED_PIXEL_ONE) in
      let cursor := set_accum cursor (i32 (AccX - LastPixelX cursor * FIXED_PIXEL_ONE))
                      (i32 (AccY - LastPixelY cursor * FIXED_PIXEL_ONE)) in
      let cursor :=
        if (negb (LastPixelX cursor =? 0) || negb (LastPixelY cursor =? 0))%bool then
          set_position cursor
            (ClampCursorX (i32 (i32 (CursorX cursor) + LastPixelX cursor)) fb)
            (ClampCursorY (i32 (i32 (CursorY cursor) + LastPixelY cursor)) fb)
        else cursor in
      let mouseState := set_PacketCount mouseState (u32 (PacketCount mouseState + packetCount t)) in
      (1, mouseState, cursor).

(** The pointers are never [NULL] in a call. *)
Definition UpdateCursorFromPs2Mouse `{Assets} (mouseState : PS2_MOUSE_STATE)
    (cursor : SOFTWARE_CURSOR) (fb : FRAMEBUFFER_INFO) (w : World)
    : outcome (Z * PS2_MOUSE_STATE * SOFTWARE_CURSOR * World) :=
  if Enabled mouseState =? 0 then Done (0, mouseState, cursor, w)
  else
    '(mouseState, t, w) ←
      Ps2Mouse_loop 97 0 mouseState (mkTotals 0 0 0 (LeftButtonDown cursor)) w;
    Done (Ps2Mouse_move mouseState cursor fb t, w).
End ps2.

(* ------------------------------------------------------------------ *)
(** ** Specification vocabulary *)

(** The driver's state between bytes: less than a whole packet is
    buffered, and a buffered packet starts with a byte that has bit 3. *)
Record mouse_ok (s : PS2_MOUSE_STATE) : Prop := {
  mouse_index : 0 <= PacketIndex s < 3;
  mouse_len : length (Packet s) = 4%nat;
  mouse_bytes : bytes (Packet s);
  mouse_sync : PacketIndex s <> 0 -> exists b, Packet s !! 0%nat = Some b /\ Z.testbit b 3 = true;
  mouse_count : is_u32 (PacketCount s);
}.

(** The bytes of the packet being assembled. *)
Definition pending (s : PS2_MOUSE_STATE) : list Z := take (Z.to_nat (PacketIndex s)) (Packet s).

(** The protocol: a packet is three bytes, the first with bit 3 set; a
    byte without it between packets is noise.  The packets of a stream, and
    the incomplete packet at its end. *)
Fixpoint frames (l : list Z) : list (Z * Z * Z) * list Z :=
  match l with
  | [] => ([], [])
  | b0 :: l1 =>
    if Z.testbit b0 3 then
      match l1 with
      | b1 :: b2 :: l3 => let '(fs, rest) := frames l3 in ((b0, b1, b2) :: fs, rest)
      | _ => ([], l)
      end
    else frames l1
  end.

(** A packet whose overflow bits are clear counts. *)
Definition counts (f : Z * Z * Z) : bool := Z.land f.1.1 192 =? 0.

(** The totals after a packet. *)
Definition add_frame (t : Ps2Totals) (f : Z * Z * Z) : Ps2Totals :=
  let left := if Z.testbit f.1.1 0 then 1 else 0 in
  if counts f
  then mkTotals (totalDeltaX t + i8 f.1.2) (totalDeltaY t + i8 f.2) (packetCount t + 1) left
  else mkTotals (totalDeltaX t) (totalDeltaY t) (packetCount t) left.

(** The code's step over a list of bytes of mouse data. *)
Fixpoint feed (bs : list Z) (s : PS2_MOUSE_STATE) (t : Ps2Totals)
    : outcome (PS2_MOUSE_STATE * Ps2Totals) :=
  match bs with
  | [] => Done (s, t)
  | b :: bs => '(s, t) ← Ps2Mouse_byte b s t; feed bs s t
  end.

(** The dialogue with the controller: each time the status port has bit 0 set,
    and then a byte at the data port; the pairs of both. *)
Inductive polled {World : Type} `{PortIO World} : World -> list (Z * Z) -> World -> Prop :=
| polled_nil w : polled w [] w
| polled_cons st data w w1 w2 l w' : inbyte 100 w = (st, w1) -> Z.testbit st 0 = true -> inbyte 96 w1 = (data, w2) ->
    polled w2 l w' -> polled w ((st, data) :: l) w'.

(** The bytes that came from the mouse: those with bit 5 in the status. *)
Definition mouse_data (l : list (Z * Z)) : list Z := (filter (fun p => Z.testbit p.1 5 = true) l).*2.

(** What is read from the ports in one call, of which [bs] came from the mouse:
    everything there is, but no more than 96 bytes, and no more than 32 packets
    that count; [t] are the totals after it. *)
Definition heard {World : Type} `{PortIO World} (w : World) (bs : list Z) (t : Ps2Totals) (w' : World) : Prop :=
  exists l w1, polled w l w1 /\ bs = mouse_data l /\ Z.of_nat (length l) <= 96 /\ packetCount t <= 32 /\
    ((exists st, inbyte 100 w1 = (st, w') /\ Z.testbit st 0 = false) \/
     (w' = w1 /\ (Z.of_nat (length l) = 96 \/ packetCount t = 32))).

(** Totals that [n] more packets cannot overflow. *)
Definition totals_small (n : Z) (t : Ps2Totals) : Prop :=
  Z.abs (totalDeltaX t) + 128 * n < 2147483648 /\
  Z.abs (totalDeltaY t) + 128 * n < 2147483648 /\
  0 <= packetCount t /\ packetCount t + n < 4294967296.

(* ------------------------------------------------------------------ *)
(** ** Lemmas: the packet decoder *)

(** A test of one bit. *)
Lemma land_bit b k : 0 <= k -> (Z.land b (2 ^ k) =? 0) = negb (Z.testbit b k).
Proof.
  intros Hk. destruct (Z.testbit b k) eqn:E.
  - apply Z.eqb_neq. intros H0. apply (f_equal (fun z => Z.testbit z k)) in H0.
    by rewrite Z.land_spec, E, Z.pow2_bits_true, Z.bits_0 in H0.
  - apply Z.eqb_eq. apply Z.bits_inj'. intros n Hn. rewrite Z.land_spec, Z.bits_0, Z.pow2_bits_eqb by done.
    destruct (Z.eqb_spec k n) as [<-|]; [by rewrite E|apply andb_false_r].
Qed.

Lemma land8_bit b : (Z.land b 8 =? 0) = negb (Z.testbit b 3).
Proof. by apply (land_bit b 3). Qed.

Lemma take_S_wr (l : list Z) i b : (i < length l)%nat ->
  take (S i) (<[i := b]> l) = take i l ++ [b].
Proof.
  intros Hi. rewrite (take_S_r _ i b) by (by apply list_lookup_insert_eq).
  by rewrite take_insert_ge by lia.
Qed.

(** A byte that is stored extends the pending bytes; the first byte has the
    synchronisation bit. *)
Lemma packet_written b s : mouse_ok s -> is_u8 b ->
  ((PacketIndex s =? 0) && negb (Z.testbit b 3))%bool = false ->
  let p := <[Z.to_nat (PacketIndex s) := b]> (Packet s) in
  length p = 4%nat /\ bytes p /\ take (Z.to_nat (PacketIndex s + 1)) p = pending s ++ [b] /\
  exists b0, p !! 0%nat = Some b0 /\ Z.testbit b0 3 = true.
Proof.
  intros [Hi Hl Hbs Hsync _] Hb E p. subst p. split_and!.
  - by rewrite length_insert.
  - by apply Forall_insert.
  - replace (Z.to_nat (PacketIndex s + 1)) with (S (Z.to_nat (PacketIndex s))) by lia.
    apply take_S_wr. lia.
  - destruct (Z.eqb_spec (PacketIndex s) 0) as [E0|E0].
    + exists b. rewrite E0 in *. cbn [Z.to_nat]. rewrite list_lookup_insert_eq by lia.
      split; [done|]. by destruct (Z.testbit b 3).
    + destruct (Hsync E0) as (b0 & ? & ?). exists b0.
      by rewrite list_lookup_insert_ne by lia.
Qed.

(** One byte takes the pending bytes and the totals to those of the
    stream with the byte. *)
Lemma Ps2Mouse_byte_spec b s t : mouse_ok s -> is_u8 b -> totals_small 1 t ->
  exists s' t', Ps2Mouse_byte b s t = Done (s', t') /\ mouse_ok s' /\
    forall bs,
      (frames (pending s ++ b :: bs) = frames (pending s' ++ bs) /\ t' = t) \/
      (exists f, frames (pending s ++ b :: bs) =
         (f :: (frames (pending s' ++ bs)).1, (frames (pending s' ++ bs)).2) /\
       pending s' = [] /\ t' = add_frame t f).
Proof.
  intros Hok Hb (Hx & Hy & Hc0 & Hc). pose proof Hok as [Hi Hl Hbs Hsync Hcnt].
  unfold Ps2Mouse_byte. rewrite land8_bit.
  destruct ((PacketIndex s =? 0) && negb (Z.testbit b 3))%bool eqn:E.
  { apply andb_prop in E as [E1%Z.eqb_eq E2%negb_true_iff].
    exists s, t. split; [done|]. split; [done|]. intros bs. left. split; [|done].
    unfold pending. rewrite E1. change (frames (b :: bs) = frames bs). cbn [frames]. by rewrite E2. }
  rewrite wr_done by lia. mred.
  destruct (packet_written b s Hok Hb E) as (Hlp & Hbp & Htake & b0 & Hb0 & Hb3).
  set (p := <[Z.to_nat (PacketIndex s) := b]> (Packet s)) in *.
  rewrite u8_id by lia. cbn [PacketIndex set_packet].
  destruct (Z.ltb_spec (PacketIndex s + 1) 3) as [Hlt|Hge].
  - do 2 eexists. split; [done|]. split; [split; cbn; eauto; lia|].
    intros bs. left. split; [|done]. unfold pending at 2. cbn [PacketIndex Packet set_packet].
    by rewrite Htake, <- app_assoc.
  - assert (PacketIndex s + 1 = 3) as E3 by lia. rewrite E3 in Htake. cbn [Packet set_packet].
    clearbody p. destruct p as [|q0 [|q1 [|q2 [|q3 [|]]]]]; try done.
    cbn [Z.to_nat Pos.to_nat] in Htake. change (take (Z.to_nat 3) _) with [q0; q1; q2] in Htake.
    injection Hb0 as ->.
    assert (forall bs, pending s ++ b :: bs = b0 :: q1 :: q2 :: bs) as Hpend.
    { intros bs. replace (b :: bs) with ([b] ++ bs) by done. by rewrite app_assoc, <- Htake. }
    set (s' := set_packet _ 0 _).
    assert (mouse_ok s') as Hok' by (by split).
    assert (forall bs, frames (pending s ++ b :: bs) =
      ((b0, q1, q2) :: (frames (pending s' ++ bs)).1, (frames (pending s' ++ bs)).2)) as Hf.
    { intros bs. rewrite Hpend. cbn [frames]. rewrite Hb3.
      change (pending s' ++ bs) with bs. by destruct (frames bs). }
    change (rd [b0; q1; q2; q3] 0) with (Done b0). change (rd [b0; q1; q2; q3] 1) with (Done q1).
    change (rd [b0; q1; q2; q3] 2) with (Done q2). mred.
    assert (u8 (if negb (Z.land b0 1 =? 0) then 1 else 0) = if Z.testbit b0 0 then 1 else 0) as ->
      by (rewrite odd_bit, negb_involutive; by destruct (Z.testbit b0 0)).
    destruct (Z.land b0 192 =? 0) eqn:Ec; cbn [negb].
    + exists s'. eexists. split; [done|]. split; [done|]. intros bs. right.
      exists (b0, q1, q2). split; [done|]. split; [done|].
      pose proof (i8_range q1). pose proof (i8_range q2).
      unfold add_frame, counts. cbn [fst snd]. rewrite Ec.
      rewrite !i32_id, u32_id by lia. done.
    + exists s'. eexists. split; [done|]. split; [done|]. intros bs. right.
      exists (b0, q1, q2). split; [done|]. split; [done|].
      unfold add_frame, counts. cbn [fst snd]. by rewrite Ec.
Qed.

Lemma add_frame_small n t f : totals_small (n + 1) t -> totals_small n (add_frame t f).
Proof.
  unfold totals_small, add_frame. intros (Hx & Hy & Hc0 & Hc).
  pose proof (i8_range f.1.2). pose proof (i8_range f.2).
  destruct (counts f); cbn; lia.
Qed.

(** Fed any bytes, in any number of calls, the decoder finds exactly the
    packets of the stream. *)
Lemma feed_frames bs s t : mouse_ok s -> bytes bs -> totals_small (Z.of_nat (length bs)) t ->
  exists s', feed bs s t = Done (s', foldl add_frame t (frames (pending s ++ bs)).1) /\
    mouse_ok s' /\ pending s' = (frames (pending s ++ bs)).2.
Proof.
  revert s t. induction bs as [|b bs IH]; intros s t Hok Hbs Hsm; cbn [feed].
  - assert (frames (pending s ++ []) = ([], pending s)) as ->; [|by exists s].
    rewrite app_nil_r. pose proof Hok as [Hi Hl _ Hsync _]. unfold pending.
    destruct (Packet s) as [|q0 [|q1 [|q2 [|q3 [|]]]]]; try done.
    destruct (decide (PacketIndex s = 0)) as [->|E0]; [done|].
    destruct (Hsync E0) as (b & [= <-] & Hb).
    assert (PacketIndex s = 1 \/ PacketIndex s = 2) as [E|E] by lia; rewrite E.
    + change (frames [q0] = ([], [q0])). cbn [frames]. by rewrite Hb.
    + change (frames [q0; q1] = ([], [q0; q1])). cbn [frames]. by rewrite Hb.
  - apply Forall_cons in Hbs as [Hb Hbs]. cbn [length] in Hsm.
    destruct (Ps2Mouse_byte_spec b s t) as (s1 & t1 & E & Hok1 & Hst);
      [done|done|unfold totals_small in *; lia|].
    rewrite E. mred. destruct (Hst bs) as [[E1 E2]|(f & E1 & _ & E2)]; rewrite E1, E2; cbn [fst snd foldl].
    + apply IH; [done|done|unfold totals_small in *; lia].
    + apply IH; [done|done|]. apply add_frame_small.
      replace (Z.of_nat (length bs) + 1) with (Z.of_nat (S (length bs))) by lia. done.
Qed.

Lemma feed_Enabled bs s t s' t' : feed bs s t = Done (s', t') -> Enabled s' = Enabled s.
Proof.
  revert s t. induction bs as [|b bs IH]; intros s t; cbn [feed]; [by intros [= <- _]|].
  intros ([s1 t1] & E & Hf)%bind_done. rewrite (IH _ _ Hf). clear IH Hf.
  unfold Ps2Mouse_byte in E. destruct (_ && _)%bool; [by injection E as <- _|].
  apply bind_done in E as (p & _ & E). cbn zeta in E. destruct (_ <? 3); [by injection E as <- _|].
  apply bind_done in E as (p0 & _ & E). destruct (negb _); [by injection E as <- _|].
  apply bind_done in E as (p1 & _ & E). apply bind_done in E as (p2 & _ & E).
  by injection E as <- _.
Qed.

(** Totals of at most 32 packets. *)
Record totals_ok (t : Ps2Totals) : Prop := {
  totals_count : 0 <= packetCount t <= 32;
  totals_x : Z.abs (totalDeltaX t) <= 128 * packetCount t;
  totals_y : Z.abs (totalDeltaY t) <= 128 * packetCount t;
}.

Lemma totals_ok_small t : totals_ok t -> totals_small 1 t.
Proof. intros []. unfold totals_small. lia. Qed.

Lemma add_frame_ok t f : totals_ok t -> packetCount t < 32 -> totals_ok (add_frame t f).
Proof.
  intros [] Hc. pose proof (i8_range f.1.2). pose proof (i8_range f.2).
  unfold add_frame. destruct (counts f); split; cbn; lia.
Qed.

(* ------------------------------------------------------------------ *)
(** ** Lemmas: the driver *)

Section ps2_spec.
Context {World : Type} `{PortIO World, !PortIOWf World}.
Implicit Types w : World.

(** One poll. *)
Lemma Ps2TryReadByte_polls w : exists st w1, inbyte 100 w = (st, w1) /\
  if Z.testbit st 0 then exists data w2, inbyte 96 w1 = (data, w2) /\ is_u8 data /\
    Ps2TryReadByte w = (Some (data, if Z.testbit st 5 then 1 else 0), w2)
  else Ps2TryReadByte w = (None, w1).
Proof.
  unfold Ps2TryReadByte. destruct (inbyte 100 w) as [st w1]. exists st, w1. split; [done|].
  change (Z.land st 1) with (Z.land st (2 ^ 0)). change (Z.land st 32) with (Z.land st (2 ^ 5)). rewrite !land_bit by lia. destruct (Z.testbit st 0); cbn [negb]; [|done].
  pose proof (inbyte_u8 96 w1). destruct (inbyte 96 w1) as [d w2]. exists d, w2. split; [done|]. split; [done|].
  by destruct (Z.testbit st 5).
Qed.

(** The loop ends, within its bounds, having fed the decoder the bytes of
    mouse data it read. *)
Lemma Ps2Mouse_loop_spec fuel rc s t w :
  mouse_ok s -> totals_ok t -> packetCount t < 32 -> 0 <= rc <= 96 -> 96 - rc < Z.of_nat fuel ->
  exists l w1 s' t' w', Ps2Mouse_loop fuel rc s t w = Done (s', t', w') /\
    polled w l w1 /\ bytes (mouse_data l) /\ Z.of_nat (length l) <= 96 - rc /\
    feed (mouse_data l) s t = Done (s', t') /\
    ((exists st, inbyte 100 w1 = (st, w') /\ Z.testbit st 0 = false) \/
     (w' = w1 /\ (Z.of_nat (length l) = 96 - rc \/ packetCount t' = 32))) /\
    mouse_ok s' /\ totals_ok t'.
Proof.
  revert rc s t w. induction fuel as [|fuel IH]; intros rc s t w Hs Ht Hc Hrc Hf; [lia|].
  cbn [Ps2Mouse_loop]. destruct (Z.leb_spec 96 rc).
  { exists [], w, s, t, w. split_and!; try done; [constructor|constructor|cbn; lia|right; split; [done|left; cbn; lia]]. }
  destruct (Ps2TryReadByte_polls w) as (st & w1 & Hst & Hpoll). destruct (Z.testbit st 0) eqn:Hst0.
  2:{ rewrite Hpoll. exists [], w, s, t, w1. split_and!; try done; [constructor|constructor|cbn; lia|left; by exists st]. }
  destruct Hpoll as (data & w2 & Hdata & Hd & ->). cbn zeta. rewrite u32_id by lia.
  destruct (Z.testbit st 5) eqn:H5; cbn [Z.eqb].
  2:{ destruct (IH (rc + 1) s t w2) as (l & w3 & s' & t' & w' & E & Hp & Hbs & Hlen & Hfd & Hend & Hrest);
        try done; try lia.
      assert (mouse_data ((st, data) :: l) = mouse_data l) as Hm
        by (unfold mouse_data; by rewrite filter_cons, decide_False by (intros Hx; change (Z.testbit st 5 = true) in Hx; congruence)).
      exists ((st, data) :: l), w3, s', t', w'. rewrite Hm. split_and!; try apply Hrest; try done.
      - by eapply polled_cons.
      - cbn [length]. lia.
      - destruct Hend as [?|[? [?|?]]]; [by left|right; split; [done|left; cbn [length]; lia]|right; split; [done|by right]]. }
  assert (forall l, mouse_data ((st, data) :: l) = data :: mouse_data l) as Hm
    by (intros l; unfold mouse_data; by rewrite filter_cons, decide_True by done).
  destruct (Ps2Mouse_byte_spec data s t Hs Hd (totals_ok_small t Ht)) as (s1 & t1 & E1 & Hs1 & Hst1).
  rewrite E1. mred.
  assert (totals_ok t1) as Ht1.
  { destruct (Hst1 []) as [[_ ->]|(f & _ & _ & ->)]; [done|by apply add_frame_ok]. }
  destruct (negb (packetCount t1 =? packetCount t) && (32 <=? packetCount t1))%bool eqn:Eb.
  - exists [(st, data)], w2, s1, t1, w2. rewrite Hm. change (mouse_data []) with (@nil Z). split_and!; try done.
    + eapply polled_cons; [done..|constructor].
    + by apply Forall_singleton.
    + cbn. lia.
    + cbn [feed]. by rewrite E1.
    + right. split; [done|]. right. pose proof (totals_count t1 Ht1).
      rewrite andb_true_iff, Z.leb_le in Eb. lia.
  - assert (packetCount t1 < 32) as Hc1.
    { rewrite andb_false_iff, negb_false_iff, Z.eqb_eq, Z.leb_gt in Eb. lia. }
    destruct (IH (rc + 1) s1 t1 w2) as (l & w3 & s' & t' & w' & E & Hp & Hbs & Hlen & Hfeed & Hend & Hs' & Ht');
      try done; try lia.
    exists ((st, data) :: l), w3, s', t', w'. rewrite Hm. split_and!; try done.
    + by eapply polled_cons.
    + by constructor.
    + cbn [length]. lia.
    + cbn [feed]. by rewrite E1.
    + destruct Hend as [?|[? [?|?]]]; [by left|right; split; [done|left; cbn [length]; lia]|right; split; [done|by right]].
Qed.

(** What one call of the driver does to the cursor, from the packets it
    completed. *)
Definition driven `{Assets} (fb : FRAMEBUFFER_INFO) (c c' : SOFTWARE_CURSOR) (t : Ps2Totals)
    (r : Z) : Prop :=
  LeftButtonDown c' = leftButtonDown t /\ LastPollCount c' = packetCount t /\
  if packetCount t =? 0 then r = 0 /\ CursorX c' = CursorX c /\ CursorY c' = CursorY c /\
                             AccumX c' = AccumX c /\ AccumY c' = AccumY c
  else r = 1 /\ LastRawX c' = totalDeltaX t /\ LastRawY c' = totalDeltaY t /\
    moved_to fb c c' (LastPixelX c') (LastPixelY c') /\
    LastPixelX c' * 256 + AccumX c' =
      Z.max (-16384) (Z.min (AccumX c + accel (128 * Z.max (-64) (Z.min (totalDeltaX t) 64))) 16384) /\
    LastPixelY c' * 256 + AccumY c' =
      Z.max (-16384) (Z.min (AccumY c + accel (128 * Z.max (-64) (Z.min (- totalDeltaY t) 64))) 16384).

Lemma ps2_delta n : Z.abs n <= 4096 ->
  ApplyMouseAcceleration (i32 (ClampI32 n (-64) 64 * Z.quot FIXED_PIXEL_ONE 2)) =
  accel (128 * Z.max (-64) (Z.min n 64)) /\ Z.abs (accel (128 * Z.max (-64) (Z.min n 64))) <= 24576.
Proof.
  intros Hn. rewrite ClampI32_spec by lia. change (FIXED_PIXEL_ONE ÷ 2) with 128.
  rewrite i32_id by lia. rewrite ApplyMouseAcceleration_spec by lia.
  rewrite (Z.mul_comm 128). split; [done|].
  pose proof (accel_bound (Z.max (-64) (Z.min n 64) * 128)). lia.
Qed.

(** Totals that move the cursor: the accumulators and the place. *)
Lemma Ps2Mouse_move_spec `{A : Assets, !AssetsWf A} s c fb t : fb_wf fb -> modest fb ->
  pointer_ok fb c -> mouse_ok s -> totals_ok t ->
  exists r s' c', Ps2Mouse_move s c fb t = (r, s', c') /\ mouse_ok s' /\ pointer_ok fb c' /\
    same_image c c' /\ Enabled s' = Enabled s /\ pending s' = pending s /\ driven fb c c' t r.
Proof.
  intros Hfb Hmod Hok Hs [Htc Htx Hty]. unfold Ps2Mouse_move. cbn zeta.
  pose proof Hok as [HX HY HaX HaY]. unfold driven.
  destruct (packetCount t =? 0) eqn:Ec; [do 3 eexists; by split_and!|].
  rewrite (ClampI32_spec (totalDeltaX t) (-9999)), (ClampI32_spec (totalDeltaY t) (-9999)) by lia.
  assert (Z.max (-9999) (Z.min (totalDeltaX t) 9999) = totalDeltaX t /\
    Z.max (-9999) (Z.min (totalDeltaY t) 9999) = totalDeltaY t) as [-> ->] by lia.
  destruct ((totalDeltaX t =? 0) && (totalDeltaY t =? 0))%bool eqn:E0.
  { apply andb_prop in E0 as [E1%Z.eqb_eq E2%Z.eqb_eq].
    rewrite E1, E2. change (accel (128 * Z.max (-64) (Z.min 0 64))) with 0.
    change (accel (128 * Z.max (-64) (Z.min (- 0) 64))) with 0.
    do 3 eexists. split; [done|]. split_and!; try done; [unfold moved_to; cbn -[Z.min Z.max]; lia|cbn -[Z.min Z.max]; lia..]. }
  destruct (ps2_delta (totalDeltaX t) ltac:(lia)) as [EdX HdX].
  destruct (ps2_delta (- totalDeltaY t) ltac:(lia)) as [EdY HdY].
  rewrite (i32_id (- totalDeltaY t)) by lia.
  cbn [LastDeltaX LastDeltaY set_delta AccumX AccumY set_raw set_LastPollCount set_LeftButtonDown].
  rewrite EdX, EdY.
  set (dx := accel (128 * Z.max (-64) (Z.min (totalDeltaX t) 64))) in *.
  set (dy := accel (128 * Z.max (-64) (Z.min (- totalDeltaY t) 64))) in *.
  destruct (accumulate_spec (AccumX c) dx) as (EAx & Hqx & Erx & Hrx); [done|lia|].
  destruct (accumulate_spec (AccumY c) dy) as (EAy & Hqy & Ery & Hry); [done|lia|].
  set (qx := accumulate (AccumX c) dx ÷ FIXED_PIXEL_ONE) in *.
  set (qy := accumulate (AccumY c) dy ÷ FIXED_PIXEL_ONE) in *.
  cbn [LastPixelX LastPixelY set_last_pixel set_accum CursorX CursorY set_raw set_LastPollCount
    set_LeftButtonDown]. rewrite Erx, Ery.
  destruct (move_clamped fb c qx qy) as [Emx Emy]; [done..|]. rewrite Emx, Emy.
  do 3 eexists. split; [done|]. split; [destruct Hs; split; cbn; try done; apply u32_range|].
  assert (qx * 256 + (accumulate (AccumX c) dx - qx * 256) = Z.max (-16384) (Z.min (AccumX c + dx) 16384))
    as Ex by (etrans; [apply Zplus_minus|exact EAx]).
  assert (qy * 256 + (accumulate (AccumY c) dy - qy * 256) = Z.max (-16384) (Z.min (AccumY c + dy) 16384))
    as Ey by (etrans; [apply Zplus_minus|exact EAy]).
  destruct (negb (qx =? 0) || negb (qy =? 0))%bool eqn:Em.
  - split; [|by split_and!]. split; cbn [CursorX CursorY AccumX AccumY set_position set_accum];
      [clear -HX; lia|clear -HY; lia|exact Hrx|exact Hry].
  - rewrite orb_false_iff, !negb_false_iff, !Z.eqb_eq in Em. destruct Em as [Eqx Eqy].
    split; [by split|]. split_and!; try done. clear -HX HY Eqx Eqy. unfold moved_to. cbn -[Z.min Z.max]. lia.
Qed.

Lemma UpdateCursorFromPs2Mouse_spec `{A : Assets, !AssetsWf A} s c fb w :
  fb_wf fb -> modest fb -> pointer_ok fb c -> mouse_ok s -> Enabled s <> 0 ->
  exists r s' c' w' bs, UpdateCursorFromPs2Mouse s c fb w = Done (r, s', c', w') /\
    mouse_ok s' /\ pointer_ok fb c' /\ same_image c c' /\ Enabled s' = Enabled s /\
    let t := foldl add_frame (mkTotals 0 0 0 (LeftButtonDown c)) (frames (pending s ++ bs)).1 in
    heard w bs t w' /\ pending s' = (frames (pending s ++ bs)).2 /\ driven fb c c' t r.
Proof.
  intros Hfb Hmod Hok Hs Hen. unfold UpdateCursorFromPs2Mouse. apply Z.eqb_neq in Hen as Hen'.
  rewrite Hen'.
  destruct (Ps2Mouse_loop_spec 97 0 s (mkTotals 0 0 0 (LeftButtonDown c)) w)
    as (l & w0 & s1 & t & w1 & E & Hpol & Hbs & Hlen & Hfeed & Hend & Hs1 & Ht);
    [done|split; cbn; lia|cbn; lia|lia|lia|].
  rewrite E. mred. assert (Z.of_nat (length (mouse_data l)) <= 96) as Hlen'.
  { unfold mouse_data. rewrite length_fmap. pose proof (length_filter (fun p : Z * Z => Z.testbit p.1 5 = true) l). lia. }
  destruct (feed_frames (mouse_data l) s (mkTotals 0 0 0 (LeftButtonDown c))) as (s2 & Hf2 & _ & Hpend);
    [done|done|unfold totals_small; cbn; lia|].
  rewrite Hfeed in Hf2. apply Done_pair_inj in Hf2 as [<- ->].
  assert (Enabled s1 = Enabled s) as Hen1 by (by eapply feed_Enabled).
  destruct (Ps2Mouse_move_spec s1 c fb _ Hfb Hmod Hok Hs1 Ht) as (r & s' & c' & -> & ? & ? & ? & Hen2 & Hp2 & ?).
  exists r, s', c', w1, (mouse_data l). split; [done|]. split_and!; try done; [congruence| |congruence].
  exists l, w0. split; [done|]. split; [done|]. split; [lia|]. split; [apply Ht|done].
Qed.
End ps2_spec.

(* ------------------------------------------------------------------ *)
(** ** Lemmas: initialisation *)

(** The same ports, with a log of what is written to them. *)
Definition traced {World : Type} `{PortIO World} : PortIO (World * list (Z * Z)) := {|
  inbyte port w := let '(v, w') := inbyte port w.1 in (v, (w', w.2));
  outbyte port value w := (outbyte port value w.1, w.2 ++ [(port, value)]);
|}.

(** The writes of a complete initialisation: enable the auxiliary port,
    read the controller's configuration byte, write it back as [config],
    reset the mouse's defaults, switch streaming on. *)
Definition init_commands (config : Z) : list (Z * Z) :=
  [(100, 168); (100, 32); (100, 96); (96, config); (100, 212); (96, 246); (100, 212); (96, 244)].

Section init.
Context {World : Type} `{PortIO World, !PortIOWf World}.
#[local] Existing Instance traced.
Implicit Types (w : World) (log : list (Z * Z)).

Lemma BusyPause_done n : BusyPause n = Done tt.
Proof.
  unfold BusyPause. destruct (decide (0 <= n)) as [Hn|].
  - destruct (for_count_inv (fun _ _ => True) n (fun _ u => Done u) tt) as ([] & -> & _);
      [done|done| |done]. intros ? u _ _. by exists u.
  - apply for_count_le_0. lia.
Qed.

Lemma wait_input n w log : exists r w',
  Ps2WaitForInputClear_loop n (w, log) = Done (r, (w', log)) /\ (r = 0 \/ r = 1).
Proof.
  revert w. induction n as [|n IH]; intros w; cbn -[BusyPause Z.land].
  { do 2 eexists. split; [done|]. by left. }
  destruct (inbyte 100 w) as [s w1]. destruct (_ =? 0).
  { do 2 eexists. split; [done|]. by right. }
  rewrite BusyPause_done. mred. apply IH.
Qed.

Lemma wait_output n require w log : exists d w',
  Ps2WaitForOutputByte_loop n require (w, log) = Done (d, (w', log)) /\
  forall v, d = Some v -> is_u8 v.
Proof.
  revert w. induction n as [|n IH]; intros w; cbn -[BusyPause Z.land].
  { do 2 eexists. split; [done|]. done. }
  destruct (inbyte 100 w) as [s w1]. rewrite BusyPause_done. mred.
  destruct (negb _); [|apply IH]. cbn -[BusyPause Z.land].
  pose proof (inbyte_u8 96 w1) as Hd. destruct (inbyte 96 w1) as [d w2].
  destruct (_ || _)%bool; [|apply IH].
  do 2 eexists. split; [done|]. by intros v [= <-].
Qed.

Lemma flush n w log : exists w', Ps2FlushOutputBuffer_loop n (w, log) = Done (w', log).
Proof.
  revert w. induction n as [|n IH]; intros w; cbn -[BusyPause Z.land]; [by eexists|].
  destruct (inbyte 100 w) as [s w1]. destruct (_ =? 0); [by eexists|].
  cbn -[BusyPause Z.land]. destruct (inbyte 96 w1) as [d w2].
  rewrite BusyPause_done. mred. apply IH.
Qed.

(** A command is logged exactly when it is reported as written. *)
Lemma write_command c w log : exists r w',
  (Ps2WriteControllerCommand c (w, log) = Done (r, (w', log)) /\ r = 0) \/
  (Ps2WriteControllerCommand c (w, log) = Done (r, (w', log ++ [(100, c)])) /\ r = 1).
Proof.
  unfold Ps2WriteControllerCommand, Ps2WaitForInputClear.
  destruct (wait_input (Z.to_nat 100000) w log) as (r & w' & -> & [-> | ->]); mred; do 2 eexists;
    [left|right]; done.
Qed.

Lemma write_data v w log : exists r w',
  (Ps2WriteControllerData v (w, log) = Done (r, (w', log)) /\ r = 0) \/
  (Ps2WriteControllerData v (w, log) = Done (r, (w', log ++ [(96, v)])) /\ r = 1).
Proof.
  unfold Ps2WriteControllerData, Ps2WaitForInputClear.
  destruct (wait_input (Z.to_nat 100000) w log) as (r & w' & -> & [-> | ->]); mred; do 2 eexists;
    [left|right]; done.
Qed.

(** A mouse command that fails has logged a part of itself. *)
Lemma write_mouse c w log : exists r w' part,
  Ps2WriteMouseCommand c (w, log) = Done (r, (w', log ++ part)) /\
  ((r = 0 /\ (part = [] \/ part = [(100, 212)])) \/ (r = 1 /\ part = [(100, 212); (96, c)])).
Proof.
  unfold Ps2WriteMouseCommand.
  destruct (write_command 212 w log) as (r & w1 & [[-> ->]|[-> ->]]); mred.
  { exists 0, w1, []. rewrite app_nil_r. auto. }
  destruct (write_data c w1 (log ++ [(100, 212)])) as (r & w2 & [[-> ->]|[-> ->]]); mred.
  - exists 0, w2, [(100, 212)]. auto.
  - exists 1, w2, [(100, 212); (96, c)]. rewrite <- app_assoc. auto.
Qed.

(** A configuration byte with the auxiliary interrupt on (bit 1) and the
    auxiliary clock running (bit 5 clear). *)
Definition mouse_config (config : Z) : Prop :=
  is_u8 config /\ Z.testbit config 1 = true /\ Z.testbit config 5 = false.

Lemma mouse_config_or v : is_u8 v -> mouse_config (u8 (Z.land (u8 (Z.lor v 2)) 223)).
Proof.
  intros Hv. split; [apply u8_range|]. unfold u8. change 256 with (2 ^ 8).
  rewrite !Z.mod_pow2_bits_low by lia. rewrite !Z.land_spec.
  rewrite !Z.mod_pow2_bits_low by lia. rewrite !Z.lor_spec. cbn [Z.testbit Pos.testbit].
  rewrite orb_true_r, andb_false_r. done.
Qed.

(** How far an initialisation got: it reports success, and marks the
    mouse enabled, exactly when it wrote every command. *)
Definition initialised (o : outcome (Z * PS2_MOUSE_STATE * (World * list (Z * Z)))) : Prop :=
  exists r s w log config, o = Done (r, s, (w, log)) /\ mouse_config config /\
    log `prefix_of` init_commands config /\ Enabled s = r /\ PacketIndex s = 0 /\
    ((r = 0) \/ (r = 1 /\ log = init_commands config)).

Lemma initialised_0 s w log config : Enabled s = 0 -> PacketIndex s = 0 ->
  mouse_config config -> log `prefix_of` init_commands config ->
  initialised (Done (0, s, (w, log))).
Proof. intros. exists 0, s, w, log, config. split_and!; auto. Qed.

Lemma InitializePs2Mouse_spec s w : initialised (InitializePs2Mouse s (w, [])).
Proof.
  unfold InitializePs2Mouse. set (s0 := mkMouse 0 0 0 0 _ 0 0 0).
  assert (mouse_config 2) as H2 by (split_and!; done || lia).
  unfold Ps2FlushOutputBuffer, Ps2WaitForOutputByte.
  destruct (flush 64 w []) as (w1 & ->). mred.
  destruct (write_command 168 w1 []) as (r & w2 & [[-> ->]|[-> ->]]); mred; cbn [Z.eqb].
  { eapply initialised_0; try done. apply prefix_nil. }
  destruct (write_command 32 w2 ([] ++ [(100, 168)])) as (r & w3 & [[-> ->]|[-> ->]]); mred; cbn [Z.eqb].
  { eapply initialised_0; try done. by eexists. }
  destruct (wait_output (Z.to_nat 100000) 0 w3 (([] ++ [(100, 168)]) ++ [(100, 32)]))
    as ([v|] & w4 & -> & Hv); mred.
  2: { eapply initialised_0; try done. by eexists. }
  pose proof (mouse_config_or v (Hv v eq_refl)) as Hcfg. cbn zeta.
  set (config := u8 (Z.land (u8 (Z.lor v 2)) 223)) in *. cbn [app].
  destruct (write_command 96 w4 [(100, 168); (100, 32)]) as (r & w5 & [[-> ->]|[-> ->]]);
    mred; cbn [Z.eqb app].
  { eapply initialised_0; try done. by eexists. }
  destruct (write_data config w5 [(100, 168); (100, 32); (100, 96)])
    as (r & w6 & [[-> ->]|[-> ->]]); mred; cbn [Z.eqb app].
  { eapply (initialised_0 _ _ _ config); try done. by eexists. }
  destruct (flush 64 w6 [(100, 168); (100, 32); (100, 96); (96, config)]) as (w7 & ->). mred.
  destruct (write_mouse 246 w7 [(100, 168); (100, 32); (100, 96); (96, config)])
    as (r & w8 & part & -> & [[-> [-> | ->]]|[-> ->]]); mred; cbn [Z.eqb app].
  1,2: eapply (initialised_0 _ _ _ config); try done; by eexists.
  destruct (wait_output (Z.to_nat 100000) 1 w8
    [(100, 168); (100, 32); (100, 96); (96, config); (100, 212); (96, 246)])
    as (ack & w9 & -> & _); mred.
  destruct (negb _).
  { eapply (initialised_0 _ _ _ config); try done. by eexists. }
  destruct (write_mouse 244 w9
    [(100, 168); (100, 32); (100, 96); (96, config); (100, 212); (96, 246)])
    as (r & w10 & part & -> & [[-> [-> | ->]]|[-> ->]]); mred; cbn [Z.eqb app].
  1,2: eapply (initialised_0 _ _ _ config); try done; by eexists.
  destruct (wait_output (Z.to_nat 100000) 1 w10 (init_commands config))
    as (ack' & w11 & E & _). unfold init_commands in E. rewrite E. mred.
  destruct (negb _).
  { eapply (initialised_0 _ _ _ config); done. }
  exists 1, (set_Enabled s0 1), w11, (init_commands config), config. split_and!; auto; done.
Qed.

End init.

(** On any ports the routine returns, with a state the driver can run
    from. *)
Section init_total.
Context {World : Type} `{PortIO World}.
Implicit Types w : World.

Lemma wait_input_total n w : exists r, Ps2WaitForInputClear_loop n w = Done r.
Proof.
  revert w. induction n as [|n IH]; intros w; cbn [Ps2WaitForInputClear_loop]; [by eexists|].
  destruct (inbyte 100 w). rewrite BusyPause_done. mred. destruct (_ =? 0); [by eexists|apply IH].
Qed.

Lemma wait_output_total n require w : exists r, Ps2WaitForOutputByte_loop n require w = Done r.
Proof.
  revert w. induction n as [|n IH]; intros w; cbn [Ps2WaitForOutputByte_loop]; [by eexists|].
  destruct (inbyte 100 w) as [s w1]. rewrite BusyPause_done. mred. destruct (negb _); [|apply IH].
  destruct (inbyte 96 w1). destruct (_ || _)%bool; [by eexists|apply IH].
Qed.

Lemma flush_total n w : exists r, Ps2FlushOutputBuffer_loop n w = Done r.
Proof.
  revert w. induction n as [|n IH]; intros w; cbn [Ps2FlushOutputBuffer_loop]; [by eexists|].
  destruct (inbyte 100 w) as [s w1]. destruct (_ =? 0); [by eexists|].
  destruct (inbyte 96 w1). rewrite BusyPause_done. apply IH.
Qed.

Lemma write_command_total c w : exists r, Ps2WriteControllerCommand c w = Done r.
Proof.
  unfold Ps2WriteControllerCommand. destruct (wait_input_total (Z.to_nat 100000) w) as ([r w'] & E).
  unfold Ps2WaitForInputClear. rewrite E. mred. destruct (_ =? 0); by eexists.
Qed.

Lemma write_data_total v w : exists r, Ps2WriteControllerData v w = Done r.
Proof.
  unfold Ps2WriteControllerData. destruct (wait_input_total (Z.to_nat 100000) w) as ([r w'] & E).
  unfold Ps2WaitForInputClear. rewrite E. mred. destruct (_ =? 0); by eexists.
Qed.

Lemma write_mouse_total c w : exists r, Ps2WriteMouseCommand c w = Done r.
Proof.
  unfold Ps2WriteMouseCommand. destruct (write_command_total 212 w) as ([r w'] & ->). mred.
  destruct (_ =? 0); [by eexists|]. destruct (write_data_total c w') as ([r' w''] & ->). mred.
  destruct (_ =? 0); by eexists.
Qed.

(** One stage of the routine: run it, or give up. *)
Ltac stage lemma :=
  let r := fresh "r" in let w := fresh "w" in
  let E := fresh "E" in
  destruct lemma as ([r w] & E); rewrite E; mred; clear E;
  try (destruct (r =? 0); [by do 3 eexists|]).

Lemma InitializePs2Mouse_total s w : length (Packet s) = 4%nat -> bytes (Packet s) ->
  exists r s' w', InitializePs2Mouse s w = Done (r, s', w') /\ mouse_ok s'.
Proof.
  intros Hl Hb. unfold InitializePs2Mouse, Ps2FlushOutputBuffer, Ps2WaitForOutputByte.
  set (s0 := mkMouse 0 0 0 0 _ 0 0 0).
  assert (mouse_ok s0) as H0 by (split; cbn; try done; lia).
  assert (mouse_ok (set_Enabled s0 1)) as H1 by (split; cbn; try done; lia).
  destruct (flush_total 64 w) as (w1 & ->). mred.
  stage (write_command_total 168 w1). stage (write_command_total 32 w0).
  destruct (wait_output_total (Z.to_nat 100000) 0 w2) as ([[v|] w3] & ->); mred; [|by do 3 eexists].
  cbn zeta. stage (write_command_total 96 w3).
  stage (write_data_total (u8 (Z.land (u8 (Z.lor v 2)) 223)) w4).
  destruct (flush_total 64 w5) as (w6 & ->). mred.
  stage (write_mouse_total 246 w6).
  destruct (wait_output_total (Z.to_nat 100000) 1 w7) as ([ack w8] & ->); mred.
  destruct (negb _); [by do 3 eexists|].
  stage (write_mouse_total 244 w8).
  destruct (wait_output_total (Z.to_nat 100000) 1 w9) as ([ack' w10] & ->); mred.
  destruct (negb _); by do 3 eexists.
Qed.
End init_total.

(** The nine-bit movement of a packet, and the byte the driver reads. *)
Definition nine_bit (sign : bool) (b : Z) : Z := b - (if sign then 256 else 0).

Lemma i8_nine_bit sign b : is_u8 b ->
  (i8 b = nine_bit sign b <-> sign = Z.testbit b 7) /\
  (128 <= b -> sign = false -> i8 b < 0 < nine_bit sign b).
Proof.
  intros Hb. unfold nine_bit.
  assert (Z.testbit b 7 = (128 <=? b)) as ->.
  { rewrite Z.testbit_odd, Z.shiftr_div_pow2 by lia. change (2 ^ 7) with 128.
    destruct (Z.leb_spec 128 b).
    - replace (b / 128) with 1 by (apply Z.div_unique with (b - 128); lia). done.
    - rewrite Z.div_small by lia. done. }
  assert (i8 b = if 128 <=? b then b - 256 else b) as ->.
  { unfold i8. destruct (Z.leb_spec 128 b); [|rewrite Z.mod_small by lia; lia].
    rewrite <- (Z.mod_unique (b + 128) 256 1 (b - 128)) by lia. lia. }
  destruct sign, (Z.leb_spec 128 b); split; try (split; [lia|done]); try lia; try done;
    split; intros; try done; try lia.
Qed.

(* ------------------------------------------------------------------ *)
(** ** A concrete controller, for the witnesses *)

(** A queue of mouse bytes: the status port says whether there is one, the
    data port takes it. *)
Definition byte_queue : PortIO (list Z) := {|
  inbyte port w := if port =? 100 then (if decide (w = []) then 0 else 33, w)
                   else (u8 (hd 0 w), tl w);
  outbyte _ _ w := w;
|}.

Lemma byte_queue_wf : @PortIOWf _ byte_queue.
Proof.
  intros port w. cbn [inbyte byte_queue]. destruct (port =? 100); [|apply u8_range].
  destruct (decide _); cbn; lia.
Qed.

Definition demo_mouse : PS2_MOUSE_STATE := mkMouse 1 0 0 0 [0; 0; 0; 0] 0 0 0.

Lemma demo_mouse_ok : mouse_ok demo_mouse.
Proof. split; cbn; try done; try lia. repeat (constructor; [lia|]). constructor. Qed.

(* ------------------------------------------------------------------ *)
(** ** Properties *)

(** Whatever the controller delivers, one call of the PS/2 driver
    returns, having read what the ports deliver, at most 96 bytes ([heard]); it
    has decoded exactly the packets of the buffered and the new bytes, kept the incomplete one, moved the cursor by
    the accelerated sum of their deltas, clamped it to the screen, and left
    the drawing fields alone. *)
Theorem UpdateCursorFromPs2Mouse_correct {World : Type} `{PortIO World, !PortIOWf World}
    `{A : Assets, !AssetsWf A} s c fb (w : World) :
  fb_wf fb -> modest fb -> pointer_ok fb c -> mouse_ok s -> Enabled s <> 0 ->
  exists r s' c' w' bs, UpdateCursorFromPs2Mouse s c fb w = Done (r, s', c', w') /\
    mouse_ok s' /\ pointer_ok fb c' /\ same_image c c' /\ Enabled s' = Enabled s /\
    let t := foldl add_frame (mkTotals 0 0 0 (LeftButtonDown c)) (frames (pending s ++ bs)).1 in
    heard w bs t w' /\ pending s' = (frames (pending s ++ bs)).2 /\ driven fb c c' t r.
Proof. apply UpdateCursorFromPs2Mouse_spec. Qed.

Lemma UpdateCursorFromPs2Mouse_correct_witness :
  exists r s' c' w' bs,
    @UpdateCursorFromPs2Mouse _ byte_queue demo_assets demo_mouse (demo_cursor 3 1) (demo_fb 4096)
      [7; 9; 250; 3; 8; 1] = Done (r, s', c', w') /\
    pending s' = (frames (pending demo_mouse ++ bs)).2.
Proof.
  destruct (@UpdateCursorFromPs2Mouse_correct _ byte_queue byte_queue_wf demo_assets demo_assets_wf
    demo_mouse (demo_cursor 3 1) (demo_fb 4096) [7; 9; 250; 3; 8; 1])
    as (r & s' & c' & w' & bs & E & _ & _ & _ & _ & _ & H & _).
  - apply demo_fb_wf; lia.
  - split; cbn; lia.
  - apply demo_pointer_ok.
  - apply demo_mouse_ok.
  - discriminate.
  - exists r, s', c', w', bs. exact (conj E H).
Defined.

(** C13: the packet decoder is independent of how the bytes are split over
    calls: fed a stream it finds exactly the packets of the stream, skipping
    the bytes out of step, and buffers the incomplete packet at its end. *)
Theorem Ps2Mouse_decodes bs1 bs2 s t :
  mouse_ok s -> bytes bs1 -> bytes bs2 ->
  totals_small (Z.of_nat (length (bs1 ++ bs2))) t ->
  ('(s1, t1) ← feed bs1 s t; feed bs2 s1 t1) = feed (bs1 ++ bs2) s t /\
  exists s', feed (bs1 ++ bs2) s t =
      Done (s', foldl add_frame t (frames (pending s ++ bs1 ++ bs2)).1) /\
    mouse_ok s' /\ pending s' = (frames (pending s ++ bs1 ++ bs2)).2.
Proof.
  intros Hs H1 H2 Ht. split; [|apply feed_frames; [done|by apply Forall_app|done]].
  clear. revert s t. induction bs1 as [|b bs1 IH]; intros s t; cbn [feed app]; [done|].
  rewrite bind_assoc. apply bind_ext. intros [s1 t1]. apply IH.
Qed.

Lemma Ps2Mouse_decodes_witness :
  ('(s1, t1) ← feed [9; 250] demo_mouse (mkTotals 0 0 0 0); feed [3; 0; 8; 5; 5] s1 t1) =
    feed ([9; 250] ++ [3; 0; 8; 5; 5]) demo_mouse (mkTotals 0 0 0 0) /\
  exists s', feed ([9; 250] ++ [3; 0; 8; 5; 5]) demo_mouse (mkTotals 0 0 0 0) =
      Done (s', mkTotals (-1) 8 2 0) /\
    mouse_ok s' /\ pending s' = [].
Proof.
  apply (Ps2Mouse_decodes [9; 250] [3; 0; 8; 5; 5] demo_mouse (mkTotals 0 0 0 0)).
  - apply demo_mouse_ok.
  - repeat (constructor; [lia|]). constructor.
  - repeat (constructor; [lia|]). constructor.
  - unfold totals_small. cbn. lia.
Defined.

(** The initialisation always returns; what it writes is a prefix of the
    documented sequence, with a configuration byte that has the auxiliary
    interrupt on and the auxiliary clock running, and it reports success and
    enables the driver exactly when it wrote the whole sequence. *)
Theorem InitializePs2Mouse_correct {World : Type} `{PortIO World, !PortIOWf World}
    s (w : World) :
  exists r s' w' log config,
    @InitializePs2Mouse _ traced s (w, []) = Done (r, s', (w', log)) /\ mouse_config config /\
    log `prefix_of` init_commands config /\ Enabled s' = r /\ PacketIndex s' = 0 /\
    (r = 0 \/ (r = 1 /\ log = init_commands config)).
Proof. exact (InitializePs2Mouse_spec s w). Qed.

Lemma InitializePs2Mouse_correct_witness :
  exists r s' w' log config,
    @InitializePs2Mouse _ (@traced _ byte_queue) demo_mouse ([], []) = Done (r, s', (w', log)) /\
    mouse_config config /\ log `prefix_of` init_commands config.
Proof.
  destruct (@InitializePs2Mouse_correct _ byte_queue byte_queue_wf demo_mouse [])
    as (r & s' & w' & log & config & E & Hc & Hl & _).
  exists r, s', w', log, config. exact (conj E (conj Hc Hl)).
Defined.

(** a packet's movement is added as a signed byte, which is the mouse's
    nine-bit value exactly when the sign bit of the first byte agrees with
    the top bit of the byte; a mouse moved by 128 to 255 steps to the right is
    taken to have moved left. *)
Theorem Ps2_delta_sign b0 b1 b2 q2 q3 s t :
  Packet s = [b0; b1; q2; q3] -> PacketIndex s = 2 -> Z.land b0 192 = 0 ->
  is_u8 b1 -> is_u8 b2 -> totals_small 1 t ->
  exists s' t', Ps2Mouse_byte b2 s t = Done (s', t') /\
    (totalDeltaX t' = totalDeltaX t + nine_bit (Z.testbit b0 4) b1 <->
     Z.testbit b0 4 = Z.testbit b1 7) /\
    (128 <= b1 -> Z.testbit b0 4 = false ->
     totalDeltaX t' < totalDeltaX t < totalDeltaX t + nine_bit (Z.testbit b0 4) b1).
Proof.
  intros Hp Hi Hb0 Hb1 Hb2 (Hx & Hy & Hc0 & Hc). unfold Ps2Mouse_byte. rewrite Hp, Hi.
  change (wr [b0; b1; q2; q3] 2 b2) with (Done [b0; b1; b2; q3]). mred.
  cbn [Z.eqb andb PacketIndex Packet set_packet]. change (u8 (2 + 1) <? 3) with false. cbv iota.
  change (rd [b0; b1; b2; q3] 0) with (Done b0). change (rd [b0; b1; b2; q3] 1) with (Done b1).
  change (rd [b0; b1; b2; q3] 2) with (Done b2). mred. rewrite Hb0. cbn [Z.eqb negb].
  do 2 eexists. split; [done|]. cbn [totalDeltaX].
  pose proof (i8_range b1). rewrite i32_id by lia.
  destruct (i8_nine_bit (Z.testbit b0 4) b1 Hb1) as [H1 H2]. split.
  - rewrite <- H1. lia.
  - intros Hge Hs. specialize (H2 Hge Hs). lia.
Qed.

Lemma Ps2_delta_sign_witness :
  exists s' t', Ps2Mouse_byte 0 (mkMouse 1 2 0 0 [8; 200; 0; 0] 0 0 0) (mkTotals 0 0 0 0) = Done (s', t') /\
    totalDeltaX t' < 0.
Proof.
  destruct (Ps2_delta_sign 8 200 0 0 0 (mkMouse 1 2 0 0 [8; 200; 0; 0] 0 0 0) (mkTotals 0 0 0 0))
    as (s' & t' & E & _ & H).
  - reflexivity.
  - reflexivity.
  - reflexivity.
  - lia.
  - lia.
  - unfold totals_small. cbn. lia.
  - exists s', t'. split; [exact E|]. apply H; [lia|reflexivity].
Defined.
