(* ===== verification/Image.v ===== *)
(** * Images, tweens and the splash screen

    [DrawImageNearestAlpha] (a bilinear resampling, whatever its name says),
    the tween tables ([EvaluateTween]) and the boot splash
    ([ComputeSplashRect], [DrawSplashFrame], [PlaySplashSequence]).  [stall]
    is firmware code: a parameter over an abstract world. *)
From Stdlib Require Import ZArith Lia.
From stdpp Require Import base gmap list.
From S2P Require Import Prelude Surface Pixel Assets Text.
#[local] Open Scope Z_scope.

(* ------------------------------------------------------------------ *)
(** ** Operations: images *)

(** One axis of the resampling: the source index, its neighbour, and the
    256th parts of the way between them. *)
Definition source_axis (i draw source : Z) : outcome (Z * Z * Z) :=
  sourceFixed ← (if 1 <? draw
                 then udiv (u32 (i * u32 (source - 1) * 256)) (u32 (draw - 1)) else Done 0);
  let s := Z.shiftr sourceFixed 8 in
  let next := if u32 (s + 1) <? source then u32 (s + 1) else s in
  Done (s, next, Z.land sourceFixed 255).

(** The weighted sum of four samples. *)
Definition weighted (l : list Z) (i00 i10 i01 i11 w00 w10 w01 w11 : Z) : outcome Z :=
  v00 ← rd l i00; v10 ← rd l i10; v01 ← rd l i01; v11 ← rd l i11;
  Done (u32 (v00 * w00 + v10 * w10 + v01 * w01 + v11 * w11)).

(** [(UINT8)((v + 32768u) >> 16u)]. *)
Definition rounded (v : Z) : Z := u8 (Z.shiftr (u32 (v + 32768)) 16).

Definition DrawImageNearestAlpha (fb : FRAMEBUFFER_INFO) (x y : Z)
    (drawWidth drawHeight sourceWidth sourceHeight : Z) (pixels alpha : option (list Z))
    (m : mem) : outcome mem :=
  match pixels, alpha with
  | Some pixels, Some alpha =>
    if ((drawWidth =? 0) || (drawHeight =? 0) || (sourceWidth =? 0) || (sourceHeight =? 0))%bool
    then Done m
    else
      for_count drawHeight (fun row m =>
        '(sourceY, sourceYNext, blendY) ← source_axis row drawHeight sourceHeight;
        let pixelY := i32 (y + i32 row) in
        if ((pixelY <? 0) || (i32 (ScreenHeight fb) <=? pixelY))%bool then Done m
        else
          for_count drawWidth (fun column m =>
            '(sourceX, sourceXNext, blendX) ← source_axis column drawWidth sourceWidth;
            let i00 := u32 (sourceY * sourceWidth + sourceX) in
            let i10 := u32 (sourceY * sourceWidth + sourceXNext) in
            let i01 := u32 (sourceYNext * sourceWidth + sourceX) in
            let i11 := u32 (sourceYNext * sourceWidth + sourceXNext) in
            let w00 := u32 (u32 (256 - blendX) * u32 (256 - blendY)) in
            let w10 := u32 (blendX * u32 (256 - blendY)) in
            let w01 := u32 (u32 (256 - blendX) * blendY) in
            let w11 := u32 (blendX * blendY) in
            let pixelX := i32 (x + i32 column) in
            if ((pixelX <? 0) || (i32 (ScreenWidth fb) <=? pixelX))%bool then Done m
            else
              sourceAlphaWeighted ← weighted alpha i00 i10 i01 i11 w00 w10 w01 w11;
              let sourceAlpha := rounded sourceAlphaWeighted in
              if sourceAlpha =? 0 then Done m
              else
                let channel k := weighted pixels (u32 (i00 * 3 + k)) (u32 (i10 * 3 + k))
                                   (u32 (i01 * 3 + k)) (u32 (i11 * 3 + k)) w00 w10 w01 w11 in
                red ← channel 0; green ← channel 1; blue ← channel 2;
                blend_at fb pixelX pixelY (rounded red) (rounded green) (rounded blue)
                  sourceAlpha m) m) m
  | _, _ => Done m
  end.

(* ------------------------------------------------------------------ *)
(** ** Operations: tweens and the splash *)

Section splash.
Context `{Assets}.

(** The curve of a family a mode selects. *)
Definition tween_mode (t : TweenFamily) (tweenMode : Z) : list Z :=
  if tweenMode =? 0 then tweenIn t
  else if tweenMode =? 1 then tweenOut t
  else if tweenMode =? 2 then tweenInOut t
  else tweenOutIn t.

Definition EvaluateTween (tweenFamily tweenMode progress1024 : Z) : outcome Z :=
  let progress1024 := if 1024 <? progress1024 then 1024 else progress1024 in
  let table :=
    if tweenFamily =? 1 then tween_mode gTweenSine tweenMode
    else if tweenFamily =? 2 then tween_mode gTweenCubic tweenMode
    else if tweenFamily =? 3 then tween_mode gTweenExponential tweenMode
    else if tweenFamily =? 4 then tween_mode gTweenBack tweenMode
    else tween_mode gTweenLinear tweenMode in
  rd table progress1024.

(** [startX], [startY], [drawWidth], [drawHeight]; the out pointers are
    never [NULL] in a call. *)
Definition ComputeSplashRect (fb : FRAMEBUFFER_INFO) (scale1024 : Z) : Z * Z * Z * Z :=
  let drawWidth := u32 (SPLASH_WIDTH * scale1024) / 1024 in
  let drawHeight := u32 (SPLASH_HEIGHT * scale1024) / 1024 in
  let drawWidth := if ScreenWidth fb <? drawWidth then ScreenWidth fb else drawWidth in
  let drawHeight := if ScreenHeight fb <? drawHeight then ScreenHeight fb else drawHeight in
  let '(startX, startY) :=
    if ((drawWidth =? 0) || (drawHeight =? 0))%bool then (0, 0)
    else
      (if drawWidth <? ScreenWidth fb then Z.shiftr (u32 (ScreenWidth fb - drawWidth)) 1 else 0,
       if drawHeight <? ScreenHeight fb then Z.shiftr (u32 (ScreenHeight fb - drawHeight)) 1 else 0) in
  (startX, startY, drawWidth, drawHeight).

Definition DrawSplashFrame (fb : FRAMEBUFFER_INFO) (alpha scale1024 : Z) (m : mem) : outcome mem :=
  let '(startX, startY, drawWidth, drawHeight) := ComputeSplashRect fb scale1024 in
  if ((drawWidth =? 0) || (drawHeight =? 0))%bool then Done m
  else
    for_count drawHeight (fun y m =>
      let framebufferRow := u32 (u32 (startY + y) * PixelsPerScanLine fb + startX) in
      sourceY ← udiv (u32 (y * SPLASH_HEIGHT)) drawHeight;
      let sourceRow := u32 (sourceY * SPLASH_WIDTH * 3) in
      for_count drawWidth (fun x m =>
        sourceX ← udiv (u32 (x * SPLASH_WIDTH)) drawWidth;
        let sourceIndex := u32 (sourceRow + u32 (sourceX * 3)) in
        r ← rd gSplashPixels (u32 (sourceIndex + 0));
        g ← rd gSplashPixels (u32 (sourceIndex + 1));
        b ← rd gSplashPixels (u32 (sourceIndex + 2));
        pixel ← ComposeFor fb (BlendChannelOverBlack r alpha) (BlendChannelOverBlack g alpha)
                  (BlendChannelOverBlack b alpha);
        store32 (elem (Framebuffer fb) (u32 (framebufferRow + x))) pixel m) m) m.

(** One frame of the sequence: its scale and alpha. *)
Definition splash_frame (frame frameCount : Z) : outcome (Z * Z) :=
  progress1024 ← udiv (u32 (frame * 1024)) (u32 (frameCount - 1));
  eased1024 ← EvaluateTween 2 1 progress1024;
  let scale1024 := u32 (975 * u32 (1024 - eased1024) + 1024 * eased1024) / 1024 in
  Done (scale1024, u8 (u32 (eased1024 * 255) / 1024)).

Definition PlaySplashSequence {World : Type} (fb : FRAMEBUFFER_INFO) (stall : Z -> World -> World)
    (m : mem) (w : World) : outcome (mem * World) :=
  let frameCount := 30 in
  let w := stall 1000000 w in
  '(m, w) ← for_count frameCount (fun frame '(m, w) =>
    '(scale1024, alpha255) ← splash_frame frame frameCount;
    black ← ComposeFor fb 0 0 0;
    m ← ClearScreen fb black 1 m;
    m ← DrawSplashFrame fb alpha255 scale1024 m;
    Done (m, stall 16667 w)) (m, w);
  Done (m, stall 1000000 w).
End splash.

(* ------------------------------------------------------------------ *)
(** ** Specification vocabulary *)

(** The position of draw index [i] in the source, in 256ths. *)
Definition source_position (i draw source : Z) : Z :=
  if 1 <? draw then i * (source - 1) * 256 / (draw - 1) else 0.

(** The sample of a [w] by [h] image of [k] channels at position
    [(u, v)], in 256ths of a pixel: the bilinear mean, rounded. *)
Definition bilinear (l : list Z) (w h k channel u v : Z) : outcome Z :=
  let x0 := u / 256 in let y0 := v / 256 in
  let x1 := Z.min (x0 + 1) (w - 1) in let y1 := Z.min (y0 + 1) (h - 1) in
  let bx := u mod 256 in let by' := v mod 256 in
  p00 ← rd l ((y0 * w + x0) * k + channel); p10 ← rd l ((y0 * w + x1) * k + channel);
  p01 ← rd l ((y1 * w + x0) * k + channel); p11 ← rd l ((y1 * w + x1) * k + channel);
  Done ((p00 * ((256 - bx) * (256 - by')) + p10 * (bx * (256 - by')) +
         p01 * ((256 - bx) * by') + p11 * (bx * by') + 32768) / 65536).

(** The value pixel [(px, py)] takes when an image is drawn at [(x, y)]. *)
Definition image_pixel (fb : FRAMEBUFFER_INFO) (x y dw dh sw sh : Z) (pixels alpha : list Z)
    (px py old : Z) : outcome Z :=
  let u := source_position (px - x) dw sw in
  let v := source_position (py - y) dh sh in
  a ← bilinear alpha sw sh 1 0 u v;
  if a =? 0 then Done old
  else
    r ← bilinear pixels sw sh 3 0 u v;
    g ← bilinear pixels sw sh 3 1 u v;
    b ← bilinear pixels sw sh 3 2 u v;
    AlphaBlendPixel fb old r g b a.

(** Sizes whose fixed-point products fit 32 bits. *)
Definition draw_fits (dw dh sw sh : Z) : Prop :=
  0 < dw < 2147483648 /\ 0 < dh < 2147483648 /\ 0 < sw < 65536 /\ 0 < sh < 65536 /\
  sw * sh * 3 < 4294967296 /\
  (dw - 1) * (sw - 1) * 256 < 4294967296 /\ (dh - 1) * (sh - 1) * 256 < 4294967296.

(** What [DrawSplashFrame] makes of pixel [(px, py)] of its rectangle. *)
Definition splash_pixel `{Assets} (fb : FRAMEBUFFER_INFO) (sx sy dw dh alpha : Z)
    (px py _old : Z) : outcome Z :=
  let i := ((py - sy) * SPLASH_HEIGHT / dh * SPLASH_WIDTH + (px - sx) * SPLASH_WIDTH / dw) * 3 in
  r ← rd gSplashPixels i; g ← rd gSplashPixels (i + 1); b ← rd gSplashPixels (i + 2);
  ComposeFor fb (BlendChannelOverBlack r alpha) (BlendChannelOverBlack g alpha)
    (BlendChannelOverBlack b alpha).

(* ------------------------------------------------------------------ *)
(** ** Lemmas: clipped loops *)

Lemma paints_ext fb R f c1 c2 : (forall m, c1 m = c2 m) -> paints fb R f c2 -> paints fb R f c1.
Proof. intros E Hc m Hm. rewrite E. by apply Hc. Qed.

(** The loop of every image routine: over the cells of a rectangle,
    skipping the rows and the columns that are off the screen. *)
Lemma paints_clipped fb f x y w h (cell : Z -> Z -> Z -> Z -> mem -> outcome mem) :
  is_i32 x -> is_i32 y -> w < 2147483648 -> h < 2147483648 ->
  (forall row column, 0 <= row < h -> 0 <= column < w ->
    on_screen fb (x + column) (y + row) -> fb_wf fb ->
    paints fb (fun px py => px = x + column /\ py = y + row) f
      (cell row column (x + column) (y + row))) ->
  paints fb (fun px py => rect x y w h px py /\ on_screen fb px py) f (fun m =>
    for_count h (fun row m =>
      let pixelY := i32 (y + i32 row) in
      if ((pixelY <? 0) || (i32 (ScreenHeight fb) <=? pixelY))%bool then Done m
      else
        for_count w (fun column m =>
          let pixelX := i32 (x + i32 column) in
          if ((pixelX <? 0) || (i32 (ScreenWidth fb) <=? pixelX))%bool then Done m
          else cell row column pixelX pixelY m) m) m).
Proof.
  intros Hx Hy Hw Hh Hcell.
  apply paints_rows.
  intros row Hrow m Hm. pose proof (ready_fb _ _ Hm) as Hfb. pose proof Hfb as []. revert m Hm.
  cbn zeta. rewrite (i32_id row) by lia.
  destruct (_ || _)%bool eqn:EY.
  { apply paints_none. intros px py _ (-> & _ & [_ Hon]).
    rewrite orb_true_iff, Z.ltb_lt, Z.leb_le in EY. rewrite !i32_id in EY by lia. lia. }
  apply accepted_coordinate in EY; [|apply i32_range|lia]. rewrite i32_add_nonneg in * by lia.
  apply paints_columns.
  intros column Hcol. rewrite (i32_id column) by lia.
  destruct ((i32 (x + _) <? 0) || _)%bool eqn:EX.
  { apply paints_none. intros px py _ (-> & _ & [Hon _]).
    rewrite orb_true_iff, Z.ltb_lt, Z.leb_le in EX. rewrite !i32_id in EX by lia. lia. }
  apply accepted_coordinate in EX; [|apply i32_range|lia]. rewrite i32_add_nonneg in * by lia.
  eapply paints_iff; [|apply Hcell; [done|done|split; lia|done]].
  intros px py _. split; [|tauto]. intros [-> ->]. split_and!; try done; lia.
Qed.

(* ------------------------------------------------------------------ *)
(** ** Lemmas: resampling *)

Lemma source_axis_spec i draw source :
  0 <= i < draw -> 0 < source < 65536 -> draw < 2147483648 ->
  (draw - 1) * (source - 1) * 256 < 4294967296 ->
  let u := source_position i draw source in
  source_axis i draw source = Done (u / 256, Z.min (u / 256 + 1) (source - 1), u mod 256) /\
  0 <= u <= (source - 1) * 256.
Proof.
  intros Hi Hs Hd Hfit u.
  assert (0 <= i * (source - 1) * 256 < 4294967296) as Hp.
  { split; [nia|]. eapply Z.le_lt_trans; [|exact Hfit].
    apply Z.mul_le_mono_nonneg_r; [lia|]. apply Z.mul_le_mono_nonneg_r; lia. }
  assert (0 <= u <= (source - 1) * 256) as Hu.
  { subst u. unfold source_position. destruct (Z.ltb_spec 1 draw); [|lia].
    split; [apply Z.div_pos; lia|]. apply Z.div_le_upper_bound; [lia|].
    replace (i * (source - 1) * 256) with (i * ((source - 1) * 256)) by lia.
    apply Z.mul_le_mono_nonneg_r; lia. }
  split; [|done]. unfold source_axis.
  assert ((if 1 <? draw then udiv (u32 (i * u32 (source - 1) * 256)) (u32 (draw - 1)) else Done 0)
    = Done u) as ->.
  { subst u. unfold source_position. destruct (Z.ltb_spec 1 draw); [|done].
    rewrite (u32_id (source - 1)), (u32_id (draw - 1)), (u32_id (i * _ * _)) by lia.
    apply udiv_done. lia. }
  mred. rewrite Z.shiftr_div_pow2 by lia. change (2 ^ 8) with 256.
  change 255 with (Z.ones 8). rewrite Z.land_ones by lia. change (2 ^ 8) with 256.
  clearbody u. assert (0 <= u / 256 <= source - 1) as Hq by dlia.
  rewrite (u32_id (u / 256 + 1)) by lia.
  destruct (Z.ltb_spec (u / 256 + 1) source); f_equal; f_equal; f_equal; lia.
Qed.

(** A convex combination of bytes, rounded, is a byte, and no step of its
    computation overflows. *)
Lemma weighted_mean p00 p10 p01 p11 bx b : 0 <= bx < 256 -> 0 <= b < 256 ->
  is_u8 p00 -> is_u8 p10 -> is_u8 p01 -> is_u8 p11 ->
  let t := p00 * ((256 - bx) * (256 - b)) + p10 * (bx * (256 - b)) +
           p01 * ((256 - bx) * b) + p11 * (bx * b) in
  0 <= t <= 16711680 /\
  Z.min (Z.min p00 p10) (Z.min p01 p11) <= (t + 32768) / 65536
    <= Z.max (Z.max p00 p10) (Z.max p01 p11).
Proof.
  intros Hbx Hb H00 H10 H01 H11 t.
  assert (0 <= (256 - bx) * (256 - b) /\ 0 <= bx * (256 - b) /\ 0 <= (256 - bx) * b /\ 0 <= bx * b)
    as (W00 & W10 & W01 & W11) by (split_and!; apply Z.mul_nonneg_nonneg; lia).
  assert ((256 - bx) * (256 - b) + bx * (256 - b) + (256 - bx) * b + bx * b = 65536) as Hsum by lia.
  subst t. set (w00 := (256 - bx) * (256 - b)) in *. set (w10 := bx * (256 - b)) in *.
  set (w01 := (256 - bx) * b) in *. set (w11 := bx * b) in *. clearbody w00 w10 w01 w11.
  set (lo := Z.min (Z.min p00 p10) (Z.min p01 p11)).
  set (hi := Z.max (Z.max p00 p10) (Z.max p01 p11)).
  assert (forall p w, lo <= p <= hi -> 0 <= w -> lo * w <= p * w <= hi * w) as Hm
    by (intros p w Hp Hw; split; apply Z.mul_le_mono_nonneg_r; lia).
  pose proof (Hm p00 w00 ltac:(lia) W00). pose proof (Hm p10 w10 ltac:(lia) W10).
  pose proof (Hm p01 w01 ltac:(lia) W01). pose proof (Hm p11 w11 ltac:(lia) W11).
  set (t := p00 * w00 + p10 * w10 + p01 * w01 + p11 * w11) in *.
  assert (lo * 65536 <= t <= hi * 65536) as Ht.
  { replace (lo * 65536) with (lo * w00 + lo * w10 + lo * w01 + lo * w11) by lia.
    replace (hi * 65536) with (hi * w00 + hi * w10 + hi * w01 + hi * w11) by lia. lia. }
  assert (0 <= lo /\ hi <= 255) as [? ?] by lia. clearbody lo hi t. clear -H3 H4 Ht.
  split; [lia|]. dlia.
Qed.

(** The code's weighted sum of one channel is the bilinear sample. *)
Lemma weighted_bilinear l w h k ch u v :
  0 < w < 65536 -> 0 < h < 65536 -> 0 < k <= 3 -> 0 <= ch < k -> w * h * 3 < 4294967296 ->
  Z.of_nat (length l) = w * h * k -> bytes l ->
  0 <= u <= (w - 1) * 256 -> 0 <= v <= (h - 1) * 256 ->
  let x0 := u / 256 in let x1 := Z.min (u / 256 + 1) (w - 1) in
  let y0 := v / 256 in let y1 := Z.min (v / 256 + 1) (h - 1) in
  let bx := u mod 256 in let b := v mod 256 in
  let index x y := u32 (u32 (y * w + x) * k + ch) in
  exists s, weighted l (index x0 y0) (index x1 y0) (index x0 y1) (index x1 y1)
      (u32 (u32 (256 - bx) * u32 (256 - b))) (u32 (bx * u32 (256 - b)))
      (u32 (u32 (256 - bx) * b)) (u32 (bx * b)) = Done s /\
    bilinear l w h k ch u v = Done (rounded s) /\ is_u8 (rounded s).
Proof.
  intros Hw Hh Hk Hch Hsize Hlen Hbytes Hu Hv x0 x1 y0 y1 bx b index.
  assert (0 <= x0 < w /\ 0 <= x1 < w /\ 0 <= bx < 256) as (Hx0 & Hx1 & Hbx) by (subst x0 x1 bx; dlia).
  assert (0 <= y0 < h /\ 0 <= y1 < h /\ 0 <= b < 256) as (Hy0 & Hy1 & Hb) by (subst y0 y1 b; dlia).
  assert (forall x y, 0 <= x < w -> 0 <= y < h ->
    exists p, rd l (index x y) = Done p /\ rd l ((y * w + x) * k + ch) = Done p /\ is_u8 p) as Hrd.
  { intros x y Hx Hy. pose proof (index2_bound y x w h Hy Hx) as H2.
    pose proof (index2_bound (y * w + x) ch k (w * h) H2 Hch) as H3.
    assert (w * h * k <= w * h * 3) by (apply Z.mul_le_mono_nonneg_l; [apply Z.mul_nonneg_nonneg; lia|lia]).
    subst index. cbn beta. rewrite (u32_id (y * w + x)) by lia.
    rewrite u32_id by lia.
    destruct (rd_forall (fun p => is_u8 p) l ((y * w + x) * k + ch)) as (p & -> & Hp); [done|lia|].
    by exists p. }
  destruct (Hrd x0 y0) as (p00 & E00 & F00 & B00); [done..|].
  destruct (Hrd x1 y0) as (p10 & E10 & F10 & B10); [done..|].
  destruct (Hrd x0 y1) as (p01 & E01 & F01 & B01); [done..|].
  destruct (Hrd x1 y1) as (p11 & E11 & F11 & B11); [done..|].
  unfold weighted, bilinear. rewrite E00, E10, E01, E11.
  change (u / 256) with x0. change (v / 256) with y0. change (Z.min (x0 + 1) (w - 1)) with x1.
  change (Z.min (y0 + 1) (h - 1)) with y1. change (u mod 256) with bx. change (v mod 256) with b.
  cbn zeta. rewrite F00, F10, F01, F11. mred. clear Hrd E00 E10 E01 E11 F00 F10 F01 F11.
  rewrite (u32_id (256 - bx)), (u32_id (256 - b)) by lia.
  assert (0 <= (256 - bx) * (256 - b) <= 65536 /\ 0 <= bx * (256 - b) <= 65536 /\
    0 <= (256 - bx) * b <= 65536 /\ 0 <= bx * b <= 65536) as (? & ? & ? & ?)
    by (clear -Hbx Hb; split_and!; nia).
  rewrite (u32_id ((256 - bx) * (256 - b))), (u32_id (bx * (256 - b))), (u32_id ((256 - bx) * b)),
    (u32_id (bx * b)) by lia.
  pose proof (weighted_mean p00 p10 p01 p11 bx b Hbx Hb B00 B10 B01 B11) as [Ht Hmean].
  set (t := p00 * _ + _ + _ + _) in *. clearbody t.
  eexists. split; [done|]. unfold rounded. rewrite (u32_id t), (u32_id (t + 32768)) by lia.
  rewrite Z.shiftr_div_pow2 by lia. change (2 ^ 16) with 65536.
  assert (0 <= (t + 32768) / 65536 < 256) by lia. rewrite u8_id by lia. done.
Qed.

(** The blend of one accepted cell. *)
Definition image_cell (fb : FRAMEBUFFER_INFO) (dw dh sw sh : Z) (pixels alpha : list Z)
    (row column pixelX pixelY : Z) (m : mem) : outcome mem :=
  let u := source_position column dw sw in let v := source_position row dh sh in
  let i00 := u32 (v / 256 * sw + u / 256) in
  let i10 := u32 (v / 256 * sw + Z.min (u / 256 + 1) (sw - 1)) in
  let i01 := u32 (Z.min (v / 256 + 1) (sh - 1) * sw + u / 256) in
  let i11 := u32 (Z.min (v / 256 + 1) (sh - 1) * sw + Z.min (u / 256 + 1) (sw - 1)) in
  let w00 := u32 (u32 (256 - u mod 256) * u32 (256 - v mod 256)) in
  let w10 := u32 (u mod 256 * u32 (256 - v mod 256)) in
  let w01 := u32 (u32 (256 - u mod 256) * (v mod 256)) in
  let w11 := u32 (u mod 256 * (v mod 256)) in
  a ← weighted alpha i00 i10 i01 i11 w00 w10 w01 w11;
  if rounded a =? 0 then Done m
  else
    let channel k := weighted pixels (u32 (i00 * 3 + k)) (u32 (i10 * 3 + k))
                       (u32 (i01 * 3 + k)) (u32 (i11 * 3 + k)) w00 w10 w01 w11 in
    red ← channel 0; green ← channel 1; blue ← channel 2;
    blend_at fb pixelX pixelY (rounded red) (rounded green) (rounded blue) (rounded a) m.

Section image.
Context (fb : FRAMEBUFFER_INFO) (x y dw dh sw sh : Z) (pixels alpha : list Z).
Context (Hblend : blendable fb) (Hx : is_i32 x) (Hy : is_i32 y) (Hfits : draw_fits dw dh sw sh).
Context (Hpl : Z.of_nat (length pixels) = sw * sh * 3) (Hpb : bytes pixels).
Context (Hal : Z.of_nat (length alpha) = sw * sh) (Hab : bytes alpha).

Lemma image_cell_paints row column :
  0 <= row < dh -> 0 <= column < dw ->
  on_screen fb (x + column) (y + row) -> fb_wf fb ->
  paints fb (fun px py => px = x + column /\ py = y + row)
    (image_pixel fb x y dw dh sw sh pixels alpha)
    (image_cell fb dw dh sw sh pixels alpha row column (x + column) (y + row)).
Proof.
  intros Hrow Hcol Hon Hfb. destruct Hfits as (? & ? & Hsw & Hsh & Hsize & Hfx & Hfy).
  destruct (source_axis_spec column dw sw) as [_ Hu]; [done|done|lia|done|].
  destruct (source_axis_spec row dh sh) as [_ Hv]; [done|done|lia|done|].
  assert (forall old, image_pixel fb x y dw dh sw sh pixels alpha (x + column) (y + row) old =
    let u := source_position column dw sw in let v := source_position row dh sh in
    a ← bilinear alpha sw sh 1 0 u v;
    if a =? 0 then Done old
    else
      r ← bilinear pixels sw sh 3 0 u v; g ← bilinear pixels sw sh 3 1 u v;
      b ← bilinear pixels sw sh 3 2 u v; AlphaBlendPixel fb old r g b a) as Hf.
  { intros old. unfold image_pixel. replace (x + column - x) with column by lia.
    by replace (y + row - y) with row by lia. }
  unfold image_cell. cbn zeta in Hf |- *.
  set (u := source_position column dw sw) in *. set (v := source_position row dh sh) in *.
  assert (forall z, u32 (u32 z * 1 + 0) = u32 z) as Hone.
  { intros z. rewrite Z.mul_1_r, Z.add_0_r. apply u32_id, u32_range. }
  destruct (weighted_bilinear alpha sw sh 1 0 u v) as (a & Ea & Ba & Ha);
    [lia|lia|lia|lia|lia|lia|done|done|done|].
  rewrite !Hone in Ea. rewrite Ea. mred.
  destruct (rounded a =? 0) eqn:E0.
  { intros m Hm. exists m. split_and!; [done..|]. intros px py old _ [-> ->] Hold.
    exists old. rewrite Hf, Ba. mred. by rewrite E0. }
  destruct (weighted_bilinear pixels sw sh 3 0 u v) as (r & Er & Br & Hr);
    [lia|lia|lia|lia|lia|lia|done|done|done|].
  destruct (weighted_bilinear pixels sw sh 3 1 u v) as (g & Eg & Bg & Hg);
    [lia|lia|lia|lia|lia|lia|done|done|done|].
  destruct (weighted_bilinear pixels sw sh 3 2 u v) as (b & Eb & Bb & Hb);
    [lia|lia|lia|lia|lia|lia|done|done|done|].
  rewrite Er. mred. rewrite Eg. mred. rewrite Eb. mred. unfold blend_at. cbn zeta. destruct Hfb, Hon.
  rewrite (u32_id (y + row)), (u32_id (x + column)) by lia.
  apply paints_update; [intros _; split; lia|]. intros old Hold.
  rewrite Hf, Ba. mred. rewrite E0, Br. mred. rewrite Bg. mred. rewrite Bb. mred.
  destruct (AlphaBlendPixel_total fb old (rounded r) (rounded g) (rounded b) (rounded a))
    as (p & Ep & Hp); [done..|]. by exists p.
Qed.

Lemma DrawImageNearestAlpha_paints :
  paints fb (fun px py => rect x y dw dh px py /\ on_screen fb px py)
    (image_pixel fb x y dw dh sw sh pixels alpha)
    (DrawImageNearestAlpha fb x y dw dh sw sh (Some pixels) (Some alpha)).
Proof.
  pose proof Hfits as (? & ? & Hsw & Hsh & Hsize & Hfx & Hfy).
  eapply paints_ext; [|apply (paints_clipped fb _ x y dw dh
    (image_cell fb dw dh sw sh pixels alpha) Hx Hy); [lia|lia|apply image_cell_paints]].
  intros m. unfold DrawImageNearestAlpha.
  assert (((dw =? 0) || (dh =? 0) || (sw =? 0) || (sh =? 0))%bool = false) as ->
    by (rewrite !orb_false_iff, !Z.eqb_neq; lia).
  apply for_count_ext. intros row m1 Hrow.
  destruct (source_axis_spec row dh sh) as [-> _]; [done|done|lia|done|]. mred.
  destruct (_ || _)%bool; [done|]. apply for_count_ext. intros column m2 Hcol.
  destruct (source_axis_spec column dw sw) as [-> _]; [done|done|lia|done|]. mred. done.
Qed.
End image.

Lemma DrawImageNearestAlpha_draws fb x y dw dh sw sh pixels alpha :
  blendable fb -> is_i32 x -> is_i32 y -> draw_fits dw dh sw sh ->
  image_wf sw sh 3 pixels -> image_wf sw sh 1 alpha ->
  draws fb (fun px py => rect x y dw dh px py /\ on_screen fb px py)
    (DrawImageNearestAlpha fb x y dw dh sw sh (Some pixels) (Some alpha)).
Proof.
  intros ? ? ? ? [] [? ? ? Hal ?]. eapply paints_draws, DrawImageNearestAlpha_paints; try done. lia.
Qed.

Lemma DrawImageNearestAlpha_tints fb x y dw dh sw sh pixels alpha :
  blendable fb -> is_i32 x -> is_i32 y -> draw_fits dw dh sw sh ->
  image_wf sw sh 3 pixels -> image_wf sw sh 1 alpha ->
  tints fb (fun px py => rect x y dw dh px py /\ on_screen fb px py)
    (DrawImageNearestAlpha fb x y dw dh sw sh (Some pixels) (Some alpha)).
Proof.
  intros ? ? ? ? [] [? ? ? Hal ?].
  eapply paints_tints, DrawImageNearestAlpha_paints; [apply _|try done..]. lia.
Qed.

(** An image of constant channels keeps them at every position. *)
Lemma bilinear_in_range l w h k ch u v lo hi :
  0 < w < 65536 -> 0 < h < 65536 -> 0 < k <= 3 -> 0 <= ch < k -> w * h * 3 < 4294967296 ->
  Z.of_nat (length l) = w * h * k -> bytes l -> Forall (fun p => lo <= p <= hi) l ->
  0 <= u <= (w - 1) * 256 -> 0 <= v <= (h - 1) * 256 ->
  exists p, bilinear l w h k ch u v = Done p /\ lo <= p <= hi.
Proof.
  intros Hw Hh Hk Hch Hsize Hlen Hbytes Hlohi Hu Hv.
  set (x0 := u / 256). set (y0 := v / 256).
  set (x1 := Z.min (x0 + 1) (w - 1)). set (y1 := Z.min (y0 + 1) (h - 1)).
  assert (0 <= x0 < w /\ 0 <= x1 < w /\ 0 <= u mod 256 < 256) as (Hx0 & Hx1 & Hbx)
    by (subst x0 x1; dlia).
  assert (0 <= y0 < h /\ 0 <= y1 < h /\ 0 <= v mod 256 < 256) as (Hy0 & Hy1 & Hb)
    by (subst y0 y1; dlia).
  assert (forall x y, 0 <= x < w -> 0 <= y < h ->
    exists p, rd l ((y * w + x) * k + ch) = Done p /\ is_u8 p /\ lo <= p <= hi) as Hrd.
  { intros x y Hx Hy. pose proof (index2_bound y x w h Hy Hx) as H2.
    pose proof (index2_bound (y * w + x) ch k (w * h) H2 Hch) as H3.
    destruct (rd_forall (fun p => is_u8 p /\ lo <= p <= hi) l ((y * w + x) * k + ch))
      as (p & -> & Hp); [by apply Forall_and|lia|]. by exists p. }
  destruct (Hrd x0 y0) as (p00 & E00 & B00 & R00); [done..|].
  destruct (Hrd x1 y0) as (p10 & E10 & B10 & R10); [done..|].
  destruct (Hrd x0 y1) as (p01 & E01 & B01 & R01); [done..|].
  destruct (Hrd x1 y1) as (p11 & E11 & B11 & R11); [done..|].
  unfold bilinear. change (u / 256) with x0. change (v / 256) with y0. cbn zeta.
  fold x1 y1. rewrite E00, E10, E01, E11. mred. eexists. split; [done|].
  pose proof (weighted_mean p00 p10 p01 p11 _ _ Hbx Hb B00 B10 B01 B11) as [_ Hm]. lia.
Qed.

(* ------------------------------------------------------------------ *)
(** ** Lemmas: tweens and the splash *)

Section splash_spec.
Context `{A : Assets, !AssetsWf A}.

Lemma tween_mode_wf t mode : tween_wf t -> curve_wf (tween_mode t mode).
Proof. intros (? & ? & ? & ?). unfold tween_mode. by repeat case_match. Qed.

(** Every tween is defined at every progress, with a value in [0, 1024]. *)
Lemma EvaluateTween_total family mode progress : 0 <= progress ->
  exists v, EvaluateTween family mode progress = Done v /\ 0 <= v <= 1024.
Proof.
  intros Hp. unfold EvaluateTween. cbn zeta.
  set (table := if family =? 1 then _ else _).
  assert (curve_wf table) as [Hl Hv].
  { subst table. repeat case_match; apply tween_mode_wf; auto with assets. }
  apply (rd_forall (fun v => 0 <= v <= 1024)); [done|].
  rewrite Hl. destruct (Z.ltb_spec 1024 progress); lia.
Qed.

Lemma ComputeSplashRect_spec fb scale sx sy dw dh : fb_wf fb -> 0 <= scale <= 1024 ->
  ComputeSplashRect fb scale = (sx, sy, dw, dh) ->
  dw = Z.min (SPLASH_WIDTH * scale / 1024) (ScreenWidth fb) /\
  dh = Z.min (SPLASH_HEIGHT * scale / 1024) (ScreenHeight fb) /\
  0 <= sx /\ sx + dw <= ScreenWidth fb /\ 0 <= sy /\ sy + dh <= ScreenHeight fb /\
  (0 < dw -> 0 < dh -> sx = (ScreenWidth fb - dw) / 2 /\ sy = (ScreenHeight fb - dh) / 2).
Proof.
  intros [] Hs. unfold ComputeSplashRect. destruct splash_wf.
  assert (0 <= SPLASH_WIDTH * scale <= 65535 * 1024) by (clear -image_w Hs; nia).
  assert (0 <= SPLASH_HEIGHT * scale <= 65535 * 1024) by (clear -image_h Hs; nia).
  rewrite (u32_id (SPLASH_WIDTH * scale)), (u32_id (SPLASH_HEIGHT * scale)) by lia.
  assert (0 <= SPLASH_WIDTH * scale / 1024) by dlia.
  assert (0 <= SPLASH_HEIGHT * scale / 1024) by dlia.
  set (W := SPLASH_WIDTH * scale / 1024) in *. set (H' := SPLASH_HEIGHT * scale / 1024) in *.
  assert ((if ScreenWidth fb <? W then ScreenWidth fb else W) = Z.min W (ScreenWidth fb)) as ->
    by (destruct (Z.ltb_spec (ScreenWidth fb) W); lia).
  assert ((if ScreenHeight fb <? H' then ScreenHeight fb else H') = Z.min H' (ScreenHeight fb)) as ->
    by (destruct (Z.ltb_spec (ScreenHeight fb) H'); lia).
  clearbody W H'. set (dw' := Z.min W _). set (dh' := Z.min H' _).
  rewrite (u32_id (ScreenWidth fb - dw')), (u32_id (ScreenHeight fb - dh')) by lia.
  rewrite !Z.shiftr_div_pow2 by lia. change (2 ^ 1) with 2.
  assert (forall a b, a <= b -> 0 <= a -> (if a <? b then (b - a) / 2 else 0) = (b - a) / 2) as Hc.
  { intros a b Hab Ha. destruct (Z.ltb_spec a b); [done|]. by replace (b - a) with 0 by lia. }
  rewrite !Hc by lia. destruct (_ || _)%bool eqn:E.
  - rewrite orb_true_iff, !Z.eqb_eq in E. intros [= <- <- <- <-]. lia.
  - intros [= <- <- <- <-]. assert (dw' <= ScreenWidth fb) by lia.
    assert (dh' <= ScreenHeight fb) by lia. clearbody dw' dh'. split_and!; try done; dlia.
Qed.

(** The code's source index of a draw index, without wrapping. *)
Lemma splash_source i n source : 0 <= i < n -> n <= 65535 -> 0 < source < 65536 ->
  udiv (u32 (i * source)) n = Done (i * source / n) /\ 0 <= i * source / n < source.
Proof.
  intros Hi Hn Hs. assert (0 <= i * source <= 65535 * 65535) by nia.
  rewrite u32_id by lia. rewrite udiv_done by lia. split; [done|].
  split; [apply Z.div_pos; lia|]. apply Z.div_lt_upper_bound; [lia|]. nia.
Qed.

(** A splash frame fills its centred rectangle with the nearest pixels of
    the splash, faded, and touches nothing else. *)
Lemma DrawSplashFrame_paints fb alpha scale sx sy dw dh : fb_wf fb -> blendable fb ->
  is_u8 alpha -> 0 <= scale <= 1024 ->
  ComputeSplashRect fb scale = (sx, sy, dw, dh) ->
  paints fb (rect sx sy dw dh) (splash_pixel fb sx sy dw dh alpha) (DrawSplashFrame fb alpha scale).
Proof.
  intros Hfb (Hrm & Hgm & Hbm & _) Ha Hs E. unfold DrawSplashFrame. rewrite E.
  destruct (ComputeSplashRect_spec fb scale sx sy dw dh Hfb Hs E) as (Ew & Eh & ? & ? & ? & ? & _).
  pose proof splash_wf as [Hw Hh Hsz Hl Hb]. pose proof Hfb as [].
  assert (dw <= 65535 /\ dh <= 65535) as [Hdw Hdh].
  { assert (SPLASH_WIDTH * scale / 1024 <= 65535) by (apply Z.div_le_upper_bound; nia).
    assert (SPLASH_HEIGHT * scale / 1024 <= 65535) by (apply Z.div_le_upper_bound; nia). lia. }
  clear Ew Eh E.
  destruct ((dw =? 0) || (dh =? 0))%bool eqn:E0.
  { apply paints_none. intros px py _ [? ?]. rewrite orb_true_iff, !Z.eqb_eq in E0. lia. }
  eapply paints_iff; [|apply (paints_rows _ _ (fun _ _ => True) sx sy dw dh)]; [intros px py _; tauto|].
  intros j Hj. destruct (splash_source j dh SPLASH_HEIGHT) as [-> HsY]; [done|lia|lia|]. mred.
  cbn zeta. set (sY := j * SPLASH_HEIGHT / dh) in *.
  apply paints_columns.
  intros i Hi. destruct (splash_source i dw SPLASH_WIDTH) as [-> HsX]; [done|lia|lia|]. mred.
  set (sX := i * SPLASH_WIDTH / dw) in *.
  pose proof (index2_bound sY sX SPLASH_WIDTH SPLASH_HEIGHT HsY HsX) as Hidx.
  assert (u32 (u32 (sY * SPLASH_WIDTH * 3) + u32 (sX * 3)) = (sY * SPLASH_WIDTH + sX) * 3) as ->.
  { assert (0 <= sY * SPLASH_WIDTH) by (apply Z.mul_nonneg_nonneg; lia).
    rewrite (u32_id (sY * SPLASH_WIDTH * 3)), (u32_id (sX * 3)), u32_id by lia. lia. }
  set (k := (sY * SPLASH_WIDTH + sX) * 3) in *.
  assert (forall c, 0 <= c < 3 -> exists v, rd gSplashPixels (k + c) = Done v /\ u32 (k + c) = k + c)
    as Hrd.
  { intros c Hc. destruct (rd_done gSplashPixels (k + c)) as (v & ? & _); [lia|].
    exists v. split; [done|]. apply u32_id. lia. }
  destruct (Hrd 0 ltac:(lia)) as (r & Er & ->). destruct (Hrd 1 ltac:(lia)) as (g & Eg & ->).
  destruct (Hrd 2 ltac:(lia)) as (b & Eb & ->). rewrite Z.add_0_r in Er. rewrite Z.add_0_r, Er.
  mred. rewrite Eg. mred. rewrite Eb. mred.
  destruct (ComposePixel_total (BlendChannelOverBlack r alpha) (BlendChannelOverBlack g alpha)
    (BlendChannelOverBlack b alpha) (PixelFormat fb) (RedMask fb) (GreenMask fb) (BlueMask fb))
    as (p & Ep & Hp); [apply u8_range..|done|done|done|]. rewrite Ep. mred.
  assert (u32 (u32 (u32 (sy + j) * PixelsPerScanLine fb + sx) + i) =
    u32 ((sy + j) * PixelsPerScanLine fb + (sx + i))) as ->.
  { rewrite (u32_id (sy + j)) by lia. unfold u32. rewrite Zplus_mod_idemp_l. f_equal. lia. }
  eapply paints_iff with (R := fun px py => px = sx + i /\ py = sy + j); [intros px py _; tauto|].
  apply paints_store; [intros _; split; lia|done|]. intros old _. unfold splash_pixel.
  replace (sy + j - sy) with j by lia. replace (sx + i - sx) with i by lia.
  fold sY sX k. rewrite Er. mred. rewrite Eg. mred. rewrite Eb. mred. done.
Qed.

(** The frames of the sequence: scaled between 975 and 1024. *)
Lemma splash_frame_total frame : 0 <= frame < 30 ->
  exists scale alpha, splash_frame frame 30 = Done (scale, alpha) /\
    975 <= scale <= 1024 /\ is_u8 alpha.
Proof.
  intros Hf. unfold splash_frame. change (u32 (30 - 1)) with 29. rewrite u32_id by lia.
  rewrite udiv_done by lia. mred.
  destruct (EvaluateTween_total 2 1 (frame * 1024 / 29)) as (e & -> & He); [apply Z.div_pos; lia|].
  mred. cbn zeta. rewrite (u32_id (1024 - e)), (u32_id (975 * _ + _)) by lia.
  do 2 eexists. split; [done|]. split; [|apply u8_range]. dlia.
Qed.

(** The sequence runs to its end on the screen, stalling between frames. *)
Lemma PlaySplashSequence_spec {World} fb (stall : Z -> World -> World) m w :
  ready fb m -> blendable fb ->
  exists m', PlaySplashSequence fb stall m w =
      Done (m', stall 1000000 (Nat.iter 30 (stall 16667) (stall 1000000 w))) /\
    ready fb m' /\ same_off (region fb (fun _ _ => True)) m m'.
Proof.
  intros Hm Hblend. unfold PlaySplashSequence.
  destruct (for_count_inv (fun i '(m', w') => ready fb m' /\
      same_off (region fb (fun _ _ => True)) m m' /\
      w' = Nat.iter (Z.to_nat i) (stall 16667) (stall 1000000 w)) 30
    (fun frame '(m, w) =>
      '(scale1024, alpha255) ← splash_frame frame 30;
      black ← ComposeFor fb 0 0 0;
      m ← ClearScreen fb black 1 m;
      m ← DrawSplashFrame fb alpha255 scale1024 m;
      Done (m, stall 16667 w)) (m, stall 1000000 w))
    as ([m' w'] & -> & Hm' & Hs & ->); [lia|done| |].
  - intros i [m1 w1] Hi (Hm1 & Hs1 & ->).
    destruct (splash_frame_total i Hi) as (scale & alpha & -> & Hscale & Halpha). mred.
    pose proof Hblend as (? & ? & ? & _).
    destruct (ComposePixel_total 0 0 0 (PixelFormat fb) (RedMask fb) (GreenMask fb) (BlueMask fb))
      as (black & -> & Hblack); [lia|lia|lia|done|done|done|]. mred.
    destruct (ClearScreen_spec fb black 1 m1 Hm1 Hblack) as (m2 & -> & Hm2 & Hs2 & _). mred.
    destruct (ComputeSplashRect fb scale) as [[[sx sy] dw] dh] eqn:Er.
    destruct (DrawSplashFrame_paints fb alpha scale sx sy dw dh (ready_fb _ _ Hm) Hblend Halpha
      ltac:(lia) Er m2 Hm2) as (m3 & -> & Hm3 & Hs3 & _). mred.
    eexists. split; [done|]. split_and!; [done| |].
    + etrans; [exact Hs1|]. etrans; [exact Hs2|]. eapply same_off_weaken; [|exact Hs3].
      intros a. by apply region_mono.
    + replace (Z.to_nat (i + 1)) with (S (Z.to_nat i)) by lia. done.
  - mred. exists m'. split; [|done]. done.
Qed.
End splash_spec.

(* ------------------------------------------------------------------ *)
(** ** Properties *)

(** An image drawn at any position is the bilinear resampling of its
    source, rounded, blended by its own resampled alpha over exactly the
    pixels of the target rectangle that are on the screen. *)
Theorem DrawImageNearestAlpha_correct fb x y dw dh sw sh pixels alpha :
  blendable fb -> is_i32 x -> is_i32 y -> draw_fits dw dh sw sh ->
  image_wf sw sh 3 pixels -> image_wf sw sh 1 alpha ->
  paints fb (fun px py => rect x y dw dh px py /\ on_screen fb px py)
    (image_pixel fb x y dw dh sw sh pixels alpha)
    (DrawImageNearestAlpha fb x y dw dh sw sh (Some pixels) (Some alpha)).
Proof.
  intros ? ? ? ? [] [? ? ? Hal ?]. apply DrawImageNearestAlpha_paints; try done. lia.
Qed.

Lemma DrawImageNearestAlpha_correct_witness :
  let fb := demo_fb 4096 in
  paints fb (fun px py => rect (-1) 1 5 5 px py /\ on_screen fb px py)
    (image_pixel fb (-1) 1 5 5 2 2 (replicate 12 50) (replicate 4 255))
    (DrawImageNearestAlpha fb (-1) 1 5 5 2 2 (Some (replicate 12 50)) (Some (replicate 4 255))).
Proof.
  apply DrawImageNearestAlpha_correct.
  - apply demo_blendable.
  - lia.
  - lia.
  - unfold draw_fits. lia.
  - apply (@icon_wf demo_assets demo_assets_wf).
  - apply (@icon_alpha_wf demo_assets demo_assets_wf).
Defined.

(** A splash frame fills the centred rectangle it computes with the
    nearest pixels of the splash, faded to the frame's alpha, and touches
    nothing else. *)
Theorem DrawSplashFrame_correct `{A : Assets, !AssetsWf A} fb alpha scale sx sy dw dh :
  fb_wf fb -> blendable fb -> is_u8 alpha -> 0 <= scale <= 1024 ->
  ComputeSplashRect fb scale = (sx, sy, dw, dh) ->
  0 <= sx /\ sx + dw <= ScreenWidth fb /\ 0 <= sy /\ sy + dh <= ScreenHeight fb /\
  paints fb (rect sx sy dw dh) (splash_pixel fb sx sy dw dh alpha) (DrawSplashFrame fb alpha scale).
Proof.
  intros Hfb Hb Ha Hs E.
  destruct (ComputeSplashRect_spec fb scale sx sy dw dh Hfb Hs E) as (_ & _ & ? & ? & ? & ? & _).
  split_and!; try done. by apply DrawSplashFrame_paints.
Qed.

Lemma DrawSplashFrame_correct_witness :
  0 <= 2 /\ 2 + 2 <= 6 /\ 0 <= 1 /\ 1 + 2 <= 4 /\
  paints (demo_fb 4096) (rect 2 1 2 2) (@splash_pixel demo_assets (demo_fb 4096) 2 1 2 2 100)
    (@DrawSplashFrame demo_assets (demo_fb 4096) 100 1024).
Proof.
  apply (@DrawSplashFrame_correct demo_assets demo_assets_wf (demo_fb 4096) 100 1024).
  - apply demo_fb_wf; lia.
  - apply demo_blendable.
  - lia.
  - lia.
  - reflexivity.
Defined.

(** The splash sequence runs to its end on the screen: thirty frames,
    each tween in range, a stall after every frame and one second before and
    after. *)
Theorem PlaySplashSequence_correct `{A : Assets, !AssetsWf A} {World : Type} fb
    (stall : Z -> World -> World) m w :
  ready fb m -> blendable fb ->
  exists m', PlaySplashSequence fb stall m w =
      Done (m', stall 1000000 (Nat.iter 30 (stall 16667) (stall 1000000 w))) /\
    ready fb m' /\ same_off (region fb (fun _ _ => True)) m m'.
Proof. apply PlaySplashSequence_spec. Qed.

Lemma PlaySplashSequence_correct_witness :
  exists m', @PlaySplashSequence demo_assets Z (demo_fb 4096) Z.add (buffer 4096 32 7) 0 =
      Done (m', 2500010) /\ ready (demo_fb 4096) m'.
Proof.
  destruct (@PlaySplashSequence_correct demo_assets demo_assets_wf Z (demo_fb 4096) Z.add
    (buffer 4096 32 7) 0) as (m' & E & Hm' & _).
  - apply demo_ready; lia.
  - apply demo_blendable.
  - exists m'. exact (conj E Hm').
Defined.
