(* ===== verification/Format.v ===== *)
(** * Formatting into character buffers

    [AppendText], [AppendInt] and [AppendUIntHexFixed], which write through a
    [char**] with no bound of their own.  A buffer with its write cursor is a
    list of bytes of the declared length and a position: a write outside the
    array is a fault of the model, so "the line is built" is "the line
    fits". *)
From Stdlib Require Import ZArith Lia.
From stdpp Require Import base gmap list.
From S2P Require Import Prelude Surface Pixel.
#[local] Open Scope Z_scope.

(* ------------------------------------------------------------------ *)
(** ** Operations *)

(** A [char] array and where [*cursor] points in it. *)
Abbreviation chars := (list Z * Z)%type.

(** [**cursor = c; ( *cursor)++]. *)
Definition put (c : Z) (b : chars) : outcome chars :=
  buffer ← wr b.1 b.2 c; Done (buffer, b.2 + 1).

(** [*cursor = 0]. *)
Definition terminate (b : chars) : outcome (list Z) := wr b.1 b.2 0.

(** The string a [char] array holds: the bytes before the terminator. *)
Fixpoint c_string (buffer : list Z) : outcome (list Z) :=
  match buffer with
  | [] => Fault OutOfBounds
  | c :: buffer => if c =? 0 then Done [] else s ← c_string buffer; Done (c :: s)
  end.

Fixpoint AppendText (text : list Z) (b : chars) : outcome chars :=
  match text with
  | [] => Done b
  | c :: text => b ← put c b; AppendText text b
  end.

(** [while (magnitude > 0) digits[count++] = '0' + magnitude % 10]. *)
Fixpoint AppendInt_digits (fuel : nat) (magnitude : Z) (digits : list Z) (count : Z)
    : outcome (list Z * Z) :=
  if 0 <? magnitude then
    match fuel with
    | O => Fault Diverges
    | S fuel =>
      digits ← wr digits count (48 + magnitude mod 10);
      AppendInt_digits fuel (magnitude / 10) digits (u32 (count + 1))
    end
  else Done (digits, count).

(** [while (count > 0) *cursor++ = digits[--count]]. *)
Fixpoint AppendInt_emit (fuel : nat) (digits : list Z) (count : Z) (b : chars) : outcome chars :=
  if 0 <? count then
    match fuel with
    | O => Fault Diverges
    | S fuel =>
      let count := u32 (count - 1) in
      d ← rd digits count;
      b ← put d b;
      AppendInt_emit fuel digits count b
    end
  else Done b.

Definition AppendInt (value : Z) (b : chars) : outcome chars :=
  if value =? 0 then put 48 b
  else
    '(magnitude, b) ←
      (if value <? 0 then b ← put 45 b; Done (u32 (i32 (- value)), b) else Done (u32 value, b));
    '(digits, count) ← AppendInt_digits 17 magnitude (replicate 16 0) 0;
    AppendInt_emit 17 digits count b.

Definition AppendUIntHexFixed (value digits : Z) (b : chars) : outcome chars :=
  for_count digits (fun index b =>
    let shift := u32 (u32 (digits - 1 - index) * 4) in
    let nibble := Z.land (shr32 value shift) 15 in
    put (if nibble <? 10 then 48 + nibble else 65 + (nibble - 10)) b) b.

(* ------------------------------------------------------------------ *)
(** ** Specification vocabulary *)

(** The decimal digits of a non-negative number, least significant first. *)
Fixpoint digits_of (n : nat) (v : Z) : list Z :=
  match n with
  | O => []
  | S n => if 0 <? v then (48 + v mod 10) :: digits_of n (v / 10) else []
  end.

(** The decimal text of a number. *)
Definition decimal (v : Z) : list Z :=
  if v =? 0 then [48]
  else (if v <? 0 then [45] else []) ++ rev (digits_of 16 (Z.abs v)).

(** What a reader makes of a decimal text. *)
Definition read_digits (l : list Z) : Z := foldl (fun acc c => acc * 10 + (c - 48)) 0 l.
Definition read_decimal (l : list Z) : Z :=
  match l with
  | c :: l' => if c =? 45 then - read_digits l' else read_digits l
  | [] => 0
  end.

Definition hex_digit (n : Z) : Z := if n <? 10 then 48 + n else 65 + (n - 10).

(** The [n] low hexadecimal digits of a number. *)
Definition hex (v : Z) (n : nat) : list Z :=
  (fun i => hex_digit (v / 16 ^ (Z.of_nat (n - 1 - i)) mod 16)) <$> seq 0 n.

Definition read_hex_digit (c : Z) : Z := if c <? 58 then c - 48 else c - 55.
Definition read_hex (l : list Z) : Z := foldl (fun acc c => acc * 16 + read_hex_digit c) 0 l.

(** [n] more bytes fit. *)
Definition room (n : Z) (b : chars) : Prop := 0 <= b.2 /\ b.2 + n <= Z.of_nat (length b.1).

(** [b'] is [b] with the bytes [bs] written at the cursor. *)
Definition appended (b : chars) (bs : list Z) (b' : chars) : Prop :=
  length b'.1 = length b.1 /\ b'.2 = b.2 + Z.of_nat (length bs) /\
  take (Z.to_nat b'.2) b'.1 = take (Z.to_nat b.2) b.1 ++ bs.

(** A call that writes [bs], when they fit. *)
Definition writes (c : chars -> outcome chars) (bs : list Z) : Prop :=
  forall b, room (Z.of_nat (length bs)) b -> exists b', c b = Done b' /\ appended b bs b'.

(* ------------------------------------------------------------------ *)
(** ** Lemmas: writing *)

Lemma appended_nil b : appended b [] b.
Proof. split_and!; [done|cbn; lia|by rewrite app_nil_r]. Qed.

Lemma appended_app b bs1 b1 bs2 b2 :
  appended b bs1 b1 -> appended b1 bs2 b2 -> appended b (bs1 ++ bs2) b2.
Proof.
  intros (L1 & P1 & T1) (L2 & P2 & T2). split_and!; [congruence| |].
  - rewrite length_app. lia.
  - by rewrite T2, T1, app_assoc.
Qed.

Lemma room_app b bs1 b1 n : room (Z.of_nat (length bs1) + n) b -> appended b bs1 b1 -> room n b1.
Proof. intros [H0 H1] (L & P & _). unfold room. rewrite L, P. lia. Qed.

Lemma writes_app c1 c2 bs1 bs2 : writes c1 bs1 -> writes c2 bs2 ->
  writes (fun b => b ← c1 b; c2 b) (bs1 ++ bs2).
Proof.
  intros H1 H2 b Hb. rewrite length_app, Nat2Z.inj_add in Hb.
  destruct (H1 b) as (b1 & -> & A1); [unfold room in *; lia|].
  destruct (H2 b1) as (b2 & E & A2); [by eapply room_app|]. mred.
  exists b2. split; [done|]. by eapply appended_app.
Qed.

Lemma writes_ext c1 c2 bs : (forall b, c1 b = c2 b) -> writes c2 bs -> writes c1 bs.
Proof. intros E H b Hb. rewrite E. by apply H. Qed.

Lemma put_writes c : writes (put c) [c].
Proof.
  intros b [H0 H1]. cbn in H1. unfold put. rewrite wr_done by lia. mred.
  eexists. split; [done|]. split_and!; cbn [fst snd length].
  - apply length_insert.
  - lia.
  - replace (Z.to_nat (b.2 + 1)) with (S (Z.to_nat b.2)) by lia.
    rewrite (take_S_r _ _ c) by (apply list_lookup_insert_eq; lia).
    by rewrite take_insert_ge by lia.
Qed.

Lemma AppendText_writes text : writes (AppendText text) text.
Proof.
  induction text as [|c text IH].
  - intros b _. exists b. split; [done|apply appended_nil].
  - exact (writes_app (put c) (AppendText text) [c] text (put_writes c) IH).
Qed.

(* ------------------------------------------------------------------ *)
(** ** Lemmas: decimal *)

Lemma digits_of_length n v : (length (digits_of n v) <= n)%nat.
Proof. revert v. induction n as [|n IH]; intros v; cbn; [done|]. destruct (0 <? v); cbn; [|lia].
  specialize (IH (v / 10)). lia. Qed.

Lemma digits_of_small n k v : 0 <= v < 10 ^ Z.of_nat k -> (k <= n)%nat ->
  (length (digits_of n v) <= k)%nat /\ digits_of n v = digits_of k v.
Proof.
  revert k v. induction n as [|n IH]; intros [|k] v Hv Hk; cbn [digits_of]; try lia; try done.
  - change (10 ^ Z.of_nat 0) with 1 in Hv. destruct (Z.ltb_spec 0 v); [lia|done].
  - destruct (Z.ltb_spec 0 v); [|cbn; split; [lia|done]].
    rewrite Nat2Z.inj_succ, Z.pow_succ_r in Hv by lia.
    destruct (IH k (v / 10)) as [H1 H2]; [|lia|].
    + split; [apply Z.div_pos; lia|]. apply Z.div_lt_upper_bound; lia.
    + cbn. split; [lia|]. by rewrite H2.
Qed.

Lemma read_digits_snoc l c : read_digits (l ++ [c]) = read_digits l * 10 + (c - 48).
Proof. unfold read_digits. by rewrite foldl_app. Qed.

Lemma read_digits_of n v : 0 <= v < 10 ^ Z.of_nat n -> read_digits (rev (digits_of n v)) = v.
Proof.
  revert v. induction n as [|n IH]; intros v Hv; cbn [digits_of].
  { change (10 ^ Z.of_nat 0) with 1 in Hv. cbn. lia. }
  destruct (Z.ltb_spec 0 v); [|cbn; lia]. cbn [rev].
  rewrite read_digits_snoc, IH.
  - pose proof (Z.div_mod v 10). lia.
  - rewrite Nat2Z.inj_succ, Z.pow_succ_r in Hv by lia.
    split; [apply Z.div_pos; lia|]. apply Z.div_lt_upper_bound; lia.
Qed.

Lemma digits_of_digits n v : Forall (fun c => 48 <= c < 58) (digits_of n v).
Proof.
  revert v. induction n as [|n IH]; intros v; cbn [digits_of]; [constructor|].
  destruct (0 <? v); constructor; [|apply IH]. pose proof (Z.mod_pos_bound v 10). lia.
Qed.

(** The first loop leaves the digits in the array, least significant
    first, and never reaches its end. *)
Lemma AppendInt_digits_spec n fuel v pre post :
  0 <= v < 10 ^ Z.of_nat n -> (n < fuel)%nat -> Z.of_nat (length pre + n) < 4294967296 ->
  (length (digits_of n v) <= length post)%nat ->
  AppendInt_digits fuel v (pre ++ post) (Z.of_nat (length pre)) =
  Done (pre ++ digits_of n v ++ drop (length (digits_of n v)) post,
        Z.of_nat (length pre + length (digits_of n v))).
Proof.
  revert n v pre post. induction fuel as [|fuel IH]; intros n v pre post Hv Hf Hp Hl; [lia|].
  cbn [AppendInt_digits]. destruct n as [|n]; cbn [digits_of].
  { change (10 ^ Z.of_nat 0) with 1 in Hv. destruct (Z.ltb_spec 0 v); [lia|].
    cbn. by rewrite Nat.add_0_r. }
  cbn [digits_of] in Hl. destruct (Z.ltb_spec 0 v); [|cbn; by rewrite Nat.add_0_r].
  cbn [length] in Hl. destruct post as [|q post]; cbn [length] in Hl; [lia|].
  rewrite wr_done by (rewrite length_app; cbn [length]; lia). mred.
    rewrite Nat2Z.id. rewrite <- (Nat.add_0_r (length pre)) at 1. rewrite insert_app_r. cbn [insert list_insert].
  rewrite u32_id by lia.
  replace (pre ++ (48 + v mod 10) :: post) with ((pre ++ [48 + v mod 10]) ++ post) by (by rewrite <- app_assoc).
  replace (Z.of_nat (length pre) + 1) with (Z.of_nat (length (pre ++ [48 + v mod 10])))
    by (rewrite length_app; cbn; lia).
  rewrite (IH n); [|..].
  - rewrite <- app_assoc. cbn [app length drop]. rewrite length_app. cbn [length].
    do 2 f_equal. lia.
  - rewrite Nat2Z.inj_succ, Z.pow_succ_r in Hv by lia.
    split; [apply Z.div_pos; lia|]. apply Z.div_lt_upper_bound; lia.
  - lia.
  - rewrite length_app. cbn. lia.
  - lia.
Qed.

(** The second loop writes them out, most significant first. *)
Lemma AppendInt_emit_writes fuel ds post :
  (length ds < fuel)%nat -> Z.of_nat (length ds) < 4294967296 ->
  writes (AppendInt_emit fuel (ds ++ post) (Z.of_nat (length ds))) (rev ds).
Proof.
  revert fuel post. induction ds as [|d ds IH] using rev_ind; intros [|fuel] post Hf Hl; try lia.
  - intros b _. exists b. split; [done|apply appended_nil].
  - rewrite rev_app_distr. cbn [rev app]. rewrite length_app in *. cbn [length] in *.
    eapply writes_ext; [|apply (writes_app (put d)
      (AppendInt_emit fuel (ds ++ d :: post) (Z.of_nat (length ds))) [d] (rev ds));
      [apply put_writes|apply IH; lia]].
    intros b. cbn [AppendInt_emit]. destruct (Z.ltb_spec 0 (Z.of_nat (length ds + 1))); [|lia].
    rewrite u32_id by lia. replace (Z.of_nat (length ds + 1) - 1) with (Z.of_nat (length ds)) by lia.
    rewrite <- app_assoc. cbn [app]. unfold rd. rewrite decide_True by lia. rewrite Nat2Z.id.
    rewrite (list_lookup_middle ds post d) by done. done.
Qed.

Lemma decimal_length v : is_i32 v -> (0 < length (decimal v) <= 11)%nat.
Proof.
  intros Hv. unfold decimal. destruct (Z.eqb_spec v 0); [cbn; lia|].
  destruct (digits_of_small 16 10 (Z.abs v)) as [Hl _]; [change (10 ^ Z.of_nat 10) with 10000000000; lia|lia|].
  rewrite length_app, length_rev.
  assert (length (digits_of 16 (Z.abs v)) <> 0)%nat.
  { cbn [digits_of]. destruct (Z.ltb_spec 0 (Z.abs v)); cbn; lia. }
  destruct (v <? 0); cbn [length]; lia.
Qed.

(** [AppendInt] writes the decimal text of its argument, the most negative
    integer included. *)
Lemma AppendInt_writes v : is_i32 v -> writes (AppendInt v) (decimal v).
Proof.
  intros Hv. unfold AppendInt, decimal. destruct (Z.eqb_spec v 0); [apply put_writes|].
  set (ds := digits_of 16 (Z.abs v)).
  assert (AppendInt_digits 17 (Z.abs v) (replicate 16 0) 0 =
    Done (ds ++ drop (length ds) (replicate 16 0), Z.of_nat (length ds))) as Eds.
  { apply (AppendInt_digits_spec 16 17 (Z.abs v) [] (replicate 16 0)).
    - change (10 ^ Z.of_nat 16) with 10000000000000000. lia.
    - lia.
    - cbn [length]. lia.
    - rewrite length_replicate. apply digits_of_length. }
  pose proof (digits_of_length 16 (Z.abs v)) as Hl. fold ds in Hl.
  assert (writes (AppendInt_emit 17 (ds ++ drop (length ds) (replicate 16 0)) (Z.of_nat (length ds)))
    (rev ds)) as Hemit by (apply AppendInt_emit_writes; lia).
  destruct (Z.ltb_spec v 0).
  - eapply writes_ext; [|apply (writes_app (put 45) _ [45] (rev ds) (put_writes 45) Hemit)].
    intros b. rewrite bind_assoc. apply bind_ext. intros b1. mred.
    assert (u32 (i32 (- v)) = Z.abs v) as ->.
    { rewrite u32_i32, u32_id by lia. lia. }
    by rewrite Eds.
  - eapply writes_ext; [|exact Hemit]. intros b. mred.
    rewrite (u32_id v) by lia. replace v with (Z.abs v) at 1 by lia. by rewrite Eds.
Qed.

(** The text reads back as the number. *)
Lemma read_decimal_decimal v : is_i32 v -> read_decimal (decimal v) = v.
Proof.
  intros Hv. unfold decimal. destruct (Z.eqb_spec v 0); [by subst|].
  pose proof (read_digits_of 16 (Z.abs v)) as Hr.
  specialize (Hr ltac:(change (10 ^ Z.of_nat 16) with 10000000000000000; lia)).
  destruct (Z.ltb_spec v 0); cbn [app].
  - cbn [read_decimal Z.eqb Pos.eqb]. lia.
  - assert (Forall (fun c => 48 <= c < 58) (rev (digits_of 16 (Z.abs v)))) as Hd
      by (apply Forall_rev, digits_of_digits).
    destruct (rev (digits_of 16 (Z.abs v))) as [|c l]; [cbn in *; lia|]. cbn [read_decimal].
    apply Forall_cons in Hd as [Hc _]. destruct (Z.eqb_spec c 45); lia.
Qed.

(* ------------------------------------------------------------------ *)
(** ** Lemmas: hexadecimal *)

(** A loop that writes one byte per round. *)
Lemma writes_count n (body : Z -> chars -> outcome chars) (f : nat -> Z) :
  0 <= n -> (forall i, 0 <= i < n -> writes (body i) [f (Z.to_nat i)]) ->
  writes (fun b => for_count n body b) (f <$> seq 0 (Z.to_nat n)).
Proof.
  intros Hn Hbody b Hb. rewrite length_fmap, length_seq in Hb.
  destruct (for_count_inv (fun i b' => appended b (f <$> seq 0 (Z.to_nat i)) b') n body b)
    as (b' & E & A); [done|apply appended_nil| |by exists b'].
  intros i b1 Hi A1. destruct (Hbody i Hi b1) as (b2 & E & A2).
  { eapply room_app; [|exact A1]. rewrite length_fmap, length_seq. cbn. unfold room in *. lia. }
  exists b2. split; [done|]. replace (Z.to_nat (i + 1)) with (S (Z.to_nat i)) by lia.
  rewrite seq_S, fmap_app. by eapply appended_app.
Qed.

Lemma hex_nibble v n i : is_u32 v -> 0 <= i < n -> n <= 8 ->
  Z.land (shr32 v (u32 (u32 (n - 1 - i) * 4))) 15 = v / 16 ^ (n - 1 - i) mod 16.
Proof.
  intros Hv Hi Hn. rewrite (u32_id (n - 1 - i)), u32_id by lia.
  rewrite shr32_id, Z.shiftr_div_pow2 by lia. change 15 with (Z.ones 4).
  rewrite Z.land_ones by lia. change 16 with (2 ^ 4) at 1. rewrite <- Z.pow_mul_r by lia.
  by rewrite (Z.mul_comm 4).
Qed.

Lemma AppendUIntHexFixed_writes v n : is_u32 v -> 0 <= n <= 8 ->
  writes (AppendUIntHexFixed v n) (hex v (Z.to_nat n)).
Proof.
  intros Hv Hn. unfold AppendUIntHexFixed, hex. apply writes_count; [lia|].
  intros i Hi. cbn zeta. rewrite hex_nibble by lia.
  replace (Z.of_nat (Z.to_nat n - 1 - Z.to_nat i)) with (n - 1 - i) by lia. apply put_writes.
Qed.

Lemma hex_S v n : hex v (S n) = hex_digit (v / 16 ^ Z.of_nat n mod 16) :: hex v n.
Proof.
  unfold hex. cbn [seq fmap list_fmap]. f_equal.
  - by replace (S n - 1 - 0)%nat with n by lia.
  - rewrite <- fmap_S_seq, <- list_fmap_compose. apply list_fmap_ext. intros i j _. cbn.
    by replace (n - 0 - S j)%nat with (n - 1 - j)%nat by lia.
Qed.

Lemma read_hex_digit_digit d : 0 <= d < 16 -> read_hex_digit (hex_digit d) = d.
Proof.
  intros Hd. unfold read_hex_digit, hex_digit. destruct (Z.ltb_spec d 10).
  - destruct (Z.ltb_spec (48 + d) 58); lia.
  - destruct (Z.ltb_spec (65 + (d - 10)) 58); lia.
Qed.

Lemma read_hex_hex v n : read_hex (hex v n) = v mod 16 ^ Z.of_nat n.
Proof.
  assert (forall acc, foldl (fun acc c => acc * 16 + read_hex_digit c) acc (hex v n) =
    acc * 16 ^ Z.of_nat n + v mod 16 ^ Z.of_nat n) as H; [|by unfold read_hex; rewrite H].
  induction n as [|n IH]; intros acc.
  - cbn. change (16 ^ 0) with 1. rewrite Z.mod_1_r. lia.
  - rewrite hex_S. cbn [foldl]. rewrite read_hex_digit_digit by (apply Z.mod_pos_bound; lia).
    rewrite IH, Nat2Z.inj_succ, Z.pow_succ_r by lia.
    assert (16 ^ Z.of_nat n <> 0) by (apply Z.pow_nonzero; lia).
    rewrite (Z.mul_comm 16 (16 ^ _)), Z.rem_mul_r by lia. lia.
Qed.

(* ------------------------------------------------------------------ *)
(** ** Lemmas: whole lines *)

Lemma c_string_app bs rest : Forall (fun c => c <> 0) bs -> c_string (bs ++ 0 :: rest) = Done bs.
Proof.
  induction 1 as [|c bs Hc _ IH]; cbn; [done|]. apply Z.eqb_neq in Hc. by rewrite Hc, IH.
Qed.

(** A call that writes [bs] and a terminator, when they fit. *)
Definition finishes (k : chars -> outcome (list Z)) (bs : list Z) : Prop :=
  forall b, room (Z.of_nat (length bs) + 1) b ->
    exists buffer rest, k b = Done buffer /\ length buffer = length b.1 /\
      buffer = take (Z.to_nat b.2) b.1 ++ bs ++ 0 :: rest.

Lemma finishes_terminate : finishes terminate [].
Proof.
  intros [buf pos] [H0 H1]. cbn in H0, H1. unfold terminate. cbn [fst snd].
  rewrite wr_done by lia. exists (<[Z.to_nat pos:=0]> buf), (drop (S (Z.to_nat pos)) buf).
  split_and!; [done|apply length_insert|]. cbn [app].
  destruct (lookup_lt_is_Some_2 buf (Z.to_nat pos)) as [c Hc]; [lia|].
  by rewrite insert_take_drop by lia.
Qed.

Lemma finishes_app c k bs1 bs2 : writes c bs1 -> finishes k bs2 ->
  finishes (fun b => b ← c b; k b) (bs1 ++ bs2).
Proof.
  intros Hc Hk b Hb. rewrite length_app, Nat2Z.inj_add in Hb.
  destruct (Hc b) as (b1 & -> & A); [unfold room in *; lia|]. mred.
  destruct (Hk b1) as (buf & rest & E & L & T).
  { eapply room_app; [|exact A]. by rewrite Z.add_assoc. }
  destruct A as (L1 & P1 & T1). exists buf, rest. split_and!; [done|congruence|].
  by rewrite T, T1, <- !app_assoc.
Qed.

Lemma finishes_last c bs : writes c bs -> finishes (fun b => b ← c b; terminate b) bs.
Proof.
  intros Hc. rewrite <- (app_nil_r bs). apply finishes_app; [done|apply finishes_terminate].
Qed.

(** A line written from the start of a buffer and terminated is the
    string the buffer then holds. *)
Lemma line_string k bs buffer :
  finishes k bs -> Forall (fun c => c <> 0) bs -> (length bs < length buffer)%nat ->
  exists buffer', k (buffer, 0) = Done buffer' /\
    c_string buffer' = Done bs /\ length buffer' = length buffer.
Proof.
  intros Hk Hbs Hl. destruct (Hk (buffer, 0)) as (buf & rest & E & L & T); [unfold room; cbn; lia|].
  exists buf. split_and!; [done| |done]. rewrite T. by apply c_string_app.
Qed.

Lemma decimal_chars v : Forall (fun c => 45 <= c < 58) (decimal v).
Proof.
  unfold decimal. destruct (v =? 0); [by repeat constructor|].
  apply Forall_app. split; [destruct (v <? 0); by repeat constructor|].
  apply Forall_rev. eapply Forall_impl; [apply digits_of_digits|]. cbn. lia.
Qed.

Lemma decimal_nonzero v : Forall (fun c => c <> 0) (decimal v).
Proof. eapply Forall_impl; [apply decimal_chars|]. cbn. lia. Qed.

Lemma hex_nonzero v n : Forall (fun c => c <> 0) (hex v n).
Proof.
  unfold hex. apply Forall_fmap, Forall_forall. intros i _. cbn. unfold hex_digit.
  pose proof (Z.mod_pos_bound (v / 16 ^ Z.of_nat (n - 1 - i)) 16).
  destruct (Z.ltb_spec (v / 16 ^ Z.of_nat (n - 1 - i) mod 16) 10); lia.
Qed.

Lemma hex_length v n : length (hex v n) = n.
Proof. unfold hex. by rewrite length_fmap, length_seq. Qed.

(* ------------------------------------------------------------------ *)
(** ** Properties *)

(** [AppendInt] writes, for every 32-bit integer and wherever there is
    room for it, at most eleven bytes that read back as the integer. *)
Theorem AppendInt_roundtrip v b : is_i32 v -> room 11 b ->
  exists b', AppendInt v b = Done b' /\ appended b (decimal v) b' /\
    read_decimal (decimal v) = v /\ (0 < length (decimal v) <= 11)%nat.
Proof.
  intros Hv Hb. pose proof (decimal_length v Hv).
  destruct (AppendInt_writes v Hv b) as (b' & ? & ?); [unfold room in *; lia|].
  exists b'. split_and!; try done; try lia. by apply read_decimal_decimal.
Qed.

Lemma AppendInt_roundtrip_witness :
  exists b', AppendInt (-2147483648) (replicate 12 0, 0) = Done b' /\
    read_decimal (decimal (-2147483648)) = -2147483648.
Proof.
  destruct (AppendInt_roundtrip (-2147483648) (replicate 12 0, 0)) as (b' & E & _ & H & _).
  - lia.
  - unfold room. cbn. lia.
  - exists b'. exact (conj E H).
Defined.

(** [AppendUIntHexFixed] writes exactly the digits asked for, and they
    read back as the low digits of the value. *)
Theorem AppendUIntHexFixed_roundtrip v n b : is_u32 v -> 0 <= n <= 8 -> room n b ->
  exists b', AppendUIntHexFixed v n b = Done b' /\ appended b (hex v (Z.to_nat n)) b' /\
    Z.of_nat (length (hex v (Z.to_nat n))) = n /\ read_hex (hex v (Z.to_nat n)) = v mod 16 ^ n.
Proof.
  intros Hv Hn Hb. pose proof (hex_length v (Z.to_nat n)) as Hl.
  destruct (AppendUIntHexFixed_writes v n Hv Hn b) as (b' & ? & ?); [rewrite Hl, Z2Nat.id by lia; done|].
  exists b'. split_and!; try done; [lia|]. by rewrite read_hex_hex, Z2Nat.id by lia.
Qed.

Lemma AppendUIntHexFixed_roundtrip_witness :
  exists b', AppendUIntHexFixed 32902 4 (replicate 5 0, 1) = Done b' /\
    read_hex (hex 32902 4) = 32902.
Proof.
  destruct (AppendUIntHexFixed_roundtrip 32902 4 (replicate 5 0, 1)) as (b' & E & _ & _ & H).
  - lia.
  - lia.
  - unfold room. cbn. lia.
  - exists b'. exact (conj E H).
Defined.
