(* ===== verification/Console.v ===== *)
(** * The text console

    The boot record ([KERNEL_BOOT_INFO], [PCI_DEVICE_INFO]), the console
    blocks ([CountTextLines], [AdvanceConsoleBlockY], [DrawConsoleBlock] and
    their icon variants), the mouse debug lines ([DrawMouseDebug]) and the
    kernel status screen ([DrawKernelStatusScreen]).  The local [char] arrays
    are arguments: their initial bytes are whatever the stack held. *)
From Stdlib Require Import ZArith Lia String.
From stdpp Require Import base gmap list.
From S2P Require Import Prelude Surface Pixel Assets Text Cursor Format.
#[local] Open Scope Z_scope.

(* ------------------------------------------------------------------ *)
(** ** Data *)

Definition KERNEL_PCI_KIND_GPU : Z := 1.
Definition KERNEL_PCI_KIND_AUDIO : Z := 2.

Record PCI_DEVICE_INFO : Type := mkDevice {
  VendorId : Z;
  DeviceId : Z;
  ClassCode : Z;
  Subclass : Z;
  ProgIf : Z;
  Kind : Z;
  Segment : Z;
  Bus : Z;
  Device : Z;
  Function_ : Z;
}.

Record KERNEL_BOOT_INFO : Type := mkBoot {
  BootFramebuffer : FRAMEBUFFER_INFO;
  ShadowFramebuffer : Z;
  ComposeFramebuffer : Z;
  TscTicksPerSecond : Z;
  MemoryMap : Z;
  MemoryMapSize : Z;
  MemoryMapKey : Z;
  MemoryDescriptorSize : Z;
  MemoryDescriptorVersion : Z;
  MemoryDescriptorCount : Z;
  GpuCount : Z;
  AudioCount : Z;
  PciDeviceCount : Z;
  PciDevices : list PCI_DEVICE_INFO;
}.

(* ------------------------------------------------------------------ *)
(** ** Operations: console blocks *)

Fixpoint CountTextLines_loop (text : list Z) (lines : Z) : Z :=
  match text with
  | [] => lines
  | c :: text => CountTextLines_loop text (if c =? 10 then u32 (lines + 1) else lines)
  end.

(** A [NULL] text is [None]. *)
Definition CountTextLines (text : option (list Z)) : Z :=
  match text with
  | None | Some [] => 0
  | Some text => CountTextLines_loop text 1
  end.

Definition CountIconTextLines (text : option (list Z)) : Z := CountTextLines text.

Section console.
Context `{Assets}.

Definition AdvanceConsoleBlockY (y : Z) (text : option (list Z)) : Z :=
  i32 (i32 (y + i32 (u32 (CountTextLines text * GLYPH_HEIGHT gFont))) + 5).

Definition AdvanceIconConsoleBlockY (y : Z) (text : option (list Z)) : Z :=
  i32 (i32 (y + i32 (u32 (CountIconTextLines text * GLYPH_HEIGHT gIconFont))) + 5).

Definition DrawConsoleBlock (fb : FRAMEBUFFER_INFO) (x y : Z) (text : option (list Z)) (m : mem)
    : outcome (Z * mem) :=
  match text with
  | None | Some [] => Done (y, m)
  | Some _ =>
    m ← DrawTextString fb x y text 255 255 255 m;
    let lines := CountTextLines text in
    Done (i32 (i32 (y + i32 (u32 (lines * GLYPH_HEIGHT gFont))) + 5), m)
  end.

Definition DrawIconConsoleBlock (fb : FRAMEBUFFER_INFO) (x y : Z) (text : option (list Z)) (m : mem)
    : outcome (Z * mem) :=
  match text with
  | None | Some [] => Done (y, m)
  | Some _ =>
    m ← DrawIconTextString fb x y text 255 255 255 m;
    let lines := CountIconTextLines text in
    Done (i32 (i32 (y + i32 (u32 (lines * GLYPH_HEIGHT gIconFont))) + 5), m)
  end.

(* ------------------------------------------------------------------ *)
(** ** Operations: mouse debug *)

Definition mouse_debug_raw (c : SOFTWARE_CURSOR) (b : chars) : outcome (list Z) :=
  b ← AppendText (str "Raw ") b;
  b ← AppendInt (LastRawX c) b;
  b ← AppendText (str ",") b;
  b ← AppendInt (LastRawY c) b;
  b ← AppendText (str " Poll ") b;
  b ← AppendInt (i32 (LastPollCount c)) b;
  terminate b.

Definition mouse_debug_pixel (c : SOFTWARE_CURSOR) (b : chars) : outcome (list Z) :=
  b ← AppendText (str "Px ") b;
  b ← AppendInt (LastPixelX c) b;
  b ← AppendText (str ",") b;
  b ← AppendInt (LastPixelY c) b;
  terminate b.

(** [line] is the local [char line[96]]. *)
Definition DrawMouseDebug (fb : FRAMEBUFFER_INFO) (c : SOFTWARE_CURSOR) (line : list Z) (m : mem)
    : outcome mem :=
  black ← ComposeFor fb 0 0 0;
  let debugHeight := u32 (u32 (GLYPH_HEIGHT gFont * 2) + 8) in
  let debugY := if u32 (debugHeight + 16) <? ScreenHeight fb
                then u32 (u32 (ScreenHeight fb - debugHeight) - 16) else 0 in
  m ← ClearRect fb 24 debugY 420 debugHeight black m;
  line ← mouse_debug_raw c (line, 0);
  text ← c_string line;
  m ← DrawTextString fb 24 (i32 debugY) (Some text) 170 220 255 m;
  line ← mouse_debug_pixel c (line, 0);
  text ← c_string line;
  DrawTextString fb 24 (i32 (u32 (debugY + GLYPH_HEIGHT gFont))) (Some text) 170 255 170 m.

(* ------------------------------------------------------------------ *)
(** ** Operations: the kernel status screen *)

Definition framebuffer_text (fb : FRAMEBUFFER_INFO) (b : chars) : outcome (list Z) :=
  b ← AppendText (str "Framebuffer ") b;
  b ← AppendInt (i32 (ScreenWidth fb)) b;
  b ← AppendText (str "x") b;
  b ← AppendInt (i32 (ScreenHeight fb)) b;
  b ← AppendText (str "  scan ") b;
  b ← AppendInt (i32 (PixelsPerScanLine fb)) b;
  terminate b.

Definition memory_text (BootInfo : KERNEL_BOOT_INFO) (b : chars) : outcome (list Z) :=
  b ← AppendText (str "Memory descriptors ") b;
  b ← AppendInt (i32 (MemoryDescriptorCount BootInfo)) b;
  b ← AppendText (str "  size ") b;
  b ← AppendInt (i32 (MemoryDescriptorSize BootInfo)) b;
  terminate b.

Definition pci_text (BootInfo : KERNEL_BOOT_INFO) (b : chars) : outcome (list Z) :=
  b ← AppendText (str "PCI display adapters ") b;
  b ← AppendInt (i32 (GpuCount BootInfo)) b;
  b ← AppendText (str "  audio controllers ") b;
  b ← AppendInt (i32 (AudioCount BootInfo)) b;
  terminate b.

Definition device_text (DeviceInfo : PCI_DEVICE_INFO) (b : chars) : outcome (list Z) :=
  b ← AppendText (if Kind DeviceInfo =? KERNEL_PCI_KIND_GPU then str "GPU   " else str "AUDIO ") b;
  b ← AppendInt (Segment DeviceInfo) b;
  b ← AppendText (str ":") b;
  b ← AppendInt (Bus DeviceInfo) b;
  b ← AppendText (str ":") b;
  b ← AppendInt (Device DeviceInfo) b;
  b ← AppendText (str ".") b;
  b ← AppendInt (Function_ DeviceInfo) b;
  b ← AppendText (str "  VEN ") b;
  b ← AppendUIntHexFixed (VendorId DeviceInfo) 4 b;
  b ← AppendText (str " DEV ") b;
  b ← AppendUIntHexFixed (DeviceId DeviceInfo) 4 b;
  b ← AppendText (str " CLS ") b;
  b ← AppendUIntHexFixed (ClassCode DeviceInfo) 2 b;
  b ← AppendUIntHexFixed (Subclass DeviceInfo) 2 b;
  terminate b.

(** One block of the screen, in the text or in the icon font. *)
Inductive block : Type :=
| TextBlock (text : list Z)
| IconBlock (text : list Z).

Definition advance_block (y : Z) (b : block) : Z :=
  match b with
  | TextBlock text => AdvanceConsoleBlockY y (Some text)
  | IconBlock text => AdvanceIconConsoleBlockY y (Some text)
  end.

Definition draw_block (fb : FRAMEBUFFER_INFO) (b : block) (y : Z) (m : mem) : outcome (Z * mem) :=
  match b with
  | TextBlock text => DrawConsoleBlock fb 16 y (Some text) m
  | IconBlock text => DrawIconConsoleBlock fb 16 y (Some text) m
  end.

(** The blocks before and after the device list, in the order both passes
    go through them. *)
Definition head_blocks (framebufferLine memoryLine pciLine : list Z) : list block :=
  [TextBlock (str "root@dragon:~# neofetch"); IconBlock gConsoleIconText;
   TextBlock (str "Dragon OS Kernel Console");
   TextBlock (str "UEFI services exited. Framebuffer ownership handed to kernel.");
   TextBlock gRuntimeSummaryText; TextBlock gRuntimeVideoText;
   TextBlock framebufferLine; TextBlock memoryLine; TextBlock pciLine;
   TextBlock (str "Kernel init log"); TextBlock (str "[ OK ] UEFI GOP framebuffer online");
   TextBlock (str "[INFO] native GPU/monitor driver pending");
   TextBlock (str "[ OK ] memory map captured");
   TextBlock (str "[ OK ] runtime registry preloaded");
   TextBlock (str "[ OK ] pci enumeration complete"); TextBlock (str "Detected PCI devices")].

Definition tail_blocks : list block :=
  [TextBlock (str "Runtime registry"); TextBlock gRuntimeRegistryText;
   TextBlock (str "root@dragon:~# sudo <pending keyboard/input driver>")].

Fixpoint draw_blocks (fb : FRAMEBUFFER_INFO) (bs : list block) (y : Z) (m : mem)
    : outcome (Z * mem) :=
  match bs with
  | [] => Done (y, m)
  | b :: bs => '(y, m) ← draw_block fb b y m; draw_blocks fb bs y m
  end.

(** [for (i = 0; i < PciDeviceCount && i < 8; i++)]. *)
Definition device_rows (BootInfo : KERNEL_BOOT_INFO) : Z := Z.min (PciDeviceCount BootInfo) 8.

(** The texts of the framebuffer, memory map and PCI lines, and what [line]
    holds after them. *)
Definition status_lines (BootInfo : KERNEL_BOOT_INFO) (line : list Z)
    : outcome (list Z * list Z * list Z * list Z) :=
  line ← framebuffer_text (BootFramebuffer BootInfo) (line, 0);
  text ← c_string line;
  b ← AppendText text (replicate 192 0, 0);
  framebufferLine ← terminate b;
  memoryLine ← memory_text BootInfo (replicate 192 0, 0);
  pciLine ← pci_text BootInfo (replicate 192 0, 0);
  framebufferText ← c_string framebufferLine;
  memoryText ← c_string memoryLine;
  pciText ← c_string pciLine;
  Done (line, framebufferText, memoryText, pciText).

(** The first pass: where the last block would end. *)
Definition measure_pass (BootInfo : KERNEL_BOOT_INFO) (heads : list block) (line : list Z)
    : outcome (Z * list Z) :=
  let finalY := foldl advance_block 16 heads in
  '(finalY, line) ← for_count (device_rows BootInfo) (fun deviceIndex '(finalY, line) =>
    DeviceInfo ← rd (PciDevices BootInfo) deviceIndex;
    line ← wr line 0 0;
    line ← device_text DeviceInfo (line, 0);
    text ← c_string line;
    Done (AdvanceConsoleBlockY finalY (Some text), line)) (finalY, line);
  Done (foldl advance_block finalY tail_blocks, line).

(** The second pass: the blocks drawn downwards from [startY]. *)
Definition draw_pass (BootInfo : KERNEL_BOOT_INFO) (heads : list block) (startY : Z) (line : list Z)
    (m : mem) : outcome mem :=
  let fb := BootFramebuffer BootInfo in
  '(cursorY, m) ← draw_blocks fb heads startY m;
  '(cursorY, line, m) ← for_count (device_rows BootInfo) (fun deviceIndex '(cursorY, line, m) =>
    DeviceInfo ← rd (PciDevices BootInfo) deviceIndex;
    line ← wr line 0 0;
    line ← device_text DeviceInfo (line, 0);
    text ← c_string line;
    '(cursorY, m) ← DrawConsoleBlock fb 16 cursorY (Some text) m;
    Done (cursorY, line, m)) (cursorY, line, m);
  '(_, m) ← draw_blocks fb tail_blocks cursorY m;
  Done m.

Definition start_row (BootInfo : KERNEL_BOOT_INFO) (finalY : Z) : Z :=
  let bottomMargin := i32 (i32 (ScreenHeight (BootFramebuffer BootInfo)) - 16) in
  if bottomMargin <? finalY then i32 (16 - i32 (finalY - bottomMargin)) else 16.

(** [line] is the local [char line[192]]. *)
Definition DrawKernelStatusScreen (BootInfo : KERNEL_BOOT_INFO) (line : list Z) (m : mem)
    : outcome mem :=
  let fb := BootFramebuffer BootInfo in
  Black ← ComposeFor fb 0 0 0;
  m ← ClearScreen fb Black 0 m;
  '(line, framebufferText, memoryText, pciText) ← status_lines BootInfo line;
  let heads := head_blocks framebufferText memoryText pciText in
  '(finalY, line) ← measure_pass BootInfo heads line;
  draw_pass BootInfo heads (start_row BootInfo finalY) line m.
End console.

(* ------------------------------------------------------------------ *)
(** ** Specification vocabulary *)

Record device_ok (d : PCI_DEVICE_INFO) : Prop := {
  dev_vendor : is_u16 (VendorId d);
  dev_id : is_u16 (DeviceId d);
  dev_class : is_u8 (ClassCode d);
  dev_sub : is_u8 (Subclass d);
  dev_seg : is_u8 (Segment d);
  dev_bus : is_u8 (Bus d);
  dev_dev : is_u8 (Device d);
  dev_fun : is_u8 (Function_ d);
}.

(** A boot record the console can show: the device count is within the
    array. *)
Record boot_ok (b : KERNEL_BOOT_INFO) : Prop := {
  boot_blendable : blendable (BootFramebuffer b);
  boot_count : 0 <= PciDeviceCount b <= Z.of_nat (length (PciDevices b));
  boot_devices : Forall device_ok (PciDevices b);
}.

(** The line the console shows for a device. *)
Definition device_line (d : PCI_DEVICE_INFO) : list Z :=
  (if Kind d =? KERNEL_PCI_KIND_GPU then str "GPU   " else str "AUDIO ") ++
  decimal (Segment d) ++ str ":" ++ decimal (Bus d) ++ str ":" ++ decimal (Device d) ++
  str "." ++ decimal (Function_ d) ++ str "  VEN " ++ hex (VendorId d) 4 ++
  str " DEV " ++ hex (DeviceId d) 4 ++ str " CLS " ++ hex (ClassCode d) 2 ++ hex (Subclass d) 2.

(* ------------------------------------------------------------------ *)
(** ** Lemmas: lines *)

Create HintDb lines.
#[export] Hint Resolve AppendText_writes AppendInt_writes decimal_nonzero hex_nonzero i32_range : lines.

(** A line built call by call writes the pieces in order. *)
Ltac line_pieces :=
  repeat first
    [ apply finishes_last; first
        [ apply AppendText_writes | apply AppendInt_writes; auto with lines; lia
        | apply AppendUIntHexFixed_writes; lia ]
    | apply finishes_app; [first
        [ apply AppendText_writes | apply AppendInt_writes; auto with lines; lia
        | apply AppendUIntHexFixed_writes; lia ]|] ].

(** The bytes of a line of literals and numbers are not terminators. *)
Lemma str_nonzero s : Forall (fun c => c <> 0) (str s) <-> forallb (fun c => negb (c =? 0)) (str s) = true.
Proof.
  rewrite forallb_forall, Forall_forall. split; intros Hs x Hx.
  - apply negb_true_iff, Z.eqb_neq. apply Hs. by apply list_elem_of_In.
  - apply list_elem_of_In in Hx. specialize (Hs x Hx). by apply negb_true_iff, Z.eqb_neq in Hs.
Qed.

Ltac line_nonzero :=
  repeat (apply Forall_app; split); auto with lines; by apply str_nonzero.

(** The length of a line, from the lengths of its numbers. *)
Ltac line_length :=
  repeat match goal with
  | |- context [decimal ?v] =>
      lazymatch goal with
      | _ : (0 < length (decimal v) <= 11)%nat |- _ => fail
      | _ => pose proof (decimal_length v ltac:(auto with lines; lia))
      end
  end;
  rewrite ?length_app, ?hex_length, ?length_replicate;
  repeat match goal with
  | |- context [length (str ?s)] =>
      let n := eval vm_compute in (length (str s)) in change (length (str s)) with n
  end; lia.

Lemma device_text_finishes d : device_ok d -> finishes (device_text d) (device_line d).
Proof. intros []. unfold device_text, device_line. line_pieces. Qed.

Lemma device_text_spec d line : device_ok d -> length line = 192%nat ->
  exists line', (line ← wr line 0 0; device_text d (line, 0)) = Done line' /\
    c_string line' = Done (device_line d) /\ length line' = 192%nat.
Proof.
  intros Hd Hl. rewrite wr_done by lia. mred.
  destruct (line_string _ _ (<[Z.to_nat 0:=0]> line) (device_text_finishes d Hd))
    as (line' & E & Es & El).
  - destruct Hd. unfold device_line. destruct (_ =? _); line_nonzero.
  - rewrite length_insert, Hl. destruct Hd. unfold device_line. destruct (_ =? _); line_length.
  - exists line'. split_and!; [exact E|done|]. by rewrite El, length_insert.
Qed.

Definition framebuffer_line (fb : FRAMEBUFFER_INFO) : list Z :=
  str "Framebuffer " ++ decimal (i32 (ScreenWidth fb)) ++ str "x" ++
  decimal (i32 (ScreenHeight fb)) ++ str "  scan " ++ decimal (i32 (PixelsPerScanLine fb)).

Definition memory_line (b : KERNEL_BOOT_INFO) : list Z :=
  str "Memory descriptors " ++ decimal (i32 (MemoryDescriptorCount b)) ++ str "  size " ++
  decimal (i32 (MemoryDescriptorSize b)).

Definition pci_line (b : KERNEL_BOOT_INFO) : list Z :=
  str "PCI display adapters " ++ decimal (i32 (GpuCount b)) ++ str "  audio controllers " ++
  decimal (i32 (AudioCount b)).

Definition raw_line (c : SOFTWARE_CURSOR) : list Z :=
  str "Raw " ++ decimal (LastRawX c) ++ str "," ++ decimal (LastRawY c) ++ str " Poll " ++
  decimal (i32 (LastPollCount c)).

Definition pixel_line (c : SOFTWARE_CURSOR) : list Z :=
  str "Px " ++ decimal (LastPixelX c) ++ str "," ++ decimal (LastPixelY c).

Lemma framebuffer_text_spec fb line : length line = 192%nat ->
  exists line', framebuffer_text fb (line, 0) = Done line' /\
    c_string line' = Done (framebuffer_line fb) /\ length line' = 192%nat.
Proof.
  intros Hl. rewrite <- Hl. apply line_string.
  - unfold framebuffer_text, framebuffer_line. line_pieces.
  - unfold framebuffer_line. line_nonzero.
  - rewrite Hl. unfold framebuffer_line. line_length.
Qed.

Lemma memory_text_spec b line : length line = 192%nat ->
  exists line', memory_text b (line, 0) = Done line' /\ c_string line' = Done (memory_line b) /\
    length line' = 192%nat.
Proof.
  intros Hl. rewrite <- Hl. apply line_string.
  - unfold memory_text, memory_line. line_pieces.
  - unfold memory_line. line_nonzero.
  - rewrite Hl. unfold memory_line. line_length.
Qed.

Lemma pci_text_spec b line : length line = 192%nat ->
  exists line', pci_text b (line, 0) = Done line' /\ c_string line' = Done (pci_line b) /\
    length line' = 192%nat.
Proof.
  intros Hl. rewrite <- Hl. apply line_string.
  - unfold pci_text, pci_line. line_pieces.
  - unfold pci_line. line_nonzero.
  - rewrite Hl. unfold pci_line. line_length.
Qed.

Lemma mouse_debug_raw_spec c line : is_i32 (LastRawX c) -> is_i32 (LastRawY c) ->
  length line = 96%nat ->
  exists line', mouse_debug_raw c (line, 0) = Done line' /\ c_string line' = Done (raw_line c) /\
    length line' = 96%nat.
Proof.
  intros Hx Hy Hl. rewrite <- Hl. apply line_string.
  - unfold mouse_debug_raw, raw_line. line_pieces.
  - unfold raw_line. line_nonzero.
  - rewrite Hl. unfold raw_line. line_length.
Qed.

Lemma mouse_debug_pixel_spec c line : is_i32 (LastPixelX c) -> is_i32 (LastPixelY c) ->
  length line = 96%nat ->
  exists line', mouse_debug_pixel c (line, 0) = Done line' /\ c_string line' = Done (pixel_line c) /\
    length line' = 96%nat.
Proof.
  intros Hx Hy Hl. rewrite <- Hl. apply line_string.
  - unfold mouse_debug_pixel, pixel_line. line_pieces.
  - unfold pixel_line. line_nonzero.
  - rewrite Hl. unfold pixel_line. line_length.
Qed.

(* ------------------------------------------------------------------ *)
(** ** Lemmas: blocks *)

(** The number of lines: one more than the line breaks. *)
Lemma CountTextLines_spec text : Z.of_nat (length text) < 4294967295 ->
  CountTextLines (Some text) =
  if decide (text = []) then 0 else 1 + Z.of_nat (length (filter (fun c => c = 10) text)).
Proof.
  intros Hl. destruct text as [|c text]; [done|]. cbn [CountTextLines].
  rewrite decide_False by done. set (t := c :: text) in *. clearbody t.
  assert (forall n, 0 <= n -> n + Z.of_nat (length t) < 4294967296 ->
    CountTextLines_loop t n = n + Z.of_nat (length (filter (fun c => c = 10) t))) as H'.
  { clear Hl. induction t as [|d t IH]; intros n Hn Hlen; cbn [CountTextLines_loop]; [cbn; lia|].
    cbn [length] in Hlen. rewrite filter_cons. destruct (Z.eqb_spec d 10) as [->|Hd].
    - rewrite u32_id by lia. rewrite IH by lia. rewrite decide_True by done. cbn [length]. lia.
    - rewrite IH by lia. by rewrite decide_False by done. }
  apply H'; lia.
Qed.

Section blocks.
Context `{A : Assets, !AssetsWf A} (fb : FRAMEBUFFER_INFO) (Hblend : blendable fb).

(** A block draws on the screen and returns where the layout pass puts the
    next one; an empty one returns where it was. *)
Lemma DrawConsoleBlock_spec x y text m : is_i32 x -> is_i32 y -> ready fb m ->
  exists m', DrawConsoleBlock fb x y (Some text) m =
      Done (if decide (text = []) then y else AdvanceConsoleBlockY y (Some text), m') /\
    ready fb m' /\ same_off (region fb (on_screen fb)) m m'.
Proof.
  intros Hx Hy Hm. destruct text as [|c text]; [by exists m|]. cbn [DrawConsoleBlock].
  destruct (DrawTextString_draws fb x y 255 255 255 Hblend Hx Hy ltac:(lia) ltac:(lia) ltac:(lia)
    (Some (c :: text)) m Hm) as (m' & -> & ? & ?). mred. by exists m'.
Qed.

Lemma DrawIconConsoleBlock_spec x y text m : is_i32 x -> is_i32 y -> ready fb m ->
  exists m', DrawIconConsoleBlock fb x y (Some text) m =
      Done (if decide (text = []) then y else AdvanceIconConsoleBlockY y (Some text), m') /\
    ready fb m' /\ same_off (region fb (on_screen fb)) m m'.
Proof.
  intros Hx Hy Hm. destruct text as [|c text]; [by exists m|]. cbn [DrawIconConsoleBlock].
  destruct (DrawIconTextString_draws fb x y 255 255 255 Hblend Hx Hy ltac:(lia) ltac:(lia) ltac:(lia)
    (Some (c :: text)) m Hm) as (m' & -> & ? & ?). mred. by exists m'.
Qed.

Definition block_text (b : block) : list Z :=
  match b with TextBlock text | IconBlock text => text end.

(** Where a block leaves the pen. *)
Definition pen (y : Z) (b : block) : Z :=
  if decide (block_text b = []) then y else advance_block y b.

Lemma advance_block_i32 y b : is_i32 (advance_block y b).
Proof. destruct b; apply i32_range. Qed.

Lemma pen_i32 y b : is_i32 y -> is_i32 (pen y b).
Proof. intros. unfold pen. destruct (decide _); [done|apply advance_block_i32]. Qed.

Lemma draw_block_spec b y m : is_i32 y -> ready fb m ->
  exists m', draw_block fb b y m = Done (pen y b, m') /\
    ready fb m' /\ same_off (region fb (on_screen fb)) m m'.
Proof.
  intros Hy Hm. destruct b as [text|text].
  - apply DrawConsoleBlock_spec; [lia|done|done].
  - apply DrawIconConsoleBlock_spec; [lia|done|done].
Qed.

Lemma draw_blocks_spec bs y m : is_i32 y -> ready fb m ->
  exists m', draw_blocks fb bs y m = Done (foldl pen y bs, m') /\ is_i32 (foldl pen y bs) /\
    ready fb m' /\ same_off (region fb (on_screen fb)) m m'.
Proof.
  revert y m. induction bs as [|b bs IH]; intros y m Hy Hm; cbn [draw_blocks foldl]; [by exists m|].
  destruct (draw_block_spec b y m Hy Hm) as (m1 & -> & Hm1 & Hs1). mred.
  destruct (IH (pen y b) m1) as (m2 & -> & ? & ? & ?); [by apply pen_i32|done|].
  exists m2. split; [done|]. split; [done|]. split; [done|]. by etrans.
Qed.
End blocks.

(* ------------------------------------------------------------------ *)
(** ** Lemmas: the status screen *)

Lemma draw_blocks_app `{Assets} fb bs1 bs2 y m :
  draw_blocks fb (bs1 ++ bs2) y m =
  ('(y, m) ← draw_blocks fb bs1 y m; draw_blocks fb bs2 y m).
Proof.
  revert y m. induction bs1 as [|b bs1 IH]; intros y m; cbn [draw_blocks app]; [done|].
  rewrite bind_assoc. apply bind_ext. intros [y1 m1]. apply IH.
Qed.

(** The lines of the devices the screen lists. *)
Definition device_blocks (b : KERNEL_BOOT_INFO) (n : nat) : list block :=
  (fun d => TextBlock (device_line d)) <$> take n (PciDevices b).

(** The whole screen, as a list of blocks, and where its first starts: at
    the top margin, or as far above it as the screen overflows. *)
Definition status_blocks `{Assets} (b : KERNEL_BOOT_INFO) : list block :=
  head_blocks (framebuffer_line (BootFramebuffer b)) (memory_line b) (pci_line b) ++
  device_blocks b (Z.to_nat (device_rows b)) ++ tail_blocks.

Definition layout_start `{Assets} (b : KERNEL_BOOT_INFO) : Z :=
  start_row b (foldl advance_block 16 (status_blocks b)).

Lemma device_blocks_S b n d : PciDevices b !! n = Some d ->
  device_blocks b (S n) = device_blocks b n ++ [TextBlock (device_line d)].
Proof. intros Hd. unfold device_blocks. by rewrite (take_S_r _ _ d) by done; rewrite fmap_app. Qed.

Lemma status_lines_spec b line : length line = 192%nat ->
  exists line', status_lines b line =
      Done (line', framebuffer_line (BootFramebuffer b), memory_line b, pci_line b) /\
    length line' = 192%nat.
Proof.
  intros Hl. unfold status_lines.
  destruct (framebuffer_text_spec (BootFramebuffer b) line Hl) as (l1 & -> & E1 & Hl1). mred.
  rewrite E1. mred.
  destruct (line_string (fun w => w ← AppendText (framebuffer_line (BootFramebuffer b)) w; terminate w)
    (framebuffer_line (BootFramebuffer b)) (replicate 192 0)) as (l2 & E2 & Es2 & _).
  { apply finishes_last, AppendText_writes. }
  { unfold framebuffer_line. line_nonzero. }
  { unfold framebuffer_line. line_length. }
  apply bind_done in E2 as (w2 & -> & Ew2). mred. rewrite Ew2. mred.
  destruct (memory_text_spec b (replicate 192 0)) as (l3 & -> & Es3 & _); [apply length_replicate|]. mred.
  destruct (pci_text_spec b (replicate 192 0)) as (l4 & -> & Es4 & _); [apply length_replicate|]. mred.
  rewrite Es2. mred. rewrite Es3. mred. rewrite Es4. mred. by exists l1.
Qed.

#[local] Opaque str head_blocks tail_blocks framebuffer_line memory_line pci_line.

Section status.
Context `{A : Assets, !AssetsWf A} (b : KERNEL_BOOT_INFO) (Hok : boot_ok b).

Lemma device_at i : 0 <= i < device_rows b ->
  exists d, rd (PciDevices b) i = Done d /\ device_ok d /\
    device_blocks b (Z.to_nat (i + 1)) =
    device_blocks b (Z.to_nat i) ++ [TextBlock (device_line d)].
Proof.
  intros Hi. destruct Hok as [_ Hc Hd]. unfold device_rows in Hi.
  destruct (rd_done (PciDevices b) i) as (d & E & Hl); [lia|].
  exists d. split; [done|]. split; [by eapply Forall_lookup_1|].
  replace (Z.to_nat (i + 1)) with (S (Z.to_nat i)) by lia. by apply device_blocks_S.
Qed.

Lemma device_rows_nonneg : 0 <= device_rows b.
Proof. destruct Hok. unfold device_rows. lia. Qed.

(** The measuring loop over the devices. *)
Lemma measure_pass_spec heads line : length line = 192%nat ->
  exists line', measure_pass b heads line =
      Done (foldl advance_block 16 (heads ++ device_blocks b (Z.to_nat (device_rows b)) ++ tail_blocks),
            line') /\
    length line' = 192%nat.
Proof.
  intros Hl. unfold measure_pass. cbn zeta. rewrite !foldl_app.
  set (y := foldl advance_block 16 heads). clearbody y.
  match goal with |- context [for_count _ ?f _] =>
  destruct (for_count_inv (fun i '(y', l) => y' = foldl advance_block y (device_blocks b (Z.to_nat i)) /\
      length l = 192%nat) (device_rows b) f (y, line))
    as ([y' line'] & -> & -> & Hl'); [apply device_rows_nonneg|done| |by exists line']
  end.
  intros i [y1 l1] Hi [-> Hl1]. destruct (device_at i Hi) as (d & -> & Hd & ->). mred.
  destruct (device_text_spec d l1 Hd Hl1) as (l2 & E & Es & El). rewrite <- bind_assoc, E. mred.
  rewrite Es. mred. eexists. split; [done|]. split; [|done]. by rewrite foldl_app.
Qed.

(** The drawing pass draws the same blocks. *)
Lemma draw_pass_spec heads y line m : length line = 192%nat -> is_i32 y ->
  ready (BootFramebuffer b) m ->
  exists y' m', draw_blocks (BootFramebuffer b)
      (heads ++ device_blocks b (Z.to_nat (device_rows b)) ++ tail_blocks) y m = Done (y', m') /\
    draw_pass b heads y line m = Done m' /\ ready (BootFramebuffer b) m' /\
    same_off (region (BootFramebuffer b) (on_screen (BootFramebuffer b))) m m'.
Proof.
  intros Hl Hy Hm. pose proof (boot_blendable _ Hok) as Hblend. unfold draw_pass. cbn zeta.
  destruct (draw_blocks_spec (BootFramebuffer b) Hblend heads y m Hy Hm)
    as (m1 & E1 & Hy1 & Hm1 & Hs1).
  rewrite draw_blocks_app, E1. mred. set (y1 := foldl pen y heads) in *. clearbody y1.
  match goal with |- context [for_count _ ?f _] =>
  destruct (for_count_inv (fun i '(y', l, m') => length l = 192%nat /\ is_i32 y' /\
      ready (BootFramebuffer b) m' /\
      same_off (region (BootFramebuffer b) (on_screen (BootFramebuffer b))) m1 m' /\
      draw_blocks (BootFramebuffer b) (device_blocks b (Z.to_nat i)) y1 m1 = Done (y', m'))
    (device_rows b) f (y1, line, m1))
    as ([[y2 l2] m2] & -> & _ & Hy2 & Hm2 & Hs2 & E2);
    [apply device_rows_nonneg|split; [done|]; split; [done|]; split; [done|]; split; [reflexivity|done]| |]
  end.
  - intros i [[y2 l2] m2] Hi (Hl2 & Hy2 & Hm2 & Hs2 & E2).
    destruct (device_at i Hi) as (d & -> & Hd & ->). mred.
    destruct (device_text_spec d l2 Hd Hl2) as (l3 & E & Es & El). rewrite <- bind_assoc, E. mred.
    rewrite Es. mred.
    destruct (draw_block_spec (BootFramebuffer b) Hblend (TextBlock (device_line d))
      y2 m2 Hy2 Hm2) as (m3 & E3 & Hm3 & Hs3).
    cbn [draw_block] in E3. rewrite E3. mred. eexists. split; [done|].
    split; [done|]. split; [by apply pen_i32|]. split; [done|]. split; [by etrans|].
    rewrite draw_blocks_app, E2. mred. cbn [draw_blocks draw_block]. by rewrite E3.
  - mred. rewrite draw_blocks_app, E2. mred.
    destruct (draw_blocks_spec (BootFramebuffer b) Hblend tail_blocks y2 m2 Hy2 Hm2)
      as (m3 & -> & _ & Hm3 & Hs3).
    mred. eexists _, m3. split; [done|]. split; [done|]. split; [done|]. etrans; [exact Hs1|]. by etrans.
Qed.

(** The screen is the list of its blocks, laid out by one pass and drawn
    by the other. *)
Lemma DrawKernelStatusScreen_spec line m : length line = 192%nat ->
  ready (BootFramebuffer b) m ->
  exists black m1 y' m', ComposeFor (BootFramebuffer b) 0 0 0 = Done black /\
    ClearScreen (BootFramebuffer b) black 0 m = Done m1 /\
    draw_blocks (BootFramebuffer b) (status_blocks b) (layout_start b) m1 = Done (y', m') /\
    DrawKernelStatusScreen b line m = Done m' /\ ready (BootFramebuffer b) m' /\
    same_off (region (BootFramebuffer b) (fun _ _ => True)) m m'.
Proof.
  intros Hl Hm. pose proof (boot_blendable _ Hok) as Hblend. pose proof Hblend as (? & ? & ? & _).
  destruct (ComposePixel_total 0 0 0 (PixelFormat (BootFramebuffer b)) (RedMask (BootFramebuffer b))
    (GreenMask (BootFramebuffer b)) (BlueMask (BootFramebuffer b)))
    as (black & Eb & Hblack); [lia|lia|lia|done|done|done|].
  destruct (ClearScreen_spec (BootFramebuffer b) black 0 m Hm Hblack) as (m1 & Ec & Hm1 & Hs1 & _).
  unfold DrawKernelStatusScreen. cbn zeta. rewrite Eb. mred. rewrite Ec. mred.
  destruct (status_lines_spec b line Hl) as (l1 & -> & Hl1). mred.
  destruct (measure_pass_spec (head_blocks (framebuffer_line (BootFramebuffer b)) (memory_line b)
    (pci_line b)) l1 Hl1) as (l2 & -> & Hl2). mred.
  fold (status_blocks b). fold (layout_start b).
  assert (is_i32 (layout_start b)) as Hstart.
  { unfold layout_start, start_row. cbn zeta. destruct (_ <? _); [apply i32_range|lia]. }
  destruct (draw_pass_spec (head_blocks (framebuffer_line (BootFramebuffer b)) (memory_line b)
    (pci_line b)) (layout_start b) l2 m1 Hl2 Hstart Hm1) as (y' & m' & Ed & -> & Hm' & Hs').
  exists black, m1, y', m'. split_and!; [done..|].
  etrans; [exact Hs1|]. eapply same_off_weaken; [|exact Hs']. intros a. by apply region_mono.
Qed.
End status.

#[local] Transparent str head_blocks tail_blocks framebuffer_line memory_line pci_line.

(* ------------------------------------------------------------------ *)
(** ** Lemmas: where the blocks land *)

(** The rows a block takes: its lines and five rows of spacing. *)
Definition block_rows `{Assets} (b : block) : Z :=
  match b with
  | TextBlock text => CountTextLines (Some text) * GLYPH_HEIGHT gFont + 5
  | IconBlock text => CountIconTextLines (Some text) * GLYPH_HEIGHT gIconFont + 5
  end.

Definition total_rows `{Assets} (bs : list block) : Z := foldr (fun b n => block_rows b + n) 0 bs.

Section layout.
Context `{A : Assets, !AssetsWf A}.

Lemma CountTextLines_range text : is_u32 (CountTextLines text).
Proof.
  destruct text as [[|c text]|]; cbn [CountTextLines]; [lia| |lia].
  assert (forall t n, is_u32 n -> is_u32 (CountTextLines_loop t n)) as H'; [|by apply H'].
  induction t as [|d t IH]; intros n Hn; cbn [CountTextLines_loop]; [done|].
  apply IH. destruct (d =? 10); [apply u32_range|done].
Qed.

Lemma block_rows_ge b : 5 <= block_rows b.
Proof.
  pose proof (font_h _ gFont_wf). pose proof (font_h _ gIconFont_wf).
  destruct b as [text|text]; cbn [block_rows].
  - pose proof (CountTextLines_range (Some text)). nia.
  - unfold CountIconTextLines. pose proof (CountTextLines_range (Some text)). nia.
Qed.

Lemma total_rows_nonneg bs : 0 <= total_rows bs.
Proof.
  induction bs as [|b bs IH]; cbn [total_rows foldr]; [done|].
  pose proof (block_rows_ge b). unfold total_rows in IH. lia.
Qed.

Lemma advance_block_rows y b : is_i32 y -> y + block_rows b < 2147483648 ->
  block_rows b < 1073741824 -> advance_block y b = y + block_rows b.
Proof.
  intros Hy Hs Hb. pose proof (font_h _ gFont_wf). pose proof (font_h _ gIconFont_wf).
  destruct b as [text|text]; cbn [block_rows advance_block] in *;
    unfold AdvanceConsoleBlockY, AdvanceIconConsoleBlockY, CountIconTextLines in *;
    pose proof (CountTextLines_range (Some text));
    set (n := CountTextLines (Some text)) in *; clearbody n.
  - assert (0 <= n * GLYPH_HEIGHT gFont) by nia.
    set (r := n * GLYPH_HEIGHT gFont) in *. clearbody r.
    rewrite (u32_id r), (i32_id r) by lia. rewrite (i32_id (y + r)), i32_id by lia. lia.
  - assert (0 <= n * GLYPH_HEIGHT gIconFont) by nia.
    set (r := n * GLYPH_HEIGHT gIconFont) in *. clearbody r.
    rewrite (u32_id r), (i32_id r) by lia. rewrite (i32_id (y + r)), i32_id by lia. lia.
Qed.

(** Both passes move down by the rows of each block. *)
Lemma layout_rows bs y : is_i32 y -> y + total_rows bs < 2147483648 ->
  total_rows bs < 1073741824 -> Forall (fun b => block_text b <> []) bs ->
  foldl advance_block y bs = y + total_rows bs /\ foldl pen y bs = y + total_rows bs.
Proof.
  revert y. induction bs as [|b bs IH]; intros y Hy Hs Ht Hn; [cbn; lia|].
  apply Forall_cons in Hn as [Hb Hn]. cbn [foldl].
  pose proof (total_rows_nonneg bs). pose proof (block_rows_ge b).
  change (total_rows (b :: bs)) with (block_rows b + total_rows bs) in *.
  unfold pen at 2. rewrite decide_False by done.
  rewrite (advance_block_rows y b) by lia.
  destruct (IH (y + block_rows b)) as [-> ->]; [lia..|done|]. lia.
Qed.
End layout.

(** The four generated texts have at least a character. *)
Definition texts_present `{Assets} : Prop :=
  gConsoleIconText <> [] /\ gRuntimeSummaryText <> [] /\ gRuntimeVideoText <> [] /\
  gRuntimeRegistryText <> [].

Lemma app_not_nil {T} (l1 l2 : list T) : l1 <> [] -> l1 ++ l2 <> [].
Proof. by destruct l1. Qed.

Lemma device_line_present d : device_line d <> [].
Proof. unfold device_line. apply app_not_nil. by destruct (_ =? _). Qed.

Lemma status_blocks_present `{Assets} b : texts_present ->
  Forall (fun b => block_text b <> []) (status_blocks b).
Proof.
  intros (? & ? & ? & ?). unfold status_blocks. rewrite !Forall_app. split_and!.
  - unfold head_blocks. repeat (apply Forall_cons; split); try exact (Forall_nil _);
      cbn [block_text]; try done; by apply app_not_nil.
  - unfold device_blocks. apply Forall_fmap, Forall_true. intros d. apply device_line_present.
  - unfold tail_blocks. by repeat (apply Forall_cons; split); try exact (Forall_nil _).
Qed.

(** The last block ends at the bottom margin, or above it when the screen
    does not fill the display. *)
Lemma layout_bottom `{A : Assets, !AssetsWf A} b : texts_present ->
  total_rows (status_blocks b) < 1073741824 ->
  0 <= ScreenHeight (BootFramebuffer b) < 2147483648 ->
  layout_start b = 16 + Z.min 0 (ScreenHeight (BootFramebuffer b) - 32 - total_rows (status_blocks b)) /\
  foldl pen (layout_start b) (status_blocks b) =
    Z.min (16 + total_rows (status_blocks b)) (ScreenHeight (BootFramebuffer b) - 16).
Proof.
  intros Hp Ht Hh. pose proof (status_blocks_present b Hp) as Hn.
  pose proof (total_rows_nonneg (status_blocks b)).
  assert (layout_start b =
    16 + Z.min 0 (ScreenHeight (BootFramebuffer b) - 32 - total_rows (status_blocks b))) as E.
  { unfold layout_start, start_row. destruct (layout_rows (status_blocks b) 16) as [-> _]; [lia..|done|].
    set (t := total_rows (status_blocks b)) in *. clearbody t.
    set (h := ScreenHeight (BootFramebuffer b)) in *. clearbody h. cbn zeta.
    rewrite (i32_id h) by lia. rewrite (i32_id (h - 16)) by lia.
    destruct (Z.ltb_spec (h - 16) (16 + t)); [|lia].
    rewrite (i32_id (16 + t - (h - 16))) by lia. rewrite i32_id by lia. lia. }
  split; [done|]. destruct (layout_rows (status_blocks b) (layout_start b)) as [_ ->];
    rewrite ?E; [lia..|done|]. lia.
Qed.

(* ------------------------------------------------------------------ *)
(** ** Lemmas: mouse debug *)

Lemma DrawMouseDebug_spec `{A : Assets, !AssetsWf A} fb c line m : blendable fb -> ready fb m ->
  is_i32 (LastRawX c) -> is_i32 (LastRawY c) -> is_i32 (LastPixelX c) -> is_i32 (LastPixelY c) ->
  length line = 96%nat ->
  exists black y m1, ComposeFor fb 0 0 0 = Done black /\
    ClearRect fb 24 y 420 (GLYPH_HEIGHT gFont * 2 + 8) black m = Done m1 /\
    (GLYPH_HEIGHT gFont * 2 + 24 < ScreenHeight fb -> y + GLYPH_HEIGHT gFont * 2 + 24 = ScreenHeight fb) /\
    DrawMouseDebug fb c line m =
      (m ← DrawTextString fb 24 (i32 y) (Some (raw_line c)) 170 220 255 m1;
       DrawTextString fb 24 (i32 (u32 (y + GLYPH_HEIGHT gFont))) (Some (pixel_line c)) 170 255 170 m) /\
    exists m', DrawMouseDebug fb c line m = Done m' /\ ready fb m' /\
      same_off (region fb (on_screen fb)) m m'.
Proof.
  intros Hblend Hm ? ? ? ? Hl. pose proof Hblend as (? & ? & ? & _).
  pose proof (font_h _ gFont_wf) as Hh. set (h := GLYPH_HEIGHT gFont) in *.
  destruct (ComposePixel_total 0 0 0 (PixelFormat fb) (RedMask fb) (GreenMask fb) (BlueMask fb))
    as (black & Eb & Hblack); [lia|lia|lia|done|done|done|].
  unfold DrawMouseDebug. cbn zeta. fold h. rewrite Eb. mred.
  rewrite (u32_id (h * 2)), (u32_id (h * 2 + 8)), (u32_id (h * 2 + 8 + 16)) by lia.
  set (y := if _ <? _ then _ else 0).
  assert (is_u32 y /\ (h * 2 + 24 < ScreenHeight fb -> y + h * 2 + 24 = ScreenHeight fb)) as [Hy Ey].
  { unfold y. destruct (ready_fb _ _ Hm). destruct (Z.ltb_spec (h * 2 + 8 + 16) (ScreenHeight fb)).
    - rewrite (u32_id (ScreenHeight fb - _)) by lia. rewrite u32_id by lia. lia.
    - lia. }
  clearbody y.
  destruct (ClearRect_spec fb 24 y 420 (h * 2 + 8) black m) as (m1 & Ec & Hm1 & Hs1 & _); try done; try lia.
  rewrite Ec. mred.
  destruct (mouse_debug_raw_spec c line) as (l1 & -> & E1 & Hl1); [done..|]. mred. rewrite E1. mred.
  destruct (DrawTextString_draws fb 24 (i32 y) 170 220 255 Hblend ltac:(lia) (i32_range y)
    ltac:(lia) ltac:(lia) ltac:(lia) (Some (raw_line c)) m1 Hm1) as (m2 & E2 & Hm2 & Hs2).
  destruct (DrawTextString_draws fb 24 (i32 (u32 (y + h))) 170 255 170 Hblend ltac:(lia) (i32_range _)
    ltac:(lia) ltac:(lia) ltac:(lia) (Some (pixel_line c)) m2 Hm2) as (m3 & E3 & Hm3 & Hs3).
  destruct (mouse_debug_pixel_spec c l1) as (l2 & Ep & Ep' & _); [done..|].
  exists black, y, m1. split; [done|]. split; [done|]. split; [done|].
  rewrite E2. mred. rewrite Ep. mred. rewrite Ep'. mred. split; [done|]. exists m3. split; [done|].
  split; [done|]. etrans; [|etrans; [exact Hs2|exact Hs3]].
  eapply same_off_weaken; [|exact Hs1]. intros a. apply region_mono. by intros ? ? _ [].
Qed.

(* ------------------------------------------------------------------ *)
(** ** Properties *)

(** A concrete boot record: a 6 by 4 screen and one display adapter. *)
Definition demo_device : PCI_DEVICE_INFO := mkDevice 4660 4369 3 0 0 1 0 0 2 0.

Definition demo_boot : KERNEL_BOOT_INFO :=
  mkBoot (demo_fb 0) 0 0 1000 0 480 7 48 1 10 1 0 1 [demo_device].

Lemma demo_boot_ok : boot_ok demo_boot.
Proof.
  split; [apply demo_blendable|cbn; lia|].
  repeat constructor; cbn; lia.
Qed.

(** The status screen never overruns its 192-byte line buffers, whatever they
    hold at first: it blackens the screen and draws exactly the list of its blocks
    (heading, framebuffer, memory and PCI lines, at most eight devices, registry,
    prompt) from the row the measuring pass computed, touching only the framebuffer.
    *)
Theorem DrawKernelStatusScreen_correct `{A : Assets, !AssetsWf A} b line m : boot_ok b ->
  length line = 192%nat -> ready (BootFramebuffer b) m ->
  exists black m1 y' m', ComposeFor (BootFramebuffer b) 0 0 0 = Done black /\
    ClearScreen (BootFramebuffer b) black 0 m = Done m1 /\
    draw_blocks (BootFramebuffer b) (status_blocks b) (layout_start b) m1 = Done (y', m') /\
    DrawKernelStatusScreen b line m = Done m' /\ ready (BootFramebuffer b) m' /\
    same_off (region (BootFramebuffer b) (fun _ _ => True)) m m'.
Proof. intros Hok. by apply DrawKernelStatusScreen_spec. Qed.

Lemma DrawKernelStatusScreen_correct_witness : exists m',
  @DrawKernelStatusScreen demo_assets demo_boot (replicate 192 77) (buffer 0 32 9) = Done m' /\
  ready (demo_fb 0) m'.
Proof.
  destruct (@DrawKernelStatusScreen_correct demo_assets demo_assets_wf demo_boot (replicate 192 77)
    (buffer 0 32 9) demo_boot_ok (length_replicate _ _) (demo_ready 0 9 ltac:(lia) ltac:(lia)))
    as (_ & _ & _ & m' & _ & _ & _ & E & Hm & _).
  exists m'. split; [exact E|exact Hm].
Defined.

(** When the generated texts are not empty and the blocks fit 2^30 rows, the
    two passes of the status screen agree: the prompt ends at the last row above the
    16-row bottom margin, or higher when the screen is not full, and drawing starts
    at the top margin unless that would overflow. *)
Theorem DrawKernelStatusScreen_layout `{A : Assets, !AssetsWf A} b : texts_present ->
  total_rows (status_blocks b) < 1073741824 ->
  0 <= ScreenHeight (BootFramebuffer b) < 2147483648 ->
  layout_start b = 16 + Z.min 0 (ScreenHeight (BootFramebuffer b) - 32 - total_rows (status_blocks b)) /\
  foldl pen (layout_start b) (status_blocks b) =
    Z.min (16 + total_rows (status_blocks b)) (ScreenHeight (BootFramebuffer b) - 16) /\
  forall line m, boot_ok b -> length line = 192%nat -> ready (BootFramebuffer b) m ->
    exists m1 m', draw_blocks (BootFramebuffer b) (status_blocks b) (layout_start b) m1 =
        Done (foldl pen (layout_start b) (status_blocks b), m') /\
      DrawKernelStatusScreen b line m = Done m'.
Proof.
  intros Hp Ht Hh. destruct (layout_bottom b Hp Ht Hh) as [E1 E2]. split; [done|]. split; [done|].
  intros line m Hok Hl Hm.
  destruct (DrawKernelStatusScreen_spec b Hok line m Hl Hm)
    as (black & m1 & y' & m' & Eb & Ec & Ed & E & _). pose proof (boot_blendable _ Hok) as Hblend.
  pose proof Hblend as (? & ? & ? & _).
  destruct (ComposePixel_total 0 0 0 (PixelFormat (BootFramebuffer b)) (RedMask (BootFramebuffer b))
    (GreenMask (BootFramebuffer b)) (BlueMask (BootFramebuffer b)))
    as (black' & Eb' & Hblack); [lia|lia|lia|done|done|done|].
  rewrite Eb' in Eb. apply Done_inj in Eb as ->.
  destruct (ClearScreen_spec (BootFramebuffer b) black 0 m Hm Hblack) as (m1' & Ec' & Hm1 & _).
  rewrite Ec in Ec'. apply Done_inj in Ec' as <-.
  destruct (draw_blocks_spec (BootFramebuffer b) Hblend (status_blocks b) (layout_start b) m1)
    as (m2 & Ed' & _); [rewrite E1; pose proof (total_rows_nonneg (status_blocks b)); lia|done|].
  exists m1, m2. split; [done|]. rewrite Ed in Ed'. by apply Done_pair_inj in Ed' as [_ <-].
Qed.

Lemma DrawKernelStatusScreen_layout_witness :
  @layout_start demo_assets demo_boot = -171 /\
  foldl (@pen demo_assets) (-171) (@status_blocks demo_assets demo_boot) = -12.
Proof.
  destruct (@DrawKernelStatusScreen_layout demo_assets demo_assets_wf demo_boot) as (E1 & E2 & _);
    [unfold texts_present; split_and!; discriminate|vm_compute; reflexivity
    |split; [discriminate|reflexivity]|].
  assert (@layout_start demo_assets demo_boot = -171) as E by (rewrite E1; vm_compute; reflexivity).
  split; [exact E|]. rewrite E in E2. rewrite E2. vm_compute. reflexivity.
Defined.

(** The two passes disagree on an empty text: the drawing pass leaves the pen where
    it was, the measuring pass advances it by the five rows of block spacing. *)
Theorem console_block_empty `{Assets} fb x y m : is_i32 y -> y + 5 < 2147483648 ->
  DrawConsoleBlock fb x y (Some []) m = Done (y, m) /\
  DrawIconConsoleBlock fb x y (Some []) m = Done (y, m) /\
  AdvanceConsoleBlockY y (Some []) = y + 5 /\ AdvanceIconConsoleBlockY y (Some []) = y + 5.
Proof.
  intros Hy Hs. split; [done|]. split; [done|].
  unfold AdvanceConsoleBlockY, AdvanceIconConsoleBlockY, CountIconTextLines. cbn [CountTextLines].
  rewrite !Z.mul_0_l, (u32_id 0), (i32_id 0) by lia.
  rewrite !Z.add_0_r, (i32_id y), !i32_id by lia. done.
Qed.

Lemma console_block_empty_witness :
  @DrawConsoleBlock demo_assets (demo_fb 0) 16 20 (Some []) (buffer 0 32 9) = Done (20, buffer 0 32 9) /\
  @AdvanceConsoleBlockY demo_assets 20 (Some []) = 25.
Proof.
  destruct (@console_block_empty demo_assets (demo_fb 0) 16 20 (buffer 0 32 9)) as (? & _ & ? & _);
    [lia|lia|]. done.
Defined.

(** The mouse debug lines never overrun their 96-byte buffer: a band 420 pixels
    wide, ending 16 rows above the bottom of a screen tall enough, is blackened and
    the raw counts, poll count and pixel deltas are drawn over it. *)
Theorem DrawMouseDebug_correct `{A : Assets, !AssetsWf A} fb c line m : blendable fb -> ready fb m ->
  is_i32 (LastRawX c) -> is_i32 (LastRawY c) -> is_i32 (LastPixelX c) -> is_i32 (LastPixelY c) ->
  length line = 96%nat ->
  exists black y m1, ComposeFor fb 0 0 0 = Done black /\
    ClearRect fb 24 y 420 (GLYPH_HEIGHT gFont * 2 + 8) black m = Done m1 /\
    (GLYPH_HEIGHT gFont * 2 + 24 < ScreenHeight fb -> y + GLYPH_HEIGHT gFont * 2 + 24 = ScreenHeight fb) /\
    DrawMouseDebug fb c line m =
      (m ← DrawTextString fb 24 (i32 y) (Some (raw_line c)) 170 220 255 m1;
       DrawTextString fb 24 (i32 (u32 (y + GLYPH_HEIGHT gFont))) (Some (pixel_line c)) 170 255 170 m) /\
    exists m', DrawMouseDebug fb c line m = Done m' /\ ready fb m' /\
      same_off (region fb (on_screen fb)) m m'.
Proof. apply DrawMouseDebug_spec. Qed.

Lemma DrawMouseDebug_correct_witness : exists m',
  @DrawMouseDebug demo_assets (demo_fb 0) (demo_cursor 1 1) (replicate 96 77) (buffer 0 32 9) = Done m' /\
  ready (demo_fb 0) m'.
Proof.
  destruct (@DrawMouseDebug_correct demo_assets demo_assets_wf (demo_fb 0) (demo_cursor 1 1) (replicate 96 77)
    (buffer 0 32 9) (demo_blendable 0) (demo_ready 0 9 ltac:(lia) ltac:(lia)))
    as (_ & _ & _ & _ & _ & _ & _ & m' & E & Hm & _); [cbn; lia..|apply length_replicate|].
  exists m'. split; [exact E|exact Hm].
Defined.
