(* ===== verification/SetupUi.v ===== *)
(** * The setup screen

    [SETUP_UI_STATE] with its layout ([InitializeSetupUiState]), the hit test
    of the cursor ([HitTestSetupUi]), the buttons ([DrawSetupButton],
    [RefreshSetupButtons]) and the whole screen ([DrawSetupScreen]).  The
    main result is that refreshing the buttons whose hover state changed
    gives exactly the memory a full redraw would give. *)
From Stdlib Require Import ZArith Lia String.
From stdpp Require Import base gmap list.
From S2P Require Import Prelude Surface Pixel Assets Text Box Cursor Image.
#[local] Open Scope Z_scope.

(* ------------------------------------------------------------------ *)
(** ** Data *)

Record SETUP_UI_STATE : Type := mkSetup {
  Panel : UI_BOX;
  InstallButton : UI_BOX;
  TryButton : UI_BOX;
  HoveredButton : Z;
  MouseDetected : Z;
}.

Definition set_HoveredButton (s : SETUP_UI_STATE) (v : Z) : SETUP_UI_STATE :=
  mkSetup (Panel s) (InstallButton s) (TryButton s) v (MouseDetected s).

(** A box with a new place, size, radius and colour; the drag fields keep
    what they held. *)
Definition place (box : UI_BOX) (x y w h r color : Z) : UI_BOX :=
  mkBox x y w h r color (Dragging box) (DragOffsetX box) (DragOffsetY box).

(* ------------------------------------------------------------------ *)
(** ** Operations *)

Definition InitializeSetupUiState (fb : FRAMEBUFFER_INFO) (setupUiState : SETUP_UI_STATE)
    (mouseDetected : Z) : outcome SETUP_UI_STATE :=
  let panelMarginX := ScreenWidth fb / 16 in
  let panelMarginX := if panelMarginX <? 48 then 48 else panelMarginX in
  let panelMarginY := ScreenHeight fb / 14 in
  let panelMarginY := if panelMarginY <? 44 then 44 else panelMarginY in
  panelColor ← ComposeFor fb 250 250 250;
  let panel := place (Panel setupUiState) panelMarginX panelMarginY
    (u32 (ScreenWidth fb - u32 (panelMarginX * 2))) (u32 (ScreenHeight fb - u32 (panelMarginY * 2)))
    28 panelColor in
  let buttonWidth := Width panel / 4 in
  let buttonWidth := if buttonWidth <? 240 then 240 else buttonWidth in
  let buttonHeight := 64 in
  let buttonGap := 34 in
  let buttonX := u32 (u32 (u32 (BoxX panel + Width panel) - buttonWidth) - 72) in
  let buttonStartY := u32 (u32 (u32 (u32 (BoxY panel + Height panel) - buttonHeight * 2)
                                - buttonGap) - 120) in
  buttonColor ← ComposeFor fb 227 227 229;
  let install := place (InstallButton setupUiState) buttonX buttonStartY buttonWidth buttonHeight
    24 buttonColor in
  let try := set_BoxY install (u32 (u32 (buttonStartY + buttonHeight) + buttonGap)) in
  Done (mkSetup panel install try 0 mouseDetected).

Section setup.
Context `{Assets}.

Definition HitTestSetupUi (setupUiState : SETUP_UI_STATE) (cursor : SOFTWARE_CURSOR) : Z :=
  let centerX := u32 (CursorX cursor + CURSOR_WIDTH / 2) in
  let centerY := u32 (CursorY cursor + CURSOR_HEIGHT / 2) in
  if negb (PointInRoundedBox centerX centerY (InstallButton setupUiState) =? 0) then 1
  else if negb (PointInRoundedBox centerX centerY (TryButton setupUiState) =? 0) then 2
  else 0.

(** [MeasureTextStringAtlas] and [DrawTextStringAtlas] with the arguments
    the setup screen gives them. *)
Definition measure_ui (text : list Z) : outcome Z :=
  MeasureTextStringAtlas (Some text) (FIRST_CHAR gSetupUiFont) (GLYPH_COUNT gSetupUiFont)
    (Some (GlyphAdvance gSetupUiFont)) (i32 (GLYPH_WIDTH gSetupUiFont / 2)).

Definition draw_ui (fb : FRAMEBUFFER_INFO) (x y : Z) (text : list Z) (red green blue : Z) (m : mem)
    : outcome mem :=
  DrawTextStringAtlas fb x y (Some text) red green blue (FIRST_CHAR gSetupUiFont)
    (GLYPH_COUNT gSetupUiFont) (GLYPH_WIDTH gSetupUiFont) (GLYPH_HEIGHT gSetupUiFont)
    (Some (GlyphAlpha gSetupUiFont)) (Some (GlyphAdvance gSetupUiFont)) m.

Definition DrawSetupButton (fb : FRAMEBUFFER_INFO) (button : UI_BOX) (label : option (list Z))
    (hovered : Z) (m : mem) : outcome mem :=
  match label with
  | None => Done m
  | Some label =>
    buttonColor ← (if negb (hovered =? 0) then ComposeFor fb 212 212 215 else ComposeFor fb 227 227 229);
    let buttonBox := set_Color button buttonColor in
    m ← DrawRoundedBox fb buttonBox m;
    labelWidth ← measure_ui label;
    let buttonTextX := i32 (i32 (BoxX button) + Z.quot (i32 (i32 (Width button) - labelWidth)) 2) in
    let buttonTextY := i32 (i32 (BoxY button) +
      Z.quot (i32 (i32 (Height button) - i32 (GLYPH_HEIGHT gSetupUiFont))) 2) in
    draw_ui fb buttonTextX buttonTextY label 12 12 12 m
  end.

Definition RefreshSetupButtons (fb : FRAMEBUFFER_INFO) (setupUiState : SETUP_UI_STATE)
    (previousHoveredButton currentHoveredButton : Z) (m : mem) : outcome mem :=
  if previousHoveredButton =? currentHoveredButton then Done m
  else
    m ← (if ((previousHoveredButton =? 1) || (currentHoveredButton =? 1))%bool then
           DrawSetupButton fb (InstallButton setupUiState) (Some (str "Install"))
             (if currentHoveredButton =? 1 then 1 else 0) m
         else Done m);
    if ((previousHoveredButton =? 2) || (currentHoveredButton =? 2))%bool then
      DrawSetupButton fb (TryButton setupUiState) (Some (str "Try"))
        (if currentHoveredButton =? 2 then 1 else 0) m
    else Done m.

(** The title, at the top of the panel. *)
Definition draw_title (fb : FRAMEBUFFER_INFO) (panel : UI_BOX) (m : mem) : outcome mem :=
  let titleText := str "Dragon OS Setup" in
  let titleY := i32 (i32 (BoxY panel) + 48) in
  titleWidth ← MeasureTextStringAtlas (Some titleText) (FIRST_CHAR gSetupTitleFont)
    (GLYPH_COUNT gSetupTitleFont) (Some (GlyphAdvance gSetupTitleFont))
    (i32 (GLYPH_WIDTH gSetupTitleFont / 2));
  let titleX := i32 (i32 (BoxX panel) + Z.quot (i32 (i32 (Width panel) - titleWidth)) 2) in
  DrawGradientOutlinedTextAtlas fb titleX titleY (Some titleText) 101 235 255 76 255 84 3
    (FIRST_CHAR gSetupTitleFont) (GLYPH_COUNT gSetupTitleFont) (GLYPH_WIDTH gSetupTitleFont)
    (GLYPH_HEIGHT gSetupTitleFont) (Some (GlyphAlpha gSetupTitleFont))
    (Some (GlyphAdvance gSetupTitleFont)) (i32 (GLYPH_WIDTH gSetupTitleFont / 2)) m.

(** The height the icon is drawn at. *)
Definition icon_height (panel : UI_BOX) : Z :=
  let iconDrawHeight := if 280 <? Height panel then u32 (Height panel - 250) else Height panel / 2 in
  let iconDrawHeight := if 420 <? iconDrawHeight then 420 else iconDrawHeight in
  if iconDrawHeight <? 200 then 200 else iconDrawHeight.

Definition draw_icon (fb : FRAMEBUFFER_INFO) (panel : UI_BOX) (m : mem) : outcome mem :=
  let iconDrawHeight := icon_height panel in
  iconDrawWidth ← udiv (u32 (SETUP_ICON_WIDTH * iconDrawHeight)) SETUP_ICON_HEIGHT;
  DrawImageNearestAlpha fb (i32 (i32 (BoxX panel) + 58)) (i32 (i32 (BoxY panel) + 160))
    iconDrawWidth iconDrawHeight SETUP_ICON_WIDTH SETUP_ICON_HEIGHT
    (Some gSetupIconPixels) (Some gSetupIconAlpha) m.

(** The question, centred in the right half of the panel. *)
Definition draw_prompt (fb : FRAMEBUFFER_INFO) (panel : UI_BOX) (m : mem) : outcome mem :=
  let promptText := str "What would you like to do with Dragon OS?" in
  let rightZoneX := i32 (i32 (i32 (BoxX panel) + i32 (Width panel / 2)) - 10) in
  let rightZoneWidth := i32 (i32 (i32 (Width panel) - i32 (rightZoneX - i32 (BoxX panel))) - 48) in
  let promptY := i32 (i32 (BoxY panel) + 210) in
  promptWidth ← measure_ui promptText;
  let promptX := i32 (rightZoneX + Z.quot (i32 (rightZoneWidth - promptWidth)) 2) in
  draw_ui fb promptX promptY promptText 18 18 18 m.

Definition mouse_note : list Z :=
  str "USB combo mouse still needs a future HID driver on real hardware.".

Definition DrawSetupScreen (fb : FRAMEBUFFER_INFO) (setupUiState : SETUP_UI_STATE) (m : mem)
    : outcome mem :=
  let panel := Panel setupUiState in
  backgroundColor ← ComposeFor fb 208 208 208;
  m ← ClearScreen fb backgroundColor 0 m;
  m ← DrawRoundedBox fb panel m;
  m ← draw_title fb panel m;
  m ← draw_icon fb panel m;
  m ← draw_prompt fb panel m;
  m ← DrawSetupButton fb (InstallButton setupUiState) (Some (str "Install"))
        (if HoveredButton setupUiState =? 1 then 1 else 0) m;
  m ← DrawSetupButton fb (TryButton setupUiState) (Some (str "Try"))
        (if HoveredButton setupUiState =? 2 then 1 else 0) m;
  if MouseDetected setupUiState =? 0 then
    DrawTextString fb (i32 (i32 (BoxX panel) + 34))
      (i32 (u32 (u32 (BoxY panel + Height panel) - 34))) (Some mouse_note) 128 128 128 m
  else Done m.
End setup.

(* ------------------------------------------------------------------ *)
(** ** Specification vocabulary *)

(** The pixels of the setup screen drawn on a blank surface. *)
Definition blank (fb : FRAMEBUFFER_INFO) : mem :=
  buffer (Framebuffer fb) (Z.to_nat (PixelsPerScanLine fb * ScreenHeight fb)) 0.

Definition setup_pixel `{Assets} (fb : FRAMEBUFFER_INFO) (s : SETUP_UI_STATE) (x y : Z) : outcome Z :=
  m ← DrawSetupScreen fb s (blank fb); load32 (pix fb x y) m.

(** A surface shows the setup screen. *)
Definition shows_setup `{Assets} (fb : FRAMEBUFFER_INFO) (s : SETUP_UI_STATE) (m : mem) : Prop :=
  forall x y, in_buffer fb x y ->
    exists v, setup_pixel fb s x y = Done v /\ m !! pix fb x y = Some v.

(** A screen with room for the panel and its two buttons. *)
Definition roomy (fb : FRAMEBUFFER_INFO) : Prop :=
  408 <= ScreenWidth fb < 1073741824 /\ 370 <= ScreenHeight fb < 1073741824.

Definition box_inside (inner outer : UI_BOX) : Prop :=
  BoxX outer <= BoxX inner /\ BoxX inner + Width inner <= BoxX outer + Width outer /\
  BoxY outer <= BoxY inner /\ BoxY inner + Height inner <= BoxY outer + Height outer.

(** A button a label can be centred in. *)
Record button_wf (box : UI_BOX) : Prop := {
  button_box : box_wf box;
  button_w : 240 <= Width box;
  button_h : Height box = 64;
  button_r : Radius box = 24;
}.

(** The layout: the panel on the screen, two equal buttons in it one above
    the other, 34 rows apart, the lower 120 rows above the panel's edge. *)
Record laid_out (fb : FRAMEBUFFER_INFO) (s : SETUP_UI_STATE) : Prop := {
  panel_wf : box_wf (Panel s);
  panel_color : is_u32 (Color (Panel s));
  panel_right : BoxX (Panel s) + Width (Panel s) <= ScreenWidth fb;
  panel_bottom : BoxY (Panel s) + Height (Panel s) <= ScreenHeight fb;
  install_wf : button_wf (InstallButton s);
  install_inside : box_inside (InstallButton s) (Panel s);
  try_same : TryButton s = set_BoxY (InstallButton s) (BoxY (InstallButton s) + 98);
  try_bottom : BoxY (InstallButton s) + 98 + 64 + 120 = BoxY (Panel s) + Height (Panel s);
}.

(** What the setup screen needs of the generated header: its labels fit
    the narrowest button and its icon the fixed-point scaling. *)
Record setup_assets `{Assets} : Prop := {
  install_fits : text_width gSetupUiFont (GLYPH_WIDTH gSetupUiFont / 2) (str "Install") +
                 2 * GLYPH_WIDTH gSetupUiFont + 48 <= 240;
  try_fits : text_width gSetupUiFont (GLYPH_WIDTH gSetupUiFont / 2) (str "Try") +
             2 * GLYPH_WIDTH gSetupUiFont + 48 <= 240;
  label_height : GLYPH_HEIGHT gSetupUiFont <= 64;
  icon_draws : forall h, 200 <= h <= 420 ->
    SETUP_ICON_WIDTH * h < 4294967296 /\
    draw_fits (SETUP_ICON_WIDTH * h / SETUP_ICON_HEIGHT) h SETUP_ICON_WIDTH SETUP_ICON_HEIGHT;
}.

(** The point the hit test looks at. *)
Definition cursor_center `{Assets} (c : SOFTWARE_CURSOR) : Z * Z :=
  (CursorX c + CURSOR_WIDTH / 2, CursorY c + CURSOR_HEIGHT / 2).

(* ------------------------------------------------------------------ *)
(** ** Lemmas: layout *)

Lemma compose_total fb r g b : blendable fb -> is_u8 r -> is_u8 g -> is_u8 b ->
  exists p, ComposeFor fb r g b = Done p /\ is_u32 p.
Proof. intros (? & ? & ? & _) ???. by apply ComposePixel_total. Qed.

Lemma InitializeSetupUiState_spec fb s0 mouse : blendable fb -> roomy fb ->
  exists s, InitializeSetupUiState fb s0 mouse = Done s /\ laid_out fb s /\
    HoveredButton s = 0 /\ MouseDetected s = mouse.
Proof.
  intros Hblend [Hw Hh]. unfold InitializeSetupUiState. cbn zeta.
  destruct (compose_total fb 250 250 250) as (pc & -> & Hpc); [done|lia..|]. mred.
  destruct (compose_total fb 227 227 229) as (bc & -> & Hbc); [done|lia..|]. mred.
  cbn [place BoxX BoxY Width Height].
  set (mx := if _ <? 48 then 48 else _).
  assert (48 <= mx /\ 16 * mx <= Z.max 768 (ScreenWidth fb)) as Hmx.
  { unfold mx. destruct (Z.ltb_spec (ScreenWidth fb / 16) 48); dlia. }
  set (my := if _ <? 44 then 44 else _).
  assert (44 <= my /\ 14 * my <= Z.max 616 (ScreenHeight fb)) as Hmy.
  { unfold my. destruct (Z.ltb_spec (ScreenHeight fb / 14) 44); dlia. }
  clearbody mx my.
  rewrite (u32_id (mx * 2)), (u32_id (my * 2)) by lia.
  rewrite (u32_id (ScreenWidth fb - _)), (u32_id (ScreenHeight fb - _)) by lia.
  set (bw := if _ <? 240 then 240 else _).
  assert (240 <= bw /\ bw + 72 <= ScreenWidth fb - mx * 2) as Hbw.
  { unfold bw. destruct (Z.ltb_spec ((ScreenWidth fb - mx * 2) / 4) 240); dlia. }
  clearbody bw.
  rewrite (u32_id (mx + _)), (u32_id (my + _)) by lia.
  rewrite (u32_id (_ - bw)), (u32_id (_ - 64 * 2)) by lia.
  rewrite (u32_id (_ - 72)), (u32_id (_ - 34)) by lia.
  rewrite (u32_id (_ - 120)) by lia.
  rewrite (u32_id (_ + 64)) by lia. rewrite (u32_id (_ + 34)) by lia.
  eexists. split; [done|]. split; [|done].
  split; cbn [Panel InstallButton TryButton set_BoxY place BoxX BoxY Width Height Radius Color
    Dragging DragOffsetX DragOffsetY].
  - split; cbn; lia.
  - done.
  - lia.
  - lia.
  - split; [split|..]; cbn; lia.
  - unfold box_inside; cbn; lia.
  - f_equal; lia.
  - lia.
Qed.

(** The buttons do not meet. *)
Lemma buttons_apart fb s x y : laid_out fb s ->
  in_rounded (InstallButton s) x y -> in_rounded (TryButton s) x y -> False.
Proof.
  intros [_ _ _ _ [_ _ Hh _] _ Ht _] [[_ H1] _] [[_ H2] _]. rewrite Ht in H2. cbn in H2. lia.
Qed.

Lemma try_wf fb s : laid_out fb s -> button_wf (TryButton s).
Proof.
  intros [[] _ _ Hb [[]] _ Ht Hg]. rewrite Ht.
  split; [split|..]; cbn; lia.
Qed.

Lemma HitTestSetupUi_spec `{Assets} fb s c : laid_out fb s ->
  0 <= CursorX c -> CursorX c + CURSOR_WIDTH / 2 < 4294967296 ->
  0 <= CursorY c -> CursorY c + CURSOR_HEIGHT / 2 < 4294967296 ->
  0 <= CURSOR_WIDTH -> 0 <= CURSOR_HEIGHT ->
  let '(x, y) := cursor_center c in
  (HitTestSetupUi s c = 1 <-> in_rounded (InstallButton s) x y) /\
  (HitTestSetupUi s c = 2 <-> in_rounded (TryButton s) x y) /\
  (HitTestSetupUi s c = 0 <-> ~ in_rounded (InstallButton s) x y /\ ~ in_rounded (TryButton s) x y).
Proof.
  intros Hs ??????. cbn [cursor_center]. unfold HitTestSetupUi. cbn zeta.
  assert (0 <= CURSOR_WIDTH / 2 /\ 0 <= CURSOR_HEIGHT / 2) as [] by dlia.
  rewrite !u32_id by lia.
  set (x := CursorX c + _). set (y := CursorY c + _).
  pose proof (PointInRoundedBox_spec x y _ (button_box _ (install_wf _ _ Hs))) as HI.
  pose proof (PointInRoundedBox_spec x y _ (button_box _ (try_wf _ _ Hs))) as HT.
  pose proof (buttons_apart fb s x y Hs) as Hno.
  destruct (PointInRoundedBox_bool x y (InstallButton s)) as [E1|E1];
    destruct (PointInRoundedBox_bool x y (TryButton s)) as [E2|E2];
    rewrite E1, ?E2 in *; cbn [Z.eqb negb]; rewrite <- HI, <- HT; intuition lia.
Qed.

(* ------------------------------------------------------------------ *)
(** ** Lemmas: buttons *)

(** The straight columns of a button are inside it from top to bottom. *)
Lemma straight_columns box x y : button_wf box ->
  BoxX box + 24 <= x < BoxX box + Width box - 24 -> BoxY box <= y < BoxY box + Height box ->
  in_rounded box x y.
Proof.
  intros [_ _ Hh Hr] Hx Hy. split; [unfold rect; lia|]. right. cbn zeta. rewrite Hr, Hh in *.
  assert (corner_distance (x - BoxX box) (Width box) 24 = 0) as -> by (unfold corner_distance; lia).
  assert (0 <= corner_distance (y - BoxY box) 64 24 <= 23) as Hd by (unfold corner_distance; lia).
  pose proof (square_le _ _ Hd). lia.
Qed.

Section buttons.
Context `{A : Assets, !AssetsWf A} (fb : FRAMEBUFFER_INFO) (Hblend : blendable fb).

Lemma ui_half : i32 (GLYPH_WIDTH gSetupUiFont / 2) = GLYPH_WIDTH gSetupUiFont / 2 /\
  0 <= GLYPH_WIDTH gSetupUiFont / 2 < 2147483648.
Proof. pose proof (font_w _ gSetupUiFont_wf). rewrite i32_id; dlia. Qed.

Lemma measure_ui_line text : single_line text ->
  text_width gSetupUiFont (GLYPH_WIDTH gSetupUiFont / 2) text < 2147483648 ->
  measure_ui text = Done (text_width gSetupUiFont (GLYPH_WIDTH gSetupUiFont / 2) text).
Proof.
  intros Hl Hw. unfold measure_ui. destruct ui_half as [-> ?].
  by apply MeasureTextStringAtlas_line; auto with assets.
Qed.

Definition fits_label (label : list Z) : Prop :=
  single_line label /\
  text_width gSetupUiFont (GLYPH_WIDTH gSetupUiFont / 2) label + 2 * GLYPH_WIDTH gSetupUiFont + 48
    <= 240.

(** A label that fits is drawn inside its button, so that drawing the
    button leaves the same memory whatever the button showed before. *)
Lemma DrawSetupButton_overwrites box label hovered : button_wf box ->
  fits_label label -> GLYPH_HEIGHT gSetupUiFont <= 64 ->
  overwrites fb (fun px py => in_rounded box px py /\ on_screen fb px py)
    (DrawSetupButton fb box (Some label) hovered).
Proof.
  intros Hbtn [Hl Hfits] Hgh. pose proof Hbtn as [[] Hw Hh Hr].
  pose proof (font_w _ gSetupUiFont_wf). pose proof (font_h _ gSetupUiFont_wf).
  destruct ui_half as [_ Hhalf].
  pose proof (text_width_nonneg _ gSetupUiFont_wf _ label Hhalf) as Htw0.
  unfold DrawSetupButton.
  assert (exists color, (if negb (hovered =? 0) then ComposeFor fb 212 212 215
    else ComposeFor fb 227 227 229) = Done color /\ is_u32 color) as (color & -> & Hc).
  { destruct (negb _); apply compose_total; try done; lia. }
  mred. rewrite (measure_ui_line label Hl) by lia.
  apply overwrites_seq.
  { apply (DrawRoundedBox_overwrites fb (set_Color box color)); [|done]. by split. }
  mred. cbn zeta. set (tw := text_width _ _ _) in *.
  assert (i32 (i32 (BoxX box) + Z.quot (i32 (i32 (Width box) - tw)) 2) =
    BoxX box + (Width box - tw) / 2) as ->.
  { rewrite (i32_id (Width box)), (i32_id (_ - tw)), (i32_id (BoxX box)) by lia.
    rewrite Z.quot_div_nonneg by lia. apply i32_id. clearbody tw. dlia. }
  assert (i32 (i32 (BoxY box) + Z.quot (i32 (i32 (Height box) - i32 (GLYPH_HEIGHT gSetupUiFont))) 2) =
    BoxY box + (64 - GLYPH_HEIGHT gSetupUiFont) / 2) as ->.
  { rewrite (i32_id (GLYPH_HEIGHT _)), (i32_id (Height box)), (i32_id (Height box - _)),
      (i32_id (BoxY box)) by lia.
    rewrite Z.quot_div_nonneg by lia. rewrite Hh in *. apply i32_id. dlia. }
  eapply tints_weaken; [|apply DrawTextStringAtlas_line; auto with assets; try lia; fold tw;
    clearbody tw; dlia].
  intros px py _ [Hrect Hon]. split; [|done]. fold tw in Hrect. unfold rect in Hrect.
  assert (24 <= (Width box - tw) / 2 /\ tw + (Width box - tw) / 2 + GLYPH_WIDTH gSetupUiFont <=
    Width box - 24) by (clearbody tw; dlia).
  assert (0 <= (64 - GLYPH_HEIGHT gSetupUiFont) / 2 /\
    (64 - GLYPH_HEIGHT gSetupUiFont) / 2 + GLYPH_HEIGHT gSetupUiFont <= 64) by dlia.
  apply straight_columns; [done|lia|lia].
Qed.
End buttons.

Lemma Install_fits `{Assets} : setup_assets -> fits_label (str "Install").
Proof. intros []. split; [|done]. repeat constructor; discriminate. Qed.

Lemma Try_fits `{Assets} : setup_assets -> fits_label (str "Try").
Proof. intros []. split; [|done]. repeat constructor; discriminate. Qed.

(* ------------------------------------------------------------------ *)
(** ** Lemmas: the screen *)

Section screen.
Context `{A : Assets, !AssetsWf A} (Hsetup : setup_assets).
Context (fb : FRAMEBUFFER_INFO) (Hblend : blendable fb).
Abbreviation everywhere := (fun _ _ : Z => True).

Lemma tints_everywhere R c : tints fb R c -> tints fb everywhere c.
Proof. by apply tints_weaken. Qed.

Lemma draw_title_tints panel : tints fb everywhere (draw_title fb panel).
Proof.
  unfold draw_title. cbn zeta.
  destruct (MeasureTextStringAtlas_total gSetupTitleFont (i32 (GLYPH_WIDTH gSetupTitleFont / 2))
    (str "Dragon OS Setup") gSetupTitleFont_wf) as (w & -> & _). mred.
  eapply tints_everywhere, DrawGradientOutlinedTextAtlas_tints; auto with assets ranges.
Qed.

Lemma icon_height_range panel : 200 <= icon_height panel <= 420.
Proof.
  unfold icon_height. cbn zeta.
  set (h := if _ <? Height panel then _ else _).
  destruct (Z.ltb_spec 420 h); [done|]. destruct (Z.ltb_spec h 200); lia.
Qed.

Lemma draw_icon_tints panel : tints fb everywhere (draw_icon fb panel).
Proof.
  unfold draw_icon. cbn zeta.
  destruct (icon_draws Hsetup _ (icon_height_range panel)) as [Hm Hd].
  pose proof icon_wf as []. pose proof (icon_height_range panel).
  rewrite u32_id by nia. rewrite udiv_done by lia. mred.
  eapply tints_everywhere, DrawImageNearestAlpha_tints; auto with assets ranges.
Qed.

Lemma draw_prompt_tints panel : tints fb everywhere (draw_prompt fb panel).
Proof.
  unfold draw_prompt, measure_ui. cbn zeta.
  destruct (MeasureTextStringAtlas_total gSetupUiFont (i32 (GLYPH_WIDTH gSetupUiFont / 2))
    (str "What would you like to do with Dragon OS?") gSetupUiFont_wf) as (w & -> & _). mred.
  eapply tints_everywhere, DrawTextStringAtlas_tints; auto with assets ranges; lia.
Qed.

Context (s : SETUP_UI_STATE) (Hs : laid_out fb s).

Abbreviation shape b := (fun px py => in_rounded b px py /\ on_screen fb px py).

Lemma install_overwrites hovered :
  overwrites fb (shape (InstallButton s))
    (DrawSetupButton fb (InstallButton s) (Some (str "Install")) hovered).
Proof.
  apply DrawSetupButton_overwrites; [done|apply Hs|by apply Install_fits|apply Hsetup].
Qed.

Lemma try_overwrites hovered :
  overwrites fb (shape (TryButton s)) (DrawSetupButton fb (TryButton s) (Some (str "Try")) hovered).
Proof.
  apply DrawSetupButton_overwrites; [done|by eapply try_wf|by apply Try_fits|apply Hsetup].
Qed.

(** The background, the panel and what stands on it left of the buttons. *)
Definition setup_base (m : mem) : outcome mem :=
  backgroundColor ← ComposeFor fb 208 208 208;
  m ← ClearScreen fb backgroundColor 0 m;
  m ← DrawRoundedBox fb (Panel s) m;
  m ← draw_title fb (Panel s) m;
  m ← draw_icon fb (Panel s) m;
  draw_prompt fb (Panel s) m.

(** The note under the buttons when there is no mouse. *)
Definition setup_note (m : mem) : outcome mem :=
  if MouseDetected s =? 0 then
    DrawTextString fb (i32 (i32 (BoxX (Panel s)) + 34))
      (i32 (u32 (u32 (BoxY (Panel s) + Height (Panel s)) - 34))) (Some mouse_note) 128 128 128 m
  else Done m.

(** Clearing the screen, the base leaves the same memory whatever the
    screen held. *)
Lemma setup_base_overwrites : overwrites fb everywhere setup_base.
Proof.
  unfold setup_base. destruct (compose_total fb 208 208 208) as (c & -> & Hc); [done|lia..|]. mred.
  apply overwrites_seq; [by apply ClearScreen_overwrites|].
  apply (drawing_seq (J := tints fb everywhere)).
  { eapply tints_everywhere, overwrites_tints, DrawRoundedBox_overwrites; apply Hs. }
  apply (drawing_seq (J := tints fb everywhere)); [apply draw_title_tints|].
  apply (drawing_seq (J := tints fb everywhere)); [apply draw_icon_tints|apply draw_prompt_tints].
Qed.

Lemma setup_note_tints :
  tints fb (fun px py => BoxY (Panel s) + Height (Panel s) - 34 <= py /\ on_screen fb px py) setup_note.
Proof.
  unfold setup_note. destruct (_ =? 0); [|apply drawing_ret].
  pose proof Hs as [[] _ _ Hb _ _ _ Hg]. destruct (install_wf _ _ Hs) as [[]].
  rewrite (u32_id (_ + _)), (u32_id (_ - 34)), (i32_id (_ - 34)) by lia.
  apply DrawTextString_below; try done; try lia; [auto with ranges|].
  repeat constructor; discriminate.
Qed.

Lemma DrawSetupScreen_parts h m :
  DrawSetupScreen fb (set_HoveredButton s h) m =
  (m ← setup_base m;
   m ← DrawSetupButton fb (InstallButton s) (Some (str "Install")) (if h =? 1 then 1 else 0) m;
   m ← DrawSetupButton fb (TryButton s) (Some (str "Try")) (if h =? 2 then 1 else 0) m;
   setup_note m).
Proof.
  unfold DrawSetupScreen, setup_base. cbn [set_HoveredButton Panel InstallButton TryButton
    HoveredButton MouseDetected].
  rewrite bind_assoc. apply bind_ext. intros c.
  rewrite !bind_assoc. apply bind_ext. intros m1.
  rewrite !bind_assoc. apply bind_ext. intros m2.
  rewrite !bind_assoc. apply bind_ext. intros m3.
  rewrite !bind_assoc. by apply bind_ext.
Qed.

(** The screen overwrites: it is a function of the setup state alone. *)
Lemma DrawSetupScreen_overwrites h :
  overwrites fb everywhere (DrawSetupScreen fb (set_HoveredButton s h)).
Proof.
  eapply overwrites_ext; [intros m; apply DrawSetupScreen_parts|].
  apply overwrites_seq; [apply setup_base_overwrites|].
  apply (drawing_seq (J := tints fb everywhere)).
  { eapply tints_everywhere, overwrites_tints, install_overwrites. }
  apply (drawing_seq (J := tints fb everywhere)).
  { eapply tints_everywhere, overwrites_tints, try_overwrites. }
  eapply tints_everywhere, setup_note_tints.
Qed.
End screen.

(* ------------------------------------------------------------------ *)
(** ** Lemmas: refreshing the buttons *)

(** Redrawing a button late, or not at all when it looks the same. *)
Lemma refresh_one fb R D (b : bool) c c' d m : overwrites fb R c -> tints fb R c' -> tints fb D d ->
  (forall x y, in_buffer fb x y -> R x y -> D x y -> False) -> ready fb m ->
  (b = false -> forall m, c m = c' m) ->
  exists m2 m3, (m ← c' m; d m) = Done m2 /\ (if b then c m2 else Done m2) = Done m3 /\
    (m ← c m; d m) = Done m3 /\ ready fb m3.
Proof.
  intros Hc Hc' Hd Hdisj Hm Hb.
  destruct (late_redraw fb R D c c' d m) as (m1 & m2 & m3 & E1 & E2 & E3 & E4 & Hm3); [done..|].
  exists m2. rewrite E1. mred. rewrite E2. destruct b; [by exists m3|].
  exists m2. split; [done|]. split; [done|]. rewrite Hb by done. rewrite E1. mred.
  split; [done|]. destruct (tints_draws _ _ _ Hc' m Hm) as (n1 & F1 & Hn1 & _).
  rewrite E1 in F1. apply Done_inj in F1 as <-.
  destruct (tints_draws _ _ _ Hd m1 Hn1) as (n2 & F2 & Hn2 & _).
  rewrite E2 in F2. by apply Done_inj in F2 as <-.
Qed.

(** A refresh touches the buttons it redraws and nothing else. *)
Lemma RefreshSetupButtons_tints `{A : Assets, !AssetsWf A} fb s prev cur :
  setup_assets -> blendable fb -> laid_out fb s ->
  tints fb (fun px py => ((prev = 1 \/ cur = 1) /\ in_rounded (InstallButton s) px py) \/
      ((prev = 2 \/ cur = 2) /\ in_rounded (TryButton s) px py))
    (RefreshSetupButtons fb s prev cur).
Proof.
  intros Ha Hb Hs. unfold RefreshSetupButtons. set (J := tints fb _).
  apply (drawing_if J); [intros _; apply drawing_ret|intros _].
  apply (drawing_seq (J := J)); apply (drawing_if J); try (intros _; apply drawing_ret);
    rewrite orb_true_iff, !Z.eqb_eq; intros Hor.
  - eapply tints_weaken; [|apply overwrites_tints, (install_overwrites Ha fb Hb s Hs)].
    intros ? ? _ []. auto.
  - eapply tints_weaken; [|apply overwrites_tints, (try_overwrites Ha fb Hb s Hs)].
    intros ? ? _ []. auto.
Qed.

Lemma RefreshSetupButtons_spec `{A : Assets, !AssetsWf A} fb s prev cur m :
  setup_assets -> blendable fb -> laid_out fb s -> ready fb m ->
  exists m1 m2, DrawSetupScreen fb (set_HoveredButton s prev) m = Done m1 /\
    RefreshSetupButtons fb (set_HoveredButton s cur) prev cur m1 = Done m2 /\
    DrawSetupScreen fb (set_HoveredButton s cur) m = Done m2 /\ ready fb m2.
Proof.
  intros Ha Hblend Hs Hm. rewrite !DrawSetupScreen_parts.
  destruct (tints_draws _ _ _ (overwrites_tints _ _ _ (setup_base_overwrites Ha fb Hblend s Hs)) m Hm)
    as (mb & -> & Hmb & _). mred.
  set (b1 := fun h : Z => DrawSetupButton fb (InstallButton s) (Some (str "Install")) (if h =? 1 then 1 else 0)).
  set (b2 := fun h : Z => DrawSetupButton fb (TryButton s) (Some (str "Try")) (if h =? 2 then 1 else 0)).
  change (exists m1 m2, (m ← b1 prev mb; m ← b2 prev m; setup_note fb s m) = Done m1 /\
    RefreshSetupButtons fb (set_HoveredButton s cur) prev cur m1 = Done m2 /\
    (m ← b1 cur mb; m ← b2 cur m; setup_note fb s m) = Done m2 /\ ready fb m2).
  assert (forall h, overwrites fb _ (b1 h)) as H1 by (intros h; by apply install_overwrites).
  assert (forall h, overwrites fb _ (b2 h)) as H2 by (intros h; by apply try_overwrites).
  pose proof (setup_note_tints fb Hblend s Hs) as Hn.
  assert (forall x y, in_rounded (InstallButton s) x y \/ in_rounded (TryButton s) x y ->
    BoxY (Panel s) + Height (Panel s) - 34 <= y -> False) as Hoff.
  { intros x y Hin Hy. pose proof (try_bottom _ _ Hs). destruct (install_wf _ _ Hs).
    destruct Hin as [[[_ Hin] _]|[[_ Hin] _]]; [lia|]. rewrite (try_same _ _ Hs) in Hin. cbn in Hin. lia. }
  destruct (refresh_one fb (fun px py => in_rounded (InstallButton s) px py /\ on_screen fb px py)
    (fun px py => (in_rounded (TryButton s) px py \/ BoxY (Panel s) + Height (Panel s) - 34 <= py) /\
      on_screen fb px py)
    (negb (prev =? cur) && ((prev =? 1) || (cur =? 1))) (b1 cur) (b1 prev)
    (fun m => m ← b2 prev m; setup_note fb s m) mb)
    as (m2 & m3 & E2 & E3 & E4 & Hm3); [done|by apply overwrites_tints| | |done| |].
  { apply (drawing_seq (J := tints fb _)).
    - eapply tints_weaken; [|apply overwrites_tints, H2]. intros ? ? _ []. auto.
    - eapply tints_weaken; [|exact Hn]. intros ? ? _ []. auto. }
  { intros x y _ [HI _] [[HT|Hy] _]; [by eapply buttons_apart|eauto]. }
  { unfold b1. destruct (Z.eqb_spec prev cur) as [->|]; [done|].
    destruct (prev =? 1); [done|]. by destruct (cur =? 1). }
  rewrite E2. destruct (tints_draws _ _ _ (overwrites_tints _ _ _ (H1 cur)) mb Hmb) as (n1 & F1 & Hn1 & _).
  rewrite F1 in E4 |- *. mred in E4. mred.
  destruct (refresh_one fb (fun px py => in_rounded (TryButton s) px py /\ on_screen fb px py)
    (fun px py => BoxY (Panel s) + Height (Panel s) - 34 <= py /\ on_screen fb px py)
    (negb (prev =? cur) && ((prev =? 2) || (cur =? 2))) (b2 cur) (b2 prev)
    (setup_note fb s) n1) as (m2' & m4 & E2' & E3' & E4' & Hm4); [done|by apply overwrites_tints|done| |done| |].
  { intros x y _ [HT _] [Hy _]. eauto. }
  { unfold b2. destruct (Z.eqb_spec prev cur) as [->|]; [done|].
    destruct (prev =? 2); [done|]. by destruct (cur =? 2). }
  rewrite E4 in E2'. apply Done_inj in E2' as <-. exists m2, m4. split; [done|]. split; [|done].
  unfold RefreshSetupButtons. cbn [set_HoveredButton InstallButton TryButton].
  destruct (prev =? cur); cbn [negb andb] in E3, E3'.
  - apply Done_inj in E3 as ->. done.
  - fold (b1 cur) (b2 cur). rewrite E3. mred. exact E3'.
Qed.

(* ------------------------------------------------------------------ *)
(** ** Lemmas: the picture of a setup state *)

Section picture.
Context `{A : Assets, !AssetsWf A} (Hsetup : setup_assets).
Context (fb : FRAMEBUFFER_INFO) (Hblend : blendable fb).

Lemma laid_out_hovered s h : laid_out fb s -> laid_out fb (set_HoveredButton s h).
Proof. by intros []; split. Qed.

Lemma set_HoveredButton_same s : set_HoveredButton s (HoveredButton s) = s.
Proof. by destruct s. Qed.

(** Drawing the screen shows it. *)
Lemma DrawSetupScreen_shows s m : laid_out fb s -> ready fb m ->
  exists m', DrawSetupScreen fb s m = Done m' /\ ready fb m' /\
    same_off (region fb (fun _ _ => True)) m m' /\ shows_setup fb s m'.
Proof.
  intros Hs Hm. pose proof (DrawSetupScreen_overwrites Hsetup fb Hblend s Hs (HoveredButton s)) as Hover.
  rewrite set_HoveredButton_same in Hover. pose proof (overwrites_tints _ _ _ Hover) as [Hd _].
  destruct (Hd m Hm) as (m' & E & Hm' & Hsame). exists m'. split_and!; try done.
  intros x y Hb. unfold setup_pixel.
  assert (ready fb (blank fb)) as Hb0 by (apply ready_buffer; [by eapply ready_fb|lia]).
  destruct (Hd (blank fb) Hb0) as (m0 & E0 & Hm0 & _). rewrite E0. mred.
  destruct (load32_done (pix fb x y) m0) as (v & El & _ & Hv);
    [by eapply ready_mem|by apply Hm0|].
  exists v. split; [done|]. rewrite <- Hv. destruct Hover as [_ Ho]. by eapply (Ho m (blank fb)).
Qed.

(** A screen that is shown does not change when drawn. *)
Lemma DrawSetupScreen_idempotent s m : laid_out fb s -> ready fb m -> shows_setup fb s m ->
  DrawSetupScreen fb s m = Done m.
Proof.
  intros Hs Hm Hshow. destruct (DrawSetupScreen_shows s m Hs Hm) as (m' & -> & Hm' & Hsame & Hshow').
  f_equal. symmetry. apply (same_off_eq fb (fun _ _ => True)); [done|done|]. intros px py Hb _.
  destruct (Hshow px py Hb) as (v & Ev & ->). destruct (Hshow' px py Hb) as (v' & Ev' & ->). congruence.
Qed.

(** Refreshing a shown screen shows the new one. *)
Lemma RefreshSetupButtons_shows s h m : laid_out fb s -> ready fb m -> shows_setup fb s m ->
  exists m', RefreshSetupButtons fb (set_HoveredButton s h) (HoveredButton s) h m = Done m' /\
    ready fb m' /\ shows_setup fb (set_HoveredButton s h) m'.
Proof.
  intros Hs Hm Hshow.
  destruct (RefreshSetupButtons_spec fb s (HoveredButton s) h m) as (m1 & m2 & E1 & E2 & E3 & Hm2);
    [done..|].
  rewrite set_HoveredButton_same, DrawSetupScreen_idempotent in E1 by done. apply Done_inj in E1 as <-.
  exists m2. split; [done|]. split; [done|].
  destruct (DrawSetupScreen_shows (set_HoveredButton s h) m) as (m' & E & _ & _ & Hsh);
    [by apply laid_out_hovered|done|].
  rewrite E3 in E. by apply Done_inj in E as <-.
Qed.
End picture.

(* ------------------------------------------------------------------ *)
(** ** A concrete screen, for the witnesses *)

Definition setup_fb (p : Z) : FRAMEBUFFER_INFO := mkFB 480 400 480 1 0 0 0 p.

Definition no_box : UI_BOX := mkBox 0 0 0 0 0 0 0 0 0.

(** What [InitializeSetupUiState] makes of [setup_fb]. *)
Definition demo_setup (hovered mouse : Z) : SETUP_UI_STATE :=
  mkSetup (mkBox 48 44 384 312 28 16448250 0 0 0) (mkBox 120 74 240 64 24 14935013 0 0 0)
    (mkBox 120 172 240 64 24 14935013 0 0 0) hovered mouse.

Lemma setup_fb_blendable p : blendable (setup_fb p).
Proof. repeat split; cbn; try lia; discriminate. Qed.

Lemma setup_fb_wf p : 0 <= p < 1073741824 -> fb_wf (setup_fb p).
Proof. split; cbn; lia. Qed.

Lemma demo_setup_init mouse :
  InitializeSetupUiState (setup_fb 4096) (mkSetup no_box no_box no_box 0 0) mouse =
  Done (demo_setup 0 mouse).
Proof. reflexivity. Qed.

Lemma demo_setup_laid_out hovered mouse : laid_out (setup_fb 4096) (demo_setup hovered mouse).
Proof.
  split; cbn; try lia; try done; repeat (split; cbn; try lia).
Qed.

Lemma demo_setup_assets : @setup_assets demo_assets.
Proof.
  split; [vm_compute; discriminate|vm_compute; discriminate|vm_compute; discriminate|].
  intros h Hh. cbn. rewrite (Z.mul_comm 2 h), Z.div_mul by done. unfold draw_fits. lia.
Qed.

(* ------------------------------------------------------------------ *)
(** ** Properties *)

(** C10: redrawing only the buttons whose hover state changed gives exactly the
    memory a redraw of the whole setup screen with the new hover state would give,
    for every pair of hover states. *)
Theorem RefreshSetupButtons_correct `{A : Assets, !AssetsWf A} fb s prev cur m :
  setup_assets -> blendable fb -> laid_out fb s -> ready fb m ->
  exists m1 m2, DrawSetupScreen fb (set_HoveredButton s prev) m = Done m1 /\
    RefreshSetupButtons fb (set_HoveredButton s cur) prev cur m1 = Done m2 /\
    DrawSetupScreen fb (set_HoveredButton s cur) m = Done m2.
Proof.
  intros Ha Hb Hs Hm.
  destruct (RefreshSetupButtons_spec fb s prev cur m Ha Hb Hs Hm) as (m1 & m2 & ? & ? & ? & _).
  by exists m1, m2.
Qed.

Lemma RefreshSetupButtons_correct_witness : exists m m1 m2,
  @DrawSetupScreen demo_assets (setup_fb 4096) (demo_setup 0 0) m = Done m1 /\
  @RefreshSetupButtons demo_assets (setup_fb 4096) (demo_setup 2 0) 0 2 m1 = Done m2 /\
  @DrawSetupScreen demo_assets (setup_fb 4096) (demo_setup 2 0) m = Done m2.
Proof.
  eexists. refine (@RefreshSetupButtons_correct demo_assets demo_assets_wf (setup_fb 4096)
    (demo_setup 0 0) 0 2 _ demo_setup_assets (setup_fb_blendable 4096) (demo_setup_laid_out 0 0)
    (ready_buffer (setup_fb 4096) 0 (setup_fb_wf 4096 _) _)); lia.
Defined.

(** C40: on a screen at least 408 by 370 the setup layout is the intended one: the
    panel lies on the screen, the two equal buttons lie in the panel, one 34 rows
    above the other, no coordinate having wrapped, and no button is hovered. *)
Theorem InitializeSetupUiState_correct fb s0 mouse : blendable fb -> roomy fb ->
  exists s, InitializeSetupUiState fb s0 mouse = Done s /\ laid_out fb s /\
    HoveredButton s = 0 /\ MouseDetected s = mouse.
Proof. apply InitializeSetupUiState_spec. Qed.

Lemma InitializeSetupUiState_correct_witness : exists s,
  InitializeSetupUiState (setup_fb 4096) (mkSetup no_box no_box no_box 7 7) 1 = Done s /\
  laid_out (setup_fb 4096) s.
Proof.
  destruct (InitializeSetupUiState_correct (setup_fb 4096) (mkSetup no_box no_box no_box 7 7) 1
    (setup_fb_blendable 4096)) as (s & E & Hs & _); [split; cbn; lia|]. exists s. split; [exact E|exact Hs].
Defined.

(** The hit test names the button whose rounded shape contains the centre of
    the cursor image, and names none exactly when neither does; the two shapes never
    meet. *)
Theorem HitTestSetupUi_correct `{Assets} fb s c : laid_out fb s ->
  0 <= CursorX c -> CursorX c + CURSOR_WIDTH / 2 < 4294967296 ->
  0 <= CursorY c -> CursorY c + CURSOR_HEIGHT / 2 < 4294967296 ->
  0 <= CURSOR_WIDTH -> 0 <= CURSOR_HEIGHT ->
  let '(x, y) := cursor_center c in
  (HitTestSetupUi s c = 1 <-> in_rounded (InstallButton s) x y) /\
  (HitTestSetupUi s c = 2 <-> in_rounded (TryButton s) x y) /\
  (HitTestSetupUi s c = 0 <-> ~ in_rounded (InstallButton s) x y /\ ~ in_rounded (TryButton s) x y).
Proof. apply HitTestSetupUi_spec. Qed.

Lemma HitTestSetupUi_correct_witness :
  in_rounded (TryButton (demo_setup 0 1)) 150 180.
Proof.
  destruct (@HitTestSetupUi_correct demo_assets (setup_fb 4096) (demo_setup 0 1) (demo_cursor 149 179)
    (demo_setup_laid_out 0 1)) as (_ & H & _); [vm_compute; discriminate|vm_compute; reflexivity
    |vm_compute; discriminate|vm_compute; reflexivity|vm_compute; discriminate|vm_compute; discriminate|].
  apply H. vm_compute. reflexivity.
Defined.

(** Drawing the setup screen never faults and is a function of the setup state
    alone: whatever the screen showed before, the memory afterwards is the same. *)
Theorem DrawSetupScreen_correct `{A : Assets, !AssetsWf A} fb s m1 m2 :
  setup_assets -> blendable fb -> laid_out fb s -> ready fb m1 -> ready fb m2 ->
  same_off (region fb (fun _ _ => True)) m1 m2 ->
  exists m', DrawSetupScreen fb s m1 = Done m' /\ DrawSetupScreen fb s m2 = Done m' /\ ready fb m'.
Proof.
  intros Ha Hb Hs Hm1 Hm2 Hsame.
  pose proof (DrawSetupScreen_overwrites Ha fb Hb s Hs (HoveredButton s)) as Hover.
  replace (set_HoveredButton s (HoveredButton s)) with s in * by (by destruct s).
  destruct (tints_draws _ _ _ (overwrites_tints _ _ _ Hover) m1 Hm1) as (m' & E & Hm' & _).
  exists m'. split; [done|]. split; [|done]. rewrite <- E. symmetry. by apply (overwrites_absorbs fb (fun _ _ => True)).
Qed.

Lemma DrawSetupScreen_correct_witness : exists m1 m2 m',
  m1 !! 4096 = Some 0 /\ m2 !! 4096 = Some 5 /\
  @DrawSetupScreen demo_assets (setup_fb 4096) (demo_setup 1 0) m1 = Done m' /\
  @DrawSetupScreen demo_assets (setup_fb 4096) (demo_setup 1 0) m2 = Done m'.
Proof.
  pose proof (ready_buffer (setup_fb 4096) 0 (setup_fb_wf 4096 ltac:(lia)) ltac:(lia)) as Hm1.
  set (m1 := buffer _ _ _) in Hm1.
  assert (m1 !! 4096 = Some 0) as H1.
  { destruct (ready_mapped _ _ Hm1 0 0) as [v Hv]; [split; cbn; lia|].
    change (pix (setup_fb 4096) 0 0) with 4096 in Hv.
    destruct (buffer_lookup 4096 (Z.to_nat (480 * 400)) 0 4096) as [E|E]; [exact E|].
    change (m1 !! 4096 = None) in E. congruence. }
  assert (same_off (region (setup_fb 4096) (fun _ _ => True)) m1 (<[4096:=5]> m1)) as Hs.
  { split; [apply dom_insert_lookup_L; eauto|]. intros a Ha. apply lookup_insert_ne. intros <-.
    apply Ha. exists 0, 0. split; [done|]. split; [split; cbn; lia|reflexivity]. }
  assert (ready (setup_fb 4096) (<[4096:=5]> m1)) as Hm2.
  { eapply ready_same_off; [exact Hm1| |exact Hs]. intros a v Hv.
    apply lookup_insert_Some in Hv as [[_ <-]|[_ Hv]]; [lia|]. by eapply Hm1. }
  destruct (@DrawSetupScreen_correct demo_assets demo_assets_wf (setup_fb 4096) (demo_setup 1 0)
    m1 (<[4096:=5]> m1) demo_setup_assets (setup_fb_blendable 4096) (demo_setup_laid_out 1 0) Hm1 Hm2 Hs)
    as (m' & E1 & E2 & _).
  exists m1, (<[4096:=5]> m1), m'. split; [exact H1|]. split; [apply lookup_insert_eq|].
  split; [exact E1|exact E2].
Defined.
