(* ===== verification/TweenDemo.v ===== *)
(** * The tween demo

    The animated test screen: its panel and title ([DrawTweenDemoBase]), the
    part that moves ([GetTweenDemoDynamicRect], [DrawTweenDemoMotion]) and a
    whole frame ([DrawTweenDemoFrame]).  The main result is that drawing the
    moving part over an earlier frame gives the frame drawn from scratch. *)
From Stdlib Require Import ZArith Lia String.
From stdpp Require Import base gmap list.
From S2P Require Import Prelude Surface Pixel Assets Text Box Image Format Console SetupUi.
#[local] Open Scope Z_scope.

(* ------------------------------------------------------------------ *)
(** ** Operations *)

(** [panelX], [panelY], [panelWidth] and [panelHeight]. *)
Definition tween_panel (fb : FRAMEBUFFER_INFO) : Z * Z * Z * Z :=
  let panelWidth := u32 (ScreenWidth fb - ScreenWidth fb / 8) in
  let panelHeight := u32 (ScreenHeight fb - ScreenHeight fb / 6) in
  let panelX := u32 (ScreenWidth fb - panelWidth) / 2 in
  let panelY := u32 (ScreenHeight fb - panelHeight) / 2 in
  (panelX, panelY, panelWidth, panelHeight).

(** The four results, for a caller that asks for all of them. *)
Definition GetTweenDemoDynamicRect (fb : FRAMEBUFFER_INFO) : Z * Z * Z * Z :=
  let '(panelX, panelY, panelWidth, panelHeight) := tween_panel fb in
  (u32 (panelX + 48), u32 (panelY + 112), u32 (panelWidth - 96), u32 (panelHeight - 148)).

(** [familyName]. *)
Definition family_name (tweenFamily : Z) : list Z :=
  if tweenFamily =? 1 then str "Sine" else if tweenFamily =? 2 then str "Cubic" else str "Linear".

Definition tween_label (tweenFamily : Z) (b : chars) : outcome (list Z) :=
  b ← AppendText (str "Current Tween: ") b;
  b ← AppendText (family_name tweenFamily) b;
  b ← AppendText (str " ") b;
  b ← AppendText (str "InOut") b;
  terminate b.

Definition progress_label (progress1024 : Z) (b : chars) : outcome (list Z) :=
  b ← AppendText (str "Progress ") b;
  b ← AppendInt (i32 (u32 (progress1024 * 100) / 1024)) b;
  b ← AppendText (str "%") b;
  terminate b.

(** One channel of the box: [start + ((end - start) * eased) / 1024]. *)
Definition tween_channel (start stop eased1024 : Z) : Z :=
  u8 (u32 (start + Z.quot (i32 ((stop - start) * i32 eased1024)) 1024)).

Section tween.
Context `{Assets}.

Definition DrawTweenDemoBase (fb : FRAMEBUFFER_INFO) (tweenFamily : Z) (m : mem) : outcome mem :=
  let titleText := str "Dragon OS Tween Test" in
  backgroundColor ← ComposeFor fb 18 18 22;
  panelColor ← ComposeFor fb 245 245 247;
  m ← ClearScreen fb backgroundColor 0 m;
  let '(panelX, panelY, panelWidth, panelHeight) := tween_panel fb in
  m ← DrawRoundedBox fb (mkBox panelX panelY panelWidth panelHeight 28 panelColor 0 0 0) m;
  titleWidth ← MeasureTextStringAtlas (Some titleText) (FIRST_CHAR gSetupTitleFont)
    (GLYPH_COUNT gSetupTitleFont) (Some (GlyphAdvance gSetupTitleFont))
    (i32 (GLYPH_WIDTH gSetupTitleFont / 2));
  let titleX := i32 (i32 panelX + Z.quot (i32 (i32 panelWidth - titleWidth)) 2) in
  DrawGradientOutlinedTextAtlas fb titleX (i32 (i32 panelY + 42)) (Some titleText)
    101 235 255 76 255 84 3
    (FIRST_CHAR gSetupTitleFont) (GLYPH_COUNT gSetupTitleFont) (GLYPH_WIDTH gSetupTitleFont)
    (GLYPH_HEIGHT gSetupTitleFont) (Some (GlyphAlpha gSetupTitleFont))
    (Some (GlyphAdvance gSetupTitleFont)) (i32 (GLYPH_WIDTH gSetupTitleFont / 2)) m.

(** A text of the interface font, centred in [width] columns from [left]. *)
Definition draw_centred (fb : FRAMEBUFFER_INFO) (left width y : Z) (text : list Z)
    (red green blue : Z) (m : mem) : outcome mem :=
  textWidth ← measure_ui text;
  let textX := i32 (i32 left + Z.quot (i32 (i32 width - textWidth)) 2) in
  draw_ui fb textX y text red green blue m.

(** [tweenLabel] and [progressLabel] are the local arrays [char [64]] and
    [char [48]]. *)
Definition DrawTweenDemoMotion (fb : FRAMEBUFFER_INFO) (tweenFamily progress1024 : Z)
    (tweenLabel progressLabel : list Z) (m : mem) : outcome mem :=
  let '(panelX, panelY, panelWidth, panelHeight) := tween_panel fb in
  panelColor ← ComposeFor fb 245 245 247;
  eased1024 ← EvaluateTween tweenFamily 2 progress1024;
  let boxRed := tween_channel 101 76 eased1024 in
  let boxGreen := tween_channel 235 255 eased1024 in
  let boxBlue := tween_channel 255 84 eased1024 in
  boxColor ← ComposeFor fb boxRed boxGreen boxBlue;
  let '(dynamicX, dynamicY, dynamicWidth, dynamicHeight) := GetTweenDemoDynamicRect fb in
  m ← ClearRect fb dynamicX dynamicY dynamicWidth dynamicHeight panelColor m;
  tweenLabel ← tween_label tweenFamily (tweenLabel, 0);
  progressLabel ← progress_label progress1024 (progressLabel, 0);
  tweenText ← c_string tweenLabel;
  m ← draw_centred fb panelX panelWidth (i32 (i32 panelY + 132)) tweenText 22 22 28 m;
  progressText ← c_string progressLabel;
  m ← draw_centred fb panelX panelWidth (i32 (i32 panelY + 168)) progressText 72 72 80 m;
  let boxWidth := panelWidth / 5 in
  let boxWidth := if boxWidth <? 180 then 180 else boxWidth in
  let boxHeight := 72 in
  let minX := u32 (panelX + 72) in
  let travelWidth := u32 (u32 (panelWidth - boxWidth) - 144) in
  let boxX := u32 (minX + u32 (travelWidth * eased1024) / 1024) in
  let boxY := u32 (panelY + panelHeight / 2) in
  m ← DrawRoundedBox fb (mkBox boxX boxY boxWidth boxHeight 26 boxColor 0 0 0) m;
  draw_centred fb boxX boxWidth
    (i32 (i32 boxY + Z.quot (i32 (i32 boxHeight - i32 (GLYPH_HEIGHT gSetupUiFont))) 2))
    (family_name tweenFamily) 12 12 12 m.

Definition DrawTweenDemoFrame (fb : FRAMEBUFFER_INFO) (tweenFamily progress1024 : Z)
    (tweenLabel progressLabel : list Z) (m : mem) : outcome mem :=
  m ← DrawTweenDemoBase fb tweenFamily m;
  DrawTweenDemoMotion fb tweenFamily progress1024 tweenLabel progressLabel m.
End tween.

(* ------------------------------------------------------------------ *)
(** ** Specification vocabulary *)

(** A screen with room for the moving part, and narrow enough for the
    position of the box to be computed in 32 bits. *)
Definition tween_room (fb : FRAMEBUFFER_INFO) : Prop :=
  376 <= ScreenWidth fb < 4194304 /\ 324 <= ScreenHeight fb < 4194304.

Definition tween_text (tweenFamily : Z) : list Z :=
  str "Current Tween: " ++ family_name tweenFamily ++ str " " ++ str "InOut".

Definition progress_text (progress1024 : Z) : list Z :=
  str "Progress " ++ decimal (i32 (u32 (progress1024 * 100) / 1024)) ++ str "%".

(** A text with its last glyph fits [width] columns, centred. *)
Definition fits_centred `{Assets} (width : Z) (text : list Z) : Prop :=
  text_width gSetupUiFont (GLYPH_WIDTH gSetupUiFont / 2) text + 2 * GLYPH_WIDTH gSetupUiFont <= width.

(** The fonts fit the moving part of a screen. *)
Record tween_fits `{Assets} (fb : FRAMEBUFFER_INFO) (tweenFamily progress1024 : Z) : Prop := {
  fits_height : GLYPH_HEIGHT gSetupUiFont <= 64;
  fits_family : fits_centred 180 (family_name tweenFamily);
  fits_tween : fits_centred ((tween_panel fb).1.2 - 96) (tween_text tweenFamily);
  fits_progress : fits_centred ((tween_panel fb).1.2 - 96) (progress_text progress1024);
}.

(* ------------------------------------------------------------------ *)
(** ** Lemmas: texts *)

Lemma family_name_cases (P : list Z -> Prop) tweenFamily :
  P (str "Sine") -> P (str "Cubic") -> P (str "Linear") -> P (family_name tweenFamily).
Proof. intros. unfold family_name. by repeat case_match. Qed.

Lemma family_single_line tweenFamily : single_line (family_name tweenFamily).
Proof. apply family_name_cases; repeat constructor; discriminate. Qed.

Lemma tween_single_line tweenFamily : single_line (tween_text tweenFamily).
Proof.
  unfold tween_text, single_line. rewrite !Forall_app.
  split_and!; [|apply family_single_line|..]; repeat constructor; discriminate.
Qed.

Lemma progress_single_line progress1024 : single_line (progress_text progress1024).
Proof.
  unfold progress_text, single_line. rewrite !Forall_app. split_and!.
  - repeat constructor; discriminate.
  - eapply Forall_impl; [apply decimal_chars|]. intros c Hc. cbn in Hc. rewrite u8_id; lia.
  - repeat constructor; discriminate.
Qed.

Lemma tween_label_spec tweenFamily line : length line = 64%nat ->
  exists line', tween_label tweenFamily (line, 0) = Done line' /\
    c_string line' = Done (tween_text tweenFamily) /\ length line' = 64%nat.
Proof.
  intros Hl. rewrite <- Hl. apply line_string.
  - unfold tween_label, tween_text. line_pieces.
  - unfold tween_text. rewrite !Forall_app. split_and!; [| |by apply str_nonzero|by apply str_nonzero].
    + by apply str_nonzero.
    + apply family_name_cases; by apply str_nonzero.
  - rewrite Hl. unfold tween_text. rewrite !length_app.
    apply (family_name_cases (fun t => (length (str "Current Tween: ") +
      (length t + (length (str " ") + length (str "InOut"))) < 64)%nat)); cbn; lia.
Qed.

Lemma progress_label_spec progress1024 line : length line = 48%nat ->
  exists line', progress_label progress1024 (line, 0) = Done line' /\
    c_string line' = Done (progress_text progress1024) /\ length line' = 48%nat.
Proof.
  intros Hl. rewrite <- Hl. apply line_string.
  - unfold progress_label, progress_text. line_pieces.
  - unfold progress_text. line_nonzero.
  - rewrite Hl. unfold progress_text. line_length.
Qed.

(** The moving part with the texts its labels end up holding. *)
Definition tween_motion `{Assets} (fb : FRAMEBUFFER_INFO) (tweenFamily progress1024 : Z) (m : mem)
    : outcome mem :=
  let '(panelX, panelY, panelWidth, panelHeight) := tween_panel fb in
  panelColor ← ComposeFor fb 245 245 247;
  eased1024 ← EvaluateTween tweenFamily 2 progress1024;
  boxColor ← ComposeFor fb (tween_channel 101 76 eased1024) (tween_channel 235 255 eased1024)
    (tween_channel 255 84 eased1024);
  m ← ClearRect fb (u32 (panelX + 48)) (u32 (panelY + 112)) (u32 (panelWidth - 96))
    (u32 (panelHeight - 148)) panelColor m;
  m ← draw_centred fb panelX panelWidth (i32 (i32 panelY + 132)) (tween_text tweenFamily) 22 22 28 m;
  m ← draw_centred fb panelX panelWidth (i32 (i32 panelY + 168)) (progress_text progress1024) 72 72 80 m;
  let boxWidth := if panelWidth / 5 <? 180 then 180 else panelWidth / 5 in
  let boxX := u32 (u32 (panelX + 72) +
    u32 (u32 (u32 (panelWidth - boxWidth) - 144) * eased1024) / 1024) in
  let boxY := u32 (panelY + panelHeight / 2) in
  m ← DrawRoundedBox fb (mkBox boxX boxY boxWidth 72 26 boxColor 0 0 0) m;
  draw_centred fb boxX boxWidth
    (i32 (i32 boxY + Z.quot (i32 (i32 72 - i32 (GLYPH_HEIGHT gSetupUiFont))) 2))
    (family_name tweenFamily) 12 12 12 m.

(** Whatever the two local arrays held, the labels are the texts. *)
Lemma DrawTweenDemoMotion_texts `{Assets} fb tweenFamily progress1024 tl pl m :
  length tl = 64%nat -> length pl = 48%nat ->
  DrawTweenDemoMotion fb tweenFamily progress1024 tl pl m = tween_motion fb tweenFamily progress1024 m.
Proof.
  intros Htl Hpl. unfold DrawTweenDemoMotion, tween_motion, GetTweenDemoDynamicRect.
  destruct (tween_panel fb) as [[[px py] pw] ph]. cbn zeta.
  destruct (tween_label_spec tweenFamily tl Htl) as (tl' & -> & Et & _).
  destruct (progress_label_spec progress1024 pl Hpl) as (pl' & -> & Ep & _). mred.
  rewrite Et, Ep. mred. reflexivity.
Qed.

(* ------------------------------------------------------------------ *)
(** ** Lemmas: the moving part *)

Lemma tween_panel_spec fb : tween_room fb ->
  exists px py pw ph, tween_panel fb = (px, py, pw, ph) /\ 0 <= px /\ 0 <= py /\ 329 <= pw /\ 270 <= ph /\
    px + pw <= ScreenWidth fb /\ py + ph <= ScreenHeight fb.
Proof.
  intros [Hw Hh]. unfold tween_panel. cbn zeta.
  assert (0 <= ScreenWidth fb / 8 /\ 8 * (ScreenWidth fb / 8) <= ScreenWidth fb) as [] by dlia.
  assert (0 <= ScreenHeight fb / 6 /\ 6 * (ScreenHeight fb / 6) <= ScreenHeight fb) as [] by dlia.
  rewrite (u32_id (_ - _ / 8)), (u32_id (_ - _ / 6)), !u32_id by lia. eexists _, _, _, _. split; [done|]. dlia.
Qed.

Section motion.
Context `{A : Assets, !AssetsWf A} (fb : FRAMEBUFFER_INFO) (Hblend : blendable fb).

(** A text that fits a span less a margin on both sides stays in it. *)
Lemma draw_centred_tints left width y g text r gr b :
  0 <= left -> 0 <= g -> left + width < 1073741824 -> is_i32 y ->
  is_u8 r -> is_u8 gr -> is_u8 b -> single_line text -> fits_centred (width - 2 * g) text ->
  tints fb (fun px py => rect (left + g) y (width - 2 * g) (GLYPH_HEIGHT gSetupUiFont) px py /\
      on_screen fb px py)
    (draw_centred fb left width y text r gr b).
Proof.
  intros Hl Hg Hw Hy ??? Hline Hfit. unfold fits_centred in Hfit.
  pose proof (font_w _ gSetupUiFont_wf). destruct ui_half as [_ Hhalf].
  pose proof (text_width_nonneg _ gSetupUiFont_wf _ text Hhalf) as Htw0.
  unfold draw_centred. rewrite (measure_ui_line text Hline) by lia. mred. cbn zeta.
  set (tw := text_width _ _ _) in *.
  assert (i32 (i32 left + Z.quot (i32 (i32 width - tw)) 2) = left + (width - tw) / 2) as ->.
  { rewrite (i32_id width), (i32_id (_ - tw)), (i32_id left) by lia.
    rewrite Z.quot_div_nonneg by lia. apply i32_id. clearbody tw. dlia. }
  eapply tints_weaken; [|apply DrawTextStringAtlas_line; auto with assets; try lia; fold tw;
    clearbody tw; dlia].
  intros px py _ [[Hx ?] ?]. split; [|done]. fold tw in Hx. unfold rect. split; [|done].
  clearbody tw. dlia.
Qed.

(** What the moving part draws lies in the rectangle it clears first. *)
Lemma tween_motion_overwrites fam p : tween_room fb -> 0 <= p -> tween_fits fb fam p ->
  let '(x, y, w, h) := GetTweenDemoDynamicRect fb in
  overwrites fb (fun px py => rect x y w h px py /\ on_screen fb px py) (tween_motion fb fam p).
Proof.
  intros Hroom Hp [Hgh Hfam Htw Hpr]. unfold GetTweenDemoDynamicRect, tween_motion.
  destruct (tween_panel_spec fb Hroom) as (px & py & pw & ph & E & Hpx & Hpy & Hpw & Hph & Hr & Hb).
  rewrite E in *. cbn [fst snd] in Htw, Hpr. destruct Hroom as [HW HH].
  pose proof (font_h _ gSetupUiFont_wf).
  rewrite (u32_id (px + 48)), (u32_id (py + 112)), (u32_id (pw - 96)), (u32_id (ph - 148)),
    (u32_id (px + 72)) by lia.
  destruct (compose_total fb 245 245 247) as (pc & -> & Hpc); [done|lia..|]. mred.
  destruct (EvaluateTween_total fam 2 p Hp) as (e & -> & He). mred.
  destruct (compose_total fb (tween_channel 101 76 e) (tween_channel 235 255 e) (tween_channel 255 84 e))
    as (bc & -> & Hbc); [done|apply u8_range..|]. mred.
  cbn zeta. set (bw := if _ <? 180 then 180 else _).
  assert (180 <= bw /\ bw + 149 <= pw) as [Hbw1 Hbw2].
  { unfold bw. destruct (Z.ltb_spec (pw / 5) 180); dlia. }
  clearbody bw. rewrite (u32_id (pw - bw)), (u32_id (_ - 144)) by lia.
  assert (0 <= (pw - bw - 144) * e <= (pw - bw - 144) * 1024) as Hte
    by (split; [apply Z.mul_nonneg_nonneg|apply Z.mul_le_mono_nonneg_l]; lia).
  rewrite (u32_id (_ * e)) by lia.
  assert (0 <= (pw - bw - 144) * e / 1024 <= pw - bw - 144) as Hoff by dlia.
  set (off := _ * e / 1024) in *. clearbody off.
  rewrite (u32_id (px + 72 + off)) by lia.
  assert (135 <= ph / 2 /\ 2 * (ph / 2) <= ph) as Hph2 by dlia. set (half := ph / 2) in *. clearbody half.
  rewrite (u32_id (py + half)) by lia.
  rewrite (i32_id py), (i32_id (py + 132)), (i32_id (py + 168)), (i32_id (py + half)), (i32_id 72),
    (i32_id (GLYPH_HEIGHT _)), (i32_id (72 - _)) by lia.
  rewrite Z.quot_div_nonneg by lia.
  assert (0 <= (72 - GLYPH_HEIGHT gSetupUiFont) / 2 /\
    (72 - GLYPH_HEIGHT gSetupUiFont) / 2 + GLYPH_HEIGHT gSetupUiFont <= 72) as Hty by dlia.
  set (ty := (72 - _) / 2) in *. clearbody ty. rewrite (i32_id (py + half + ty)) by lia.
  set (R := fun x y => rect (px + 48) (py + 112) (pw - 96) (ph - 148) x y /\ on_screen fb x y).
  apply overwrites_seq; [apply ClearRect_overwrites; lia|].
  apply (drawing_seq (J := tints fb R)).
  { eapply tints_weaken; [|apply (draw_centred_tints px pw (py + 132) 48); try done; try lia;
      apply tween_single_line]. intros x y _ [Hx ?]. split; [|done]. unfold rect in *. lia. }
  apply (drawing_seq (J := tints fb R)).
  { eapply tints_weaken; [|apply (draw_centred_tints px pw (py + 168) 48); try done; try lia;
      apply progress_single_line]. intros x y _ [Hx ?]. split; [|done]. unfold rect in *. lia. }
  apply (drawing_seq (J := tints fb R)).
  - eapply tints_weaken; [|apply overwrites_tints, DrawRoundedBox_overwrites; [split; cbn; lia|done]].
    intros x y _ [[Hx _] ?]. split; [|done]. cbn in Hx. unfold rect in *. lia.
  - eapply tints_weaken; [|apply (draw_centred_tints (px + 72 + off) bw (py + half + ty) 0); try done;
      try lia; [apply family_single_line|]].
    + intros x y _ [Hx ?]. split; [|done]. unfold rect in *. lia.
    + unfold fits_centred in *. lia.
Qed.
End motion.

(* ------------------------------------------------------------------ *)
(** ** Lemmas: frames *)

Section frame.
Context `{A : Assets, !AssetsWf A} (fb : FRAMEBUFFER_INFO) (Hblend : blendable fb).

Lemma DrawTweenDemoBase_overwrites fam : tween_room fb ->
  overwrites fb (fun _ _ => True) (DrawTweenDemoBase fb fam).
Proof.
  intros Hroom. unfold DrawTweenDemoBase. cbn zeta.
  destruct (compose_total fb 18 18 22) as (bc & -> & Hbc); [done|lia..|]. mred.
  destruct (compose_total fb 245 245 247) as (pc & -> & Hpc); [done|lia..|]. mred.
  destruct (tween_panel_spec fb Hroom) as (px & py & pw & ph & -> & Hpx & Hpy & Hpw & Hph & Hr & Hb).
  destruct Hroom.
  apply overwrites_seq; [by apply ClearScreen_overwrites|].
  apply (drawing_seq (J := tints fb (fun _ _ => True))).
  { eapply tints_everywhere, overwrites_tints, DrawRoundedBox_overwrites; [split; cbn; lia|done]. }
  destruct (MeasureTextStringAtlas_total gSetupTitleFont (i32 (GLYPH_WIDTH gSetupTitleFont / 2))
    (str "Dragon OS Tween Test") gSetupTitleFont_wf) as (w & -> & _). mred.
  eapply tints_everywhere, DrawGradientOutlinedTextAtlas_tints; auto with assets ranges.
Qed.

(** A frame never faults, and the moving part drawn over it gives the next
    frame. *)
Lemma DrawTweenDemoMotion_spec fam p1 p2 m : tween_room fb -> 0 <= p1 -> 0 <= p2 ->
  tween_fits fb fam p1 -> tween_fits fb fam p2 -> ready fb m ->
  exists mb m1 m2, DrawTweenDemoBase fb fam m = Done mb /\ tween_motion fb fam p1 mb = Done m1 /\
    tween_motion fb fam p2 m1 = Done m2 /\ tween_motion fb fam p2 mb = Done m2 /\ ready fb m2.
Proof.
  intros Hroom Hp1 Hp2 Hf1 Hf2 Hm.
  destruct (tints_draws _ _ _ (overwrites_tints _ _ _ (DrawTweenDemoBase_overwrites fam Hroom)) m Hm)
    as (mb & Eb & Hmb & _).
  pose proof (tween_motion_overwrites fb Hblend fam p1 Hroom Hp1 Hf1) as H1.
  pose proof (tween_motion_overwrites fb Hblend fam p2 Hroom Hp2 Hf2) as H2.
  destruct (GetTweenDemoDynamicRect fb) as [[[x y] w] h].
  destruct (tints_draws _ _ _ (overwrites_tints _ _ _ H1) mb Hmb) as (m1 & E1 & Hm1 & Hs1).
  destruct (tints_draws _ _ _ (overwrites_tints _ _ _ H2) mb Hmb) as (m2 & E2 & Hm2 & _).
  exists mb, m1, m2. split_and!; try done. rewrite <- E2. symmetry.
  by eapply overwrites_absorbs.
Qed.
End frame.

(* ------------------------------------------------------------------ *)
(** ** Properties *)

(** Drawing the moving part of the tween demo over a frame at one progress
    gives exactly the memory of the frame drawn from scratch at the other:
    everything that moves stays in the rectangle [GetTweenDemoDynamicRect] reports,
    and neither label overruns its array, whatever the arrays held. *)
Theorem DrawTweenDemoMotion_correct `{A : Assets, !AssetsWf A} fb fam p1 p2 tl1 pl1 tl2 pl2 m :
  blendable fb -> tween_room fb -> 0 <= p1 -> 0 <= p2 ->
  tween_fits fb fam p1 -> tween_fits fb fam p2 ->
  length tl1 = 64%nat -> length pl1 = 48%nat -> length tl2 = 64%nat -> length pl2 = 48%nat ->
  ready fb m ->
  exists m1 m2, DrawTweenDemoFrame fb fam p1 tl1 pl1 m = Done m1 /\
    DrawTweenDemoMotion fb fam p2 tl2 pl2 m1 = Done m2 /\
    DrawTweenDemoFrame fb fam p2 tl2 pl2 m = Done m2.
Proof.
  intros Hblend Hroom Hp1 Hp2 Hf1 Hf2 ???? Hm.
  destruct (DrawTweenDemoMotion_spec fb Hblend fam p1 p2 m)
    as (mb & m1 & m2 & Eb & E1 & E2 & E3 & _); [done..|].
  exists m1, m2. unfold DrawTweenDemoFrame. rewrite Eb. mred.
  by rewrite !DrawTweenDemoMotion_texts.
Qed.

Lemma DrawTweenDemoMotion_correct_witness : exists m m1 m2,
  @DrawTweenDemoFrame demo_assets (setup_fb 4096) 1 0 (replicate 64 7) (replicate 48 9) m = Done m1 /\
  @DrawTweenDemoMotion demo_assets (setup_fb 4096) 1 512 (replicate 64 1) (replicate 48 2) m1 = Done m2 /\
  @DrawTweenDemoFrame demo_assets (setup_fb 4096) 1 512 (replicate 64 1) (replicate 48 2) m = Done m2.
Proof.
  eexists. refine (@DrawTweenDemoMotion_correct demo_assets demo_assets_wf (setup_fb 4096) 1 0 512
    _ _ _ _ _ (setup_fb_blendable 4096) _ _ _ _ _ _ _ _ _
    (ready_buffer (setup_fb 4096) 0 (setup_fb_wf 4096 _) _)); try reflexivity; try lia.
  - split; cbn; lia.
  - split; vm_compute; discriminate.
  - split; vm_compute; discriminate.
Defined.
