(* ===== verification/Kernel.v ===== *)
(** * The kernel mouse loop

    [RunKernelMouseLoop]: its set-up ([kernel_start]) and one round of its
    endless loop ([kernel_round]), the step relation of the rounds and its
    reachable states.  The invariant is that the screen always shows the setup
    screen, with the button under the mouse highlighted, and the cursor over
    it. *)
From Stdlib Require Import ZArith Lia String.
From stdpp Require Import base gmap list relations.
From S2P Require Import Prelude Surface Pixel Assets Text Box Cursor Pointer Ps2 Console SetupUi.
#[local] Open Scope Z_scope.

(* ------------------------------------------------------------------ *)
(** ** Data *)

(** The locals of [RunKernelMouseLoop], the memory and the ports. *)
Record KERNEL_STATE (World : Type) : Type := mkKernel {
  framebufferInfo : FRAMEBUFFER_INFO;
  shadowFramebufferInfo : FRAMEBUFFER_INFO;
  composeFramebufferInfo : FRAMEBUFFER_INFO;
  cursor : SOFTWARE_CURSOR;
  mouseState : PS2_MOUSE_STATE;
  setupUiState : SETUP_UI_STATE;
  memory : mem;
  ports : World;
}.
Arguments mkKernel {World}.
Arguments framebufferInfo {World}.
Arguments shadowFramebufferInfo {World}.
Arguments composeFramebufferInfo {World}.
Arguments cursor {World}.
Arguments mouseState {World}.
Arguments setupUiState {World}.
Arguments memory {World}.
Arguments ports {World}.

(* ------------------------------------------------------------------ *)
(** ** Operations *)

Definition set_Framebuffer (fb : FRAMEBUFFER_INFO) (p : Z) : FRAMEBUFFER_INFO :=
  mkFB (ScreenWidth fb) (ScreenHeight fb) (PixelsPerScanLine fb) (PixelFormat fb)
    (RedMask fb) (GreenMask fb) (BlueMask fb) p.

(** The shadow is the framebuffer itself when none was allocated; a
    compose surface that is missing or shared has a null base. *)
Definition kernel_surfaces (bootInfo : KERNEL_BOOT_INFO)
    : FRAMEBUFFER_INFO * FRAMEBUFFER_INFO * FRAMEBUFFER_INFO :=
  let fb := BootFramebuffer bootInfo in
  let shadow :=
    if (negb (ShadowFramebuffer bootInfo =? 0) &&
        negb (ShadowFramebuffer bootInfo =? Framebuffer fb))%bool
    then set_Framebuffer fb (ShadowFramebuffer bootInfo) else fb in
  let compose :=
    if (negb (ComposeFramebuffer bootInfo =? 0) &&
        negb (ComposeFramebuffer bootInfo =? Framebuffer fb) &&
        negb (ComposeFramebuffer bootInfo =? Framebuffer shadow))%bool
    then set_Framebuffer fb (ComposeFramebuffer bootInfo) else set_Framebuffer fb 0 in
  (fb, shadow, compose).

Section kernel.
Context {World : Type} `{PortIO World} `{Assets}.

(** The assignments to the fields of [cursor]; the arrays are what the
    stack held. *)
Definition kernel_cursor (fb : FRAMEBUFFER_INFO) (c : SOFTWARE_CURSOR) : SOFTWARE_CURSOR :=
  mkCursor (ClampCursorX (i32 (ScreenWidth fb / 2)) fb) (ClampCursorY (i32 (ScreenHeight fb / 2)) fb)
    0 0 0 (SavedPixels c) (ResolvedPixels c) (OpaqueMask c) 0 0 0 0 0 0 0 0.

(** Up to the loop.  [c0], [s0] and [u0] are the uninitialised locals. *)
Definition kernel_start (bootInfo : KERNEL_BOOT_INFO) (c0 : SOFTWARE_CURSOR) (s0 : PS2_MOUSE_STATE)
    (u0 : SETUP_UI_STATE) (m : mem) (w : World) : outcome (KERNEL_STATE World) :=
  let '(fb, shadow, compose) := kernel_surfaces bootInfo in
  cursor ← InitializeCursorSurface fb (kernel_cursor fb c0);
  '(mouseDetected, mouseState, w) ← InitializePs2Mouse s0 w;
  setupUiState ← InitializeSetupUiState fb u0 mouseDetected;
  m ← DrawSetupScreen shadow setupUiState m;
  m ← (if negb (Framebuffer shadow =? Framebuffer fb) then
         CopyPixels32 (Framebuffer fb) (Framebuffer shadow)
           (u32 (PixelsPerScanLine fb * ScreenHeight fb)) m
       else Done m);
  '(cursor, m) ← BlitCursorComposite (Some fb) (Some shadow) (Some compose) cursor m;
  Done (mkKernel fb shadow compose cursor mouseState setupUiState m w).

(** A new hovered button: the shadow's buttons are redrawn and copied. *)
Definition kernel_hover (fb shadow : FRAMEBUFFER_INFO) (setupUiState : SETUP_UI_STATE)
    (hoveredButton : Z) (m : mem) : outcome (SETUP_UI_STATE * mem) :=
  if hoveredButton =? HoveredButton setupUiState then Done (setupUiState, m)
  else
    let previousHoveredButton := HoveredButton setupUiState in
    let setupUiState := set_HoveredButton setupUiState hoveredButton in
    m ← RefreshSetupButtons shadow setupUiState previousHoveredButton hoveredButton m;
    m ← (if negb (Framebuffer shadow =? Framebuffer fb) then
           m ← (if ((previousHoveredButton =? 1) || (hoveredButton =? 1))%bool then
                  BlitSurfaceRect (Some fb) (Some shadow) (BoxX (InstallButton setupUiState))
                    (BoxY (InstallButton setupUiState)) (Width (InstallButton setupUiState))
                    (Height (InstallButton setupUiState)) m
                else Done m);
           if ((previousHoveredButton =? 2) || (hoveredButton =? 2))%bool then
             BlitSurfaceRect (Some fb) (Some shadow) (BoxX (TryButton setupUiState))
               (BoxY (TryButton setupUiState)) (Width (TryButton setupUiState))
               (Height (TryButton setupUiState)) m
           else Done m
         else Done m);
    Done (setupUiState, m).

(** One round of the loop. *)
Definition kernel_round (k : KERNEL_STATE World) : outcome (KERNEL_STATE World) :=
  let fb := framebufferInfo k in
  let shadow := shadowFramebufferInfo k in
  let oldCursorX := CursorX (cursor k) in
  let oldCursorY := CursorY (cursor k) in
  let oldCursorVisible := Visible (cursor k) in
  '(moved, mouseState, cursor, w) ← UpdateCursorFromPs2Mouse (mouseState k) (cursor k) fb (ports k);
  if negb (moved =? 0) then
    let currentX := CursorX cursor in
    let currentY := CursorY cursor in
    '(cursor, m) ←
      (if negb (oldCursorVisible =? 0) then
         let cursor := set_position cursor oldCursorX oldCursorY in
         m ← BlitSurfaceRect (Some fb) (Some shadow) (CursorX cursor) (CursorY cursor)
               (SavedWidth cursor) (SavedHeight cursor) (memory k);
         Done (set_Visible (set_position cursor currentX currentY) 0, m)
       else Done (cursor, memory k));
    let hoveredButton := HitTestSetupUi (setupUiState k) cursor in
    '(setupUiState, m) ← kernel_hover fb shadow (setupUiState k) hoveredButton m;
    '(cursor, m) ← BlitCursorComposite (Some fb) (Some shadow) (Some (composeFramebufferInfo k)) cursor m;
    Done (mkKernel fb shadow (composeFramebufferInfo k) cursor mouseState setupUiState m w)
  else
    _ ← BusyPause 2048;
    Done (mkKernel fb shadow (composeFramebufferInfo k) cursor mouseState (setupUiState k) (memory k) w).

(** The loop has no exit: it is run for a number of rounds. *)
Fixpoint kernel_rounds (n : nat) (k : KERNEL_STATE World) : outcome (KERNEL_STATE World) :=
  match n with
  | O => Done k
  | S n => k ← kernel_round k; kernel_rounds n k
  end.

Definition RunKernelMouseLoop (rounds : nat) (bootInfo : KERNEL_BOOT_INFO) (c0 : SOFTWARE_CURSOR)
    (s0 : PS2_MOUSE_STATE) (u0 : SETUP_UI_STATE) (m : mem) (w : World) : outcome (KERNEL_STATE World) :=
  k ← kernel_start bootInfo c0 s0 u0 m w; kernel_rounds rounds k.

(** The rounds as steps. *)
Inductive kernel_step : KERNEL_STATE World -> KERNEL_STATE World -> Prop :=
| kernel_step_round k k' : kernel_round k = Done k' -> kernel_step k k'.
End kernel.

(* ------------------------------------------------------------------ *)
(** ** Specification vocabulary *)

(** What the screen should show at [(x, y)]: the setup screen, and the
    cursor over it where it covers it. *)
Definition scene `{Assets} (fb shadow : FRAMEBUFFER_INFO) (u : SETUP_UI_STATE) (c : SOFTWARE_CURSOR)
    (x y : Z) : outcome Z :=
  old ← setup_pixel shadow u x y;
  if decide (covered fb c x y) then cursor_pixel c x y old else Done old.

Definition displays `{Assets} (fb shadow : FRAMEBUFFER_INFO) (u : SETUP_UI_STATE) (c : SOFTWARE_CURSOR)
    (m : mem) : Prop :=
  forall x y, on_screen fb x y ->
    exists v, scene fb shadow u c x y = Done v /\ m !! pix fb x y = Some v.

(** The invariant of the loop, between rounds. *)
Record kernel_ok {World : Type} `{Assets} (k : KERNEL_STATE World) : Prop := {
  ok_stage : stage (framebufferInfo k) (shadowFramebufferInfo k) (Some (composeFramebufferInfo k))
               (saved_surface (cursor k)) (memory k);
  ok_shared : Framebuffer (shadowFramebufferInfo k) <> Framebuffer (framebufferInfo k);
  ok_blend : blendable (shadowFramebufferInfo k);
  ok_modest : modest (framebufferInfo k);
  ok_image : image_ready (cursor k);
  ok_saved : saved_fits (framebufferInfo k) (cursor k);
  ok_visible : Visible (cursor k) = 1;
  ok_pointer : pointer_ok (framebufferInfo k) (cursor k);
  ok_mouse : mouse_ok (mouseState k);
  ok_layout : laid_out (shadowFramebufferInfo k) (setupUiState k);
  ok_shadow : shows_setup (shadowFramebufferInfo k) (setupUiState k) (memory k);
  ok_display : displays (framebufferInfo k) (shadowFramebufferInfo k) (setupUiState k) (cursor k) (memory k);
}.

(* ------------------------------------------------------------------ *)
(** ** Lemmas: surfaces *)

Section rounds.
Context `{A : Assets, !AssetsWf A} (Hsetup : setup_assets).

Abbreviation everywhere := (fun _ _ : Z => True).

(** Drawing on the shadow alone keeps the stage, and the framebuffer. *)
Lemma shadow_drawn d s k p R m m' : stage d s k p m -> ready s m' -> same_off (region s R) m m' ->
  stage d s k p m' /\ forall x y, on_screen d x y -> m' !! pix d x y = m !! pix d x y.
Proof.
  intros Hst Hm' Hsame. split; [eapply stage_same_off; [done|by eapply ready_mem|done]|].
  intros x y Hon. apply Hsame. intros (x' & y' & _ & Hb & E).
  eapply (stage_ds _ _ _ _ _ Hst); [|exact Hb|exact E].
  apply on_screen_in_buffer; [apply (stage_d _ _ _ _ _ Hst)|done].
Qed.

(** Drawing on the framebuffer alone keeps the stage, and the shadow. *)
Lemma screen_drawn d s k p R m m' : stage d s k p m -> ready d m' -> same_off (region d R) m m' ->
  stage d s k p m' /\ forall x y, in_buffer s x y -> m' !! pix s x y = m !! pix s x y.
Proof.
  intros Hst Hm' Hsame. split; [eapply stage_same_off; [done|by eapply ready_mem|done]|].
  intros x y Hb. eapply other_surface; [done|apply Hst|done].
Qed.

Lemma shows_setup_same s u m m' : shows_setup s u m ->
  (forall x y, in_buffer s x y -> m' !! pix s x y = m !! pix s x y) -> shows_setup s u m'.
Proof. intros Hsh E x y Hb. rewrite E by done. by apply Hsh. Qed.

(** Copying a rectangle from the shadow brings it up to date and keeps
    what is. *)
Lemma blit_mirrors d s k p X Y W H (R : Z -> Z -> Prop) m :
  stage d s k p m -> is_u32 X -> is_u32 Y -> is_u32 W -> is_u32 H -> mirrors d s R m ->
  exists m', BlitSurfaceRect (Some d) (Some s) X Y W H m = Done m' /\ stage d s k p m' /\
    (forall x y, in_buffer s x y -> m' !! pix s x y = m !! pix s x y) /\
    mirrors d s (fun x y => R x y \/ rect X Y W H x y) m'.
Proof.
  intros Hst HX HY HW HH Hmir. pose proof Hst as [Hd Hs _ Hsize [Hd0 Hs0] Hds _ _ _].
  destruct (BlitSurfaceRect_spec d s X Y W H m) as (m' & E & Hd' & Hs' & Hsame & HV); [done..|].
  destruct (screen_drawn d s k p _ m m' Hst Hd' Hsame) as [Hst' Hkeep].
  exists m'. split_and!; try done. intros x y Hxy Hon.
  assert (in_buffer s x y) as Hb by (by eapply on_screen_same; [|apply Hs|]).
  assert (on_screen s x y) as Hon' by (destruct Hsize, Hon; split; lia).
  rewrite Hkeep by done. destruct (decide (rect X Y W H x y)) as [Hr|Hr]; [by apply HV|].
  destruct Hxy as [HR|]; [|done]. rewrite <- Hmir by done.
  eapply same_off_pixel; [exact Hsame| |intros (? & _); done].
  apply on_screen_in_buffer; [apply Hd|done].
Qed.

Lemma mirrors_weaken d s (R R' : Z -> Z -> Prop) m :
  (forall x y, on_screen d x y -> R' x y -> R x y) -> mirrors d s R m -> mirrors d s R' m.
Proof. intros HR Hm x y HR' Hon. apply Hm; auto. Qed.

(** The conditional copy of a button. *)
Lemma blit_button d s k p (b : bool) box (R R' : Z -> Z -> Prop) m :
  stage d s k p m -> box_wf box -> mirrors d s R m ->
  (forall x y, R' x y -> R x y \/ (b = true /\ in_rounded box x y)) ->
  exists m', (if b then BlitSurfaceRect (Some d) (Some s) (BoxX box) (BoxY box) (Width box) (Height box) m
              else Done m) = Done m' /\ stage d s k p m' /\
    (forall x y, in_buffer s x y -> m' !! pix s x y = m !! pix s x y) /\ mirrors d s R' m'.
Proof.
  intros Hst [] Hmir HR. destruct b.
  - destruct (blit_mirrors d s k p (BoxX box) (BoxY box) (Width box) (Height box) R m Hst)
      as (m' & E & ? & ? & Hm'); [lia..|done|].
    exists m'. split_and!; try done. eapply mirrors_weaken; [|exact Hm'].
    intros x y _ Hx. destruct (HR x y Hx) as [|[_ [? _]]]; auto.
  - exists m. split_and!; try done. eapply mirrors_weaken; [|exact Hmir].
    intros x y _ Hx. by destruct (HR x y Hx) as [|[]].
Qed.

(* ------------------------------------------------------------------ *)
(** ** Lemmas: hovering *)

Lemma kernel_hover_spec d s k p u h m :
  stage d s k p m -> Framebuffer s <> Framebuffer d -> blendable s -> laid_out s u ->
  shows_setup s u m -> mirrors d s everywhere m ->
  exists m', kernel_hover d s u h m = Done (set_HoveredButton u h, m') /\ stage d s k p m' /\
    shows_setup s (set_HoveredButton u h) m' /\ mirrors d s everywhere m'.
Proof.
  intros Hst Hne Hblend Hu Hsh Hmir. unfold kernel_hover.
  destruct (Z.eqb_spec h (HoveredButton u)) as [->|Hh].
  { exists m. by rewrite set_HoveredButton_same. }
  cbn zeta. apply Z.eqb_neq in Hne. rewrite Hne. cbn [negb].
  pose proof (stage_s _ _ _ _ _ Hst) as Hs.
  destruct (RefreshSetupButtons_shows Hsetup s Hblend u h m) as (m1 & E1 & Hs1 & Hsh1); [done..|].
  destruct (tints_draws _ _ _ (RefreshSetupButtons_tints s (set_HoveredButton u h) (HoveredButton u) h
    Hsetup Hblend (laid_out_hovered s u h Hu)) m Hs) as (m1' & E1' & _ & Hsame).
  rewrite E1 in E1'. apply Done_inj in E1' as <-. rewrite E1. mred.
  destruct (shadow_drawn d s k p _ m m1 Hst Hs1 Hsame) as [Hst1 Hkeep].
  cbn [set_HoveredButton InstallButton TryButton].
  set (b1 := ((HoveredButton u =? 1) || (h =? 1))%bool).
  set (b2 := ((HoveredButton u =? 2) || (h =? 2))%bool).
  set (R0 := fun x y => ~ (b1 = true /\ in_rounded (InstallButton u) x y) /\
                        ~ (b2 = true /\ in_rounded (TryButton u) x y)).
  assert (mirrors d s R0 m1) as Hmir1.
  { intros x y [H1 H2] Hon. rewrite Hkeep by done. rewrite (Hmir x y) by done. symmetry.
    eapply same_off_pixel; [exact Hsame|by eapply on_screen_same; [apply Hst|apply Hs|]|].
    cbn [set_HoveredButton InstallButton TryButton]. unfold b1, b2 in H1, H2.
    rewrite orb_true_iff, !Z.eqb_eq in H1, H2. tauto. }
  fold b1 b2.
  destruct (blit_button d s k p b1 (InstallButton u) R0
    (fun x y => ~ (b2 = true /\ in_rounded (TryButton u) x y)) m1 Hst1)
    as (m2 & E2 & Hst2 & Hk2 & Hmir2); [apply (install_wf _ _ Hu)|done| |].
  { intros x y Hx. unfold R0. destruct (decide (b1 = true)), (decide (in_rounded (InstallButton u) x y)); tauto. }
  rewrite E2. mred.
  destruct (blit_button d s k p b2 (TryButton u) _ everywhere m2 Hst2 (button_box _ (try_wf _ _ Hu)) Hmir2)
    as (m3 & E3 & Hst3 & Hk3 & Hmir3).
  { intros x y _. destruct (decide (b2 = true)), (decide (in_rounded (TryButton u) x y)); tauto. }
  rewrite E3. mred. exists m3. split; [done|]. split; [done|]. split; [|done].
  eapply shows_setup_same; [exact Hsh1|]. intros x y Hb. by rewrite Hk3, Hk2.
Qed.
(* ------------------------------------------------------------------ *)
(** ** Lemmas: rounds *)

(** Compositing the cursor over an up-to-date screen displays the scene. *)
Lemma composite_displays d s k u c m :
  stage d s k (saved_surface c) m -> image_ready c -> cursor_in d c ->
  mirrors d s everywhere m -> shows_setup s u m ->
  let c' := set_Visible (set_saved c (cover_w d c) (cover_h d c)) 1 in
  exists m', BlitCursorComposite (Some d) (Some s) k c m = Done (c', m') /\
    stage d s k (saved_surface c') m' /\ shows_setup s u m' /\ displays d s u c' m'.
Proof.
  intros Hst Himg Hin Hmir Hsh c'.
  destruct (BlitCursorComposite_spec d s k c m) as (m' & E & Hst' & Hkeep & _ & Hoff & Hov); [done..| |].
  { intros _ x y _ Hon. by apply Hmir. }
  exists m'. split; [done|]. split; [done|].
  assert (shows_setup s u m') as Hsh' by (by eapply shows_setup_same). split; [done|].
  intros x y Hon.
  assert (in_buffer s x y) as Hb by (eapply on_screen_same; [apply Hst|apply Hst|done]).
  destruct (Hsh' x y Hb) as (old & Ev & Hold). unfold scene. rewrite Ev. mred.
  destruct (decide (covered d c' x y)) as [Hc|Hc].
  - destruct (Hov x y Hc Hon) as (old' & v & Hold' & Hv & Hpx). exists v.
    rewrite Hold in Hold'. by injection Hold' as <-.
  - exists old. split; [done|]. rewrite Hoff by done. rewrite (Hmir x y) by done.
    by rewrite <- Hkeep.
Qed.

(** Covered, and so the scene, depends on the place and the image only. *)
Lemma displays_same d s u c c' m : same_image c c' -> CursorX c' = CursorX c -> CursorY c' = CursorY c ->
  displays d s u c m -> displays d s u c' m.
Proof.
  intros (_ & _ & _ & _ & Er & Eo) Ex Ey Hd x y Hon. destruct (Hd x y Hon) as (v & E & Hv).
  exists v. split; [|done]. rewrite <- E. unfold scene, covered, cover_w, cover_h, cursor_pixel.
  by rewrite Er, Eo, Ex, Ey.
Qed.

(** Copying back what the cursor covers leaves the plain setup screen. *)
Lemma restore_mirrors d s k u c c1 m : stage d s k (saved_surface c) m -> cursor_in d c ->
  displays d s u c m -> shows_setup s u m -> saved_fits d c ->
  SavedWidth c1 = SavedWidth c -> SavedHeight c1 = SavedHeight c ->
  exists m', BlitSurfaceRect (Some d) (Some s) (CursorX c) (CursorY c) (SavedWidth c1) (SavedHeight c1) m
      = Done m' /\ stage d s k (saved_surface c) m' /\ shows_setup s u m' /\ mirrors d s everywhere m'.
Proof.
  intros Hst Hin Hdisp Hsh [Ew Eh] Ew1 Eh1. rewrite Ew1, Eh1, Ew, Eh.
  pose proof (stage_d _ _ _ _ _ Hst) as Hd. pose proof (ready_fb _ _ Hd) as Hfb. pose proof Hfb as [].
  pose proof (covered_size d c Hfb Hin) as (? & ? & ? & ?). destruct cursor_wf. destruct Hin.
  destruct (blit_mirrors d s k (saved_surface c) (CursorX c) (CursorY c) (cover_w d c) (cover_h d c)
    (fun x y => ~ covered d c x y) m Hst) as (m' & E & Hst' & Hkeep & Hmir); [lia..| |].
  { intros x y Hc Hon. destruct (Hdisp x y Hon) as (v & Ev & Hv).
    assert (in_buffer s x y) as Hb by (eapply on_screen_same; [apply Hst|apply Hst|done]).
    destruct (Hsh x y Hb) as (old & Eo & Hold). unfold scene in Ev. rewrite Eo in Ev. mred in Ev.
    rewrite decide_False in Ev by done. apply Done_inj in Ev as <-. by rewrite Hv, Hold. }
  exists m'. split; [done|]. split; [done|]. split; [by eapply shows_setup_same|].
  eapply mirrors_weaken; [|exact Hmir]. intros x y _ _.
  destruct (decide (covered d c x y)); auto.
Qed.

Section steps.
Context {World : Type} `{PortIO World, !PortIOWf World}.

(** When there is a mouse, the driver reads what the ports deliver between [w]
    and [w'], and the cursor moves as the packets of the mouse's bytes say;
    otherwise nothing is read and it stays. *)
Definition followed (fb : FRAMEBUFFER_INFO) (ms ms' : PS2_MOUSE_STATE) (c c' : SOFTWARE_CURSOR) (w w' : World) : Prop :=
  Enabled ms' = Enabled ms /\
  if decide (Enabled ms = 0) then CursorX c' = CursorX c /\ CursorY c' = CursorY c /\ w' = w
  else exists bs r, let t := foldl add_frame (mkTotals 0 0 0 (LeftButtonDown c)) (frames (pending ms ++ bs)).1 in
    heard w bs t w' /\ pending ms' = (frames (pending ms ++ bs)).2 /\ driven fb c c' t r.

(** One call of the driver in the loop, enabled or not. *)
Lemma kernel_update fb c ms (w : World) : fb_wf fb -> modest fb -> pointer_ok fb c -> mouse_ok ms ->
  exists r ms' c' w', UpdateCursorFromPs2Mouse ms c fb w = Done (r, ms', c', w') /\
    mouse_ok ms' /\ pointer_ok fb c' /\ same_image c c' /\
    (r = 0 -> CursorX c' = CursorX c /\ CursorY c' = CursorY c) /\ followed fb ms ms' c c' w w'.
Proof.
  intros Hfb Hmod Hc Hms. destruct (decide (Enabled ms = 0)) as [Hen|Hen].
  - exists 0, ms, c, w. unfold UpdateCursorFromPs2Mouse, followed. rewrite Hen. by rewrite decide_True.
  - destruct (UpdateCursorFromPs2Mouse_spec ms c fb w) as (r & ms' & c' & w' & bs & E & ? & ? & ? & Hen' & Hh
      & Hpend & Hdr); [done..|].
    exists r, ms', c', w'. split_and!; try done.
    + intros ->. destruct Hdr as (_ & _ & Hdr).
      destruct (packetCount _ =? 0); [by destruct Hdr as (_ & ? & ? & _)|by destruct Hdr as [? _]].
    + split; [done|]. rewrite decide_False by done. by exists bs, r.
Qed.

(** What a round does to the hovered button. *)
Definition hover_after (k k' : KERNEL_STATE World) : Prop :=
  HoveredButton (setupUiState k') = HitTestSetupUi (setupUiState k') (cursor k') \/
  (HoveredButton (setupUiState k') = HoveredButton (setupUiState k) /\
   CursorX (cursor k') = CursorX (cursor k) /\ CursorY (cursor k') = CursorY (cursor k)).

Lemma kernel_round_spec (k : KERNEL_STATE World) : kernel_ok k ->
  exists k', kernel_round k = Done k' /\ kernel_ok k' /\ hover_after k k' /\
    followed (framebufferInfo k) (mouseState k) (mouseState k') (cursor k) (cursor k') (ports k) (ports k') /\
    framebufferInfo k' = framebufferInfo k /\ shadowFramebufferInfo k' = shadowFramebufferInfo k /\
    setupUiState k' = set_HoveredButton (setupUiState k) (HoveredButton (setupUiState k')).
Proof.
  intros [Hst Hne Hblend Hmod Himg Hfit Hvis Hptr Hms Hlay Hsh Hdisp].
  pose proof (stage_d _ _ _ _ _ Hst) as Hd. pose proof (ready_fb _ _ Hd) as Hfb.
  unfold kernel_round. cbn zeta.
  destruct (kernel_update (framebufferInfo k) (cursor k) (mouseState k) (ports k))
    as (r & ms' & c' & w' & E & Hms' & Hptr' & Hsame & Hstay & Hfol); [done..|].
  rewrite E. mred. pose proof Hsame as (Ew & Eh & Ev & Ep & Er & Eo).
  assert (image_ready c') as Himg' by (destruct Himg; split; congruence).
  destruct (Z.eqb_spec r 0) as [Hr|Hr]; cbn [negb].
  - rewrite BusyPause_done. mred. destruct (Hstay Hr) as [Ex Ey].
    eexists. split; [done|]. cbn [framebufferInfo shadowFramebufferInfo setupUiState cursor].
    split; [|split; [by right|split; [exact Hfol|by rewrite set_HoveredButton_same]]].
    split; cbn [framebufferInfo shadowFramebufferInfo composeFramebufferInfo cursor mouseState
      setupUiState memory ports]; try done.
    + unfold saved_surface in *. by rewrite Ep.
    + destruct Hfit. unfold saved_fits, cover_w, cover_h in *. by rewrite Ew, Eh, Ex, Ey.
    + by rewrite Ev.
    + by eapply displays_same.
  - rewrite Hvis. cbn [Z.eqb negb CursorX CursorY set_position SavedWidth SavedHeight].
    destruct (restore_mirrors (framebufferInfo k) (shadowFramebufferInfo k)
      (Some (composeFramebufferInfo k)) (setupUiState k) (cursor k) c' (memory k))
      as (m1 & -> & Hst1 & Hsh1 & Hmir1); [done|by apply pointer_ok_cursor_in|done..|].
    mred. set (c1 := set_Visible _ 0).
    assert (saved_surface c1 = saved_surface (cursor k)) as Es
      by (unfold saved_surface; cbn [c1 SavedPixels set_Visible set_position]; by rewrite Ep).
    destruct (kernel_hover_spec (framebufferInfo k) (shadowFramebufferInfo k)
      (Some (composeFramebufferInfo k)) (saved_surface (cursor k)) (setupUiState k)
      (HitTestSetupUi (setupUiState k) c1) m1) as (m2 & -> & Hst2 & Hsh2 & Hmir2); [done..|].
    mred. set (u' := set_HoveredButton _ _) in *.
    destruct (composite_displays (framebufferInfo k) (shadowFramebufferInfo k)
      (Some (composeFramebufferInfo k)) u' c1 m2) as (m3 & -> & Hst3 & Hsh3 & Hdisp3).
    { by rewrite Es. }
    { destruct Himg'; by split. }
    { destruct Hptr'. eapply pointer_ok_cursor_in; [done|by split]. }
    { done. }
    { done. }
    mred. eexists. split; [done|]. cbn [framebufferInfo shadowFramebufferInfo setupUiState cursor].
    split; [|split; [by left|split; [exact Hfol|done]]].
    split; cbn [framebufferInfo shadowFramebufferInfo composeFramebufferInfo cursor mouseState
      setupUiState memory ports]; try done.
    + destruct Himg'; by split.
    + destruct Hptr'; by split.
    + by apply laid_out_hovered.
Qed.

(* ------------------------------------------------------------------ *)
(** ** Lemmas: the start *)

Lemma kernel_surfaces_spec b : exists p q, kernel_surfaces b =
  (BootFramebuffer b, set_Framebuffer (BootFramebuffer b) p, set_Framebuffer (BootFramebuffer b) q).
Proof.
  unfold kernel_surfaces. cbn zeta.
  assert (BootFramebuffer b = set_Framebuffer (BootFramebuffer b) (Framebuffer (BootFramebuffer b))) as E
    by (by destruct (BootFramebuffer b)).
  repeat case_match; eexists _, _; try done; by rewrite <- E.
Qed.

(** The whole shadow copied to the framebuffer. *)
Lemma copy_surface d s k p m : stage d s k p m -> PixelsPerScanLine s = PixelsPerScanLine d ->
  exists m', CopyPixels32 (Framebuffer d) (Framebuffer s)
      (u32 (PixelsPerScanLine d * ScreenHeight d)) m = Done m' /\ stage d s k p m' /\
    (forall x y, in_buffer s x y -> m' !! pix s x y = m !! pix s x y) /\ mirrors d s everywhere m'.
Proof.
  intros Hst Ep. pose proof Hst as [Hd Hs _ [Ew Eh] _ Hds _ _ _].
  pose proof (ready_fb _ _ Hd) as Hdf. pose proof (ready_fb _ _ Hs) as Hsf. pose proof Hdf as [].
  pose proof (buffer_cells d m Hd) as Hcd. pose proof (buffer_cells s m Hs) as Hcs.
  rewrite Ep, <- Eh in Hcs.
  rewrite u32_id by (split; [apply Z.mul_nonneg_nonneg|]; lia).
  destruct (copy_spec (Framebuffer d) (Framebuffer s) (PixelsPerScanLine d * ScreenHeight d) m)
    as (m' & E & Hwf & Hsame & HV); [|by eapply ready_mem|done|done| |].
  { split; [apply Z.mul_nonneg_nonneg|]; lia. }
  { intros i j Hi Hj. destruct (cell_pix d i Hdf Hi) as (x & y & Hb & ->).
    destruct (cell_pix s j Hsf) as (x' & y' & Hb' & ->); [by rewrite Ep, <- Eh|]. by apply Hds. }
  assert (same_off (region d everywhere) m m') as Hreg.
  { eapply same_off_weaken; [|exact Hsame]. intros a (i & Hi & ->).
    destruct (cell_pix d i Hdf Hi) as (x & y & Hb & ->). by exists x, y. }
  destruct (screen_drawn d s k p everywhere m m' Hst) as [Hst' Hkeep]; [by eapply ready_same_off|done|].
  exists m'. split_and!; try done. intros x y _ Hon.
  assert (in_buffer d x y) as Hb by (apply on_screen_in_buffer; [done|done]).
  assert (in_buffer s x y) as Hbs by (destruct Hb; split; [rewrite Ep|rewrite <- Eh]; done).
  rewrite (Hkeep x y Hbs). unfold pix. rewrite Ep.
  pose proof (pix_in_range d x y Hdf Hb) as Hr. unfold pix in Hr.
  apply HV. destruct Hb as [Hx Hy].
  pose proof (index2_bound y x (PixelsPerScanLine d) (ScreenHeight d) Hy Hx). lia.
Qed.

(** What the loop needs of the boot record, the memory and the locals. *)
Record boot_ready (b : KERNEL_BOOT_INFO) (c0 : SOFTWARE_CURSOR) (s0 : PS2_MOUSE_STATE) (m : mem)
    : Prop := {
  ready_stage : let '(fb, shadow, compose) := kernel_surfaces b in
                stage fb shadow (Some compose) (saved_surface c0) m /\
                Framebuffer shadow <> Framebuffer fb;
  ready_blend : blendable (BootFramebuffer b);
  ready_roomy : roomy (BootFramebuffer b);
  ready_modest : modest (BootFramebuffer b);
  ready_cursor : image_sized c0;
  ready_packet : length (Packet s0) = 4%nat /\ bytes (Packet s0);
}.

Lemma kernel_cursor_ok fb c : modest fb -> pointer_ok fb (kernel_cursor fb c).
Proof.
  intros [Hw Hh]. assert (is_i32 (ScreenWidth fb / 2) /\ is_i32 (ScreenHeight fb / 2)) as [] by dlia.
  split; cbn [kernel_cursor CursorX CursorY AccumX AccumY]; try lia;
    rewrite i32_id by done; rewrite ?ClampCursorX_spec, ?ClampCursorY_spec by lia;
    unfold limit_x, limit_y; lia.
Qed.

Lemma kernel_start_spec b c0 s0 u0 m (w : World) : boot_ready b c0 s0 m ->
  exists k, kernel_start b c0 s0 u0 m w = Done k /\ kernel_ok k /\
    framebufferInfo k = BootFramebuffer b /\ HoveredButton (setupUiState k) = 0.
Proof.
  intros [Hst Hblend Hroom Hmod Hc0 [Hpl Hpb]]. unfold kernel_start.
  destruct (kernel_surfaces_spec b) as (p & q & E). rewrite E in *. destruct Hst as [Hst Hne].
  set (fb := BootFramebuffer b) in *. set (s := set_Framebuffer fb p) in *. set (k := set_Framebuffer fb q) in *.
  destruct (InitializeCursorSurface_spec fb (kernel_cursor fb c0) Hblend) as (res & op & -> & Himg & _);
    [exact Hc0|]. mred.
  destruct (InitializePs2Mouse_total s0 w Hpl Hpb) as (det & ms & w' & -> & Hms). mred.
  destruct (InitializeSetupUiState_spec fb u0 det Hblend Hroom) as (u & -> & Hu & Hu0 & _). mred.
  assert (laid_out s u) as Hus by (destruct Hu; by split).
  assert (blendable s) as Hbs by exact Hblend.
  destruct (DrawSetupScreen_shows Hsetup s Hbs u m Hus (stage_s _ _ _ _ _ Hst))
    as (m1 & -> & Hs1 & Hsame1 & Hsh1). mred.
  destruct (shadow_drawn _ _ _ _ _ m m1 Hst Hs1 Hsame1) as [Hst1 _].
  apply Z.eqb_neq in Hne as Hne'. rewrite Hne'. cbn [negb].
  destruct (copy_surface fb s (Some k) (saved_surface c0) m1 Hst1 eq_refl)
    as (m2 & -> & Hst2 & Hkeep2 & Hmir2). mred.
  pose proof (kernel_cursor_ok fb c0 Hmod) as Hptr.
  set (c := set_image (kernel_cursor fb c0) res op) in *.
  assert (pointer_ok fb c) as Hptr1 by (destruct Hptr; by split).
  destruct (composite_displays fb s (Some k) u c m2) as (m3 & -> & Hst3 & Hsh3 & Hdisp3);
    [done|done|apply pointer_ok_cursor_in; [apply Hst|done]|done|by eapply shows_setup_same|].
  mred. eexists. split; [done|].
  cbn [framebufferInfo setupUiState]. split; [|done].
  split; cbn [framebufferInfo shadowFramebufferInfo composeFramebufferInfo cursor mouseState
      setupUiState memory ports]; try done.
  - destruct Himg; by split.
  - destruct Hptr1; by split.
Qed.
End steps.
End rounds.

(* ------------------------------------------------------------------ *)
(** ** Lemmas: reachable states *)

(** The highlighted button is the one under the cursor, once the cursor
    has moved; before, no button is highlighted. *)
Definition hover_ok {World : Type} `{Assets} (k0 k : KERNEL_STATE World) : Prop :=
  HoveredButton (setupUiState k) = HitTestSetupUi (setupUiState k) (cursor k) \/
  (HoveredButton (setupUiState k) = 0 /\
   CursorX (cursor k) = CursorX (cursor k0) /\ CursorY (cursor k) = CursorY (cursor k0)).

Section reachable.
Context {World : Type} `{PortIO World, !PortIOWf World} `{A : Assets, !AssetsWf A}.
Context (Hsetup : setup_assets).

(** The hit test looks at the places of the buttons and of the cursor. *)
Lemma HitTest_same u h c c' : CursorX c' = CursorX c -> CursorY c' = CursorY c ->
  HitTestSetupUi (set_HoveredButton u h) c' = HitTestSetupUi u c.
Proof. intros Ex Ey. unfold HitTestSetupUi. by rewrite Ex, Ey. Qed.

Lemma kernel_step_ok (k0 k k' : KERNEL_STATE World) : kernel_ok k -> hover_ok k0 k ->
  kernel_step k k' -> kernel_ok k' /\ hover_ok k0 k' /\ framebufferInfo k' = framebufferInfo k.
Proof.
  intros Hk Hh Hs. revert Hk Hh. destruct Hs as [k1 k2 E]. intros Hk Hh.
  destruct (kernel_round_spec Hsetup k1 Hk)
    as (k3 & E' & Hk' & Hov & _ & Efb & _ & Eu). rewrite E in E'. apply Done_inj in E' as <-.
  split; [done|]. split; [|done]. destruct Hov as [|(Eh & Ex & Ey)]; [by left|].
  destruct Hh as [Hh|(Hh & Hx & Hy)]; [left|right; split_and!; congruence].
  rewrite Eh, Eu. by rewrite (HitTest_same _ _ (cursor k1)).
Qed.

Lemma kernel_reachable_ok (k0 k : KERNEL_STATE World) : kernel_ok k0 -> hover_ok k0 k0 ->
  rtc kernel_step k0 k -> kernel_ok k /\ hover_ok k0 k /\ framebufferInfo k = framebufferInfo k0.
Proof.
  intros Hk0 Hh0. revert k.
  apply (rtc_ind_r (fun k => kernel_ok k /\ hover_ok k0 k /\ framebufferInfo k = framebufferInfo k0) k0);
    [done|].
  intros k1 k2 _ Hs (Hk1 & Hh1 & E1).
  destruct (kernel_step_ok k0 k1 k2) as (? & ? & ?); [done..|]. split_and!; congruence.
Qed.

Lemma kernel_rounds_ok n (k : KERNEL_STATE World) : kernel_ok k ->
  exists k', kernel_rounds n k = Done k' /\ kernel_ok k' /\ rtc kernel_step k k' /\
    framebufferInfo k' = framebufferInfo k.
Proof.
  revert k. induction n as [|n IH]; intros k Hk; cbn [kernel_rounds].
  - by exists k.
  - destruct (kernel_round_spec Hsetup k Hk) as (k1 & E & Hk1 & _ & _ & Efb & _). rewrite E. mred.
    destruct (IH k1 Hk1) as (k' & E' & Hk' & Hr & Efb'). exists k'. split_and!; try done; [|congruence].
    eapply rtc_l; [|exact Hr]. by constructor.
Qed.
End reachable.

(* ------------------------------------------------------------------ *)
(** ** A concrete machine, for the witnesses *)

Definition machine_memory : mem :=
  blank (setup_fb 4096) ∪ (blank (setup_fb 1048576) ∪ (blank (setup_fb 2097152) ∪ buffer 3145728 4 0)).

Definition machine_boot : KERNEL_BOOT_INFO :=
  mkBoot (setup_fb 4096) 1048576 2097152 0 0 0 0 0 0 0 0 0 0 [].

Definition machine_cursor : SOFTWARE_CURSOR :=
  mkCursor 9 9 9 9 9 3145728 [9; 9; 9; 9] [9; 9; 9; 9] 9 9 9 9 9 9 9 9.

Definition machine_setup : SETUP_UI_STATE := mkSetup no_box no_box no_box 9 9.

Lemma blank_wf p : mem_wf (blank (setup_fb p)).
Proof. apply buffer_mem_wf. lia. Qed.

Lemma blank_ready p : 0 <= p < 1073741824 -> ready (setup_fb p) (blank (setup_fb p)).
Proof. intros. apply ready_buffer; [by apply setup_fb_wf|lia]. Qed.

Lemma machine_ready : @boot_ready demo_assets machine_boot machine_cursor demo_mouse machine_memory.
Proof.
  assert (fb_wf (@saved_surface demo_assets machine_cursor)) as Hsf by (split; cbn; lia).
  assert (ready (@saved_surface demo_assets machine_cursor) (buffer 3145728 4 0)) as Hp
    by (apply (ready_buffer (@saved_surface demo_assets machine_cursor)); [done|lia]).
  assert (mem_wf (buffer 3145728 4 0)) as H4 by (apply buffer_mem_wf; lia).
  assert (mem_wf (blank (setup_fb 2097152) ∪ buffer 3145728 4 0)) as H3
    by (apply mem_wf_union; [apply blank_wf|done]).
  assert (mem_wf (blank (setup_fb 1048576) ∪ (blank (setup_fb 2097152) ∪ buffer 3145728 4 0))) as H2
    by (apply mem_wf_union; [apply blank_wf|done]).
  split; [|apply setup_fb_blendable|split; cbn; lia|split; cbn; lia|split_and!; [done|done|]|split; [done|]].
  - assert (kernel_surfaces machine_boot = (setup_fb 4096, setup_fb 1048576, setup_fb 2097152)) as -> by done.
    split; [|discriminate]. unfold machine_memory.
    assert (forall p q, 0 <= p < 1073741824 -> 0 <= q < 1073741824 -> p + 768000 <= q \/ q + 768000 <= p ->
      disjoint_surfaces (setup_fb p) (setup_fb q)) as Hd.
    { intros p q Hp' Hq Hpq. apply apart_disjoint; [by apply setup_fb_wf..|]. cbn. lia. }
    assert (forall p, 0 <= p <= 2097152 -> disjoint_surfaces (@saved_surface demo_assets machine_cursor) (setup_fb p)
      /\ disjoint_surfaces (setup_fb p) (@saved_surface demo_assets machine_cursor)) as Hs.
    { intros p Hpp. assert (fb_wf (setup_fb p)) by (apply setup_fb_wf; lia).
      split; apply apart_disjoint; try done; cbn; lia. }
    pose proof (fun p H => blank_ready p H) as Hb.
    generalize dependent (buffer 3145728 4 0). intros pixels Hp H4 H3 H2.
    pose proof (blank_wf 4096) as W1. pose proof (blank_wf 1048576) as W2. pose proof (blank_wf 2097152) as W3.
    pose proof (Hb 4096 ltac:(lia)) as B1. pose proof (Hb 1048576 ltac:(lia)) as B2.
    pose proof (Hb 2097152 ltac:(lia)) as B3. clear Hb.
    generalize dependent (blank (setup_fb 4096)). generalize dependent (blank (setup_fb 1048576)).
    generalize dependent (blank (setup_fb 2097152)). intros m3 H3 W3 B3 m2 H2 W2 B2 m1 W1 B1.
    split.
    + by apply ready_union_l.
    + apply ready_union_r; [|done]. by apply ready_union_l.
    + apply ready_union_r; [|done]. apply ready_union_r; [|done]. by apply ready_union_r.
    + by split.
    + by split.
    + apply Hd; lia.
    + apply Hs; lia.
    + apply Hs; lia.
    + intros _. split_and!; [|by split|apply Hd; lia|apply Hs; lia|apply Hd; lia].
      apply ready_union_r; [|done]. apply ready_union_r; [|done]. by apply ready_union_l.
  - cbn. repeat constructor; lia.
  - cbn. repeat constructor; lia.
Qed.

(* ------------------------------------------------------------------ *)
(** ** Properties *)

(** C2: in every state the kernel loop reaches, every pixel of the screen is that of
    the setup screen with the current highlight, with the cursor over it exactly
    where the cursor is (the invariant [kernel_ok], whose last fields are the shadow
    and the display); the cursor is on the screen, the packet decoder well formed,
    and the highlighted button is the one under the cursor once the cursor has
    moved. *)
Theorem kernel_invariant {World : Type} `{PortIO World, !PortIOWf World} `{A : Assets, !AssetsWf A}
    b c0 s0 u0 m (w : World) k0 k :
  setup_assets -> boot_ready b c0 s0 m -> kernel_start b c0 s0 u0 m w = Done k0 ->
  rtc kernel_step k0 k ->
  kernel_ok k /\ framebufferInfo k = BootFramebuffer b /\ hover_ok k0 k.
Proof.
  intros Ha Hb E Hr. destruct (kernel_start_spec Ha b c0 s0 u0 m w Hb) as (k0' & E' & Hk0 & Efb & Hh).
  rewrite E in E'. apply Done_inj in E' as <-.
  destruct (kernel_reachable_ok Ha k0 k) as (? & ? & ?); [done|by right|done|].
  split_and!; congruence.
Qed.

Lemma kernel_invariant_witness : exists k0 k,
  @kernel_start _ byte_queue demo_assets machine_boot machine_cursor demo_mouse machine_setup
    machine_memory [8; 5; 3; 250; 0; 0] = Done k0 /\
  @kernel_step _ byte_queue demo_assets k0 k /\
  @displays demo_assets (framebufferInfo k) (shadowFramebufferInfo k) (setupUiState k) (cursor k) (memory k).
Proof.
  destruct (@kernel_start_spec demo_assets demo_assets_wf demo_setup_assets _ byte_queue
    machine_boot machine_cursor demo_mouse machine_setup machine_memory [8; 5; 3; 250; 0; 0] machine_ready)
    as (k0 & E & Hk0 & _).
  destruct (@kernel_rounds_ok _ byte_queue byte_queue_wf demo_assets demo_assets_wf demo_setup_assets 1 k0 Hk0)
    as (k & Ek & _). cbn [kernel_rounds] in Ek. apply bind_done in Ek as (k' & Ek & Ekk).
  exists k0, k'. split; [exact E|]. split; [constructor; exact Ek|].
  destruct (@kernel_invariant _ byte_queue byte_queue_wf demo_assets demo_assets_wf machine_boot machine_cursor
    demo_mouse machine_setup machine_memory [8; 5; 3; 250; 0; 0] k0 k' demo_setup_assets machine_ready E) as (Hk & _).
  - apply rtc_once. constructor. exact Ek.
  - apply (ok_display _ Hk).
Defined.

(** C11: a round of the kernel loop, from a state that keeps the invariant,
    never faults or hangs and keeps it.  With a mouse, the round reads the ports
    until the status says there is nothing, or 96 bytes, and the cursor moves
    exactly as the packets made of the bytes the status marks as the mouse's
    say, after those left over from before; without one it reads nothing and
    the cursor stays.  The highlight either follows the cursor or nothing
    moved. *)
Theorem kernel_round_correct {World : Type} `{PortIO World, !PortIOWf World} `{A : Assets, !AssetsWf A}
    (k : KERNEL_STATE World) : setup_assets -> kernel_ok k ->
  exists k', kernel_round k = Done k' /\ kernel_ok k' /\
    followed (framebufferInfo k) (mouseState k) (mouseState k') (cursor k) (cursor k') (ports k) (ports k') /\ hover_after k k'.
Proof.
  intros Ha Hk. destruct (kernel_round_spec Ha k Hk) as (k' & ? & ? & ? & ? & _). by exists k'.
Qed.

Lemma kernel_round_correct_witness : exists k k' : KERNEL_STATE (list Z),
  @kernel_round _ byte_queue demo_assets k = Done k' /\
  @followed demo_assets _ byte_queue (framebufferInfo k) (mouseState k) (mouseState k') (cursor k) (cursor k') (ports k) (ports k').
Proof.
  destruct (@kernel_start_spec demo_assets demo_assets_wf demo_setup_assets _ byte_queue
    machine_boot machine_cursor demo_mouse machine_setup machine_memory [8; 5; 3] machine_ready)
    as (k & _ & Hk & _).
  destruct (@kernel_round_correct _ byte_queue byte_queue_wf demo_assets demo_assets_wf k demo_setup_assets Hk)
    as (k' & E & _ & Hf & _). exists k, k'. split; [exact E|exact Hf].
Defined.

(** C32: the kernel loop runs for ever: for every number of rounds, whatever the
    uninitialised locals held and whatever the controller delivers, the start and
    that many rounds complete without a fault, and the screen displays the setup
    screen and the cursor. *)
Theorem RunKernelMouseLoop_correct {World : Type} `{PortIO World, !PortIOWf World} `{A : Assets, !AssetsWf A}
    n b c0 s0 u0 m (w : World) : setup_assets -> boot_ready b c0 s0 m ->
  exists k, RunKernelMouseLoop n b c0 s0 u0 m w = Done k /\
    displays (BootFramebuffer b) (shadowFramebufferInfo k) (setupUiState k) (cursor k) (memory k).
Proof.
  intros Ha Hb. unfold RunKernelMouseLoop.
  destruct (kernel_start_spec Ha b c0 s0 u0 m w Hb) as (k0 & -> & Hk0 & Efb & _). mred.
  destruct (kernel_rounds_ok Ha n k0 Hk0) as (k & -> & Hk & _ & Efb'). exists k. split; [done|].
  rewrite <- Efb, <- Efb'. apply Hk.
Qed.

Lemma RunKernelMouseLoop_correct_witness : exists k,
  @RunKernelMouseLoop _ byte_queue demo_assets 5 machine_boot machine_cursor demo_mouse machine_setup
    machine_memory [8; 5; 3] = Done k.
Proof.
  destruct (@RunKernelMouseLoop_correct _ byte_queue byte_queue_wf demo_assets demo_assets_wf 5 machine_boot
    machine_cursor demo_mouse machine_setup machine_memory [8; 5; 3] demo_setup_assets machine_ready)
    as (k & E & _). exists k. exact E.
Defined.
