(* ===== verification/Unshadowed.v ===== *)
(** * The kernel loop without a shadow surface

    When the pool has no room for the shadow, [RunKernelMouseLoop] uses the
    framebuffer as its own shadow.  The loop still never faults: the weaker
    invariant [bare_ok] holds from [kernel_start] on and every round keeps
    it.  What is lost is the restoring of the screen: the blit that should
    remove the old cursor copies the screen onto itself, so a round leaves
    every pixel outside the buttons and the new cursor as it was, the old
    cursor's included. *)
From Stdlib Require Import ZArith Lia String.
From stdpp Require Import base gmap list relations.
From S2P Require Import Prelude Surface Pixel Assets Text Box Cursor Pointer Ps2 Console SetupUi Kernel.
#[local] Open Scope Z_scope.

(* ------------------------------------------------------------------ *)
(** ** Specification vocabulary *)

(** The screen, the saved pixels and the compose surface, where it is
    used, are mapped and apart. *)
Record bare_stage (d k p : FRAMEBUFFER_INFO) (m : mem) : Prop := {
  bare_d : ready d m;
  bare_p : ready p m;
  bare_base : Framebuffer d <> 0;
  bare_pd : disjoint_surfaces p d;
  bare_k : usable_compose d d k = true ->
           ready k m /\ same_screen k d /\ disjoint_surfaces d k /\ disjoint_surfaces k d /\
           disjoint_surfaces k p;
}.

Record bare_ok {World : Type} `{Assets} (k : KERNEL_STATE World) : Prop := {
  bare_shared : shadowFramebufferInfo k = framebufferInfo k;
  bare_mem : bare_stage (framebufferInfo k) (composeFramebufferInfo k) (saved_surface (cursor k)) (memory k);
  bare_blend : blendable (framebufferInfo k);
  bare_modest : modest (framebufferInfo k);
  bare_image : image_ready (cursor k);
  bare_saved : saved_fits (framebufferInfo k) (cursor k);
  bare_pointer : pointer_ok (framebufferInfo k) (cursor k);
  bare_mouse : mouse_ok (mouseState k);
  bare_layout : laid_out (framebufferInfo k) (setupUiState k);
}.

(** Outside [R] the screen is as it was. *)
Definition undrawn (d : FRAMEBUFFER_INFO) (R : Z -> Z -> Prop) (m m' : mem) : Prop :=
  forall x y, in_buffer d x y -> ~ R x y -> m' !! pix d x y = m !! pix d x y.

(** What a round may draw on: the new cursor and the two buttons. *)
Definition redrawn {World : Type} `{Assets} (k' : KERNEL_STATE World) (x y : Z) : Prop :=
  covered (framebufferInfo k') (cursor k') x y \/
  in_rounded (InstallButton (setupUiState k')) x y \/
  in_rounded (TryButton (setupUiState k')) x y.

(* ------------------------------------------------------------------ *)
(** ** Lemmas *)

Lemma undrawn_same_off d R m m' : same_off (region d R) m m' -> undrawn d R m m'.
Proof. intros Hs x y Hb HR. by eapply same_off_pixel. Qed.

Lemma undrawn_other d s R R' m m' : same_off (region s R) m m' -> disjoint_surfaces s d -> undrawn d R' m m'.
Proof. intros Hs Hd x y Hb _. by eapply other_surface. Qed.

Lemma undrawn_trans d R m1 m2 m3 : undrawn d R m1 m2 -> undrawn d R m2 m3 -> undrawn d R m1 m3.
Proof. intros H1 H2 x y Hb HR. by rewrite H2, H1. Qed.

Lemma undrawn_weaken d (R R' : Z -> Z -> Prop) m m' : (forall x y, R x y -> R' x y) ->
  undrawn d R m m' -> undrawn d R' m m'.
Proof. intros HR H x y Hb HR'. apply H; auto. Qed.

Lemma bare_same_off d k p R m m' : bare_stage d k p m -> mem_wf m' -> same_off R m m' -> bare_stage d k p m'.
Proof.
  intros [Hd Hp ? ? Hk] Hm' Hs. split; try done; try by eapply ready_same_off.
  intros Hu. destruct (Hk Hu) as (? & ?). split; [by eapply ready_same_off|done].
Qed.

Section bare.
Context `{A : Assets, !AssetsWf A} (Hsetup : setup_assets).

(** Drawing the cursor, on the screen or over the compose surface. *)
Lemma bare_branch d k c m : bare_stage d k (saved_surface c) m -> image_ready c -> cursor_in d c ->
  saved_fits d c ->
  exists m', (if usable_compose d d k then
      m ← for_count (SavedHeight c) (fun y m =>
        CopyPixels32
          (elem (Framebuffer k) (u32 (u32 (CursorY c + y) * PixelsPerScanLine k + CursorX c)))
          (elem (SavedPixels c) (u32 (y * CURSOR_WIDTH))) (SavedWidth c) m) m;
      m ← DrawCursor k c m;
      BlitSurfaceRect (Some d) (Some k) (CursorX c) (CursorY c) (SavedWidth c) (SavedHeight c) m
    else DrawCursor d c m) = Done m' /\
    bare_stage d k (saved_surface c) m' /\ undrawn d (covered d c) m m'.
Proof.
  intros Hst Himg Hin Hfit. pose proof Hst as [Hd Hp Hd0 Hpd Hk].
  destruct (usable_compose d d k) eqn:Eu; cycle 1.
  { destruct (paints_draws _ _ _ _ (DrawCursor_paints d c Himg Hin Hfit) m Hd) as (m' & E & Hd' & Hs).
    exists m'. split; [done|]. split; [by eapply bare_same_off; [..|apply Hd'|]|by apply undrawn_same_off]. }
  destruct (Hk eq_refl) as (Hkr & [Kw Kh] & Hdk & Hkd & Hkp).
  assert (cover_w k c = cover_w d c /\ cover_h k c = cover_h d c) as [Ekw Ekh]
    by (unfold cover_w, cover_h; lia).
  assert (cursor_in k c) as Hink by (unfold cursor_in in *; lia).
  assert (saved_fits k c) as Hfitk by (destruct Hfit; split; congruence).
  destruct (compose_restore k c m) as (m1 & -> & Hk1 & Hsame1 & _); [done..|]. mred.
  destruct (paints_draws _ _ _ _ (DrawCursor_paints k c Himg Hink Hfitk) m1 Hk1) as (m2 & -> & Hk2 & Hsame2).
  mred. pose proof cursor_dims.
  assert (ready d m2) as Hd2 by (eapply ready_other; [exact Hk2| |exact Hsame2]; by eapply ready_other; [exact Hk1| |]).
  pose proof (covered_size d c (ready_fb _ _ Hd) Hin) as (? & ? & ? & ?). pose proof (ready_fb _ _ Hd) as [].
  destruct Hfit as [Ew Eh].
  destruct (BlitSurfaceRect_spec d k (CursorX c) (CursorY c) (SavedWidth c) (SavedHeight c) m2)
    as (m3 & -> & Hd3 & _ & Hsame3 & _); [done|done|done|done| |destruct Hin; lia..|].
  { unfold usable_compose in Eu. rewrite !andb_true_iff, !negb_true_iff, !Z.eqb_neq in Eu. lia. }
  exists m3. split; [done|]. split.
  - eapply bare_same_off; [|by eapply ready_mem|exact Hsame3].
    eapply bare_same_off; [|by eapply ready_mem|exact Hsame2].
    by eapply bare_same_off; [..|by eapply ready_mem|exact Hsame1].
  - eapply undrawn_trans; [by eapply undrawn_other|]. eapply undrawn_trans; [by eapply undrawn_other|].
    eapply undrawn_weaken; [|by apply undrawn_same_off].
    intros x y (Hr & _). by rewrite Ew, Eh in Hr.
Qed.

Lemma bare_composite d k c m : bare_stage d k (saved_surface c) m -> image_ready c -> cursor_in d c ->
  let c' := set_Visible (set_saved c (cover_w d c) (cover_h d c)) 1 in
  exists m', BlitCursorComposite (Some d) (Some d) (Some k) c m = Done (c', m') /\
    bare_stage d k (saved_surface c') m' /\ undrawn d (covered d c') m m'.
Proof.
  intros Hst Himg Hin c'. pose proof Hst as [Hd Hp _ Hpd _]. unfold BlitCursorComposite.
  destruct (SaveCursorBackground_spec d c m Hd Hp Hpd Hin) as (m1 & E1 & Hd1 & Hp1 & Hsame1 & _).
  rewrite E1. mred. set (c1 := set_saved c (cover_w d c) (cover_h d c)) in *.
  destruct (bare_branch d k c1 m1) as (m2 & E2 & Hst2 & Hun2); [|by destruct Himg|done|done|].
  { eapply bare_same_off; [exact Hst|by eapply ready_mem|exact Hsame1]. }
  fold (usable_compose d d k). rewrite E2. mred. exists m2. split; [done|]. split; [done|].
  eapply undrawn_trans; [by eapply undrawn_other|done].
Qed.

(** Hovering redraws buttons in place. *)
Lemma bare_hover d k p u h m : bare_stage d k p m -> blendable d -> laid_out d u ->
  exists m', kernel_hover d d u h m = Done (set_HoveredButton u h, m') /\ bare_stage d k p m' /\
    undrawn d (fun x y => in_rounded (InstallButton u) x y \/ in_rounded (TryButton u) x y) m m'.
Proof.
  intros Hst Hblend Hu. unfold kernel_hover.
  destruct (Z.eqb_spec h (HoveredButton u)) as [->|Hh].
  { exists m. by rewrite set_HoveredButton_same. }
  cbn zeta. rewrite Z.eqb_refl. cbn [negb].
  destruct (tints_draws _ _ _ (RefreshSetupButtons_tints d (set_HoveredButton u h) (HoveredButton u) h
    Hsetup Hblend (laid_out_hovered d u h Hu)) m (bare_d _ _ _ _ Hst)) as (m' & -> & Hd' & Hs).
  mred. exists m'. split; [done|]. split; [eapply bare_same_off; [done|by eapply ready_mem|done]|].
  eapply undrawn_weaken; [|by apply undrawn_same_off]. cbn [set_HoveredButton InstallButton TryButton].
  intros x y. tauto.
Qed.

Context {World : Type} `{PortIO World, !PortIOWf World}.

Lemma bare_round (k : KERNEL_STATE World) : bare_ok k ->
  exists k', kernel_round k = Done k' /\ bare_ok k' /\
    framebufferInfo k' = framebufferInfo k /\
    followed (framebufferInfo k) (mouseState k) (mouseState k') (cursor k) (cursor k') (ports k) (ports k') /\
    undrawn (framebufferInfo k) (redrawn k') (memory k) (memory k').
Proof.
  intros [Esh Hst Hblend Hmod Himg Hfit Hptr Hms Hlay]. pose proof (bare_d _ _ _ _ Hst) as Hd.
  pose proof (ready_fb _ _ Hd) as Hfb. unfold kernel_round. rewrite Esh. cbn zeta.
  destruct (kernel_update (framebufferInfo k) (cursor k) (mouseState k) (ports k))
    as (r & ms' & c' & w' & E & Hms' & Hptr' & Hsame & Hstay & Hfol); [done..|].
  rewrite E. mred. pose proof Hsame as (Ew & Eh & Ev & Ep & Er & Eo).
  assert (image_ready c') as Himg' by (destruct Himg; split; congruence).
  assert (saved_surface c' = saved_surface (cursor k)) as Es by (unfold saved_surface; by rewrite Ep).
  destruct (Z.eqb_spec r 0) as [Hr|Hr]; cbn [negb].
  - rewrite BusyPause_done. mred. destruct (Hstay Hr) as [Ex Ey]. eexists. split; [done|].
    split; [|split; [done|split; [exact Hfol|by intros x y _ _]]].
    split; cbn [framebufferInfo shadowFramebufferInfo composeFramebufferInfo cursor mouseState
      setupUiState memory ports]; try done; [by rewrite Es|].
    destruct Hfit. unfold saved_fits, cover_w, cover_h in *. by rewrite Ew, Eh, Ex, Ey.
  - match goal with |- context [?o ≫= fun '(cursor, m) => _] =>
      assert (exists v, o = Done (set_Visible c' v, memory k)) as (v & ->) end.
    { pose proof (pointer_ok_cursor_in _ _ Hfb Hptr) as [].
      pose proof (covered_size _ _ Hfb (pointer_ok_cursor_in _ _ Hfb Hptr)) as (? & ? & ? & ?).
      destruct Hfit as [Fw Fh]. pose proof cursor_dims. destruct Hfb.
      destruct (negb _); [|exists (Visible c'); by destruct c'].
      exists 0. cbn [set_position CursorX CursorY SavedWidth SavedHeight]. rewrite Ew, Eh, Fw, Fh.
      rewrite BlitSurfaceRect_self by (done || lia). mred. by destruct c'. }
    mred. set (c1 := set_Visible c' v).
    destruct (bare_hover (framebufferInfo k) (composeFramebufferInfo k) (saved_surface c1) (setupUiState k)
      (HitTestSetupUi (setupUiState k) c1) (memory k)) as (m2 & -> & Hst2 & Hun2);
      [by change (saved_surface c1) with (saved_surface c'); rewrite Es|done|done|].
    mred. set (u' := set_HoveredButton _ _) in *.
    destruct (bare_composite (framebufferInfo k) (composeFramebufferInfo k) c1 m2)
      as (m3 & -> & Hst3 & Hun3); [done|by destruct Himg'|by apply (pointer_ok_cursor_in _ c')|].
    mred. eexists. split; [done|]. split; [|split; [done|split; [exact Hfol|]]].
    + split; cbn [framebufferInfo shadowFramebufferInfo composeFramebufferInfo cursor mouseState
        setupUiState memory ports]; try done.
      * by destruct Himg'.
      * by destruct Hptr'.
      * by apply laid_out_hovered.
    + cbn [memory]. eapply undrawn_trans; (eapply undrawn_weaken; [|done]); unfold redrawn;
        cbn [framebufferInfo cursor setupUiState]; [intros x y; tauto|intros x y; tauto].
Qed.
End bare.

(* ------------------------------------------------------------------ *)
(** ** Lemmas: the start *)

(** What the loop needs when no shadow was allocated. *)
Record bare_boot `{Assets} (b : KERNEL_BOOT_INFO) (c0 : SOFTWARE_CURSOR) (s0 : PS2_MOUSE_STATE) (m : mem)
    : Prop := {
  bare_null : ShadowFramebuffer b = 0;
  bare_surfaces : bare_stage (BootFramebuffer b) (kernel_surfaces b).2 (saved_surface c0) m;
  bare_blendable : blendable (BootFramebuffer b);
  bare_roomy : roomy (BootFramebuffer b);
  bare_size : modest (BootFramebuffer b);
  bare_cursor : image_sized c0;
  bare_packet : length (Packet s0) = 4%nat /\ bytes (Packet s0);
}.

Section start.
Context `{A : Assets, !AssetsWf A} (Hsetup : setup_assets).
Context {World : Type} `{PortIO World, !PortIOWf World}.

Lemma bare_surfaces_eq b : ShadowFramebuffer b = 0 ->
  kernel_surfaces b = (BootFramebuffer b, BootFramebuffer b, (kernel_surfaces b).2).
Proof. intros E. unfold kernel_surfaces. by rewrite E. Qed.

Lemma bare_start b c0 s0 u0 m (w : World) : bare_boot b c0 s0 m ->
  exists k, kernel_start b c0 s0 u0 m w = Done k /\ bare_ok k /\ framebufferInfo k = BootFramebuffer b.
Proof.
  intros [Hnull Hst Hblend Hroom Hmod Hc0 [Hpl Hpb]]. unfold kernel_start.
  rewrite (bare_surfaces_eq b Hnull). set (k := (kernel_surfaces b).2) in *.
  set (fb := BootFramebuffer b) in *. pose proof (bare_d _ _ _ _ Hst) as Hd.
  destruct (InitializeCursorSurface_spec fb (kernel_cursor fb c0) Hblend) as (res & op & -> & Himg & _);
    [exact Hc0|]. mred.
  destruct (InitializePs2Mouse_total s0 w Hpl Hpb) as (det & ms & w' & -> & Hms). mred.
  destruct (InitializeSetupUiState_spec fb u0 det Hblend Hroom) as (u & -> & Hu & _). mred.
  destruct (DrawSetupScreen_shows Hsetup fb Hblend u m Hu Hd) as (m1 & -> & Hd1 & Hsame1 & _). mred.
  rewrite Z.eqb_refl. cbn [negb]. mred. pose proof (kernel_cursor_ok fb c0 Hmod) as Hptr.
  set (c := set_image (kernel_cursor fb c0) res op) in *.
  assert (pointer_ok fb c) as Hptr1 by (by destruct Hptr).
  destruct (bare_composite fb k c m1) as (m2 & -> & Hst2 & _);
    [eapply bare_same_off; [exact Hst|by eapply ready_mem|exact Hsame1]|done|
     by apply pointer_ok_cursor_in; [apply Hd|]|].
  mred. eexists. split; [done|]. split; [|done].
  split; cbn [framebufferInfo shadowFramebufferInfo composeFramebufferInfo cursor mouseState
      setupUiState memory ports]; try done; [by destruct Himg|by destruct Hptr1].
Qed.

Lemma bare_reachable (k0 k : KERNEL_STATE World) : bare_ok k0 -> rtc kernel_step k0 k -> bare_ok k.
Proof.
  intros Hk0. revert k. apply (rtc_ind_r bare_ok k0); [done|].
  intros k1 k2 _ Hs Hk1. destruct Hs as [k1 k2 E].
  destruct (bare_round Hsetup k1 Hk1) as (k' & E' & Hk' & _). rewrite E in E'. by apply Done_inj in E' as ->.
Qed.

Lemma bare_rounds n (k : KERNEL_STATE World) : bare_ok k ->
  exists k', kernel_rounds n k = Done k' /\ bare_ok k'.
Proof.
  revert k. induction n as [|n IH]; intros k Hk; cbn [kernel_rounds]; [by exists k|].
  destruct (bare_round Hsetup k Hk) as (k1 & -> & Hk1 & _). mred. by apply IH.
Qed.
End start.

(* ------------------------------------------------------------------ *)
(** ** A machine without room for a shadow *)

Definition bare_machine : KERNEL_BOOT_INFO :=
  mkBoot (setup_fb 4096) 0 0 0 0 0 0 0 0 0 0 0 0 [].

Lemma bare_machine_boot : @bare_boot demo_assets bare_machine machine_cursor demo_mouse machine_memory.
Proof.
  destruct machine_ready as [Hst Hblend Hroom Hmod Hc Hp].
  assert (kernel_surfaces machine_boot = (setup_fb 4096, setup_fb 1048576, setup_fb 2097152)) as E by done.
  rewrite E in Hst. destruct Hst as [Hst _].
  split; [reflexivity| |exact Hblend|exact Hroom|exact Hmod|exact Hc|exact Hp].
  split; [exact (stage_d _ _ _ _ _ Hst)|exact (stage_p _ _ _ _ _ Hst)|discriminate|
          exact (stage_pd _ _ _ _ _ Hst)|discriminate].
Qed.

(* ------------------------------------------------------------------ *)
(** ** Properties *)

(** C33: when the pool had no room for the shadow surface, the loop still starts and
    no reachable round ever faults, keeping memory, cursor, decoder and layout well
    formed and following the mouse; but a round leaves every pixel outside the two
    buttons and the new cursor as it was, so the old cursor is never removed from
    the screen. *)
Theorem kernel_unshadowed `{A : Assets, !AssetsWf A} {World : Type} `{PortIO World, !PortIOWf World}
    b c0 s0 u0 m (w : World) : setup_assets -> bare_boot b c0 s0 m ->
  exists k0, kernel_start b c0 s0 u0 m w = Done k0 /\
    forall k, rtc kernel_step k0 k -> bare_ok k /\
      exists k', kernel_round k = Done k' /\
        followed (framebufferInfo k) (mouseState k) (mouseState k') (cursor k) (cursor k') (ports k) (ports k') /\
        undrawn (framebufferInfo k) (redrawn k') (memory k) (memory k').
Proof.
  intros Ha Hb. destruct (bare_start Ha b c0 s0 u0 m w Hb) as (k0 & E & Hk0 & _).
  exists k0. split; [done|]. intros k Hr. assert (bare_ok k) as Hk by (by eapply bare_reachable).
  split; [done|]. destruct (bare_round Ha k Hk) as (k' & ? & _ & _ & ? & ?). by exists k'.
Qed.

Lemma kernel_unshadowed_witness : exists k0 k' : KERNEL_STATE (list Z),
  @kernel_start _ byte_queue demo_assets bare_machine machine_cursor demo_mouse machine_setup
    machine_memory [8; 5; 3] = Done k0 /\
  @kernel_round _ byte_queue demo_assets k0 = Done k' /\
  undrawn (framebufferInfo k0) (@redrawn _ demo_assets k') (memory k0) (memory k').
Proof.
  destruct (@kernel_unshadowed demo_assets demo_assets_wf _ byte_queue byte_queue_wf bare_machine
    machine_cursor demo_mouse machine_setup machine_memory [8; 5; 3] demo_setup_assets bare_machine_boot)
    as (k0 & E & Hall).
  destruct (Hall k0 (rtc_refl _ _)) as (_ & k' & E' & _ & Hun).
  exists k0, k'. split; [exact E|]. split; [exact E'|exact Hun].
Defined.
