(* ===== verification/Firmware.v ===== *)
(** * The firmware

    What [BootApp.c] uses of UEFI: the protocol GUIDs, the status codes and
    structure offsets the source declares, and the boot services it calls.
    The services are firmware code, so they are the fields of the class
    [Firmware], functions over an abstract world; [FirmwareWf] states what
    the UEFI specification documents of them, and [demo_firmware] is a
    concrete firmware that keeps it. *)
From Stdlib Require Import ZArith Lia.
From stdpp Require Import base gmap list.
From S2P Require Import Prelude Surface Pointer Ps2.
#[local] Open Scope Z_scope.

(* ------------------------------------------------------------------ *)
(** ** Data *)

Record EFI_GUID : Type := mkGuid {
  Data1 : Z;
  Data2 : Z;
  Data3 : Z;
  Data4 : list Z;
}.

#[export] Instance guid_eq_dec : EqDecision EFI_GUID.
Proof. solve_decision. Defined.

Definition gGraphicsOutputProtocolGuid : EFI_GUID :=
  mkGuid 0x9042A9DE 0x23DC 0x4A38 [0x96; 0xFB; 0x7A; 0xDE; 0xD0; 0x80; 0x51; 0x6A].

Definition gPciIoProtocolGuid : EFI_GUID :=
  mkGuid 0x4CF5B200 0x68B8 0x4CA5 [0x9E; 0xEC; 0xB2; 0x3E; 0x3F; 0x50; 0x02; 0x9A].

Definition EFI_INVALID_PARAMETER : Z := Z.lor EFI_ERROR_BIT 2.
Definition EFI_UNSUPPORTED : Z := Z.lor EFI_ERROR_BIT 3.
Definition EFI_BUFFER_TOO_SMALL : Z := Z.lor EFI_ERROR_BIT 5.

Definition EFI_BY_PROTOCOL : Z := 2.
Definition EFI_BOOT_SERVICES_DATA : Z := 4.
Definition EFI_PCI_IO_PROTOCOL_WIDTH_UINT32 : Z := 2.

Definition GOP_MODE_OFFSET : Z := 0x18.
Definition GOP_MODE_INFO_OFFSET : Z := 0x08.
Definition GOP_MODE_FRAMEBUFFER_BASE_OFFSET : Z := 0x18.
Definition GOP_MODE_FRAMEBUFFER_SIZE_OFFSET : Z := 0x20.
Definition GOP_INFO_HORIZONTAL_RESOLUTION_OFFSET : Z := 0x04.
Definition GOP_INFO_VERTICAL_RESOLUTION_OFFSET : Z := 0x08.
Definition GOP_INFO_PIXEL_FORMAT_OFFSET : Z := 0x0C.
Definition GOP_INFO_RED_MASK_OFFSET : Z := 0x10.
Definition GOP_INFO_GREEN_MASK_OFFSET : Z := 0x14.
Definition GOP_INFO_BLUE_MASK_OFFSET : Z := 0x18.
Definition GOP_INFO_PIXELS_PER_SCANLINE_OFFSET : Z := 0x20.

(** The function pointers of the PCI protocol the code uses; [None] is a
    null pointer.  [Read width offset count buffer] returns the status and
    the buffer; [GetLocation] the four location numbers. *)
Record EFI_PCI_IO_PROTOCOL (World : Type) : Type := mkPciIo {
  Pci_Read : option (Z -> Z -> Z -> Z -> World -> Z * Z * World);
  GetLocation : option (Z * Z * Z * Z -> World -> Z * (Z * Z * Z * Z) * World);
}.
Arguments mkPciIo {World}.
Arguments Pci_Read {World}.
Arguments GetLocation {World}.

(** The in-out arguments of [GetMemoryMap]. *)
Record MAP_ARGS : Type := mkMap {
  MapSize : Z;
  MapKey : Z;
  DescriptorSize : Z;
  DescriptorVersion : Z;
}.

(* ------------------------------------------------------------------ *)
(** ** The boot services *)

(** Each service takes its arguments, the old value of its out parameters
    where the code initialises them, and the world; it returns its status,
    the out parameters and the world.  [AllocatePool] also maps memory.
    [peek32] and [peek64] read the tables the firmware owns.  A handle
    buffer is its address and its contents. *)
Class Firmware (World : Type) : Type := mkFirmware {
  Stall : option (Z -> World -> World);
  LocateProtocol : EFI_GUID -> Z -> World -> Z * Z * World;
  LocateHandleBuffer : Z -> EFI_GUID -> Z -> World -> Z * Z * (Z * list Z) * World;
  HandleProtocol : Z -> EFI_GUID -> Z -> World -> Z * Z * World;
  GetMemoryMap : MAP_ARGS -> Z -> World -> Z * MAP_ARGS * World;
  AllocatePool : Z -> Z -> Z -> World -> mem -> Z * Z * World * mem;
  FreePool : Z -> World -> World;
  ExitBootServices : Z -> Z -> World -> Z * World;
  peek32 : Z -> World -> Z;
  peek64 : Z -> World -> Z;
  pci_io : Z -> EFI_PCI_IO_PROTOCOL World;
  rdtsc : World -> Z * World;
}.

(** [n] new cells from [p] on, outside everything mapped before. *)
Definition pool (p n : Z) (m m' : mem) : Prop :=
  m ⊆ m' /\ mem_wf m' /\ cells p n m' /\ forall i, 0 <= i < n -> m !! (p + 4 * i) = None.

(** What UEFI documents of the services: integers have their width; a pool
    allocation returns memory nothing else uses; the handle buffer holds as
    many handles as it says; no memory map is written to a null buffer; the
    map key goes stale only while the map changes, so only so many times
    ([stale], a bound the firmware knows) does [ExitBootServices] refuse a
    fresh key. *)
Class FirmwareWf (World : Type) `{Firmware World} : Type := {
  peek32_u32 : forall a w, is_u32 (peek32 a w);
  peek64_u64 : forall a w, is_u64 (peek64 a w);
  rdtsc_u64 : forall w, is_u64 (rdtsc w).1;
  alloc_pool : forall type size p w m st p' w' m', is_u64 size -> mem_wf m ->
    AllocatePool type size p w m = (st, p', w', m') ->
    if decide (st = EFI_SUCCESS /\ p' <> 0) then pool p' (size / 4) m m' else m' = m;
  handle_buffer : forall type guid n w st n' p l w',
    LocateHandleBuffer type guid n w = (st, n', (p, l), w') -> st = EFI_SUCCESS -> p <> 0 ->
    is_u64 n' /\ n' = Z.of_nat (length l);
  map_null : forall args w st args' w',
    GetMemoryMap args 0 w = (st, args', w') -> st <> EFI_SUCCESS;
  stale : World -> nat;
  stale_map : forall args p w st args' w', GetMemoryMap args p w = (st, args', w') ->
    (stale w' <= stale w)%nat;
  stale_exit : forall handle args p w args' w1 w2, GetMemoryMap args p w = (EFI_SUCCESS, args', w1) ->
    ExitBootServices handle (MapKey args') w1 = (EFI_INVALID_PARAMETER, w2) -> (stale w2 < stale w1)%nat;
}.

(* ------------------------------------------------------------------ *)
(** ** A concrete firmware, for the witnesses *)

(** A machine with a 480x400 screen, a bump allocator, two PCI handles of
    which one is a display adapter, and a memory map that changes
    [map_changes] times before it settles. *)
Record MACHINE : Type := mkMachine {
  port_bytes : list Z;
  heap : Z;
  map_key : Z;
  map_changes : nat;
  ticks : Z;
}.

#[export] Instance machine_ports : PortIO MACHINE := {|
  inbyte port w :=
    let '(v, l) := @inbyte _ byte_queue port (port_bytes w) in
    (v, mkMachine l (heap w) (map_key w) (map_changes w) (ticks w));
  outbyte _ _ w := w;
|}.

Lemma machine_ports_wf : PortIOWf MACHINE.
Proof.
  intros port w. pose proof (byte_queue_wf port (port_bytes w)) as Hb. cbn [inbyte machine_ports].
  by destruct (@inbyte _ byte_queue port (port_bytes w)).
Qed.

(** Space for [size] bytes at the heap pointer, or out of resources. *)
Definition demo_alloc (size : Z) (w : MACHINE) (m : mem) : Z * Z * MACHINE * mem :=
  let n := size / 4 in
  if decide (0 < heap w /\ heap w + 4 * n <= 18446744073709551616 /\
             Forall (fun i => m !! (heap w + 4 * i) = None) (seqZ 0 n))
  then (EFI_SUCCESS, heap w,
        mkMachine (port_bytes w) (heap w + 4 * n) (map_key w) (map_changes w) (ticks w),
        m ∪ buffer (heap w) (Z.to_nat n) 0)
  else (Z.lor EFI_ERROR_BIT 9, 0, w, m).

(** The mode at address 16, its information at 64. *)
Definition demo_peek (a : Z) : Z :=
  if a =? 8 + 24 then 16
  else if a =? 16 + 8 then 64
  else if a =? 16 + 24 then 4096
  else if a =? 16 + 32 then 768000
  else if a =? 64 + 4 then 480
  else if a =? 64 + 8 then 400
  else if a =? 64 + 12 then 1
  else if a =? 64 + 32 then 480
  else 0.

(** Handle 1 is a display adapter at 00:02.0, handle 2 has no device. *)
Definition demo_pci (p : Z) : EFI_PCI_IO_PROTOCOL MACHINE :=
  mkPciIo
    (Some (fun _ offset _ v w =>
       (EFI_SUCCESS, (if p =? 1 then if offset =? 0 then 0x12348086 else 0x03000000 else v), w)))
    (Some (fun _ w => (EFI_SUCCESS, (0, 0, 2, 0), w))).

#[export] Instance demo_firmware : Firmware MACHINE := {|
  Stall := Some (fun n w => mkMachine (port_bytes w) (heap w) (map_key w) (map_changes w) (u64 (ticks w + n)));
  LocateProtocol guid _ w := (EFI_SUCCESS, if decide (guid = gGraphicsOutputProtocolGuid) then 8 else 0, w);
  LocateHandleBuffer _ guid _ w :=
    (EFI_SUCCESS, 2, (if decide (guid = gPciIoProtocolGuid) then 512 else 0, [1; 2]), w);
  HandleProtocol handle _ _ w := (EFI_SUCCESS, handle, w);
  GetMemoryMap args p w :=
    ((if p =? 0 then EFI_BUFFER_TOO_SMALL else EFI_SUCCESS), mkMap 480 (map_key w) 48 1, w);
  AllocatePool _ size _ w m := demo_alloc size w m;
  FreePool _ w := w;
  ExitBootServices _ _ w :=
    match map_changes w with
    | O => (EFI_SUCCESS, w)
    | S n => (EFI_INVALID_PARAMETER, mkMachine (port_bytes w) (heap w) (u64 (map_key w + 1)) n (ticks w))
    end;
  peek32 a _ := demo_peek a;
  peek64 a _ := demo_peek a;
  pci_io := demo_pci;
  rdtsc w := (u64 (ticks w), w);
|}.

Lemma demo_alloc_pool size w m st p' w' m' : is_u64 size -> mem_wf m ->
  demo_alloc size w m = (st, p', w', m') ->
  if decide (st = EFI_SUCCESS /\ p' <> 0) then pool p' (size / 4) m m' else m' = m.
Proof.
  intros Hsize Hm. unfold demo_alloc. cbn zeta. destruct (decide (0 < heap w /\ _)) as [(Hh & Htop & Hf)|];
    intros [= <- <- <- <-]; [|by rewrite decide_False by (intros [? _]; done)].
  rewrite decide_True by (split; [done|lia]).
  assert (forall i, 0 <= i < size / 4 -> m !! (heap w + 4 * i) = None) as Hnone
    by (intros i Hi; rewrite Forall_forall in Hf; apply Hf, elem_of_seqZ; lia).
  split; [apply map_union_subseteq_l|]. split; [apply mem_wf_union; [done|by apply buffer_mem_wf]|].
  split; [|done]. split; [lia|]. split; [lia|]. intros i Hi. apply lookup_union_is_Some. right.
  apply buffer_mapped. lia.
Qed.

Lemma demo_peek_range a : is_u32 (demo_peek a).
Proof. unfold demo_peek. repeat case_match; lia. Qed.

#[export] Instance demo_firmware_wf : FirmwareWf MACHINE.
Proof.
  refine {| stale := map_changes |}.
  - intros. apply demo_peek_range.
  - intros a w. pose proof (demo_peek_range a). cbn. lia.
  - intros w. apply u64_range.
  - intros ? size ? w m st p' w' m'. apply demo_alloc_pool.
  - by intros ???????? ? [= <- <- <- <- <-] _ _.
  - by intros ? ? ? ? ? [= <- <- <-].
  - by intros ? ? ? ? ? ? [= <- <- <-].
  - intros handle args p w0 args' w w' _. cbn. destruct (map_changes w) as [|n] eqn:E; [done|].
    intros [= <-]. cbn. lia.
Defined.
