(* ===== verification/Pci.v ===== *)
(** * PCI enumeration

    [CollectPciDevices]: the handles that carry the PCI protocol are read in
    order, display adapters and audio controllers are counted, and the first
    32 of them are recorded in the boot record.  The reference is the list of
    all devices found ([found_devices]), which keeps no table;
    [devices_of] says what it lists, from the PCI registers. *)
From Stdlib Require Import ZArith Lia.
From stdpp Require Import base gmap list.
From S2P Require Import Prelude Surface Pixel Assets Pointer Console Firmware.
#[local] Open Scope Z_scope.

(* ------------------------------------------------------------------ *)
(** ** Operations *)

(** The device table and its counters; every other field is kept. *)
Definition set_devices (b : KERNEL_BOOT_INFO) (gpu audio count : Z) (devices : list PCI_DEVICE_INFO)
    : KERNEL_BOOT_INFO :=
  mkBoot (BootFramebuffer b) (ShadowFramebuffer b) (ComposeFramebuffer b) (TscTicksPerSecond b)
    (MemoryMap b) (MemoryMapSize b) (MemoryMapKey b) (MemoryDescriptorSize b)
    (MemoryDescriptorVersion b) (MemoryDescriptorCount b) gpu audio count devices.

(** [GpuCount++] or [AudioCount++]. *)
Definition count_device (b : KERNEL_BOOT_INFO) (Kind : Z) : KERNEL_BOOT_INFO :=
  if Kind =? KERNEL_PCI_KIND_GPU then
    set_devices b (u64 (GpuCount b + 1)) (AudioCount b) (PciDeviceCount b) (PciDevices b)
  else
    set_devices b (GpuCount b) (u64 (AudioCount b + 1)) (PciDeviceCount b) (PciDevices b).

(** The entry is written while the table of 32 has room. *)
Definition record_device (b : KERNEL_BOOT_INFO) (Entry : PCI_DEVICE_INFO) : outcome KERNEL_BOOT_INFO :=
  if PciDeviceCount b <? 32 then
    devices ← wr (PciDevices b) (PciDeviceCount b) Entry;
    Done (set_devices b (GpuCount b) (AudioCount b) (u64 (PciDeviceCount b + 1)) devices)
  else Done b.

Definition pci_kind (ClassCode : Z) : Z :=
  if ClassCode =? 3 then KERNEL_PCI_KIND_GPU
  else if ClassCode =? 4 then KERNEL_PCI_KIND_AUDIO
  else 0.

Section pci.
Context {World : Type} `{Firmware World}.

(** The protocol of a handle and its two registers; [None] where the loop
    continues with the next handle. *)
Definition pci_registers (handle : Z) (w : World)
    : option (EFI_PCI_IO_PROTOCOL World * Z * Z) * World :=
  let '(Status, PciIo, w) := HandleProtocol handle gPciIoProtocolGuid 0 w in
  if (negb (Status =? EFI_SUCCESS) || (PciIo =? 0))%bool then (None, w) else
  match Pci_Read (pci_io PciIo) with
  | None => (None, w)
  | Some Read =>
      let '(Status, IdRegister, w) := Read EFI_PCI_IO_PROTOCOL_WIDTH_UINT32 0 1 4294967295 w in
      if negb (Status =? EFI_SUCCESS) then (None, w) else
      let '(Status, ClassRegister, w) := Read EFI_PCI_IO_PROTOCOL_WIDTH_UINT32 8 1 0 w in
      if negb (Status =? EFI_SUCCESS) then (None, w) else
      (Some (pci_io PciIo, IdRegister, ClassRegister), w)
  end.

(** Segment, bus, device and function, zero without [GetLocation]. *)
Definition pci_location (PciIo : EFI_PCI_IO_PROTOCOL World) (w : World) : (Z * Z * Z * Z) * World :=
  match GetLocation PciIo with
  | Some get => let '(_, location, w) := get (0, 0, 0, 0) w in (location, w)
  | None => ((0, 0, 0, 0), w)
  end.

(** One round of the loop over the handles. *)
Definition pci_handle (handle : Z) (b : KERNEL_BOOT_INFO) (w : World)
    : outcome (KERNEL_BOOT_INFO * World) :=
  match pci_registers handle w with
  | (None, w) => Done (b, w)
  | (Some (PciIo, IdRegister, ClassRegister), w) =>
      let VendorId := u16 (Z.land IdRegister 65535) in
      let DeviceId := u16 (Z.land (Z.shiftr IdRegister 16) 65535) in
      if VendorId =? 65535 then Done (b, w) else
      let ClassCode := u8 (Z.land (Z.shiftr ClassRegister 24) 255) in
      let Subclass := u8 (Z.land (Z.shiftr ClassRegister 16) 255) in
      let ProgIf := u8 (Z.land (Z.shiftr ClassRegister 8) 255) in
      let Kind := pci_kind ClassCode in
      if Kind =? 0 then Done (b, w) else
      let b := count_device b Kind in
      let '((Segment, Bus, Device, Function), w) := pci_location PciIo w in
      b ← record_device b (mkDevice VendorId DeviceId ClassCode Subclass ProgIf Kind
                             (u8 Segment) (u8 Bus) (u8 Device) (u8 Function));
      Done (b, w)
  end.

Definition CollectPciDevices (b : KERNEL_BOOT_INFO) (w : World) : outcome (KERNEL_BOOT_INFO * World) :=
  let '(Status, HandleCount, (Handles, array), w) :=
    LocateHandleBuffer EFI_BY_PROTOCOL gPciIoProtocolGuid 0 w in
  if (negb (Status =? EFI_SUCCESS) || (Handles =? 0))%bool then Done (b, w) else
  '(b, w) ← for_count HandleCount (fun HandleIndex '(b, w) =>
    handle ← rd array HandleIndex;
    pci_handle handle b w) (b, w);
  Done (b, FreePool Handles w).
End pci.

(* ------------------------------------------------------------------ *)
(** ** Specification vocabulary *)

Section found.
Context {World : Type} `{Firmware World}.

(** The device the registers of a handle describe, if the loop keeps it. *)
Definition device_at (handle : Z) (w : World) : option PCI_DEVICE_INFO * World :=
  match pci_registers handle w with
  | (None, w) => (None, w)
  | (Some (io, ids, class), w) =>
      let kind := pci_kind (class / 16777216 mod 256) in
      if decide (ids mod 65536 = 65535 \/ kind = 0) then (None, w) else
      let '((segment, bus, device, function), w) := pci_location io w in
      (Some (mkDevice (ids mod 65536) (ids / 65536 mod 65536) (class / 16777216 mod 256)
               (class / 65536 mod 256) (class / 256 mod 256) kind
               (segment mod 256) (bus mod 256) (device mod 256) (function mod 256)), w)
  end.

(** The display and audio devices behind the handles, in order. *)
Fixpoint found_devices (handles : list Z) (w : World) : list PCI_DEVICE_INFO * World :=
  match handles with
  | [] => ([], w)
  | handle :: handles =>
      let '(d, w) := device_at handle w in
      let '(ds, w) := found_devices handles w in
      (match d with Some d => d :: ds | None => ds end, w)
  end.

(** What the enumeration finds, and the world it leaves. *)
Definition enumerate (w : World) : list PCI_DEVICE_INFO * World :=
  let '(st, _, (p, l), w) := LocateHandleBuffer EFI_BY_PROTOCOL gPciIoProtocolGuid 0 w in
  if decide (st = EFI_SUCCESS /\ p <> 0) then
    let '(ds, w) := found_devices l w in (ds, FreePool p w)
  else ([], w).
End found.

(** The specification of an interface's device, from the PCI registers
    themselves: dword 0 holds the vendor in its low and the device in its high
    half, and no function answers with vendor 65535; dword 8 holds the class in
    its top byte, then the subclass and the programming interface.  Class 3 is
    a display adapter and class 4 a multimedia device, which the record calls
    audio. *)
Section device_of.
Context {World : Type} (io : Z -> EFI_PCI_IO_PROTOCOL World).

Definition shown_kind (class : Z) (kind : Z) : Prop :=
  class = 3 /\ kind = KERNEL_PCI_KIND_GPU \/ class = 4 /\ kind = KERNEL_PCI_KIND_AUDIO.

Inductive location_of (x : Z) (w : World) : Z * Z * Z * Z -> World -> Prop :=
| location_told get st l w' : GetLocation (io x) = Some get -> get (0, 0, 0, 0) w = (st, l, w') -> location_of x w l w'
| location_unknown : GetLocation (io x) = None -> location_of x w (0, 0, 0, 0) w.

Inductive device_of (x : Z) (w : World) : option PCI_DEVICE_INFO -> World -> Prop :=
| device_null : x = 0 -> device_of x w None w
| device_mute : x <> 0 -> Pci_Read (io x) = None -> device_of x w None w
| device_no_ids Read st ids w1 : x <> 0 -> Pci_Read (io x) = Some Read ->
    Read EFI_PCI_IO_PROTOCOL_WIDTH_UINT32 0 1 4294967295 w = (st, ids, w1) -> st <> EFI_SUCCESS -> device_of x w None w1
| device_no_class Read ids w1 st class w2 : x <> 0 -> Pci_Read (io x) = Some Read ->
    Read EFI_PCI_IO_PROTOCOL_WIDTH_UINT32 0 1 4294967295 w = (EFI_SUCCESS, ids, w1) ->
    Read EFI_PCI_IO_PROTOCOL_WIDTH_UINT32 8 1 0 w1 = (st, class, w2) -> st <> EFI_SUCCESS -> device_of x w None w2
| device_other Read ids w1 class w2 : x <> 0 -> Pci_Read (io x) = Some Read ->
    Read EFI_PCI_IO_PROTOCOL_WIDTH_UINT32 0 1 4294967295 w = (EFI_SUCCESS, ids, w1) ->
    Read EFI_PCI_IO_PROTOCOL_WIDTH_UINT32 8 1 0 w1 = (EFI_SUCCESS, class, w2) ->
    (ids mod 65536 = 65535 \/ class / 16777216 mod 256 <> 3 /\ class / 16777216 mod 256 <> 4) -> device_of x w None w2
| device_shown Read ids w1 class w2 segment bus device function w3 kind : x <> 0 -> Pci_Read (io x) = Some Read ->
    Read EFI_PCI_IO_PROTOCOL_WIDTH_UINT32 0 1 4294967295 w = (EFI_SUCCESS, ids, w1) ->
    Read EFI_PCI_IO_PROTOCOL_WIDTH_UINT32 8 1 0 w1 = (EFI_SUCCESS, class, w2) ->
    ids mod 65536 <> 65535 -> shown_kind (class / 16777216 mod 256) kind ->
    location_of x w2 (segment, bus, device, function) w3 ->
    device_of x w (Some (mkDevice (ids mod 65536) (ids / 65536 mod 65536) (class / 16777216 mod 256)
      (class / 65536 mod 256) (class / 256 mod 256) kind (segment mod 256) (bus mod 256) (device mod 256) (function mod 256))) w3.

(** The devices of several interfaces, asked in order. *)
Inductive devices_of : list Z -> World -> list PCI_DEVICE_INFO -> World -> Prop :=
| devices_nil w : devices_of [] w [] w
| devices_cons x xs w d w1 ds w2 : device_of x w d w1 -> devices_of xs w1 ds w2 -> devices_of (x :: xs) w (option_list d ++ ds) w2.
End device_of.

Definition of_kind (kind : Z) (ds : list PCI_DEVICE_INFO) : Z :=
  Z.of_nat (length (filter (fun d => Kind d = kind) ds)).

(** The table after the devices [ds]: the first 32 of them, the rest of
    the array as it was. *)
Definition table (ds old : list PCI_DEVICE_INFO) : list PCI_DEVICE_INFO :=
  take 32 ds ++ drop (length (take 32 ds)) old.

(** [b] once [ds] is counted and recorded, from an empty record [b0]. *)
Definition recorded (b0 : KERNEL_BOOT_INFO) (ds : list PCI_DEVICE_INFO) : KERNEL_BOOT_INFO :=
  set_devices b0 (of_kind KERNEL_PCI_KIND_GPU ds) (of_kind KERNEL_PCI_KIND_AUDIO ds)
    (Z.of_nat (length (take 32 ds))) (table ds (PciDevices b0)).

(** [b'] is [b] with the devices [ds] counted and the first 32 of them
    recorded. *)
Record tallied (b : KERNEL_BOOT_INFO) (ds : list PCI_DEVICE_INFO) (b' : KERNEL_BOOT_INFO) : Prop := {
  t_gpu : GpuCount b' = of_kind KERNEL_PCI_KIND_GPU ds;
  t_audio : AudioCount b' = of_kind KERNEL_PCI_KIND_AUDIO ds;
  t_all : GpuCount b' + AudioCount b' = Z.of_nat (length ds);
  t_count : PciDeviceCount b' = Z.min 32 (Z.of_nat (length ds));
  t_table : take (Z.to_nat (PciDeviceCount b')) (PciDevices b') = take 32 ds;
  t_rest : drop (Z.to_nat (PciDeviceCount b')) (PciDevices b') = drop (Z.to_nat (PciDeviceCount b')) (PciDevices b);
  t_others : b' = set_devices b (GpuCount b') (AudioCount b') (PciDeviceCount b') (PciDevices b');
}.

(** A device of the table: in range, of a known kind. *)
Definition known_kind (d : PCI_DEVICE_INFO) : Prop :=
  Kind d = KERNEL_PCI_KIND_GPU \/ Kind d = KERNEL_PCI_KIND_AUDIO.

(* ------------------------------------------------------------------ *)
(** ** Lemmas: registers *)

Lemma low16 z : u16 (Z.land z 65535) = z mod 65536.
Proof.
  change 65535 with (Z.ones 16). rewrite Z.land_ones by lia. unfold u16. by rewrite Z.mod_mod.
Qed.

Lemma high16 z : u16 (Z.land (Z.shiftr z 16) 65535) = z / 65536 mod 65536.
Proof. rewrite low16. by rewrite Z.shiftr_div_pow2 by lia. Qed.

Lemma byte_at z k : 0 <= k -> u8 (Z.land (Z.shiftr z k) 255) = z / 2 ^ k mod 256.
Proof.
  intros. change 255 with (Z.ones 8). rewrite Z.land_ones, Z.shiftr_div_pow2 by lia.
  unfold u8. by rewrite Z.mod_mod.
Qed.

Lemma pci_kind_cases c : pci_kind c = 0 \/ pci_kind c = KERNEL_PCI_KIND_GPU \/ pci_kind c = KERNEL_PCI_KIND_AUDIO.
Proof. unfold pci_kind. repeat case_match; auto. Qed.

Lemma pci_kind_shown c : shown_kind c (pci_kind c) \/ pci_kind c = 0 /\ c <> 3 /\ c <> 4.
Proof.
  unfold pci_kind, shown_kind. destruct (Z.eqb_spec c 3); [by left; left|]. destruct (Z.eqb_spec c 4); [by left; right|by right].
Qed.

(* ------------------------------------------------------------------ *)
(** ** Lemmas: the table *)

Lemma of_kind_app k ds d : of_kind k (ds ++ [d]) = of_kind k ds + (if decide (Kind d = k) then 1 else 0).
Proof.
  unfold of_kind. rewrite filter_app, length_app, filter_cons, filter_nil.
  case_decide; cbn [length]; lia.
Qed.

Lemma of_kind_le k ds : 0 <= of_kind k ds <= Z.of_nat (length ds).
Proof. unfold of_kind. pose proof (length_filter (fun d => Kind d = k) ds). lia. Qed.

(** One more device, in the table or past its end. *)
Lemma table_room ds d old : length old = 32%nat -> (length ds < 32)%nat ->
  <[length ds := d]> (table ds old) = table (ds ++ [d]) old.
Proof.
  intros Hold Hds. unfold table. rewrite !take_ge by (rewrite ?length_app; cbn; lia).
  destruct (lookup_lt_is_Some_2 old (length ds)) as [x Hx]; [lia|].
  rewrite (drop_S _ _ _ Hx), insert_app_r_alt, Nat.sub_diag by lia.
  rewrite length_app, Nat.add_1_r, <- app_assoc. done.
Qed.

Lemma take_full {A} (ds : list A) d : (32 <= length ds)%nat -> take 32 (ds ++ [d]) = take 32 ds.
Proof. intros. by rewrite take_app_le. Qed.

(** Recording one more device. *)
Lemma record_app b0 ds d : length (PciDevices b0) = 32%nat ->
  Z.of_nat (length ds) < 18446744073709551615 -> known_kind d ->
  record_device (count_device (recorded b0 ds) (Kind d)) d = Done (recorded b0 (ds ++ [d])).
Proof.
  intros Hlen Hn Hk.
  assert (count_device (recorded b0 ds) (Kind d) =
    set_devices b0 (of_kind KERNEL_PCI_KIND_GPU (ds ++ [d])) (of_kind KERNEL_PCI_KIND_AUDIO (ds ++ [d]))
      (Z.of_nat (length (take 32 ds))) (table ds (PciDevices b0))) as ->.
  { pose proof (of_kind_le KERNEL_PCI_KIND_GPU ds). pose proof (of_kind_le KERNEL_PCI_KIND_AUDIO ds).
    unfold count_device, recorded, known_kind, KERNEL_PCI_KIND_GPU, KERNEL_PCI_KIND_AUDIO in *.
    rewrite !of_kind_app.
    destruct Hk as [->| ->]; unfold set_devices; cbn -[of_kind take table];
      rewrite ?u64_id by lia; f_equal; rewrite ?decide_False by done; lia. }
  unfold record_device, recorded. cbn [PciDeviceCount PciDevices GpuCount AudioCount set_devices].
  destruct (Z.ltb_spec (Z.of_nat (length (take 32 ds))) 32) as [Hlt|Hge];
    rewrite length_take in *.
  - rewrite wr_done, Nat2Z.id by (unfold table; rewrite length_app, length_drop, !length_take; lia).
    mred. rewrite (Nat.min_r 32) by lia. rewrite table_room by lia.
    rewrite u64_id by lia. unfold set_devices. do 2 f_equal. rewrite length_take, length_app. cbn [length]. lia.
  - unfold table. rewrite take_full by lia. by rewrite length_take.
Qed.

Section enumeration.
Context {World : Type} `{Firmware World}.

(** One round adds the device of the handle, if there is one. *)
Lemma pci_handle_spec handle b0 ds w : length (PciDevices b0) = 32%nat ->
  Z.of_nat (length ds) < 18446744073709551615 ->
  pci_handle handle (recorded b0 ds) w =
    let '(d, w') := device_at handle w in
    Done (recorded b0 (ds ++ match d with Some d => [d] | None => [] end), w').
Proof.
  intros Hlen Hn. unfold pci_handle, device_at.
  destruct (pci_registers handle w) as [[[[io ids] class]|] w1]; [|by rewrite app_nil_r].
  rewrite low16, high16, !byte_at by lia. change (2 ^ 24) with 16777216. change (2 ^ 16) with 65536.
  change (2 ^ 8) with 256. cbn zeta.
  destruct (Z.eqb_spec (ids mod 65536) 65535); [rewrite decide_True by auto; by rewrite app_nil_r|].
  destruct (Z.eqb_spec (pci_kind (class / 16777216 mod 256)) 0);
    [rewrite decide_True by auto; by rewrite app_nil_r|].
  rewrite decide_False by tauto. destruct (pci_location io w1) as [[[[seg bus] dev] fn] w2].
  unfold u8. set (d := mkDevice (ids mod 65536) _ _ _ _ _ _ _ _ _).
  change (count_device _ _) with (count_device (recorded b0 ds) (Kind d)).
  rewrite record_app; [done|done|done|].
  destruct (pci_kind_cases (class / 16777216 mod 256)) as [|[E|E]]; [done|by left|by right].
Qed.

(** What the loop keeps of a handle is the device of its interface. *)
Lemma device_at_of handle (w w0 : World) x : HandleProtocol handle gPciIoProtocolGuid 0 w = (EFI_SUCCESS, x, w0) ->
  device_of pci_io x w0 (device_at handle w).1 (device_at handle w).2.
Proof.
  intros E. unfold device_at, pci_registers. rewrite E. change (EFI_SUCCESS =? EFI_SUCCESS) with true. cbn [negb orb].
  destruct (Z.eqb_spec x 0) as [|Hx]; [by apply device_null|]. destruct (Pci_Read (pci_io x)) as [Read|] eqn:ER; [|by apply device_mute].
  destruct (Read _ 0 _ _ _) as [[s1 ids] w1] eqn:E1. destruct (Z.eqb_spec s1 EFI_SUCCESS) as [->|]; cbn [negb]; [|by eapply device_no_ids].
  destruct (Read _ 8 _ _ _) as [[s2 class] w2] eqn:E2. destruct (Z.eqb_spec s2 EFI_SUCCESS) as [->|]; cbn [negb]; [|by eapply device_no_class].
  cbn zeta. pose proof (pci_kind_shown (class / 16777216 mod 256)) as Hk. case_decide as Hd.
  - eapply device_other; [done..|]. destruct Hd as [|Hz]; [by left|right]. destruct Hk as [Hk|[_ Hk]]; [|exact Hk].
    destruct Hk as [[_ Hk]|[_ Hk]]; by rewrite Hk in Hz.
  - assert (shown_kind (class / 16777216 mod 256) (pci_kind (class / 16777216 mod 256))) as Hs by (destruct Hk as [|[]]; [done|tauto]).
    unfold pci_location. destruct (GetLocation (pci_io x)) as [get|] eqn:EG.
    + destruct (get (0, 0, 0, 0) w2) as [[st [[[seg bus] dev] fn]] w3] eqn:E3.
      eapply device_shown; [done..|tauto|done|]. by eapply location_told.
    + change 0 with (0 mod 256) at 5. eapply device_shown; [done..|tauto|done|]. by apply location_unknown.
Qed.

Lemma found_length handles w : (length (found_devices handles w).1 <= length handles)%nat.
Proof.
  revert w. induction handles as [|h handles IH]; intros w; [done|]. cbn [found_devices].
  destruct (device_at h w) as [d w1]. specialize (IH w1).
  destruct (found_devices handles w1) as [ds w2]. destruct d; cbn in *; lia.
Qed.

(** The loop over the rest of the handles. *)
Lemma handles_loop pre handles b0 ds w : length (PciDevices b0) = 32%nat ->
  (length ds <= length pre)%nat -> Z.of_nat (length (pre ++ handles)) < 18446744073709551616 ->
  for_loop (length handles) (Z.of_nat (length pre)) 1 (fun i '(b, w) =>
    handle ← rd (pre ++ handles) i; pci_handle handle b w) (recorded b0 ds, w) =
  let '(ds', w') := found_devices handles w in Done (recorded b0 (ds ++ ds'), w').
Proof.
  intros Hlen. revert pre ds w. induction handles as [|h handles IH]; intros pre ds w Hds Hn.
  - cbn. by rewrite app_nil_r.
  - cbn [length for_loop found_devices]. rewrite length_app in Hn. cbn [length] in Hn.
    assert (rd (pre ++ h :: handles) (Z.of_nat (length pre)) = Done h) as ->.
    { unfold rd. rewrite decide_True, Nat2Z.id, lookup_app_r, Nat.sub_diag by lia. done. }
    mred. rewrite pci_handle_spec by (done || lia). destruct (device_at h w) as [d w1]. mred.
    replace (Z.of_nat (length pre) + 1) with (Z.of_nat (length (pre ++ [h]))) by (rewrite length_app; cbn; lia).
    rewrite (cons_middle h pre handles), app_assoc.
    rewrite IH; [|rewrite !length_app; destruct d; cbn; lia|rewrite !length_app; cbn; lia].
    destruct (found_devices handles w1) as [ds' w2]. rewrite <- app_assoc. by destruct d.
Qed.

(** The boot record before the enumeration, its counters at zero. *)
Definition no_devices (b : KERNEL_BOOT_INFO) : Prop :=
  GpuCount b = 0 /\ AudioCount b = 0 /\ PciDeviceCount b = 0 /\ length (PciDevices b) = 32%nat.

Lemma recorded_none b : no_devices b -> recorded b [] = b.
Proof. intros (E1 & E2 & E3 & _). unfold recorded, set_devices, table. destruct b. cbn in *. by subst. Qed.

Lemma CollectPciDevices_spec `{!FirmwareWf World} b w : no_devices b ->
  CollectPciDevices b w = Done (recorded b (enumerate w).1, (enumerate w).2).
Proof.
  intros Hb. unfold CollectPciDevices, enumerate.
  destruct (LocateHandleBuffer _ _ _ _) as [[[st n] [p l]] w1] eqn:E.
  destruct (Z.eqb_spec st EFI_SUCCESS) as [Hst|]; cbn [negb orb].
  - destruct (Z.eqb_spec p 0) as [|Hp].
    + rewrite decide_False by tauto. cbn [fst snd]. by rewrite recorded_none.
    + rewrite decide_True by done. destruct (handle_buffer _ _ _ _ _ _ _ _ _ E Hst Hp) as [Hn Hl].
      pose proof (handles_loop [] l b [] w1) as Hloop. cbn [app length] in Hloop. change (Z.of_nat 0) with 0 in Hloop.
      rewrite (recorded_none b Hb) in Hloop. unfold for_count, for_range.
      replace (Z.to_nat ((n - 0 + 1 - 1) / 1)) with (length l) by (rewrite Z.div_1_r; lia).
      rewrite Hloop by (apply Hb || lia). destruct (found_devices l w1) as [ds w2]. done.
  - rewrite decide_False by tauto. cbn [fst snd]. by rewrite recorded_none.
Qed.

(** Every device found is one the console can show. *)
Lemma device_at_ok handle w d w' : device_at handle w = (Some d, w') -> device_ok d /\ known_kind d.
Proof.
  unfold device_at. destruct (pci_registers handle w) as [[[[io ids] class]|] w1]; [|done]. cbn zeta.
  case_decide as Hd; [done|]. destruct (pci_location io w1) as [[[[seg bus] dev] fn] w2]. intros [= <- _].
  split; [|destruct (pci_kind_cases (class / 16777216 mod 256)) as [|[E|E]]; [tauto|by left|by right]].
  split; cbn; apply Z.mod_pos_bound; lia.
Qed.

Lemma found_ok handles w : Forall (fun d => device_ok d /\ known_kind d) (found_devices handles w).1.
Proof.
  revert w. induction handles as [|h handles IH]; intros w; [by constructor|]. cbn [found_devices].
  destruct (device_at h w) as [d w1] eqn:E. specialize (IH w1).
  destruct (found_devices handles w1) as [ds w2]. destruct d; [|done].
  constructor; [by eapply device_at_ok|done].
Qed.

Lemma enumerate_ok w : Forall (fun d => device_ok d /\ known_kind d) (enumerate w).1.
Proof.
  unfold enumerate. destruct (LocateHandleBuffer _ _ _ _) as [[[st n] [p l]] w1].
  case_decide; [|by constructor]. pose proof (found_ok l w1). by destruct (found_devices l w1).
Qed.

Lemma recorded_ok b ds : blendable (BootFramebuffer b) -> length (PciDevices b) = 32%nat ->
  Forall device_ok (PciDevices b) -> Forall device_ok ds -> boot_ok (recorded b ds).
Proof.
  intros Hb Hlen Hold Hds. split; [done| |].
  - cbn [recorded set_devices PciDeviceCount PciDevices]. unfold table. rewrite length_app. lia.
  - cbn [recorded set_devices PciDevices]. unfold table. apply Forall_app. split; [by apply Forall_take|by apply Forall_drop].
Qed.

Lemma recorded_tallied b ds : length (PciDevices b) = 32%nat -> Forall known_kind ds -> tallied b ds (recorded b ds).
Proof.
  intros Hlen Hk. unfold recorded.
  split; cbn [set_devices GpuCount AudioCount PciDeviceCount PciDevices]; rewrite ?Nat2Z.id; try done.
  - induction Hk as [|d ds Hd _ IH]; [done|].
    unfold of_kind in *. rewrite !filter_cons.
    destruct Hd as [->| ->]; unfold KERNEL_PCI_KIND_GPU, KERNEL_PCI_KIND_AUDIO in *; cbn [length];
      repeat case_decide; try done; cbn [length]; lia.
  - rewrite length_take. lia.
  - unfold table. by rewrite take_app_length.
  - unfold table. by rewrite drop_app_length.
Qed.
End enumeration.

(* ------------------------------------------------------------------ *)
(** ** Properties *)

Definition demo_record : KERNEL_BOOT_INFO :=
  mkBoot (demo_fb 4096) 0 0 0 0 0 0 0 0 0 0 0 0 (replicate 32 (mkDevice 0 0 0 0 0 0 0 0 0 0)).

(** Whatever the firmware's handles answer, the enumeration completes without
    leaving the table: it counts every display adapter and audio controller found,
    in order, keeps the first 32 of them and every other field of the boot record,
    and the record is one the status screen can show. *)
Theorem CollectPciDevices_correct {World : Type} `{Firmware World, !FirmwareWf World} b (w : World) :
  no_devices b -> blendable (BootFramebuffer b) -> Forall device_ok (PciDevices b) ->
  exists b' w', CollectPciDevices b w = Done (b', w') /\ tallied b (enumerate w).1 b' /\ boot_ok b'.
Proof.
  intros Hb Hblend Hold. exists (recorded b (enumerate w).1), (enumerate w).2.
  split; [by apply CollectPciDevices_spec|]. pose proof (enumerate_ok w) as Hok. destruct Hb as (_ & _ & _ & Hlen).
  split; [apply recorded_tallied|apply recorded_ok]; try done; (eapply Forall_impl; [exact Hok|]); by intros d [].
Qed.

Lemma CollectPciDevices_correct_witness : exists b' w',
  CollectPciDevices demo_record (mkMachine [] 4096 0 0 0) = Done (b', w') /\
  GpuCount b' = 1 /\ AudioCount b' = 0 /\ PciDeviceCount b' = 1.
Proof.
  destruct (CollectPciDevices_correct demo_record (mkMachine [] 4096 0 0 0))
    as (b' & w' & E & [E1 E2 _ E3 _ _ _] & _).
  - by split_and!.
  - apply demo_blendable.
  - apply Forall_replicate. split; cbn; lia.
  - exists b', w'. split; [exact E|]. split; [exact E1|]. split; [exact E2|exact E3].
Defined.
