(* ===== verification/Boot.v ===== *)
(** * The boot application

    [EfiMain] and the parts of it that talk to the firmware:
    [InitializeFramebuffer], [EstimateTscTicksPerSecond], the allocation of
    the shadow and compose surfaces and [ExitBootServicesForKernel].
    [efi_boot] is [EfiMain] up to its call of the kernel loop, which only
    returns with an error; the loop itself is run for a number of rounds. *)
From Stdlib Require Import ZArith Lia String.
From stdpp Require Import base gmap list.
From S2P Require Import Prelude Surface Pixel Assets Text Cursor Pointer Ps2 Image Console SetupUi.
From S2P Require Import Kernel Unshadowed Firmware Pci.
#[local] Open Scope Z_scope.

(* ------------------------------------------------------------------ *)
(** ** Data *)

(** The boot record as [EfiMain] initialises it; [devices] is what the
    stack held in the table. *)
Definition initial_boot (fb : FRAMEBUFFER_INFO) (devices : list PCI_DEVICE_INFO) : KERNEL_BOOT_INFO :=
  mkBoot fb 0 0 0 0 0 0 0 0 0 0 0 0 devices.

Definition set_TscTicksPerSecond (b : KERNEL_BOOT_INFO) (ticks : Z) : KERNEL_BOOT_INFO :=
  mkBoot (BootFramebuffer b) (ShadowFramebuffer b) (ComposeFramebuffer b) ticks
    (MemoryMap b) (MemoryMapSize b) (MemoryMapKey b) (MemoryDescriptorSize b)
    (MemoryDescriptorVersion b) (MemoryDescriptorCount b) (GpuCount b) (AudioCount b)
    (PciDeviceCount b) (PciDevices b).

Definition set_surfaces (b : KERNEL_BOOT_INFO) (shadow compose : Z) : KERNEL_BOOT_INFO :=
  mkBoot (BootFramebuffer b) shadow compose (TscTicksPerSecond b)
    (MemoryMap b) (MemoryMapSize b) (MemoryMapKey b) (MemoryDescriptorSize b)
    (MemoryDescriptorVersion b) (MemoryDescriptorCount b) (GpuCount b) (AudioCount b)
    (PciDeviceCount b) (PciDevices b).

(** The memory map in the boot record. *)
Definition set_map (b : KERNEL_BOOT_INFO) (map : Z) (args : MAP_ARGS) : KERNEL_BOOT_INFO :=
  mkBoot (BootFramebuffer b) (ShadowFramebuffer b) (ComposeFramebuffer b) (TscTicksPerSecond b)
    map (MapSize args) (MapKey args) (DescriptorSize args) (DescriptorVersion args)
    (if DescriptorSize args =? 0 then 0 else MapSize args / DescriptorSize args)
    (GpuCount b) (AudioCount b) (PciDeviceCount b) (PciDevices b).

(* ------------------------------------------------------------------ *)
(** ** Operations *)

Section boot.
Context {World : Type} `{Firmware World}.

(** The status, the descriptor as far as it was filled in, the stall
    service and the world. *)
Definition InitializeFramebuffer (fb : FRAMEBUFFER_INFO) (w : World)
    : Z * FRAMEBUFFER_INFO * option (Z -> World -> World) * World :=
  let stallOut := Stall in
  let '(status, graphicsOutputProtocol, w) := LocateProtocol gGraphicsOutputProtocolGuid 0 w in
  if (negb (status =? EFI_SUCCESS) || (graphicsOutputProtocol =? 0))%bool then
    ((if negb (status =? EFI_SUCCESS) then status else EFI_UNSUPPORTED), fb, stallOut, w)
  else
    let modeBytes := peek64 (u64 (graphicsOutputProtocol + GOP_MODE_OFFSET)) w in
    let infoBytes := peek64 (u64 (modeBytes + GOP_MODE_INFO_OFFSET)) w in
    let fb := mkFB
      (peek32 (u64 (infoBytes + GOP_INFO_HORIZONTAL_RESOLUTION_OFFSET)) w)
      (peek32 (u64 (infoBytes + GOP_INFO_VERTICAL_RESOLUTION_OFFSET)) w)
      (peek32 (u64 (infoBytes + GOP_INFO_PIXELS_PER_SCANLINE_OFFSET)) w)
      (peek32 (u64 (infoBytes + GOP_INFO_PIXEL_FORMAT_OFFSET)) w)
      (peek32 (u64 (infoBytes + GOP_INFO_RED_MASK_OFFSET)) w)
      (peek32 (u64 (infoBytes + GOP_INFO_GREEN_MASK_OFFSET)) w)
      (peek32 (u64 (infoBytes + GOP_INFO_BLUE_MASK_OFFSET)) w)
      (Framebuffer fb) in
    if PixelFormat fb =? GOP_PIXEL_BLT_ONLY then (EFI_UNSUPPORTED, fb, stallOut, w)
    else
      let fb := set_Framebuffer fb (peek64 (u64 (modeBytes + GOP_MODE_FRAMEBUFFER_BASE_OFFSET)) w) in
      let framebufferSizeBytes := peek64 (u64 (modeBytes + GOP_MODE_FRAMEBUFFER_SIZE_OFFSET)) w in
      let maxPixels := u32 (framebufferSizeBytes / 4) in
      let totalPixels := u32 (PixelsPerScanLine fb * ScreenHeight fb) in
      ((if maxPixels <? totalPixels then EFI_UNSUPPORTED else EFI_SUCCESS), fb, stallOut, w).

Definition EstimateTscTicksPerSecond (stall : option (Z -> World -> World)) (w : World) : Z * World :=
  match stall with
  | None => (0, w)
  | Some stall =>
      let '(startTicks, w) := rdtsc w in
      let w := stall 50000 w in
      let '(endTicks, w) := rdtsc w in
      let deltaTicks := u64 (endTicks - startTicks) in
      if deltaTicks =? 0 then (0, w) else (u64 (deltaTicks * 20), w)
  end.

(** The [for (;;)] of [ExitBootServicesForKernel]. *)
Fixpoint exit_loop (fuel : nat) (ImageHandle MemoryMap MemoryMapSize : Z) (args : MAP_ARGS)
    (b : KERNEL_BOOT_INFO) (w : World) : outcome (Z * KERNEL_BOOT_INFO * World) :=
  match fuel with
  | O => Fault Diverges
  | S fuel =>
      let '(Status, args, w) :=
        GetMemoryMap (mkMap MemoryMapSize (MapKey args) (DescriptorSize args) (DescriptorVersion args))
          MemoryMap w in
      if negb (Status =? EFI_SUCCESS) then Done (Status, b, w) else
      let b := set_map b MemoryMap args in
      let '(Status, w) := ExitBootServices ImageHandle (MapKey args) w in
      if Status =? EFI_SUCCESS then Done (EFI_SUCCESS, b, w) else
      if negb (Status =? EFI_INVALID_PARAMETER) then Done (Status, b, w) else
      exit_loop fuel ImageHandle MemoryMap MemoryMapSize args b w
  end.

Definition ExitBootServicesForKernel (fuel : nat) (ImageHandle : Z) (b : KERNEL_BOOT_INFO)
    (m : mem) (w : World) : outcome (Z * KERNEL_BOOT_INFO * mem * World) :=
  let '(Status, args, w) := GetMemoryMap (mkMap 0 0 0 0) 0 w in
  if negb (Status =? EFI_BUFFER_TOO_SMALL) then Done (Status, b, m, w) else
  let MemoryMapSize := u64 (MapSize args + u64 (DescriptorSize args * 8)) in
  let '(Status, MemoryMap, w, m) := AllocatePool EFI_BOOT_SERVICES_DATA MemoryMapSize 0 w m in
  if negb (Status =? EFI_SUCCESS) then Done (Status, b, m, w) else
  '(Status, b, w) ← exit_loop fuel ImageHandle MemoryMap MemoryMapSize args b w;
  Done (Status, b, m, w).

(** The shadow surface, a copy of the screen, and the compose surface, a
    copy of the shadow or of the screen; null where the pool has no room. *)
Definition efi_surfaces (fb : FRAMEBUFFER_INFO) (b : KERNEL_BOOT_INFO) (m : mem) (w : World)
    : outcome (KERNEL_BOOT_INFO * mem * World) :=
  let shadowPixelCount := u32 (PixelsPerScanLine fb * ScreenHeight fb) in
  let shadowFramebufferBytes := u64 (shadowPixelCount * 4) in
  let '(status, shadow, w, m) :=
    AllocatePool EFI_BOOT_SERVICES_DATA shadowFramebufferBytes (ShadowFramebuffer b) w m in
  '(shadow, m) ←
    (if ((status =? EFI_SUCCESS) && negb (shadow =? 0))%bool then
       m ← CopyPixels32 shadow (Framebuffer fb) shadowPixelCount m; Done (shadow, m)
     else Done (0, m));
  let '(status, compose, w, m) :=
    AllocatePool EFI_BOOT_SERVICES_DATA shadowFramebufferBytes (ComposeFramebuffer b) w m in
  '(compose, m) ←
    (if ((status =? EFI_SUCCESS) && negb (compose =? 0))%bool then
       m ← (if negb (shadow =? 0) then CopyPixels32 compose shadow shadowPixelCount m
            else CopyPixels32 compose (Framebuffer fb) shadowPixelCount m);
       Done (compose, m)
     else Done (0, m));
  Done (set_surfaces b shadow compose, m, w).

Context `{Assets}.

(** A call of the stall service through its pointer. *)
Definition call_stall (stall : option (Z -> World -> World)) : outcome (Z -> World -> World) :=
  match stall with Some stall => Done stall | None => Fault OutOfBounds end.

(** The loader's four lines of text. *)
Definition efi_banner (fb : FRAMEBUFFER_INFO) (m : mem) : outcome mem :=
  m ← DrawTextString fb 24 18 (Some (str "Dragon OS Loader")) 255 255 255 m;
  m ← DrawTextString fb 24 52 (Some (str "Collecting framebuffer, PCI, and memory-map info...")) 180 220 255 m;
  m ← DrawTextString fb 24 86 (Some gRuntimeSummaryText) 180 180 255 m;
  DrawTextString fb 24 114 (Some gRuntimeVideoText) 255 200 160 m.

(** [EfiMain] up to [RunKernelMouseLoop].  [fb0] and [devices] are what the
    stack held. *)
Definition efi_boot (fuel : nat) (imageHandle : Z) (fb0 : FRAMEBUFFER_INFO)
    (devices : list PCI_DEVICE_INFO) (m : mem) (w : World)
    : outcome (Z * KERNEL_BOOT_INFO * mem * World) :=
  let '(status, fb, stall, w) := InitializeFramebuffer fb0 w in
  if negb (status =? EFI_SUCCESS) then Done (status, initial_boot fb devices, m, w) else
  black ← ComposeFor fb 0 0 0;
  m ← ClearScreen fb black 0 m;
  call ← call_stall stall;
  '(m, w) ← PlaySplashSequence fb call m w;
  black ← ComposeFor fb 0 0 0;
  m ← ClearScreen fb black 0 m;
  let b := initial_boot fb devices in
  let '(ticks, w) := EstimateTscTicksPerSecond stall w in
  let b := set_TscTicksPerSecond b ticks in
  '(b, m, w) ← efi_surfaces fb b m w;
  m ← efi_banner fb m;
  let w := call 250000 w in
  '(b, w) ← CollectPciDevices b w;
  ExitBootServicesForKernel fuel imageHandle b m w.

(** [EfiMain] returns only with an error. *)
Inductive efi_result : Type :=
| Returned (status : Z) (m : mem) (w : World)
| Running (k : KERNEL_STATE World).

Definition EfiMain `{PortIO World} (rounds fuel : nat) (imageHandle : Z) (fb0 : FRAMEBUFFER_INFO)
    (devices : list PCI_DEVICE_INFO) (c0 : SOFTWARE_CURSOR) (s0 : PS2_MOUSE_STATE)
    (u0 : SETUP_UI_STATE) (m : mem) (w : World) : outcome efi_result :=
  '(status, b, m, w) ← efi_boot fuel imageHandle fb0 devices m w;
  if negb (status =? EFI_SUCCESS) then Done (Returned status m w) else
  k ← RunKernelMouseLoop rounds b c0 s0 u0 m w;
  Done (Running k).
End boot.
Arguments efi_result : clear implicits.
Arguments Returned {World}.
Arguments Running {World}.

(* ------------------------------------------------------------------ *)
(** ** Specification vocabulary *)

(** [sv] is the surface behind the cursor's saved pixels.  The surfaces a
    boot record names are mapped and apart; a null one was not allocated. *)
Record surfaces_ok (fb sv : FRAMEBUFFER_INFO) (shadow compose : Z) (m : mem) : Prop := {
  surfaces_fb : ready fb m;
  surfaces_sv : ready sv m;
  surfaces_shadow : shadow <> 0 ->
    let s := set_Framebuffer fb shadow in
    ready s m /\ disjoint_surfaces fb s /\ disjoint_surfaces sv s;
  surfaces_compose : compose <> 0 ->
    let k := set_Framebuffer fb compose in
    ready k m /\ disjoint_surfaces fb k /\ disjoint_surfaces sv k /\
    (shadow <> 0 -> disjoint_surfaces (set_Framebuffer fb shadow) k);
}.

(** The firmware gave up the machine for the map in the boot record: its
    last two calls returned that map, then accepted its key. *)
Definition handed_off {World} `{Firmware World} (handle : Z) (b b' : KERNEL_BOOT_INFO) (w' : World) : Prop :=
  exists args0 args w1 w2,
    GetMemoryMap args0 (MemoryMap b') w1 = (EFI_SUCCESS, args, w2) /\
    ExitBootServices handle (MemoryMapKey b') w2 = (EFI_SUCCESS, w') /\
    b' = set_map b (MemoryMap b') args.

(* ------------------------------------------------------------------ *)
(** ** Lemmas: surfaces in the pool *)

Lemma ready_grows fb m m' : ready fb m -> m ⊆ m' -> mem_wf m' -> ready fb m'.
Proof.
  intros [Hfb _ Hmap] Hsub Hm'. split; [done..|]. intros x y Hb.
  destruct (Hmap x y Hb) as [v Hv]. exists v. by eapply lookup_weaken.
Qed.

(** A pool as large as [fb] is a surface of its shape. *)
Lemma pool_ready fb p m m' : fb_wf fb -> pool p (PixelsPerScanLine fb * ScreenHeight fb) m m' ->
  ready (set_Framebuffer fb p) m'.
Proof.
  intros Hfb (_ & Hm' & (Hp & Htop & Hmap) & _).
  assert (fb_wf (set_Framebuffer fb p)) as Hwf by (destruct Hfb; by split).
  split; [done..|]. intros x y Hb. pose proof (pix_in_range _ x y Hwf Hb) as Hr. by apply Hmap.
Qed.

Lemma pool_apart fb s p m m' : fb_wf fb -> ready s m ->
  pool p (PixelsPerScanLine fb * ScreenHeight fb) m m' -> disjoint_surfaces s (set_Framebuffer fb p).
Proof.
  intros Hfb [_ _ Hs] (_ & _ & _ & Hfree) x y x' y' Hb Hb' E.
  destruct (Hs x y Hb) as [v Hv]. rewrite E in Hv. unfold pix in Hv.
  change (Framebuffer (set_Framebuffer fb p)) with p in Hv.
  change (PixelsPerScanLine (set_Framebuffer fb p)) with (PixelsPerScanLine fb) in Hv.
  rewrite Hfree in Hv; [done|]. exact (pix_in_range fb x' y' Hfb Hb').
Qed.

(** Two surfaces of one shape: a whole copy, seen from the surfaces. *)
Lemma copy_ready d s m : ready d m -> ready s m -> disjoint_surfaces d s ->
  PixelsPerScanLine s = PixelsPerScanLine d -> ScreenHeight s = ScreenHeight d ->
  exists m', CopyPixels32 (Framebuffer d) (Framebuffer s) (u32 (PixelsPerScanLine d * ScreenHeight d)) m
      = Done m' /\ dom m' = dom m /\ mem_wf m'.
Proof.
  intros Hd Hs Hds Ep Eh.
  pose proof (ready_fb _ _ Hd) as Hdf. pose proof (ready_fb _ _ Hs) as Hsf. pose proof Hdf as [].
  pose proof (buffer_cells d m Hd) as Hcd. pose proof (buffer_cells s m Hs) as Hcs. rewrite Ep, Eh in Hcs.
  assert (0 <= PixelsPerScanLine d * ScreenHeight d) by (apply Z.mul_nonneg_nonneg; lia).
  rewrite u32_id by lia.
  destruct (copy_spec (Framebuffer d) (Framebuffer s) (PixelsPerScanLine d * ScreenHeight d) m)
    as (m' & E & Hwf & [Hdom _] & _); [lia|by eapply ready_mem|done|done| |by exists m'].
  intros i j Hi Hj. destruct (cell_pix d i Hdf Hi) as (x & y & Hb & ->).
  destruct (cell_pix s j Hsf) as (x' & y' & Hb' & ->); [by rewrite Ep, Eh|]. by apply Hds.
Qed.

Lemma ready_dom fb m m' : ready fb m -> dom m' = dom m -> mem_wf m' -> ready fb m'.
Proof.
  intros [Hfb _ Hmap] Hd Hm'. split; [done..|]. intros x y Hb. apply elem_of_dom. rewrite Hd.
  apply elem_of_dom. by apply Hmap.
Qed.

Section alloc.
Context {World : Type} `{Firmware World, !FirmwareWf World}.

(** One of the two allocations with its copy. *)
Lemma grow_surface fb src (others : list FRAMEBUFFER_INFO) old m (w : World) :
  Forall (fun s => ready s m) (src :: others) -> fb_wf fb ->
  PixelsPerScanLine src = PixelsPerScanLine fb -> ScreenHeight src = ScreenHeight fb ->
  exists st p w' m', AllocatePool EFI_BOOT_SERVICES_DATA
      (u64 (u32 (PixelsPerScanLine fb * ScreenHeight fb) * 4)) old w m = (st, p, w', m') /\
    if ((st =? EFI_SUCCESS) && negb (p =? 0))%bool then
      exists m'', CopyPixels32 p (Framebuffer src) (u32 (PixelsPerScanLine fb * ScreenHeight fb)) m' = Done m'' /\
        Forall (fun s => ready s m'') (set_Framebuffer fb p :: src :: others) /\
        Forall (fun s => disjoint_surfaces s (set_Framebuffer fb p)) (src :: others)
    else m' = m.
Proof.
  intros Hr Hfb Ep Eh. pose proof Hfb as [].
  assert (0 <= PixelsPerScanLine fb * ScreenHeight fb) by (apply Z.mul_nonneg_nonneg; lia).
  destruct (AllocatePool _ _ _ _ _) as [[[st p] w'] m'] eqn:E. exists st, p, w', m'. split; [done|].
  assert (mem_wf m) as Hm by (apply Forall_cons in Hr as [Hsrc _]; apply Hsrc).
  pose proof (alloc_pool _ _ _ _ _ _ _ _ _ (u64_range _) Hm E) as Hp.
  destruct (Z.eqb_spec st EFI_SUCCESS), (Z.eqb_spec p 0); cbn [andb negb];
    try (rewrite decide_False in Hp by tauto; done).
  rewrite decide_True in Hp by done. rewrite u32_id, u64_id, Z.div_mul in Hp by lia.
  assert (ready (set_Framebuffer fb p) m') as Hnew by (by eapply pool_ready).
  assert (Forall (fun s => disjoint_surfaces s (set_Framebuffer fb p)) (src :: others)) as Hdis.
  { eapply Forall_impl; [exact Hr|]. intros s Hs. exact (pool_apart fb s p m m' Hfb Hs Hp). }
  assert (Forall (fun s => ready s m') (src :: others)) as Hr'.
  { eapply Forall_impl; [exact Hr|]. intros s Hs. destruct Hp as (Hsub & Hwf & _). exact (ready_grows s m m' Hs Hsub Hwf). }
  destruct (copy_ready (set_Framebuffer fb p) src m') as (m'' & Ec & Hdom & Hwf); try done.
  { by apply Forall_cons in Hr' as [? _]. }
  { apply disjoint_sym. by apply Forall_cons in Hdis as [? _]. }
  exists m''. split; [exact Ec|]. split; [|done].
  apply Forall_cons. split; [by eapply ready_dom|].
  eapply Forall_impl; [exact Hr'|]. intros s Hs. exact (ready_dom s m' m'' Hs Hdom Hwf).
Qed.

Lemma efi_surfaces_spec fb sv b m (w : World) : ready fb m -> ready sv m ->
  exists shadow compose m' w', efi_surfaces fb b m w = Done (set_surfaces b shadow compose, m', w') /\
    surfaces_ok fb sv shadow compose m'.
Proof.
  intros Hfb Hsv. unfold efi_surfaces. cbn zeta. pose proof (ready_fb _ _ Hfb) as Hwf.
  destruct (grow_surface fb fb [sv] (ShadowFramebuffer b) m w) as (st & p & w1 & m1 & -> & Hp);
    [eauto using Forall_cons_2, Forall_nil_2|done..|].
  destruct (_ && _)%bool eqn:E1.
  - destruct Hp as (m2 & -> & Hr2 & Hd2). mred.
    apply andb_true_iff in E1 as [_ E1]. apply negb_true_iff, Z.eqb_neq in E1.
    destruct (grow_surface fb (set_Framebuffer fb p) [fb; sv] (ComposeFramebuffer b) m2 w1)
      as (st' & q & w2 & m3 & -> & Hq); [done..|].
    apply Z.eqb_neq in E1 as E1'. rewrite E1'. cbn [negb].
    rewrite !Forall_cons in Hr2. rewrite !Forall_cons in Hd2. destruct Hr2 as (Hs2 & Hf2 & Hv2 & _), Hd2 as (Hfs & Hvs & _).
    destruct (_ && _)%bool eqn:E2.
    + destruct Hq as (m4 & E & Hr4 & Hd4). change (Framebuffer (set_Framebuffer fb p)) with p in E.
      rewrite E. mred. exists p, q, m4, w2. split; [done|].
      rewrite !Forall_cons in Hr4. rewrite !Forall_cons in Hd4. destruct Hr4 as (? & ? & ? & ? & _), Hd4 as (? & ? & ? & _).
      by split.
    + subst m3. mred. exists p, 0, m2, w2. split; [done|]. by split.
  - clear E1. subst m1. mred. change (negb (0 =? 0)) with false. mred.
    destruct (grow_surface fb fb [sv] (ComposeFramebuffer b) m w1) as (st' & q & w2 & m3 & -> & Hq);
      [eauto using Forall_cons_2, Forall_nil_2|done..|].
    destruct (_ && _)%bool eqn:E2.
    + destruct Hq as (m4 & -> & Hr4 & Hd4). mred. exists 0, q, m4, w2. split; [done|].
      rewrite !Forall_cons in Hr4. rewrite !Forall_cons in Hd4. destruct Hr4 as (? & ? & ? & _), Hd4 as (? & ? & _). by split.
    + subst m3. mred. exists 0, 0, m, w2. split; [done|]. by split.
Qed.
End alloc.

Lemma surfaces_ok_dom fb sv shadow compose m m' : surfaces_ok fb sv shadow compose m ->
  (forall s, ready s m -> ready s m') -> surfaces_ok fb sv shadow compose m'.
Proof.
  intros [Hf Hv Hs Hk] Hr. split; [auto..| |].
  - intros Hne. destruct (Hs Hne) as (? & ? & ?). auto.
  - intros Hne. destruct (Hk Hne) as (? & ? & ? & ?). auto.
Qed.

(* ------------------------------------------------------------------ *)
(** ** Lemmas: leaving the boot services *)

Section exit.
Context {World : Type} `{Firmware World, !FirmwareWf World}.

(** The retry loop ends once the firmware has run out of stale keys. *)
Lemma exit_loop_spec handle p size args b (w : World) : exists st b' w',
  (forall fuel, (stale w < fuel)%nat -> exit_loop fuel handle p size args b w = Done (st, b', w')) /\
  (exists args', b' = b \/ b' = set_map b p args') /\
  (st = EFI_SUCCESS -> handed_off handle b b' w').
Proof.
  remember (stale w) as n eqn:En. revert args b w En.
  induction (lt_wf n) as [n _ IH]. intros args b w ->.
  destruct (GetMemoryMap (mkMap size (MapKey args) (DescriptorSize args) (DescriptorVersion args)) p w)
    as [[st args1] w1] eqn:Em. pose proof (stale_map _ _ _ _ _ _ Em) as Hle.
  destruct (decide (st = EFI_SUCCESS)) as [->|Hst]; cycle 1.
  { exists st, b, w1. split; [|split; [exists args; by left|done]]. intros [|fuel] Hf; [lia|]. cbn [exit_loop].
    rewrite Em. apply Z.eqb_neq in Hst. by rewrite Hst. }
  destruct (ExitBootServices handle (MapKey args1) w1) as [st2 w2] eqn:Ex.
  destruct (decide (st2 = EFI_INVALID_PARAMETER)) as [->|Hinv].
  - pose proof (stale_exit _ _ _ _ _ _ _ Em Ex).
    destruct (IH (stale w2) ltac:(lia) args1 (set_map b p args1) w2 eq_refl)
      as (st' & b' & w' & Hrun & (args' & Hb') & Hok).
    exists st', b', w'. split; [|split].
    + intros [|fuel] Hf; [lia|]. cbn [exit_loop]. rewrite Em. cbn -[exit_loop set_map]. rewrite Ex.
      cbn -[exit_loop set_map]. apply Hrun. lia.
    + destruct Hb' as [->| ->]; [exists args1|exists args']; by right.
    + intros E. destruct (Hok E) as (a0 & a & v1 & v2 & ? & ? & Eb). exists a0, a, v1, v2. by split_and!.
  - exists (if decide (st2 = EFI_SUCCESS) then EFI_SUCCESS else st2), (set_map b p args1), w2.
    split; [|split; [exists args1; by right|]].
    + intros [|fuel] Hf; [lia|]. cbn [exit_loop]. rewrite Em. cbn -[exit_loop set_map]. rewrite Ex.
      destruct (Z.eqb_spec st2 EFI_SUCCESS); [by rewrite decide_True|].
      rewrite decide_False by done. apply Z.eqb_neq in Hinv. by rewrite Hinv.
    + intros E. assert (st2 = EFI_SUCCESS) as -> by (by destruct (decide (st2 = EFI_SUCCESS))).
      exists (mkMap size (MapKey args) (DescriptorSize args) (DescriptorVersion args)), args1, w, w1.
      split; [exact Em|]. split; [|done]. exact Ex.
Qed.

Lemma exit_spec handle b m (w : World) : mem_wf m -> exists st b' m' w' n,
  (forall fuel, (n <= fuel)%nat -> ExitBootServicesForKernel fuel handle b m w = Done (st, b', m', w')) /\
  m ⊆ m' /\ mem_wf m' /\ (b' = b \/ exists p args, b' = set_map b p args) /\
  (st = EFI_SUCCESS -> handed_off handle b b' w').
Proof.
  intros Hm. unfold ExitBootServicesForKernel.
  destruct (GetMemoryMap _ _ _) as [[st args] w1] eqn:Em.
  destruct (Z.eqb_spec st EFI_BUFFER_TOO_SMALL) as [->|Hst]; cbn [negb]; cycle 1.
  { exists st, b, m, w1, O. split_and!; auto. intros ->. by destruct (map_null _ _ _ _ _ Em). }
  set (size := u64 (MapSize args + u64 (DescriptorSize args * 8))).
  destruct (AllocatePool _ _ _ _ _) as [[[st2 p] w2] m2] eqn:Ea.
  pose proof (alloc_pool _ _ _ _ _ _ _ _ _ (u64_range _) Hm Ea) as Hp.
  assert (m ⊆ m2 /\ mem_wf m2) as [Hsub Hm2].
  { destruct (decide _) as [_|_]; [by destruct Hp as (? & ? & _)|by subst]. }
  destruct (Z.eqb_spec st2 EFI_SUCCESS) as [->|Hst2]; cbn [negb]; cycle 1.
  { exists st2, b, m2, w2, O. split_and!; auto. done. }
  destruct (exit_loop_spec handle p size args b w2) as (st & b' & w' & Hrun & (args' & Hb') & Hok).
  exists st, b', m2, w', (S (stale w2)). split_and!; try done.
  - intros fuel Hf. rewrite Hrun by lia. done.
  - destruct Hb' as [->| ->]; eauto.
Qed.
End exit.

(* ------------------------------------------------------------------ *)
(** ** Lemmas: the boot sequence *)

Section sequence.
Context `{A : Assets, !AssetsWf A}.

Lemma efi_banner_draws fb : blendable fb -> draws fb (on_screen fb) (efi_banner fb).
Proof.
  intros Hb. unfold efi_banner.
  repeat (apply (drawing_seq (J := draws fb (on_screen fb))); [apply DrawTextString_draws; done || lia|]).
  apply DrawTextString_draws; done || lia.
Qed.

(** Drawing on the screen keeps every surface ready. *)
Lemma drawn_keeps fb R m m' : same_off (region fb R) m m' -> mem_wf m' ->
  forall s, ready s m -> ready s m'.
Proof. intros Hs Hm' s Hr. by eapply ready_same_off. Qed.

(** The screen is cleared to black. *)
Lemma efi_clear fb m : blendable fb -> ready fb m ->
  exists m', (black ← ComposeFor fb 0 0 0; ClearScreen fb black 0 m) = Done m' /\ ready fb m' /\
    forall s, ready s m -> ready s m'.
Proof.
  intros Hblend Hm. pose proof Hblend as (? & ? & ? & _).
  destruct (ComposePixel_total 0 0 0 (PixelFormat fb) (RedMask fb) (GreenMask fb) (BlueMask fb))
    as (black & -> & Hblack); [lia|lia|lia|done..|]. mred.
  destruct (ClearScreen_spec fb black 0 m Hm Hblack) as (m' & E & Hm' & Hs & _).
  exists m'. split_and!; [done..|]. by eapply drawn_keeps, ready_mem.
Qed.

Context {World : Type} `{Firmware World, !FirmwareWf World}.

(** The parts of the boot record the enumeration and the hand-off keep. *)
Definition same_surfaces (b b' : KERNEL_BOOT_INFO) : Prop :=
  BootFramebuffer b' = BootFramebuffer b /\ ShadowFramebuffer b' = ShadowFramebuffer b /\
  ComposeFramebuffer b' = ComposeFramebuffer b.

(** Enough fuel for the boot sequence gives a result, always the same. *)
Lemma efi_boot_spec handle fb0 devices m (w : World) fb stall w1 sv :
  InitializeFramebuffer fb0 w = (EFI_SUCCESS, fb, Some stall, w1) ->
  blendable fb -> ready fb m -> ready sv m -> length devices = 32%nat ->
  exists st b b0 m' w' n,
    (forall fuel, (n <= fuel)%nat -> efi_boot fuel handle fb0 devices m w = Done (st, b, m', w')) /\
    BootFramebuffer b = fb /\
    surfaces_ok fb sv (ShadowFramebuffer b) (ComposeFramebuffer b) m' /\
    (st = EFI_SUCCESS -> handed_off handle b0 b w').
Proof.
  intros Hi Hblend Hfb Hsv Hdev. unfold efi_boot. rewrite Hi.
  change (negb (EFI_SUCCESS =? EFI_SUCCESS)) with false. cbv iota.
  destruct (efi_clear fb m Hblend Hfb) as (m1 & E1 & Hfb1 & Hk1).
  destruct (ComposeFor fb 0 0 0) as [black|] eqn:Eb; [|done]. mred in E1. mred. rewrite E1. cbn [call_stall]. mred.
  destruct (PlaySplashSequence_spec fb stall m1 w1 Hfb1 Hblend) as (m2 & -> & Hfb2 & Hs2). mred.
  set (w2 := stall 1000000 _).
  destruct (efi_clear fb m2 Hblend Hfb2) as (m3 & E3 & Hfb3 & Hk3). rewrite Eb in E3. mred in E3.
  rewrite E3. mred.
  destruct (EstimateTscTicksPerSecond (Some stall) w2) as [ticks w3].
  assert (ready sv m3) as Hsv3 by (apply Hk3; eapply drawn_keeps; [exact Hs2|apply Hfb2|by apply Hk1]).
  destruct (efi_surfaces_spec fb sv (set_TscTicksPerSecond (initial_boot fb devices) ticks) m3 w3 Hfb3 Hsv3)
    as (shadow & compose & m4 & w4 & -> & Hok4). mred.
  destruct (efi_banner_draws fb Hblend m4 (surfaces_fb _ _ _ _ _ Hok4)) as (m5 & -> & Hfb5 & Hs5). mred.
  set (b5 := set_surfaces _ shadow compose).
  rewrite (CollectPciDevices_spec b5 (stall 250000 w4)) by (by split_and!). mred.
  set (b6 := recorded b5 _). set (w6 := (enumerate _).2).
  destruct (exit_spec handle b6 m5 w6) as (st & b' & m' & w' & n & Hrun & Hsub & Hm' & Hb' & Hout); [apply Hfb5|].
  exists st, b', b6, m', w', n.
  assert (BootFramebuffer b' = fb /\ ShadowFramebuffer b' = shadow /\ ComposeFramebuffer b' = compose)
    as (E & -> & ->) by (by destruct Hb' as [->|(p & args & ->)]).
  split_and!; try done. eapply surfaces_ok_dom; [exact Hok4|]. intros s Hs.
  eapply ready_grows; [|done|done]. eapply drawn_keeps; [exact Hs5|apply Hfb5|done].
Qed.

(** With a shadow, the boot record is what the kernel loop needs. *)
Lemma boot_ready_of b fb c0 s0 m : BootFramebuffer b = fb ->
  surfaces_ok fb (saved_surface c0) (ShadowFramebuffer b) (ComposeFramebuffer b) m ->
  ShadowFramebuffer b <> 0 -> Framebuffer fb <> 0 -> disjoint_surfaces (saved_surface c0) fb ->
  blendable fb -> roomy fb -> modest fb -> image_sized c0 -> length (Packet s0) = 4%nat -> bytes (Packet s0) ->
  boot_ready b c0 s0 m.
Proof.
  intros <- [Hfb Hsv Hs Hk] Hs0 Hf0 Hdis Hblend Hroom Hmod Hc0 Hpl Hpb.
  destruct (Hs Hs0) as (Hsr & Hfs & Hvs). set (fb := BootFramebuffer b) in *.
  assert (ShadowFramebuffer b <> Framebuffer fb) as Hne.
  { pose proof (ready_fb _ _ Hfb) as []. destruct Hroom.
    intros E. eapply (Hfs 0 0 0 0); [split; lia|split; cbn; lia|]. unfold pix. cbn [set_Framebuffer Framebuffer]. lia. }
  split; try done. unfold kernel_surfaces. fold fb. cbn zeta.
  apply Z.eqb_neq in Hs0 as Hs0', Hne as Hne'. rewrite Hs0', Hne'. cbn [negb andb].
  change (Framebuffer (set_Framebuffer fb (ShadowFramebuffer b))) with (ShadowFramebuffer b).
  split; [|done]. split; try done.
  unfold usable_compose. change (Framebuffer (set_Framebuffer fb (ShadowFramebuffer b))) with (ShadowFramebuffer b).
  destruct (Z.eqb_spec (ComposeFramebuffer b) 0) as [|E]; cbn [negb andb]; [done|].
  destruct (negb (ComposeFramebuffer b =? Framebuffer fb) && _)%bool; [|done]. intros _.
  destruct (Hk E) as (Hkr & Hfk & Hvk & Hsk).
  split_and!; try done; apply disjoint_sym; auto.
Qed.

(** Without one, it is what the loop needs to run unshadowed. *)
Lemma bare_boot_of b fb c0 s0 m : BootFramebuffer b = fb ->
  surfaces_ok fb (saved_surface c0) (ShadowFramebuffer b) (ComposeFramebuffer b) m ->
  ShadowFramebuffer b = 0 -> Framebuffer fb <> 0 -> disjoint_surfaces (saved_surface c0) fb ->
  blendable fb -> roomy fb -> modest fb -> image_sized c0 -> length (Packet s0) = 4%nat -> bytes (Packet s0) ->
  bare_boot b c0 s0 m.
Proof.
  intros <- [Hfb Hsv _ Hk] Hs0 Hf0 Hdis Hblend Hroom Hmod Hc0 Hpl Hpb.
  set (fb := BootFramebuffer b) in *. split; try done. split; try done.
  unfold kernel_surfaces. fold fb. rewrite Hs0. cbn [Z.eqb negb andb]. cbn zeta. cbn [snd].
  destruct (Z.eqb_spec (ComposeFramebuffer b) 0) as [|E]; cbn [negb andb]; [done|].
  destruct (negb (ComposeFramebuffer b =? Framebuffer fb) && _)%bool; [|done]. intros _.
  destruct (Hk E) as (Hkr & Hfk & Hvk & _).
  split_and!; try done; apply disjoint_sym; auto.
Qed.

(** Either way the loop runs. *)
Lemma kernel_runs `{PortIO World, !PortIOWf World} rounds b fb c0 s0 u0 m (w : World) :
  setup_assets -> BootFramebuffer b = fb ->
  surfaces_ok fb (saved_surface c0) (ShadowFramebuffer b) (ComposeFramebuffer b) m ->
  Framebuffer fb <> 0 -> disjoint_surfaces (saved_surface c0) fb ->
  blendable fb -> roomy fb -> modest fb -> image_sized c0 -> length (Packet s0) = 4%nat -> bytes (Packet s0) ->
  exists k, RunKernelMouseLoop rounds b c0 s0 u0 m w = Done k /\
    (ShadowFramebuffer b <> 0 ->
     displays fb (shadowFramebufferInfo k) (setupUiState k) (cursor k) (memory k)).
Proof.
  intros Ha Eb Hok. intros. unfold RunKernelMouseLoop.
  destruct (decide (ShadowFramebuffer b = 0)) as [Hs0|Hs0].
  - assert (bare_boot b c0 s0 m) as Hready by (by eapply bare_boot_of).
    destruct (bare_start Ha b c0 s0 u0 m w Hready) as (k0 & -> & Hk0 & _). mred.
    destruct (bare_rounds Ha rounds k0 Hk0) as (k & -> & _). by exists k.
  - assert (boot_ready b c0 s0 m) as Hready by (by eapply boot_ready_of).
    destruct (kernel_start_spec Ha b c0 s0 u0 m w Hready) as (k0 & -> & Hk0 & Efb & _). mred.
    destruct (kernel_rounds_ok Ha rounds k0 Hk0) as (k & -> & Hk & _ & Efb'). exists k. split; [done|].
    intros _. rewrite <- Eb, <- Efb, <- Efb'. apply (ok_display _ Hk).
Qed.
End sequence.

(* ------------------------------------------------------------------ *)
(** ** Properties *)

(** The mode information at [gop]: format, scan line, height and the size
    of the frame buffer in bytes. *)
Definition mode_info {World} `{Firmware World} (gop : Z) (w : World) : Z * Z * Z * Z :=
  let mode := peek64 (u64 (gop + 24)) w in
  let info := peek64 (u64 (mode + 8)) w in
  (peek32 (u64 (info + 12)) w, peek32 (u64 (info + 32)) w, peek32 (u64 (info + 8)) w,
   peek64 (u64 (mode + 32)) w).

(** [InitializeFramebuffer] accepts exactly the modes that give a linear frame
    buffer with room for every pixel, as long as the pixel count fits 32 bits and
    the buffer is below 16 GiB (beyond, the check wraps); it passes on the
    firmware's error, and says unsupported otherwise. *)
Theorem InitializeFramebuffer_correct {World} `{Firmware World, !FirmwareWf World} fb0 (w : World) st gop w1 :
  LocateProtocol gGraphicsOutputProtocolGuid 0 w = (st, gop, w1) ->
  let '(format, pitch, height, size) := mode_info gop w1 in
  pitch * height < 4294967296 -> size < 17179869184 ->
  exists fb, InitializeFramebuffer fb0 w =
      ((if decide (st <> EFI_SUCCESS) then st
        else if decide (gop <> 0 /\ format <> GOP_PIXEL_BLT_ONLY /\ 4 * (pitch * height) <= size)
        then EFI_SUCCESS else EFI_UNSUPPORTED), fb, Stall, w1) /\
    (st = EFI_SUCCESS -> gop <> 0 ->
      PixelFormat fb = format /\ PixelsPerScanLine fb = pitch /\ ScreenHeight fb = height /\
      is_u32 (ScreenWidth fb) /\ is_u32 (RedMask fb) /\ is_u32 (GreenMask fb) /\ is_u32 (BlueMask fb)).
Proof.
  intros E. unfold mode_info. cbn zeta. intros Hfit Hsize. unfold InitializeFramebuffer. rewrite E. cbn zeta.
  destruct (Z.eqb_spec st EFI_SUCCESS) as [->|Hst]; cbn [negb orb]; cycle 1.
  { exists fb0. rewrite decide_True by done. split; [done|]. intros ?. done. }
  rewrite (decide_False (P := EFI_SUCCESS <> EFI_SUCCESS)) by tauto.
  destruct (Z.eqb_spec gop 0) as [->|Hgop].
  { exists fb0. rewrite decide_False by tauto. split; [done|]. intros _ ?. done. }
  unfold GOP_MODE_OFFSET, GOP_MODE_INFO_OFFSET, GOP_MODE_FRAMEBUFFER_BASE_OFFSET,
    GOP_MODE_FRAMEBUFFER_SIZE_OFFSET, GOP_INFO_VERTICAL_RESOLUTION_OFFSET, GOP_INFO_PIXEL_FORMAT_OFFSET,
    GOP_INFO_PIXELS_PER_SCANLINE_OFFSET in *.
  set (mode := peek64 (u64 (gop + 0x18)) w1) in *. set (info := peek64 (u64 (mode + 0x08)) w1) in *.
  cbn [PixelFormat set_Framebuffer PixelsPerScanLine ScreenHeight].
  pose proof (peek32_u32 (u64 (info + 32)) w1). pose proof (peek32_u32 (u64 (info + 8)) w1).
  pose proof (peek64_u64 (u64 (mode + 32)) w1).
  set (format := peek32 (u64 (info + 0x0C)) w1) in *. set (pitch := peek32 (u64 (info + 32)) w1) in *.
  set (height := peek32 (u64 (info + 8)) w1) in *. set (size := peek64 (u64 (mode + 32)) w1) in *.
  destruct (Z.eqb_spec format GOP_PIXEL_BLT_ONLY).
  - rewrite decide_False by tauto. eexists. split; [done|]. intros _ _. cbn. split_and!; try done; apply peek32_u32.
  - assert (0 <= pitch * height) by (apply Z.mul_nonneg_nonneg; lia).
    rewrite (u32_id (pitch * height)), u32_id by dlia. eexists. split.
    + destruct (Z.ltb_spec (size / 4) (pitch * height)).
      * rewrite decide_False; [done|]. intros (_ & _ & ?). dlia.
      * rewrite decide_True; [done|]. split_and!; [done|done|dlia].
    + intros _ _. cbn. split_and!; try done; apply peek32_u32.
Qed.

Lemma InitializeFramebuffer_correct_witness : exists fb,
  InitializeFramebuffer (setup_fb 0) (mkMachine [] 4096 0 0 0) = (EFI_SUCCESS, fb, Stall, mkMachine [] 4096 0 0 0).
Proof.
  destruct (InitializeFramebuffer_correct (setup_fb 0) (mkMachine [] 4096 0 0 0) EFI_SUCCESS 8
    (mkMachine [] 4096 0 0 0)) as (fb & E & _); [reflexivity|reflexivity|reflexivity|].
  exists fb. rewrite E. reflexivity.
Defined.

(** The check multiplies in 32 bits: a mode of 65536 by 65536 pixels is
    accepted whatever the size of its frame buffer. *)
Theorem InitializeFramebuffer_wraps {World} `{Firmware World} fb0 (w : World) gop w1 :
  LocateProtocol gGraphicsOutputProtocolGuid 0 w = (EFI_SUCCESS, gop, w1) -> gop <> 0 ->
  (mode_info gop w1).1 = (GOP_PIXEL_BLUE_GREEN_RED_RESERVED_8BIT, 65536, 65536) ->
  exists fb, InitializeFramebuffer fb0 w = (EFI_SUCCESS, fb, Stall, w1) /\
    PixelsPerScanLine fb * ScreenHeight fb = 4294967296.
Proof.
  intros E Hgop [= Ef Ep Eh]. unfold InitializeFramebuffer. rewrite E.
  apply Z.eqb_neq in Hgop. rewrite Hgop.
  unfold GOP_MODE_OFFSET, GOP_MODE_INFO_OFFSET, GOP_MODE_FRAMEBUFFER_SIZE_OFFSET,
    GOP_INFO_VERTICAL_RESOLUTION_OFFSET, GOP_INFO_PIXEL_FORMAT_OFFSET, GOP_INFO_PIXELS_PER_SCANLINE_OFFSET.
  cbn -[peek32 peek64 u32 Z.mul]. rewrite Ef, Ep, Eh.
  cbn -[peek32 peek64 u32 Z.mul]. change (u32 (65536 * 65536)) with 0.
  assert ((u32 (peek64 (u64 (peek64 (u64 (gop + 24)) w1 + 32)) w1 / 4) <? 0) = false) as E0
    by (apply Z.ltb_ge; apply u32_range).
  rewrite E0. by eexists.
Qed.

(** C9: [ExitBootServicesForKernel] always comes back, however often the memory map
    changes under it, with fuel beyond the firmware's last refusal; on success the
    last two calls to the firmware read the map that is in the boot record and gave
    its key to [ExitBootServices], which took it; on any result the surfaces and
    devices in the record are kept, and memory only grows. *)
Theorem ExitBootServicesForKernel_correct {World} `{Firmware World, !FirmwareWf World} handle b m (w : World) :
  mem_wf m ->
  exists st b' m' w' n,
    (forall fuel, (n <= fuel)%nat -> ExitBootServicesForKernel fuel handle b m w = Done (st, b', m', w')) /\
    m ⊆ m' /\ (b' = b \/ exists p args, b' = set_map b p args) /\
    (st = EFI_SUCCESS -> handed_off handle b b' w').
Proof.
  intros Hm. destruct (exit_spec handle b m w Hm) as (st & b' & m' & w' & n & ? & ? & _ & ? & ?).
  by exists st, b', m', w', n.
Qed.

Lemma ExitBootServicesForKernel_correct_witness : exists st b' m' w' n,
  ExitBootServicesForKernel n 1 demo_record ∅ (mkMachine [] 4096 7 3 0) = Done (st, b', m', w') /\
  (st = EFI_SUCCESS -> handed_off 1 demo_record b' w').
Proof.
  destruct (ExitBootServicesForKernel_correct 1 demo_record ∅ (mkMachine [] 4096 7 3 0))
    as (st & b' & m' & w' & n & E & _ & _ & Hout).
  - intros a v Hv. exfalso. rewrite lookup_empty in Hv. discriminate.
  - exists st, b', m', w', n. split; [apply E; lia|exact Hout].
Defined.

(** C1: on a machine whose firmware offers a usable mode, [EfiMain] boots: with
    enough fuel the boot sequence completes without a fault, keeping every surface
    mapped and apart; on a firmware error it returns that error; otherwise it holds
    the machine for the map it recorded and runs the kernel loop for any number of
    rounds, the screen displaying the setup screen and the cursor if the pool had
    room for the shadow surface. *)
Theorem EfiMain_correct `{A : Assets, !AssetsWf A} {World} `{Firmware World, !FirmwareWf World}
    `{PortIO World, !PortIOWf World} rounds handle fb0 devices c0 s0 u0 m (w : World) fb stall w1 :
  setup_assets ->
  InitializeFramebuffer fb0 w = (EFI_SUCCESS, fb, Some stall, w1) ->
  blendable fb -> roomy fb -> modest fb -> Framebuffer fb <> 0 -> ready fb m ->
  ready (saved_surface c0) m -> disjoint_surfaces (saved_surface c0) fb ->
  image_sized c0 -> length (Packet s0) = 4%nat -> bytes (Packet s0) -> length devices = 32%nat ->
  exists st b b0 m' w' n,
    (forall fuel, (n <= fuel)%nat -> efi_boot fuel handle fb0 devices m w = Done (st, b, m', w')) /\
    surfaces_ok fb (saved_surface c0) (ShadowFramebuffer b) (ComposeFramebuffer b) m' /\
    (st <> EFI_SUCCESS -> forall fuel, (n <= fuel)%nat ->
      EfiMain rounds fuel handle fb0 devices c0 s0 u0 m w = Done (Returned st m' w')) /\
    (st = EFI_SUCCESS -> handed_off handle b0 b w' /\
      exists k,
        (forall fuel, (n <= fuel)%nat ->
          EfiMain rounds fuel handle fb0 devices c0 s0 u0 m w = Done (Running k)) /\
        (ShadowFramebuffer b <> 0 ->
         displays fb (shadowFramebufferInfo k) (setupUiState k) (cursor k) (memory k))).
Proof.
  intros Ha Hi Hblend Hroom Hmod Hf0 Hfb Hsv Hdis Hc0 Hpl Hpb Hdev.
  destruct (efi_boot_spec handle fb0 devices m w fb stall w1 (saved_surface c0))
    as (st & b & b0 & m' & w' & n & Hrun & Eb & Hok & Hout); [done..|].
  exists st, b, b0, m', w', n. split; [done|]. split; [done|]. split.
  - intros Hst fuel Hf. unfold EfiMain. rewrite Hrun by done. mred. apply Z.eqb_neq in Hst. by rewrite Hst.
  - intros ->. split; [by apply Hout|].
    destruct (kernel_runs rounds b fb c0 s0 u0 m' w') as (k & E & Hd); [done..|]. exists k. split; [|done].
    intros fuel Hf. unfold EfiMain. rewrite Hrun by done. mred.
    change (negb (EFI_SUCCESS =? EFI_SUCCESS)) with false. cbv iota. rewrite E. done.
Qed.

Lemma EfiMain_correct_witness : exists st b m' w' fuel,
  @efi_boot MACHINE demo_firmware demo_assets fuel 1 (setup_fb 0)
    (replicate 32 (mkDevice 0 0 0 0 0 0 0 0 0 0)) machine_memory (mkMachine [8; 5; 3] 16777216 7 3 0) =
  Done (st, b, m', w').
Proof.
  pose proof (ready_stage _ _ _ _ machine_ready) as [Hst _].
  destruct (@EfiMain_correct demo_assets demo_assets_wf MACHINE demo_firmware demo_firmware_wf machine_ports
    machine_ports_wf 4 1 (setup_fb 0) (replicate 32 (mkDevice 0 0 0 0 0 0 0 0 0 0)) machine_cursor demo_mouse
    machine_setup machine_memory (mkMachine [8; 5; 3] 16777216 7 3 0) (setup_fb 4096)
    (fun n w => mkMachine (port_bytes w) (heap w) (map_key w) (map_changes w) (u64 (ticks w + n)))
    (mkMachine [8; 5; 3] 16777216 7 3 0)) as (st & b & b0 & m' & w' & n & E & _).
  - exact demo_setup_assets.
  - reflexivity.
  - apply setup_fb_blendable.
  - split; cbn; lia.
  - split; cbn; lia.
  - discriminate.
  - apply (stage_d _ _ _ _ _ Hst).
  - apply (stage_p _ _ _ _ _ Hst).
  - apply (stage_pd _ _ _ _ _ Hst).
  - exact (ready_cursor _ _ _ _ machine_ready).
  - reflexivity.
  - exact (proj2 (ready_packet _ _ _ _ machine_ready)).
  - reflexivity.
  - exists st, b, m', w', n. apply E. lia.
Defined.
