(* ===== verification/DxePage.v ===== *)
(** * DXE core: the page allocator

    [src/edk2/MdeModulePkg/Core/Dxe/Mem/Page.c], the part of the firmware in
    the repository that owns the memory map the application reads: the map
    entries, the key that says when the map changed, page allocation and
    release, and the check [ExitBootServices] makes of the caller's key.

    The globals of the file are the record [PAGES].  A [MEMORY_MAP] entry is
    either one of the [MAX_MAP_DEPTH] slots of [mMapStack] or comes from a
    descriptor page ([FromPages]); [Slot] says which, and only the number of
    unused descriptors on [mFreeMemoryMapEntryList] matters.  Page sizes and
    alignments are those of X64; the heap guard is off, its declared default,
    so [NeedGuard] is false throughout.  [ASSERT] is a no-op, as in a release
    build: what it asserts is proved or left to fail. *)
From Stdlib Require Import ZArith Lia.
From stdpp Require Import base gmap list sorting.
From S2P Require Import Prelude Pointer Firmware.
#[local] Open Scope Z_scope.

(* ------------------------------------------------------------------ *)
(** ** Data *)

Definition EFI_OUT_OF_RESOURCES : Z := Z.lor EFI_ERROR_BIT 9.
Definition EFI_NOT_FOUND : Z := Z.lor EFI_ERROR_BIT 14.

Definition EfiReservedMemoryType : Z := 0.
Definition EfiBootServicesData : Z := 4.
Definition EfiRuntimeServicesCode : Z := 5.
Definition EfiRuntimeServicesData : Z := 6.
Definition EfiConventionalMemory : Z := 7.
Definition EfiACPIMemoryNVS : Z := 10.
Definition EfiPersistentMemory : Z := 14.
Definition EfiUnacceptedMemoryType : Z := 15.
Definition EfiMaxMemoryType : Z := 16.
Definition MEMORY_TYPE_OEM_RESERVED_MIN : Z := 0x70000000.

Definition AllocateAnyPages : Z := 0.
Definition AllocateMaxAddress : Z := 1.
Definition AllocateAddress : Z := 2.
Definition MaxAllocateType : Z := 3.

Definition EFI_PAGE_SIZE : Z := 4096.
Definition EFI_PAGE_MASK : Z := 0xFFF.
Definition DEFAULT_PAGE_ALLOCATION_GRANULARITY : Z := 0x1000.
Definition RUNTIME_PAGE_ALLOCATION_GRANULARITY : Z := 0x1000.
Definition MAX_ALLOC_ADDRESS : Z := 0xFFFFFFFFFFFFFFFF.
Definition MAX_MAP_DEPTH : nat := 6.

Definition EFI_MEMORY_SP : Z := 0x40000.
Definition EFI_MEMORY_MORE_RELIABLE : Z := 0x10000.
Definition EFI_MEMORY_PRESENT : Z := 0x0100000000000000.
Definition EFI_MEMORY_INITIALIZED : Z := 0x0200000000000000.
Definition EFI_MEMORY_TESTED : Z := 0x0400000000000000.
Definition EFI_MEMORY_RUNTIME : Z := 0x8000000000000000.

Definition EfiGcdMemoryTypeReserved : Z := 1.
Definition EfiGcdMemoryTypeSystemMemory : Z := 2.
Definition EfiGcdMemoryTypeMoreReliable : Z := 5.

Definition EFI_SIZE_TO_PAGES (Size : Z) : Z :=
  Z.shiftr Size 12 + (if Z.land Size EFI_PAGE_MASK =? 0 then 0 else 1).

(** A multiplication of 64-bit pages that drops the carry, as [LShiftU64]. *)
Definition EFI_PAGES_TO_SIZE (Pages : Z) : Z := u64 (Z.shiftl Pages 12).

Record EFI_MEMORY_TYPE_STATISTICS : Type := mkStatistics {
  BaseAddress : Z;
  MaximumAddress : Z;
  CurrentNumberOfPages : Z;
  NumberOfPages : Z;
  InformationIndex : Z;
  Special : bool;
  Runtime : bool;
}.

(** [Slot] is [None] when [FromPages] is set, the index in [mMapStack]
    otherwise. *)
Record MEMORY_MAP : Type := mkEntry {
  Slot : option nat;
  EntryType : Z;
  Start : Z;
  End_ : Z;
  Attribute : Z;
}.

#[export] Instance memory_map_eq_dec : EqDecision MEMORY_MAP.
Proof. solve_decision. Defined.

Record EFI_GCD_MAP_ENTRY : Type := mkGcd {
  GcdBase : Z;
  GcdEnd : Z;
  Capabilities : Z;
  Attributes : Z;
  GcdMemoryType : Z;
  GcdIoType : Z;
}.

Record PAGES : Type := mkPages {
  gMemoryMap : list MEMORY_MAP;
  mMemoryMapKey : Z;
  mMapDepth : nat;
  mFreeMapStack : Z;
  mFreeMemoryMapEntryList : nat;
  mMemoryTypeStatistics : list EFI_MEMORY_TYPE_STATISTICS;
  gMemoryTypeInformation : list Z;
  mDefaultMaximumAddress : Z;
  mDefaultBaseAddress : Z;
  mGcdMemorySpaceMap : list EFI_GCD_MAP_ENTRY;
}.

Definition set_entries (l : list MEMORY_MAP) (st : PAGES) : PAGES :=
  mkPages l (mMemoryMapKey st) (mMapDepth st) (mFreeMapStack st) (mFreeMemoryMapEntryList st)
    (mMemoryTypeStatistics st) (gMemoryTypeInformation st) (mDefaultMaximumAddress st)
    (mDefaultBaseAddress st) (mGcdMemorySpaceMap st).

Definition set_key (k : Z) (st : PAGES) : PAGES :=
  mkPages (gMemoryMap st) k (mMapDepth st) (mFreeMapStack st) (mFreeMemoryMapEntryList st)
    (mMemoryTypeStatistics st) (gMemoryTypeInformation st) (mDefaultMaximumAddress st)
    (mDefaultBaseAddress st) (mGcdMemorySpaceMap st).

Definition set_depth (d : nat) (st : PAGES) : PAGES :=
  mkPages (gMemoryMap st) (mMemoryMapKey st) d (mFreeMapStack st) (mFreeMemoryMapEntryList st)
    (mMemoryTypeStatistics st) (gMemoryTypeInformation st) (mDefaultMaximumAddress st)
    (mDefaultBaseAddress st) (mGcdMemorySpaceMap st).

Definition set_busy (b : Z) (st : PAGES) : PAGES :=
  mkPages (gMemoryMap st) (mMemoryMapKey st) (mMapDepth st) b (mFreeMemoryMapEntryList st)
    (mMemoryTypeStatistics st) (gMemoryTypeInformation st) (mDefaultMaximumAddress st)
    (mDefaultBaseAddress st) (mGcdMemorySpaceMap st).

Definition set_free (n : nat) (st : PAGES) : PAGES :=
  mkPages (gMemoryMap st) (mMemoryMapKey st) (mMapDepth st) (mFreeMapStack st) n
    (mMemoryTypeStatistics st) (gMemoryTypeInformation st) (mDefaultMaximumAddress st)
    (mDefaultBaseAddress st) (mGcdMemorySpaceMap st).

Definition set_statistics (s : list EFI_MEMORY_TYPE_STATISTICS) (i : list Z) (st : PAGES) : PAGES :=
  mkPages (gMemoryMap st) (mMemoryMapKey st) (mMapDepth st) (mFreeMapStack st)
    (mFreeMemoryMapEntryList st) s i (mDefaultMaximumAddress st) (mDefaultBaseAddress st)
    (mGcdMemorySpaceMap st).

Definition set_default_base (a : Z) (st : PAGES) : PAGES :=
  mkPages (gMemoryMap st) (mMemoryMapKey st) (mMapDepth st) (mFreeMapStack st)
    (mFreeMemoryMapEntryList st) (mMemoryTypeStatistics st) (gMemoryTypeInformation st)
    (mDefaultMaximumAddress st) a (mGcdMemorySpaceMap st).

Definition set_gcd (g : list EFI_GCD_MAP_ENTRY) (st : PAGES) : PAGES :=
  mkPages (gMemoryMap st) (mMemoryMapKey st) (mMapDepth st) (mFreeMapStack st)
    (mFreeMemoryMapEntryList st) (mMemoryTypeStatistics st) (gMemoryTypeInformation st)
    (mDefaultMaximumAddress st) (mDefaultBaseAddress st) g.

Definition set_range (s e : Z) (E : MEMORY_MAP) : MEMORY_MAP :=
  mkEntry (Slot E) (EntryType E) s e (Attribute E).

Definition set_slot (o : option nat) (E : MEMORY_MAP) : MEMORY_MAP :=
  mkEntry o (EntryType E) (Start E) (End_ E) (Attribute E).

Definition FromPages (E : MEMORY_MAP) : bool := bool_decide (Slot E = None).

(* ------------------------------------------------------------------ *)
(** ** The list of map entries *)

(** The counters of the sixteen types, and one for none, as the table has
    them at first: which types are special, which are for the runtime. *)
Definition initial_statistics : list EFI_MEMORY_TYPE_STATISTICS :=
  (fun '(special, runtime) => mkStatistics 0 MAX_ALLOC_ADDRESS 0 0 EfiMaxMemoryType special runtime) <$>
  [(true, false); (false, false); (false, false); (false, false); (false, false); (true, true); (true, true); (false, false);
   (false, false); (true, false); (true, false); (false, false); (false, false); (true, true); (false, false); (true, false);
   (false, false)].

(** Unlink entry [i]; a descriptor goes back to the unused ones. *)
Definition RemoveMemoryMapEntry (i : nat) (E : MEMORY_MAP) (st : PAGES) : PAGES :=
  let st := set_entries (delete i (gMemoryMap st)) st in
  if FromPages E then set_free (S (mFreeMemoryMapEntryList st)) st else st.

(** A new entry in the next slot of the stack, at the tail of the map. *)
Definition push_entry (Type_ s e attr : Z) (st : PAGES) : outcome PAGES :=
  if decide (mMapDepth st < MAX_MAP_DEPTH)%nat
  then Done (set_depth (S (mMapDepth st))
         (set_entries (gMemoryMap st ++ [mkEntry (Some (mMapDepth st)) Type_ s e attr]) st))
  else Fault OutOfBounds.

(** The walk that absorbs the neighbours of the same type and attribute:
    what is left of the list, the range they grow to, and how many
    descriptors came free. *)
Fixpoint AddRange_merge (Type_ attr : Z) (l : list MEMORY_MAP) (s e : Z) (free : nat)
    : list MEMORY_MAP * Z * Z * nat :=
  match l with
  | [] => ([], s, e, free)
  | E :: l' =>
      let freed := if FromPages E then S free else free in
      if decide (EntryType E = Type_ /\ Attribute E = attr /\ u64 (End_ E + 1) = s)
      then AddRange_merge Type_ attr l' (Start E) e freed
      else if decide (EntryType E = Type_ /\ Attribute E = attr /\ Start E = u64 (e + 1))
      then AddRange_merge Type_ attr l' s (End_ E) freed
      else let '(r, s', e', free') := AddRange_merge Type_ attr l' s e free in (E :: r, s', e', free')
  end.

Definition CoreAddRange (Type_ s e attr : Z) (st : PAGES) : outcome PAGES :=
  let st := set_key (u64 (mMemoryMapKey st + 1)) st in
  let '(l, s', e', free) :=
    AddRange_merge Type_ attr (gMemoryMap st) s e (mFreeMemoryMapEntryList st) in
  push_entry Type_ s' e' attr (set_free free (set_entries l st)).

(** Where a descriptor goes: before the first one that starts higher. *)
Fixpoint insert_entry (E : MEMORY_MAP) (l : list MEMORY_MAP) : list MEMORY_MAP :=
  match l with
  | [] => [E]
  | E2 :: l' => if FromPages E2 && (Start E <? Start E2) then E :: E2 :: l' else E2 :: insert_entry E l'
  end.

(* ------------------------------------------------------------------ *)
(** ** Converting, finding and allocating pages

    [CoreFreeMemoryMapStack] allocates descriptor pages, which converts
    pages, which calls it again.  The section takes it as a parameter; the
    knot is tied below. *)
Section open_recursion.
Context (fuel : nat) (free_stack : PAGES -> outcome PAGES).

(** The page counters of the two types, once per piece of the range. *)
Definition count_pages (start n old new : Z) (st : PAGES) : outcome PAGES :=
  let counted s := ((BaseAddress s <=? start) && (start <=? MaximumAddress s)) ||
    ((mDefaultBaseAddress st <=? start) && (start <=? mDefaultMaximumAddress st)) in
  let with_current c s := mkStatistics (BaseAddress s) (MaximumAddress s) c (NumberOfPages s)
    (InformationIndex s) (Special s) (Runtime s) in
  st ← (if decide (old < EfiMaxMemoryType) then
    s ← rd (mMemoryTypeStatistics st) old;
    if counted s then
      l ← wr (mMemoryTypeStatistics st) old
            (with_current (if decide (CurrentNumberOfPages s < n) then 0 else CurrentNumberOfPages s - n) s);
      mret (set_statistics l (gMemoryTypeInformation st) st)
    else mret st
  else mret st);
  if decide (new < EfiMaxMemoryType) then
    s ← rd (mMemoryTypeStatistics st) new;
    if counted s then
      let c := u64 (CurrentNumberOfPages s + n) in
      l ← wr (mMemoryTypeStatistics st) new (with_current c s);
      p ← rd (gMemoryTypeInformation st) (InformationIndex s);
      i ← (if decide (p < c) then wr (gMemoryTypeInformation st) (InformationIndex s) (u32 c)
           else mret (gMemoryTypeInformation st));
      mret (set_statistics l i st)
    else mret st
  else mret st.

(** Take [s..re] out of entry [i]: clip its start, its end, or split it, in
    which case the upper part is the entry the code goes on with. *)
Definition pull_range (s re : Z) (i : nat) (E : MEMORY_MAP) (st : PAGES)
    : outcome (nat * MEMORY_MAP * PAGES) :=
  let clip E' := (i, E', set_entries (<[i := E']> (gMemoryMap st)) st) in
  if decide (Start E = s) then mret (clip (set_range (u64 (re + 1)) (End_ E) E))
  else if decide (End_ E = re) then mret (clip (set_range (Start E) (u64 (s - 1)) E))
  else
    let '(_, _, st1) := clip (set_range (Start E) (u64 (s - 1)) E) in
    st2 ← push_entry (EntryType E) (u64 (re + 1)) (End_ E) (Attribute E) st1;
    mret (length (gMemoryMap st),
      mkEntry (Some (mMapDepth st)) (EntryType E) (u64 (re + 1)) (End_ E) (Attribute E), st2).

(** One piece of the range: up to [e] or the end of the entry that holds
    [s].  The result is the start of the next piece, or an error. *)
Definition ConvertPages_piece (s e n : Z) (ChangingType : bool) (NewType : Z) (NewAttributes : Z)
    (st : PAGES) : outcome ((Z + Z) * PAGES) :=
  match list_find (fun E => Start E <= s /\ s < End_ E) (gMemoryMap st) with
  | None => mret (inl EFI_NOT_FOUND, st)
  | Some (i, E) =>
    if decide (ChangingType = true /\ NewType <> EfiConventionalMemory /\ End_ E < e)
    then mret (inl EFI_NOT_FOUND, st) else
    let re := if decide (End_ E < e) then End_ E else e in
    if decide (ChangingType = true /\
               (NewType = EfiConventionalMemory <-> EntryType E = EfiConventionalMemory))
    then mret (inl EFI_NOT_FOUND, st) else
    st ← (if ChangingType then count_pages s n (EntryType E) NewType st else mret st);
    '(j, E', st) ← pull_range s re i E st;
    let attr := if ChangingType then Attribute E' else NewAttributes in
    let type := if ChangingType then NewType else EntryType E' in
    let st := if decide (Start E' = u64 (End_ E' + 1)) then RemoveMemoryMapEntry j E' st else st in
    st ← CoreAddRange type s re attr st;
    st ← free_stack st;
    mret (inr (u64 (re + 1)), st)
  end.

Fixpoint ConvertPages_loop (n : nat) (s e pages : Z) (ChangingType : bool) (NewType NewAttributes : Z)
    (st : PAGES) : outcome (Z * PAGES) :=
  match n with
  | O => Fault Diverges
  | S n' =>
    if decide (s < e) then
      '(r, st) ← ConvertPages_piece s e pages ChangingType NewType NewAttributes st;
      match r with
      | inl status => mret (status, st)
      | inr s' => ConvertPages_loop n' s' e pages ChangingType NewType NewAttributes st
      end
    else mret (EFI_SUCCESS, st)
  end.

Definition CoreConvertPagesEx (s pages : Z) (ChangingType : bool) (NewType NewAttributes : Z)
    (st : PAGES) : outcome (Z * PAGES) :=
  let e := u64 (s + EFI_PAGES_TO_SIZE pages - 1) in
  if decide (pages = 0 \/ Z.land s EFI_PAGE_MASK <> 0 \/ e <= s)
  then mret (EFI_INVALID_PARAMETER, st)
  else ConvertPages_loop fuel s e pages ChangingType NewType NewAttributes st.

Definition CoreConvertPages (s pages NewType : Z) (st : PAGES) : outcome (Z * PAGES) :=
  CoreConvertPagesEx s pages true NewType 0 st.

Definition CoreUpdateMemoryAttributes (s pages NewAttributes : Z) (st : PAGES) : outcome PAGES :=
  '(_, st) ← CoreConvertPagesEx s pages false 0 NewAttributes st; mret st.

(** The end of the best range so far, after looking at one entry: the
    conventional entry clipped to [MaxAddress] and aligned, if it is long
    enough, not below [MinAddress] and higher than the best. *)
Definition FindFree_entry (MaxAddress MinAddress bytes Alignment : Z) (Target : Z) (E : MEMORY_MAP) : Z :=
  if decide (EntryType E <> EfiConventionalMemory) then Target else
  if decide (Z.land (Attribute E) EFI_MEMORY_SP <> 0) then Target else
  let DescStart := Start E in
  let DescEnd := End_ E in
  if decide (MaxAddress <= DescStart \/ DescEnd < MinAddress) then Target else
  let DescEnd := if decide (MaxAddress <= DescEnd) then MaxAddress else DescEnd in
  let DescEnd := u64 (Z.ldiff (u64 (DescEnd + 1)) (Alignment - 1) - 1) in
  if decide (DescEnd < DescStart) then Target else
  let DescNumberOfBytes := u64 (DescEnd - DescStart + 1) in
  if decide (bytes <= DescNumberOfBytes) then
    if decide (u64 (DescEnd - bytes + 1) < MinAddress) then Target
    else if decide (Target < DescEnd) then DescEnd else Target
  else Target.

Definition CoreFindFreePagesI (MaxAddress MinAddress NumberOfPages Alignment : Z) (st : PAGES) : Z :=
  if decide (MaxAddress < EFI_PAGE_MASK \/ NumberOfPages = 0) then 0 else
  let MaxAddress :=
    if decide (Z.land MaxAddress EFI_PAGE_MASK = EFI_PAGE_MASK) then MaxAddress
    else Z.lor (Z.ldiff (u64 (MaxAddress - (EFI_PAGE_MASK + 1))) EFI_PAGE_MASK) EFI_PAGE_MASK in
  let bytes := EFI_PAGES_TO_SIZE NumberOfPages in
  let Target := foldl (FindFree_entry MaxAddress MinAddress bytes Alignment) 0 (gMemoryMap st) in
  let Target := u64 (Target - u64 (bytes - 1)) in
  if decide (Z.land Target EFI_PAGE_MASK = 0) then Target else 0.

(** Memory reported but never tested becomes conventional. *)
Definition promotable (G : EFI_GCD_MAP_ENTRY) : bool :=
  bool_decide (GcdMemoryType G = EfiGcdMemoryTypeReserved /\
    GcdEnd G < MAX_ALLOC_ADDRESS /\
    Z.land (Capabilities G) (Z.lor (Z.lor EFI_MEMORY_PRESENT EFI_MEMORY_INITIALIZED) EFI_MEMORY_TESTED)
      = Z.lor EFI_MEMORY_PRESENT EFI_MEMORY_INITIALIZED).

Definition promoted (G : EFI_GCD_MAP_ENTRY) : EFI_GCD_MAP_ENTRY :=
  mkGcd (GcdBase G) (GcdEnd G) (Z.lor (Capabilities G) EFI_MEMORY_TESTED) (Attributes G)
    (if decide (Z.land (Capabilities G) EFI_MEMORY_MORE_RELIABLE = EFI_MEMORY_MORE_RELIABLE)
     then EfiGcdMemoryTypeMoreReliable else EfiGcdMemoryTypeSystemMemory) (GcdIoType G).

Definition PromoteMemoryResource (st : PAGES) : outcome (bool * PAGES) :=
  for_count (Z.of_nat (length (mGcdMemorySpaceMap st))) (fun i '(p, st) =>
    G ← rd (mGcdMemorySpaceMap st) i;
    if promotable G then
      let G := promoted G in
      g ← wr (mGcdMemorySpaceMap st) i G;
      st ← CoreAddRange EfiConventionalMemory (GcdBase G) (GcdEnd G)
             (Z.ldiff (Capabilities G) (Z.lor (Z.lor (Z.lor EFI_MEMORY_PRESENT EFI_MEMORY_INITIALIZED)
                                                     EFI_MEMORY_TESTED) EFI_MEMORY_RUNTIME))
             (set_gcd g st);
      st ← free_stack st;
      mret (true, st)
    else mret (p, st)) (false, st).

(** First the bin of the type, then the default range, then anywhere, then
    once more after promoting untested memory. *)
Fixpoint FindFreePages_loop (n : nat) (MaxAddress NoPages NewType Alignment : Z) (st : PAGES)
    : outcome (Z * PAGES) :=
  match n with
  | O => Fault Diverges
  | S n' =>
    start ← (if decide (NewType < EfiMaxMemoryType) then
      s ← rd (mMemoryTypeStatistics st) NewType;
      mret (if decide (MaximumAddress s <= MaxAddress)
            then CoreFindFreePagesI (MaximumAddress s) (BaseAddress s) NoPages Alignment st else 0)
    else mret 0);
    if decide (start <> 0) then mret (start, st) else
    let start := if decide (mDefaultMaximumAddress st <= MaxAddress)
                 then CoreFindFreePagesI (mDefaultMaximumAddress st) 0 NoPages Alignment st else 0 in
    if decide (start <> 0)
    then mret (start, if decide (start < mDefaultBaseAddress st) then set_default_base start st else st) else
    let start := CoreFindFreePagesI MaxAddress 0 NoPages Alignment st in
    if decide (start <> 0) then mret (start, st) else
    '(p, st) ← PromoteMemoryResource st;
    if p : bool then FindFreePages_loop n' MaxAddress NoPages NewType Alignment st else mret (0, st)
  end.

Definition FindFreePages (MaxAddress NoPages NewType Alignment : Z) (st : PAGES) : outcome (Z * PAGES) :=
  FindFreePages_loop fuel MaxAddress NoPages NewType Alignment st.

(** The pool's own pages: the status of the conversion is not looked at. *)
Definition CoreAllocatePoolPages (PoolType pages Alignment : Z) (st : PAGES) : outcome (Z * PAGES) :=
  '(start, st) ← FindFreePages MAX_ALLOC_ADDRESS pages PoolType Alignment st;
  if decide (start = 0) then mret (0, st)
  else '(_, st) ← CoreConvertPages start pages PoolType st; mret (start, st).

Definition CoreFreePoolPages (Memory pages : Z) (st : PAGES) : outcome PAGES :=
  '(_, st) ← CoreConvertPages Memory pages EfiConventionalMemory st; mret st.

(** A descriptor; when none is left, a page of 64 of them. *)
Definition AllocateMemoryMapEntry (st : PAGES) : outcome (bool * PAGES) :=
  match mFreeMemoryMapEntryList st with
  | S f => mret (true, set_free f st)
  | O =>
      '(p, st) ← CoreAllocatePoolPages EfiBootServicesData
                   (EFI_SIZE_TO_PAGES DEFAULT_PAGE_ALLOCATION_GRANULARITY)
                   DEFAULT_PAGE_ALLOCATION_GRANULARITY st;
      if decide (p = 0) then mret (false, st)
      else mret (true, set_free (mFreeMemoryMapEntryList st + 63)%nat st)
  end.

(** Empty the stack from its top: a linked slot is copied to a descriptor, an
    unlinked one gives its descriptor back.  Without a descriptor the code
    tries again. *)
Fixpoint FreeStack_loop (n : nat) (st : PAGES) : outcome PAGES :=
  match n with
  | O => Fault Diverges
  | S n' =>
    match mMapDepth st with
    | O => mret st
    | S _ =>
      '(ok, st) ← AllocateMemoryMapEntry st;
      if ok : bool then
        let d := pred (mMapDepth st) in
        let st := set_depth d st in
        match list_find (fun E => Slot E = Some d) (gMemoryMap st) with
        | Some (i, E) => FreeStack_loop n'
            (set_entries (insert_entry (set_slot None E) (delete i (gMemoryMap st))) st)
        | None => FreeStack_loop n' (set_free (S (mFreeMemoryMapEntryList st)) st)
        end
      else FreeStack_loop n' st
    end
  end.
End open_recursion.

(** The call made while it runs returns at once ([mFreeMapStack]), so the
    knot is two calls deep. *)
Fixpoint FreeMemoryMapStack_rec (fuel k : nat) (st : PAGES) : outcome PAGES :=
  match k with
  | O => Fault Diverges
  | S k' =>
    if decide (mFreeMapStack st <> 0) then mret st
    else
      st ← FreeStack_loop fuel (FreeMemoryMapStack_rec fuel k') fuel (set_busy (u64 (mFreeMapStack st + 1)) st);
      mret (set_busy (u64 (mFreeMapStack st - 1)) st)
  end.

Definition CoreFreeMemoryMapStack (fuel : nat) (st : PAGES) : outcome PAGES :=
  FreeMemoryMapStack_rec fuel 2 st.

(* ------------------------------------------------------------------ *)
(** ** The services *)

Section services.
Context (fuel : nat).
#[local] Abbreviation free_stack := (CoreFreeMemoryMapStack fuel).

(** Rounding a page count to the allocation granularity of a type. *)
Definition granularity (Type_ : Z) : Z :=
  if decide (Type_ = EfiReservedMemoryType \/ Type_ = EfiACPIMemoryNVS \/
             Type_ = EfiRuntimeServicesCode \/ Type_ = EfiRuntimeServicesData)
  then RUNTIME_PAGE_ALLOCATION_GRANULARITY else DEFAULT_PAGE_ALLOCATION_GRANULARITY.

Definition round_pages (n g : Z) : Z :=
  Z.ldiff (u64 (n + EFI_SIZE_TO_PAGES g - 1)) (EFI_SIZE_TO_PAGES g - 1).

(** The range meets the bin of another special type. *)
Definition in_special_bin (MemoryType s e : Z) (st : PAGES) : bool :=
  existsb (fun '(t, b) =>
    bool_decide (MemoryType <> Z.of_nat t) && Special b && (0 <? NumberOfPages b) &&
    (((BaseAddress b <=? s) && (s <=? MaximumAddress b)) ||
     ((BaseAddress b <=? e) && (e <=? MaximumAddress b)) ||
     ((s <? BaseAddress b) && (MaximumAddress b <? e))))
    (imap pair (take 16 (mMemoryTypeStatistics st))).

(** [Memory] is [None] for a null pointer; the result is the status and what
    the pointer holds afterwards. *)
Definition CoreInternalAllocatePages (Type_ MemoryType pages : Z) (Memory : option Z) (st : PAGES)
    : outcome (Z * option Z * PAGES) :=
  if decide (MaxAllocateType <= Type_) then mret (EFI_INVALID_PARAMETER, Memory, st) else
  if decide ((EfiMaxMemoryType <= MemoryType /\ MemoryType < MEMORY_TYPE_OEM_RESERVED_MIN) \/
             MemoryType = EfiConventionalMemory \/ MemoryType = EfiPersistentMemory \/
             MemoryType = EfiUnacceptedMemoryType)
  then mret (EFI_INVALID_PARAMETER, Memory, st) else
  match Memory with
  | None => mret (EFI_INVALID_PARAMETER, Memory, st)
  | Some start =>
    let Alignment := granularity MemoryType in
    if decide (Type_ = AllocateAddress /\ Z.land start (Alignment - 1) <> 0)
    then mret (EFI_NOT_FOUND, Memory, st) else
    let n := round_pages pages Alignment in
    let e := u64 (start + EFI_PAGES_TO_SIZE n - 1) in
    if decide (Type_ = AllocateAddress /\
               (start = 0 \/ n = 0 \/ Z.shiftr MAX_ALLOC_ADDRESS 12 < n \/
                e <= start \/ MAX_ALLOC_ADDRESS < start \/ MAX_ALLOC_ADDRESS < e \/
                in_special_bin MemoryType start e st = true))
    then mret (EFI_NOT_FOUND, Memory, st) else
    let MaxAddress := if decide (Type_ = AllocateMaxAddress) then start else MAX_ALLOC_ADDRESS in
    '(start, st) ← (if decide (Type_ <> AllocateAddress)
      then FindFreePages fuel free_stack MaxAddress n MemoryType Alignment st else mret (start, st));
    if decide (Type_ <> AllocateAddress /\ start = 0) then mret (EFI_OUT_OF_RESOURCES, Memory, st) else
    '(status, st) ← CoreConvertPages fuel free_stack start n MemoryType st;
    '(status, st) ← (if decide (status <> EFI_SUCCESS) then
        '(p, st) ← PromoteMemoryResource free_stack st;
        if p : bool then CoreConvertPages fuel free_stack start n MemoryType st else mret (status, st)
      else mret (status, st));
    mret (status, if decide (status = EFI_SUCCESS) then Some start else Memory, st)
  end.

(** The status and the type of the entry that holds [Memory]. *)
Definition CoreInternalFreePages (Memory pages : Z) (st : PAGES) : outcome (Z * option Z * PAGES) :=
  match list_find (fun E => Start E <= Memory /\ Memory < End_ E) (gMemoryMap st) with
  | None => mret (EFI_NOT_FOUND, None, st)
  | Some (_, E) =>
    let Alignment := granularity (EntryType E) in
    if decide (Z.land Memory (Alignment - 1) <> 0) then mret (EFI_INVALID_PARAMETER, None, st) else
    let n := round_pages pages Alignment in
    '(status, st) ← CoreConvertPages fuel free_stack Memory n EfiConventionalMemory st;
    mret (status, Some (EntryType E), st)
  end.

Definition CoreTerminateMemoryMap (MapKey : Z) (st : PAGES) : outcome Z :=
  if decide (MapKey = mMemoryMapKey st) then
    foldr (fun E rest =>
      r ← (if decide (EntryType E < EfiMaxMemoryType)
           then s ← rd (mMemoryTypeStatistics st) (EntryType E); mret (Runtime s) else mret false);
      if (r : bool) && (negb (Z.land (Start E) (RUNTIME_PAGE_ALLOCATION_GRANULARITY - 1) =? 0) ||
                        negb (Z.land (u64 (End_ E + 1)) (RUNTIME_PAGE_ALLOCATION_GRANULARITY - 1) =? 0))
      then mret EFI_INVALID_PARAMETER else rest) (mret EFI_SUCCESS) (gMemoryMap st)
  else mret EFI_INVALID_PARAMETER.
End services.

(* ------------------------------------------------------------------ *)
(** ** What the map says of an address

    The entries of a map lie in no particular order and merge and split as
    pages change hands, so the map is specified by what it says of each
    address: [cover l a], the types and attributes of the entries that hold
    [a].  In a well-formed map that is at most one. *)
Definition holds (a : Z) (E : MEMORY_MAP) : Prop := Start E <= a <= End_ E.
Definition kind (E : MEMORY_MAP) : Z * Z := (EntryType E, Attribute E).
Definition cover (l : list MEMORY_MAP) (a : Z) : list (Z * Z) := kind <$> filter (holds a) l.

#[export] Instance holds_dec a E : Decision (holds a E).
Proof. unfold holds. apply _. Defined.

(** A range of whole pages, not empty and below the top of the address space. *)
Definition page_range (s e : Z) : Prop :=
  0 <= s /\ s <= e /\ e < 2 ^ 64 - 1 /\ s mod 4096 = 0 /\ (e + 1) mod 4096 = 0.

Definition entry_ok (E : MEMORY_MAP) : Prop := page_range (Start E) (End_ E) /\ 0 <= EntryType E.

Definition within (s e a : Z) : bool := (s <=? a) && (a <=? e).

#[export] Instance cover_perm : Proper ((≡ₚ) ==> eq ==> (≡ₚ)) cover.
Proof. intros l l' H a ? <-. unfold cover. by rewrite H. Qed.

Lemma cover_app l l' a : cover (l ++ l') a = cover l a ++ cover l' a.
Proof. unfold cover. by rewrite filter_app, fmap_app. Qed.

Lemma cover_cons E l a :
  cover (E :: l) a = (if within (Start E) (End_ E) a then [kind E] else []) ++ cover l a.
Proof.
  unfold cover, within. rewrite filter_cons. unfold holds.
  destruct (decide _) as [H|H]; case_match; try done; exfalso; lia.
Qed.

Lemma cover_nil a : cover [] a = [].
Proof. done. Qed.

Lemma cover_singleton E a : cover [E] a = if within (Start E) (End_ E) a then [kind E] else [].
Proof. rewrite cover_cons, cover_nil. by rewrite app_nil_r. Qed.

Lemma perm_short {A} (l l' : list A) : l ≡ₚ l' -> (length l <= 1)%nat -> l = l'.
Proof.
  intros H Hl. destruct l as [|x [|y l]]; [by apply Permutation_nil in H| |simpl in Hl; lia].
  by apply Permutation_singleton_l in H.
Qed.

(** The descriptors a map uses, the slots it uses. *)
Definition slots (l : list MEMORY_MAP) : list nat := omap Slot l.

(** What one entry may say: whole pages, at most one entry per address, the
    slots of the stack in use once each, the tables of their declared size. *)
Definition stat_ok (s : EFI_MEMORY_TYPE_STATISTICS) : Prop :=
  0 <= InformationIndex s < 17 /\ 0 <= BaseAddress s /\ is_u64 (MaximumAddress s).

Record pages_ok (st : PAGES) : Prop := {
  ok_entries : Forall entry_ok (gMemoryMap st);
  ok_disjoint : forall a, (length (cover (gMemoryMap st) a) <= 1)%nat;
  ok_slots : NoDup (slots (gMemoryMap st)) /\ Forall (fun d => (d < mMapDepth st)%nat) (slots (gMemoryMap st));
  ok_statistics : length (mMemoryTypeStatistics st) = 17%nat /\ Forall stat_ok (mMemoryTypeStatistics st) /\
    length (gMemoryTypeInformation st) = 17%nat /\ is_u64 (mDefaultMaximumAddress st);
}.

Lemma sublist_slots l l' : sublist l l' -> sublist (slots l) (slots l').
Proof.
  induction 1 as [|x l l' H IH|x l l' H IH]; cbn; [done| |]; destruct (Slot x); cbn; [by constructor|done|by constructor|done].
Qed.

(** An entry absorbed by the range next to it. *)
Lemma cover_absorb (k : Z * Z) c s1 e1 s e a :
  s1 <= e1 -> s <= e -> e1 + 1 = s \/ e + 1 = s1 ->
  c ++ (if within (Z.min s1 s) (Z.max e1 e) a then [k] else []) ≡ₚ
  ((if within s1 e1 a then [k] else []) ++ c) ++ (if within s e a then [k] else []).
Proof.
  intros H1 H2 H. rewrite <-app_assoc, (Permutation_app_comm _ (c ++ _)), <-app_assoc. f_equiv.
  unfold within. destruct H as [H|H];
    destruct (s1 <=? a) eqn:?, (a <=? e1) eqn:?, (s <=? a) eqn:?, (a <=? e) eqn:?; try lia;
    repeat case_match; try done; lia.
Qed.

Lemma Forall_sublist {A} (P : A -> Prop) l l' : sublist l l' -> Forall P l' -> Forall P l.
Proof. induction 1 as [|x l l' _ IH|x l l' _ IH]; [done|..]; intros [? ?]%Forall_cons; [constructor|]; auto. Qed.

Lemma AddRange_merge_spec T A l s e f r s' e' f' :
  AddRange_merge T A l s e f = (r, s', e', f') -> Forall entry_ok l -> page_range s e ->
  page_range s' e' /\ (s' <= s /\ e <= e') /\ sublist r l /\ (f <= f')%nat /\
  (forall E, E ∈ l -> E ∈ r \/ kind E = (T, A) /\ s' <= Start E /\ End_ E <= e') /\
  forall a, cover r a ++ (if within s' e' a then [(T, A)] else []) ≡ₚ
            cover l a ++ (if within s e a then [(T, A)] else []).
Proof.
  revert s e f r s' e' f'. induction l as [|E l IH]; intros s e f r s' e' f'; cbn [AddRange_merge].
  { intros [= <- <- <- <-] _ Hr. split; [done|]. split; [lia|]. split_and!; [done|lia|by left|done]. }
  intros Hm [HE Hl]%Forall_cons Hr. pose proof HE as [HEr _].
  destruct (decide (_ /\ _ /\ u64 _ = s)) as [(HT & HA & Hs)|_].
  { assert (End_ E + 1 = s) as Hs' by (unfold page_range in *; rewrite u64_id in Hs; lia).
    apply IH in Hm as (Hr' & Hse & Hsub & Hf & Hke & Hc); [|done|unfold page_range in *; lia].
    split; [done|]. split; [unfold page_range in *; lia|]. split_and!; [by apply sublist_cons|destruct (FromPages E); lia| |].
    { intros E0 [->|H0]%elem_of_cons; [right; unfold kind; rewrite HT, HA; split; [done|unfold page_range in *; lia]|by apply Hke]. }
    intros a. rewrite Hc, cover_cons.
    unfold kind. rewrite HT, HA. pose proof (cover_absorb (T, A) (cover l a) (Start E) (End_ E) s e a) as Hc'.
    rewrite Z.min_l, Z.max_r in Hc' by (unfold page_range in *; lia). apply Hc'; unfold page_range in *; lia. }
  destruct (decide (_ /\ _ /\ Start E = _)) as [(HT & HA & Hs)|_].
  { assert (Start E = e + 1) as Hs' by (unfold page_range in *; rewrite u64_id in Hs; lia).
    apply IH in Hm as (Hr' & Hse & Hsub & Hf & Hke & Hc); [|done|unfold page_range in *; lia].
    split; [done|]. split; [unfold page_range in *; lia|]. split_and!; [by apply sublist_cons|destruct (FromPages E); lia| |].
    { intros E0 [->|H0]%elem_of_cons; [right; unfold kind; rewrite HT, HA; split; [done|unfold page_range in *; lia]|by apply Hke]. }
    intros a. rewrite Hc, cover_cons.
    unfold kind. rewrite HT, HA. pose proof (cover_absorb (T, A) (cover l a) (Start E) (End_ E) s e a) as Hc'.
    rewrite Z.min_r, Z.max_l in Hc' by (unfold page_range in *; lia). apply Hc'; unfold page_range in *; lia. }
  destruct (AddRange_merge T A l s e f) as [[[r1 s1] e1] f1] eqn:Em. injection Hm as <- <- <- <-.
  apply IH in Em as (Hr' & Hse & Hsub & Hf & Hke & Hc); [|done..].
  split; [done|]. split; [done|]. split_and!; [by apply sublist_skip|done| |].
  { intros E0 [->|[H0|H0]%Hke]%elem_of_cons; [left; by apply elem_of_cons; left|left; by apply elem_of_cons; right|by right]. } intros a. rewrite !cover_cons, <-!app_assoc. by rewrite Hc.
Qed.

(** The bin of each type. *)
Definition bin (s : EFI_MEMORY_TYPE_STATISTICS) : Z * Z * Z * bool * bool :=
  (BaseAddress s, MaximumAddress s, NumberOfPages s, Special s, Runtime s).
Definition bins (st : PAGES) : list (Z * Z * Z * bool * bool) := bin <$> mMemoryTypeStatistics st.

Lemma bin_insert (l : list EFI_MEMORY_TYPE_STATISTICS) (i : nat) s s' : l !! i = Some s -> bin s' = bin s -> bin <$> <[i := s']> l = bin <$> l.
Proof. intros Hs Hb. rewrite list_fmap_insert, Hb. apply list_insert_id. by rewrite list_lookup_fmap, Hs. Qed.

(** The globals no step of the page allocator changes, and a bound on the
    entries it adds. *)
Definition kept (k : nat) (st st' : PAGES) : Prop :=
  mFreeMapStack st' = mFreeMapStack st /\ mDefaultMaximumAddress st' = mDefaultMaximumAddress st /\
  mGcdMemorySpaceMap st' = mGcdMemorySpaceMap st /\ bins st' = bins st /\
  (length (gMemoryMap st') <= k + length (gMemoryMap st))%nat.

Lemma kept_same k st st' : mFreeMapStack st' = mFreeMapStack st -> mDefaultMaximumAddress st' = mDefaultMaximumAddress st ->
  mGcdMemorySpaceMap st' = mGcdMemorySpaceMap st -> mMemoryTypeStatistics st' = mMemoryTypeStatistics st ->
  (length (gMemoryMap st') <= k + length (gMemoryMap st))%nat -> kept k st st'.
Proof. intros H1 H2 H3 H4 H5. unfold kept, bins. by rewrite H4. Qed.

Lemma kept_refl k st : kept k st st.
Proof. apply kept_same; done || lia. Qed.

Lemma kept_weaken k k' st st' : kept k st st' -> (k <= k')%nat -> kept k' st st'.
Proof. intros (? & ? & ? & ? & ?) ?. unfold kept. split_and!; done || lia. Qed.

Lemma kept_trans k1 k2 k x y z : kept k1 x y -> kept k2 y z -> (k1 + k2 <= k)%nat -> kept k x z.
Proof. intros (? & ? & ? & ? & ?) (? & ? & ? & ? & ?) ?. unfold kept. split_and!; congruence || lia. Qed.

(** The range [s..e] is now [k], the rest is as before. *)
Definition recast (s e : Z) (k : list (Z * Z)) (c c' : Z -> list (Z * Z)) : Prop :=
  forall a, c' a = if within s e a then k else c a.

(** The range lies in one entry. *)
Definition one_entry (l : list MEMORY_MAP) (s e : Z) (k : Z * Z) : Prop :=
  exists E, E ∈ l /\ kind E = k /\ Start E <= s /\ e <= End_ E.

(** Ranges that lay in one entry still do, if [P] holds of them. *)
Definition keeps (P : Z -> Z -> Z * Z -> Prop) (l l' : list MEMORY_MAP) : Prop :=
  forall s e k, s <= e -> P s e k -> one_entry l s e k -> one_entry l' s e k.
Definition always (s e : Z) (k : Z * Z) : Prop := True.
Definition apart (s e s0 e0 : Z) (k : Z * Z) : Prop := e0 < s \/ e < s0.

Lemma keeps_refl P l : keeps P l l.
Proof. by intros s e k _ _. Qed.

Lemma keeps_trans (P : Z -> Z -> Z * Z -> Prop) l1 l2 l3 : keeps P l1 l2 -> keeps P l2 l3 -> keeps P l1 l3.
Proof. intros H1 H2 s e k Hs HP Ho. apply H2; [done|done|]. by apply H1. Qed.

Lemma keeps_weaken (P Q : Z -> Z -> Z * Z -> Prop) l l' : (forall s e k, Q s e k -> P s e k) -> keeps P l l' -> keeps Q l l'.
Proof. intros H H1 s e k Hs HP Ho. by apply H1, Ho; [|apply H]. Qed.

Lemma slots_app l l' : slots (l ++ l') = slots l ++ slots l'.
Proof. apply omap_app. Qed.

Lemma push_entry_spec T s e A st : pages_ok st -> page_range s e -> 0 <= T ->
  (forall a, within s e a = true -> cover (gMemoryMap st) a = []) -> (mMapDepth st < MAX_MAP_DEPTH)%nat ->
  exists st', push_entry T s e A st = Done st' /\ pages_ok st' /\ kept 1 st st' /\
    mMapDepth st' = S (mMapDepth st) /\ mFreeMemoryMapEntryList st' = mFreeMemoryMapEntryList st /\
    mMemoryMapKey st' = mMemoryMapKey st /\ (one_entry (gMemoryMap st') s e (T, A) /\
    forall E, E ∈ gMemoryMap st -> E ∈ gMemoryMap st') /\
    recast s e [(T, A)] (cover (gMemoryMap st)) (cover (gMemoryMap st')).
Proof.
  intros [He Hd [Hs1 Hs2] Ht] Hr HT Hc Hdep. unfold push_entry. rewrite decide_True by done.
  eexists. split; [done|]. 
  assert (recast s e [(T, A)] (cover (gMemoryMap st))
    (cover (gMemoryMap st ++ [mkEntry (Some (mMapDepth st)) T s e A]))) as Hrc.
  { intros a. rewrite cover_app, cover_singleton. cbn [Start End_]. unfold kind; cbn [EntryType Attribute].
    destruct (within s e a) eqn:Hw; [by rewrite Hc|by rewrite app_nil_r]. }
  split_and!; [|apply kept_same; try done; cbn; rewrite length_app; cbn; lia|done|done|done| |intros E0 H0; apply elem_of_app; by left|done].
  2:{ eexists. split; [apply elem_of_app; right; by apply list_elem_of_singleton|]. by split_and!. }
  constructor; cbn [gMemoryMap mMapDepth set_depth set_entries].
  - apply Forall_app. split; [done|]. constructor; [|done]. done.
  - intros a. rewrite Hrc. case_match; [cbn; lia|done].
  - rewrite slots_app. cbn. split.
    + apply NoDup_app. split_and!; [done| |apply NoDup_singleton]. intros d Hin ->%list_elem_of_singleton.
      rewrite Forall_forall in Hs2. apply Hs2 in Hin. lia.
    + apply Forall_app. split; [eapply Forall_impl; [done|]; intros; cbn in *; lia|repeat constructor].
  - done.
Qed.

Lemma CoreAddRange_spec T s e A st : pages_ok st -> page_range s e -> 0 <= T ->
  (forall a, within s e a = true -> cover (gMemoryMap st) a = []) -> (mMapDepth st < MAX_MAP_DEPTH)%nat ->
  exists st', CoreAddRange T s e A st = Done st' /\ pages_ok st' /\ kept 1 st st' /\
    mMapDepth st' = S (mMapDepth st) /\ (mFreeMemoryMapEntryList st <= mFreeMemoryMapEntryList st')%nat /\
    mMemoryMapKey st' = u64 (mMemoryMapKey st + 1) /\ one_entry (gMemoryMap st') s e (T, A) /\
    keeps always (gMemoryMap st) (gMemoryMap st') /\
    recast s e [(T, A)] (cover (gMemoryMap st)) (cover (gMemoryMap st')).
Proof.
  intros Hok Hr HT Hc Hdep. unfold CoreAddRange. cbn [gMemoryMap set_key mFreeMemoryMapEntryList].
  destruct (AddRange_merge T A (gMemoryMap st) s e (mFreeMemoryMapEntryList st)) as [[[r s'] e'] f'] eqn:Em.
  destruct Hok as [He Hd [Hs1 Hs2] Ht].
  apply AddRange_merge_spec in Em as (Hr' & [Hs' He'] & Hsub & Hf & Hke & Hcov); [|done..].
  set (st1 := set_free f' _).
  assert (forall a, (length (cover r a) + (if within s' e' a then 1 else 0) <= 1)%nat) as Hlen.
  { intros a. pose proof (Permutation_length (Hcov a)) as Hl. rewrite !length_app in Hl.
    specialize (Hc a). specialize (Hd a). destruct (within s e a); [rewrite Hc in Hl by done|]; repeat case_match; cbn in *; lia. }
  destruct (push_entry_spec T s' e' A st1) as (st' & -> & Hok' & Hk & Hdp & Hfr & Hkey & ((E1 & HE1 & HK1 & HS1 & HE2) & Hin) & Hrc); [|done|done| |done|].
  - constructor; cbn [gMemoryMap mMapDepth set_free set_entries set_key st1].
    + by apply (Forall_sublist _ _ _ Hsub).
    + intros a. specialize (Hlen a). lia.
    + apply sublist_slots in Hsub. split; [by eapply sublist_NoDup|by apply (Forall_sublist _ _ _ Hsub)].
    + done.
  - intros a Hw. specialize (Hlen a). rewrite Hw in Hlen. apply nil_length_inv. cbn [gMemoryMap set_free set_entries st1]. lia.
  - exists st'. split_and!; [done|done|eapply (kept_trans 0); [|done|done]; apply kept_same; try done; by apply sublist_length|done|by rewrite Hfr|done|exists E1; split_and!; [done|done|lia|lia]| |].
    { intros s0 e0 k Hs0 _ (E0 & [H0|(HK & ? & ?)]%Hke & HK0 & ? & ?); [exists E0; split; [by apply Hin|done]|].
      exists E1. rewrite HK1, <-HK0, HK. split_and!; [done|done|lia|lia]. }
    intros a. rewrite Hrc. cbn [gMemoryMap set_free set_entries st1]. pose proof (Hcov a) as Hp. specialize (Hlen a).
    destruct (within s' e' a) eqn:Hw.
    + assert (cover r a = []) as E by (apply nil_length_inv; lia). rewrite E in Hp. cbn [app] in Hp.
      apply perm_short in Hp; [|cbn; lia]. specialize (Hc a). destruct (within s e a); [by auto|]. by rewrite app_nil_r in Hp.
    + rewrite app_nil_r in Hp. apply perm_short in Hp; [|lia]. specialize (Hc a).
      destruct (within s e a); [by rewrite Hc in Hp by done|]. by rewrite app_nil_r in Hp.
Qed.

(** [pages_ok] and [cover] do not depend on the order of the map. *)
Lemma pages_ok_perm st l : pages_ok st -> gMemoryMap st ≡ₚ l -> pages_ok (set_entries l st).
Proof.
  intros [He Hd [Hs1 Hs2] Ht] Hp. constructor; cbn [gMemoryMap set_entries mMapDepth].
  - by rewrite <-Hp.
  - intros a. by rewrite <-Hp.
  - unfold slots in *. by rewrite <-Hp.
  - done.
Qed.

(** Replacing one entry by others that say the same outside [s..e] and
    nothing inside. *)
Lemma pages_ok_replace st l i E news s e d :
  pages_ok st -> gMemoryMap st !! i = Some E -> l ≡ₚ news ++ delete i (gMemoryMap st) ->
  Forall entry_ok news -> (mMapDepth st <= d)%nat ->
  Start E <= s -> e <= End_ E ->
  (forall a, cover news a = if within s e a then [] else cover [E] a) ->
  NoDup (slots news) -> (forall k, k ∈ slots news -> (k < d)%nat /\ (Slot E = Some k \/ (mMapDepth st <= k)%nat)) ->
  (forall s0 e0, s0 <= e0 -> apart s e s0 e0 (kind E) -> Start E <= s0 -> e0 <= End_ E -> one_entry news s0 e0 (kind E)) ->
  pages_ok (set_depth d (set_entries l st)) /\ recast s e [] (cover (gMemoryMap st)) (cover l) /\
  keeps (apart s e) (gMemoryMap st) l.
Proof.
  intros [He Hd [Hs1 Hs2] Ht] HE Hl Hn Hdd Hse1 Hse2 Hc Hnd Hk Hkeep.
  pose proof (delete_Permutation _ _ _ HE) as Hp. set (rest := delete i (gMemoryMap st)) in *.
  assert (recast s e [] (cover (gMemoryMap st)) (cover l)) as Hrc.
  { intros a. pose proof (cover_perm _ _ Hp a _ eq_refl) as H1. pose proof (cover_perm _ _ Hl a _ eq_refl) as H2.
    rewrite cover_app, Hc in H2. specialize (Hd a). change (E :: rest) with ([E] ++ rest) in H1. rewrite cover_app in H1.
    destruct (within s e a) eqn:Hw.
    - apply Permutation_length in H1. rewrite cover_singleton, length_app in H1.
      replace (within (Start E) (End_ E) a) with true in H1 by (unfold within in *; lia).
      assert (cover rest a = []) as Hn' by (apply nil_length_inv; cbn in H1; lia).
      rewrite Hn' in H2. by apply Permutation_nil_r in H2.
    - symmetry. apply perm_short; [|done]. by rewrite H1, H2. }
  assert (keeps (apart s e) (gMemoryMap st) l) as Hkp.
  { intros s0 e0 k Hs0 Hap (E0 & H0 & HK & ? & ?). rewrite Hp in H0. apply elem_of_cons in H0 as [->|H0].
    - destruct (Hkeep s0 e0) as (E1 & HE1 & HK1 & ? & ?); [done|by rewrite HK|done|done|].
      exists E1. rewrite Hl, HK1, HK. split; [apply elem_of_app; by left|done].
    - exists E0. rewrite Hl. split; [apply elem_of_app; by right|done]. }
  split; [|done]. rewrite Hp in He. apply Forall_cons in He as [HEok He]. unfold slots in Hs1, Hs2. rewrite Hp in Hs1, Hs2.
  change (omap Slot (E :: rest)) with (slots ([E] ++ rest)) in Hs1, Hs2. rewrite slots_app in Hs1, Hs2.
  apply NoDup_app in Hs1 as (_ & Hs1 & Hs3). apply Forall_app in Hs2 as [Hs2 Hs4].
  constructor; cbn [gMemoryMap set_depth set_entries mMapDepth]; [| | |done].
  - rewrite Hl. by apply Forall_app.
  - intros a. rewrite Hrc. case_match; [cbn; lia|done].
  - unfold slots. rewrite Hl. fold slots. rewrite Forall_forall in Hs4. split.
    + change (NoDup (slots (news ++ rest))). rewrite slots_app. apply NoDup_app. split_and!; [done| |done].
      intros k Hk1 Hk2. destruct (Hk k Hk1) as [_ [HS|HS]]; [|apply Hs4 in Hk2; lia].
      apply (Hs1 k); [|done]. cbn. rewrite HS. by apply list_elem_of_singleton.
    + change (Forall (fun k => (k < d)%nat) (slots (news ++ rest))). rewrite slots_app. apply Forall_app.
      split; apply Forall_forall; intros k Hin; [by apply Hk|]. apply Hs4 in Hin. lia.
Qed.

(** Clipping or splitting the entry, and dropping it when nothing is left. *)
Definition drop_empty (j : nat) (E' : MEMORY_MAP) (st : PAGES) : PAGES :=
  if decide (Start E' = u64 (End_ E' + 1)) then RemoveMemoryMapEntry j E' st else st.

Lemma delete_insert_same {A} (l : list A) i x : delete i (<[i := x]> l) = delete i l.
Proof. revert i. induction l as [|y l IH]; intros [|i]; cbn; [done..|]. f_equal. apply IH. Qed.

Lemma insert_delete_perm (l : list MEMORY_MAP) i E E' :
  l !! i = Some E -> <[i := E']> l ≡ₚ E' :: delete i l.
Proof.
  intros H. rewrite (delete_Permutation (<[i:=E']> l) i E').
  - f_equiv. by rewrite delete_insert_same.
  - apply list_lookup_insert_eq. by eapply lookup_lt_Some.
Qed.

Lemma slot_bound st i E k : pages_ok st -> gMemoryMap st !! i = Some E -> Slot E = Some k -> (k < mMapDepth st)%nat.
Proof.
  intros Hok HE HS. pose proof (proj2 (ok_slots _ Hok)) as Hsl. rewrite Forall_forall in Hsl. apply Hsl.
  apply list_elem_of_omap. exists E. split; [by eapply list_elem_of_lookup_2|done].
Qed.

(** The entry is clipped to what lies on one side of [s..e]. *)
Lemma clip_spec st i E s e s1 e1 :
  pages_ok st -> gMemoryMap st !! i = Some E -> Start E <= s -> e <= End_ E -> s <= e -> page_range s1 e1 ->
  s1 = Start E /\ e1 = s - 1 /\ e = End_ E \/ s1 = e + 1 /\ e1 = End_ E /\ s = Start E ->
  pages_ok (set_entries (<[i := set_range s1 e1 E]> (gMemoryMap st)) st) /\
  recast s e [] (cover (gMemoryMap st)) (cover (<[i := set_range s1 e1 E]> (gMemoryMap st))) /\
  keeps (apart s e) (gMemoryMap st) (<[i := set_range s1 e1 E]> (gMemoryMap st)).
Proof.
  intros Hok HE Hs He Hse Hr Hside. pose proof (ok_entries _ Hok) as Hes. rewrite Forall_forall in Hes.
  destruct (Hes E) as [HEr HEt]; [by apply list_elem_of_lookup_2 in HE|]. clear Hes.
  destruct (pages_ok_replace st (<[i:=set_range s1 e1 E]> (gMemoryMap st)) i E
    [set_range s1 e1 E] s e (mMapDepth st)) as (H1 & H2 & H3); try done; try lia.
  - by apply (insert_delete_perm _ _ E).
  - constructor; [|done]. by split.
  - intros a. rewrite !cover_singleton. cbn. unfold within, kind. cbn. repeat case_match; try done; lia.
  - unfold slots. cbn. destruct (Slot E); [apply NoDup_singleton|apply NoDup_nil_2].
  - intros k. unfold slots. cbn. destruct (Slot E) eqn:HS; [|by intros ?%elem_of_nil].
    intros ->%list_elem_of_singleton. split; [by eapply slot_bound|by left].
  - intros s0 e0 Hs0 Hap ??. exists (set_range s1 e1 E). split; [by apply list_elem_of_singleton|].
    unfold apart in Hap. cbn. split; [done|lia].
Qed.

Lemma pull_spec s re i E st :
  pages_ok st -> gMemoryMap st !! i = Some E -> page_range s re -> Start E <= s -> re <= End_ E ->
  (mMapDepth st < MAX_MAP_DEPTH)%nat ->
  exists j E' st1, pull_range s re i E st = Done (j, E', st1) /\
    EntryType E' = EntryType E /\ Attribute E' = Attribute E /\
    let st2 := drop_empty j E' st1 in
    pages_ok st2 /\ kept 1 st st2 /\ (mMapDepth st <= mMapDepth st2 <= S (mMapDepth st))%nat /\
    (mFreeMemoryMapEntryList st <= mFreeMemoryMapEntryList st2)%nat /\ mMemoryMapKey st2 = mMemoryMapKey st /\
    keeps (apart s re) (gMemoryMap st) (gMemoryMap st2) /\
    recast s re [] (cover (gMemoryMap st)) (cover (gMemoryMap st2)).
Proof.
  intros Hok HE Hr Hs Hre Hdep. pose proof (ok_entries _ Hok) as He. rewrite Forall_forall in He.
  destruct (He E) as [HEr HEt]; [by apply list_elem_of_lookup_2 in HE|]. clear He.
  assert (Hse : s <= re) by apply Hr.
  assert (u64 (re + 1) = re + 1) as Hu1 by (apply u64_id; unfold page_range in *; lia).
  assert (u64 (End_ E + 1) = End_ E + 1) as Hu2 by (apply u64_id; unfold page_range in *; lia).
  unfold pull_range. rewrite Hu1. destruct (decide (Start E = s)) as [Es|Es].
  { eexists _, _, _. split; [done|]. do 2 (split; [done|]). unfold drop_empty. cbn [Start End_ set_range].
    rewrite Hu2. destruct (decide (re + 1 = End_ E + 1)) as [Ee|Ee].
    - destruct (pages_ok_replace st (delete i (gMemoryMap st)) i E [] s re (mMapDepth st)) as (H1 & H2 & H3);
        try done; try lia.
      + intros a. rewrite cover_singleton, cover_nil, Es. replace re with (End_ E) by lia. by case_match.
      + apply NoDup_nil_2.
      + intros k Hk. by apply elem_of_nil in Hk.
      + intros s0 e0 Hs0 Hap ??. unfold apart in Hap. lia.
      + unfold RemoveMemoryMapEntry. cbn [gMemoryMap set_entries]. rewrite delete_insert_same.
        case_match; (split_and!; [destruct H1; by constructor|apply kept_same; try done; etrans; [apply sublist_length, sublist_delete|lia]|cbn; lia|cbn; lia|cbn; lia|done|exact H3|done]).
    - destruct (clip_spec st i E s re (re + 1) (End_ E) Hok HE Hs Hre Hse
        ltac:(unfold page_range in *; lia) ltac:(lia)) as (H1 & H2 & H3).
      split_and!; [done|apply kept_same; try done; cbn; rewrite ?length_app, length_insert; cbn; lia|cbn; lia|cbn; lia|cbn; lia|done|exact H3|done]. }
  assert (u64 (s - 1) = s - 1) as Hu3 by (apply u64_id; unfold page_range in *; lia). rewrite Hu3.
  assert (page_range (Start E) (s - 1)) as Hlow.
  { unfold page_range in *. replace (s - 1 + 1) with s by lia. lia. }
  destruct (decide (End_ E = re)) as [Ee|Ee].
  { eexists _, _, _. split; [done|]. do 2 (split; [done|]). unfold drop_empty. cbn [Start End_ set_range].
    rewrite u64_id by (unfold page_range in *; lia). rewrite decide_False by lia.
    destruct (clip_spec st i E s re (Start E) (s - 1) Hok HE Hs Hre Hse Hlow ltac:(lia)) as (H1 & H2 & H3).
    split_and!; [done|apply kept_same; try done; cbn; rewrite ?length_app, length_insert; cbn; lia|cbn; lia|cbn; lia|cbn; lia|done|exact H3|done]. }
  cbn [mbind outcome_bind]. unfold push_entry. cbn [mMapDepth set_entries gMemoryMap]. rewrite decide_True by done. mred.
  eexists _, _, _. split; [done|]. do 2 (split; [done|]). unfold drop_empty. cbn [Start End_ mMapDepth].
  rewrite Hu2, decide_False by lia.
  set (N := mkEntry (Some (mMapDepth st)) (EntryType E) (re + 1) (End_ E) (Attribute E)).
  destruct (pages_ok_replace st (<[i:=set_range (Start E) (s - 1) E]> (gMemoryMap st) ++ [N]) i E
    [set_range (Start E) (s - 1) E; N] s re (S (mMapDepth st))) as (H1 & H2 & H3); try done; try lia.
  - rewrite (insert_delete_perm _ _ _ _ HE). cbn. rewrite <-Permutation_cons_append. by constructor.
  - repeat constructor; cbn; try done. all: unfold page_range in *; lia.
  - intros a. rewrite !cover_cons, cover_nil, !app_nil_r. cbn. unfold within, kind. cbn. repeat case_match; try done; lia.
  - unfold slots. cbn. destruct (Slot E) eqn:HS; [|apply NoDup_singleton].
    apply NoDup_cons. split; [|apply NoDup_singleton]. intros Hin%list_elem_of_singleton.
    pose proof (slot_bound _ _ _ _ Hok HE HS). lia.
  - intros k. unfold slots. cbn. destruct (Slot E) eqn:HS; cbn.
    + intros [->|Hin%list_elem_of_singleton]%elem_of_cons; [|lia].
      pose proof (slot_bound _ _ _ _ Hok HE HS). split; [lia|by left].
    + intros Hin%list_elem_of_singleton. lia.
  - intros s0 e0 Hs0 Hap ??. destruct Hap as [Hap|Hap].
    + exists (set_range (Start E) (s - 1) E). split; [by apply elem_of_cons; left|]. cbn. split; [done|lia].
    + exists N. split; [by apply elem_of_cons; right; apply list_elem_of_singleton|]. cbn. split; [done|lia].
  - split_and!; [done|apply kept_same; try done; cbn; rewrite ?length_app, length_insert; cbn; lia|cbn; lia|cbn; lia|cbn; lia|done|exact H3|done].
Qed.

(** The counters change nothing else, and never leave their tables. *)
Lemma count_pages_spec start n old new st : pages_ok st -> 0 <= old -> 0 <= new ->
  exists l i, count_pages start n old new st = Done (set_statistics l i st) /\
    pages_ok (set_statistics l i st) /\ kept 0 st (set_statistics l i st).
Proof.
  intros Hok Ho Hn. pose proof (ok_statistics _ Hok) as (Hl & Hf & Hi & Hmx).
  assert (forall l i, length l = 17%nat -> Forall stat_ok l -> bin <$> l = bins st -> length i = 17%nat ->
    pages_ok (set_statistics l i st) /\ kept 0 st (set_statistics l i st)) as Hset
    by (intros l i ????; split; [destruct Hok; by constructor|by unfold kept]).
  unfold count_pages.
  match goal with |- exists _ _, (?o ≫= _) = _ /\ _ =>
    assert (exists l, o = Done (set_statistics l (gMemoryTypeInformation st) st) /\ length l = 17%nat /\ Forall stat_ok l /\
      bin <$> l = bins st) as (l & E & Hl' & Hf' & Hb') end.
  { assert (set_statistics (mMemoryTypeStatistics st) (gMemoryTypeInformation st) st = st) as Hid' by by destruct st.
    destruct (decide _) as [Hold|]; [|exists (mMemoryTypeStatistics st); by rewrite Hid'].
    destruct (rd_done (mMemoryTypeStatistics st) old) as (s & -> & Hls); [unfold EfiMaxMemoryType in Hold; lia|].
    mred. case_match; [|exists (mMemoryTypeStatistics st); by rewrite Hid'].
    rewrite wr_done by (unfold EfiMaxMemoryType in Hold; lia). mred. eexists. split; [done|].
    rewrite length_insert. split; [done|]. split; [apply Forall_insert; [done|by apply (Forall_lookup_1 _ _ _ _ Hf Hls)]|by apply (bin_insert _ _ s)]. }
  rewrite E. mred. clear E.
  destruct (decide _) as [Hnew|]; [|by eexists _, _; split; [done|]; apply Hset].
  cbn [mMemoryTypeStatistics gMemoryTypeInformation set_statistics].
  destruct (rd_done l new) as (s & -> & Hls); [unfold EfiMaxMemoryType in Hnew; lia|].
  pose proof (Forall_lookup_1 _ _ _ _ Hf' Hls) as Hs.
  mred. case_match; [|by eexists _, _; split; [done|]; apply Hset].
  rewrite (wr_done l) by (unfold EfiMaxMemoryType in Hnew; lia). mred. unfold stat_ok in Hs.
  destruct (rd_done (gMemoryTypeInformation st) (InformationIndex s)) as (p & -> & _); [lia|]. mred.
  assert (forall v i, length i = 17%nat -> let l' := <[Z.to_nat new:=mkStatistics (BaseAddress s) (MaximumAddress s) v (NumberOfPages s)
    (InformationIndex s) (Special s) (Runtime s)]> l in pages_ok (set_statistics l' i st) /\ kept 0 st (set_statistics l' i st)) as Hfi.
  { intros v i Hli. apply Hset; [by rewrite length_insert|by apply Forall_insert|by rewrite (bin_insert _ _ s)|done]. }
  destruct (decide _); [rewrite (wr_done (gMemoryTypeInformation st)) by lia|]; mred; eexists _, _; (split; [done|]); apply Hfi; by rewrite ?length_insert.
Qed.

(** The entry the walk for address [s] stops at. *)
Abbreviation entry_at s := (list_find (fun E => Start E <= s /\ s < End_ E)).

(** One piece of a conversion, up to the call that empties the stack. *)
Lemma ConvertPages_piece_spec free_stack s e n CT New A st i E :
  let re := Z.min (End_ E) e in
  let T := if CT : bool then New else EntryType E in
  let A' := if CT then Attribute E else A in
  pages_ok st -> page_range s e -> entry_at s (gMemoryMap st) = Some (i, E) -> 0 <= New ->
  (CT = true -> (New <> EfiConventionalMemory -> e <= End_ E) /\
                ~ (New = EfiConventionalMemory <-> EntryType E = EfiConventionalMemory)) ->
  (mMapDepth st <= 4)%nat ->
  exists st2, ConvertPages_piece free_stack s e n CT New A st =
      (st3 ← free_stack st2; Done (inr (re + 1), st3)) /\
    pages_ok st2 /\ kept 2 st st2 /\ page_range s re /\
    (S (mMapDepth st) <= mMapDepth st2 <= 2 + mMapDepth st)%nat /\
    (mFreeMemoryMapEntryList st <= mFreeMemoryMapEntryList st2)%nat /\
    mMemoryMapKey st2 = u64 (mMemoryMapKey st + 1) /\ one_entry (gMemoryMap st2) s re (T, A') /\
    keeps (apart s re) (gMemoryMap st) (gMemoryMap st2) /\
    recast s re [(T, A')] (cover (gMemoryMap st)) (cover (gMemoryMap st2)).
Proof.
  intros re T A' Hok Hr Hfind HNew HCT Hdep. pose proof Hfind as (HE & [Hs1 Hs2] & _)%list_find_Some.
  pose proof (ok_entries _ Hok) as He. rewrite Forall_forall in He.
  destruct (He E) as [HEr HEt]; [by apply list_elem_of_lookup_2 in HE|]. clear He.
  assert (page_range s re) as Hre. { unfold re. unfold page_range in *. destruct (Z.min_spec (End_ E) e) as [[_ ->]|[_ ->]]; lia. }
  unfold ConvertPages_piece. rewrite Hfind. rewrite decide_False by (intros (-> & HN & Hlt); destruct HCT as [Hc _]; auto; apply Hc in HN; lia).
  replace (if decide (End_ E < e) then End_ E else e) with re by (unfold re; case_decide; lia).
  rewrite decide_False by (intros [-> Hiff]; by apply HCT).
  assert (exists st1, (if CT then count_pages s n (EntryType E) New st else mret st) = Done st1 /\ pages_ok st1 /\
    kept 0 st st1 /\ gMemoryMap st1 = gMemoryMap st /\ mMapDepth st1 = mMapDepth st /\
    mFreeMemoryMapEntryList st1 = mFreeMemoryMapEntryList st /\ mMemoryMapKey st1 = mMemoryMapKey st)
    as (st1 & -> & Hok1 & Hk1 & Hm1 & Hd1 & Hf1 & Hy1).
  { destruct CT; [|exists st; split_and!; try done; by apply kept_same]. destruct (count_pages_spec s n (EntryType E) New st Hok HEt HNew) as (l & j & -> & ? & ?).
    by exists (set_statistics l j st). }
  mred. destruct (pull_spec s re i E st1) as (j & E' & st2 & -> & HT & HA & Hok2 & Hk2 & Hd2 & Hf2 & Hy2 & Hkp2 & Hrc2);
    [done|by rewrite Hm1|done|done|unfold re; lia|unfold MAX_MAP_DEPTH; lia|].
  mred. rewrite HT, HA. fold T A'. fold (drop_empty j E' st2). set (st2' := drop_empty j E' st2) in *. clearbody st2'.
  destruct (CoreAddRange_spec T s re A' st2') as (st3 & -> & Hok3 & Hk3 & Hd3 & Hf3 & Hy3 & Ho3 & Hkp3 & Hrc3);
    [done|done|by unfold T; case_match| |unfold MAX_MAP_DEPTH; lia|].
  { intros a Hw. by rewrite Hrc2, Hw. }
  mred. exists st3. split_and!; [by rewrite u64_id by (unfold page_range in *; lia)|done|apply (kept_trans 0 2 _ _ st1); [done|by apply (kept_trans 1 1 _ _ st2'); [..|lia]|lia]|done|lia|lia|lia| |done| |].
  { by rewrite Hy3, Hy2, Hy1. }
  { rewrite <-Hm1. eapply keeps_trans; [done|]. by eapply keeps_weaken; [|done]. }
  intros a. rewrite Hrc3, Hrc2, Hm1. by case_match.
Qed.

Lemma insert_entry_perm E l : insert_entry E l ≡ₚ E :: l.
Proof.
  induction l as [|E2 l IH]; cbn; [done|]. case_match; [done|]. rewrite IH. apply Permutation_swap.
Qed.

(** Popping the top slot: its entry, if still linked, keeps its place in the
    map's account of every address. *)
Definition pop_slot (st : PAGES) : PAGES :=
  let d := pred (mMapDepth st) in
  let st := set_depth d st in
  match list_find (fun E => Slot E = Some d) (gMemoryMap st) with
  | Some (i, E) => set_entries (insert_entry (set_slot None E) (delete i (gMemoryMap st))) st
  | None => set_free (S (mFreeMemoryMapEntryList st)) st
  end.

Lemma pop_slot_spec st : pages_ok st -> (0 < mMapDepth st)%nat ->
  pages_ok (pop_slot st) /\ kept 0 st (pop_slot st) /\ mMapDepth (pop_slot st) = pred (mMapDepth st) /\
  (mFreeMemoryMapEntryList st <= mFreeMemoryMapEntryList (pop_slot st))%nat /\
  mMemoryMapKey (pop_slot st) = mMemoryMapKey st /\
  keeps always (gMemoryMap st) (gMemoryMap (pop_slot st)) /\
  forall a, cover (gMemoryMap (pop_slot st)) a = cover (gMemoryMap st) a.
Proof.
  intros Hok Hd. pose proof Hok as [He Hdj [Hs1 Hs2] Ht]. unfold pop_slot. cbn [gMemoryMap set_depth].
  destruct (list_find _ _) as [[i E]|] eqn:Hfind.
  - apply list_find_Some in Hfind as (HE & HS & _). pose proof (delete_Permutation _ _ _ HE) as Hp.
    set (rest := delete i (gMemoryMap st)) in *.
    assert (gMemoryMap (set_entries (insert_entry (set_slot None E) rest) (set_depth (Init.Nat.pred (mMapDepth st)) st))
      ≡ₚ set_slot None E :: rest) as Hp' by apply insert_entry_perm.
    assert (forall a, cover (insert_entry (set_slot None E) rest) a = cover (gMemoryMap st) a) as Hc.
    { intros a. symmetry. apply perm_short; [|done]. rewrite insert_entry_perm. rewrite (cover_perm _ _ Hp a _ eq_refl).
      by rewrite !cover_cons. }
    split; [|split_and!; [apply kept_same; try done; rewrite Hp', Hp; cbn; lia|done|cbn; lia|done| |done]].
    2:{ intros s e k _ _ (E1 & HE1 & HK & Hs & He1). cbn [gMemoryMap set_entries]. rewrite Hp in HE1.
        apply elem_of_cons in HE1 as [->|HE1].
        - exists (set_slot None E). rewrite insert_entry_perm. split; [by apply elem_of_cons; left|done].
        - exists E1. rewrite insert_entry_perm. split; [by apply elem_of_cons; right|done]. }
    constructor; [| | |done].
    + rewrite Hp'. rewrite Hp in He. apply Forall_cons in He as [? ?]. by constructor.
    + intros a. cbn [gMemoryMap set_entries]. by rewrite Hc.
    + unfold slots in *. rewrite Hp'. rewrite Hp in Hs1, Hs2. cbn [omap list_omap set_slot Slot mMapDepth set_entries set_depth] in *. rewrite HS in Hs1, Hs2.
      apply NoDup_cons in Hs1 as [Hnin Hs1]. split; [done|]. apply Forall_cons in Hs2 as [_ Hs2].
      apply Forall_forall. intros k Hk. rewrite Forall_forall in Hs2. specialize (Hs2 k Hk). cbn in Hs2.
      assert (k <> Init.Nat.pred (mMapDepth st)) by (intros ->; done). lia.
  - apply list_find_None in Hfind. split; [|split_and!; [by apply kept_same|done|cbn; lia|done|apply keeps_refl|done]].
    constructor; [done|done| |done]. split; [done|]. cbn [gMemoryMap set_free set_depth mMapDepth].
    apply Forall_forall. intros k Hk. rewrite Forall_forall in Hs2. specialize (Hs2 k Hk). cbn in Hs2.
    assert (k <> Init.Nat.pred (mMapDepth st)); [|lia]. intros ->. unfold slots in Hk.
    apply list_elem_of_omap in Hk as (E & HE & HS). rewrite Forall_forall in Hfind. by apply (Hfind E).
Qed.

Lemma FreeStack_loop_step fuel free_stack n st : mMapDepth st <> O ->
  FreeStack_loop fuel free_stack (S n) st =
    ('(ok, st1) ← AllocateMemoryMapEntry fuel free_stack st;
     if ok : bool then FreeStack_loop fuel free_stack n (pop_slot st1)
     else FreeStack_loop fuel free_stack n st1).
Proof.
  intros Hd. cbn [FreeStack_loop]. destruct (mMapDepth st) as [|d] eqn:E; [done|].
  apply bind_ext. intros [ok st1]. destruct ok; [|done]. unfold pop_slot. by destruct (list_find _ _) as [[??]|].
Qed.

(** With a descriptor for every slot the stack empties without allocating. *)
Lemma FreeStack_exact fuel free_stack n st : pages_ok st -> (mMapDepth st < n)%nat ->
  (mMapDepth st <= mFreeMemoryMapEntryList st)%nat ->
  exists st', FreeStack_loop fuel free_stack n st = Done st' /\ pages_ok st' /\ kept 0 st st' /\
    mMapDepth st' = 0%nat /\ (mFreeMemoryMapEntryList st - mMapDepth st <= mFreeMemoryMapEntryList st')%nat /\
    mMemoryMapKey st' = mMemoryMapKey st /\
    keeps always (gMemoryMap st) (gMemoryMap st') /\
    forall a, cover (gMemoryMap st') a = cover (gMemoryMap st) a.
Proof.
  revert st. induction n as [|n IH]; intros st Hok Hn Hf; [lia|].
  destruct (decide (mMapDepth st = O)) as [E|E].
  { exists st. cbn. rewrite E. split_and!; [done|done|by apply kept_same|done|lia|done|apply keeps_refl|done]. }
  rewrite FreeStack_loop_step by done. unfold AllocateMemoryMapEntry.
  destruct (mFreeMemoryMapEntryList st) as [|f] eqn:Ef; [lia|]. mred.
  assert (pages_ok (set_free f st)) as Hok1 by (destruct Hok; by constructor).
  destruct (pop_slot_spec _ Hok1 ltac:(cbn; lia)) as (Hok2 & Hk2 & Hd2 & Hf2 & Hy2 & Ho2 & Hc2). cbn in Hd2, Hf2, Hy2, Hc2.
  destruct (IH _ Hok2) as (st' & -> & Hok' & Hk' & Hd' & Hf' & Hy' & Ho' & Hc'); [lia|lia|].
  exists st'. split_and!; [done|done|by eapply (kept_trans 0 0); [eapply (kept_trans 0 0)|..]|done|lia|congruence|by eapply keeps_trans|]. intros a. by rewrite Hc', Hc2.
Qed.

(* ------------------------------------------------------------------ *)
(** ** Finding free pages *)

Lemma land_page a : Z.land a EFI_PAGE_MASK = a mod 4096.
Proof. change EFI_PAGE_MASK with (Z.ones 12). by rewrite Z.land_ones by lia. Qed.

Lemma ldiff_page a : Z.ldiff a EFI_PAGE_MASK = a - a mod 4096.
Proof.
  change EFI_PAGE_MASK with (Z.ones 12). rewrite Z.ldiff_ones_r, Z.shiftr_div_pow2, Z.shiftl_mul_pow2 by lia.
  change (2 ^ 12) with 4096. pose proof (Z.div_mod a 4096). lia.
Qed.

Lemma pages_to_size n : 0 <= n < 2 ^ 52 -> EFI_PAGES_TO_SIZE n = n * 4096.
Proof.
  intros H. unfold EFI_PAGES_TO_SIZE. rewrite Z.shiftl_mul_pow2 by lia. change (2 ^ 12) with 4096.
  apply u64_id. lia.
Qed.

(** A page count beyond 2^52 loses its high bits. *)
Lemma pages_to_size_mod n : 0 <= n -> EFI_PAGES_TO_SIZE n = (n mod 2 ^ 52) * 4096.
Proof.
  intros H. unfold EFI_PAGES_TO_SIZE. rewrite Z.shiftl_mul_pow2 by lia. unfold u64.
  change 18446744073709551616 with (2 ^ 52 * 4096). change (2 ^ 12) with 4096. by rewrite Z.mul_mod_distr_r by lia.
Qed.

(** [b] is the base of [n] free pages between [MinAddress] and [MaxAddress]. *)
Definition free_at (l : list MEMORY_MAP) (MaxAddress MinAddress n b : Z) : Prop :=
  exists E, E ∈ l /\ EntryType E = EfiConventionalMemory /\ Z.land (Attribute E) EFI_MEMORY_SP = 0 /\
    Start E <= b /\ b + n * 4096 - 1 <= End_ E /\ MinAddress <= b /\ b + n * 4096 - 1 <= MaxAddress /\
    b mod 4096 = 0.

(** The highest such range of one entry ends at [Z.min (End_ E) MaxAddress]. *)
Definition fits_in (MaxAddress MinAddress bytes : Z) (E : MEMORY_MAP) : Prop :=
  EntryType E = EfiConventionalMemory /\ Z.land (Attribute E) EFI_MEMORY_SP = 0 /\
  Z.max (Start E) MinAddress <= Z.min (End_ E) MaxAddress - bytes + 1.

#[export] Instance fits_in_dec Max Min bytes E : Decision (fits_in Max Min bytes E).
Proof. unfold fits_in. apply _. Defined.

Lemma FindFree_entry_spec Max Min n T E : entry_ok E -> is_u64 Max -> Max mod 4096 = 4095 -> 0 <= Min -> 0 < n ->
  FindFree_entry Max Min (n * 4096) 4096 T E =
    if decide (fits_in Max Min (n * 4096) E) then Z.max T (Z.min (End_ E) Max) else T.
Proof.
  intros [Hr _] HMax HMaxm HMin Hn. unfold FindFree_entry. change (4096 - 1) with EFI_PAGE_MASK.
  destruct (decide (EntryType E <> _)) as [HT|HT]; [by rewrite decide_False by (by intros [? _])|].
  destruct (decide (Z.land _ _ <> 0)) as [HA|HA]; [by rewrite decide_False by (by intros (_ & ? & _))|].
  assert (fits_in Max Min (n * 4096) E <-> Z.max (Start E) Min <= Z.min (End_ E) Max - n * 4096 + 1) as Hfit.
  { unfold fits_in. split; [by intros (_ & _ & ?)|]. intros. split_and!; [by destruct (decide (EntryType E = EfiConventionalMemory))|lia|done]. }
  destruct (decide (Max <= Start E \/ _)) as [Hs|Hs]; [by rewrite decide_False by (rewrite Hfit; lia)|].
  replace (if decide (Max <= End_ E) then Max else End_ E) with (Z.min (End_ E) Max) by (case_decide; lia).
  set (d := Z.min (End_ E) Max) in *.
  assert ((d + 1) mod 4096 = 0 /\ 0 <= d + 1 < 2 ^ 64) as [Hdm Hd].
  { unfold page_range in Hr. unfold d. destruct (Z.min_spec (End_ E) Max) as [[? ->]|[? ->]]; [lia|]. split; [dlia|lia]. }
  rewrite (u64_id (d + 1)) by lia. rewrite ldiff_page, Hdm. replace (d + 1 - 0 - 1) with d by lia. 
  unfold page_range in Hr. destruct (decide (d < 0)) as [Hd0|Hd0].
  { exfalso. unfold d in *. lia. }
  rewrite (u64_id d) by lia. destruct (decide (d < Start E)) as [Hds|Hds]; [by rewrite decide_False by (rewrite Hfit; lia)|].
  rewrite (u64_id (d - _ + 1)) by lia. destruct (decide (n * 4096 <= _)) as [Hb|Hb]; [|by rewrite decide_False by (rewrite Hfit; lia)].
  rewrite u64_id by lia. destruct (decide (d - n * 4096 + 1 < Min)) as [Hm|Hm]; [by rewrite decide_False by (rewrite Hfit; lia)|].
  destruct (decide (fits_in _ _ _ _)) as [|Hnf]; [case_decide; lia|exfalso; apply Hnf, Hfit; lia].
Qed.

(** The walk keeps the highest end. *)
Lemma FindFree_walk Max Min n l T : Forall entry_ok l -> is_u64 Max -> Max mod 4096 = 4095 -> 0 <= Min -> 0 < n ->
  let T' := foldl (FindFree_entry Max Min (n * 4096) 4096) T l in
  T <= T' /\ (T' = T \/ exists E, E ∈ l /\ fits_in Max Min (n * 4096) E /\ T' = Z.min (End_ E) Max) /\
  forall E, E ∈ l -> fits_in Max Min (n * 4096) E -> Z.min (End_ E) Max <= T'.
Proof.
  intros Hl HMax HMaxm HMin Hn. revert T. induction l as [|E l IH]; intros T; cbn [foldl].
  { split_and!; [lia|by left|by intros E ?%elem_of_nil]. }
  apply Forall_cons in Hl as [HE Hl]. rewrite FindFree_entry_spec by done.
  set (T1 := if decide _ then _ else _).
  assert (T <= T1 /\ (T1 = T \/ fits_in Max Min (n * 4096) E /\ T1 = Z.min (End_ E) Max) /\
    (fits_in Max Min (n * 4096) E -> Z.min (End_ E) Max <= T1)) as (H1 & H2 & H3).
  { unfold T1. case_decide as Hf; [|split_and!; [lia|by left|done]]. split_and!; [lia| |lia].
    destruct (Z.max_spec T (Z.min (End_ E) Max)) as [[_ ->]|[_ ->]]; [by right|by left]. }
  destruct (IH Hl T1) as (I1 & I2 & I3). split_and!; [lia| |].
  - destruct I2 as [->|(E' & HE' & Hf' & ->)].
    + destruct H2 as [->|[Hf ->]]; [by left|right]. exists E. split_and!; [by apply elem_of_cons; left|done|done].
    + right. exists E'. split_and!; [by apply elem_of_cons; right|done|done].
  - intros E' [->|HE']%elem_of_cons Hf; [|by apply I3]. specialize (H3 Hf). lia.
Qed.

(** The highest address that is the last of a page, at or below [Max]. *)
Definition page_top (Max : Z) : Z := Max - (Max + 1) mod 4096.

Lemma max_page Max : 4095 <= Max -> is_u64 Max ->
  (if decide (Z.land Max EFI_PAGE_MASK = EFI_PAGE_MASK) then Max
   else Z.lor (Z.ldiff (u64 (Max - (EFI_PAGE_MASK + 1))) EFI_PAGE_MASK) EFI_PAGE_MASK) = page_top Max.
Proof.
  intros H1 H2. rewrite land_page, ldiff_page. unfold page_top. change EFI_PAGE_MASK with 4095 at 1.
  case_decide as Hm; [dlia|]. set (x := u64 _ - _).
  assert (x = Max - 4096 - (Max - 4096) mod 4096) as Hx by (unfold x, EFI_PAGE_MASK; rewrite u64_id by dlia; done).
  pose proof (Z.add_lor_land x EFI_PAGE_MASK) as Hl. rewrite land_page in Hl.
  replace (x mod 4096) with 0 in Hl by dlia. unfold EFI_PAGE_MASK in *. dlia.
Qed.

(** The page finder: the highest fitting base, and zero exactly when nothing
    above address zero fits. *)
Lemma CoreFindFreePagesI_spec Max Min n st : pages_ok st -> is_u64 Max -> 0 <= Min -> 0 < n < 2 ^ 52 ->
  let r := CoreFindFreePagesI Max Min n 4096 st in
  (r = 0 /\ forall b, 0 < b -> ~ free_at (gMemoryMap st) Max Min n b) \/
  (0 < r /\ free_at (gMemoryMap st) Max Min n r /\ forall b, free_at (gMemoryMap st) Max Min n b -> b <= r).
Proof.
  intros Hok HMax HMin Hn. cbn zeta. unfold CoreFindFreePagesI.
  destruct (decide (Max < EFI_PAGE_MASK \/ n = 0)) as [Hs|Hs].
  { left. split; [done|]. intros b Hb (E & _ & _ & _ & _ & _ & Hlo & Hhi & Hm). unfold EFI_PAGE_MASK in Hs. dlia. }
  unfold EFI_PAGE_MASK in Hs. cbn zeta. rewrite max_page, pages_to_size by lia.
  pose proof (ok_entries _ Hok) as He.
  destruct (FindFree_walk (page_top Max) Min n (gMemoryMap st) 0) as (H1 & H2 & H3);
    [done|unfold page_top; dlia|unfold page_top; dlia|done|lia|].
  cbn zeta in *. set (T := foldl _ 0 _) in *. rewrite (u64_id (n * 4096 - 1)) by lia. set (r := if decide _ then _ else 0).
  rewrite Forall_forall in He.
  assert (forall b, free_at (gMemoryMap st) Max Min n b -> b + n * 4096 - 1 <= T) as Hbest.
  { intros b (E & HE & HT & HA & Hb1 & Hb2 & Hb3 & Hb4 & Hb5).
    assert (b + n * 4096 - 1 <= page_top Max) by (unfold page_top; dlia).
    assert (fits_in (page_top Max) Min (n * 4096) E) as Hf by (split_and!; [done|done|lia]).
    specialize (H3 E HE Hf). lia. }
  destruct H2 as [H2|(E & HE & Hf & H2)].
  - left. split.
    + unfold r. rewrite H2, land_page. rewrite decide_False; [done|].
      assert (u64 (0 - (n * 4096 - 1)) = 2 ^ 64 - (n * 4096 - 1)) as -> by
        (unfold u64; change 18446744073709551616 with (2 ^ 64); symmetry; apply Z.mod_unique with (-1); lia). dlia.
    + intros b Hb Hfree%Hbest. lia.
  - destruct (He E HE) as [HEr _]. destruct Hf as (HT & HA & Hf).
    assert (T + 1 - n * 4096 >= 0 /\ T < 2 ^ 64 /\ (T + 1) mod 4096 = 0) as (Hr0 & Hr1 & Hr2).
    { unfold page_range in HEr. rewrite H2. unfold page_top in *.
      destruct (Z.min_spec (End_ E) (Max - (Max + 1) mod 4096)) as [[? Hmn]|[? Hmn]]; rewrite Hmn in *; [lia|]. split; [lia|]. dlia. }
    assert (r = T + 1 - n * 4096) as Er.
    { unfold r. rewrite land_page, u64_id by lia. rewrite decide_True by dlia. lia. }
    destruct (decide (r = 0)) as [Hz|Hz].
    + left. split; [done|]. intros b Hb Hfree%Hbest. lia.
    + right. split; [lia|]. split; [|intros b Hfree%Hbest; lia].
      exists E. rewrite Er. split_and!; [done|done|done|lia|lia|lia|unfold page_top in *; dlia|dlia].
Qed.

Lemma free_at_weaken l Max Min Max' Min' n b : Max <= Max' -> Min' <= Min ->
  free_at l Max Min n b -> free_at l Max' Min' n b.
Proof. intros ?? (E & ? & ? & ? & ? & ? & ? & ? & ?). exists E. split_and!; try done; lia. Qed.

(** When something fits, something that fits is found, and nothing but the
    base of the default range moves. *)
Lemma FindFreePages_found fuel free_stack Max n New st b : (0 < fuel)%nat -> pages_ok st -> is_u64 Max ->
  0 < n < 2 ^ 52 -> 0 <= New -> 0 < b -> free_at (gMemoryMap st) Max 0 n b ->
  exists r a, FindFreePages fuel free_stack Max n New 4096 st = Done (r, set_default_base a st) /\
    0 < r /\ free_at (gMemoryMap st) Max 0 n r.
Proof.
  intros Hfuel Hok HMax Hn HNew Hb Hfree. unfold FindFreePages. destruct fuel as [|fuel]; [lia|]. cbn [FindFreePages_loop].
  pose proof (ok_statistics _ Hok) as (Hl & Hf & Hi & Hmx).
  assert (set_default_base (mDefaultBaseAddress st) st = st) as Hid by by destruct st.
  match goal with |- exists r a, (?o ≫= _) = _ /\ _ =>
    assert (exists r, o = Done r /\ (r = 0 \/ 0 < r /\ free_at (gMemoryMap st) Max 0 n r)) as (r1 & -> & Hr1) end.
  { destruct (decide _) as [HN|]; [|by exists 0; split; [|left]].
    destruct (rd_forall stat_ok (mMemoryTypeStatistics st) New Hf) as (s & -> & _ & Hs1 & Hs2);
      [unfold EfiMaxMemoryType in HN; lia|]. mred. eexists. split; [done|]. case_decide as Hm; [|by left].
    destruct (CoreFindFreePagesI_spec (MaximumAddress s) (BaseAddress s) n st Hok Hs2 Hs1 Hn) as [[-> _]|(Hp & Hfr & _)]; [by left|right].
    split; [done|]. eapply free_at_weaken; [..|done]; lia. }
  mred. destruct (decide (r1 <> 0)) as [Hz|Hz].
  { exists r1, (mDefaultBaseAddress st). rewrite Hid. destruct Hr1 as [?|[? ?]]; [lia|by split_and!]. }
  cbn zeta. set (r2 := if decide (mDefaultMaximumAddress st <= Max) then _ else 0).
  assert (r2 = 0 \/ 0 < r2 /\ free_at (gMemoryMap st) Max 0 n r2) as Hr2.
  { unfold r2. case_decide as Hm; [|by left].
    destruct (CoreFindFreePagesI_spec (mDefaultMaximumAddress st) 0 n st Hok Hmx ltac:(lia) Hn) as [[-> _]|(Hp & Hfr & _)]; [by left|right].
    split; [done|]. eapply free_at_weaken; [..|done]; lia. }
  clearbody r2. destruct (decide (r2 <> 0)) as [Hz2|Hz2].
  { destruct Hr2 as [?|[? ?]]; [lia|]. exists r2. case_decide; [by exists r2|]. exists (mDefaultBaseAddress st). by rewrite Hid. }
  destruct (CoreFindFreePagesI_spec Max 0 n st Hok HMax ltac:(lia) Hn) as [[_ Hno]|(Hp & Hfr & _)].
  { by destruct (Hno b). }
  rewrite decide_True by lia. eexists _, (mDefaultBaseAddress st). by rewrite Hid.
Qed.

(* ------------------------------------------------------------------ *)
(** ** Converting a range that lies in one entry *)

Lemma unique_holder st E E' a : pages_ok st -> E ∈ gMemoryMap st -> E' ∈ gMemoryMap st ->
  holds a E -> holds a E' -> E = E'.
Proof.
  intros Hok HE HE' Ha Ha'. pose proof (ok_disjoint _ Hok a) as Hd. unfold cover in Hd. rewrite length_fmap in Hd.
  assert (E ∈ filter (holds a) (gMemoryMap st)) as H1 by by apply list_elem_of_filter.
  assert (E' ∈ filter (holds a) (gMemoryMap st)) as H2 by by apply list_elem_of_filter.
  destruct (filter _ _) as [|x [|y l]]; [by apply elem_of_nil in H1| |cbn in Hd; lia].
  apply list_elem_of_singleton in H1, H2. congruence.
Qed.

(** The walk for a page finds the entry that holds it. *)
Lemma entry_at_found st E s : pages_ok st -> E ∈ gMemoryMap st -> Start E <= s -> s < End_ E ->
  exists i, entry_at s (gMemoryMap st) = Some (i, E).
Proof.
  intros Hok HE H1 H2. destruct (entry_at s (gMemoryMap st)) as [[i E']|] eqn:Hf.
  - exists i. pose proof Hf as (HE' & [? ?] & _)%list_find_Some. do 2 f_equal.
    apply (unique_holder st E' E s Hok); [by eapply list_elem_of_lookup_2|done|unfold holds; lia..].
  - apply list_find_None in Hf. rewrite Forall_forall in Hf. by destruct (Hf E HE).
Qed.

Lemma pages_range s n : s mod 4096 = 0 -> 0 <= s -> 0 < n < 2 ^ 52 -> s + n * 4096 < 2 ^ 64 ->
  page_range s (s + n * 4096 - 1).
Proof. intros. unfold page_range. split_and!; try lia; dlia. Qed.

Lemma ConvertPages_one fuel free_stack s pages n New st E :
  let e := s + n * 4096 - 1 in
  (2 <= fuel)%nat -> pages_ok st -> 0 < n < 2 ^ 52 -> pages <> 0 -> EFI_PAGES_TO_SIZE pages = n * 4096 -> s mod 4096 = 0 -> E ∈ gMemoryMap st ->
  Start E <= s -> e <= End_ E -> 0 <= New ->
  ~ (New = EfiConventionalMemory <-> EntryType E = EfiConventionalMemory) -> (mMapDepth st <= 4)%nat ->
  exists st2, CoreConvertPages fuel free_stack s pages New st = (st3 ← free_stack st2; Done (EFI_SUCCESS, st3)) /\
    pages_ok st2 /\ kept 2 st st2 /\ (S (mMapDepth st) <= mMapDepth st2 <= 2 + mMapDepth st)%nat /\
    (mFreeMemoryMapEntryList st <= mFreeMemoryMapEntryList st2)%nat /\
    mMemoryMapKey st2 = u64 (mMemoryMapKey st + 1) /\ one_entry (gMemoryMap st2) s e (New, Attribute E) /\
    keeps (apart s e) (gMemoryMap st) (gMemoryMap st2) /\
    recast s e [(New, Attribute E)] (cover (gMemoryMap st)) (cover (gMemoryMap st2)).
Proof.
  intros e Hfuel Hok Hn Hp0 Hp Hs HE Hs1 He1 HNew Hty Hdep. pose proof (ok_entries _ Hok) as Hes. rewrite Forall_forall in Hes.
  destruct (Hes E HE) as [HEr HEt]. unfold page_range in HEr.
  assert (page_range s e) as Hr by (apply pages_range; lia).
  unfold CoreConvertPages, CoreConvertPagesEx. rewrite Hp, land_page.
  rewrite u64_id by (unfold page_range in Hr; unfold e in *; lia). fold e. cbn zeta. rewrite decide_False by (unfold e; lia).
  destruct (entry_at_found st E s Hok HE) as [i Hi]; [lia|lia|].
  destruct fuel as [|[|fuel]]; [lia..|]. cbn [ConvertPages_loop]. rewrite decide_True by lia.
  destruct (ConvertPages_piece_spec free_stack s e pages true New 0 st i E Hok Hr Hi HNew) as
    (st2 & -> & Hok2 & Hk2 & _ & Hd2 & Hf2 & Hy2 & Ho2 & Hkp & Hrc); [done|lia|].
  exists st2. replace (Z.min (End_ E) e) with e in * by lia. split; [|split_and!; try done; lia].
  rewrite bind_assoc. apply bind_ext. intros st3. mred. by rewrite decide_False by lia.
Qed.

(** A page that can hold descriptors. *)
Definition spare (c : Z -> list (Z * Z)) : Prop :=
  exists b A, 0 < b /\ b mod 4096 = 0 /\ Z.land A EFI_MEMORY_SP = 0 /\ c b = [(EfiConventionalMemory, A)].

(** The map is the same, or one free page of it became a descriptor page. *)
Definition refilled (c c' : Z -> list (Z * Z)) : Prop :=
  (forall a, c' a = c a) \/
  exists p A, 0 < p /\ p mod 4096 = 0 /\
    (forall a, within p (p + 4095) a = true -> c a = [(EfiConventionalMemory, A)]) /\
    recast p (p + 4095) [(EfiBootServicesData, A)] c c'.

Lemma spare_free_at st : pages_ok st -> spare (cover (gMemoryMap st)) ->
  exists b, 0 < b /\ free_at (gMemoryMap st) MAX_ALLOC_ADDRESS 0 1 b.
Proof.
  intros Hok (b & A & Hb & Hm & HA & Hc). exists b. split; [done|].
  assert ((EfiConventionalMemory, A) ∈ cover (gMemoryMap st) b) as Hin by (rewrite Hc; by apply list_elem_of_singleton).
  apply list_elem_of_fmap in Hin as (E & [= HT ->] & [Hh HE]%list_elem_of_filter).
  pose proof (ok_entries _ Hok) as Hes. rewrite Forall_forall in Hes. destruct (Hes E HE) as [Hr _].
  unfold holds, page_range, MAX_ALLOC_ADDRESS in *. exists E. split_and!; try done; try lia; dlia.
Qed.

Lemma free_at_elem l Max Min n b : free_at l Max Min n b ->
  exists E, E ∈ l /\ EntryType E = EfiConventionalMemory /\ Start E <= b /\ b + n * 4096 - 1 <= End_ E /\
    b + n * 4096 - 1 <= Max /\ Min <= b /\ b mod 4096 = 0.
Proof. intros (E & ? & ? & ? & ? & ? & ? & ? & ?). exists E. by split_and!. Qed.

Lemma cover_elem st E a : pages_ok st -> E ∈ gMemoryMap st -> holds a E -> cover (gMemoryMap st) a = [kind E].
Proof.
  intros Hok HE Ha. assert (kind E ∈ cover (gMemoryMap st) a) as Hin.
  { unfold cover. apply list_elem_of_fmap. exists E. split; [done|]. by apply list_elem_of_filter. }
  pose proof (ok_disjoint _ Hok a) as Hd. destruct (cover _ a) as [|x [|y l]]; [by apply elem_of_nil in Hin| |cbn in Hd; lia].
  by apply list_elem_of_singleton in Hin as ->.
Qed.

(** A pool page taken while the stack is being emptied: one page of free
    memory changes hands, and the stack grows by at most two. *)
Lemma AllocatePoolPages_busy fuel free_stack New st : (2 <= fuel)%nat -> pages_ok st ->
  spare (cover (gMemoryMap st)) ->
  0 <= New -> New <> EfiConventionalMemory -> (mMapDepth st <= 4)%nat ->
  (forall st', mFreeMapStack st' = mFreeMapStack st -> free_stack st' = Done st') ->
  exists p A st', CoreAllocatePoolPages fuel free_stack New 1 4096 st = Done (p, st') /\ 0 < p /\ p mod 4096 = 0 /\
    pages_ok st' /\ kept 2 st st' /\ (S (mMapDepth st) <= mMapDepth st' <= 2 + mMapDepth st)%nat /\
    (mFreeMemoryMapEntryList st <= mFreeMemoryMapEntryList st')%nat /\
    mMemoryMapKey st' = u64 (mMemoryMapKey st + 1) /\
    keeps (apart p (p + 4095)) (gMemoryMap st) (gMemoryMap st') /\
    (forall a, within p (p + 4095) a = true -> cover (gMemoryMap st) a = [(EfiConventionalMemory, A)]) /\
    recast p (p + 4095) [(New, A)] (cover (gMemoryMap st)) (cover (gMemoryMap st')).
Proof.
  intros Hfuel Hok Hsp HNew HNc Hdep Hfs. unfold CoreAllocatePoolPages.
  destruct (spare_free_at st Hok Hsp) as (b & Hb & Hfree).
  destruct (FindFreePages_found fuel free_stack MAX_ALLOC_ADDRESS 1 New st b) as (p & d & -> & Hp & Hfr);
    [lia|done|done|lia|done|done|done|]. mred. rewrite decide_False by lia.
  apply free_at_elem in Hfr as (E & HE & HT & Hs & He & _ & _ & Hm).
  assert (pages_ok (set_default_base d st)) as Hok1 by (destruct Hok; by constructor).
  destruct (ConvertPages_one fuel free_stack p 1 1 New (set_default_base d st) E) as
    (st2 & -> & Hok2 & Hk2 & Hd2 & Hf2 & Hy2 & _ & Hkp & Hrc);
    [done|done|lia|done|done|done|done|lia|lia|done|rewrite HT; tauto|done|].
  cbn in Hd2, Hf2, Hy2, Hkp, Hrc. replace (p + 1 * 4096 - 1) with (p + 4095) in * by lia.
  rewrite Hfs by apply Hk2. mred. exists p, (Attribute E), st2. split_and!; try done; try lia.
  intros a Hw. rewrite (cover_elem st E a Hok HE) by (unfold holds, within in *; lia). unfold kind. by rewrite HT.
Qed.

(** The account of the map is untouched and each slot cost at most one
    descriptor. *)
Definition undisturbed (st st' : PAGES) : Prop :=
  (forall a, cover (gMemoryMap st') a = cover (gMemoryMap st) a) /\
  (mFreeMemoryMapEntryList st - mMapDepth st <= mFreeMemoryMapEntryList st')%nat.

(** Memory that is in use is not touched. *)
Definition in_use (s e : Z) (k : Z * Z) : Prop := k.1 <> EfiConventionalMemory.

(** An entry of one kind lies apart from a range of another. *)
Lemma one_entry_apart st s e k p q A : pages_ok st -> s <= e -> p <= q -> one_entry (gMemoryMap st) s e k -> in_use s e k ->
  (forall a, within p q a = true -> cover (gMemoryMap st) a = [(EfiConventionalMemory, A)]) ->
  apart p q s e k.
Proof.
  intros Hok Hse Hpq (E & HE & HK & Hs & He) Hk Hp. destruct (decide (apart p q s e k)) as [|Hn]; [done|exfalso].
  unfold apart in Hn. assert (within p q (Z.max s p) = true) as Hw by (unfold within; lia).
  specialize (Hp _ Hw). rewrite (cover_elem st E) in Hp by (done || unfold holds; lia). unfold in_use in Hk.
  rewrite <-HK in Hk. by injection Hp as Hp _.
Qed.

(** Emptying a stack of at most two slots takes at most one more page. *)
Lemma FreeStack_refill fuel free_stack n st : (2 <= fuel)%nat -> (3 + mMapDepth st <= n)%nat -> pages_ok st ->
  (mMapDepth st <= 2)%nat ->
  (forall st', mFreeMapStack st' = mFreeMapStack st -> free_stack st' = Done st') ->
  (mMapDepth st <= mFreeMemoryMapEntryList st)%nat \/ spare (cover (gMemoryMap st)) ->
  exists st', FreeStack_loop fuel free_stack n st = Done st' /\ pages_ok st' /\ kept 2 st st' /\ mMapDepth st' = 0%nat /\
    (mMemoryMapKey st' = mMemoryMapKey st \/ mMemoryMapKey st' = u64 (mMemoryMapKey st + 1)) /\
    refilled (cover (gMemoryMap st)) (cover (gMemoryMap st')) /\ keeps in_use (gMemoryMap st) (gMemoryMap st') /\
    ((mMapDepth st <= mFreeMemoryMapEntryList st)%nat -> undisturbed st st').
Proof.
  intros Hfuel. revert st. induction n as [|n IH]; intros st Hn Hok Hd Hfs Hsp; [lia|].
  destruct (decide (mMapDepth st <= mFreeMemoryMapEntryList st)%nat) as [Hex|Hex].
  { destruct (FreeStack_exact fuel free_stack (S n) st Hok ltac:(lia) Hex) as (st' & -> & ? & ? & ? & ? & ? & ? & ?).
    exists st'. split_and!; try done; [eapply kept_weaken; [done|lia]|by left|by left|eapply keeps_weaken; [|done]; done]. }
  destruct Hsp as [?|Hsp]; [lia|]. rewrite FreeStack_loop_step by lia. unfold AllocateMemoryMapEntry.
  destruct (mFreeMemoryMapEntryList st) as [|f] eqn:Ef.
  - change (EFI_SIZE_TO_PAGES DEFAULT_PAGE_ALLOCATION_GRANULARITY) with 1.
    change DEFAULT_PAGE_ALLOCATION_GRANULARITY with 4096.
    destruct (AllocatePoolPages_busy fuel free_stack EfiBootServicesData st) as
      (p & A & st1 & -> & Hp & Hpm & Hok1 & Hk1 & Hd1 & Hf1 & Hy1 & Hkp1 & Hc1 & Hrc1); try done; try lia.
    mred. rewrite decide_False by lia. mred. set (st2 := set_free _ st1).
    assert (pages_ok st2) as Hok2 by (destruct Hok1; by constructor).
    destruct (pop_slot_spec st2 Hok2 ltac:(cbn; lia)) as (Hok3 & Hk3 & Hd3 & Hf3 & Hy3 & Hkp3 & Hc3). cbn [gMemoryMap st2 set_free mMapDepth mMemoryMapKey mFreeMemoryMapEntryList] in Hd3, Hf3, Hy3, Hc3.
    destruct (FreeStack_exact fuel free_stack n (pop_slot st2) Hok3 ltac:(lia) ltac:(lia))
      as (st' & -> & ? & Hk' & ? & _ & Hy' & Hkp' & Hc'). exists st'.
    split_and!; [done|done|apply (kept_trans 2 0 _ _ st2); [by apply (kept_trans 2 0 _ _ st1); [|apply kept_same|]|by apply (kept_trans 0 0 _ _ (pop_slot st2))|lia]|done|right; congruence| | |lia].
    2:{ intros s e k Hse Hu Ho. apply Hkp'; [done|done|]. apply Hkp3; [done|done|]. apply Hkp1; [done| |done].
        exact (one_entry_apart st s e k p (p + 4095) A Hok Hse ltac:(lia) Ho Hu Hc1). }
    right. exists p, A. split_and!; [done|done|done|]. intros a. by rewrite Hc', Hc3, Hrc1.
  - mred. assert (pages_ok (set_free f st)) as Hok1 by (destruct Hok; by constructor).
    destruct (pop_slot_spec _ Hok1 ltac:(cbn; lia)) as (Hok2 & Hk2 & Hd2 & Hf2 & Hy2 & Ho2 & Hc2). cbn [gMemoryMap set_free mMapDepth mMemoryMapKey mFreeMemoryMapEntryList] in Hd2, Hf2, Hy2, Hc2.
    destruct (IH (pop_slot (set_free f st))) as (st' & -> & Hok' & Hk' & Hd' & Hy' & Hr' & Hkp' & _); [lia|done|lia| | |].
    + intros st' Hb. apply Hfs. rewrite Hb. by destruct Hk2 as [-> _].
    + right. destruct Hsp as (b & A & ? & ? & ? & ?). exists b, A. by rewrite Hc2.
    + exists st'. split_and!; [done|done|by apply (kept_trans 0 2 _ _ (pop_slot (set_free f st))); [apply (kept_trans 0 0 _ _ (set_free f st)); [by apply kept_same|done|lia]|..]|done|by rewrite <-Hy2| | |lia].
      2:{ eapply keeps_trans; [|done]. by eapply keeps_weaken; [|done]. }
      destruct Hr' as [Hr'|(p & A & ? & ? & Hc' & Hr')]; [left; intros a; by rewrite Hr'|right].
      exists p, A. split_and!; [done|done|intros a Hw; rewrite <-Hc2; auto|intros a; by rewrite Hr', Hc2].
Qed.

(** Between calls the stack is empty and nobody empties it. *)
Definition quiet (st : PAGES) : Prop := mMapDepth st = 0%nat /\ mFreeMapStack st = 0 /\ is_u64 (mMemoryMapKey st).

Lemma FreeMemoryMapStack_rec_S fuel k st :
  FreeMemoryMapStack_rec fuel (S k) st =
    if decide (mFreeMapStack st <> 0) then mret st
    else st ← FreeStack_loop fuel (FreeMemoryMapStack_rec fuel k) fuel (set_busy (u64 (mFreeMapStack st + 1)) st);
         mret (set_busy (u64 (mFreeMapStack st - 1)) st).
Proof. done. Qed.

Lemma CoreFreeMemoryMapStack_spec fuel st : (5 <= fuel)%nat -> pages_ok st -> (mMapDepth st <= 2)%nat ->
  mFreeMapStack st = 0 -> (mMapDepth st <= mFreeMemoryMapEntryList st)%nat \/ spare (cover (gMemoryMap st)) ->
  exists st', CoreFreeMemoryMapStack fuel st = Done st' /\ pages_ok st' /\ kept 2 st st' /\ mMapDepth st' = 0%nat /\
    (mMemoryMapKey st' = mMemoryMapKey st \/ mMemoryMapKey st' = u64 (mMemoryMapKey st + 1)) /\
    refilled (cover (gMemoryMap st)) (cover (gMemoryMap st')) /\ keeps in_use (gMemoryMap st) (gMemoryMap st') /\
    ((mMapDepth st <= mFreeMemoryMapEntryList st)%nat -> undisturbed st st').
Proof.
  intros Hfuel Hok Hd Hb Hsp. unfold CoreFreeMemoryMapStack. rewrite FreeMemoryMapStack_rec_S, Hb.
  rewrite decide_False by lia. change (u64 (0 + 1)) with 1.
  destruct (FreeStack_refill fuel (FreeMemoryMapStack_rec fuel 1) fuel (set_busy 1 st)) as
    (st1 & E & Hok1 & (Hk1 & Hk2 & Hk3) & Hd1 & Hy1 & Hr1 & Hkp1 & He1); try done; try (cbn; lia).
  { destruct Hok; by constructor. }
  { intros st' Hst'. by rewrite FreeMemoryMapStack_rec_S, decide_True by (rewrite Hst'; done). }
  rewrite E. mred. cbn in Hk1, Hk2, Hk3. eexists. split; [done|]. split_and!; try done.
  - destruct Hok1; by constructor.
  - split; [cbn; by rewrite Hk1, Hb|split; [done|exact Hk3]].
Qed.

Lemma u64_succ_neq k : is_u64 k -> u64 (k + 1) <> k.
Proof. intros H. unfold u64. destruct (decide (k = 18446744073709551615)) as [->|]; [done|]. rewrite Z.mod_small; lia. Qed.

(** The conversion of pages of one entry. *)
Lemma CoreConvertPages_spec fuel s pages n New st E :
  let e := s + n * 4096 - 1 in
  let now a := if within s e a then [(New, Attribute E)] else cover (gMemoryMap st) a in
  (5 <= fuel)%nat -> pages_ok st -> quiet st -> 0 < n < 2 ^ 52 -> pages <> 0 -> EFI_PAGES_TO_SIZE pages = n * 4096 ->
  s mod 4096 = 0 -> E ∈ gMemoryMap st ->
  Start E <= s -> e <= End_ E -> 0 <= New ->
  ~ (New = EfiConventionalMemory <-> EntryType E = EfiConventionalMemory) ->
  (2 <= mFreeMemoryMapEntryList st)%nat \/ spare now ->
  exists st', CoreConvertPages fuel (CoreFreeMemoryMapStack fuel) s pages New st = Done (EFI_SUCCESS, st') /\
    pages_ok st' /\ quiet st' /\ kept 4 st st' /\ mMemoryMapKey st' <> mMemoryMapKey st /\
    refilled now (cover (gMemoryMap st')) /\
    (New <> EfiConventionalMemory -> one_entry (gMemoryMap st') s e (New, Attribute E)) /\
    keeps (fun s0 e0 k => apart s e s0 e0 k /\ in_use s0 e0 k) (gMemoryMap st) (gMemoryMap st') /\
    ((2 <= mFreeMemoryMapEntryList st)%nat -> (forall a, cover (gMemoryMap st') a = now a) /\
      (mFreeMemoryMapEntryList st <= 2 + mFreeMemoryMapEntryList st')%nat).
Proof.
  intros e now Hfuel Hok (Hd0 & Hb0 & Hy0) Hn Hp0 Hp Hs HE Hs1 He1 HNew Hty Hsp.
  destruct (ConvertPages_one fuel (CoreFreeMemoryMapStack fuel) s pages n New st E) as
    (st2 & -> & Hok2 & Hk2 & Hd2 & Hf2 & Hy2 & Ho2 & Hkp2 & Hrc); try done; try lia.
  destruct (CoreFreeMemoryMapStack_spec fuel st2 Hfuel Hok2) as (st3 & -> & Hok3 & Hk3 & Hd3 & Hy3 & Hr3 & Hkp3 & He3).
  { lia. } { destruct Hk2 as [-> _]. done. }
  { destruct Hsp as [?|(b & A & ? & ? & ? & ?)]; [left; lia|right]. exists b, A. split_and!; [done..|]. by rewrite Hrc. }
  mred. exists st3. split_and!; [done|done| |by apply (kept_trans 2 2 _ _ st2)| | | | |].
  - split; [done|]. split; [by destruct Hk3 as [-> _]; destruct Hk2 as [-> _]|].
    destruct Hy3 as [->| ->]; [rewrite Hy2|]; apply u64_range.
  - destruct Hy3 as [->| ->]; rewrite Hy2; [by apply u64_succ_neq|].
    unfold u64. rewrite Zplus_mod_idemp_l. destruct (decide (mMemoryMapKey st + 1 + 1 < 18446744073709551616)).
    + rewrite Z.mod_small; lia.
    + rewrite <-(Z.mod_unique (mMemoryMapKey st + 1 + 1) 18446744073709551616 1 (mMemoryMapKey st + 2 - 18446744073709551616)); lia.
  - destruct Hr3 as [Hr3|(p & A & ? & ? & Hc & Hr3)].
    + left. intros a. by rewrite Hr3, Hrc.
    + right. exists p, A. do 2 (split; [done|]). split; [intros a Hw; unfold now; rewrite <-Hrc; auto|].
      intros a. by rewrite Hr3, Hrc.
  - intros HN. apply Hkp3; [lia|done|done].
  - intros s0 e0 k Hse [Hap Hu] Ho. apply Hkp3; [done|done|]. by apply Hkp2.
  - intros H2. destruct He3 as (Hc3 & Hf3); [lia|]. split; [intros a; by rewrite Hc3, Hrc|lia].
Qed.

(* ------------------------------------------------------------------ *)
(** ** Allocating and freeing pages *)

(** Nothing is left to promote: all reported memory has been tested. *)
Definition settled (st : PAGES) : Prop := Forall (fun G => promotable G = false) (mGcdMemorySpaceMap st).

Lemma PromoteMemoryResource_settled free_stack st : settled st ->
  PromoteMemoryResource free_stack st = Done (false, st).
Proof.
  intros Hs. unfold PromoteMemoryResource.
  destruct (for_count_inv (fun _ s => s = (false, st)) (Z.of_nat (length (mGcdMemorySpaceMap st)))
    (fun i '(p, st) =>
    G ← rd (mGcdMemorySpaceMap st) i;
    if promotable G then
      let G := promoted G in
      g ← wr (mGcdMemorySpaceMap st) i G;
      st ← CoreAddRange EfiConventionalMemory (GcdBase G) (GcdEnd G)
             (Z.ldiff (Capabilities G) (Z.lor (Z.lor (Z.lor EFI_MEMORY_PRESENT EFI_MEMORY_INITIALIZED)
                                                     EFI_MEMORY_TESTED) EFI_MEMORY_RUNTIME))
             (set_gcd g st);
      st ← free_stack st;
      mret (true, st)
    else mret (p, st)) (false, st)) as (s' & E & ->); [lia|done| |done].
  intros i s Hi ->. destruct (rd_forall _ _ i Hs Hi) as (G & -> & HG). mred. rewrite HG. by eexists.
Qed.

(** When nothing fits, the finder changes nothing. *)
Lemma FindFreePages_none fuel free_stack Max n New st : (0 < fuel)%nat -> pages_ok st -> is_u64 Max ->
  0 < n < 2 ^ 52 -> 0 <= New -> settled st -> (forall b, 0 < b -> ~ free_at (gMemoryMap st) Max 0 n b) ->
  FindFreePages fuel free_stack Max n New 4096 st = Done (0, st).
Proof.
  intros Hfuel Hok HMax Hn HNew Hset Hno. unfold FindFreePages. destruct fuel as [|fuel]; [lia|]. cbn [FindFreePages_loop].
  pose proof (ok_statistics _ Hok) as (Hl & Hf & Hi & Hmx).
  assert (forall Mx Mn, is_u64 Mx -> 0 <= Mn -> Mx <= Max -> CoreFindFreePagesI Mx Mn n 4096 st = 0) as Hz.
  { intros Mx Mn HMx HMn Hle. destruct (CoreFindFreePagesI_spec Mx Mn n st Hok HMx HMn Hn) as [[-> _]|(Hp & Hfr & _)]; [done|].
    exfalso. apply (Hno _ Hp). eapply free_at_weaken; [..|done]; lia. }
  match goal with |- (?o ≫= _) = _ => assert (o = Done 0) as -> end.
  { destruct (decide _) as [HN|]; [|done].
    destruct (rd_forall stat_ok (mMemoryTypeStatistics st) New Hf) as (s & -> & _ & Hs1 & Hs2);
      [unfold EfiMaxMemoryType in HN; lia|]. mred. case_decide as Hm; [|done]. by rewrite Hz by lia. }
  mred. rewrite decide_False by lia. cbn zeta.
  replace (if decide (mDefaultMaximumAddress st <= Max) then _ else 0) with 0 by (case_decide; [by rewrite Hz|done]).
  rewrite decide_False by lia. rewrite Hz by lia. rewrite decide_False by lia.
  by rewrite PromoteMemoryResource_settled.
Qed.

(** The finder only looks at the size in bytes. *)
Lemma FindFreePages_size fuel free_stack Max pages n New Alignment st : pages <> 0 -> n <> 0 ->
  EFI_PAGES_TO_SIZE pages = EFI_PAGES_TO_SIZE n ->
  FindFreePages fuel free_stack Max pages New Alignment st = FindFreePages fuel free_stack Max n New Alignment st.
Proof.
  intros Hp Hn Hsz. unfold FindFreePages. revert st.
  assert (forall Mx Mn st, CoreFindFreePagesI Mx Mn pages Alignment st = CoreFindFreePagesI Mx Mn n Alignment st) as Hc.
  { intros Mx Mn st. unfold CoreFindFreePagesI. rewrite Hsz.
    destruct (decide (_ \/ pages = 0)), (decide (_ \/ n = 0)); try done; lia. }
  induction fuel as [|k IH]; intros st; [done|]. cbn [FindFreePages_loop]. rewrite !Hc.
  match goal with |- (?a ≫= _) = (?b ≫= _) => assert (a = b) as -> end.
  { destruct (decide (New < EfiMaxMemoryType)); [|done]. apply bind_ext. intros s. by rewrite Hc. }
  apply bind_ext. intros r. destruct (decide (r <> 0)); [done|]. cbn zeta.
  set (r2 := if decide (mDefaultMaximumAddress st <= Max) then _ else 0).
  destruct (decide (r2 <> 0)); [done|]. destruct (decide (CoreFindFreePagesI _ _ _ _ _ <> 0)); [done|].
  apply bind_ext. intros [[] st']; [apply IH|done].
Qed.

(** The memory types a caller may ask for. *)
Definition allocatable (M : Z) : Prop :=
  0 <= M /\ (M < EfiMaxMemoryType \/ MEMORY_TYPE_OEM_RESERVED_MIN <= M) /\
  M <> EfiConventionalMemory /\ M <> EfiPersistentMemory /\ M <> EfiUnacceptedMemoryType.

Lemma granularity_4096 M : granularity M = 4096.
Proof. unfold granularity. by case_decide. Qed.

Lemma round_pages_4096 n : is_u64 n -> round_pages n 4096 = n.
Proof.
  intros H. unfold round_pages. change (EFI_SIZE_TO_PAGES 4096) with 1. change (1 - 1) with 0.
  rewrite Z.ldiff_0_r. rewrite u64_id; lia.
Qed.

(** The [n] pages at [r] change hands: they were free, with attribute [A],
    and are of type [M] now; the rest of the map is as it was, but for a page
    of descriptors that may be taken from free memory; the key has moved. *)
Definition taken (M n r A : Z) (st st' : PAGES) : Prop :=
  let e := r + n * 4096 - 1 in
  let now a := if within r e a then [(M, A)] else cover (gMemoryMap st) a in
  pages_ok st' /\ quiet st' /\ (settled st' /\ kept 4 st st') /\
  (forall a, within r e a = true -> cover (gMemoryMap st) a = [(EfiConventionalMemory, A)]) /\
  mMemoryMapKey st' <> mMemoryMapKey st /\ refilled now (cover (gMemoryMap st')) /\
  one_entry (gMemoryMap st') r e (M, A) /\ keeps in_use (gMemoryMap st) (gMemoryMap st') /\
  ((2 <= mFreeMemoryMapEntryList st)%nat -> (forall a, cover (gMemoryMap st') a = now a) /\
    (mFreeMemoryMapEntryList st <= 2 + mFreeMemoryMapEntryList st')%nat).

(** Whatever range is taken, descriptors are left or can be made. *)
Definition ample (Max M n : Z) (st : PAGES) : Prop :=
  forall r A, 0 < r -> free_at (gMemoryMap st) Max 0 n r -> (2 <= mFreeMemoryMapEntryList st)%nat \/
    spare (fun a => if within r (r + n * 4096 - 1) a then [(M, A)] else cover (gMemoryMap st) a).

(** Finding pages and converting them. *)
Lemma find_and_convert fuel Max M pages st :
  let n := pages mod 2 ^ 52 in
  (5 <= fuel)%nat -> pages_ok st -> quiet st -> settled st -> is_u64 pages -> 0 < n -> allocatable M -> is_u64 Max ->
  ample Max M n st ->
  (exists r d A st', FindFreePages fuel (CoreFreeMemoryMapStack fuel) Max pages M 4096 st = Done (r, set_default_base d st) /\
     CoreConvertPages fuel (CoreFreeMemoryMapStack fuel) r pages M (set_default_base d st) = Done (EFI_SUCCESS, st') /\
     0 < r /\ free_at (gMemoryMap st) Max 0 n r /\ taken M n r A st st') \/
  (FindFreePages fuel (CoreFreeMemoryMapStack fuel) Max pages M 4096 st = Done (0, st) /\
     forall b, 0 < b -> ~ free_at (gMemoryMap st) Max 0 n b).
Proof.
  intros n Hfuel Hok Hq Hset Hpg Hn0 (HM0 & _ & HMc & _) HMax Hsp.
  assert (0 < n < 2 ^ 52) as Hn by (unfold n in *; dlia).
  assert (EFI_PAGES_TO_SIZE pages = n * 4096) as Hsz by (apply pages_to_size_mod; lia).
  assert (pages <> 0) as Hp0 by (intros ->; unfold n in Hn0; done).
  rewrite (FindFreePages_size _ _ _ pages n) by (done || lia || by rewrite Hsz, pages_to_size by lia).
  destruct (CoreFindFreePagesI_spec Max 0 n st Hok HMax ltac:(lia) Hn) as [[_ Hno]|(Hb & Hfr & _)].
  { right. split; [|done]. by rewrite FindFreePages_none by (done || lia). }
  left. destruct (FindFreePages_found fuel (CoreFreeMemoryMapStack fuel) Max n M st _ ltac:(lia) Hok HMax Hn HM0 Hb Hfr)
    as (r & d & -> & Hr & Hfree). clear Hb Hfr.
  pose proof Hfree as (E & HE & HTE & Hs & He & _ & _ & Hm4)%free_at_elem.
  assert (pages_ok (set_default_base d st)) as Hok1 by (destruct Hok; by constructor).
  destruct (CoreConvertPages_spec fuel r pages n M (set_default_base d st) E) as
    (st' & Hcv & Hok' & Hq' & Hk' & Hy & Hrf & Ho & Hkp & Hex); try done; [rewrite HTE; tauto|exact (Hsp r (Attribute E) Hr Hfree)|].
  assert (forall a, within r (r + n * 4096 - 1) a = true -> cover (gMemoryMap st) a = [(EfiConventionalMemory, Attribute E)]) as Hc.
  { intros a Hw. rewrite (cover_elem st E a Hok HE) by (unfold holds, within in *; lia). unfold kind. by rewrite HTE. }
  exists r, d, (Attribute E), st'. do 4 (split; [done|]). unfold taken. split_and!; try done.
  - unfold settled in *. by destruct Hk' as (_ & _ & -> & _).
  - by apply Ho.
  - intros s0 e0 k Hs0 Hu Ho0. apply Hkp; [done| |done]. split; [|done].
    exact (one_entry_apart st s0 e0 k r (r + n * 4096 - 1) (Attribute E) Hok Hs0 ltac:(lia) Ho0 Hu Hc).
Qed.

(** [AllocatePages] anywhere, or below an address. *)
Lemma CoreInternalAllocatePages_spec fuel Type_ M pages m st :
  let n := pages mod 2 ^ 52 in
  let Max := if decide (Type_ = AllocateMaxAddress) then m else MAX_ALLOC_ADDRESS in
  (5 <= fuel)%nat -> pages_ok st -> quiet st -> settled st -> is_u64 pages -> 0 < n -> allocatable M -> is_u64 m ->
  Type_ = AllocateAnyPages \/ Type_ = AllocateMaxAddress -> ample Max M n st ->
  (exists r A st', CoreInternalAllocatePages fuel Type_ M pages (Some m) st = Done (EFI_SUCCESS, Some r, st') /\
     0 < r /\ free_at (gMemoryMap st) Max 0 n r /\ taken M n r A st st') \/
  (CoreInternalAllocatePages fuel Type_ M pages (Some m) st = Done (EFI_OUT_OF_RESOURCES, Some m, st) /\
     forall b, 0 < b -> ~ free_at (gMemoryMap st) Max 0 n b).
Proof.
  intros n Max Hfuel Hok Hq Hset Hpg Hn0 HM Hm HT Hsp. pose proof HM as (HM0 & HM1 & HM2 & HM3 & HM4).
  assert (is_u64 Max) as HMax by (unfold Max, MAX_ALLOC_ADDRESS; case_decide; lia).
  unfold CoreInternalAllocatePages. rewrite decide_False by (unfold MaxAllocateType, AllocateAnyPages, AllocateMaxAddress in *; lia).
  rewrite decide_False by lia. cbn zeta. rewrite granularity_4096, round_pages_4096 by lia.
  assert (Type_ <> AllocateAddress) as HTn by (unfold AllocateAddress, AllocateAnyPages, AllocateMaxAddress in *; lia).
  do 2 rewrite (decide_False (P := Type_ = AllocateAddress /\ _)) by (by intros [? _]). fold Max.
  rewrite (decide_True (P := Type_ <> AllocateAddress)) by done.
  destruct (find_and_convert fuel Max M pages st) as [(r & d & A & st' & -> & Hcv & Hr & Hfree & Ht)|[-> Hno]]; try done.
  - left. mred. rewrite decide_False by lia. rewrite Hcv. mred. rewrite decide_False by (by intros H). mred.
    rewrite decide_True by done. by exists r, A, st'.
  - right. split; [|done]. mred. by rewrite decide_True by done.
Qed.

(** The pool's pages. *)
Lemma CoreAllocatePoolPages_spec fuel M pages st :
  let n := pages mod 2 ^ 52 in
  (5 <= fuel)%nat -> pages_ok st -> quiet st -> settled st -> is_u64 pages -> 0 < n -> allocatable M ->
  ample MAX_ALLOC_ADDRESS M n st ->
  (exists r A st', CoreAllocatePoolPages fuel (CoreFreeMemoryMapStack fuel) M pages 4096 st = Done (r, st') /\
     0 < r /\ free_at (gMemoryMap st) MAX_ALLOC_ADDRESS 0 n r /\ taken M n r A st st') \/
  (CoreAllocatePoolPages fuel (CoreFreeMemoryMapStack fuel) M pages 4096 st = Done (0, st) /\
     forall b, 0 < b -> ~ free_at (gMemoryMap st) MAX_ALLOC_ADDRESS 0 n b).
Proof.
  intros n Hfuel Hok Hq Hset Hpg Hn0 HM Hsp. unfold CoreAllocatePoolPages.
  destruct (find_and_convert fuel MAX_ALLOC_ADDRESS M pages st) as [(r & d & A & st' & -> & Hcv & Hr & Hfree & Ht)|[-> Hno]]; try done.
  - left. mred. rewrite decide_False by lia. rewrite Hcv. mred. by exists r, A, st'.
  - right. by split.
Qed.

(** [FreePages] of pages that lie in one entry. *)
Lemma CoreInternalFreePages_spec fuel s n st E :
  let e := s + n * 4096 - 1 in
  let now a := if within s e a then [(EfiConventionalMemory, Attribute E)] else cover (gMemoryMap st) a in
  (5 <= fuel)%nat -> pages_ok st -> quiet st -> 0 < n < 2 ^ 52 -> s mod 4096 = 0 -> E ∈ gMemoryMap st ->
  Start E <= s -> e <= End_ E -> EntryType E <> EfiConventionalMemory ->
  (2 <= mFreeMemoryMapEntryList st)%nat \/ spare now ->
  exists st', CoreInternalFreePages fuel s n st = Done (EFI_SUCCESS, Some (EntryType E), st') /\
    pages_ok st' /\ quiet st' /\ mMemoryMapKey st' <> mMemoryMapKey st /\
    refilled now (cover (gMemoryMap st')) /\
    ((2 <= mFreeMemoryMapEntryList st)%nat -> forall a, cover (gMemoryMap st') a = now a).
Proof.
  intros e now Hfuel Hok Hq Hn Hs HE Hs1 He1 HT Hsp. unfold CoreInternalFreePages.
  destruct (entry_at_found st E s Hok HE) as [i Hi]; [lia|unfold e in *; lia|]. rewrite Hi. cbn zeta.
  rewrite granularity_4096, round_pages_4096 by lia. change (4096 - 1) with EFI_PAGE_MASK.
  rewrite land_page, decide_False by lia.
  destruct (CoreConvertPages_spec fuel s n n EfiConventionalMemory st E) as
    (st' & -> & Hok' & Hq' & _ & Hy & Hrf & _ & Hkp & Hex); try done; try lia; [apply pages_to_size; lia|].
  mred. exists st'. split_and!; try done. intros H2. by destruct (Hex H2).
Qed.

(** A conversion of a range that no conventional entry holds fails, and
    changes nothing. *)
Definition free_range (l : list MEMORY_MAP) (s e : Z) : Prop :=
  exists E, E ∈ l /\ EntryType E = EfiConventionalMemory /\ Start E <= s /\ e <= End_ E.

#[export] Instance free_range_dec l s e : Decision (free_range l s e).
Proof.
  refine (cast_if (decide (Exists (fun E => EntryType E = EfiConventionalMemory /\ Start E <= s /\ e <= End_ E) l)));
    rewrite Exists_exists in *; unfold free_range; naive_solver.
Defined.

Lemma CoreConvertPages_none fuel free_stack s n M st : (0 < fuel)%nat -> pages_ok st -> M <> EfiConventionalMemory ->
  0 < n < 2 ^ 52 -> s mod 4096 = 0 -> s < s + n * 4096 - 1 < 2 ^ 64 -> 0 <= s ->
  ~ free_range (gMemoryMap st) s (s + n * 4096 - 1) ->
  CoreConvertPages fuel free_stack s n M st = Done (EFI_NOT_FOUND, st).
Proof.
  intros Hfuel Hok HM Hn Hs He Hs0 Hno. unfold CoreConvertPages, CoreConvertPagesEx. rewrite land_page, pages_to_size, u64_id by lia.
  set (e := s + n * 4096 - 1) in *. cbn zeta. rewrite decide_False by lia. destruct fuel as [|fuel]; [lia|]. cbn [ConvertPages_loop].
  rewrite decide_True by lia. unfold ConvertPages_piece.
  destruct (list_find (fun E => Start E <= s /\ s < End_ E) (gMemoryMap st)) as [[i E]|] eqn:Hf; [|done].
  apply list_find_Some in Hf as (HE%list_elem_of_lookup_2 & [Hs1 Hs2] & _).
  destruct (decide (_ /\ _ /\ End_ E < e)) as [|Hle]; [done|]. rewrite decide_True; [done|]. split; [done|].
  split; [done|]. intros HT. exfalso. apply Hno. exists E. split_and!; try done. destruct (decide (End_ E < e)); [|lia]. by destruct Hle.
Qed.

(** [AllocatePages] at an address: the range is given if it is free and not in
    the bin of another type, else [EFI_NOT_FOUND] and nothing changes. *)
Definition claimable (M s n : Z) (st : PAGES) : Prop :=
  0 < s /\ s mod 4096 = 0 /\ s + n * 4096 <= 2 ^ 64 /\ in_special_bin M s (s + n * 4096 - 1) st = false /\
  free_range (gMemoryMap st) s (s + n * 4096 - 1).

Lemma AllocateAddress_spec fuel M n s st : (5 <= fuel)%nat -> pages_ok st -> quiet st -> settled st -> 0 < n < 2 ^ 52 ->
  allocatable M -> is_u64 s ->
  (forall A, claimable M s n st -> (2 <= mFreeMemoryMapEntryList st)%nat \/
    spare (fun a => if within s (s + n * 4096 - 1) a then [(M, A)] else cover (gMemoryMap st) a)) ->
  (claimable M s n st /\ exists A st', CoreInternalAllocatePages fuel AllocateAddress M n (Some s) st = Done (EFI_SUCCESS, Some s, st') /\
     taken M n s A st st') \/
  (~ claimable M s n st /\ CoreInternalAllocatePages fuel AllocateAddress M n (Some s) st = Done (EFI_NOT_FOUND, Some s, st)).
Proof.
  intros Hfuel Hok Hq Hset Hn HM Hs Hsp. pose proof HM as (HM0 & HM1 & HM2 & HM3 & HM4). unfold CoreInternalAllocatePages.
  rewrite decide_False by (unfold MaxAllocateType, AllocateAddress; lia). rewrite decide_False by lia. cbn zeta. rewrite granularity_4096, round_pages_4096 by lia.
  change (4096 - 1) with EFI_PAGE_MASK. rewrite land_page.
  destruct (decide (_ /\ s mod 4096 <> 0)) as [[_ Hal]|Hal]; [right; split; [|done]; intros (_ & ? & _); lia|].
  assert (s mod 4096 = 0) as Hsm by (destruct (decide (s mod 4096 = 0)); [done|by destruct Hal]). clear Hal.
  rewrite pages_to_size by lia. destruct (decide (2 ^ 64 < s + n * 4096)) as [Hov|Hov].
  { right. split; [intros (_ & _ & ? & _); lia|]. rewrite decide_True; [done|]. split; [done|]. right; right; right; left.
    replace (u64 _) with (s + n * 4096 - 1 - 2 ^ 64); [lia|]. unfold u64. apply Z.mod_unique with 1; lia. }
  rewrite u64_id by lia. set (e := s + n * 4096 - 1) in *.
  destruct (decide (s = 0 \/ in_special_bin M s e st = true)) as [Hb|Hb].
  { right. split; [intros (? & _ & _ & Hf & _); destruct Hb as [?|Hb]; [lia|fold e in Hf; congruence]|]. rewrite decide_True; [done|].
    split; [done|]. destruct Hb; [by left|by do 6 right]. }
  assert (0 < s) as Hs0 by (destruct (decide (s = 0)); [destruct Hb; by left|lia]).
  assert (in_special_bin M s e st = false) as Hbin by (destruct (in_special_bin M s e st); [destruct Hb; by right|done]).
  assert (Z.shiftr MAX_ALLOC_ADDRESS 12 = 2 ^ 52 - 1) as Hsh by done.
  rewrite decide_False by (rewrite Hsh, Hbin; unfold MAX_ALLOC_ADDRESS; intros [_ [?|[?|[?|[?|[?|[?|?]]]]]]]; done || lia).
  rewrite decide_False by tauto. mred. rewrite decide_False by tauto.
  destruct (decide (free_range (gMemoryMap st) s e)) as [(E & HE & HTE & Hs1 & He1)|Hno].
  - left. assert (claimable M s n st) as Hcl by (split_and!; try done; [lia|by exists E]). split; [done|].
    destruct (CoreConvertPages_spec fuel s n n M st E) as (st' & -> & Hok' & Hq' & Hk' & Hy & Hrf & Ho & Hkp & Hex);
      try done; try lia; [apply pages_to_size; lia|by apply Hsp|].
    mred. rewrite (decide_False (P := EFI_SUCCESS <> EFI_SUCCESS)) by (intros H; by apply H). mred. rewrite decide_True by done. exists (Attribute E), st'. split; [done|].
    assert (forall a, within s e a = true -> cover (gMemoryMap st) a = [(EfiConventionalMemory, Attribute E)]) as Hc.
    { intros a Hw. rewrite (cover_elem st E a Hok HE) by (unfold holds, within in *; lia). unfold kind. by rewrite HTE. }
    unfold taken. fold e. split; [done|]. split; [done|]. split; [split; [unfold settled in *; by destruct Hk' as (_ & _ & -> & _)|done]|]. split; [done|]. split; [done|].
    split; [done|]. split; [by apply Ho|]. split; [|done]. intros s0 e0 k Hse Hu Ho0. apply Hkp; [done| |done]. split; [|done].
    exact (one_entry_apart st s0 e0 k s e (Attribute E) Hok Hse ltac:(lia) Ho0 Hu Hc).
  - right. split; [by intros (_ & _ & _ & _ & ?)|]. rewrite CoreConvertPages_none by (done || lia). mred.
    rewrite decide_True by done. rewrite PromoteMemoryResource_settled by done. mred. by rewrite decide_False by done.
Qed.

Lemma CoreTerminateMemoryMap_spec key st : pages_ok st ->
  CoreTerminateMemoryMap key st =
    Done (if decide (key = mMemoryMapKey st) then EFI_SUCCESS else EFI_INVALID_PARAMETER).
Proof.
  intros Hok. unfold CoreTerminateMemoryMap. destruct (decide (key = mMemoryMapKey st)); [|done].
  pose proof (ok_entries _ Hok) as He. pose proof (ok_statistics _ Hok) as (Hl & Hf & _).
  induction He as [|E l [Hr HT] He IH]; [done|]. cbn [foldr].
  match goal with |- (?o ≫= _) = _ => assert (exists b, o = Done b) as [b ->] end.
  { case_decide as Hd; [|by eexists]. destruct (rd_forall stat_ok _ (EntryType E) Hf) as (s & -> & _);
      [unfold EfiMaxMemoryType in Hd; lia|]. by eexists. }
  mred. unfold page_range in Hr. change (RUNTIME_PAGE_ALLOCATION_GRANULARITY - 1) with EFI_PAGE_MASK.
  rewrite !land_page, u64_id by lia. replace (Start E mod 4096) with 0 by lia. replace ((End_ E + 1) mod 4096) with 0 by lia.
  rewrite andb_false_r. apply IH.
Qed.

(* ------------------------------------------------------------------ *)
(** ** The promises of the services *)

(** Where the [n] pages asked for may be, by the kind of request. *)
Definition suits (Type_ M n m : Z) (st : PAGES) (r : Z) : Prop :=
  if decide (Type_ = AllocateAddress) then r = m /\ claimable M m n st
  else 0 < r /\ free_at (gMemoryMap st) (if decide (Type_ = AllocateMaxAddress) then m else MAX_ALLOC_ADDRESS) 0 n r.

(** C3: [AllocatePages] of more than 0 and less than 2^52 pages of a type
    callers may ask for, between calls on a memory map in order, of which all
    memory has been tested ([settled]: there is nothing for
    [PromoteMemoryResource] to add, so the second attempt after a promotion is
    not covered), as long as two descriptors are unused or, with the range
    taken, a page is free to make some from: for each of the three kinds of
    request, when some range suits, one that does changes hands and is of the
    type asked for ([taken]: everything in use stays where it is, no other
    address is touched but for one page of descriptors, and the map key has
    moved); when none does, the error of that kind is returned and nothing has
    changed. *)
Theorem CoreInternalAllocatePages_correct fuel Type_ M n m st :
  (5 <= fuel)%nat -> pages_ok st -> quiet st -> settled st -> 0 <= Type_ < MaxAllocateType -> 0 < n < 2 ^ 52 ->
  allocatable M -> is_u64 m ->
  (forall r A, suits Type_ M n m st r -> (2 <= mFreeMemoryMapEntryList st)%nat \/
    spare (fun a => if within r (r + n * 4096 - 1) a then [(M, A)] else cover (gMemoryMap st) a)) ->
  (exists r A st', CoreInternalAllocatePages fuel Type_ M n (Some m) st = Done (EFI_SUCCESS, Some r, st') /\
     suits Type_ M n m st r /\ taken M n r A st st') \/
  (CoreInternalAllocatePages fuel Type_ M n (Some m) st =
     Done (if decide (Type_ = AllocateAddress) then EFI_NOT_FOUND else EFI_OUT_OF_RESOURCES, Some m, st) /\
   forall r, ~ suits Type_ M n m st r).
Proof.
  intros Hfuel Hok Hq Hset HT Hn HM Hm Hsp. unfold suits in *. destruct (decide (Type_ = AllocateAddress)) as [->|HTn].
  - destruct (AllocateAddress_spec fuel M n m st) as [(Hc & A & st' & -> & Ht)|[Hno ->]]; try done; [intros A ?; by apply Hsp|..].
    + left. by exists m, A, st'.
    + right. split; [done|]. by intros r [_ ?].
  - assert (n mod 2 ^ 52 = n) as Hnm by (apply Z.mod_small; lia).
    destruct (CoreInternalAllocatePages_spec fuel Type_ M n m st) as [(r & A & st' & -> & Hr & Hfr & Ht)|[-> Hno]];
      rewrite ?Hnm in *; try done; try lia.
    + unfold AllocateAddress, AllocateAnyPages, AllocateMaxAddress, MaxAllocateType in *. lia.
    + intros r A Hr Hfr. by apply Hsp.
    + left. by exists r, A, st'.
    + right. split; [done|]. intros r [Hr Hfr]. by apply (Hno r Hr).
Qed.

(** C12: More than 0 and less than 2^52 pages of a type callers may ask for,
    allocated anywhere and then freed, between calls on a memory map in order
    of which all memory has been tested, which has a free range of that many
    pages and at least four unused descriptors (with fewer a page may become
    descriptors): both calls succeed, in between exactly those pages have
    changed hands, and after it the memory map says of every address what it
    said before. *)
Theorem AllocatePages_FreePages_roundtrip fuel M n m st :
  (5 <= fuel)%nat -> pages_ok st -> quiet st -> settled st -> 0 < n < 2 ^ 52 -> allocatable M -> is_u64 m ->
  (4 <= mFreeMemoryMapEntryList st)%nat -> (exists b, 0 < b /\ free_at (gMemoryMap st) MAX_ALLOC_ADDRESS 0 n b) ->
  exists r st1 st2, CoreInternalAllocatePages fuel AllocateAnyPages M n (Some m) st = Done (EFI_SUCCESS, Some r, st1) /\
    CoreInternalFreePages fuel r n st1 = Done (EFI_SUCCESS, Some M, st2) /\
    (forall a, cover (gMemoryMap st1) a <> cover (gMemoryMap st) a <-> r <= a <= r + n * 4096 - 1) /\
    (forall a, cover (gMemoryMap st2) a = cover (gMemoryMap st) a).
Proof.
  intros Hfuel Hok Hq Hset Hn HM Hm Hf (b & Hb & Hfit).
  destruct (CoreInternalAllocatePages_spec fuel AllocateAnyPages M n m st) as
    [(r & A & st1 & -> & Hr & Hfr & (Hok1 & Hq1 & _ & Hc & _ & _ & (E & HE & HK & Hs & He) & _ & Hex))|[_ Hno]]; try done; try lia.
  { rewrite Z.mod_small; lia. } { intros ? ? ? ?. left. lia. } 2:{ rewrite Z.mod_small in Hno by lia. by destruct (Hno b). }
  rewrite Z.mod_small in * by lia. destruct Hex as (Hc1 & Hf1); [lia|].
  destruct HM as (HM0 & _ & HMc & _). injection HK as HTE HAE.
  apply free_at_elem in Hfr as (_ & _ & _ & _ & _ & _ & _ & Hrm).
  exists r, st1. destruct (CoreInternalFreePages_spec fuel r n st1 E) as (st2 & -> & _ & _ & _ & _ & Hex2); try done.
  { by rewrite HTE. } { left. lia. }
  exists st2. rewrite HTE. split_and!; [done|done| |].
  - intros a. rewrite Hc1. destruct (within _ _ a) eqn:Hw.
    + rewrite (Hc a Hw). unfold within in Hw. split; [lia|]. intros _. congruence.
    + unfold within in Hw. split; [done|lia].
  - intros a. rewrite Hex2 by lia. rewrite HAE, Hc1. destruct (within _ _ a) eqn:Hw; [by rewrite Hc|done].
Qed.

(** Whatever kind of request served it, taking pages makes the key of a map
    read before useless, and the current one good. *)
Lemma taken_key M n r A st st' : taken M n r A st st' ->
  CoreTerminateMemoryMap (mMemoryMapKey st) st' = Done EFI_INVALID_PARAMETER /\
  CoreTerminateMemoryMap (mMemoryMapKey st') st' = Done EFI_SUCCESS.
Proof.
  intros (Hok & _ & _ & _ & Hk & _). rewrite !CoreTerminateMemoryMap_spec by done.
  by rewrite decide_False, decide_True by congruence.
Qed.

(** C36: A request for more than 2^52 pages that is not for a multiple of 2^52
    (those are refused) is served where it should be refused: the size in bytes
    loses the high bits and, on a memory map in order of which all memory has
    been tested, with two unused descriptors and a free range of
    [pages mod 2^52] pages, [AllocatePages] reports success for an address
    from which on no more than [pages mod 2^52] pages have changed hands. *)
Theorem AllocatePages_truncates fuel M pages m st b :
  let n := pages mod 2 ^ 52 in
  (5 <= fuel)%nat -> pages_ok st -> quiet st -> settled st -> is_u64 pages -> 2 ^ 52 < pages -> 0 < n -> allocatable M -> is_u64 m ->
  (2 <= mFreeMemoryMapEntryList st)%nat -> 0 < b -> free_at (gMemoryMap st) MAX_ALLOC_ADDRESS 0 n b ->
  exists r st', CoreInternalAllocatePages fuel AllocateAnyPages M pages (Some m) st = Done (EFI_SUCCESS, Some r, st') /\
    forall a, cover (gMemoryMap st') a <> cover (gMemoryMap st) a -> r <= a <= r + n * 4096 - 1.
Proof.
  intros n Hfuel Hok Hq Hset Hpg Hbig Hn HM Hm Hf Hb Hfr.
  destruct (CoreInternalAllocatePages_spec fuel AllocateAnyPages M pages m st) as
    [(r & A & st' & -> & Hr & _ & (_ & _ & _ & _ & _ & _ & _ & _ & Hex))|[_ Hno]]; try done.
  - by left.
  - intros ? ? ? ?. by left.
  - exists r, st'. split; [done|]. intros a. destruct Hex as [-> _]; [done|]. fold n.
    destruct (within _ _ a) eqn:Hw; [unfold within in Hw; lia|done].
  - by destruct (Hno b).
Qed.

(* ------------------------------------------------------------------ *)
(** ** A concrete map, for the witnesses *)

(** A megabyte of conventional memory at 0x1000, boot data above it, four
    unused descriptors. *)
Definition demo_pages : PAGES :=
  mkPages [mkEntry None EfiConventionalMemory 0x1000 0x100FFF 15; mkEntry None EfiBootServicesData 0x101000 0x104FFF 15] 5 0 0 4
    initial_statistics (replicate 17 0) MAX_ALLOC_ADDRESS MAX_ALLOC_ADDRESS [].

Lemma demo_pages_ok : pages_ok demo_pages /\ quiet demo_pages /\ settled demo_pages.
Proof.
  split; [|by split_and!; [..|constructor]]. constructor.
  - repeat (apply Forall_cons; split); [..|apply Forall_nil; done]; unfold entry_ok, page_range; cbn; split_and!; done.
  - intros a. cbn [gMemoryMap demo_pages]. rewrite cover_cons, cover_singleton. cbn [Start End_].
    unfold within. destruct (_ && _) eqn:H1, (_ && _) eqn:H2 in |- *; cbn; lia.
  - split; constructor.
  - split; [done|]. split; [repeat (apply Forall_cons; split); [..|by apply Forall_nil]; split_and!; done|]. done.
Qed.

Lemma demo_free n : 0 < n <= 256 -> free_at (gMemoryMap demo_pages) MAX_ALLOC_ADDRESS 0 n 0x1000.
Proof.
  intros Hn. exists (mkEntry None EfiConventionalMemory 0x1000 0x100FFF 15). split; [by apply elem_of_cons; left|].
  unfold MAX_ALLOC_ADDRESS. split_and!; done || cbn; lia.
Qed.

Lemma CoreInternalAllocatePages_correct_witness : exists r A st',
  CoreInternalAllocatePages 5 AllocateAnyPages EfiBootServicesData 2 (Some 0) demo_pages = Done (EFI_SUCCESS, Some r, st') /\
  suits AllocateAnyPages EfiBootServicesData 2 0 demo_pages r /\ taken EfiBootServicesData 2 r A demo_pages st'.
Proof.
  destruct demo_pages_ok as (H1 & H2 & H3).
  destruct (CoreInternalAllocatePages_correct 5 AllocateAnyPages EfiBootServicesData 2 0 demo_pages) as [H|[_ H]];
    [lia|done|done|done|done|done|split_and!; [done|left; done|done..]|done|intros; left; cbn; lia|exact H|].
  exfalso. apply (H 0x1000). split; [done|]. by apply demo_free.
Defined.

Lemma AllocatePages_FreePages_roundtrip_witness : exists r st1 st2,
  CoreInternalAllocatePages 5 AllocateAnyPages EfiBootServicesData 2 (Some 0) demo_pages = Done (EFI_SUCCESS, Some r, st1) /\
  CoreInternalFreePages 5 r 2 st1 = Done (EFI_SUCCESS, Some EfiBootServicesData, st2) /\
  forall a, cover (gMemoryMap st2) a = cover (gMemoryMap demo_pages) a.
Proof.
  destruct demo_pages_ok as (H1 & H2 & H3).
  destruct (AllocatePages_FreePages_roundtrip 5 EfiBootServicesData 2 0 demo_pages) as (r & st1 & st2 & E1 & E2 & _ & E3);
    [lia|done|done|done|done|split_and!; [done|left; done|done..]|done|cbn; lia| |].
  2:{ exists r, st1, st2. exact (conj E1 (conj E2 E3)). }
  exists 0x1000. split; [done|]. by apply demo_free.
Defined.

Lemma AllocatePages_truncates_witness : exists r st',
  CoreInternalAllocatePages 5 AllocateAnyPages EfiBootServicesData (2 ^ 52 + 3) (Some 0) demo_pages = Done (EFI_SUCCESS, Some r, st') /\
  forall a, cover (gMemoryMap st') a <> cover (gMemoryMap demo_pages) a -> r <= a <= r + 3 * 4096 - 1.
Proof.
  destruct demo_pages_ok as (H1 & H2 & H3).
  apply (AllocatePages_truncates 5 EfiBootServicesData (2 ^ 52 + 3) 0 demo_pages 0x1000);
    [lia|done|done|done|done|done|done|split_and!; [done|left; done|done..]|done|cbn; lia|done|by apply demo_free].
Defined.
