(* ===== verification/DxePool.v ===== *)
(** * DXE core: the pool allocator

    [src/edk2/MdeModulePkg/Core/Dxe/Mem/Pool.c], which serves [AllocatePool]
    and [FreePool] on top of the page allocator of [DxePage]: size classes,
    free lists per memory type, blocks carved out of pages, and pages given
    back when all their blocks are free.

    The globals are the record [POOLS], with the page allocator's.  Of memory
    it keeps what the pool writes itself: the header at the start of a block
    ([headers]; the fields [Index] of a free block and [Reserved] of a block
    in use are the same word) and the size in its tail ([tails]).  What a page
    that comes fresh from the page allocator holds is the parameter [junk].
    The heap guard is off, its declared default, so [NeedGuard] and
    [PageAsPool] are false and every block has a tail. *)
From Stdlib Require Import ZArith Lia.
From stdpp Require Import base gmap list sorting.
From S2P Require Import Prelude Pointer Firmware DxePage.
#[local] Open Scope Z_scope.

(* ------------------------------------------------------------------ *)
(** ** Data *)

Definition SIZE_OF_POOL_HEAD : Z := 24.
Definition SIZE_OF_POOL_TAIL : Z := 16.
Definition POOL_OVERHEAD : Z := SIZE_OF_POOL_HEAD + SIZE_OF_POOL_TAIL.
Definition mPoolSizeTable : list Z :=
  [128; 256; 384; 640; 1024; 1664; 2688; 4352; 7040; 11392; 18432; 29824].
Definition MAX_POOL_LIST : Z := 12.
Definition MAX_ADDRESS : Z := 0xFFFFFFFFFFFFFFFF.
Definition MAX_POOL_SIZE : Z := MAX_ADDRESS - POOL_OVERHEAD.
Definition SIZE_OF_POOL : Z := 232.

Inductive SIGNATURE : Type :=
| POOL_FREE_SIGNATURE
| POOL_HEAD_SIGNATURE
| OTHER_SIGNATURE.

#[export] Instance signature_eq_dec : EqDecision SIGNATURE.
Proof. solve_decision. Defined.

Record HEADER : Type := mkHeader {
  Signature : SIGNATURE;
  BlockIndex : Z;
  BlockType : Z;
  BlockSize : Z;
}.

Record POOL : Type := mkPool {
  Used : Z;
  MemoryType : Z;
  FreeList : list (list Z);
}.

Record POOLS : Type := mkPools {
  pages : PAGES;
  mPoolHead : list POOL;
  mPoolHeadList : list (Z * POOL);
  headers : gmap Z HEADER;
  tails : gmap Z Z;
}.

Definition set_pages (p : PAGES) (st : POOLS) : POOLS :=
  mkPools p (mPoolHead st) (mPoolHeadList st) (headers st) (tails st).
Definition set_header (a : Z) (h : HEADER) (st : POOLS) : POOLS :=
  mkPools (pages st) (mPoolHead st) (mPoolHeadList st) (<[a := h]> (headers st)) (tails st).
Definition set_tail (a n : Z) (st : POOLS) : POOLS :=
  mkPools (pages st) (mPoolHead st) (mPoolHeadList st) (headers st) (<[a := n]> (tails st)).
Definition set_pool_list (l : list (Z * POOL)) (st : POOLS) : POOLS :=
  mkPools (pages st) (mPoolHead st) l (headers st) (tails st).

Definition set_used (n : Z) (p : POOL) : POOL := mkPool n (MemoryType p) (FreeList p).
Definition set_lists (l : list (list Z)) (p : POOL) : POOL := mkPool (Used p) (MemoryType p) l.

Definition empty_pool (Type_ : Z) : POOL := mkPool 0 Type_ (replicate 12 []).

Definition CoreInitializePool (st : POOLS) : POOLS :=
  mkPools (pages st) ((fun t => empty_pool (Z.of_nat t)) <$> seq 0 16) (mPoolHeadList st) (headers st) (tails st).

(** The pool of a type, once [LookupPoolHead] has found it: one of the 16 of
    [mPoolHead], or the one on the list with that type. *)
Definition get_pool (Type_ : Z) (st : POOLS) : option POOL :=
  if decide (Type_ < EfiMaxMemoryType) then mPoolHead st !! Z.to_nat Type_
  else (fun p => p.2.2) <$> list_find (fun p => MemoryType p.2 = Type_) (mPoolHeadList st).

Definition update_pool (Type_ : Z) (f : POOL -> POOL) (st : POOLS) : POOLS :=
  if decide (Type_ < EfiMaxMemoryType)
  then mkPools (pages st) (alter f (Z.to_nat Type_) (mPoolHead st)) (mPoolHeadList st) (headers st) (tails st)
  else set_pool_list ((fun '(a, p) => (a, if decide (MemoryType p = Type_) then f p else p)) <$> mPoolHeadList st) st.

(** [InsertHeadList] and the removal of the first block of a free list. *)
Definition push_free (i a : Z) (p : POOL) : POOL := set_lists (alter (cons a) (Z.to_nat i) (FreeList p)) p.
Definition pop_free (i : Z) (p : POOL) : POOL := set_lists (alter (@tail Z) (Z.to_nat i) (FreeList p)) p.

(** [RemoveEntryList] of a free block, whichever list it is on. *)
Definition unlink (a : Z) (st : POOLS) : POOLS :=
  let f p := set_lists (filter (fun b => b <> a) <$> FreeList p) p in
  mkPools (pages st) (f <$> mPoolHead st) ((fun '(b, p) => (b, f p)) <$> mPoolHeadList st) (headers st) (tails st).

(** Memory that goes back to the page allocator is no longer the pool's. *)
Definition forget {A} (s e : Z) (m : gmap Z A) : gmap Z A := filter (fun kv => ~ (s <= kv.1 <= e)) m.

(* ------------------------------------------------------------------ *)
(** ** Sizes *)

Definition GetPoolIndexFromSize (Size : Z) : Z :=
  match list_find (fun s => Size <= s) mPoolSizeTable with
  | Some (i, _) => Z.of_nat i
  | None => MAX_POOL_LIST
  end.

Definition ALIGN_VARIABLE (v : Z) : Z := u64 (v + Z.land (u64 (8 - v)) 7).

(** The size of the block that serves a request. *)
Definition block_size (Size : Z) : Z := u64 (ALIGN_VARIABLE Size + POOL_OVERHEAD).

Definition block_pages (Size Granularity : Z) : Z :=
  Z.ldiff (u64 (EFI_SIZE_TO_PAGES Size + EFI_SIZE_TO_PAGES Granularity - 1)) (EFI_SIZE_TO_PAGES Granularity - 1).

(* ------------------------------------------------------------------ *)
(** ** Allocation *)

Section pool.
Context (fuel : nat) (junk : Z -> HEADER).

Definition header_at (a : Z) (st : POOLS) : HEADER := default (junk a) (headers st !! a).

Definition CoreAllocatePoolPagesI (PoolType NoPages Granularity : Z) (st : POOLS) : outcome (Z * POOLS) :=
  '(a, p) ← CoreAllocatePoolPages fuel (CoreFreeMemoryMapStack fuel) PoolType NoPages Granularity (pages st);
  mret (a, set_pages p st).

Definition CoreFreePoolPagesI (Memory NoPages : Z) (st : POOLS) : outcome POOLS :=
  p ← CoreFreePoolPages fuel (CoreFreeMemoryMapStack fuel) Memory NoPages (pages st);
  let e := Memory + EFI_PAGES_TO_SIZE NoPages - 1 in
  mret (mkPools p (mPoolHead st) (mPoolHeadList st) (forget Memory e (headers st)) (forget Memory e (tails st))).

(** Put as many blocks of one size as fit on their free list. *)
Fixpoint Carve_size (n : nat) (PoolType NewPage FSize i Offset MaxOffset : Z) (st : POOLS) : outcome (Z * POOLS) :=
  match n with
  | O => Fault Diverges
  | S n' =>
    if decide (Offset + FSize <= MaxOffset) then
      let a := NewPage + Offset in
      let st := set_header a (mkHeader POOL_FREE_SIGNATURE i 0 0) st in
      let st := update_pool PoolType (push_free i a) st in
      Carve_size n' PoolType NewPage FSize i (Offset + FSize) MaxOffset st
    else mret (Offset, st)
  end.

(** The rest of a page or block, from the size class [i] downwards. *)
Fixpoint Carve (i : nat) (PoolType NewPage Offset MaxOffset : Z) (st : POOLS) : outcome POOLS :=
  if decide (Offset < MaxOffset) then
    FSize ← rd mPoolSizeTable (Z.of_nat i);
    '(Offset, st) ← Carve_size 33 PoolType NewPage FSize (Z.of_nat i) Offset MaxOffset st;
    match i with
    | O => if decide (Offset < MaxOffset) then Fault OutOfBounds else mret st
    | S i' => Carve i' PoolType NewPage Offset MaxOffset st
    end
  else mret st.

(** The first block of the first larger class that has one, below class
    [top]. *)
Definition larger_free (i top : Z) (p : POOL) : option (Z * Z) :=
  head (omap (fun j => match FreeList p !! Z.to_nat j with Some (a :: _) => Some (j, a) | _ => None end)
             (seqZ (i + 1) (top - (i + 1)))).

Definition AllocatePool_block (PoolType Index Granularity : Z) (p : POOL) (st : POOLS) : outcome (Z * POOLS) :=
  let top := GetPoolIndexFromSize Granularity in
  match FreeList p !! Z.to_nat Index with
  | Some (a :: _) => mret (a, update_pool PoolType (pop_free Index) st)
  | _ =>
      Offset ← rd mPoolSizeTable Index;
      match larger_free Index top p with
      | Some (j, a) =>
          MaxOffset ← rd mPoolSizeTable j;
          st ← Carve (Z.to_nat (j - 1)) PoolType a Offset MaxOffset (update_pool PoolType (pop_free j) st);
          mret (a, st)
      | None =>
          '(a, st) ← CoreAllocatePoolPagesI PoolType (EFI_SIZE_TO_PAGES Granularity) Granularity st;
          if decide (a = 0) then mret (0, st)
          else st ← Carve (Z.to_nat (top - 1)) PoolType a Offset Granularity st; mret (a, st)
      end
  end.

(** [lookup] is [LookupPoolHead]; a null pointer is zero. *)
Definition AllocatePoolI_with (lookup : Z -> POOLS -> outcome (bool * POOLS)) (PoolType Size : Z) (st : POOLS)
    : outcome (Z * POOLS) :=
  let Granularity := granularity PoolType in
  let Size := block_size Size in
  let Index := GetPoolIndexFromSize Size in
  '(found, st) ← lookup PoolType st;
  match (if found : bool then get_pool PoolType st else None) with
  | None => mret (0, st)
  | Some p =>
    '(Head, st) ← (if decide (GetPoolIndexFromSize Granularity <= Index)
      then CoreAllocatePoolPagesI PoolType (block_pages Size Granularity) Granularity st
      else AllocatePool_block PoolType Index Granularity p st);
    if decide (Head = 0) then mret (0, st)
    else
      let st := update_pool PoolType (fun p => set_used (u64 (Used p + Size)) p) st in
      let st := set_header Head (mkHeader POOL_HEAD_SIGNATURE (BlockIndex (header_at Head st)) PoolType Size) st in
      let st := set_tail (u64 (Head + Size - SIZE_OF_POOL_TAIL)) Size st in
      mret (Head + SIZE_OF_POOL_HEAD, st)
  end.

(** The pools of the ordinary types always exist. *)
Definition lookup_static (MemoryType : Z) (st : POOLS) : outcome (bool * POOLS) :=
  mret (bool_decide (MemoryType < EfiMaxMemoryType), st).

Definition LookupPoolHead (MemoryType : Z) (st : POOLS) : outcome (bool * POOLS) :=
  if decide (MemoryType < EfiMaxMemoryType) then mret (true, st)
  else if decide (MEMORY_TYPE_OEM_RESERVED_MIN <= MemoryType) then
    match get_pool MemoryType st with
    | Some _ => mret (true, st)
    | None =>
        '(a, st) ← AllocatePoolI_with lookup_static EfiBootServicesData SIZE_OF_POOL st;
        if decide (a = 0) then mret (false, st)
        else mret (true, set_pool_list ((a, empty_pool MemoryType) :: mPoolHeadList st) st)
    end
  else mret (false, st).

Definition CoreAllocatePoolI (PoolType Size : Z) (st : POOLS) : outcome (Z * POOLS) :=
  AllocatePoolI_with LookupPoolHead PoolType Size st.

(** [Buffer] is the old value of the out parameter, [None] a null pointer. *)
Definition CoreInternalAllocatePool (PoolType Size : Z) (Buffer : option Z) (st : POOLS)
    : outcome (Z * option Z * POOLS) :=
  if decide ((EfiMaxMemoryType <= PoolType /\ PoolType < MEMORY_TYPE_OEM_RESERVED_MIN) \/
             PoolType = EfiConventionalMemory \/ PoolType = EfiPersistentMemory \/
             PoolType = EfiUnacceptedMemoryType)
  then mret (EFI_INVALID_PARAMETER, Buffer, st) else
  match Buffer with
  | None => mret (EFI_INVALID_PARAMETER, Buffer, st)
  | Some _ =>
      if decide (MAX_POOL_SIZE < Size) then mret (EFI_OUT_OF_RESOURCES, Some 0, st) else
      '(a, st) ← CoreAllocatePoolI PoolType Size st;
      mret (if decide (a <> 0) then EFI_SUCCESS else EFI_OUT_OF_RESOURCES, Some a, st)
  end.

(* ------------------------------------------------------------------ *)
(** ** Release *)

(** Whether every block of a page is free, from [Offset] on. *)
Fixpoint AllFree_walk (n : nat) (NewPage Offset Granularity : Z) (st : POOLS) : outcome bool :=
  match n with
  | O => Fault Diverges
  | S n' =>
    if decide (Offset < Granularity) then
      let h := header_at (NewPage + Offset) st in
      size ← rd mPoolSizeTable (BlockIndex h);
      if decide (Signature h = POOL_FREE_SIGNATURE)
      then AllFree_walk n' NewPage (Offset + size) Granularity st else mret false
    else mret true
  end.

(** Take every block of a page off its free list. *)
Fixpoint Unlink_walk (n : nat) (NewPage Offset Granularity : Z) (st : POOLS) : outcome POOLS :=
  match n with
  | O => Fault Diverges
  | S n' =>
    if decide (Offset < Granularity) then
      let st' := unlink (NewPage + Offset) st in
      size ← rd mPoolSizeTable (BlockIndex (header_at (NewPage + Offset) st));
      Unlink_walk n' NewPage (Offset + size) Granularity st'
    else mret st
  end.

Definition FreePool_block (PoolType Index Head Granularity : Z) (st : POOLS) : outcome POOLS :=
  let st := set_header Head (mkHeader POOL_FREE_SIGNATURE Index 0 0) st in
  let st := update_pool PoolType (push_free Index Head) st in
  let NewPage := Z.ldiff Head (Granularity - 1) in
  if decide (Signature (header_at NewPage st) = POOL_FREE_SIGNATURE) then
    all ← AllFree_walk 33 NewPage 0 Granularity st;
    if all : bool then
      st ← Unlink_walk 33 NewPage 0 Granularity st;
      CoreFreePoolPagesI NewPage (EFI_SIZE_TO_PAGES Granularity) st
    else mret st
  else mret st.

(** [free_pool] frees the record of a pool that is no longer used. *)
Definition FreePoolI_with (lookup : Z -> POOLS -> outcome (bool * POOLS))
    (free_pool : Z -> POOLS -> outcome (Z * option Z * POOLS)) (Buffer : Z) (st : POOLS)
    : outcome (Z * option Z * POOLS) :=
  let Head := u64 (Buffer - SIZE_OF_POOL_HEAD) in
  let h := header_at Head st in
  if decide (Signature h <> POOL_HEAD_SIGNATURE) then mret (EFI_INVALID_PARAMETER, None, st) else
  let Size := BlockSize h in
  if decide (tails st !! u64 (Head + Size - SIZE_OF_POOL_TAIL) <> Some Size)
  then mret (EFI_INVALID_PARAMETER, None, st) else
  '(found, st) ← lookup (BlockType h) st;
  if negb found then mret (EFI_INVALID_PARAMETER, None, st) else
  let st := update_pool (BlockType h) (fun p => set_used (u64 (Used p - Size)) p) st in
  let Granularity := granularity (BlockType h) in
  let Index := GetPoolIndexFromSize Size in
  st ← (if decide (GetPoolIndexFromSize Granularity <= Index)
    then CoreFreePoolPagesI Head (block_pages Size Granularity) st
    else FreePool_block (BlockType h) Index Head Granularity st);
  st ← (if decide (MEMORY_TYPE_OEM_RESERVED_MIN <= BlockType h) then
      match list_find (fun p => MemoryType p.2 = BlockType h) (mPoolHeadList st) with
      | Some (i, (a, p)) =>
          if decide (Used p = 0)
          then '(_, _, st) ← free_pool a (set_pool_list (delete i (mPoolHeadList st)) st); mret st
          else mret st
      | None => mret st
      end
    else mret st);
  mret (EFI_SUCCESS, Some (BlockType h), st).

Definition CoreFreePoolI (Buffer : Z) (st : POOLS) : outcome (Z * option Z * POOLS) :=
  FreePoolI_with LookupPoolHead
    (FreePoolI_with lookup_static (fun _ st => mret (EFI_INVALID_PARAMETER, None, st))) Buffer st.

Definition CoreInternalFreePool (Buffer : Z) (st : POOLS) : outcome (Z * option Z * POOLS) :=
  if decide (Buffer = 0) then mret (EFI_INVALID_PARAMETER, None, st) else CoreFreePoolI Buffer st.
End pool.

(* ------------------------------------------------------------------ *)
(** ** Size classes *)

(** The size of a class, as the table has it. *)
Definition class_size (i : Z) : Z := mPoolSizeTable !!! Z.to_nat i.

Lemma rd_class i : 0 <= i < 12 -> rd mPoolSizeTable i = Done (class_size i).
Proof.
  intros H. unfold class_size. destruct (rd_done mPoolSizeTable i H) as (v & -> & Hv).
  by rewrite (list_lookup_total_correct _ _ _ Hv).
Qed.

(** A fact about a class is one about twelve numbers. *)
Ltac classes i :=
  let H := fresh in
  assert (i = 0 \/ i = 1 \/ i = 2 \/ i = 3 \/ i = 4 \/ i = 5 \/ i = 6 \/ i = 7 \/ i = 8 \/ i = 9 \/ i = 10 \/ i = 11)
    as H by lia;
  repeat (destruct H as [->|H]); [..|subst i].

Lemma class_size_128 i : 0 <= i < 12 -> class_size i mod 128 = 0.
Proof. intros H. classes i; done. Qed.

Lemma class_size_pos i : 0 <= i < 12 -> 128 <= class_size i.
Proof. intros H. classes i; done. Qed.

Lemma class_size_lt i j : 0 <= i < j -> j < 12 -> class_size i < class_size j.
Proof. intros H H2. classes i; (classes j; try done; lia). Qed.

Lemma class_size_small i : 0 <= i < 7 -> class_size i <= 2688.
Proof. intros H. classes i; try done; lia. Qed.

(** The class chosen for a size is the smallest that is large enough. *)
Lemma GetPoolIndexFromSize_spec n : 0 <= n ->
  let i := GetPoolIndexFromSize n in
  0 <= i <= 12 /\ (i < 12 -> n <= class_size i) /\ (forall j, 0 <= j < 12 -> n <= class_size j -> i <= j).
Proof.
  intros Hn. unfold GetPoolIndexFromSize. destruct (list_find _ _) as [[i s]|] eqn:Hf.
  - apply list_find_Some in Hf as (Hi & Hs & Hmin). pose proof (lookup_lt_Some _ _ _ Hi) as Hlt. cbn in Hlt.
    cbn zeta. split; [lia|]. split.
    + intros _. unfold class_size. rewrite Nat2Z.id. by rewrite (list_lookup_total_correct _ _ _ Hi).
    + intros j Hj Hnj. destruct (decide (Z.of_nat i <= j)); [done|]. exfalso.
      destruct (lookup_lt_is_Some_2 mPoolSizeTable (Z.to_nat j)) as [v Hv]; [cbn; lia|].
      apply (Hmin _ _ Hv); [lia|]. unfold class_size in Hnj. by rewrite (list_lookup_total_correct _ _ _ Hv) in Hnj.
  - apply list_find_None in Hf. cbn zeta. unfold MAX_POOL_LIST. split; [lia|]. split; [lia|]. intros j Hj Hnj. exfalso.
    destruct (lookup_lt_is_Some_2 mPoolSizeTable (Z.to_nat j)) as [v Hv]; [cbn; lia|].
    rewrite Forall_forall in Hf. apply (Hf v); [by eapply list_elem_of_lookup_2|].
    unfold class_size in Hnj. by rewrite (list_lookup_total_correct _ _ _ Hv) in Hnj.
Qed.

Lemma top_class : GetPoolIndexFromSize 4096 = 7.
Proof. reflexivity. Qed.

(** The block for a request holds it, its head and its tail, unless the
    request is within 48 bytes of the address space. *)
Lemma block_size_spec n : 0 <= n <= 2 ^ 64 - 48 ->
  n + POOL_OVERHEAD <= block_size n < n + POOL_OVERHEAD + 8 /\ block_size n mod 8 = 0.
Proof.
  intros H. unfold block_size, ALIGN_VARIABLE. replace 7 with (Z.ones 3) by done. rewrite Z.land_ones by lia.
  change (2 ^ 3) with 8. assert (u64 (8 - n) mod 8 = (8 - n) mod 8) as ->.
  { unfold u64. apply Z.mod_mod_divide. by exists 2305843009213693952. }
  change POOL_OVERHEAD with 40. assert (0 <= (8 - n) mod 8 < 8 /\ (n + (8 - n) mod 8) mod 8 = 0) as [Ha Hb] by dlia.
  assert (n + (8 - n) mod 8 <= 2 ^ 64 - 48) by dlia.
  rewrite (u64_id (n + _)) by lia. rewrite u64_id by lia. split; [lia|dlia].
Qed.

(* ------------------------------------------------------------------ *)
(** ** The free blocks

    As with the memory map, the order of the free lists does not matter to
    what they promise: [frees T st] lists the free blocks of the pool of type
    [T] with their class, and [holding x] counts those that hold [x]. *)
Definition pool_blocks (p : POOL) : list (Z * Z) :=
  concat (imap (fun i l => (fun a => (a, Z.of_nat i)) <$> l) (FreeList p)).

(** The pool of one of the sixteen ordinary types. *)
Definition pool_of (T : Z) (st : POOLS) : POOL := default (empty_pool T) (mPoolHead st !! Z.to_nat T).

Definition frees (T : Z) (st : POOLS) : list (Z * Z) := pool_blocks (pool_of T st).

Definition block_holds (x : Z) (b : Z * Z) : Prop := b.1 <= x < b.1 + class_size b.2.

#[export] Instance block_holds_dec x b : Decision (block_holds x b).
Proof. unfold block_holds. apply _. Defined.

Definition holding (x : Z) (l : list (Z * Z)) : nat := length (filter (block_holds x) l).

#[export] Instance holding_perm x : Proper ((≡ₚ) ==> eq) (holding x).
Proof. intros l l' H. unfold holding. by rewrite H. Qed.

Lemma holding_app x l l' : holding x (l ++ l') = (holding x l + holding x l')%nat.
Proof. unfold holding. by rewrite filter_app, length_app. Qed.

Lemma holding_cons x b l : holding x (b :: l) = ((if decide (block_holds x b) then 1 else 0) + holding x l)%nat.
Proof. unfold holding. rewrite filter_cons. by case_decide. Qed.

Lemma holding_nil x : holding x [] = 0%nat.
Proof. done. Qed.

(** Changing one element of a list changes its share of the concatenation. *)
Lemma concat_imap_alter {A B} (g : nat -> A -> list B) (f : A -> A) l i x : l !! i = Some x ->
  exists R, concat (imap g l) ≡ₚ g i x ++ R /\ concat (imap g (alter f i l)) ≡ₚ g i (f x) ++ R.
Proof.
  revert g i. induction l as [|y l IH]; intros g [|i] Hx; try done.
  - injection Hx as ->. exists (concat (imap (g ∘ S) l)). by rewrite !imap_cons.
  - destruct (IH (g ∘ S) i Hx) as (R & H1 & H2). exists (g O y ++ R).
    change (alter f (S i) (y :: l)) with (y :: alter f i l). rewrite !imap_cons. cbn [concat]. rewrite H1, H2. cbn [compose].
    split; apply Permutation_app_swap_app.
Qed.

Lemma pool_blocks_push i a p : 0 <= i < Z.of_nat (length (FreeList p)) ->
  pool_blocks (push_free i a p) ≡ₚ (a, i) :: pool_blocks p.
Proof.
  intros Hi. destruct (lookup_lt_is_Some_2 (FreeList p) (Z.to_nat i)) as [l Hl]; [lia|].
  destruct (concat_imap_alter (fun i l => (fun a => (a, Z.of_nat i)) <$> l) (cons a) _ _ _ Hl) as (R & H1 & H2).
  unfold pool_blocks, push_free. cbn [FreeList set_lists]. rewrite H1, H2, fmap_cons. by rewrite Z2Nat.id by lia.
Qed.

Lemma pool_blocks_pop i a l p : 0 <= i -> FreeList p !! Z.to_nat i = Some (a :: l) ->
  pool_blocks p ≡ₚ (a, i) :: pool_blocks (pop_free i p).
Proof.
  intros Hi Hl.
  destruct (concat_imap_alter (fun i l => (fun a => (a, Z.of_nat i)) <$> l) (@tail Z) _ _ _ Hl) as (R & H1 & H2).
  unfold pool_blocks, pop_free. cbn [FreeList set_lists]. rewrite H1, H2. cbn [fmap list_fmap tail]. by rewrite Z2Nat.id by lia.
Qed.

(** The tables have their declared sizes. *)
Definition heads_ok (st : POOLS) : Prop :=
  length (mPoolHead st) = 16%nat /\ Forall (fun p => length (FreeList p) = 12%nat) (mPoolHead st).

Lemma heads_ok_of T st : heads_ok st -> 0 <= T < 16 ->
  mPoolHead st !! Z.to_nat T = Some (pool_of T st) /\ length (FreeList (pool_of T st)) = 12%nat.
Proof.
  intros [H1 H2] HT. destruct (lookup_lt_is_Some_2 (mPoolHead st) (Z.to_nat T)) as [p Hp]; [lia|].
  unfold pool_of. rewrite Hp. split; [done|]. rewrite Forall_forall in H2. apply H2. by eapply list_elem_of_lookup_2.
Qed.

(** An update changes the pool of one type, and nothing else. *)
Lemma update_pool_spec T f st : 0 <= T < 16 -> heads_ok st -> (forall p, length (FreeList (f p)) = length (FreeList p)) ->
  let st' := update_pool T f st in
  heads_ok st' /\ (forall T', 0 <= T' < 16 -> pool_of T' st' = if decide (T' = T) then f (pool_of T st) else pool_of T' st) /\
  pages st' = pages st /\ headers st' = headers st /\ tails st' = tails st /\ mPoolHeadList st' = mPoolHeadList st.
Proof.
  intros HT Hh Hf. unfold update_pool. rewrite decide_True by (unfold EfiMaxMemoryType; lia). cbn zeta.
  destruct (heads_ok_of T st Hh HT) as [Hp _]. destruct Hh as [H1 H2]. split_and!; try done; cbn [mPoolHead].
  - split; cbn [mPoolHead]; [by rewrite length_alter|]. apply Forall_alter; [done|]. intros p _ Hl. by rewrite Hf.
  - intros T' HT'. unfold pool_of at 1. cbn [mPoolHead]. destruct (decide (T' = T)) as [->|Hne].
    + by rewrite list_lookup_alter_eq, Hp.
    + rewrite list_lookup_alter_ne by lia. done.
Qed.

(** What carving does to the state: new free blocks with their headers. *)
Definition carved (T : Z) (bs : list (Z * Z)) (st st' : POOLS) : Prop :=
  (forall T', 0 <= T' < 16 -> frees T' st' ≡ₚ (if decide (T' = T) then bs else []) ++ frees T' st) /\
  pages st' = pages st /\ tails st' = tails st /\ mPoolHeadList st' = mPoolHeadList st /\ heads_ok st' /\
  (forall a i, (a, i) ∈ bs -> exists h, headers st' !! a = Some h /\ Signature h = POOL_FREE_SIGNATURE /\ BlockIndex h = i) /\
  (forall a, a ∉ bs.*1 -> headers st' !! a = headers st !! a).

(** The blocks [bs] tile the range [s..e), each of a class up to [i]. *)
Definition tiles (bs : list (Z * Z)) (i s e : Z) : Prop :=
  (forall x, holding x bs = if decide (s <= x < e) then 1%nat else 0%nat) /\
  (forall a j, (a, j) ∈ bs -> 0 <= j <= i /\ s <= a /\ a + class_size j <= e /\ (a - s) mod 128 = 0) /\
  NoDup (bs.*1).

Lemma tiles_nil i s : tiles [] i s s.
Proof.
  split_and!; [|by intros a j ?%elem_of_nil|apply NoDup_nil_2].
  intros x. rewrite holding_nil. by rewrite decide_False by lia.
Qed.

Lemma tiles_cons bs i a j e : 0 <= j <= i -> i < 12 -> tiles bs i (a + class_size j) e -> a + class_size j <= e ->
  tiles ((a, j) :: bs) i a e.
Proof.
  intros Hj Hi (H1 & H2 & H3) He. pose proof (class_size_pos j ltac:(lia)) as Hp. pose proof (class_size_128 j ltac:(lia)) as Hm.
  split_and!.
  - intros x. rewrite holding_cons, H1. unfold block_holds. cbn. repeat case_decide; lia.
  - intros b k [[= -> ->]|Hb]%elem_of_cons; [split_and!; try lia; by rewrite Z.sub_diag|].
    destruct (H2 b k Hb) as (? & ? & ? & Hk). split_and!; [lia..|]. dlia.
  - cbn. apply NoDup_cons. split; [|done]. intros ([b k] & Hb1 & Hb2)%list_elem_of_fmap. cbn in Hb1. subst b.
    destruct (H2 _ _ Hb2) as (? & ? & _). lia.
Qed.

Lemma tiles_weaken bs i i' s e : tiles bs i s e -> i <= i' -> tiles bs i' s e.
Proof. intros (H1 & H2 & H3) Hi. split_and!; [done| |done]. intros a j Hb. destruct (H2 a j Hb) as (? & ? & ? & ?). split_and!; lia. Qed.

(** A block of a tiling is cut: [bs'] tiles what follows its first part. *)
Lemma tiles_split bs bs' R s e a i j : tiles bs 6 s e -> bs ≡ₚ (a, j) :: R -> 0 <= i < j -> j < 12 ->
  class_size i < class_size j -> tiles bs' 6 (a + class_size i) (a + class_size j) ->
  tiles (bs' ++ (a, i) :: R) 6 s e.
Proof.
  intros (H1 & H2 & H3) HR Hij Hj Hlt (H1' & H2' & H3').
  assert ((a, j) ∈ bs) as Hab by (rewrite HR; by apply elem_of_cons; left).
  destruct (H2 a j Hab) as (Hj6 & Ha1 & Ha2 & Ha3). pose proof (class_size_pos i ltac:(lia)) as Hci.
  pose proof (class_size_128 i ltac:(lia)) as Hmi.
  assert (forall b k, (b, k) ∈ R -> (b, k) ∈ bs) as Hin by (intros b k Hb; rewrite HR; by apply elem_of_cons; right).
  assert (forall x, (if decide (a <= x < a + class_size j)%Z then 1 else 0) + holding x R =
    if decide (s <= x < e)%Z then 1 else 0)%nat as Hh.
  { intros x. rewrite <-H1, HR, holding_cons. done. }
  split_and!.
  - intros x. rewrite <-Hh, holding_app, holding_cons, H1'. unfold block_holds. cbn [fst snd]. repeat case_decide; lia.
  - intros b k [Hb|[[= -> ->]|Hb]%elem_of_cons]%elem_of_app; [|split_and!; lia|by apply H2, Hin].
    destruct (H2' b k Hb) as (? & ? & ? & ?). split_and!; try lia. dlia.
  - rewrite fmap_app. apply NoDup_app. split_and!; [done| |].
    + intros b ([c k] & -> & Hb)%list_elem_of_fmap Hb'. destruct (H2' c k Hb) as (Hk & ? & ? & _). cbn in Hb'.
      pose proof (class_size_pos k ltac:(lia)). apply elem_of_cons in Hb' as [->|Hb']; [cbn in *; lia|].
      apply list_elem_of_fmap in Hb' as ([d m] & Hcd & Hd). cbn in Hcd. subst d. specialize (Hh c).
      rewrite decide_True in Hh by (cbn in *; lia). destruct (H2 c m (Hin _ _ Hd)) as (Hm & _ & _ & _).
      pose proof (class_size_pos m ltac:(lia)). apply elem_of_Permutation in Hd as [R' HR'].
      rewrite HR', holding_cons, decide_True in Hh by (unfold block_holds; cbn; lia). case_decide; lia.
    + rewrite HR in H3. cbn in *. apply NoDup_cons in H3 as [? ?]. by apply NoDup_cons.
Qed.

Lemma tiles_app bs bs' i s m e : tiles bs i s m -> tiles bs' i m e -> s <= m <= e -> (m - s) mod 128 = 0 -> 0 <= i < 12 ->
  tiles (bs' ++ bs) i s e.
Proof.
  intros (H1 & H2 & H3) (H1' & H2' & H3') Hm Hd Hi. split_and!.
  - intros x. rewrite holding_app, H1, H1'. repeat case_decide; lia.
  - intros a j [Hb|Hb]%elem_of_app.
    + destruct (H2' a j Hb) as (? & ? & ? & ?). split_and!; try lia. dlia.
    + destruct (H2 a j Hb) as (? & ? & ? & ?). split_and!; lia.
  - rewrite fmap_app. apply NoDup_app. split_and!; [done| |done].
    intros a ([b j] & -> & Hb)%list_elem_of_fmap ([c k] & Hc1 & Hc)%list_elem_of_fmap. cbn in Hc1. subst c.
    destruct (H2' _ _ Hb) as (? & ? & ? & _). destruct (H2 _ _ Hc) as (? & ? & ? & _).
    pose proof (class_size_pos k ltac:(lia)). cbn in *. lia.
Qed.

Lemma carved_nil T st : heads_ok st -> carved T [] st st.
Proof. intros H. split_and!; try done. { intros T' _. by case_decide. } intros a i ?%elem_of_nil. done. Qed.

Lemma carved_app T bs bs' st st1 st2 : carved T bs st st1 -> carved T bs' st1 st2 ->
  (forall a, a ∈ bs.*1 -> a ∉ bs'.*1) -> carved T (bs' ++ bs) st st2.
Proof.
  intros (H1 & H2 & H3 & H4 & H5 & H6 & H7) (H1' & H2' & H3' & H4' & H5' & H6' & H7') Hd. split_and!; try congruence.
  - intros T' HT. rewrite H1', H1 by done. case_decide; [by rewrite app_assoc|done].
  - intros a i [Hb|Hb]%elem_of_app; [by apply H6'|]. rewrite H7'; [by apply H6|]. apply Hd.
    apply list_elem_of_fmap. by exists (a, i).
  - intros a Ha. rewrite fmap_app in Ha. rewrite H7', H7; [done|intros Hb; apply Ha, elem_of_app; auto..].
Qed.

(** One free block more. *)
Lemma carved_push T i a st : 0 <= T < 16 -> 0 <= i < 12 -> heads_ok st ->
  carved T [(a, i)] st (update_pool T (push_free i a) (set_header a (mkHeader POOL_FREE_SIGNATURE i 0 0) st)).
Proof.
  intros HT Hi Hh. set (st1 := set_header _ _ st). assert (heads_ok st1) as Hh1 by done.
  destruct (heads_ok_of T st1 Hh1 HT) as [_ Hl].
  destruct (update_pool_spec T (push_free i a) st1 HT Hh1) as (H1 & H2 & H3 & H4 & H5 & H6).
  { intros q. unfold push_free. cbn. by rewrite length_alter. }
  split_and!; try done.
  - intros T' HT'. unfold frees. rewrite H2 by done. destruct (decide (T' = T)) as [->|]; [|done].
    by rewrite pool_blocks_push by lia.
  - intros b j [= -> ->]%list_elem_of_singleton. rewrite H4. cbn. rewrite lookup_insert_eq. by eexists.
  - intros b Hb. rewrite H4. cbn. apply lookup_insert_ne. intros ->. apply Hb. cbn. by apply list_elem_of_singleton.
Qed.

Lemma Carve_size_spec n T i base Offset MaxOffset st :
  0 <= T < 16 -> 0 <= i < 12 -> heads_ok st -> MaxOffset - Offset < 128 * Z.of_nat n -> (0 < n)%nat ->
  exists Offset' st' bs, Carve_size n T base (class_size i) i Offset MaxOffset st = Done (Offset', st') /\
    carved T bs st st' /\ tiles bs i (base + Offset) (base + Offset') /\
    Offset <= Offset' /\ (Offset <= MaxOffset -> Offset' <= MaxOffset) /\ MaxOffset < Offset' + class_size i /\
    (Offset' - Offset) mod 128 = 0.
Proof.
  intros HT Hi Hh. pose proof (class_size_pos i Hi) as Hp. pose proof (class_size_128 i Hi) as Hm.
  revert Offset st Hh. induction n as [|n IH]; intros Offset st Hh Hn H0; [lia|]. cbn [Carve_size].
  destruct (decide (Offset + class_size i <= MaxOffset)) as [Hle|Hle].
  - pose proof (carved_push T i (base + Offset) st HT Hi Hh) as Hc. cbn zeta.
    set (st1 := update_pool _ _ _) in *. pose proof Hc as (_ & _ & _ & _ & Hh1 & _).
    destruct (IH (Offset + class_size i) st1 Hh1) as (O' & st' & bs & -> & Hc' & Ht & H1 & H2 & H3 & H4); [lia|lia|].
    exists O', st', (bs ++ [(base + Offset, i)]). split; [done|]. split; [|split; [|split_and!; try lia; dlia]].
    + eapply carved_app; [done|done|]. intros a Ha%list_elem_of_singleton ([b j] & Hb1 & Hb)%list_elem_of_fmap.
      destruct Ht as (_ & Ht & _). apply Ht in Hb. cbn in Ha, Hb1. lia.
    + eapply (tiles_app _ _ _ _ (base + Offset + class_size i)); [|by rewrite <-Z.add_assoc|lia|dlia|done].
      apply tiles_cons; [lia|lia|apply tiles_nil|lia].
  - exists Offset, st, []. split; [done|]. split; [by apply carved_nil|]. split; [apply tiles_nil|].
    split_and!; try lia. by rewrite Z.sub_diag.
Qed.

(** Carving always ends, and leaves nothing over. *)
Lemma Carve_spec i T base Offset MaxOffset st :
  0 <= T < 16 -> (i < 12)%nat -> heads_ok st -> Offset <= MaxOffset <= 4096 -> 0 <= Offset -> (MaxOffset - Offset) mod 128 = 0 ->
  exists st' bs, Carve i T base Offset MaxOffset st = Done st' /\ carved T bs st st' /\
    tiles bs (Z.of_nat i) (base + Offset) (base + MaxOffset).
Proof.
  intros HT. revert Offset st. induction i as [|i IH]; intros Offset st Hi Hh HO HO0 Hm; cbn [Carve].
  all: destruct (decide (Offset < MaxOffset)) as [Hlt|Hlt];
    [|replace MaxOffset with Offset by lia; exists st, []; split_and!; [done|by apply carved_nil|apply tiles_nil]].
  all: rewrite rd_class by lia; mred.
  all: match goal with |- context [Carve_size 33 _ _ (class_size ?k) _ _ _ _] =>
    destruct (Carve_size_spec 33 T k base Offset MaxOffset st HT ltac:(lia) Hh) as
      (O' & st1 & bs & -> & Hc & Ht & H1 & H2 & H3 & H4); [lia|lia|]; pose proof (class_size_128 k ltac:(lia)) as Hk end.
  all: mred.
  - assert (O' = MaxOffset) as ->. { change (class_size (Z.of_nat 0)) with 128 in *. dlia. }
    rewrite decide_False by lia. by exists st1, bs.
  - pose proof Hc as (_ & _ & _ & _ & Hh1 & _).
    destruct (IH O' st1) as (st' & bs' & -> & Hc' & Ht'); [lia|done|lia|lia|dlia|].
    exists st', (bs' ++ bs). split; [done|]. split.
    + eapply carved_app; [done|done|]. intros a ([b j] & Hb1 & Hb)%list_elem_of_fmap ([c k] & Hc1 & Hb')%list_elem_of_fmap.
      destruct Ht as (_ & Ht & _). destruct Ht' as (_ & Ht' & _). apply Ht in Hb. apply Ht' in Hb'. cbn in Hb1, Hc1.
      pose proof (class_size_pos j ltac:(lia)). lia.
    + eapply tiles_app; [done|eapply tiles_weaken; [done|lia]|lia|dlia|lia].
Qed.

(* ------------------------------------------------------------------ *)
(** ** What the pool promises

    To its callers the pool is a map [live] from the address of a block's
    head to its type and size.  How it keeps that promise is said with one
    more ghost map, [ar]: the pages it has taken from the page allocator,
    each cut into blocks ([Small], with the list of blocks and classes) or
    whole ([Large], [n] pages for one block). *)
Inductive arena : Type :=
| Small (T : Z) (bs : list (Z * Z))
| Large (T n : Z).

Definition arena_type (A : arena) : Z := match A with Small T _ | Large T _ => T end.
Definition arena_bytes (A : arena) : Z := match A with Small _ _ => 4096 | Large _ n => n * 4096 end.

Definition block_in (ar : gmap Z arena) (T a i : Z) : Prop :=
  exists p bs, ar !! p = Some (Small T bs) /\ (a, i) ∈ bs.

Section invariant.
Context (junk : Z -> HEADER).

(** A block in use has its head and its tail; a free one its class; and the
    word the two share is a class, but at the start of a page. *)
Definition head_of (a T S : Z) (st : POOLS) : Prop :=
  let h := header_at junk a st in
  Signature h = POOL_HEAD_SIGNATURE /\ BlockType h = T /\ BlockSize h = S /\ tails st !! (a + S - 16) = Some S.

Definition free_head (a i : Z) (st : POOLS) : Prop :=
  let h := header_at junk a st in Signature h = POOL_FREE_SIGNATURE /\ BlockIndex h = i.

Definition class_ok (a : Z) (st : POOLS) : Prop :=
  a mod 4096 = 0 \/ 0 <= BlockIndex (header_at junk a st) < 12.

Definition live_ok (ar : gmap Z arena) (st : POOLS) (a T S : Z) : Prop :=
  40 <= S < 2 ^ 64 - 4096 /\ S mod 8 = 0 /\ class_ok a st /\
  (GetPoolIndexFromSize S < 7 /\ block_in ar T a (GetPoolIndexFromSize S) \/
   7 <= GetPoolIndexFromSize S /\ ar !! a = Some (Large T (block_pages S 4096))).

Definition arena_ok (l : list MEMORY_MAP) (p : Z) (A : arena) : Prop :=
  allocatable (arena_type A) /\ arena_type A < 16 /\ 0 < p /\ p mod 4096 = 0 /\
  (exists attr, one_entry l p (p + arena_bytes A - 1) (arena_type A, attr) /\ Z.land attr EFI_MEMORY_SP = 0) /\
  match A with Small _ bs => tiles bs 6 p (p + 4096) | Large _ n => 0 < n < 2 ^ 52 end.

(** [busy] is the block whose head is being written. *)
Record pool_inv (busy : option Z) (live : gmap Z (Z * Z)) (ar : gmap Z arena) (st : POOLS) : Prop := {
  wf_pages : pages_ok (pages st) /\ quiet (pages st) /\ settled (pages st);
  wf_heads : heads_ok st /\ mPoolHeadList st = [];
  wf_arenas : forall p A, ar !! p = Some A -> arena_ok (gMemoryMap (pages st)) p A;
  wf_apart : forall p q A B, ar !! p = Some A -> ar !! q = Some B -> p <> q ->
    p + arena_bytes A <= q \/ q + arena_bytes B <= p;
  wf_live : forall a T S, live !! a = Some (T, S) -> live_ok ar st a T S;
  wf_used : forall a T S, live !! a = Some (T, S) -> busy <> Some a -> head_of a T S st;
  wf_free : forall T, 0 <= T < 16 -> NoDup (frees T st).*1 /\
    forall a i, (a, i) ∈ frees T st <-> block_in ar T a i /\ live !! a = None;
  wf_headers : forall T a i, block_in ar T a i -> live !! a = None -> free_head a i st;
}.

(** No page is kept without a block in use on it. *)
Definition occupied (live : gmap Z (Z * Z)) (ar : gmap Z arena) : Prop :=
  forall p A, ar !! p = Some A -> exists a, is_Some (live !! a) /\ p <= a < p + arena_bytes A.

Definition pool_wf (live : gmap Z (Z * Z)) (ar : gmap Z arena) (st : POOLS) : Prop :=
  pool_inv None live ar st /\ occupied live ar.

Lemma tiles_apart bs k s e a i b j : tiles bs k s e -> 0 <= k < 12 -> (a, i) ∈ bs -> (b, j) ∈ bs ->
  a = b /\ i = j \/ a + class_size i <= b \/ b + class_size j <= a.
Proof.
  intros (H1 & H2 & H3) Hk Ha Hb. destruct (decide ((a, i) = (b, j))) as [[= -> ->]|Hne]; [by left|right].
  destruct (H2 _ _ Ha) as (Hi & _ & _ & _). destruct (H2 _ _ Hb) as (Hj & _ & _ & _).
  pose proof (class_size_pos i ltac:(lia)). pose proof (class_size_pos j ltac:(lia)).
  apply elem_of_Permutation in Ha as [R HR]. rewrite HR in Hb. apply elem_of_cons in Hb as [Hb|Hb]; [congruence|].
  apply elem_of_Permutation in Hb as [R' HR']. rewrite HR' in HR. specialize (H1 (Z.max a b)).
  rewrite HR, !holding_cons in H1. unfold block_holds in H1. cbn [fst snd] in H1. repeat case_decide; lia.
Qed.

Lemma block_pages_spec S : 0 < S < 2 ^ 64 - 4096 ->
  0 < block_pages S 4096 < 2 ^ 52 /\ S <= block_pages S 4096 * 4096 < S + 4096.
Proof.
  intros H. unfold block_pages. change (EFI_SIZE_TO_PAGES 4096) with 1. unfold EFI_SIZE_TO_PAGES.
  change (1 - 1) with 0. rewrite Z.ldiff_0_r, land_page, Z.shiftr_div_pow2 by lia. change (2 ^ 12) with 4096.
  rewrite u64_id by (case_match; dlia). case_match; dlia.
Qed.

Section facts.
Context {busy live ar st} (Hinv : pool_inv busy live ar st).

Lemma block_range T a i : block_in ar T a i ->
  exists p bs, ar !! p = Some (Small T bs) /\ (a, i) ∈ bs /\ tiles bs 6 p (p + 4096) /\ 0 < p /\ p mod 4096 = 0 /\
    0 <= i <= 6 /\ p <= a /\ a + class_size i <= p + 4096 /\ (a - p) mod 128 = 0.
Proof.
  intros (p & bs & Hp & Ha). destruct (wf_arenas _ _ _ _ Hinv _ _ Hp) as (_ & _ & H0 & Hm & _ & Ht).
  exists p, bs. pose proof Ht as (_ & Ht' & _). destruct (Ht' _ _ Ha) as (? & ? & ? & ?). split_and!; done || lia.
Qed.

(** Blocks are the same or apart. *)
Lemma block_apart T a i T' b j : block_in ar T a i -> block_in ar T' b j ->
  T = T' /\ a = b /\ i = j \/ a + class_size i <= b \/ b + class_size j <= a.
Proof.
  intros (p & bs & Hp & Ha & Ht & _ & _ & _ & H1 & H2 & _)%block_range
    (q & bs' & Hq & Hb & _ & _ & _ & _ & H1' & H2' & _)%block_range.
  destruct (decide (p = q)) as [->|Hne].
  - rewrite Hp in Hq. injection Hq as <- <-. destruct (tiles_apart _ _ _ _ a i b j Ht ltac:(lia) Ha Hb) as [?|?]; [by left|by right].
  - right. pose proof (wf_apart _ _ _ _ Hinv p q _ _ Hp Hq Hne) as Hd. cbn in Hd. lia.
Qed.

(** A block in use lies in pages of its type. *)
Lemma live_range a T S : live !! a = Some (T, S) ->
  exists p A, ar !! p = Some A /\ arena_type A = T /\ 40 <= S /\ p <= a /\ a + S <= p + arena_bytes A /\
    match A with Small _ bs => (a, GetPoolIndexFromSize S) ∈ bs /\ GetPoolIndexFromSize S < 7 /\ S <= class_size (GetPoolIndexFromSize S)
               | Large _ _ => a = p end.
Proof.
  intros (HS & _ & _ & [[Hi Hb]|[Hi Ha]])%(wf_live _ _ _ _ Hinv).
  - destruct (block_range _ _ _ Hb) as (p & bs & Hp & Hab & _ & _ & _ & ? & ? & ? & _).
    destruct (GetPoolIndexFromSize_spec S ltac:(lia)) as (_ & Hc & _). exists p, (Small T bs). cbn. split_and!; try done; lia.
  - exists a, (Large T (block_pages S 4096)). pose proof (block_pages_spec S ltac:(lia)). cbn. split_and!; try done; lia.
Qed.

(** Blocks in use do not overlap. *)
Lemma live_apart a T S b T' S' : live !! a = Some (T, S) -> live !! b = Some (T', S') -> a <> b ->
  a + S <= b \/ b + S' <= a.
Proof.
  intros (p & A & Hp & _ & H1 & H2 & H3 & HA)%live_range (q & B & Hq & _ & H1' & H2' & H3' & HB)%live_range Hne.
  destruct (decide (p = q)) as [->|Hpq].
  - rewrite Hp in Hq. injection Hq as <-. destruct A as [T0 bs|T0 n]; [|lia].
    destruct HA as (HA & _ & HcA), HB as (HB & _ & HcB).
    destruct (wf_arenas _ _ _ _ Hinv _ _ Hp) as (_ & _ & _ & _ & _ & Ht).
    destruct (tiles_apart _ _ _ _ _ _ _ _ Ht ltac:(lia) HA HB) as [[? _]|?]; lia.
  - pose proof (wf_apart _ _ _ _ Hinv p q _ _ Hp Hq Hpq). lia.
Qed.

(** And are memory of their type. *)
Lemma live_memory a T S : live !! a = Some (T, S) ->
  0 < a /\ exists attr, forall x, a <= x < a + S -> cover (gMemoryMap (pages st)) x = [(T, attr)].
Proof.
  intros (p & A & Hp & <- & H1 & H2 & H3 & _)%live_range.
  destruct (wf_arenas _ _ _ _ Hinv _ _ Hp) as (_ & _ & H0 & _ & (attr & (E & HE & HK & Hs & He) & _) & _).
  split; [lia|]. exists attr. intros x Hx. rewrite (cover_elem _ E x) by (apply Hinv || done || unfold holds; lia).
  by rewrite HK.
Qed.
End facts.

(** The count of bytes in use is not part of the promise. *)
Lemma used_inv busy live ar st T n : pool_inv busy live ar st -> 0 <= T < 16 ->
  pool_inv busy live ar (update_pool T (fun p => set_used (n p) p) st).
Proof.
  intros [H1 [H2 H2'] H3 H4 H5 H6 H7 H8] HT.
  destruct (update_pool_spec T (fun p => set_used (n p) p) st HT H2 ltac:(done)) as (E1 & E2 & E3 & E4 & E5 & E6).
  set (st' := update_pool _ _ st) in *. clearbody st'. 
  assert (forall a, header_at junk a st' = header_at junk a st) as Hh by (intros a; unfold header_at; by rewrite E4).
  constructor; try rewrite E3; try done.
  - by rewrite E6.
  - intros a T' S Ha. specialize (H5 a T' S Ha). unfold live_ok, class_ok in *. by rewrite Hh.
  - intros a T' S Ha Hb. specialize (H6 a T' S Ha Hb). unfold head_of in *. by rewrite Hh, E5.
  - intros T' HT'. specialize (H7 T' HT'). unfold frees in *. rewrite E2 by done. by destruct (decide (T' = T)) as [->|].
  - intros T' a i Ha Hb. specialize (H8 T' a i Ha Hb). unfold free_head in *. by rewrite Hh.
Qed.

(** Writing the head and the tail of a block finishes it. *)
Lemma head_written live ar st a T S : pool_inv (Some a) live ar st -> live !! a = Some (T, S) ->
  pool_inv None live ar (set_tail (u64 (a + S - SIZE_OF_POOL_TAIL)) S
    (set_header a (mkHeader POOL_HEAD_SIGNATURE (BlockIndex (header_at junk a st)) T S) st)).
Proof.
  intros Hinv Ha. pose proof (live_range Hinv a T S Ha) as (p & A & Hp & _ & HS & Hpa & HaS & _).
  destruct (wf_arenas _ _ _ _ Hinv p A Hp) as (_ & _ & Hp0 & _ & (attr & (E & HE & _ & Hs & He) & _) & _).
  assert (0 < a /\ a + S < 2 ^ 64) as [Ha0 HaT].
  { pose proof (ok_entries _ (proj1 (wf_pages _ _ _ _ Hinv))) as Hes. rewrite Forall_forall in Hes.
    destruct (Hes E HE) as [Hr _]. unfold page_range in Hr. lia. }
  rewrite u64_id by (unfold SIZE_OF_POOL_TAIL; lia). set (h := mkHeader _ _ _ _). set (st' := set_tail _ _ _).
  assert (header_at junk a st' = h) as Hha by (unfold header_at; cbn; by rewrite lookup_insert_eq).
  assert (forall b, b <> a -> header_at junk b st' = header_at junk b st) as Hhb.
  { intros b Hb. unfold header_at. cbn. by rewrite lookup_insert_ne. }
  pose proof Hinv as [H1 H2 H3 H4 H5 H6 H7 H8]. constructor; try done.
  - intros b T' S' Hb. specialize (H5 b T' S' Hb). unfold live_ok, class_ok in *.
    destruct (decide (b = a)) as [->|Hne]; [by rewrite Hha|by rewrite Hhb].
  - intros b T' S' Hb _. destruct (decide (b = a)) as [->|Hne].
    + rewrite Ha in Hb. injection Hb as <- <-. unfold head_of. rewrite Hha. split_and!; try done.
      cbn. apply lookup_insert_eq.
    + specialize (H6 b T' S' Hb ltac:(congruence)). unfold head_of in *. rewrite Hhb by done.
      destruct H6 as (? & ? & ? & Ht). split_and!; try done. cbn. rewrite lookup_insert_ne; [done|].
      pose proof (live_apart Hinv a T S b T' S' Ha Hb ltac:(done)). pose proof (live_range Hinv b T' S' Hb) as (? & ? & _ & _ & ? & _).
      unfold SIZE_OF_POOL_TAIL. lia.
  - intros T' b i Hb Hl. specialize (H8 T' b i Hb Hl). unfold free_head in *. by rewrite Hhb by congruence.
Qed.

(** A free block is taken whole. *)
Lemma pop_inv live ar st T a i l S : pool_inv None live ar st -> 0 <= T < 16 -> 0 <= i < 12 ->
  FreeList (pool_of T st) !! Z.to_nat i = Some (a :: l) ->
  40 <= S < 2 ^ 64 - 4096 -> S mod 8 = 0 -> GetPoolIndexFromSize S = i ->
  block_in ar T a i /\ live !! a = None /\
  pool_inv (Some a) (<[a := (T, S)]> live) ar (update_pool T (pop_free i) st).
Proof.
  intros Hinv HT Hi Hl HS HS8 HSi. pose proof Hinv as [H1 [H2 H2'] H3 H4 H5 H6 H7 H8].
  pose proof (pool_blocks_pop i a l _ ltac:(lia) Hl) as Hp.
  destruct (H7 T HT) as [Hnd Hin]. assert (block_in ar T a i /\ live !! a = None) as [Hb Hla].
  { apply Hin. unfold frees. rewrite Hp. by apply elem_of_cons; left. }
  split; [done|]. split; [done|].
  assert (i < 7) as Hi7 by (pose proof (block_range Hinv T a i Hb) as (? & ? & _ & _ & _ & _ & _ & ? & _); lia).
  destruct (update_pool_spec T (pop_free i) st HT H2) as (E1 & E2 & E3 & E4 & E5 & E6).
  { intros q. unfold pop_free. cbn. by rewrite length_alter. }
  set (st' := update_pool _ _ st) in *. clearbody st'.
  assert (forall b, header_at junk b st' = header_at junk b st) as Hh by (intros b; unfold header_at; by rewrite E4).
  constructor; try rewrite E3; try done.
  - by rewrite E6.
  - intros b T' S'. rewrite lookup_insert_Some. intros [[<- [= <- <-]]|[_ Hb']].
    + split_and!; try lia; [|left; by rewrite HSi]. right. rewrite Hh. destruct (H8 _ _ _ Hb Hla) as [_ ->]. lia.
    + specialize (H5 b T' S' Hb'). unfold live_ok, class_ok in *. by rewrite Hh.
  - intros b T' S'. rewrite lookup_insert_Some. intros [[<- _]|[_ Hb']] Hbusy; [done|].
    specialize (H6 b T' S' Hb' ltac:(done)). unfold head_of in *. by rewrite Hh, E5.
  - intros T' HT'. unfold frees in *. rewrite E2 by done. destruct (decide (T' = T)) as [->|Hne].
    + rewrite Hp in Hnd. cbn in Hnd. apply NoDup_cons in Hnd as [Hna Hnd]. split; [done|]. intros b j.
      specialize (Hin b j). rewrite Hp in Hin. rewrite elem_of_cons in Hin. rewrite lookup_insert_None. split.
      * intros Hbj. destruct Hin as [Hin _]. destruct Hin as [? ?]; [by right|]. split_and!; try done.
        intros <-. apply Hna, list_elem_of_fmap. by exists (a, j).
      * intros [Hbl [Hbn Hba]]. destruct Hin as [_ [[= -> ->]|?]]; done.
    + destruct (H7 T' HT') as [Hnd' Hin']. split; [done|]. intros b j. rewrite Hin', lookup_insert_None. split; [|by intros [? [? _]]].
      intros [Hbl Hbn]. split_and!; try done. intros <-.
      destruct (block_apart Hinv _ _ _ _ _ _ Hb Hbl) as [[? _]|?]; [congruence|].
      pose proof (block_range Hinv _ _ _ Hbl) as (? & ? & _ & _ & _ & _ & _ & ? & _).
      pose proof (class_size_pos i ltac:(lia)). pose proof (class_size_pos j ltac:(lia)). lia.
  - intros T' b j Hbl. rewrite lookup_insert_None. intros [Hbn _]. specialize (H8 _ _ _ Hbl Hbn). unfold free_head in *. by rewrite Hh.
Qed.

(** Cutting the rest of a block, or of a new page, into free blocks: in the
    arena at [p] the block [a] is now of class [i] and [bs'] follow it. *)
Section cutting.
Context {live : gmap Z (Z * Z)} {ar : gmap Z arena} {st st' : POOLS} {p T a i : Z} {bs' R : list (Z * Z)}.
Context (Hinv : pool_inv (Some a) live ar st) (Hcut : carved T bs' st st').
Context (Hok : arena_ok (gMemoryMap (pages st)) p (Small T (bs' ++ (a, i) :: R))).
Context (Hap : forall q A, ar !! q = Some A -> q <> p -> p + 4096 <= q \/ q + arena_bytes A <= p).
Context (Hold : ar !! p = None /\ R = [] \/
  exists bs j, ar !! p = Some (Small T bs) /\ bs ≡ₚ (a, j) :: R /\ is_Some (live !! a)).
#[local] Abbreviation bs := (bs' ++ (a, i) :: R).
#[local] Abbreviation ar' := (<[p := Small T bs]> ar).

Lemma cut_tiles : tiles bs 6 p (p + 4096).
Proof. apply Hok. Qed.

Lemma cut_in b k : (b, k) ∈ bs -> 0 <= k <= 6 /\ p <= b /\ b + class_size k <= p + 4096.
Proof. intros Hb. destruct cut_tiles as (_ & H & _). destruct (H _ _ Hb) as (? & ? & ? & _). lia. Qed.

Lemma cut_a : (a, i) ∈ bs.
Proof. apply elem_of_app. right. by apply elem_of_cons; left. Qed.

(** The blocks that were there and stay are none of the new ones. *)
Lemma cut_old T' b k : block_in ar T' b k -> b <> a -> block_in ar' T' b k /\ b ∉ bs'.*1.
Proof.
  intros (q & bs0 & Hq & Hb) Hba. destruct (wf_arenas _ _ _ _ Hinv _ _ Hq) as (_ & _ & _ & _ & _ & Hto).
  pose proof Hto as (_ & Hto' & _). destruct (Hto' _ _ Hb) as (Hk & Hb1 & Hb2 & _). pose proof (class_size_pos k ltac:(lia)).
  destruct (decide (q = p)) as [->|Hqp].
  - destruct Hold as [[Hn _]|(bs1 & j & Hp & HR & _)]; [congruence|]. rewrite Hp in Hq. injection Hq as <- <-.
    rewrite HR in Hb. apply elem_of_cons in Hb as [[= -> ->]|Hb]; [done|]. split.
    + exists p, bs. rewrite lookup_insert_eq. split; [done|]. apply elem_of_app. right. by apply elem_of_cons; right.
    + intros ([c m] & -> & Hc)%list_elem_of_fmap. destruct cut_tiles as (_ & _ & Hnd). rewrite fmap_app in Hnd.
      apply NoDup_app in Hnd as (_ & Hnd & _). apply (Hnd c); [apply list_elem_of_fmap; by exists (c, m)|].
      cbn. apply elem_of_cons. right. apply list_elem_of_fmap. by exists (c, k).
  - split; [exists q, bs0; by rewrite lookup_insert_ne|].
    intros ([c m] & -> & Hc)%list_elem_of_fmap. destruct (cut_in c m) as (? & ? & ?); [by apply elem_of_app; left|].
    pose proof (class_size_pos m ltac:(lia)). pose proof (Hap _ _ Hq Hqp) as Hd. cbn in *. lia.
Qed.

Lemma cut_new T' b k : block_in ar' T' b k ->
  T' = T /\ (b, k) ∈ bs' \/ T' = T /\ b = a /\ k = i \/ block_in ar T' b k /\ b <> a.
Proof.
  intros (q & bs0 & Hq & Hb). apply lookup_insert_Some in Hq as [[<- [= <- <-]]|[Hqp Hq]].
  - apply elem_of_app in Hb as [Hb|[[= -> ->]|Hb]%elem_of_cons]; [by left|by right; left|right; right].
    destruct Hold as [[_ ->]|(bs1 & j & Hp & HR & _)]; [by apply elem_of_nil in Hb|]. split.
    + exists p, bs1. split; [done|]. rewrite HR. by apply elem_of_cons; right.
    + destruct cut_tiles as (_ & _ & Hnd). rewrite fmap_app in Hnd. apply NoDup_app in Hnd as (_ & _ & Hnd).
      cbn in Hnd. apply NoDup_cons in Hnd as [Hna _]. intros ->. apply Hna, list_elem_of_fmap. by exists (a, k).
  - right; right. split; [by exists q, bs0|]. intros ->.
    destruct (cut_in a i cut_a) as (? & ? & ?). pose proof (class_size_pos i ltac:(lia)).
    destruct (wf_arenas _ _ _ _ Hinv _ _ Hq) as (_ & _ & _ & _ & _ & (_ & Hto & _)). destruct (Hto _ _ Hb) as (? & ? & ? & _).
    pose proof (class_size_pos k ltac:(lia)). pose proof (Hap _ _ Hq ltac:(done)) as Hd. cbn in *. lia.
Qed.

Lemma cut_live b T' S' : live !! b = Some (T', S') -> b ∉ bs'.*1.
Proof.
  intros Hb. destruct (decide (b = a)) as [->|Hba].
  { destruct cut_tiles as (_ & _ & Hnd). rewrite fmap_app in Hnd. apply NoDup_app in Hnd as (_ & Hnd & _).
    intros Ha. apply (Hnd a Ha). cbn. by apply elem_of_cons; left. }
  destruct (wf_live _ _ _ _ Hinv _ _ _ Hb) as (_ & _ & _ & [[_ Hbl]|[_ Hq]]); [by eapply cut_old|].
  intros ([c m] & -> & Hc)%list_elem_of_fmap. destruct (cut_in c m) as (? & ? & ?); [by apply elem_of_app; left|].
  pose proof (class_size_pos m ltac:(lia)). destruct (decide (c = p)) as [->|Hcp].
  - destruct Hold as [[? _]|(? & ? & ? & _)]; cbn in Hq; congruence.
  - pose proof (Hap _ _ Hq Hcp) as Hd. destruct (wf_arenas _ _ _ _ Hinv _ _ Hq) as (_ & _ & _ & _ & _ & ?). cbn in *. lia.
Qed.

Lemma cut_unlive T' b k : block_in ar T' b k -> live !! b = None -> b <> a.
Proof.
  intros Hb Hl ->. destruct Hold as [[Hn _]|(bs1 & j & Hp & HR & [x Hx])]; [|congruence].
  destruct (cut_in a i cut_a) as (? & ? & ?). pose proof (class_size_pos i ltac:(lia)).
  apply (block_range Hinv) in Hb as (q & bs0 & Hq & _ & _ & _ & _ & ? & ? & ? & _). pose proof (class_size_pos k ltac:(lia)).
  pose proof (Hap _ _ Hq ltac:(congruence)) as Hd. cbn in Hd. lia.
Qed.

Lemma cut_header b : b ∉ bs'.*1 -> header_at junk b st' = header_at junk b st.
Proof. intros Hb. unfold header_at. destruct Hcut as (_ & _ & _ & _ & _ & _ & H). by rewrite H. Qed.

Lemma cut_free T' : 0 <= T' < 16 -> NoDup (frees T' st').*1 /\
  forall b k, (b, k) ∈ frees T' st' <-> block_in ar' T' b k /\ b <> a /\ live !! b = None.
Proof.
  intros HT'. destruct Hcut as (Hf & _). destruct (wf_free _ _ _ _ Hinv T' HT') as [Hnd Hin].
  assert (forall b k, (b, k) ∈ bs' -> block_in ar' T b k /\ b <> a /\ live !! b = None) as Hnew.
  { intros b k Hb. assert (b ∈ bs'.*1) as Hb' by (apply list_elem_of_fmap; by exists (b, k)). split_and!.
    - exists p, bs. rewrite lookup_insert_eq. split; [done|]. by apply elem_of_app; left.
    - intros ->. destruct cut_tiles as (_ & _ & Hn). rewrite fmap_app in Hn. apply NoDup_app in Hn as (_ & Hn & _).
      apply (Hn a Hb'). cbn. by apply elem_of_cons; left.
    - destruct (live !! b) as [[T0 S0]|] eqn:E; [|done]. by apply cut_live in E. }
  assert (forall b k, (b, k) ∈ frees T' st -> block_in ar' T' b k /\ b <> a /\ live !! b = None /\ b ∉ bs'.*1) as Hkeep.
  { intros b k [Hb Hl]%Hin. pose proof (cut_unlive _ _ _ Hb Hl) as Hba. by destruct (cut_old _ _ _ Hb Hba). }
  split.
  - rewrite Hf by done. rewrite fmap_app. apply NoDup_app. split_and!; [|intros b|done].
    + case_decide; [|apply NoDup_nil_2]. destruct cut_tiles as (_ & _ & Hn). rewrite fmap_app in Hn. by apply NoDup_app in Hn as (? & _).
    + case_decide; [|by intros ?%elem_of_nil]. intros Hb ([c m] & -> & Hc)%list_elem_of_fmap. by apply Hkeep in Hc as (_ & _ & _ & ?).
  - intros b k. rewrite Hf by done. rewrite elem_of_app. split.
    + intros [Hb|Hb]; [|by apply Hkeep in Hb as (? & ? & ? & _)]. case_decide as HT; [|by apply elem_of_nil in Hb]. subst T'. by apply Hnew.
    + intros ([[-> Hb]|[(_ & ? & _)|[Hb _]]]%cut_new & Hba & Hl); [rewrite decide_True by done; by left|done|right; by apply Hin].
Qed.

Lemma carve_inv S : class_ok a st -> 40 <= S < 2 ^ 64 - 4096 -> S mod 8 = 0 -> GetPoolIndexFromSize S = i ->
  pool_inv (Some a) (<[a := (T, S)]> live) ar' st'.
Proof.
  intros Hca HS HS8 HSi. pose proof Hinv as [H1 [H2 H2'] H3 H4 H5 H6 H7 H8].
  pose proof Hcut as (_ & Hpg & Htl & Hls & Hh & Hfr & Hhd).
  destruct (cut_in a i cut_a) as (Hi & _ & _). constructor; try rewrite Hpg.
  - done.
  - by rewrite Hls.
  - intros q A. rewrite lookup_insert_Some. intros [[<- <-]|[_ Hq]]; [done|by apply H3].
  - intros q q' A B. rewrite !lookup_insert_Some. intros [[<- <-]|[Hqp Hq]] [[<- <-]|[Hqp' Hq']] Hne; [done|..].
    + by apply Hap.
    + destruct (Hap _ _ Hq ltac:(done)); cbn; lia.
    + by apply (H4 q q').
  - intros b T' S'. rewrite lookup_insert_Some. intros [[<- [= <- <-]]|[Hba Hb]].
    + unfold live_ok, class_ok in *. rewrite cut_header.
      * split_and!; try done; try lia. left. rewrite HSi. split; [lia|]. exists p, bs. rewrite lookup_insert_eq. split; [done|apply cut_a].
      * destruct cut_tiles as (_ & _ & Hn). rewrite fmap_app in Hn. apply NoDup_app in Hn as (_ & Hn & _).
        intros Hb'. apply (Hn a Hb'). cbn. by apply elem_of_cons; left.
    + pose proof (cut_live _ _ _ Hb) as Hnb. destruct (H5 b T' S' Hb) as (? & ? & Hc & Hor). unfold live_ok, class_ok in *.
      rewrite cut_header by done. split_and!; try done; try lia. destruct Hor as [[? Hor]|[? Hor]]; [left|right]; (split; [done|]).
      * by eapply cut_old.
      * rewrite lookup_insert_ne; [done|]. intros <-. destruct Hold as [[? _]|(? & ? & ? & _)]; congruence.
  - intros b T' S'. rewrite lookup_insert_Some. intros [[<- _]|[Hba Hb]] Hbusy; [done|].
    specialize (H6 b T' S' Hb Hbusy). unfold head_of in *. rewrite Htl, cut_header; [done|by eapply cut_live].
  - intros T' HT'. destruct (cut_free T' HT') as [Hnd Hin]. split; [done|]. intros b k. rewrite Hin, lookup_insert_None.
    split; intros (? & ? & ?); split_and!; done || congruence.
  - intros T' b k Hb. rewrite lookup_insert_None. intros [Hl Hba].
    destruct (cut_new _ _ _ Hb) as [[-> Hbk]|[(_ & ? & _)|[Hbk _]]]; [|congruence|].
    + destruct (Hfr _ _ Hbk) as (h & Hh' & ? & ?). unfold free_head, header_at. by rewrite Hh'.
    + specialize (H8 _ _ _ Hbk Hl). unfold free_head in *. rewrite cut_header; [done|]. by eapply cut_old.
Qed.
End cutting.

Lemma pool_inv_busy live ar st a : pool_inv None live ar st -> pool_inv (Some a) live ar st.
Proof. intros [H1 H2 H3 H4 H5 H6 H7 H8]. constructor; try done. intros b T S Hb _. by apply H6. Qed.

(** Pages taken from the page allocator are apart from those the pool has. *)
Lemma taken_inv busy live ar st T n r A p' : pool_inv busy live ar st -> taken T n r A (pages st) p' -> 0 < n ->
  pool_inv busy live ar (set_pages p' st) /\
  forall q B, ar !! q = Some B -> r + n * 4096 <= q \/ q + arena_bytes B <= r.
Proof.
  intros [H1 H2 H3 H4 H5 H6 H7 H8] (Hok & Hq & [Hset _] & Hc & _ & _ & _ & Hk & _) Hn.
  assert (forall q B, ar !! q = Some B -> q <= q + arena_bytes B - 1 /\ arena_type B <> EfiConventionalMemory) as Hpos.
  { intros q B Hb. destruct (H3 q B Hb) as ((_ & _ & ? & _) & _ & _ & _ & _ & HB). destruct B; cbn in *; lia. }
  split.
  - constructor; try done. intros q B Hb. destruct (H3 q B Hb) as (? & ? & ? & ? & (attr & Ho & ?) & ?). destruct (Hpos q B Hb).
    split_and!; try done. exists attr. split; [by apply Hk|done].
  - intros q B Hb. destruct (H3 q B Hb) as (_ & _ & _ & _ & (attr & Ho & _) & _). destruct (Hpos q B Hb).
    destruct (one_entry_apart (pages st) q (q + arena_bytes B - 1) (arena_type B, attr) r (r + n * 4096 - 1) A) as [?|?];
      try done; try apply H1; lia.
Qed.

(** A block of whole pages. *)
Lemma large_inv live ar st T n r S : pool_inv None live ar st ->
  arena_ok (gMemoryMap (pages st)) r (Large T n) -> (forall q B, ar !! q = Some B -> r + n * 4096 <= q \/ q + arena_bytes B <= r) ->
  40 <= S < 2 ^ 64 - 4096 -> S mod 8 = 0 -> 7 <= GetPoolIndexFromSize S -> n = block_pages S 4096 ->
  live !! r = None /\ pool_inv (Some r) (<[r := (T, S)]> live) (<[r := Large T n]> ar) st.
Proof.
  intros Hinv Hok Hap HS HS8 HSi Hn. pose proof Hinv as [H1 H2 H3 H4 H5 H6 H7 H8].
  pose proof Hok as (_ & _ & Hr0 & Hrm & _ & Hn0).
  assert (forall b T' S', live !! b = Some (T', S') -> b <> r) as Hnb.
  { intros b T' S' (q & B & Hq & _ & ? & ? & ? & _)%(live_range Hinv) ->. specialize (Hap q B Hq). lia. }
  assert (ar !! r = None) as Hrn.
  { destruct (ar !! r) as [B|] eqn:E; [|done]. exfalso. pose proof (Hap r B E). destruct (H3 r B E) as (_ & _ & _ & _ & _ & HB).
    destruct B; cbn in *; lia. }
  split; [destruct (live !! r) as [[T' S']|] eqn:E; [by destruct (Hnb _ _ _ E)|done]|].
  assert (forall T' b k, block_in (<[r := Large T n]> ar) T' b k <-> block_in ar T' b k) as Hbl.
  { intros T' b k. split; intros (q & bs & Hq & Hb); exists q, bs; (split; [|done]).
    - by apply lookup_insert_Some in Hq as [[_ ?]|[_ ?]].
    - rewrite lookup_insert_ne; [done|congruence]. }
  assert (forall T' b k, block_in ar T' b k -> r <> b) as Hbr.
  { intros T' b k (q & bs & Hq & _ & _ & _ & _ & Hk & ? & ? & _)%(block_range Hinv) ->. specialize (Hap _ _ Hq). cbn in Hap.
    pose proof (class_size_pos k ltac:(lia)). lia. }
  constructor; try done.
  - intros q B. rewrite lookup_insert_Some. intros [[<- <-]|[_ Hq]]; [done|by apply H3].
  - intros q q' A B. rewrite !lookup_insert_Some. intros [[<- <-]|[Hqp Hq]] [[<- <-]|[Hqp' Hq']] Hne; [done|..].
    + by apply Hap.
    + cbn. destruct (Hap _ _ Hq); lia.
    + by apply (H4 q q').
  - intros b T' S'. rewrite lookup_insert_Some. intros [[<- [= <- <-]]|[Hba Hb]].
    + split_and!; try done; try lia; [by left|]. right. by rewrite lookup_insert_eq, Hn.
    + destruct (H5 b T' S' Hb) as (? & ? & ? & Hor). split_and!; try done; try lia. rewrite Hbl, lookup_insert_ne by done. done.
  - intros b T' S'. rewrite lookup_insert_Some. intros [[<- _]|[Hba Hb]] Hbusy; [done|by apply H6].
  - intros T' HT'. destruct (H7 T' HT') as [Hnd Hin]. split; [done|]. intros b k. rewrite Hin, Hbl, lookup_insert_None.
    split; [intros [Hb ?]; split_and!; [done..|by eapply Hbr]|by intros (? & ? & _)].
  - intros T' b k Hb. rewrite lookup_insert_None. intros [Hl _]. eapply H8; [|done]. by apply Hbl.
Qed.

(** Taken pages are ordinary memory, which a descriptor page may use. *)
Lemma taken_attr T n r A st p' : free_at (gMemoryMap st) MAX_ALLOC_ADDRESS 0 n r -> taken T n r A st p' -> 0 < n ->
  pages_ok st -> Z.land A EFI_MEMORY_SP = 0.
Proof.
  intros (E & HE & HT & HA & Hs & He & _) (_ & _ & _ & Hc & _) Hn Hok.
  specialize (Hc r ltac:(unfold within; lia)). rewrite (cover_elem st E r Hok HE) in Hc by (unfold holds; lia).
  unfold kind in Hc. by injection Hc as _ <-.
Qed.

Lemma larger_free_spec i top p j a : larger_free i top p = Some (j, a) ->
  i < j < top /\ exists l, FreeList p !! Z.to_nat j = Some (a :: l).
Proof.
  unfold larger_free. intros H. assert ((j, a) ∈ omap (fun j => match FreeList p !! Z.to_nat j with Some (a :: _) => Some (j, a) | _ => None end)
    (seqZ (i + 1) (top - (i + 1)))) as (k & Hk & He)%list_elem_of_omap.
  { destruct (omap _ _); [done|]. injection H as ->. by apply elem_of_cons; left. }
  apply elem_of_seqZ in Hk. destruct (FreeList p !! Z.to_nat k) as [[|b l]|] eqn:E; try done. injection He as -> ->.
  split; [lia|by exists l].
Qed.

Lemma class_of_class j : 0 <= j < 12 -> GetPoolIndexFromSize (class_size j) = j.
Proof. intros H. classes j; done. Qed.

Lemma occupied_insert live ar a x p A B : occupied live ar -> ar !! p = Some A \/ p <= a < p + arena_bytes B ->
  (ar !! p = Some A -> arena_bytes A = arena_bytes B) -> occupied (<[a := x]> live) (<[p := B]> ar).
Proof.
  intros Ho Hp HAB q C. rewrite lookup_insert_Some. intros [[<- <-]|[_ Hq]].
  - destruct (decide (p <= a < p + arena_bytes B)) as [|Hn]; [exists a; rewrite lookup_insert_eq; split; [by eexists|done]|].
    destruct Hp as [Hp|?]; [|done]. destruct (Ho p A Hp) as (b & Hb & ?). exists b. rewrite HAB in * by done. split; [|done].
    apply lookup_insert_is_Some. destruct (decide (a = b)); [by left|by right].
  - destruct (Ho q C Hq) as (b & Hb & ?). exists b. split; [|done]. apply lookup_insert_is_Some. destruct (decide (a = b)); [by left|by right].
Qed.

(** *** Allocation *)

Lemma update_pool_pages T f st : pages (update_pool T f st) = pages st.
Proof. unfold update_pool. by case_decide. Qed.

Lemma kept_update T f st k p : kept k p (pages st) -> kept k p (pages (update_pool T f st)).
Proof. by rewrite update_pool_pages. Qed.

Definition served (live : gmap Z (Z * Z)) (T S a : Z) (st st' : POOLS) : Prop :=
  kept 4 (pages st) (pages st') /\ exists ar', 0 < a /\ live !! a = None /\ pool_inv (Some a) (<[a := (T, S)]> live) ar' st' /\
    occupied (<[a := (T, S)]> live) ar'.

(** Part of a larger free block is taken, the rest cut up. *)
Lemma AllocatePool_larger live ar st T i j a l S : pool_wf live ar st -> 0 <= T < 16 ->
  40 <= S < 2 ^ 64 - 4096 -> S mod 8 = 0 -> GetPoolIndexFromSize S = i -> 0 <= i < j -> j < 7 ->
  FreeList (pool_of T st) !! Z.to_nat j = Some (a :: l) ->
  exists st', Carve (Z.to_nat (j - 1)) T a (class_size i) (class_size j) (update_pool T (pop_free j) st) = Done st' /\
    served live T S a st st'.
Proof.
  intros [Hinv Hocc] HT HS HS8 HSi Hij Hj Hl. pose proof (class_size_pos j ltac:(lia)) as Hcj. pose proof (class_size_128 j ltac:(lia)) as Hmj.
  pose proof (class_size_pos i ltac:(lia)) as Hci. pose proof (class_size_128 i ltac:(lia)) as Hmi.
  pose proof (class_size_small j ltac:(lia)) as Hs. pose proof (class_size_lt i j ltac:(lia) ltac:(lia)) as Hlt.
  destruct (pop_inv live ar st T a j l (class_size j) Hinv HT ltac:(lia) Hl) as (Hb & Hla & Hinv1);
    [lia|dlia|apply class_of_class; lia|]. set (st1 := update_pool _ _ st) in *.
  destruct (Carve_spec (Z.to_nat (j - 1)) T a (class_size i) (class_size j) st1) as (st' & bs' & -> & Hc & Ht);
    [done|lia|apply (wf_heads _ _ _ _ Hinv1)|lia|lia|dlia|].
  exists st'. split; [done|].
  destruct (block_range Hinv T a j Hb) as (p & bs & Hp & Hab & Htp & Hp0 & Hpm & _ & Ha1 & Ha2 & Ham).
  pose proof Hab as [R HR]%elem_of_Permutation.
  destruct (wf_arenas _ _ _ _ Hinv p _ Hp) as (HTa & HTl & _ & _ & Ho & _).
  assert (tiles (bs' ++ (a, i) :: R) 6 p (p + 4096)) as Ht'.
  { eapply tiles_split; [done|done|lia|lia|done|]. eapply tiles_weaken; [done|lia]. }
  assert (arena_ok (gMemoryMap (pages st1)) p (Small T (bs' ++ (a, i) :: R))) as Hok.
  { pose proof (wf_arenas _ _ _ _ Hinv1 p _ Hp) as (? & ? & ? & ? & ? & _). split_and!; done. }
  split. { destruct Hc as (_ & -> & _). apply kept_update, kept_refl. }
  exists (<[p := Small T (bs' ++ (a, i) :: R)]> ar). split; [lia|]. split; [done|].
  assert (class_ok a st1) as Hca by (apply (wf_live _ _ _ _ Hinv1 a T (class_size j)); apply lookup_insert_eq).
  replace (<[a := (T, S)]> live) with (<[a := (T, S)]> (<[a := (T, class_size j)]> live)) by apply insert_insert_eq.
  split.
  - eapply carve_inv; try done.
    + intros q B Hq Hqp. pose proof (wf_apart _ _ _ _ Hinv p q _ _ Hp Hq ltac:(done)) as Hd. cbn in Hd. lia.
    + right. exists bs, j. split_and!; try done. rewrite lookup_insert_eq. by eexists.
  - rewrite insert_insert_eq. eapply occupied_insert; [done|by left|]. intros _. done.
Qed.

(** A new page is taken and cut up. *)
Lemma AllocatePool_page live ar st T i r A p' S : pool_wf live ar st -> allocatable T -> T < 16 ->
  40 <= S < 2 ^ 64 - 4096 -> S mod 8 = 0 -> GetPoolIndexFromSize S = i -> 0 <= i < 7 ->
  taken T 1 r A (pages st) p' -> free_at (gMemoryMap (pages st)) MAX_ALLOC_ADDRESS 0 1 r -> 0 < r ->
  exists st', Carve 6 T r (class_size i) 4096 (set_pages p' st) = Done st' /\ served live T S r st st'.
Proof.
  intros [Hinv Hocc] HTa HT HS HS8 HSi Hi Htk Hfr Hr. pose proof (free_at_elem _ _ _ _ _ Hfr) as (_ & _ & _ & _ & _ & _ & _ & Hrm). assert (0 <= T) as HT0 by apply HTa.
  pose proof (class_size_pos i ltac:(lia)) as Hci. pose proof (class_size_128 i ltac:(lia)) as Hmi.
  pose proof (class_size_small i ltac:(lia)) as Hs.
  destruct (taken_inv _ _ _ _ _ _ _ _ _ Hinv Htk ltac:(lia)) as [Hinv1 Hap]. set (st1 := set_pages p' st) in *.
  destruct (Carve_spec 6 T r (class_size i) 4096 st1) as (st' & bs' & -> & Hc & Ht);
    [lia|lia|apply (wf_heads _ _ _ _ Hinv1)|lia|lia|dlia|].
  exists st'. split; [done|].
  assert (ar !! r = None) as Hrn.
  { destruct (ar !! r) as [B|] eqn:E; [|done]. exfalso. pose proof (Hap r B E).
    destruct (wf_arenas _ _ _ _ Hinv r B E) as (_ & _ & _ & _ & _ & HB). destruct B; cbn in *; lia. }
  assert (tiles (bs' ++ [(r, i)]) 6 r (r + 4096)) as Ht'.
  { eapply (tiles_app _ _ _ _ (r + class_size i)); [|exact Ht|lia|dlia|lia]. apply tiles_cons; [lia|lia|apply tiles_nil|lia]. }
  assert (live !! r = None) as Hlr.
  { destruct (live !! r) as [[T' S']|] eqn:E; [|done]. apply (live_range Hinv) in E as (q & B & Hq & _ & ? & ? & ? & _).
    specialize (Hap q B Hq). lia. }
  split. { destruct Hc as (_ & -> & _). apply Htk. }
  exists (<[r := Small T (bs' ++ [(r, i)])]> ar). split; [done|]. split; [done|]. split.
  - apply pool_inv_busy with (a := r) in Hinv1. eapply carve_inv; try done.
    + pose proof (taken_attr _ _ _ _ _ _ Hfr Htk ltac:(lia) (proj1 (wf_pages _ _ _ _ Hinv))).
      destruct Htk as (_ & _ & _ & _ & _ & _ & Ho & _). split_and!; try done. exists A. cbn [arena_bytes arena_type].
      by replace (r + 4096 - 1) with (r + 1 * 4096 - 1) by lia.
    + intros q B Hq _. specialize (Hap q B Hq). lia.
    + by left.
    + by left.
  - eapply (occupied_insert _ _ _ _ _ (Small T [])); [done|right; cbn; lia|done].
Qed.

Lemma AllocatePool_block_spec fuel live ar st T i S : (5 <= fuel)%nat -> pool_wf live ar st -> allocatable T -> T < 16 ->
  40 <= S < 2 ^ 64 - 4096 -> S mod 8 = 0 -> GetPoolIndexFromSize S = i -> 0 <= i < 7 ->
  ample MAX_ALLOC_ADDRESS T 1 (pages st) ->
  (exists a st', AllocatePool_block fuel T i 4096 (pool_of T st) st = Done (a, st') /\ served live T S a st st') \/
  (AllocatePool_block fuel T i 4096 (pool_of T st) st = Done (0, st) /\
     forall b, 0 < b -> ~ free_at (gMemoryMap (pages st)) MAX_ALLOC_ADDRESS 0 1 b).
Proof.
  intros Hfuel Hwf HTa HT HS HS8 HSi Hi Hamp. pose proof Hwf as [Hinv Hocc]. assert (0 <= T < 16) as HT0 by (split; [apply HTa|done]).
  assert (FreeList (pool_of T st) !! Z.to_nat i = None \/ (exists l, FreeList (pool_of T st) !! Z.to_nat i = Some l)) as Hfl
    by (destruct (FreeList _ !! _); [right; by eexists|by left]).
  unfold AllocatePool_block. destruct (FreeList (pool_of T st) !! Z.to_nat i) as [[|a l]|] eqn:El.
  2:{ left. exists a, (update_pool T (pop_free i) st). split; [done|].
      destruct (pop_inv live ar st T a i l S Hinv HT0 ltac:(lia) El HS HS8 HSi) as (Hb & Hla & Hinv').
      destruct (block_range Hinv T a i Hb) as (p & bs & Hp & _ & _ & ? & _ & _ & ? & _).
      split; [apply kept_update, kept_refl|]. exists ar. split_and!; [lia|done|done|]. intros q B Hq. destruct (Hocc q B Hq) as (b & Hlb & ?).
      exists b. split; [|done]. apply lookup_insert_is_Some. destruct (decide (a = b)); [by left|by right]. }
  2:{ exfalso. destruct (heads_ok_of T st (proj1 (wf_heads _ _ _ _ Hinv)) HT0) as [_ Hl].
      apply lookup_ge_None in El. lia. }
  clear Hfl. rewrite rd_class by lia. mred. rewrite top_class.
  destruct (larger_free i 7 (pool_of T st)) as [[j a]|] eqn:Elf.
  - apply larger_free_spec in Elf as (Hj & l & Hl). rewrite rd_class by lia. mred. left.
    destruct (AllocatePool_larger live ar st T i j a l S Hwf HT0 HS HS8 HSi ltac:(lia) ltac:(lia) Hl) as (st' & -> & Hs).
    mred. by exists a, st'.
  - unfold CoreAllocatePoolPagesI. change (EFI_SIZE_TO_PAGES 4096) with 1.
    destruct (wf_pages _ _ _ _ Hinv) as (Hok & Hq & Hset).
    destruct (CoreAllocatePoolPages_spec fuel T 1 (pages st)) as [(r & A & p' & -> & Hr & Hfr & Htk)|[-> Hno]]; try done.
    + left. mred. rewrite decide_False by lia. change (Z.to_nat (7 - 1)) with 6%nat.
      destruct (AllocatePool_page live ar st T i r A p' S Hwf HTa HT HS HS8 HSi Hi Htk Hfr Hr) as (st' & -> & Hs).
      mred. by exists r, st'.
    + right. split; [|done]. mred. rewrite decide_True by done. by destruct st.
Qed.

Lemma AllocatePool_pages_spec fuel live ar st T S : (5 <= fuel)%nat -> pool_wf live ar st -> allocatable T -> T < 16 ->
  40 <= S < 2 ^ 64 - 4096 -> S mod 8 = 0 -> 7 <= GetPoolIndexFromSize S ->
  let n := block_pages S 4096 in ample MAX_ALLOC_ADDRESS T n (pages st) ->
  (exists a st', CoreAllocatePoolPagesI fuel T n 4096 st = Done (a, st') /\ served live T S a st st') \/
  (CoreAllocatePoolPagesI fuel T n 4096 st = Done (0, st) /\
     forall b, 0 < b -> ~ free_at (gMemoryMap (pages st)) MAX_ALLOC_ADDRESS 0 n b).
Proof.
  intros Hfuel Hwf HTa HT HS HS8 HSi n Hamp. pose proof Hwf as [Hinv Hocc].
  destruct (wf_pages _ _ _ _ Hinv) as (Hok & Hq & Hset). destruct (block_pages_spec S ltac:(lia)) as [Hn HSn]. fold n in Hn, HSn.
  assert (n mod 2 ^ 52 = n) as Hnm by (apply Z.mod_small; lia).
  unfold CoreAllocatePoolPagesI.
  destruct (CoreAllocatePoolPages_spec fuel T n (pages st)) as [(r & A & p' & -> & Hr & Hfr & Htk)|[-> Hno]];
    try done; try lia; try (by rewrite Hnm); rewrite ?Hnm in *.
  - left. mred. pose proof (taken_attr _ _ _ _ _ _ Hfr Htk ltac:(lia) Hok). apply free_at_elem in Hfr as (_ & _ & _ & _ & _ & _ & _ & Hrm).
    destruct (taken_inv _ _ _ _ _ _ _ _ _ Hinv Htk ltac:(lia)) as [Hinv1 Hap].
    destruct (large_inv live ar (set_pages p' st) T n r S Hinv1) as [Hlr Hinv2]; try done.
    { destruct Htk as (_ & _ & _ & _ & _ & _ & Ho & _). split_and!; try done; try lia. by exists A. }
    exists r, (set_pages p' st). split; [done|]. split; [apply Htk|]. exists (<[r := Large T n]> ar). split_and!; [done|done|done|].
    eapply (occupied_insert _ _ _ _ _ (Small T [])); [done|right; cbn; lia|].
    intros Hr'. pose proof (Hap r _ Hr'). cbn in *. lia.
  - right. split; [|done]. mred. by destruct st.
Qed.

Lemma served_aligned live T S a st0 st : served live T S a st0 st -> a mod 8 = 0.
Proof.
  intros (_ & ar & Ha & _ & Hinv & _). assert (<[a := (T, S)]> live !! a = Some (T, S)) as Hl by apply lookup_insert_eq.
  destruct (wf_live _ _ _ _ Hinv _ _ _ Hl) as (_ & _ & _ & [[_ Hb]|[_ Hp]]).
  - apply (block_range Hinv) in Hb as (p & bs & _ & _ & _ & _ & ? & _ & _ & _ & ?). dlia.
  - destruct (wf_arenas _ _ _ _ Hinv _ _ Hp) as (_ & _ & _ & ? & _). dlia.
Qed.

(** [AllocatePool]: a new block, of the type asked for, long enough, aligned
    to eight bytes and apart from every block in use ([live_apart]); or the
    report that there is no memory, and nothing has changed. *)
Lemma AllocatePool_spec fuel live ar st T Size b :
  let S := block_size Size in
  let n := if decide (7 <= GetPoolIndexFromSize S) then block_pages S 4096 else 1 in
  (5 <= fuel)%nat -> pool_wf live ar st -> allocatable T -> T < 16 -> 0 <= Size <= 2 ^ 64 - 8192 ->
  ample MAX_ALLOC_ADDRESS T n (pages st) ->
  (exists a ar' st', CoreInternalAllocatePool fuel junk T Size (Some b) st = Done (EFI_SUCCESS, Some (a + SIZE_OF_POOL_HEAD), st') /\
     0 < a /\ live !! a = None /\ Size + POOL_OVERHEAD <= S /\ a mod 8 = 0 /\ pool_wf (<[a := (T, S)]> live) ar' st' /\
     kept 4 (pages st) (pages st')) \/
  (CoreInternalAllocatePool fuel junk T Size (Some b) st = Done (EFI_OUT_OF_RESOURCES, Some 0, st) /\
     forall b, 0 < b -> ~ free_at (gMemoryMap (pages st)) MAX_ALLOC_ADDRESS 0 n b).
Proof.
  intros S n Hfuel Hwf HTa HT HSz Hamp. pose proof Hwf as [Hinv Hocc]. pose proof HTa as (HT0 & HT1 & HT2 & HT3 & HT4).
  destruct (block_size_spec Size ltac:(lia)) as [HS HS8]. fold S in HS, HS8. change POOL_OVERHEAD with 40 in *.
  destruct (heads_ok_of T st (proj1 (wf_heads _ _ _ _ Hinv)) ltac:(lia)) as [Hp _].
  destruct (GetPoolIndexFromSize_spec S ltac:(lia)) as (Hi & _).
  unfold CoreInternalAllocatePool. rewrite decide_False by (unfold EfiMaxMemoryType in *; lia).
  rewrite decide_False by (change MAX_POOL_SIZE with (2 ^ 64 - 41); lia).
  unfold CoreAllocatePoolI, AllocatePoolI_with. rewrite granularity_4096, top_class. fold S. cbn zeta.
  unfold LookupPoolHead. rewrite (decide_True (P := T < EfiMaxMemoryType)) by (unfold EfiMaxMemoryType; lia). mred.
  unfold get_pool. rewrite (decide_True (P := T < EfiMaxMemoryType)) by (unfold EfiMaxMemoryType; lia). rewrite Hp.
  match goal with |- context [if decide (7 <= GetPoolIndexFromSize S) then ?x else ?y] =>
    set (o := if decide (7 <= GetPoolIndexFromSize S) then x else y) end.
  assert ((exists a st', o = Done (a, st') /\ served live T S a st st') \/
    (o = Done (0, st) /\ forall b, 0 < b -> ~ free_at (gMemoryMap (pages st)) MAX_ALLOC_ADDRESS 0 n b)) as Ho.
  { unfold o, n in *. destruct (decide _) as [H7|H7].
    - apply (AllocatePool_pages_spec fuel live ar st T S Hfuel Hwf HTa HT ltac:(lia) HS8 H7 Hamp).
    - apply (AllocatePool_block_spec fuel live ar st T _ S Hfuel Hwf HTa HT ltac:(lia) HS8 eq_refl ltac:(lia) Hamp). }
  clearbody o. destruct Ho as [(a & st' & -> & Hs)|[-> Hno]]; mred.
  - left. pose proof (served_aligned _ _ _ _ _ _ Hs) as Ha8. destruct Hs as (Hkept & ar' & Ha & Hla & Hinv' & Hocc').
    rewrite decide_False by lia. mred. rewrite decide_True by (unfold SIZE_OF_POOL_HEAD; lia).
    eexists a, ar', _. split; [done|]. split_and!; [done|done|lia|done|split; [|done]|].
    2:{ cbn [pages set_header set_tail]. by apply kept_update. }
    apply head_written; [by apply used_inv; [|lia]|]. apply lookup_insert_eq.
  - right. split; [|done]. rewrite decide_True by done. mred. by rewrite decide_False by (by intros H).
Qed.

(** *** Release *)

(** From any place where a block may start, one does. *)
Lemma tiles_start bs k s e x : tiles bs k s e -> 0 <= k < 12 -> s <= x < e ->
  x = s \/ (exists a i, (a, i) ∈ bs /\ a + class_size i = x) -> exists j, (x, j) ∈ bs.
Proof.
  intros Ht Hk Hx Hor. pose proof Ht as (H1 & H2 & H3). specialize (H1 x). rewrite decide_True in H1 by done.
  unfold holding in H1. destruct (filter _ bs) as [|[c m] l] eqn:Ef; [done|].
  assert ((c, m) ∈ filter (block_holds x) bs) as [Hc Hcm]%list_elem_of_filter by (rewrite Ef; by apply elem_of_cons; left).
  unfold block_holds in Hc. cbn in Hc. destruct (H2 c m Hcm) as (Hm & Hsc & _). exists m.
  replace x with c; [done|]. destruct Hor as [->|(a & i & Ha & Hax)]; [lia|].
  destruct (H2 a i Ha) as (Hi & _). pose proof (class_size_pos i ltac:(lia)).
  destruct (tiles_apart _ _ _ _ _ _ _ _ Ht Hk Ha Hcm) as [[-> ->]|?]; lia.
Qed.

Section release.
Context {live : gmap Z (Z * Z)} {ar : gmap Z arena} {st : POOLS} {p T : Z} {bs : list (Z * Z)}.
Context (Hinv : pool_inv None live ar st) (Hp : ar !! p = Some (Small T bs)).

Lemma page_tiles : tiles bs 6 p (p + 4096) /\ p mod 4096 = 0.
Proof. destruct (wf_arenas _ _ _ _ Hinv _ _ Hp) as (_ & _ & _ & ? & _ & ?). done. Qed.

(** The first word of a block read while the page is looked through. *)
Lemma page_header Offset k : (p + Offset, k) ∈ bs -> (Offset = 0 -> live !! p = None) ->
  let h := header_at junk (p + Offset) st in
  0 <= BlockIndex h < 12 /\ (Signature h = POOL_FREE_SIGNATURE <-> live !! (p + Offset) = None) /\
  (live !! (p + Offset) = None -> BlockIndex h = k) /\ 0 <= Offset /\ 0 <= k <= 6 /\ Offset + class_size k <= 4096.
Proof.
  intros Hb Hz. destruct page_tiles as [(_ & H & _) Hpm]. destruct (H _ _ Hb) as (Hk & Ho1 & Ho2 & _). cbn zeta.
  assert (block_in ar T (p + Offset) k) as Hbl by by exists p, bs. pose proof (class_size_pos k ltac:(lia)).
  destruct (live !! (p + Offset)) as [[T' S]|] eqn:El.
  - destruct (wf_used _ _ _ _ Hinv _ _ _ El ltac:(done)) as (-> & _).
    destruct (wf_live _ _ _ _ Hinv _ _ _ El) as (_ & _ & Hc & _). split; [|split_and!; try done; lia].
    destruct Hc as [Hc|Hc]; [|done]. exfalso. assert (Offset = 0) as -> by dlia. rewrite Z.add_0_r, Hz in El by done. done.
  - destruct (wf_headers _ _ _ _ Hinv _ _ _ Hbl El) as [-> ->]. split_and!; try done; lia.
Qed.

Lemma next_block Offset k : (p + Offset, k) ∈ bs -> Offset + class_size k = 4096 \/ exists k', (p + (Offset + class_size k), k') ∈ bs.
Proof.
  intros Hb. destruct page_tiles as [Ht _]. pose proof Ht as (_ & H & _). destruct (H _ _ Hb) as (Hk & Ho1 & Ho2 & _).
  pose proof (class_size_pos k ltac:(lia)). destruct (decide (Offset + class_size k = 4096)); [by left|right].
  apply (tiles_start bs 6 p (p + 4096) (p + (Offset + class_size k)) Ht ltac:(lia) ltac:(lia)). right. exists (p + Offset), k. split; [done|lia].
Qed.

(** The walk over a page finds whether any block of it is in use. *)
Lemma AllFree_walk_spec n Offset : (Offset = 0 -> live !! p = None) ->
  Offset = 4096 \/ (exists k, (p + Offset, k) ∈ bs) -> 4096 - Offset < 128 * Z.of_nat n -> (0 < n)%nat ->
  exists r, AllFree_walk junk n p Offset 4096 st = Done r /\
    (r = true <-> forall b k, (b, k) ∈ bs -> p + Offset <= b -> live !! b = None).
Proof.
  revert Offset. induction n as [|n IH]; intros Offset Hz Ho Hn Hn0; [lia|]. cbn [AllFree_walk].
  destruct Ho as [->|[k Hk]].
  { rewrite decide_False by lia. exists true. split; [done|]. split; [|done]. intros _ b k Hb Hle.
    destruct page_tiles as [(_ & H & _) _]. destruct (H _ _ Hb) as (? & ? & ? & _). pose proof (class_size_pos k ltac:(lia)). lia. }
  destruct (page_header Offset k Hk Hz) as (Hi & Hsig & Hidx & H0 & Hk6 & Hle). pose proof (class_size_pos k ltac:(lia)).
  rewrite decide_True by lia. cbn zeta. rewrite rd_class by done. mred. case_decide as Hs.
  - apply Hsig in Hs. rewrite Hidx by done.
    destruct (IH (Offset + class_size k)) as (r & -> & Hr); [lia|by apply next_block|lia|lia|].
    exists r. split; [done|]. rewrite Hr. split; [|intros Hall b j Hb Hle'; apply (Hall b j Hb); lia].
    intros Hall b j Hb Hle'. destruct page_tiles as [Ht _].
    destruct (tiles_apart _ _ _ _ _ _ _ _ Ht ltac:(lia) Hk Hb) as [[<- _]|[?|?]]; [done|apply (Hall b j Hb); lia|].
    destruct Ht as (_ & Hin & _). destruct (Hin _ _ Hb) as (? & ? & ? & _). pose proof (class_size_pos j ltac:(lia)). lia.
  - exists false. split; [done|]. split; [done|]. intros Hall. destruct Hs. apply Hsig. apply (Hall _ k Hk). lia.
Qed.
End release.

Lemma filter_concat {A} (P : A -> Prop) `{!forall x, Decision (P x)} (l : list (list A)) :
  filter P (concat l) = concat (filter P <$> l).
Proof. induction l as [|x l IH]; [done|]. cbn. by rewrite filter_app, IH. Qed.

Lemma imap_fmap_list {A B C} (f : nat -> B -> C) (g : A -> B) (l : list A) : imap f (g <$> l) = imap (fun i x => f i (g x)) l.
Proof. revert f. induction l as [|x l IH]; intros f; [done|]. cbn. by rewrite IH. Qed.

(** Unlinking a block takes it off every free list. *)
Lemma pool_blocks_unlink a p :
  pool_blocks (set_lists (filter (fun b => b <> a) <$> FreeList p) p) = filter (fun b => b.1 <> a) (pool_blocks p).
Proof.
  unfold pool_blocks. cbn [FreeList set_lists]. rewrite imap_fmap_list, filter_concat, fmap_imap. f_equal. apply imap_ext.
  intros i l _. cbn. induction l as [|b l IH]; [done|]. rewrite filter_cons. cbn [fmap list_fmap]. rewrite (filter_cons _ (b, Z.of_nat i)).
  cbn [fst]. destruct (decide (b <> a)); cbn; by rewrite IH.
Qed.

(** What unlinking the blocks [X] leaves. *)
Definition unlinked (X : list Z) (st st' : POOLS) : Prop :=
  (forall T, 0 <= T < 16 -> frees T st' = filter (fun b => b.1 ∉ X) (frees T st)) /\
  pages st' = pages st /\ headers st' = headers st /\ tails st' = tails st /\ heads_ok st' /\
  (mPoolHeadList st = [] -> mPoolHeadList st' = []).

Lemma unlink_spec a st : heads_ok st -> unlinked [a] st (unlink a st).
Proof.
  intros Hh. split_and!; try done.
  - intros T HT. destruct (heads_ok_of T st Hh HT) as [Hp _]. unfold frees, pool_of at 1, unlink. cbn [mPoolHead].
    rewrite list_lookup_fmap, Hp. cbn [fmap option_fmap option_map default id]. rewrite pool_blocks_unlink.
    apply list_filter_iff. intros [b i]. cbn. by rewrite list_elem_of_singleton.
  - destruct Hh as [Hl Hf]. split; cbn [unlink mPoolHead]; [by rewrite length_fmap|]. apply Forall_fmap.
    eapply Forall_impl; [done|]. intros q Hq. cbn. by rewrite length_fmap.
  - intros E. unfold unlink. cbn. by rewrite E.
Qed.

Lemma unlinked_trans X Y st1 st2 st3 : unlinked X st1 st2 -> unlinked Y st2 st3 -> unlinked (X ++ Y) st1 st3.
Proof.
  intros (H1 & H2 & H3 & H4 & H5 & H6) (H1' & H2' & H3' & H4' & H5' & H6'). split_and!; try congruence; try done; [|by auto].
  intros T HT. rewrite H1', H1 by done. rewrite list_filter_filter. apply list_filter_iff. intros [b i]. cbn. rewrite elem_of_app. tauto.
Qed.

Lemma unlinked_nil st : heads_ok st -> unlinked [] st st.
Proof.
  intros H. split_and!; try done. intros T _.
  induction (frees T st) as [|b l IH]; [done|]. rewrite filter_cons_True by apply not_elem_of_nil. by rewrite <-IH.
Qed.

(** The walk that takes every block of a page off its list. *)
Lemma Unlink_walk_spec live ar st0 p T bs : pool_inv None live ar st0 -> ar !! p = Some (Small T bs) ->
  (forall b k, (b, k) ∈ bs -> live !! b = None) ->
  forall n Offset st, heads_ok st -> headers st = headers st0 ->
  Offset = 4096 \/ (exists k, (p + Offset, k) ∈ bs) -> 4096 - Offset < 128 * Z.of_nat n -> (0 < n)%nat ->
  exists X st', Unlink_walk junk n p Offset 4096 st = Done st' /\ unlinked X st st' /\
    forall b, b ∈ X <-> exists k, (b, k) ∈ bs /\ p + Offset <= b.
Proof.
  intros Hinv Hp Hall. destruct (page_tiles Hinv Hp) as [Ht _]. pose proof Ht as (_ & Hin & _).
  induction n as [|n IH]; intros Offset st Hh Hhd Ho Hn Hn0; [lia|]. cbn [Unlink_walk].
  destruct Ho as [->|[k Hk]].
  { rewrite decide_False by lia. exists [], st. split; [done|]. split; [by apply unlinked_nil|]. intros b. split; [by intros ?%elem_of_nil|].
    intros (k & Hb & Hle). destruct (Hin _ _ Hb) as (? & ? & ? & _). pose proof (class_size_pos k ltac:(lia)). lia. }
  assert (Offset = 0 -> live !! p = None) as Hz by (intros ->; rewrite Z.add_0_r in Hk; by eapply Hall).
  destruct (page_header Hinv Hp Offset k Hk Hz) as (Hi & _ & Hidx & H0 & Hk6 & Hle). pose proof (class_size_pos k ltac:(lia)).
  rewrite decide_True by lia. cbn zeta. unfold header_at in *. rewrite Hhd, Hidx by (by eapply Hall). rewrite rd_class by lia. mred.
  pose proof (unlink_spec (p + Offset) st Hh) as Hu. pose proof Hu as (_ & _ & Hhd1 & _ & Hh1 & _).
  destruct (IH (Offset + class_size k) (unlink (p + Offset) st)) as (X & st' & -> & Hu' & HX);
    [done|congruence|by apply (next_block Hinv Hp)|lia|lia|].
  exists ([p + Offset] ++ X), st'. split; [done|]. split; [by eapply unlinked_trans|]. intros b.
  rewrite elem_of_app, list_elem_of_singleton, HX. split.
  - intros [->|(j & Hj & ?)]; [exists k; split; [done|lia]|exists j; split; [done|lia]].
  - intros (j & Hj & Hle'). destruct (tiles_apart _ _ _ _ _ _ _ _ Ht ltac:(lia) Hk Hj) as [[<- _]|[?|?]]; [by left|right|].
    + exists j. split; [done|lia].
    + destruct (Hin _ _ Hj) as (? & ? & ? & _). pose proof (class_size_pos j ltac:(lia)). lia.
Qed.

(** A block of a page is free again. *)
Lemma free_block_inv live ar st a T S : pool_inv None live ar st -> live !! a = Some (T, S) -> 0 <= T < 16 ->
  let i := GetPoolIndexFromSize S in i < 7 ->
  pool_inv None (delete a live) ar (update_pool T (push_free i a) (set_header a (mkHeader POOL_FREE_SIGNATURE i 0 0) st)).
Proof.
  intros Hinv Ha HT i Hi. pose proof Hinv as [H1 [H2 H2'] H3 H4 H5 H6 H7 H8].
  destruct (H5 a T S Ha) as (HS & HS8 & Hca & Hor). fold i in Hor.
  assert (block_in ar T a i) as Hb by (destruct Hor as [[_ ?]|[? _]]; [done|lia]).
  assert (0 <= i) as Hi0 by (destruct (GetPoolIndexFromSize_spec S ltac:(lia)) as ((? & _) & _); done).
  pose proof (class_size_pos i ltac:(lia)) as Hci.
  destruct (carved_push T i a st HT ltac:(lia) H2) as (Hf & Hpg & Htl & Hls & Hh & Hfr & Hhd). set (st' := update_pool _ _ _) in *.
  assert (forall b, b <> a -> header_at junk b st' = header_at junk b st) as Hhb.
  { intros b Hba. unfold header_at. rewrite Hhd; [done|]. cbn. by rewrite list_elem_of_singleton. }
  assert (forall T' b k, block_in ar T' b k -> b = a -> T' = T /\ k = i) as Hbu.
  { intros T' b k Hbk ->. pose proof (block_range Hinv _ _ _ Hbk) as (? & ? & _ & _ & _ & _ & _ & ? & _).
    pose proof (class_size_pos k ltac:(lia)). destruct (block_apart Hinv _ _ _ _ _ _ Hb Hbk) as [(? & _ & ?)|?]; [done|lia]. }
  constructor; try rewrite Hpg; try done.
  - by rewrite Hls.
  - intros b T' S'. rewrite lookup_delete_Some. intros [Hba Hl]. specialize (H5 b T' S' Hl). unfold live_ok, class_ok in *. by rewrite Hhb.
  - intros b T' S'. rewrite lookup_delete_Some. intros [Hba Hl] _. specialize (H6 b T' S' Hl ltac:(done)). unfold head_of in *. by rewrite Hhb, Htl.
  - intros T' HT'. destruct (H7 T' HT') as [Hnd Hin]. split.
    + rewrite Hf by done. case_decide; [|done]. cbn. apply NoDup_cons. split; [|done].
      intros ([b k] & Hba & Hbk)%list_elem_of_fmap. cbn in Hba. subst b. apply Hin in Hbk as [_ Hl]. congruence.
    + intros b k. rewrite Hf by done. rewrite elem_of_app, Hin, lookup_delete_None. split.
      * intros [Hbk|[? ?]]; [|by auto]. case_decide; [subst T'|by apply elem_of_nil in Hbk].
        apply list_elem_of_singleton in Hbk as [= -> ->]. split; [done|by left].
      * intros [Hbk [Hab|?]]; [|by right]. subst b. destruct (Hbu _ _ _ Hbk eq_refl) as [-> ->]. left. rewrite decide_True by done.
        by apply list_elem_of_singleton.
  - intros T' b k Hbk. rewrite lookup_delete_None. intros [Hab|Hl].
    + subst b. destruct (Hbu _ _ _ Hbk eq_refl) as [-> ->]. destruct (Hfr a i) as (h & Hh' & ? & ?); [by apply list_elem_of_singleton|].
      unfold free_head, header_at. by rewrite Hh'.
    + assert (b <> a) as Hba. { intros ->. congruence. }
      specialize (H8 _ _ _ Hbk Hl). unfold free_head in *. by rewrite Hhb.
Qed.

(** An arena leaves the pool: a block of whole pages ... *)
Lemma large_gone live ar st a T S n : pool_inv None live ar st -> live !! a = Some (T, S) -> ar !! a = Some (Large T n) ->
  pool_inv None (delete a live) (delete a ar) st.
Proof.
  intros Hinv Ha Hp. pose proof Hinv as [H1 H2 H3 H4 H5 H6 H7 H8].
  assert (forall T' b k, block_in (delete a ar) T' b k <-> block_in ar T' b k) as Hbl.
  { intros T' b k. split; intros (q & bs & Hq & Hb); exists q, bs; (split; [|done]).
    - by apply lookup_delete_Some in Hq as [_ ?].
    - apply lookup_delete_Some. split; [|done]. intros ->. congruence. }
  assert (forall T' b k, block_in ar T' b k -> a <> b) as Hne.
  { intros T' b k Hb ->. apply (block_range Hinv) in Hb as (q & bs & Hq & _ & _ & _ & _ & ? & ? & ? & _).
    pose proof (class_size_pos k ltac:(lia)). destruct (H3 _ _ Hp) as (_ & _ & _ & _ & _ & Hn).
    destruct (H4 q b _ _ Hq Hp ltac:(congruence)); cbn in *; lia. }
  constructor; try done.
  - intros q B. rewrite lookup_delete_Some. intros [_ Hq]. by apply H3.
  - intros q q' A B. rewrite !lookup_delete_Some. intros [_ Hq] [_ Hq']. by apply H4.
  - intros b T' S'. rewrite lookup_delete_Some. intros [Hba Hb]. destruct (H5 b T' S' Hb) as (? & ? & ? & Hor).
    split_and!; try done; try lia. rewrite Hbl, lookup_delete_ne by done. done.
  - intros b T' S'. rewrite lookup_delete_Some. intros [_ Hb]. by apply H6.
  - intros T' HT'. destruct (H7 T' HT') as [Hnd Hin]. split; [done|]. intros b k. rewrite Hin, Hbl, lookup_delete_None.
    split; [intros [? ?]; split; [done|by right]|]. intros [Hb [<-|?]]; [by destruct (Hne _ _ _ Hb)|done].
  - intros T' b k Hb%Hbl. rewrite lookup_delete_None. intros [<-|Hl]; [by destruct (Hne _ _ _ Hb)|by eapply H8].
Qed.

(** ... or a page all of whose blocks are free, once they are unlinked. *)
Lemma small_gone live ar st st' p T bs X : pool_inv None live ar st -> ar !! p = Some (Small T bs) ->
  (forall b k, (b, k) ∈ bs -> live !! b = None) -> unlinked X st st' -> (forall b, b ∈ X <-> exists k, (b, k) ∈ bs) ->
  pool_inv None live (delete p ar) st'.
Proof.
  intros Hinv Hp Hall (Hf & Hpg & Hhd & Htl & Hh & Hls) HX. pose proof Hinv as [H1 [H2 H2'] H3 H4 H5 H6 H7 H8].
  assert (forall T' b k, block_in (delete p ar) T' b k <-> block_in ar T' b k /\ b ∉ X) as Hbl.
  { intros T' b k. split.
    - intros (q & bs' & [Hqp Hq]%lookup_delete_Some & Hb). assert (block_in ar T' b k) as Hbk by by exists q, bs'. split; [done|].
      intros [m Hm]%HX. destruct (wf_arenas _ _ _ _ Hinv _ _ Hq) as (_ & _ & _ & _ & _ & (_ & Hin & _)).
      destruct (page_tiles Hinv Hp) as [(_ & Hin' & _) _]. destruct (Hin _ _ Hb) as (? & ? & ? & _), (Hin' _ _ Hm) as (? & ? & ? & _).
      pose proof (class_size_pos k ltac:(lia)). pose proof (class_size_pos m ltac:(lia)). destruct (H4 q p _ _ Hq Hp ltac:(done)); cbn in *; lia.
    - intros [(q & bs' & Hq & Hb) Hn]. exists q, bs'. split; [|done]. apply lookup_delete_Some. split; [|done].
      intros ->. rewrite Hp in Hq. injection Hq as <- <-. apply Hn, HX. by exists k. }
  assert (forall b, header_at junk b st' = header_at junk b st) as Hhb by (intros b; unfold header_at; by rewrite Hhd).
  constructor; try rewrite Hpg; try done.
  - split; [done|by apply Hls].
  - intros q B. rewrite lookup_delete_Some. intros [_ Hq]. by apply H3.
  - intros q q' A B. rewrite !lookup_delete_Some. intros [_ Hq] [_ Hq']. by apply H4.
  - intros b T' S' Hb. destruct (H5 b T' S' Hb) as (? & ? & ? & Hor). unfold live_ok, class_ok in *. rewrite Hhb.
    split_and!; try done; try lia. destruct Hor as [[? Hor]|[? Hor]]; [left|right]; (split; [done|]).
    + apply Hbl. split; [done|]. intros [m Hm]%HX. rewrite (Hall _ _ Hm) in Hb. done.
    + apply lookup_delete_Some. split; [|done]. intros ->. congruence.
  - intros b T' S' Hb Hn. specialize (H6 b T' S' Hb Hn). unfold head_of in *. by rewrite Hhb, Htl.
  - intros T' HT'. destruct (H7 T' HT') as [Hnd Hin]. rewrite Hf by done. split.
    + rewrite <-(filter_app_complement (fun b => b.1 ∉ X) (frees T' st)), fmap_app in Hnd. by apply NoDup_app in Hnd as [? _].
    + intros b k. rewrite list_elem_of_filter, Hin, Hbl. cbn. tauto.
  - intros T' b k [Hb _]%Hbl Hl. specialize (H8 _ _ _ Hb Hl). unfold free_head in *. by rewrite Hhb.
Qed.

Lemma forget_lookup {A} s e (m : gmap Z A) a : ~ (s <= a <= e) -> forget s e m !! a = m !! a.
Proof.
  intros Ha. unfold forget. destruct (m !! a) as [x|] eqn:E.
  - by apply map_lookup_filter_Some.
  - apply map_lookup_filter_None. by left.
Qed.

(** The pages of an arena the pool no longer uses go back. *)
Lemma CoreFreePoolPagesI_spec fuel live ar st p B n : (5 <= fuel)%nat -> pool_inv None live ar st ->
  arena_ok (gMemoryMap (pages st)) p B -> (forall q A, ar !! q = Some A -> p + arena_bytes B <= q \/ q + arena_bytes A <= p) ->
  arena_bytes B = n * 4096 -> 0 < n < 2 ^ 52 ->
  exists attr st', CoreFreePoolPagesI fuel p n st = Done st' /\ pool_inv None live ar st' /\ mPoolHeadList st' = mPoolHeadList st /\
    let now a := if within p (p + arena_bytes B - 1) a then [(EfiConventionalMemory, attr)] else cover (gMemoryMap (pages st)) a in
    refilled now (cover (gMemoryMap (pages st'))) /\
    ((2 <= mFreeMemoryMapEntryList (pages st))%nat -> forall a, cover (gMemoryMap (pages st')) a = now a).
Proof.
  intros Hfuel Hinv (HTa & _ & Hp0 & Hpm & (attr & (E & HE & HK & Hs & He) & Hsp) & _) Hap HBn Hn.
  pose proof Hinv as [(Hok & Hq & Hset) H2 H3 H4 H5 H6 H7 H8]. injection HK as HT HA. rewrite HBn in *.
  destruct HTa as (_ & _ & HTc & _).
  destruct (CoreConvertPages_spec fuel p n n EfiConventionalMemory (pages st) E) as
    (pg & Hcv & Hok' & Hq' & (_ & _ & Hgcd & _) & _ & Hrf & _ & Hkp & Hex);
    [done|done|done|done|lia|apply pages_to_size; lia|done|done|done|lia|done|rewrite HT; tauto| |].
  { right. exists p, attr. split_and!; try done. rewrite HA. by replace (within p (p + n * 4096 - 1) p) with true by (unfold within; lia). }
  exists attr. unfold CoreFreePoolPagesI, CoreFreePoolPages. rewrite Hcv. mred. eexists. split; [done|]. split.
  2:{ split; [done|]. rewrite HA in *. split; [done|]. intros H. by destruct (Hex H). }
  rewrite pages_to_size by lia.
  match goal with |- pool_inv _ _ _ ?s => set (st' := s) end.
  assert (forall a q A, ar !! q = Some A -> q <= a < q + arena_bytes A ->
    header_at junk a st' = header_at junk a st /\ tails st' !! a = tails st !! a) as Hfg.
  { intros a q A Hqa Ha. specialize (Hap q A Hqa). unfold header_at. cbn [headers tails st']. by rewrite !forget_lookup by lia. }
  constructor; try done.
  - split_and!; [done|done|]. unfold settled in *. cbn. by rewrite Hgcd.
  - intros q A Hqa. destruct (H3 q A Hqa) as (Hal & ? & ? & ? & (at' & Ho & ?) & HA'). split_and!; try done. exists at'. split; [|done].
    pose proof (Hap q A Hqa) as Hd. apply Hkp; [destruct A; cbn in *; lia| |done]. split; [unfold apart; cbn in *; lia|].
    unfold in_use. cbn. apply Hal.
  - intros a T S Ha. destruct (live_range Hinv a T S Ha) as (q & A & Hqa & _ & ? & ? & ? & _).
    destruct (Hfg a q A Hqa ltac:(lia)) as [Hh _]. specialize (H5 a T S Ha). unfold live_ok, class_ok in *. by rewrite Hh.
  - intros a T S Ha Hbusy. destruct (live_range Hinv a T S Ha) as (q & A & Hqa & _ & ? & ? & ? & _).
    destruct (Hfg a q A Hqa ltac:(lia)) as [Hh _]. destruct (Hfg (a + S - 16) q A Hqa ltac:(lia)) as [_ Ht].
    specialize (H6 a T S Ha Hbusy). unfold head_of in *. by rewrite Hh, Ht.
  - intros T a i Hb Hl. destruct (block_range Hinv T a i Hb) as (q & bs & Hqa & _ & _ & _ & _ & ? & ? & ? & _).
    pose proof (class_size_pos i ltac:(lia)). destruct (Hfg a q _ Hqa ltac:(cbn; lia)) as [Hh _].
    specialize (H8 T a i Hb Hl). unfold free_head in *. by rewrite Hh.
Qed.

(** What is left of the arenas once a block is free: all of them, or all but
    one whose pages are conventional memory again. *)
Definition returned (st : POOLS) (ar ar' : gmap Z arena) (st' : POOLS) : Prop :=
  ar' = ar /\ pages st' = pages st \/
  exists p B attr, ar !! p = Some B /\ ar' = delete p ar /\
    let now a := if within p (p + arena_bytes B - 1) a then [(EfiConventionalMemory, attr)] else cover (gMemoryMap (pages st)) a in
    refilled now (cover (gMemoryMap (pages st'))) /\
    ((2 <= mFreeMemoryMapEntryList (pages st))%nat -> forall a, cover (gMemoryMap (pages st')) a = now a).

Lemma FreePool_block_spec fuel live ar st a T S : (5 <= fuel)%nat -> pool_wf live ar st -> live !! a = Some (T, S) -> 0 <= T < 16 ->
  let i := GetPoolIndexFromSize S in i < 7 ->
  exists ar' st', FreePool_block fuel junk T i a 4096 st = Done st' /\ pool_wf (delete a live) ar' st' /\ returned st ar ar' st'.
Proof.
  intros Hfuel [Hinv Hocc] Ha HT i Hi. unfold FreePool_block.
  pose proof (free_block_inv live ar st a T S Hinv Ha HT Hi) as Hinv1. fold i in Hinv1. cbn zeta.
  assert (pages (update_pool T (push_free i a) (set_header a (mkHeader POOL_FREE_SIGNATURE i 0 0) st)) = pages st) as Hpg
    by (unfold update_pool; by case_decide).
  set (st1 := update_pool _ _ _) in *. clearbody st1.
  destruct (wf_live _ _ _ _ Hinv _ _ _ Ha) as (HS & _ & _ & [[_ Hbl]|[? _]]); [fold i in Hbl|lia].
  destruct (block_range Hinv _ _ _ Hbl) as (p & bs & Hp & Hab & Ht & Hp0 & Hpm & Hi6 & Hpa & HaS & _).
  pose proof (class_size_pos i ltac:(lia)) as Hci.
  pose proof Ht as (_ & Hin & _).
  change (4096 - 1) with EFI_PAGE_MASK. rewrite ldiff_page. replace (a - a mod 4096) with p by dlia.
  destruct (tiles_start _ _ _ _ p Ht ltac:(lia) ltac:(lia)) as [k0 Hk0]; [by left|].
  assert (forall ar', (forall q C, ar' !! q = Some C -> ar !! q = Some C /\ (q = p -> exists b k, (b, k) ∈ bs /\ is_Some (delete a live !! b))) ->
    occupied (delete a live) ar') as Hoc.
  { intros ar' Har q C Hq. destruct (Har q C Hq) as [Hq' Hqp]. destruct (decide (q = p)) as [->|Hne].
    - destruct (Hqp eq_refl) as (b & k & Hb & Hl). exists b. split; [done|]. destruct (Hin _ _ Hb) as (? & ? & ? & _).
      pose proof (class_size_pos k ltac:(lia)). rewrite Hp in Hq'. injection Hq' as <-. cbn. lia.
    - destruct (Hocc q C Hq') as (b & [x Hb] & Hbq). exists b. split; [|done]. rewrite lookup_delete_ne; [by eexists|].
      intros <-. pose proof (wf_apart _ _ _ _ Hinv q p _ _ Hq' Hp Hne) as Hd. cbn in Hd. lia. }
  assert (occupied (delete a live) ar \/ forall b k, (b, k) ∈ bs -> delete a live !! b = None) as Hdec.
  { destruct (decide (Forall (fun b => delete a live !! b.1 = None) bs)) as [Hf|Hf].
    - right. rewrite Forall_forall in Hf. intros b k Hb. apply (Hf (b, k) Hb).
    - left. apply Hoc. intros q C Hq. split; [done|]. intros _. apply not_Forall_Exists in Hf; [|apply _].
      apply Exists_exists in Hf as ([b k] & Hb & Hn). cbn in Hn. exists b, k. split; [done|]. by apply not_eq_None_Some. }
  assert (Signature (header_at junk p st1) = POOL_FREE_SIGNATURE <-> delete a live !! p = None) as Hsig.
  { assert (block_in ar T p k0) as Hb0 by by exists p, bs. destruct (delete a live !! p) as [[T' S']|] eqn:El.
    - destruct (wf_used _ _ _ _ Hinv1 _ _ _ El ltac:(done)) as (-> & _). done.
    - destruct (wf_headers _ _ _ _ Hinv1 _ _ _ Hb0 El) as [-> _]. done. }
  destruct (decide (Signature (header_at junk p st1) = _)) as [Hs%Hsig|Hs].
  2:{ exists ar, st1. split; [done|]. split; [split; [done|]|by left]. destruct Hdec as [|Hall]; [done|]. by destruct Hs; apply Hsig, (Hall p k0). }
  destruct (AllFree_walk_spec Hinv1 Hp 33 0) as (r & -> & Hr); [done|right; exists k0; by rewrite Z.add_0_r|lia|lia|]. mred.
  destruct r.
  2:{ exists ar, st1. split; [done|]. split; [split; [done|]|by left]. destruct Hdec as [|Hall]; [done|].
      destruct Hr as [_ Hr]. discriminate Hr. intros b k Hb _. by apply (Hall b k). }
  assert (forall b k, (b, k) ∈ bs -> delete a live !! b = None) as Hall.
  { intros b k Hb. destruct Hr as [Hr _]. apply (Hr eq_refl b k Hb). destruct (Hin _ _ Hb). lia. }
  destruct (Unlink_walk_spec _ ar st1 p T bs Hinv1 Hp Hall 33 0 st1) as (X & st2 & -> & Hu & HX);
    [apply (wf_heads _ _ _ _ Hinv1)|done|right; exists k0; by rewrite Z.add_0_r|lia|lia|]. mred.
  change (EFI_SIZE_TO_PAGES 4096) with 1.
  assert (pool_inv None (delete a live) (delete p ar) st2) as Hinv2.
  { apply (small_gone _ _ _ _ _ _ _ _ Hinv1 Hp Hall Hu). intros b. rewrite HX. split; [intros (k & ? & _); by exists k|].
    intros [k Hb]. exists k. split; [done|]. destruct (Hin _ _ Hb). lia. }
  assert (pages st2 = pages st) as Hpg2 by (destruct Hu as (_ & -> & _); done).
  destruct (CoreFreePoolPagesI_spec fuel (delete a live) (delete p ar) st2 p (Small T bs) 1 Hfuel Hinv2) as (attr & st3 & -> & Hinv3 & _ & Hnow).
  { rewrite Hpg2. apply (wf_arenas _ _ _ _ Hinv _ _ Hp). }
  { intros q C [Hqp Hq]%lookup_delete_Some. apply (wf_apart _ _ _ _ Hinv p q _ _ Hp Hq). done. }
  { done. } { lia. }
  exists (delete p ar), st3. split; [done|]. split; [split; [done|]|].
  - apply Hoc. intros q C [Hqp Hq]%lookup_delete_Some. split; [done|]. by intros ->.
  - right. exists p, (Small T bs), attr. split; [done|]. split; [done|]. by rewrite <-Hpg2.
Qed.

Lemma pool_head_address live ar st a T S : pool_inv None live ar st -> live !! a = Some (T, S) ->
  0 < a /\ a + S < 2 ^ 64 /\ 40 <= S < 2 ^ 64 - 4096 /\ allocatable T /\ T < 16.
Proof.
  intros Hinv Ha. destruct (live_range Hinv a T S Ha) as (p & A & Hp & HT & HS & Hpa & HaS & _).
  destruct (wf_live _ _ _ _ Hinv _ _ _ Ha) as (HS' & _).
  destruct (wf_arenas _ _ _ _ Hinv p A Hp) as (HTa & HTl & Hp0 & _ & (attr & (E & HE & _ & Hs & He) & _) & _).
  pose proof (ok_entries _ (proj1 (wf_pages _ _ _ _ Hinv))) as Hes. rewrite Forall_forall in Hes.
  destruct (Hes E HE) as [Hr _]. unfold page_range in Hr. rewrite HT in *. split_and!; try done; lia.
Qed.

(** [FreePool]: a block in use is no longer one, and the others still are;
    when it was the last of its pages, they are conventional memory again. *)
Lemma FreePool_spec fuel live ar st a T S : (5 <= fuel)%nat -> pool_wf live ar st -> live !! a = Some (T, S) ->
  exists ar' st', CoreInternalFreePool fuel junk (a + SIZE_OF_POOL_HEAD) st = Done (EFI_SUCCESS, Some T, st') /\
    pool_wf (delete a live) ar' st' /\ returned st ar ar' st'.
Proof.
  intros Hfuel Hwf Ha. pose proof Hwf as [Hinv Hocc].
  destruct (pool_head_address live ar st a T S Hinv Ha) as (Ha0 & HaT & HS & HTa & HT). assert (0 <= T) as HT0 by apply HTa.
  destruct (wf_used _ _ _ _ Hinv _ _ _ Ha ltac:(done)) as (Hsig & Hty & Hsz & Htl).
  unfold CoreInternalFreePool. rewrite decide_False by (unfold SIZE_OF_POOL_HEAD; lia). unfold CoreFreePoolI, FreePoolI_with.
  rewrite (u64_id (a + _ - _)) by (unfold SIZE_OF_POOL_HEAD; lia). replace (a + SIZE_OF_POOL_HEAD - SIZE_OF_POOL_HEAD) with a by lia.
  cbn zeta. rewrite decide_False by (rewrite Hsig; tauto). rewrite Hsz, Hty, u64_id by (unfold SIZE_OF_POOL_TAIL; lia).
  rewrite decide_False by (unfold SIZE_OF_POOL_TAIL; rewrite Htl; tauto).
  unfold LookupPoolHead at 1. rewrite (decide_True (P := T < EfiMaxMemoryType)) by (unfold EfiMaxMemoryType; lia). mred. cbn [negb].
  rewrite granularity_4096, top_class. pose proof (used_inv None live ar st T (fun p => u64 (Used p - S)) Hinv ltac:(lia)) as Hinv1.
  set (st1 := update_pool T _ st) in *. assert (pages st1 = pages st) as Hpg by (unfold st1, update_pool; by case_decide).
  assert (pool_wf live ar st1) as Hwf1 by done. clearbody st1.
  match goal with |- exists ar' st', (?o ≫= _) = _ /\ _ =>
    assert (exists ar' st', o = Done st' /\ pool_wf (delete a live) ar' st' /\ returned st ar ar' st') as (ar' & st' & -> & Hwf' & Hret) end.
  2:{ mred. rewrite decide_False by (unfold MEMORY_TYPE_OEM_RESERVED_MIN; lia). mred. by exists ar', st'. }
  unfold returned in *. rewrite <-Hpg. case_decide as H7.
  - destruct (wf_live _ _ _ _ Hinv1 _ _ _ Ha) as (_ & _ & _ & [[? _]|[_ Hp]]); [lia|].
    pose proof (large_gone live ar st1 a T S _ Hinv1 Ha Hp) as Hinv2. destruct (block_pages_spec S ltac:(lia)) as [Hn _].
    destruct (CoreFreePoolPagesI_spec fuel (delete a live) (delete a ar) st1 a (Large T (block_pages S 4096)) (block_pages S 4096) Hfuel Hinv2)
      as (attr & st2 & -> & Hinv3 & _ & Hnow).
    + apply (wf_arenas _ _ _ _ Hinv1 _ _ Hp).
    + intros q C [Hqp Hq]%lookup_delete_Some. by apply (wf_apart _ _ _ _ Hinv1 a q _ _ Hp Hq).
    + done.
    + done.
    + exists (delete a ar), st2. split; [done|]. split; [split; [done|]|].
      * intros q C [Hqa Hq]%lookup_delete_Some. destruct (Hocc q C Hq) as (b & Hb & Hbq). exists b. split; [|done].
        rewrite lookup_delete_ne; [done|]. intros <-. pose proof (wf_apart _ _ _ _ Hinv1 a q _ _ Hp Hq Hqa) as Hd. cbn in Hd. lia.
      * right. by exists a, (Large T (block_pages S 4096)), attr.
  - destruct (FreePool_block_spec fuel live ar st1 a T S Hfuel Hwf1 Ha ltac:(lia) ltac:(lia)) as (ar' & st' & -> & Hwf' & Hret).
    by exists ar', st'.
Qed.

(** A second release of a block is refused while its page is the pool's. *)
Lemma FreePool_twice fuel live ar st a T i : pool_wf live ar st -> block_in ar T a i -> live !! a = None ->
  CoreInternalFreePool fuel junk (a + SIZE_OF_POOL_HEAD) st = Done (EFI_INVALID_PARAMETER, None, st).
Proof.
  intros [Hinv _] Hb Hl. destruct (block_range Hinv _ _ _ Hb) as (p & bs & Hp & _ & _ & Hp0 & _ & Hi & Hpa & Hae & _).
  destruct (wf_arenas _ _ _ _ Hinv p _ Hp) as (_ & _ & _ & _ & (attr & (E & HE & _ & Hs & He) & _) & _).
  pose proof (ok_entries _ (proj1 (wf_pages _ _ _ _ Hinv))) as Hes. rewrite Forall_forall in Hes. destruct (Hes E HE) as [Hr _].
  unfold page_range in Hr. cbn [arena_bytes] in He. pose proof (class_size_pos i ltac:(lia)).
  unfold CoreInternalFreePool. rewrite decide_False by (unfold SIZE_OF_POOL_HEAD; lia). unfold CoreFreePoolI, FreePoolI_with.
  rewrite u64_id by (unfold SIZE_OF_POOL_HEAD; lia). replace (a + SIZE_OF_POOL_HEAD - SIZE_OF_POOL_HEAD) with a by lia.
  destruct (wf_headers _ _ _ _ Hinv _ _ _ Hb Hl) as [Hsig _]. cbn zeta. by rewrite Hsig, decide_True by done.
Qed.

(** With no block in use the pool owns nothing: no page is lost. *)
Lemma pool_empty ar st : pool_wf ∅ ar st -> ar = ∅ /\ forall T, 0 <= T < 16 -> frees T st = [].
Proof.
  intros [Hinv Hocc]. assert (ar = ∅) as ->.
  { apply map_eq. intros p. rewrite lookup_empty. destruct (ar !! p) as [A|] eqn:E; [|done].
    destruct (Hocc p A E) as (a & [x Hx] & _). done. }
  split; [done|]. intros T HT. destruct (frees T st) as [|[a i] l] eqn:E; [done|].
  destruct (wf_free _ _ _ _ Hinv T HT) as [_ Hin]. destruct (Hin a i) as [Hf _]. rewrite E in Hf.
  destruct Hf as [(p & bs & Hp & _) _]; [by apply elem_of_cons; left|done].
Qed.
End invariant.

(** C4: [AllocatePool] of at most 2^64 - 8192 bytes of one of the types of the
    specification that callers may ask for (below 16, so no type of an OEM or an
    operating system), on a pool in order over a memory map of which all memory
    has been tested (so the promotion of untested memory is not covered), and
    as long as descriptors are left or can be made ([ample]): it gives a block
    that is long enough for the request, its head and its tail, aligned to
    eight bytes, in memory of the type asked for and apart from every block in
    use, with the pool in order afterwards; or it reports that memory is
    short, with nothing changed and no range of free pages for the block. *)
Theorem CoreInternalAllocatePool_correct junk fuel live ar st T Size b :
  let S := block_size Size in
  let n := if decide (7 <= GetPoolIndexFromSize S) then block_pages S 4096 else 1 in
  (5 <= fuel)%nat -> pool_wf junk live ar st -> allocatable T -> T < 16 -> 0 <= Size <= 2 ^ 64 - 8192 ->
  ample MAX_ALLOC_ADDRESS T n (pages st) ->
  (exists a ar' st',
     CoreInternalAllocatePool fuel junk T Size (Some b) st = Done (EFI_SUCCESS, Some (a + SIZE_OF_POOL_HEAD), st') /\
     pool_wf junk (<[a := (T, S)]> live) ar' st' /\ Size + POOL_OVERHEAD <= S /\ a mod 8 = 0 /\ 0 < a /\ live !! a = None /\
     (exists attr, forall x, a <= x < a + S -> cover (gMemoryMap (pages st')) x = [(T, attr)]) /\
     forall c T' S', live !! c = Some (T', S') -> a + S <= c \/ c + S' <= a) \/
  (CoreInternalAllocatePool fuel junk T Size (Some b) st = Done (EFI_OUT_OF_RESOURCES, Some 0, st) /\
     forall r, 0 < r -> ~ free_at (gMemoryMap (pages st)) MAX_ALLOC_ADDRESS 0 n r).
Proof.
  intros S n Hfuel Hwf HTa HT HSz Hamp.
  destruct (AllocatePool_spec junk fuel live ar st T Size b Hfuel Hwf HTa HT HSz Hamp) as
    [(a & ar' & st' & -> & Ha & Hla & HS & Ha8 & Hwf' & _)|H]; [left|by right].
  assert (<[a := (T, S)]> live !! a = Some (T, S)) as Hl by apply lookup_insert_eq.
  exists a, ar', st'. split; [done|]. split; [done|]. split; [done|]. split; [done|]. split; [done|]. split; [done|]. split.
  - by apply (live_memory junk (proj1 Hwf') a T S).
  - intros c T' S' Hc. assert (a <> c) as Hne by congruence.
    apply (live_apart junk (proj1 Hwf') a T S c T' S' Hl); [by rewrite lookup_insert_ne|done].
Qed.

(** C5: [FreePool] of a block in use: that block is no longer in use and every
    other still is; when it was the last of its pages, and only then, the
    page allocator has them back as conventional memory; so when no block at
    all is left the pool owns no page and its free lists are empty. *)
Theorem CoreInternalFreePool_correct junk fuel live ar st a T S : (5 <= fuel)%nat -> pool_wf junk live ar st -> live !! a = Some (T, S) ->
  exists ar' st', CoreInternalFreePool fuel junk (a + SIZE_OF_POOL_HEAD) st = Done (EFI_SUCCESS, Some T, st') /\
    pool_wf junk (delete a live) ar' st' /\ returned st ar ar' st' /\
    (delete a live = ∅ -> ar' = ∅ /\ forall T, 0 <= T < 16 -> frees T st' = []).
Proof.
  intros Hfuel Hwf Ha. destruct (FreePool_spec junk fuel live ar st a T S Hfuel Hwf Ha) as (ar' & st' & -> & Hwf' & Hret).
  exists ar', st'. do 3 (split; [done|]). intros E. rewrite E in Hwf'. by apply (pool_empty junk).
Qed.

(** While another block of its page is in use, a second [FreePool] of the
    same block is refused with [EFI_INVALID_PARAMETER] and changes nothing. *)
Theorem CoreInternalFreePool_twice junk fuel live ar st a T S c : (5 <= fuel)%nat -> pool_wf junk live ar st ->
  live !! a = Some (T, S) -> GetPoolIndexFromSize S < 7 -> c <> a -> is_Some (live !! c) -> c / 4096 = a / 4096 ->
  exists ar' st', CoreInternalFreePool fuel junk (a + SIZE_OF_POOL_HEAD) st = Done (EFI_SUCCESS, Some T, st') /\
    pool_wf junk (delete a live) ar' st' /\
    CoreInternalFreePool fuel junk (a + SIZE_OF_POOL_HEAD) st' = Done (EFI_INVALID_PARAMETER, None, st').
Proof.
  intros Hfuel Hwf Ha Hi Hca [[T' S'] Hc] Hpage. pose proof Hwf as [Hinv _].
  destruct (FreePool_spec junk fuel live ar st a T S Hfuel Hwf Ha) as (ar' & st' & -> & Hwf' & Hret).
  exists ar', st'. split; [done|]. split; [done|].
  destruct (wf_live _ _ _ _ _ Hinv _ _ _ Ha) as (_ & _ & _ & [[_ Hb]|[? _]]); [|lia].
  apply (FreePool_twice junk fuel (delete a live) ar' st' a T (GetPoolIndexFromSize S)); [done| |apply lookup_delete_eq].
  destruct (block_range junk Hinv _ _ _ Hb) as (p & bs & Hp & Hab & _ & _ & Hpm & Hk & Hpa & Hae & _).
  pose proof (class_size_pos (GetPoolIndexFromSize S) ltac:(lia)). exists p, bs. split; [|done].
  assert (delete a live !! c = Some (T', S')) as Hc' by (rewrite lookup_delete_ne by done; done).
  destruct Hret as [[-> _]|(q & B & attr & Hq & -> & _)]; [done|]. apply lookup_delete_Some. split; [|done]. intros ->.
  destruct (live_range junk (proj1 Hwf') _ _ _ Hc') as (r & C & [Hr1 Hr2]%lookup_delete_Some & _ & ? & ? & ? & _).
  pose proof (wf_apart _ _ _ _ _ Hinv p r _ _ Hp Hr2 Hr1) as Hd. cbn [arena_bytes] in Hd. dlia.
Qed.

(** C37: the size of the block that serves a request: it holds the request and
    the pool's overhead, is a multiple of eight and wastes less than eight
    bytes; but a request of the last 47 bytes that [MAX_POOL_SIZE] still
    admits wraps around to a block of no bytes, which the smallest class
    then serves. *)
Theorem block_size_correct n : 0 <= n <= MAX_POOL_SIZE ->
  (n <= 2 ^ 64 - 48 -> n + POOL_OVERHEAD <= block_size n < n + POOL_OVERHEAD + 8 /\ block_size n mod 8 = 0) /\
  (2 ^ 64 - 48 < n -> block_size n = 0 /\ GetPoolIndexFromSize (block_size n) = 0).
Proof.
  change MAX_POOL_SIZE with (2 ^ 64 - 41). intros Hn. split; [intros H; apply block_size_spec; lia|]. intros H.
  assert (n = 2 ^ 64 - 47 \/ n = 2 ^ 64 - 46 \/ n = 2 ^ 64 - 45 \/ n = 2 ^ 64 - 44 \/ n = 2 ^ 64 - 43 \/ n = 2 ^ 64 - 42 \/ n = 2 ^ 64 - 41)
    as [->|[->|[->|[->|[->|[->| ->]]]]]] by lia; done.
Qed.

(* ------------------------------------------------------------------ *)
(** ** A concrete pool, for the witnesses *)

(** The pool over [demo_pages] as it is initialised, and fresh memory whose
    every word reads 77. *)
Definition demo_pool : POOLS := CoreInitializePool (mkPools demo_pages [] [] ∅ ∅).
Definition demo_junk (a : Z) : HEADER := mkHeader OTHER_SIGNATURE 77 0 0.

(** The pool of a machine whose memory map is in order promises nothing yet. *)
Lemma pool_start junk st : pages_ok (pages st) -> quiet (pages st) -> settled (pages st) -> mPoolHeadList st = [] ->
  pool_wf junk ∅ ∅ (CoreInitializePool st).
Proof.
  intros H1 H2 H3 H4. split; [|by intros p A ?].
  assert (heads_ok (CoreInitializePool st)) as Hh.
  { split; cbn [CoreInitializePool mPoolHead]; [by rewrite length_fmap, length_seq|]. apply Forall_fmap, Forall_forall. done. }
  constructor; try done; [|by intros T a i (p & bs & ? & _)].
  intros T HT. destruct (heads_ok_of T (CoreInitializePool st) Hh HT) as [Hp _].
  assert (frees T (CoreInitializePool st) = []) as ->.
  { unfold frees. cbn [CoreInitializePool mPoolHead] in Hp. rewrite list_lookup_fmap in Hp.
    apply fmap_Some in Hp as (k & _ & ->). done. }
  split; [apply NoDup_nil_2|]. intros a i. split; [by intros ?%elem_of_nil|]. by intros [(p & bs & ? & _) _].
Qed.

Lemma demo_pool_wf : pool_wf demo_junk ∅ ∅ demo_pool.
Proof. destruct demo_pages_ok as (H1 & H2 & H3). by apply pool_start. Qed.

Lemma demo_ample T n : ample MAX_ALLOC_ADDRESS T n demo_pages.
Proof. intros r A _ _. left. cbn. lia. Qed.

Lemma demo_type : allocatable EfiBootServicesData /\ EfiBootServicesData < 16.
Proof. split; [split_and!; [done|left; done|done..]|done]. Qed.

Lemma CoreInternalAllocatePool_correct_witness : exists a ar st,
  CoreInternalAllocatePool 5 demo_junk EfiBootServicesData 100 (Some 0) demo_pool = Done (EFI_SUCCESS, Some (a + SIZE_OF_POOL_HEAD), st) /\
  pool_wf demo_junk {[a := (EfiBootServicesData, 144)]} ar st.
Proof.
  destruct demo_type as [HT1 HT2].
  destruct (CoreInternalAllocatePool_correct demo_junk 5 ∅ ∅ demo_pool EfiBootServicesData 100 0) as [(a & ar & st & E & Hwf & _)|[_ Hno]];
    [lia|apply demo_pool_wf|done|done|lia|apply demo_ample|exists a, ar, st; exact (conj E Hwf)|].
  exfalso. apply (Hno 0x1000); [lia|]. by apply demo_free.
Defined.

(** A block of 100 bytes, and a second one from the same page. *)
Definition demo_request (st : POOLS) : outcome (Z * option Z * POOLS) :=
  CoreInternalAllocatePool 5 demo_junk EfiBootServicesData 100 (Some 0) st.
Definition demo_after (st : POOLS) : POOLS := match demo_request st with Done (_, _, st') => st' | Fault _ => st end.

Lemma demo_block live ar st b : pool_wf demo_junk live ar st -> (2 <= mFreeMemoryMapEntryList (pages st))%nat ->
  demo_request st = Done (EFI_SUCCESS, Some (b + SIZE_OF_POOL_HEAD), demo_after st) ->
  exists ar', pool_wf demo_junk (<[b := (EfiBootServicesData, 144)]> live) ar' (demo_after st).
Proof.
  intros Hwf Hf E. destruct demo_type as [HT1 HT2].
  destruct (AllocatePool_spec demo_junk 5 live ar st EfiBootServicesData 100 0) as [(a & ar' & st' & E' & _ & _ & _ & _ & Hwf' & _)|[E' _]];
    [lia|done|done|done|lia|intros r A _ _; by left| |].
  - change (CoreInternalAllocatePool 5 demo_junk EfiBootServicesData 100 (Some 0) st) with (demo_request st) in E'.
    rewrite E in E'. injection E' as Ha Hst. assert (a = b) as -> by (unfold SIZE_OF_POOL_HEAD in Ha; lia).
    exists ar'. rewrite Hst. exact Hwf'.
  - change (CoreInternalAllocatePool 5 demo_junk EfiBootServicesData 100 (Some 0) st) with (demo_request st) in E'.
    rewrite E in E'. injection E' as E'. unfold EFI_SUCCESS, EFI_OUT_OF_RESOURCES, EFI_ERROR_BIT in E'. discriminate E'.
Qed.

Definition demo_two : POOLS := demo_after (demo_after demo_pool).
Definition demo_live : gmap Z (Z * Z) :=
  <[0x100B80 := (EfiBootServicesData, 144)]> (<[0x100000 := (EfiBootServicesData, 144)]> ∅).

Lemma demo_two_wf : exists ar, pool_wf demo_junk demo_live ar demo_two.
Proof.
  destruct (demo_block ∅ ∅ demo_pool 0x100000) as [ar1 H1]; [apply demo_pool_wf|vm_compute; lia|vm_compute; reflexivity|].
  eapply (demo_block _ _ (demo_after demo_pool)); [exact H1|vm_compute; lia|vm_compute; reflexivity].
Qed.

Lemma CoreInternalFreePool_correct_witness : exists ar st,
  CoreInternalFreePool 5 demo_junk (0x100000 + SIZE_OF_POOL_HEAD) demo_two = Done (EFI_SUCCESS, Some EfiBootServicesData, st) /\
  pool_wf demo_junk (delete 0x100000 demo_live) ar st.
Proof.
  destruct demo_two_wf as [ar Hwf].
  destruct (CoreInternalFreePool_correct demo_junk 5 demo_live ar demo_two 0x100000 EfiBootServicesData 144) as (ar' & st' & E & Hwf' & _);
    [lia|exact Hwf|reflexivity|]. exists ar', st'. exact (conj E Hwf').
Defined.

Lemma CoreInternalFreePool_twice_witness : exists ar st,
  CoreInternalFreePool 5 demo_junk (0x100000 + SIZE_OF_POOL_HEAD) demo_two = Done (EFI_SUCCESS, Some EfiBootServicesData, st) /\
  pool_wf demo_junk (delete 0x100000 demo_live) ar st /\
  CoreInternalFreePool 5 demo_junk (0x100000 + SIZE_OF_POOL_HEAD) st = Done (EFI_INVALID_PARAMETER, None, st).
Proof.
  destruct demo_two_wf as [ar Hwf].
  apply (CoreInternalFreePool_twice demo_junk 5 demo_live ar demo_two 0x100000 EfiBootServicesData 144 0x100B80);
    [lia|exact Hwf|reflexivity|reflexivity|discriminate|by eexists|reflexivity].
Defined.

Lemma block_size_correct_witness : block_size 100 = 144 /\ block_size (2 ^ 64 - 41) = 0.
Proof.
  split; [reflexivity|]. apply (block_size_correct (2 ^ 64 - 41)); [split; [lia|reflexivity || (change MAX_POOL_SIZE with (2 ^ 64 - 41); lia)]|lia].
Defined.
