(* ===== verification/DxeMap.v ===== *)
(** * DXE core: reporting the memory map and leaving the boot services

    [CoreGetMemoryMap] of [src/edk2/MdeModulePkg/Core/Dxe/Mem/Page.c] with
    what it calls, and [CoreExitBootServices] of [DxeMain/DxeMain.c].

    The caller's buffer is the list of the descriptors written so far and its
    size in bytes; a write past it is a fault.  The heap guard is off, so
    [MergeGuardPages] does nothing.  [CoreMemoryMapSanityCheck] only logs and
    asserts.  The functions that events have registered with the core are
    parameters: they may change the memory map in any way. *)
From Stdlib Require Import ZArith Lia.
From stdpp Require Import base gmap list sorting.
From S2P Require Import Prelude Pointer Firmware DxePage DxePool.
#[local] Open Scope Z_scope.

(* ------------------------------------------------------------------ *)
(** ** Data *)

Definition EfiMemoryMappedIO : Z := 11.
Definition EfiMemoryMappedIOPortSpace : Z := 12.
Definition EfiGcdMemoryTypeMemoryMappedIo : Z := 3.
Definition EfiGcdMemoryTypePersistent : Z := 4.
Definition EfiGcdMemoryTypeUnaccepted : Z := 6.

Definition EFI_MEMORY_ACCESS_MASK : Z := Z.lor (Z.lor 0x2000 0x4000) 0x20000.
Definition EFI_CACHE_ATTRIBUTE_MASK : Z :=
  Z.lor (Z.lor (Z.lor (Z.lor (Z.lor 0x1 0x2) 0x4) 0x8) 0x10) 0x1000.
Definition EFI_MEMORY_ATTRIBUTE_MASK : Z := Z.lor (Z.lor EFI_MEMORY_ACCESS_MASK EFI_MEMORY_SP) 0x80000.
Definition EFI_UNACCEPTED_MASK : Z :=
  Z.lor (Z.lor (Z.lor (Z.lor (Z.lor (Z.lor (Z.lor (Z.lor 0x2000 0x1000) 0x4000) 0x20000) 0x1) 0x10) 0x2) 0x4) 0x8.
Definition EFI_MEMORY_NV : Z := 0x8000.
Definition EFI_MEMORY_PORT_IO : Z := 0x4000000000000000.
Definition EFI_MEMORY_DESCRIPTOR_VERSION : Z := 1.

Record EFI_MEMORY_DESCRIPTOR : Type := mkDescriptor {
  Type_ : Z;
  PhysicalStart : Z;
  VirtualStart : Z;
  Pages : Z;
  Attribute_ : Z;
}.

(** [sizeof (EFI_MEMORY_DESCRIPTOR)], rounded up and never exact. *)
Definition descriptor_size : Z := 40 + (8 - 40 mod 8).

Definition set_type (t : Z) (d : EFI_MEMORY_DESCRIPTOR) : EFI_MEMORY_DESCRIPTOR :=
  mkDescriptor t (PhysicalStart d) (VirtualStart d) (Pages d) (Attribute_ d).
Definition set_extent (s n : Z) (d : EFI_MEMORY_DESCRIPTOR) : EFI_MEMORY_DESCRIPTOR :=
  mkDescriptor (Type_ d) s (VirtualStart d) n (Attribute_ d).
Definition set_attribute (a : Z) (d : EFI_MEMORY_DESCRIPTOR) : EFI_MEMORY_DESCRIPTOR :=
  mkDescriptor (Type_ d) (PhysicalStart d) (VirtualStart d) (Pages d) a.

(* ------------------------------------------------------------------ *)
(** ** Merging *)

(** Add a descriptor to the list: it is absorbed by the first one it extends
    upwards or downwards, or becomes the last. *)
Fixpoint MergeMemoryMapDescriptor (l : list EFI_MEMORY_DESCRIPTOR) (d : EFI_MEMORY_DESCRIPTOR)
    : list EFI_MEMORY_DESCRIPTOR :=
  match l with
  | [] => [d]
  | E :: l' =>
      if decide (Type_ E <> Type_ d \/ Attribute_ E <> Attribute_ d) then E :: MergeMemoryMapDescriptor l' d else
      if decide (u64 (PhysicalStart E + EFI_PAGES_TO_SIZE (Pages E)) = PhysicalStart d)
      then set_extent (PhysicalStart E) (u64 (Pages E + Pages d)) E :: l' else
      if decide (u64 (PhysicalStart E - EFI_PAGES_TO_SIZE (Pages d)) = PhysicalStart d)
      then mkDescriptor (Type_ E) (PhysicalStart d) (VirtualStart d) (u64 (Pages E + Pages d)) (Attribute_ E) :: l'
      else E :: MergeMemoryMapDescriptor l' d
  end.

(** Neighbours in the list that continue each other become one. *)
Fixpoint merge_run (d : EFI_MEMORY_DESCRIPTOR) (l : list EFI_MEMORY_DESCRIPTOR) : list EFI_MEMORY_DESCRIPTOR :=
  match l with
  | [] => [d]
  | d2 :: l' =>
      if decide (Type_ d = Type_ d2 /\ Attribute_ d = Attribute_ d2 /\
                 u64 (PhysicalStart d + EFI_PAGES_TO_SIZE (Pages d)) = PhysicalStart d2)
      then merge_run (set_extent (PhysicalStart d) (u64 (Pages d + Pages d2)) d) l'
      else d :: merge_run d2 l'
  end.

Definition MergeMemoryMap (l : list EFI_MEMORY_DESCRIPTOR) : list EFI_MEMORY_DESCRIPTOR :=
  match l with [] => [] | d :: l' => merge_run d l' end.

(* ------------------------------------------------------------------ *)
(** ** [CoreGetMemoryMap] *)

Section map.
Context (st : PAGES).

(** The runtime attribute of a descriptor is that of its type. *)
Definition SetEfiMemoryDescriptorType (t : Z) (d : EFI_MEMORY_DESCRIPTOR) : outcome EFI_MEMORY_DESCRIPTOR :=
  if decide (EfiMaxMemoryType <= t) then mret (set_type t d) else
  s ← rd (mMemoryTypeStatistics st) t;
  mret (set_attribute (if Runtime s then Z.lor (Attribute_ d) EFI_MEMORY_RUNTIME
                       else Z.ldiff (Attribute_ d) EFI_MEMORY_RUNTIME) (set_type t d)).

(** The regions of the GCD map that are reported beside the memory map. *)
Definition gcd_counted (G : EFI_GCD_MAP_ENTRY) : bool :=
  bool_decide (GcdMemoryType G = EfiGcdMemoryTypePersistent \/ GcdMemoryType G = EfiGcdMemoryTypeReserved \/
    GcdMemoryType G = EfiGcdMemoryTypeUnaccepted \/
    (GcdMemoryType G = EfiGcdMemoryTypeMemoryMappedIo /\ Z.land (Attributes G) EFI_MEMORY_RUNTIME = EFI_MEMORY_RUNTIME)).

Definition special_bin (s : EFI_MEMORY_TYPE_STATISTICS) : bool := Special s && (0 <? NumberOfPages s).

(** An upper bound: every entry, every region, and two more for each bin. *)
Definition map_buffer_size : Z :=
  u64 (descriptor_size * (Z.of_nat (length (filter (fun G => gcd_counted G = true) (mGcdMemorySpaceMap st))) +
    Z.of_nat (length (gMemoryMap st)) +
    2 * Z.of_nat (length (filter (fun s => special_bin s = true) (take 16 (mMemoryTypeStatistics st)))))).

Section buffer.
Context (MapSize : Z).

(** The descriptor is written past the last one, and perhaps absorbed.  The
    code then compares the size with the buffer's once more; it cannot be
    larger unless the write was out of bounds, which is a fault here. *)
Definition emit (d : EFI_MEMORY_DESCRIPTOR) (l : list EFI_MEMORY_DESCRIPTOR) : outcome (list EFI_MEMORY_DESCRIPTOR) :=
  if decide (MapSize < descriptor_size * (Z.of_nat (length l) + 1)) then Fault OutOfBounds
  else mret (MergeMemoryMapDescriptor l d).

Fixpoint entries_loop (es : list MEMORY_MAP) (l : list EFI_MEMORY_DESCRIPTOR) : outcome (list EFI_MEMORY_DESCRIPTOR) :=
  match es with
  | [] => mret l
  | E :: es =>
      d ← SetEfiMemoryDescriptorType (EntryType E)
            (mkDescriptor 0 (Start E) 0 (EFI_SIZE_TO_PAGES (u64 (End_ E - Start E + 1))) (Attribute E));
      l ← emit d l;
      entries_loop es l
  end.

(** A conventional descriptor that meets a bin is cut at the ends of the bin,
    and the part inside is given the type of the bin. *)
Definition bin_pieces (t BinStart BinEnd : Z) (d : EFI_MEMORY_DESCRIPTOR) : outcome (list EFI_MEMORY_DESCRIPTOR) :=
  let EntryStart := PhysicalStart d in
  let EntryEnd := u64 (EntryStart + EFI_PAGES_TO_SIZE (Pages d) - 1) in
  if decide (BinStart <= EntryStart /\ EntryEnd <= BinEnd) then
    d ← SetEfiMemoryDescriptorType t d; mret [d]
  else if decide (EntryStart < BinStart) then
    let low := set_extent EntryStart (EFI_SIZE_TO_PAGES (u64 (BinStart - EntryStart))) d in
    mid ← SetEfiMemoryDescriptorType t (set_extent BinStart (EFI_SIZE_TO_PAGES (u64 (EntryEnd - BinStart + 1))) low);
    if decide (BinEnd < EntryEnd) then
      let mid := set_extent BinStart (EFI_SIZE_TO_PAGES (u64 (BinEnd - BinStart + 1))) mid in
      high ← SetEfiMemoryDescriptorType EfiConventionalMemory
               (set_extent (u64 (BinEnd + 1)) (EFI_SIZE_TO_PAGES (u64 (EntryEnd - BinEnd))) mid);
      mret [low; mid; high]
    else mret [low; mid]
  else
    mid ← SetEfiMemoryDescriptorType t (set_extent EntryStart (EFI_SIZE_TO_PAGES (u64 (BinEnd - EntryStart + 1))) d);
    high ← SetEfiMemoryDescriptorType EfiConventionalMemory
             (set_extent (u64 (BinEnd + 1)) (EFI_SIZE_TO_PAGES (u64 (EntryEnd - BinEnd))) mid);
    mret [mid; high].

Definition meets (BinStart BinEnd : Z) (d : EFI_MEMORY_DESCRIPTOR) : Prop :=
  Type_ d = EfiConventionalMemory /\
  ~ (u64 (PhysicalStart d + EFI_PAGES_TO_SIZE (Pages d) - 1) < BinStart \/ BinEnd < PhysicalStart d).

#[export] Instance meets_dec s e d : Decision (meets s e d).
Proof. unfold meets. apply _. Defined.

(** Until no conventional descriptor meets the bin any more.  The pieces
    after the first move the rest of the list up, within the buffer. *)
Fixpoint bin_loop (n : nat) (t BinStart BinEnd : Z) (l : list EFI_MEMORY_DESCRIPTOR)
    : outcome (list EFI_MEMORY_DESCRIPTOR) :=
  match n with
  | O => Fault Diverges
  | S n' =>
      let l := MergeMemoryMap l in
      match list_find (meets BinStart BinEnd) l with
      | None => mret l
      | Some (i, d) =>
          ps ← bin_pieces t BinStart BinEnd d;
          if decide ((1 < length ps)%nat /\ MapSize < descriptor_size * (Z.of_nat (length l + length ps) - 1))
          then Fault OutOfBounds
          else bin_loop n' t BinStart BinEnd (take i l ++ ps ++ drop (S i) l)
      end
  end.

Fixpoint bins_loop (ss : list EFI_MEMORY_TYPE_STATISTICS) (t : Z) (l : list EFI_MEMORY_DESCRIPTOR)
    : outcome (list EFI_MEMORY_DESCRIPTOR) :=
  match ss with
  | [] => mret l
  | s :: ss =>
      if special_bin s then
        l ← bin_loop (2 + length l) t (BaseAddress s) (MaximumAddress s) l; bins_loop ss (t + 1) l
      else bins_loop ss (t + 1) l
  end.

(** The descriptor of a region of the GCD map, if it is reported. *)
Definition gcd_descriptor (G : EFI_GCD_MAP_ENTRY) : option EFI_MEMORY_DESCRIPTOR :=
  let n := Z.shiftr (u64 (u64 (GcdEnd G - GcdBase G) + 1)) 12 in
  if decide (GcdMemoryType G = EfiGcdMemoryTypeReserved \/
    (GcdMemoryType G = EfiGcdMemoryTypeMemoryMappedIo /\ Z.land (Attributes G) EFI_MEMORY_RUNTIME = EFI_MEMORY_RUNTIME)) then
    Some (mkDescriptor
      (if decide (GcdMemoryType G = EfiGcdMemoryTypeReserved) then EfiReservedMemoryType
       else if decide (Z.land (Attributes G) EFI_MEMORY_PORT_IO = EFI_MEMORY_PORT_IO) then EfiMemoryMappedIOPortSpace
       else EfiMemoryMappedIO)
      (GcdBase G) 0 n
      (Z.lor (Z.ldiff (Attributes G) EFI_MEMORY_PORT_IO)
             (Z.land (Capabilities G) (Z.lor EFI_CACHE_ATTRIBUTE_MASK EFI_MEMORY_ATTRIBUTE_MASK))))
  else if decide (GcdMemoryType G = EfiGcdMemoryTypePersistent) then
    Some (mkDescriptor EfiPersistentMemory (GcdBase G) 0 n
      (Z.lor (Z.lor (Attributes G) EFI_MEMORY_NV)
             (Z.land (Capabilities G) (Z.lor EFI_CACHE_ATTRIBUTE_MASK EFI_MEMORY_ATTRIBUTE_MASK))))
  else if decide (GcdMemoryType G = EfiGcdMemoryTypeUnaccepted) then
    Some (mkDescriptor EfiUnacceptedMemoryType (GcdBase G) 0 n
      (Z.lor (Attributes G) (Z.land (Capabilities G) EFI_UNACCEPTED_MASK)))
  else None.

(** Regions that differ only in their extent are reported as one, [M]. *)
Definition gcd_same (M G : EFI_GCD_MAP_ENTRY) : Prop :=
  Capabilities M = Capabilities G /\ Attributes M = Attributes G /\
  GcdMemoryType M = GcdMemoryType G /\ GcdIoType M = GcdIoType G.

#[export] Instance gcd_same_dec M G : Decision (gcd_same M G).
Proof. unfold gcd_same. apply _. Defined.

Definition gcd_extend (e : Z) (M : EFI_GCD_MAP_ENTRY) : EFI_GCD_MAP_ENTRY :=
  mkGcd (GcdBase M) e (Capabilities M) (Attributes M) (GcdMemoryType M) (GcdIoType M).

Definition gcd_emit (M : EFI_GCD_MAP_ENTRY) (l : list EFI_MEMORY_DESCRIPTOR) : outcome (list EFI_MEMORY_DESCRIPTOR) :=
  match gcd_descriptor M with None => mret l | Some d => emit d l end.

Fixpoint gcd_loop (M : EFI_GCD_MAP_ENTRY) (Gs : list EFI_GCD_MAP_ENTRY) (l : list EFI_MEMORY_DESCRIPTOR)
    : outcome (list EFI_MEMORY_DESCRIPTOR) :=
  match Gs with
  | [] => gcd_emit M l
  | G :: Gs =>
      if decide (gcd_same M G) then gcd_loop (gcd_extend (GcdEnd G) M) Gs l
      else l ← gcd_emit M l; gcd_loop G Gs l
  end.

Definition clear_access (d : EFI_MEMORY_DESCRIPTOR) : EFI_MEMORY_DESCRIPTOR :=
  set_attribute (Z.ldiff (Attribute_ d) EFI_MEMORY_ACCESS_MASK) d.

(** The descriptors written to a buffer that is large enough. *)
Definition map_descriptors : outcome (list EFI_MEMORY_DESCRIPTOR) :=
  l ← entries_loop (gMemoryMap st) [];
  l ← bins_loop (take 16 (mMemoryTypeStatistics st)) 0 l;
  l ← gcd_loop (mkGcd 0 0 0 0 0 0) (mGcdMemorySpaceMap st) l;
  mret (MergeMemoryMap (clear_access <$> l)).
End buffer.

(** [MapSize] is [None] for a null size pointer, [buffer] says whether there
    is a buffer.  The result is the status, the size, the key and the
    descriptors; the size and version of a descriptor are constants. *)
Definition CoreGetMemoryMap (MapSize : option Z) (buffer : bool)
    : outcome (Z * option (Z * Z) * list EFI_MEMORY_DESCRIPTOR) :=
  match MapSize with
  | None => mret (EFI_INVALID_PARAMETER, None, [])
  | Some MapSize =>
      if decide (MapSize < map_buffer_size) then mret (EFI_BUFFER_TOO_SMALL, Some (map_buffer_size, mMemoryMapKey st), []) else
      if buffer then
        l ← map_descriptors MapSize;
        mret (EFI_SUCCESS, Some (descriptor_size * Z.of_nat (length l), mMemoryMapKey st), l)
      else mret (EFI_INVALID_PARAMETER, Some (map_buffer_size, mMemoryMapKey st), [])
  end.
End map.

(* ------------------------------------------------------------------ *)
(** ** [CoreExitBootServices] *)

(** The state of the core that leaving touches, and the functions the three
    event groups have registered. *)
Record CORE : Type := mkCore {
  core_pools : POOLS;
  mExitBootServicesCalled : bool;
  gMemoryMapTerminated : bool;
  AtRuntime : bool;
}.

Section exit.
Context (BeforeExitBootServices ExitBootServicesFailed ExitBootServicesGroup : POOLS -> POOLS).

(** The last chance to use the boot services is given once. *)
Definition notified (c : CORE) : POOLS :=
  if mExitBootServicesCalled c then core_pools c else BeforeExitBootServices (core_pools c).

Definition CoreExitBootServices (MapKey : Z) (c : CORE) : outcome (Z * CORE) :=
  let p := notified c in
  Status ← CoreTerminateMemoryMap MapKey (pages p);
  if decide (Status <> EFI_SUCCESS)
  then mret (Status, mkCore (ExitBootServicesFailed p) true (gMemoryMapTerminated c) (AtRuntime c))
  else mret (Status, mkCore (ExitBootServicesGroup p) true true true).

End exit.

(* ------------------------------------------------------------------ *)
(** ** What a list of descriptors shows of an address *)

Definition dend (d : EFI_MEMORY_DESCRIPTOR) : Z := PhysicalStart d + Pages d * 4096.
Definition dholds (a : Z) (d : EFI_MEMORY_DESCRIPTOR) : Prop := PhysicalStart d <= a < dend d.
Definition dkind (d : EFI_MEMORY_DESCRIPTOR) : Z * Z := (Type_ d, Attribute_ d).

#[export] Instance dholds_dec a d : Decision (dholds a d).
Proof. unfold dholds. apply _. Defined.

Definition shows (l : list EFI_MEMORY_DESCRIPTOR) (a : Z) : list (Z * Z) := dkind <$> filter (dholds a) l.

Definition desc_ok (d : EFI_MEMORY_DESCRIPTOR) : Prop :=
  0 <= PhysicalStart d /\ PhysicalStart d mod 4096 = 0 /\ 0 < Pages d /\ dend d < 2 ^ 64.

Definition show (k : Z * Z) (s e a : Z) : list (Z * Z) := if decide (s <= a < e) then [k] else [].

Lemma shows_cons d l a : shows (d :: l) a = show (dkind d) (PhysicalStart d) (dend d) a ++ shows l a.
Proof. unfold shows, show. rewrite filter_cons. unfold dholds. by destruct (decide _). Qed.

Lemma shows_app l l' a : shows (l ++ l') a = shows l a ++ shows l' a.
Proof. unfold shows. by rewrite filter_app, fmap_app. Qed.

Lemma shows_nil a : shows [] a = [].
Proof. done. Qed.

Lemma shows_single d a : shows [d] a = show (dkind d) (PhysicalStart d) (dend d) a.
Proof. by rewrite shows_cons, shows_nil, app_nil_r. Qed.

(** Two ranges of one kind that meet. *)
Lemma show_join k s m e a : s <= m <= e -> show k s e a = show k s m a ++ show k m e a.
Proof. intros H. unfold show. repeat case_decide; try done; exfalso; lia. Qed.

Lemma show_in d a l : d ∈ l -> desc_ok d -> dholds a d -> dkind d ∈ shows l a.
Proof. intros Hd Hok Ha. apply list_elem_of_fmap. exists d. split; [done|]. by apply list_elem_of_filter. Qed.

Lemma desc_pages d : desc_ok d -> 0 < Pages d < 2 ^ 52 /\ EFI_PAGES_TO_SIZE (Pages d) = Pages d * 4096.
Proof. intros (H1 & H2 & H3 & H4). unfold dend in H4. split; [lia|]. apply pages_to_size. lia. Qed.

Lemma desc_end d : desc_ok d -> u64 (PhysicalStart d + EFI_PAGES_TO_SIZE (Pages d)) = dend d /\
  u64 (PhysicalStart d + EFI_PAGES_TO_SIZE (Pages d) - 1) = dend d - 1 /\ PhysicalStart d < dend d /\ dend d mod 4096 = 0.
Proof.
  intros Hok. destruct (desc_pages d Hok) as [Hp ->]. destruct Hok as (H1 & H2 & H3 & H4). unfold dend in *.
  rewrite !u64_id by lia. split_and!; try lia; dlia.
Qed.

Lemma size_to_pages n : 0 <= n -> n mod 4096 = 0 -> EFI_SIZE_TO_PAGES n = n / 4096.
Proof.
  intros H Hm. unfold EFI_SIZE_TO_PAGES. rewrite land_page, Hm, Z.shiftr_div_pow2 by lia. cbn. change (2 ^ 12) with 4096. lia.
Qed.

(** A descriptor of the range [s..e). *)
Lemma extent_ok s e d : 0 <= s -> s < e -> e < 2 ^ 64 -> s mod 4096 = 0 -> e mod 4096 = 0 ->
  let d' := set_extent s (EFI_SIZE_TO_PAGES (u64 (e - s))) d in
  desc_ok d' /\ PhysicalStart d' = s /\ dend d' = e /\ dkind d' = dkind d.
Proof.
  intros H1 H2 H3 H4 H5. rewrite u64_id, size_to_pages by (lia || dlia). unfold desc_ok, dend. cbn. split_and!; try done; dlia.
Qed.

Lemma MergeMemoryMapDescriptor_spec l d : Forall desc_ok l -> desc_ok d ->
  let l' := MergeMemoryMapDescriptor l d in
  Forall desc_ok l' /\ (length l' <= S (length l))%nat /\ forall a, shows l' a ≡ₚ shows l a ++ shows [d] a.
Proof.
  intros Hl Hd. induction Hl as [|E l HE Hl IH]; cbn [MergeMemoryMapDescriptor].
  { split_and!; [by constructor|done|by intros a]. }
  destruct IH as (IH1 & IH2 & IH3).
  assert (forall a, shows (E :: MergeMemoryMapDescriptor l d) a ≡ₚ shows (E :: l) a ++ shows [d] a) as Hskip.
  { intros a. rewrite !shows_cons, IH3, app_nil_r. rewrite shows_single. by rewrite app_assoc. }
  assert (Forall desc_ok (E :: MergeMemoryMapDescriptor l d) /\ (length (E :: MergeMemoryMapDescriptor l d) <= S (length (E :: l)))%nat) as [Hs1 Hs2]
    by (split; [by constructor|cbn; lia]).
  destruct (decide _) as [|Hk]; [done|].
  assert (dkind E = dkind d) as Hkind by (unfold dkind; destruct (decide (Type_ E = Type_ d)), (decide (Attribute_ E = Attribute_ d)); tauto || congruence).
  destruct (desc_end E HE) as (-> & _ & HE1 & _). destruct (desc_pages E HE) as [HEp _], (desc_pages d Hd) as [Hdp ->].
  pose proof HE as (HE3 & HE4 & HE5 & HE6). pose proof Hd as (Hd3 & Hd4 & Hd5 & Hd6). unfold dend in Hd6, HE6.
  destruct (decide (dend E = PhysicalStart d)) as [He|He]; [|destruct (decide _) as [He2|He2]; [|done]].
  - set (E' := set_extent _ _ E). assert (Pages E' = Pages E + Pages d) as HP by (cbn; rewrite u64_id; lia).
    assert (desc_ok E') as HE' by (split_and!; try done; [lia|unfold dend in *; rewrite HP; cbn; lia]).
    split_and!; [by constructor|cbn; lia|]. intros a. rewrite !shows_cons, shows_nil, app_nil_r. change (dkind E') with (dkind E).
    rewrite (show_join _ _ (dend E)) by (unfold dend in *; rewrite ?HP; cbn in *; lia). rewrite <-!app_assoc. apply Permutation_app_head.
    rewrite Permutation_app_comm. apply Permutation_app_head. rewrite Hkind, He.
    replace (dend E') with (dend d) by (unfold dend in *; rewrite HP; cbn; lia). done.
  - assert (PhysicalStart E = dend d) as He3.
    { unfold dend. unfold u64 in He2. destruct (decide (Pages d * 4096 <= PhysicalStart E)); [rewrite Z.mod_small in He2; lia|].
      exfalso. rewrite <-(Z.mod_unique (PhysicalStart E - Pages d * 4096) 18446744073709551616 (-1) (PhysicalStart E - Pages d * 4096 + 18446744073709551616)) in He2; lia. }
    set (E' := mkDescriptor _ _ _ _ _). assert (Pages E' = Pages E + Pages d) as HP by (cbn; rewrite u64_id; lia).
    assert (dend E' = dend E) as Hend by (unfold dend in *; rewrite HP; cbn; lia).
    assert (desc_ok E') as HE' by (split_and!; try done; [lia|rewrite Hend; unfold dend; lia]).
    split_and!; [by constructor|cbn; lia|]. intros a. rewrite !shows_cons, shows_nil, app_nil_r. change (dkind E') with (dkind E).
    rewrite Hend. change (PhysicalStart E') with (PhysicalStart d). rewrite (show_join _ _ (dend d)) by (unfold dend in *; lia).
    rewrite Hkind, He3, <-app_assoc. apply Permutation_app_comm.
Qed.

(** Boundaries a descriptor lies across. *)
Definition crosses (x : Z) (d : EFI_MEMORY_DESCRIPTOR) : Prop := PhysicalStart d < x < dend d.

#[export] Instance crosses_dec x d : Decision (crosses x d).
Proof. unfold crosses. apply _. Defined.

Definition count {A} (P : A -> Prop) `{!forall x, Decision (P x)} (l : list A) : nat := length (filter P l).

Lemma count_cons {A} (P : A -> Prop) `{!forall x, Decision (P x)} x l :
  count P (x :: l) = ((if decide (P x) then 1 else 0) + count P l)%nat.
Proof. unfold count. rewrite filter_cons. by case_decide. Qed.

Lemma count_app {A} (P : A -> Prop) `{!forall x, Decision (P x)} l l' : count P (l ++ l') = (count P l + count P l')%nat.
Proof. unfold count. by rewrite filter_app, length_app. Qed.

(** The room a list takes now and may still take for the bin [b..e). *)
Definition room (b e : Z) (l : list EFI_MEMORY_DESCRIPTOR) : nat := (length l + count (crosses b) l + count (crosses e) l)%nat.

Lemma merge_run_spec b e d l : Forall desc_ok (d :: l) -> b < e -> e < 2 ^ 64 ->
  let l' := merge_run d l in
  Forall desc_ok l' /\ (forall a, shows l' a = shows (d :: l) a) /\ (room b e l' <= room b e (d :: l))%nat /\
  (count (meets b (e - 1)) l' <= count (meets b (e - 1)) (d :: l))%nat.
Proof.
  intros Hl Hbe He. revert d Hl. induction l as [|d2 l IH]; intros d [Hd Hl]%Forall_cons; cbn [merge_run].
  { split_and!; [by apply Forall_singleton|done|lia|lia]. }
  pose proof Hl as [Hd2 Hl2]%Forall_cons. destruct (decide _) as [(HT & HA & Hm)|_].
  - destruct (desc_end d Hd) as (He1 & He1' & Hlt1 & _), (desc_end d2 Hd2) as (_ & He2' & Hlt2 & _). rewrite He1 in Hm.
    destruct (desc_pages d Hd) as [Hp _], (desc_pages d2 Hd2) as [Hp2 _].
    set (d' := set_extent _ _ d). assert (Pages d' = Pages d + Pages d2) as HP by (cbn; rewrite u64_id; lia).
    assert (dend d' = dend d2) as Hend by (unfold dend in *; rewrite HP; cbn; lia).
    assert (desc_ok d') as Hd'.
    { destruct Hd as (? & ? & ? & ?), Hd2 as (? & ? & ? & ?). split_and!; try done; [lia|by rewrite Hend]. }
    destruct (desc_end d' Hd') as (_ & He3' & _ & _). assert (PhysicalStart d' = PhysicalStart d) as Hps by done. destruct (IH d') as (H1 & H2 & H3 & H4); [by constructor|].
    split_and!; [done| | |].
    + intros a. rewrite H2, !shows_cons. change (dkind d') with (dkind d). rewrite Hend.
      change (PhysicalStart d') with (PhysicalStart d). rewrite (show_join _ _ (dend d)) by lia. rewrite <-app_assoc, Hm.
      by replace (dkind d2) with (dkind d) by (unfold dkind; congruence).
    + etrans; [exact H3|]. unfold room. rewrite !count_cons. cbn [length]. repeat case_decide; unfold crosses in *; rewrite ?Hend, ?Hps in *; lia.
    + etrans; [exact H4|]. rewrite !count_cons. assert (Type_ d' = Type_ d) as HTd by done.
      repeat case_decide; unfold meets in *; rewrite ?He1', ?He2', ?He3', ?Hend, ?Hps, ?HTd, <-?HT in *; lia.
  - destruct (IH d2 Hl) as (H1 & H2 & H3 & H4). split_and!; [by constructor| | |].
    + intros a. rewrite !(shows_cons d). by rewrite H2.
    + unfold room in *. rewrite !(count_cons _ d). cbn [length] in *. lia.
    + rewrite !(count_cons _ d). lia.
Qed.

Lemma MergeMemoryMap_spec b e l : Forall desc_ok l -> b < e -> e < 2 ^ 64 ->
  let l' := MergeMemoryMap l in
  Forall desc_ok l' /\ (forall a, shows l' a = shows l a) /\ (room b e l' <= room b e l)%nat /\
  (count (meets b (e - 1)) l' <= count (meets b (e - 1)) l)%nat.
Proof. intros Hl Hbe He. destruct l as [|d l]; [done|]. by apply merge_run_spec. Qed.

(* ------------------------------------------------------------------ *)
(** ** Types and their runtime attribute *)

Definition runtime_attribute (r : bool) (A : Z) : Z :=
  if r then Z.lor A EFI_MEMORY_RUNTIME else Z.ldiff A EFI_MEMORY_RUNTIME.

(** The attribute an entry of type [t] is reported with. *)
Definition retag (st : PAGES) (t A : Z) : Z :=
  if decide (t < EfiMaxMemoryType) then
    match mMemoryTypeStatistics st !! Z.to_nat t with
    | Some s => runtime_attribute (Runtime s) A
    | None => A
    end
  else A.

Lemma runtime_attribute_twice r r' A : runtime_attribute r (runtime_attribute r' A) = runtime_attribute r A.
Proof.
  unfold runtime_attribute. apply Z.bits_inj'. intros n Hn. destruct r, r'; rewrite ?Z.lor_spec, ?Z.ldiff_spec, ?Z.lor_spec, ?Z.ldiff_spec;
    by destruct (Z.testbit A n), (Z.testbit EFI_MEMORY_RUNTIME n).
Qed.

Section bins.
Context (st : PAGES) (Hok : pages_ok st).

Lemma statistics_at t : 0 <= t < 17 -> exists s, mMemoryTypeStatistics st !! Z.to_nat t = Some s.
Proof. intros H. destruct (ok_statistics _ Hok) as (Hl & _). apply lookup_lt_is_Some_2. lia. Qed.

Lemma SetType_spec t d : 0 <= t ->
  SetEfiMemoryDescriptorType st t d = Done (set_attribute (retag st t (Attribute_ d)) (set_type t d)).
Proof.
  intros Ht. unfold SetEfiMemoryDescriptorType, retag. destruct (decide (EfiMaxMemoryType <= t)) as [H|H].
  - by rewrite decide_False by lia.
  - rewrite decide_True by lia. unfold EfiMaxMemoryType in H. destruct (statistics_at t ltac:(lia)) as [s Hs].
    unfold rd. rewrite decide_True by lia. rewrite Hs. mred. done.
Qed.

Lemma retag_twice t t' A : 0 <= t < 16 -> retag st t (retag st t' A) = retag st t A.
Proof.
  intros Ht. unfold retag. rewrite !(decide_True (P := t < _)) by (unfold EfiMaxMemoryType; lia).
  destruct (statistics_at t ltac:(lia)) as [s ->]. destruct (decide (t' < _)); [|done].
  destruct (mMemoryTypeStatistics st !! Z.to_nat t'); [|done]. apply runtime_attribute_twice.
Qed.

(** Conventional memory in the bin [b..e) of type [t] is shown as [t]. *)
Definition rebin (t b e a : Z) (k : Z * Z) : Z * Z :=
  if decide (b <= a < e /\ k.1 = EfiConventionalMemory) then (t, retag st t k.2) else k.

(** The attributes of conventional memory are as the table says. *)
Definition tagged (d : EFI_MEMORY_DESCRIPTOR) : Prop :=
  Type_ d = EfiConventionalMemory -> retag st EfiConventionalMemory (Attribute_ d) = Attribute_ d.

Section one_bin.
Context (t b e : Z) (Ht : 0 <= t < 16) (Htc : t <> EfiConventionalMemory).
Context (Hb : 0 <= b) (Hbe : b < e) (He : e < 2 ^ 64) (Hbm : b mod 4096 = 0) (Hem : e mod 4096 = 0).

Lemma meets_spec d : desc_ok d -> meets b (e - 1) d <-> Type_ d = EfiConventionalMemory /\ b < dend d /\ PhysicalStart d < e.
Proof.
  intros Hd. destruct (desc_end d Hd) as (_ & Hend & _ & _). unfold meets. rewrite Hend.
  split; [intros [? ?]; split_and!; [done|lia|lia]|intros (? & ? & ?); split; [done|lia]].
Qed.

Lemma rebin_show k s1 e1 a : k.1 = EfiConventionalMemory -> b <= s1 -> e1 <= e ->
  rebin t b e a <$> show k s1 e1 a = show (t, retag st t k.2) s1 e1 a.
Proof.
  intros Hk H1 H2. unfold show. destruct (decide (s1 <= a < e1)); [|done]. cbn. unfold rebin. rewrite decide_True by (split; [lia|done]). done.
Qed.

Lemma rebin_show_out k s1 e1 a : e1 <= b \/ e <= s1 -> rebin t b e a <$> show k s1 e1 a = show k s1 e1 a.
Proof.
  intros H. unfold show. destruct (decide (s1 <= a < e1)); [|done]. cbn. unfold rebin. rewrite decide_False by (intros [? _]; lia). done.
Qed.

(** A piece of [d], as cutting it at the ends of the bin should make it. *)
Definition piece_ok (d p : EFI_MEMORY_DESCRIPTOR) (s1 e1 : Z) : Prop :=
  desc_ok p /\ tagged p /\ ~ meets b (e - 1) p /\ PhysicalStart p = s1 /\ dend p = e1 /\
  forall a, shows [p] a = rebin t b e a <$> show (dkind d) s1 e1 a.

Definition pieces_ok (d : EFI_MEMORY_DESCRIPTOR) (ps : list EFI_MEMORY_DESCRIPTOR) : Prop :=
  Forall desc_ok ps /\ Forall tagged ps /\ Forall (fun p => ~ meets b (e - 1) p) ps /\
  (forall a, shows ps a = rebin t b e a <$> shows [d] a) /\ room b e ps = room b e [d] /\ (1 <= length ps)%nat.

Lemma piece_inside d p s1 e1 : desc_ok p -> PhysicalStart p = s1 -> dend p = e1 -> Type_ d = EfiConventionalMemory ->
  dkind p = (t, retag st t (Attribute_ d)) -> b <= s1 -> e1 <= e -> piece_ok d p s1 e1.
Proof.
  intros Hp <- <- HT HK H1 H2. injection HK as HTp HA. split_and!; try done.
  - intros HTp'. congruence.
  - rewrite meets_spec by done. intros [? _]. congruence.
  - intros a. rewrite shows_single, (rebin_show (dkind d)) by done. unfold dkind at 1. by rewrite HTp, HA.
Qed.

Lemma piece_outside d p s1 e1 : desc_ok p -> PhysicalStart p = s1 -> dend p = e1 -> tagged d ->
  dkind p = dkind d -> e1 <= b \/ e <= s1 -> piece_ok d p s1 e1.
Proof.
  intros Hp <- <- Ht0 HK H1. injection HK as HTp HA. split_and!; try done.
  - unfold tagged. by rewrite HTp, HA.
  - rewrite meets_spec by done. intros (_ & ? & ?). lia.
  - intros a. rewrite shows_single, (rebin_show_out (dkind d)) by done. unfold dkind. by rewrite HTp, HA.
Qed.

Lemma pieces_1 d p : piece_ok d p (PhysicalStart d) (dend d) -> pieces_ok d [p].
Proof.
  intros (H1 & H2 & H3 & H4 & H5 & H6). split_and!; try by apply Forall_singleton.
  - intros a. by rewrite H6, shows_single.
  - unfold room. rewrite !count_cons. cbn. repeat case_decide; unfold crosses in *; lia.
  - cbn; lia.
Qed.

Lemma pieces_2 d p q m : piece_ok d p (PhysicalStart d) m -> piece_ok d q m (dend d) -> m = b \/ m = e ->
  PhysicalStart d < m < dend d -> pieces_ok d [p; q].
Proof.
  intros (H1 & H2 & H3 & H4 & H5 & H6) (I1 & I2 & I3 & I4 & I5 & I6) Hm Hlt. split_and!; try by repeat (apply Forall_cons; split).
  - intros a. change [p; q] with ([p] ++ [q]). rewrite shows_app, H6, I6, <-fmap_app, shows_single. by rewrite <-show_join by lia.
  - unfold room. rewrite !count_cons. cbn. repeat case_decide; unfold crosses in *; lia.
  - cbn; lia.
Qed.

Lemma pieces_3 d p q r : piece_ok d p (PhysicalStart d) b -> piece_ok d q b e -> piece_ok d r e (dend d) ->
  PhysicalStart d < b -> e < dend d -> pieces_ok d [p; q; r].
Proof.
  intros (H1 & H2 & H3 & H4 & H5 & H6) (I1 & I2 & I3 & I4 & I5 & I6) (J1 & J2 & J3 & J4 & J5 & J6) Hlt1 Hlt2.
  split_and!; try by repeat (apply Forall_cons; split).
  - intros a. change [p; q; r] with ([p] ++ [q] ++ [r]). rewrite !shows_app, H6, I6, J6, <-!fmap_app, shows_single.
    rewrite <-(show_join _ b e) by lia. by rewrite <-show_join by lia.
  - unfold room. rewrite !count_cons. cbn. repeat case_decide; unfold crosses in *; lia.
  - cbn; lia.
Qed.

Lemma bin_pieces_spec d : desc_ok d -> tagged d -> meets b (e - 1) d ->
  exists ps, bin_pieces st t b (e - 1) d = Done ps /\ pieces_ok d ps.
Proof.
  intros Hd Htag (HT & Hm1 & Hm2)%meets_spec; [|done]. pose proof (Htag HT) as HA.
  destruct (desc_end d Hd) as (_ & Hend & Hlt & Hendm). pose proof Hd as (Hd1 & Hd2 & Hd3 & Hd4).
  unfold bin_pieces. rewrite Hend, SetType_spec by lia.
  destruct (decide (b <= PhysicalStart d /\ dend d - 1 <= e - 1)) as [Hin|Hin].
  { mred. eexists. split; [done|]. apply pieces_1. by apply piece_inside; try done; lia. }
  rewrite (u64_id (e - 1 + 1)) by lia. replace (e - 1 + 1) with e by lia.
  replace (dend d - 1 - b + 1) with (dend d - b) by lia. replace (e - 1 - b + 1) with (e - b) by lia.
  replace (dend d - 1 - (e - 1)) with (dend d - e) by lia. replace (e - 1 - PhysicalStart d + 1) with (e - PhysicalStart d) by lia.
  assert (forall d0, dkind d0 = (t, retag st t (Attribute_ d)) ->
    dkind (set_attribute (retag st EfiConventionalMemory (Attribute_ d0)) (set_type EfiConventionalMemory d0)) = dkind d) as Hhigh.
  { intros d0 [= E1 E2]. unfold dkind. cbn. by rewrite E2, retag_twice, HA, HT by done. }
  destruct (decide (PhysicalStart d < b)) as [Hlo|Hlo].
  - destruct (extent_ok (PhysicalStart d) b d) as (L1 & L2 & L3 & L4); [lia..|]. set (low := set_extent _ _ d) in *.
    destruct (extent_ok b (dend d) low) as (M1 & M2 & M3 & M4); [lia..|]. set (mid := set_extent _ _ low) in *.
    rewrite SetType_spec by lia. mred. destruct (decide (e - 1 < dend d - 1)) as [Hhi|Hhi].
    + set (mid1 := set_attribute _ _).
      destruct (extent_ok b e mid1) as (N1 & N2 & N3 & N4); [lia..|]. set (mid2 := set_extent _ _ mid1) in *.
      destruct (extent_ok e (dend d) mid2) as (O1 & O2 & O3 & O4); [lia..|]. set (high := set_extent _ _ mid2) in *.
      rewrite SetType_spec by done. mred. eexists. split; [done|]. apply pieces_3; [| | |lia|lia].
      * apply piece_outside; try done. by left.
      * apply piece_inside; try done.
      * apply piece_outside; try done; [by apply Hhigh|by right].
    + eexists. split; [done|]. apply (pieces_2 _ _ _ b); [| |by left|lia].
      * apply piece_outside; try done. by left.
      * apply piece_inside; try done. lia.
  - destruct (extent_ok (PhysicalStart d) e d) as (M1 & M2 & M3 & M4); [lia..|]. set (mid := set_extent _ _ d) in *.
    rewrite SetType_spec by lia. mred. set (mid1 := set_attribute _ _).
    destruct (extent_ok e (dend d) mid1) as (O1 & O2 & O3 & O4); [lia..|]. set (high := set_extent _ _ mid1) in *.
    rewrite SetType_spec by done. mred. eexists. split; [done|]. apply (pieces_2 _ _ _ e); [| |by right|lia].
    * apply piece_inside; try done; lia.
    * apply piece_outside; try done; [by apply Hhigh|by right].
Qed.

Lemma rebin_twice a k : rebin t b e a (rebin t b e a k) = rebin t b e a k.
Proof. unfold rebin at 1. rewrite decide_False; [done|]. unfold rebin. case_decide as H; [by intros [_ ?]|done]. Qed.

(** The loop over one bin ends, stays within the buffer and has done to every
    address what the bin asks. *)
Lemma bin_loop_spec MapSize n l : Forall desc_ok l -> Forall tagged l ->
  (count (meets b (e - 1)) l < n)%nat -> descriptor_size * Z.of_nat (room b e l) <= MapSize ->
  exists l', bin_loop st MapSize n t b (e - 1) l = Done l' /\ Forall desc_ok l' /\ Forall tagged l' /\
    (room b e l' <= room b e l)%nat /\ forall a, shows l' a = rebin t b e a <$> shows l a.
Proof.
  revert l. induction n as [|n IH]; intros l Hl Htg Hn Hroom; [lia|]. cbn [bin_loop].
  destruct (MergeMemoryMap_spec b e l Hl Hbe He) as (Hl1 & Hs1 & Hr1 & Hc1).
  assert (Forall tagged (MergeMemoryMap l)) as Htg1.
  { apply Forall_forall. intros d Hd HT. rewrite Forall_forall in Hl1. specialize (Hl1 d Hd).
    assert (dkind d ∈ shows l (PhysicalStart d)) as Hin.
    { rewrite <-Hs1. apply show_in; [done|done|]. destruct (desc_end d Hl1) as (_ & _ & ? & _). unfold dholds. lia. }
    apply list_elem_of_fmap in Hin as (d0 & [= HT0 HA0] & [_ Hd0]%list_elem_of_filter).
    rewrite Forall_forall in Htg. rewrite HA0. apply (Htg d0 Hd0). congruence. }
  set (l1 := MergeMemoryMap l) in *. clearbody l1.
  destruct (list_find (meets b (e - 1)) l1) as [[i d]|] eqn:Hf.
  - apply list_find_Some in Hf as (Hid & Hmeets & _). pose proof (list_elem_of_lookup_2 _ _ _ Hid) as Hdin.
    assert (l1 = take i l1 ++ [d] ++ drop (S i) l1) as Hsplit by (symmetry; by apply take_drop_middle).
    rewrite Forall_forall in Hl1, Htg1.
    destruct (bin_pieces_spec d (Hl1 d Hdin) (Htg1 d Hdin) Hmeets) as (ps & -> & Hp1 & Hp2 & Hp3 & Hp4 & Hp5 & Hp6). mred.
    rewrite <-Forall_forall in Hl1, Htg1. rewrite Hsplit in Hl1, Htg1. apply Forall_app in Hl1 as [Hla [_ Hlb]%Forall_app], Htg1 as [Hta [_ Htb]%Forall_app].
    assert (room b e (take i l1 ++ ps ++ drop (S i) l1) = room b e l1) as Hroom'.
    { rewrite Hsplit at 3. unfold room in *. rewrite !length_app, !count_app. lia. }
    assert (count (meets b (e - 1)) (take i l1 ++ ps ++ drop (S i) l1) < n)%nat as Hcnt.
    { assert (count (meets b (e - 1)) l1 = count (meets b (e - 1)) (take i l1) + 1 + count (meets b (e - 1)) (drop (S i) l1))%nat as Hc2.
      { rewrite Hsplit at 1. rewrite !count_app, count_cons, decide_True by done. cbn. lia. }
      rewrite !count_app. assert (count (meets b (e - 1)) ps = 0%nat) as ->; [|lia].
      unfold count. apply length_zero_iff_nil. clear -Hp3. induction Hp3 as [|p ps Hp _ IHp]; [done|]. by rewrite filter_cons_False. }
    rewrite decide_False.
    2:{ intros [_ Hov]. assert (length l1 + length ps - 1 <= room b e l1)%nat; [|change descriptor_size with 48 in *; lia].
        rewrite <-Hroom'. unfold room. rewrite !length_app. rewrite Hsplit at 1. rewrite !length_app. cbn [length]. lia. }
    destruct (IH (take i l1 ++ ps ++ drop (S i) l1)) as (l' & -> & H1 & H2 & H3 & H4).
    + by rewrite !Forall_app.
    + by rewrite !Forall_app.
    + done.
    + rewrite Hroom'. change descriptor_size with 48 in *. lia.
    + exists l'. split_and!; try done; [lia|]. intros a. rewrite H4, <-Hs1. rewrite Hsplit at 3.
      rewrite !shows_app, !fmap_app, Hp4. f_equal. f_equal. rewrite <-list_fmap_compose. apply list_fmap_ext. intros _ k _. apply rebin_twice.
  - exists l1. split_and!; try done. intros a. rewrite Hs1. symmetry.
    assert (Forall (fun k => rebin t b e a k = k) (shows l a)) as Hid.
    { rewrite <-Hs1. apply list_find_None in Hf. apply Forall_forall. intros k (d & -> & [Ha Hd]%list_elem_of_filter)%list_elem_of_fmap.
      unfold rebin. rewrite decide_False; [done|]. intros [Hab HT]. rewrite Forall_forall in Hf, Hl1. apply (Hf d Hd). rewrite meets_spec by auto.
      unfold dholds in Ha. split_and!; [done|lia|lia]. }
    clear -Hid. induction Hid as [|k ks Hk _ IHk]; [done|]. cbn. by rewrite Hk, IHk.
Qed.
End one_bin.

Definition bin_ok (t : Z) (s : EFI_MEMORY_TYPE_STATISTICS) : Prop :=
  special_bin s = true -> t <> EfiConventionalMemory /\ 0 <= BaseAddress s /\ BaseAddress s <= MaximumAddress s /\
    MaximumAddress s + 1 < 2 ^ 64 /\ BaseAddress s mod 4096 = 0 /\ (MaximumAddress s + 1) mod 4096 = 0.

(** What the bins of the types from [t] on make of what an address shows. *)
Fixpoint rebin_all (ss : list EFI_MEMORY_TYPE_STATISTICS) (t a : Z) (ks : list (Z * Z)) : list (Z * Z) :=
  match ss with
  | [] => ks
  | s :: ss => rebin_all ss (t + 1) a
      (if special_bin s then rebin t (BaseAddress s) (MaximumAddress s + 1) a <$> ks else ks)
  end.

Lemma count_le {A} (P Q : A -> Prop) `{!forall x, Decision (P x), !forall x, Decision (Q x)} l :
  (forall x, P x -> Q x) -> (count P l <= count Q l)%nat.
Proof.
  intros HPQ. induction l as [|x l IH]; [done|]. rewrite !count_cons. repeat case_decide; try lia. exfalso. auto.
Qed.

(** At most one of the descriptors of a list without overlaps lies across an
    address. *)
Lemma room_disjoint b e l : (forall a, (length (shows l a) <= 1)%nat) -> (room b e l <= 2 + length l)%nat.
Proof.
  intros H. assert (forall x, (count (crosses x) l <= 1)%nat) as Hc.
  { intros x. etrans; [|exact (H x)]. unfold shows. rewrite length_fmap. apply (count_le (crosses x) (dholds x)).
    intros d. unfold crosses, dholds. lia. }
  unfold room. specialize (Hc b) as Hc1. specialize (Hc e) as Hc2. lia.
Qed.

Lemma bins_loop_spec MapSize ss t l : 0 <= t -> t + Z.of_nat (length ss) <= 16 ->
  (forall i s, ss !! i = Some s -> bin_ok (t + Z.of_nat i) s) ->
  Forall desc_ok l -> Forall tagged l -> (forall a, (length (shows l a) <= 1)%nat) ->
  descriptor_size * (Z.of_nat (length l) + 2 * Z.of_nat (count (fun s => special_bin s = true) ss)) <= MapSize ->
  exists l', bins_loop st MapSize ss t l = Done l' /\ Forall desc_ok l' /\
    (length l' <= length l + 2 * count (fun s => special_bin s = true) ss)%nat /\
    forall a, shows l' a = rebin_all ss t a (shows l a).
Proof.
  revert t l. induction ss as [|s ss IH]; intros t l Ht Hlen Hbins Hl Htg Hdj Hroom; cbn [bins_loop rebin_all].
  { exists l. split_and!; try done; lia. }
  rewrite count_cons in Hroom. cbn [length] in Hlen. pose proof (Hbins 0%nat s eq_refl) as Hb. rewrite Z.add_0_r in Hb.
  assert (forall i s0, ss !! i = Some s0 -> bin_ok (t + 1 + Z.of_nat i) s0) as Hbins'.
  { intros i s0 Hi. replace (t + 1 + Z.of_nat i) with (t + Z.of_nat (S i)) by lia. by apply Hbins. }
  rewrite count_cons. destruct (special_bin s) eqn:Hs.
  - rewrite decide_True in Hroom by done. destruct (Hb Hs) as (Hb1 & Hb2 & Hb3 & Hb4 & Hb5 & Hb6).
    pose proof (room_disjoint (BaseAddress s) (MaximumAddress s + 1) l Hdj) as Hrd.
    destruct (bin_loop_spec t (BaseAddress s) (MaximumAddress s + 1) ltac:(lia) Hb1 Hb2 ltac:(lia) Hb4 Hb5 Hb6 MapSize (2 + length l) l Hl Htg)
      as (l1 & Hrun & Hl1 & Htg1 & Hr1 & Hs1).
    { unfold count. pose proof (length_filter (meets (BaseAddress s) (MaximumAddress s + 1 - 1)) l). lia. }
    { change descriptor_size with 48 in *. lia. }
    replace (MaximumAddress s + 1 - 1) with (MaximumAddress s) in Hrun by lia. rewrite Hrun. mred.
    assert (length l1 <= 2 + length l)%nat as Hl1len by (unfold room in Hr1 at 1; lia).
    destruct (IH (t + 1) l1) as (l' & -> & H1 & H2 & H3); try done; try lia.
    + intros a. rewrite Hs1, length_fmap. apply Hdj.
    + change descriptor_size with 48 in *. lia.
    + exists l'. rewrite decide_True by done. split_and!; try done; [lia|]. intros a. by rewrite H3, Hs1.
  - destruct (IH (t + 1) l) as (l' & -> & H1 & H2 & H3); try done; try lia.
    exists l'. split_and!; done || lia.
Qed.
End bins.

(* ------------------------------------------------------------------ *)
(** ** The regions of the GCD map *)

(** What a region adds to what an address shows. *)
Definition gcd_shows (G : EFI_GCD_MAP_ENTRY) (a : Z) : list (Z * Z) :=
  match gcd_descriptor G with Some d => show (dkind d) (GcdBase G) (GcdEnd G + 1) a | None => [] end.

Definition region_ok (G : EFI_GCD_MAP_ENTRY) : Prop :=
  gcd_counted G = true -> page_range (GcdBase G) (GcdEnd G).

(** The regions follow one another. *)
Fixpoint gcd_chain (s : Z) (Gs : list EFI_GCD_MAP_ENTRY) : Prop :=
  match Gs with [] => True | G :: Gs => GcdBase G = s /\ region_ok G /\ gcd_chain (GcdEnd G + 1) Gs end.

Lemma gcd_descriptor_counted G : (exists d, gcd_descriptor G = Some d) <-> gcd_counted G = true.
Proof.
  unfold gcd_descriptor, gcd_counted. rewrite bool_decide_eq_true.
  repeat case_decide; split; intros Hx; try (by eexists); try tauto; try (destruct Hx as [? ?]; done); naive_solver.
Qed.

Lemma gcd_descriptor_ok G d : region_ok G -> gcd_descriptor G = Some d ->
  desc_ok d /\ PhysicalStart d = GcdBase G /\ dend d = GcdEnd G + 1.
Proof.
  intros HG Hd. assert (page_range (GcdBase G) (GcdEnd G)) as Hr by (apply HG, gcd_descriptor_counted; by eexists).
  unfold page_range in Hr. assert (PhysicalStart d = GcdBase G /\ Pages d = (GcdEnd G - GcdBase G + 1) / 4096) as [H1 H2].
  { assert (Z.shiftr (u64 (u64 (GcdEnd G - GcdBase G) + 1)) 12 = (GcdEnd G - GcdBase G + 1) / 4096) as Hn.
    { rewrite Z.shiftr_div_pow2, (u64_id (GcdEnd G - GcdBase G)) by lia. by rewrite u64_id by lia. }
    unfold gcd_descriptor in Hd. rewrite Hn in Hd. repeat case_decide; try done; injection Hd as <-; done. }
  unfold desc_ok, dend. rewrite H1, H2. split_and!; try lia; dlia.
Qed.

(** Two regions that differ only in their extent are reported alike. *)
Lemma gcd_descriptor_same M G : gcd_same M G ->
  match gcd_descriptor M, gcd_descriptor G with
  | Some d, Some d' => dkind d = dkind d'
  | None, None => True
  | _, _ => False
  end.
Proof. intros (H1 & H2 & H3 & H4). unfold gcd_descriptor. rewrite H1, H2, H3. repeat case_decide; done. Qed.

Lemma gcd_counted_same M G : gcd_same M G -> gcd_counted M = gcd_counted G.
Proof. intros (_ & H2 & H3 & _). unfold gcd_counted. by rewrite H2, H3. Qed.

Lemma gcd_shows_uncounted G a : gcd_counted G <> true -> gcd_shows G a = [].
Proof.
  intros H. unfold gcd_shows. destruct (gcd_descriptor G) as [d|] eqn:E; [|done]. destruct H. apply gcd_descriptor_counted. by eexists.
Qed.

(** A region extended by the next one of its kind. *)
Lemma gcd_extend_shows M G a : gcd_same M G -> (gcd_counted M = true -> GcdBase G = GcdEnd M + 1) ->
  region_ok M -> region_ok G -> gcd_shows (gcd_extend (GcdEnd G) M) a = gcd_shows M a ++ gcd_shows G a.
Proof.
  intros Hsame Hadj H1 H2. assert (gcd_same (gcd_extend (GcdEnd G) M) M) as Hsame' by done.
  destruct (decide (gcd_counted M = true)) as [Hc|Hc].
  - specialize (Hadj Hc). specialize (H1 Hc). rewrite (gcd_counted_same _ _ Hsame) in Hc. specialize (H2 Hc).
    rewrite <-(gcd_counted_same _ _ Hsame) in Hc. unfold page_range in H1, H2. unfold gcd_shows.
    pose proof (gcd_descriptor_same _ _ Hsame) as Hk. pose proof (gcd_descriptor_same _ _ Hsame') as Hk'.
    destruct (proj2 (gcd_descriptor_counted M) Hc) as [d Hd]. rewrite Hd in *.
    destruct (gcd_descriptor G) as [d'|]; [|done]. destruct (gcd_descriptor (gcd_extend _ M)) as [d2|]; [|done].
    rewrite Hk', <-Hk, Hadj. cbn. apply show_join. lia.
  - rewrite !gcd_shows_uncounted; [done| | |]; rewrite ?(gcd_counted_same _ _ Hsame'), <-?(gcd_counted_same _ _ Hsame); done.
Qed.

Lemma gcd_emit_spec MapSize M l : Forall desc_ok l -> region_ok M ->
  descriptor_size * (Z.of_nat (length l) + (if gcd_counted M then 1 else 0)) <= MapSize ->
  exists l', gcd_emit MapSize M l = Done l' /\ Forall desc_ok l' /\
    (length l' <= length l + (if gcd_counted M then 1 else 0))%nat /\ forall a, shows l' a ≡ₚ shows l a ++ gcd_shows M a.
Proof.
  intros Hl HM Hroom. unfold gcd_emit, gcd_shows. destruct (gcd_descriptor M) as [d|] eqn:Hd.
  - assert (gcd_counted M = true) as Hc by (apply gcd_descriptor_counted; by eexists). rewrite Hc in *.
    destruct (gcd_descriptor_ok M d HM Hd) as (Hdok & Hs & He). unfold emit. rewrite decide_False by lia.
    destruct (MergeMemoryMapDescriptor_spec l d Hl Hdok) as (H1 & H2 & H3). eexists. split; [done|]. split; [done|]. split; [lia|].
    intros a. rewrite H3, shows_single. by rewrite Hs, He.
  - exists l. split_and!; try done; [lia|]. intros a. by rewrite app_nil_r.
Qed.

Lemma gcd_loop_spec MapSize Gs M l s : Forall desc_ok l -> region_ok M -> gcd_chain s Gs ->
  (gcd_counted M = true -> gcd_chain (GcdEnd M + 1) Gs) ->
  let n := ((if gcd_counted M then 1 else 0) + count (fun G => gcd_counted G = true) Gs)%nat in
  descriptor_size * (Z.of_nat (length l) + Z.of_nat n) <= MapSize ->
  exists l', gcd_loop MapSize M Gs l = Done l' /\ Forall desc_ok l' /\ (length l' <= length l + n)%nat /\
    forall a, shows l' a ≡ₚ shows l a ++ gcd_shows M a ++ concat ((fun G => gcd_shows G a) <$> Gs).
Proof.
  revert M l s. induction Gs as [|G Gs IH]; intros M l s Hl HM Hch Hadj n Hroom; cbn [gcd_loop].
  { destruct (gcd_emit_spec MapSize M l Hl HM) as (l' & -> & H1 & H2 & H3).
    { unfold n in Hroom. change descriptor_size with 48 in *. cbn in Hroom. destruct (gcd_counted M); lia. }
    exists l'. split_and!; try done; [unfold n; cbn; lia|]. intros a. cbn. by rewrite app_nil_r. }
  destruct Hch as (HGs & HG & Hch). unfold n in *. rewrite count_cons in *. clear n.
  destruct (decide (gcd_same M G)) as [Hsame|Hsame].
  - set (M' := gcd_extend (GcdEnd G) M). assert (gcd_counted M' = gcd_counted M) as Hc' by done.
    pose proof (gcd_counted_same _ _ Hsame) as HcG.
    destruct (IH M' l (GcdEnd G + 1)) as (l' & -> & H1 & H2 & H3); try done.
    + intros Hc. rewrite Hc' in Hc. specialize (HM Hc). rewrite HcG in Hc. specialize (HG Hc). rewrite <-HcG in Hc.
      destruct (Hadj Hc) as (Hb & _). unfold page_range in *. cbn. lia.
    + rewrite Hc'. change descriptor_size with 48 in *. repeat case_decide; lia.
    + exists l'. split_and!; try done; [rewrite Hc' in H2; repeat case_decide; lia|].
      intros a. rewrite H3. cbn. unfold M'. rewrite gcd_extend_shows; [by rewrite <-!app_assoc|done| |done|done].
      intros Hc. by destruct (Hadj Hc).
  - destruct (gcd_emit_spec MapSize M l Hl HM) as (l1 & -> & H1 & H2 & H3).
    { change descriptor_size with 48 in *. destruct (gcd_counted M); repeat case_decide; lia. }
    mred. destruct (IH G l1 (GcdEnd G + 1)) as (l' & -> & H1' & H2' & H3'); try done.
    { change descriptor_size with 48 in *. destruct (gcd_counted M), (gcd_counted G); repeat case_decide; try done; lia. }
    exists l'. split_and!; try done.
    + destruct (gcd_counted M), (gcd_counted G); repeat case_decide; try done; lia.
    + intros a. rewrite H3', H3. cbn. by rewrite <-!app_assoc.
Qed.

(* ------------------------------------------------------------------ *)
(** ** The map that is reported *)

Definition tag_kind (st : PAGES) (k : Z * Z) : Z * Z := (k.1, retag st k.1 k.2).
Definition clear_kind (k : Z * Z) : Z * Z := (k.1, Z.ldiff k.2 EFI_MEMORY_ACCESS_MASK).

(** What the descriptors should show of an address: what the memory map says
    of it, with the runtime attribute of its type and conventional memory in
    a bin given the type of the bin, and the region of the GCD map, if one is
    reported; never an access attribute. *)
Definition reported (st : PAGES) (a : Z) : list (Z * Z) :=
  clear_kind <$> (rebin_all st (take 16 (mMemoryTypeStatistics st)) 0 a (tag_kind st <$> cover (gMemoryMap st) a) ++
    concat ((fun G => gcd_shows G a) <$> mGcdMemorySpaceMap st)).

(** The tables the report is made from are in order: the bins are whole pages
    of other than conventional type, the GCD map is a chain of regions of
    which the reported ones are whole pages, and the sizes fit 64 bits. *)
Record map_ok (st : PAGES) : Prop := {
  map_bins : forall i s, take 16 (mMemoryTypeStatistics st) !! i = Some s -> bin_ok (Z.of_nat i) s;
  map_gcd : exists s, gcd_chain s (mGcdMemorySpaceMap st);
  map_size : descriptor_size * (Z.of_nat (length (mGcdMemorySpaceMap st)) + Z.of_nat (length (gMemoryMap st)) + 32) < 2 ^ 64;
}.

Lemma entry_descriptor st E : pages_ok st -> entry_ok E ->
  exists d, SetEfiMemoryDescriptorType st (EntryType E)
    (mkDescriptor 0 (Start E) 0 (EFI_SIZE_TO_PAGES (u64 (End_ E - Start E + 1))) (Attribute E)) = Done d /\
    desc_ok d /\ forall a, shows [d] a = tag_kind st <$> cover [E] a.
Proof.
  intros Hok [Hr HT]. unfold page_range in Hr. rewrite SetType_spec by done. eexists. split; [done|].
  rewrite u64_id, size_to_pages by (lia || dlia). set (d := set_attribute _ _).
  assert (dend d = End_ E + 1) as He by (unfold dend; cbn; dlia).
  split; [unfold desc_ok; rewrite He; cbn; split_and!; dlia|]. intros a. rewrite shows_single, He, cover_singleton.
  unfold show, within. change (PhysicalStart d) with (Start E). destruct (decide _), ((_ <=? a) && _) eqn:Hw; done || lia.
Qed.

Lemma entries_loop_spec st MapSize es l : pages_ok st -> Forall entry_ok es -> Forall desc_ok l ->
  descriptor_size * (Z.of_nat (length l) + Z.of_nat (length es)) <= MapSize ->
  exists l', entries_loop st MapSize es l = Done l' /\ Forall desc_ok l' /\ (length l' <= length l + length es)%nat /\
    forall a, shows l' a ≡ₚ shows l a ++ (tag_kind st <$> cover es a).
Proof.
  intros Hok Hes. revert l. induction Hes as [|E es HE Hes IH]; intros l Hl Hroom; cbn [entries_loop].
  { exists l. split_and!; try done; [cbn; lia|]. intros a. by rewrite cover_nil, app_nil_r. }
  destruct (entry_descriptor st E Hok HE) as (d & -> & Hd & Hs). mred. cbn [length] in Hroom. change descriptor_size with 48 in *.
  unfold emit. change descriptor_size with 48. rewrite decide_False by lia. mred.
  destruct (MergeMemoryMapDescriptor_spec l d Hl Hd) as (H1 & H2 & H3).
  destruct (IH (MergeMemoryMapDescriptor l d)) as (l' & -> & H4 & H5 & H6); [done|lia|].
  exists l'. split_and!; try done; [cbn; lia|]. intros a. rewrite H6, H3, Hs, <-app_assoc, <-fmap_app.
  change (E :: es) with ([E] ++ es). by rewrite cover_app.
Qed.

Lemma shows_clear l a : shows (clear_access <$> l) a = clear_kind <$> shows l a.
Proof.
  induction l as [|d l IH]; [done|]. change (clear_access <$> d :: l) with (clear_access d :: (clear_access <$> l)).
  rewrite !shows_cons, fmap_app, IH. f_equal.
  change (show (clear_kind (dkind d)) (PhysicalStart d) (dend d) a = clear_kind <$> show (dkind d) (PhysicalStart d) (dend d) a).
  unfold show. by destruct (decide _).
Qed.

(** The attributes of conventional memory, once set by the table, are. *)
Lemma tagged_shows st l l0 : pages_ok st -> Forall desc_ok l -> (forall a, shows l a ≡ₚ tag_kind st <$> l0 a) -> Forall (tagged st) l.
Proof.
  intros Hok Hl Hs. apply Forall_forall. intros d Hd HT. rewrite Forall_forall in Hl. pose proof (Hl d Hd) as Hdok.
  assert (dkind d ∈ shows l (PhysicalStart d)) as Hin.
  { apply show_in; [done|done|]. destruct (desc_end d Hdok) as (_ & _ & ? & _). unfold dholds. lia. }
  rewrite Hs in Hin. apply list_elem_of_fmap in Hin as ([t A] & Hk & _). injection Hk as Ht HA. cbn in *. subst t.
  rewrite HA, HT. apply retag_twice; [done|unfold EfiConventionalMemory; lia].
Qed.

Lemma map_descriptors_spec st MapSize : pages_ok st -> map_ok st -> map_buffer_size st <= MapSize ->
  exists l, map_descriptors st MapSize = Done l /\ Forall desc_ok l /\ descriptor_size * Z.of_nat (length l) <= map_buffer_size st /\
    forall a, shows l a ≡ₚ reported st a.
Proof.
  intros Hok [Hbins [s Hgcd] Hsize] Hcap. pose proof (ok_statistics _ Hok) as (Hst & _).
  set (ng := count (fun G => gcd_counted G = true) (mGcdMemorySpaceMap st)).
  set (nb := count (fun s => special_bin s = true) (take 16 (mMemoryTypeStatistics st))).
  assert (ng <= length (mGcdMemorySpaceMap st))%nat as Hng by apply length_filter.
  assert (nb <= 16)%nat as Hnb. { etrans; [apply length_filter|]. rewrite length_take. lia. }
  assert (map_buffer_size st = 48 * (Z.of_nat ng + Z.of_nat (length (gMemoryMap st)) + 2 * Z.of_nat nb)) as Hsz.
  { unfold map_buffer_size. change descriptor_size with 48 in *. fold (count (fun G => gcd_counted G = true) (mGcdMemorySpaceMap st)).
    fold (count (fun s => special_bin s = true) (take 16 (mMemoryTypeStatistics st))). fold ng nb. rewrite u64_id; lia. }
  rewrite Hsz in *. change descriptor_size with 48 in *. unfold map_descriptors.
  destruct (entries_loop_spec st MapSize (gMemoryMap st) [] Hok (ok_entries _ Hok) ltac:(constructor)) as (l1 & -> & H1 & L1 & S1).
  { change descriptor_size with 48. cbn. lia. }
  mred. cbn in L1, S1.
  assert (Forall (tagged st) l1) as Ht1 by (by apply (tagged_shows st l1 (cover (gMemoryMap st)))).
  destruct (bins_loop_spec st Hok MapSize (take 16 (mMemoryTypeStatistics st)) 0 l1) as (l2 & -> & H2 & L2 & S2); try done; try lia.
  { rewrite length_take. lia. }
  { intros a. rewrite S1, length_fmap. apply (ok_disjoint _ Hok). }
  { change descriptor_size with 48. fold nb. lia. }
  fold nb in L2. mred.
  destruct (gcd_loop_spec MapSize (mGcdMemorySpaceMap st) (mkGcd 0 0 0 0 0 0) l2 s H2) as (l3 & -> & H3 & L3 & S3); try done.
  { change descriptor_size with 48. fold ng. change (gcd_counted (mkGcd 0 0 0 0 0 0)) with false. cbn [Nat.add]. lia. }
  fold ng in L3. change (if gcd_counted (mkGcd 0 0 0 0 0 0) then 1%nat else 0%nat) with 0%nat in L3.
  mred. eexists. split; [done|].
  assert (Forall desc_ok (clear_access <$> l3)) as H3' by (apply Forall_fmap; eapply Forall_impl; [done|]; done).
  destruct (MergeMemoryMap_spec (-1) 0 (clear_access <$> l3) H3') as (H4 & S4 & L4 & _); [lia|lia|].
  split; [done|]. split.
  - assert (forall l, Forall desc_ok l -> room (-1) 0 l = length l) as Hroom.
    { intros l Hl. unfold room. assert (forall x, x = -1 \/ x = 0 -> count (crosses x) l = 0%nat) as Hc; [|rewrite !Hc by auto; lia].
      intros x Hx. induction Hl as [|d l Hd Hl IH]; [done|]. rewrite count_cons, IH. rewrite decide_False; [done|].
      destruct Hd as (? & ? & _). unfold crosses. lia. }
    rewrite !Hroom, length_fmap in L4 by done. cbn in L3. lia.
  - intros a. rewrite S4, shows_clear, S3. unfold reported. rewrite S2.
    assert (shows l1 a = tag_kind st <$> cover (gMemoryMap st) a) as ->; [|done].
    apply perm_short; [done|]. rewrite S1, length_fmap. apply (ok_disjoint _ Hok).
Qed.

(** C6: [GetMemoryMap]: a buffer shorter than the bound the code computes is
    refused with that size; without a buffer there is no success; otherwise
    the descriptors fit the bound, so nothing is written past the buffer, and
    they show of every address exactly what [reported] says: what the
    allocator's map says of it, what the bins make of it and what the GCD map
    adds. *)
Theorem CoreGetMemoryMap_correct st MapSize : pages_ok st -> map_ok st ->
  (MapSize < map_buffer_size st -> forall buffer, CoreGetMemoryMap st (Some MapSize) buffer =
     Done (EFI_BUFFER_TOO_SMALL, Some (map_buffer_size st, mMemoryMapKey st), [])) /\
  (map_buffer_size st <= MapSize ->
     CoreGetMemoryMap st (Some MapSize) false = Done (EFI_INVALID_PARAMETER, Some (map_buffer_size st, mMemoryMapKey st), []) /\
     exists l, CoreGetMemoryMap st (Some MapSize) true =
         Done (EFI_SUCCESS, Some (descriptor_size * Z.of_nat (length l), mMemoryMapKey st), l) /\
       descriptor_size * Z.of_nat (length l) <= map_buffer_size st /\ Forall desc_ok l /\ forall a, shows l a ≡ₚ reported st a).
Proof.
  intros Hok Hmap. split.
  - intros Hlt buffer. unfold CoreGetMemoryMap. by rewrite decide_True by done.
  - intros Hle. unfold CoreGetMemoryMap. rewrite !decide_False by lia. split; [done|].
    destruct (map_descriptors_spec st MapSize Hok Hmap Hle) as (l & -> & H1 & H2 & H3). mred. by exists l.
Qed.

(** The map of [demo_pages], whose two entries take 96 bytes. *)
Lemma demo_map_ok : map_ok demo_pages.
Proof.
  constructor; [|by exists 0|done]. intros i s Hi Hs. exfalso.
  assert (Forall (fun s => special_bin s = false) (take 16 (mMemoryTypeStatistics demo_pages))) as Hf by (vm_compute; repeat constructor).
  rewrite (Forall_lookup_1 _ _ _ _ Hf Hi) in Hs. done.
Qed.

Lemma CoreGetMemoryMap_correct_witness : exists l,
  CoreGetMemoryMap demo_pages (Some 96) true = Done (EFI_SUCCESS, Some (descriptor_size * Z.of_nat (length l), mMemoryMapKey demo_pages), l) /\
  forall a, shows l a ≡ₚ reported demo_pages a.
Proof.
  destruct (CoreGetMemoryMap_correct demo_pages 96 (proj1 demo_pages_ok) demo_map_ok) as [_ H].
  destruct H as (_ & l & E & _ & _ & Hs); [vm_compute; discriminate|]. exists l. exact (conj E Hs).
Defined.

(* ------------------------------------------------------------------ *)
(** ** Leaving *)

Section exit_spec.
Context (BeforeExitBootServices ExitBootServicesFailed ExitBootServicesGroup : POOLS -> POOLS).
#[local] Abbreviation exit_boot := (CoreExitBootServices BeforeExitBootServices ExitBootServicesFailed ExitBootServicesGroup).
#[local] Abbreviation notified := (notified BeforeExitBootServices).

Lemma CoreExitBootServices_spec key c : pages_ok (pages (notified c)) ->
  exit_boot key c =
    Done (if decide (key = mMemoryMapKey (pages (notified c)))
          then (EFI_SUCCESS, mkCore (ExitBootServicesGroup (notified c)) true true true)
          else (EFI_INVALID_PARAMETER,
                mkCore (ExitBootServicesFailed (notified c)) true (gMemoryMapTerminated c) (AtRuntime c))).
Proof.
  intros Hok. unfold CoreExitBootServices. rewrite CoreTerminateMemoryMap_spec by done. mred. by destruct (decide (key = _)).
Qed.

(** C34: [ExitBootServices]: a key that is not the one of the map as it is after
    the drivers' last chance is refused, nothing is terminated, and from then
    on no driver is given another chance: the key of the map that a second
    reading shows is accepted, always, and only then is the map terminated
    and the machine at run time. *)
Theorem CoreExitBootServices_correct key c : pages_ok (pages (notified c)) ->
  key <> mMemoryMapKey (pages (notified c)) ->
  exists c1, exit_boot key c = Done (EFI_INVALID_PARAMETER, c1) /\
    gMemoryMapTerminated c1 = gMemoryMapTerminated c /\ AtRuntime c1 = AtRuntime c /\ notified c1 = core_pools c1 /\
    (pages_ok (pages (core_pools c1)) ->
     forall size buffer status size' key' l, CoreGetMemoryMap (pages (core_pools c1)) size buffer = Done (status, Some (size', key'), l) ->
     exists c2, exit_boot key' c1 = Done (EFI_SUCCESS, c2) /\ gMemoryMapTerminated c2 = true /\ AtRuntime c2 = true).
Proof.
  intros Hok Hkey. rewrite CoreExitBootServices_spec, decide_False by done. eexists. split; [done|].
  split; [done|]. split; [done|]. split; [done|]. cbn [core_pools]. set (c1 := mkCore _ _ _ _). intros Hok1 size buffer status size' key' l E.
  assert (key' = mMemoryMapKey (pages (core_pools c1))) as ->.
  { unfold CoreGetMemoryMap in E. destruct size as [size|]; [|done]. destruct (decide _); [by injection E|].
    destruct buffer; [|by injection E]. destruct (map_descriptors _ _); [|done]. by injection E. }
  change (core_pools c1) with (notified c1) in *. rewrite CoreExitBootServices_spec, decide_True by done. by eexists.
Qed.
End exit_spec.

(** A driver whose last act moves the key. *)
Definition demo_notify (p : POOLS) : POOLS := set_pages (set_key (u64 (mMemoryMapKey (pages p) + 1)) (pages p)) p.

Lemma demo_notify_pages_ok p : pages_ok (pages p) -> pages_ok (pages (demo_notify p)).
Proof. intros []; by constructor. Qed.

Lemma CoreExitBootServices_correct_witness : exists c1 c2,
  CoreExitBootServices demo_notify id id 0 (mkCore demo_pool false false false) = Done (EFI_INVALID_PARAMETER, c1) /\
  CoreExitBootServices demo_notify id id 6 c1 = Done (EFI_SUCCESS, c2) /\ gMemoryMapTerminated c2 = true.
Proof.
  destruct (CoreExitBootServices_correct demo_notify id id 0 (mkCore demo_pool false false false)) as (c1 & E & _ & _ & _ & H);
    [apply demo_notify_pages_ok; exact (proj1 demo_pages_ok)|vm_compute; discriminate|].
  assert (c1 = mkCore (demo_notify demo_pool) true false false) as ->.
  { assert (Done (EFI_INVALID_PARAMETER, c1) = Done (EFI_INVALID_PARAMETER, mkCore (demo_notify demo_pool) true false false)) as E'
      by (rewrite <-E; vm_compute; reflexivity). exact (proj2 (Done_pair_inj _ _ _ _ E')). }
  destruct (H (demo_notify_pages_ok demo_pool (proj1 demo_pages_ok)) (Some 0) false EFI_BUFFER_TOO_SMALL 96 6 [] eq_refl) as (c2 & E2 & H2 & _).
  exists (mkCore (demo_notify demo_pool) true false false), c2. exact (conj E (conj E2 H2)).
Defined.
