(* ===== verification/DxeBoot.v ===== *)
(** * Leaving the boot services of the DXE core

    [ExitBootServicesForKernel] of the application, run on the memory services
    of the DXE core as [DxePage], [DxePool] and [DxeMap] model them: the
    firmware here is any firmware whose [GetMemoryMap], [AllocatePool],
    [FreePool] and [ExitBootServices] are the core's.

    The application asks for eight descriptors more than the map has.  The
    buffer for it costs at most four; what is left must be enough for what
    the drivers do when they learn that the boot services end. *)
From Stdlib Require Import ZArith Lia.
From stdpp Require Import base gmap list.
From S2P Require Import Prelude Surface Pixel Cursor Pointer Image Console Kernel Firmware Pci Boot DxePage DxePool DxeMap.
#[local] Open Scope Z_scope.

(* ------------------------------------------------------------------ *)
(** ** The firmware *)

(** The core, and the devices behind the other services. *)
Record DXE_WORLD (W : Type) : Type := mkDxe {
  devices : W;
  dxe : CORE;
}.
Arguments mkDxe {W}.
Arguments devices {W}.
Arguments dxe {W}.

Section firmware.
Context {W : Type} `{Firmware W}.
Context (junk : Z -> HEADER) (fill : Z) (BeforeExitBootServices ExitBootServicesFailed ExitBootServicesGroup : POOLS -> POOLS).

Definition lift {A} (f : W -> A * W) (w : DXE_WORLD W) : A * DXE_WORLD W :=
  let '(a, v) := f (devices w) in (a, mkDxe v (dxe w)).

Definition set_pools (p : POOLS) (w : DXE_WORLD W) : DXE_WORLD W :=
  mkDxe (devices w) (mkCore p (mExitBootServicesCalled (dxe w)) (gMemoryMapTerminated (dxe w)) (AtRuntime (dxe w))).

(** A fault of the core, which its theorems rule out, shows as this error. *)
Definition EFI_DEVICE_ERROR : Z := Z.lor EFI_ERROR_BIT 7.

(** [CoreGetMemoryMap] seen from a caller that gives all four pointers. *)
Definition dxe_GetMemoryMap (args : MAP_ARGS) (p : Z) (w : DXE_WORLD W) : Z * MAP_ARGS * DXE_WORLD W :=
  match CoreGetMemoryMap (pages (core_pools (dxe w))) (Some (MapSize args)) (negb (p =? 0)) with
  | Done (st, Some (size, key), _) => (st, mkMap size key descriptor_size EFI_MEMORY_DESCRIPTOR_VERSION, w)
  | _ => (EFI_DEVICE_ERROR, args, w)
  end.

(** The application's memory grows by the block; what it holds is unknown. *)
Definition dxe_AllocatePool (type size p : Z) (w : DXE_WORLD W) (m : mem) : Z * Z * DXE_WORLD W * mem :=
  match CoreInternalAllocatePool 5 junk type size (Some p) (core_pools (dxe w)) with
  | Done (st, Some p', q) =>
      (st, p', set_pools q w, if decide (st = EFI_SUCCESS) then m ∪ buffer p' (Z.to_nat (size / 4)) fill else m)
  | _ => (EFI_DEVICE_ERROR, p, w, m)
  end.

Definition dxe_FreePool (p : Z) (w : DXE_WORLD W) : DXE_WORLD W :=
  match CoreInternalFreePool 5 junk p (core_pools (dxe w)) with
  | Done (_, _, q) => set_pools q w
  | Fault _ => w
  end.

Definition dxe_ExitBootServices (handle key : Z) (w : DXE_WORLD W) : Z * DXE_WORLD W :=
  match CoreExitBootServices BeforeExitBootServices ExitBootServicesFailed ExitBootServicesGroup key (dxe w) with
  | Done (st, c) => (st, mkDxe (devices w) c)
  | Fault _ => (EFI_DEVICE_ERROR, w)
  end.

Definition dxe_pci (p : Z) : EFI_PCI_IO_PROTOCOL (DXE_WORLD W) :=
  mkPciIo (option_map (fun f width offset count v => lift (f width offset count v)) (Pci_Read (pci_io p)))
    (option_map (fun f l => lift (f l)) (GetLocation (pci_io p))).

#[local] Instance dxe_firmware : Firmware (DXE_WORLD W) := {|
  Stall := option_map (fun f n w => mkDxe (f n (devices w)) (dxe w)) Stall;
  LocateProtocol guid p := lift (LocateProtocol guid p);
  LocateHandleBuffer type guid n := lift (LocateHandleBuffer type guid n);
  HandleProtocol handle guid p := lift (HandleProtocol handle guid p);
  GetMemoryMap := dxe_GetMemoryMap;
  AllocatePool := dxe_AllocatePool;
  FreePool := dxe_FreePool;
  ExitBootServices := dxe_ExitBootServices;
  peek32 a w := peek32 a (devices w);
  peek64 a w := peek64 a (devices w);
  pci_io := dxe_pci;
  rdtsc := lift rdtsc;
|}.
End firmware.

(* ------------------------------------------------------------------ *)
(** ** The map after a few more entries *)

Lemma special_bin_bin s s' : bin s = bin s' -> special_bin s = special_bin s'.
Proof. intros [= ? ? Hn Hs ?]. unfold special_bin. by rewrite Hn, Hs. Qed.

Lemma special_bins_bin l l' : bin <$> l = bin <$> l' ->
  length (filter (fun s => special_bin s = true) l) = length (filter (fun s => special_bin s = true) l').
Proof.
  revert l'. induction l as [|s l IH]; intros [|s' l'] E; try done.
  cbn [fmap list_fmap] in E. assert (bin s = bin s' /\ bin <$> l = bin <$> l') as [Hs E']
    by (split; [exact (f_equal (hd (bin s)) E)|exact (f_equal tail E)]). apply special_bin_bin in Hs.
  rewrite !filter_cons, Hs. case_decide; cbn [length]; by rewrite (IH l') by done.
Qed.

(** No overflow in the size of the map, with room to grow. *)
Definition roomy (st : PAGES) : Prop :=
  descriptor_size * (Z.of_nat (length (mGcdMemorySpaceMap st)) + Z.of_nat (length (gMemoryMap st)) + 64) < 2 ^ 63.

Section kept.
Context (k : nat) (st st' : PAGES) (Hk : kept k st st') (Hk8 : (k <= 8)%nat) (Hroomy : roomy st).

Lemma kept_buffer_size : map_buffer_size st' <= map_buffer_size st + descriptor_size * Z.of_nat k /\ 0 <= map_buffer_size st <= 2 ^ 63.
Proof.
  destruct Hk as (_ & _ & Hg & Hb & Hl). unfold map_buffer_size. rewrite Hg.
  rewrite (special_bins_bin (take 16 (mMemoryTypeStatistics st')) (take 16 (mMemoryTypeStatistics st)))
    by (rewrite !fmap_take; by f_equal).
  pose proof (length_filter (fun G => gcd_counted G = true) (mGcdMemorySpaceMap st)) as Hg'.
  pose proof (length_filter (fun s => special_bin s = true) (take 16 (mMemoryTypeStatistics st))) as Hb'.
  rewrite length_take in Hb'. unfold roomy in Hroomy. change descriptor_size with 48 in *. rewrite !u64_id by lia. lia.
Qed.

Lemma kept_map_ok : map_ok st -> map_ok st'.
Proof.
  intros [Hbins Hgcd Hsize]. destruct Hk as (_ & _ & Hg & Hb & Hl). split.
  - intros i s Hs. assert ((bin <$> take 16 (mMemoryTypeStatistics st')) !! i = Some (bin s)) as Hi by (by rewrite list_lookup_fmap, Hs).
    rewrite fmap_take in Hi. unfold bins in Hb. rewrite Hb, <-fmap_take, list_lookup_fmap in Hi.
    apply fmap_Some in Hi as (s0 & Hs0 & Hbs). pose proof (Hbins i s0 Hs0) as Hok.
    unfold bin_ok in *. rewrite (special_bin_bin _ _ Hbs). injection Hbs as H1 H2 _ _ _. by rewrite H1, H2.
  - by rewrite Hg.
  - rewrite Hg. unfold roomy in Hroomy. change descriptor_size with 48 in *. lia.
Qed.
End kept.

(* ------------------------------------------------------------------ *)
(** ** The rounds of the loop *)

Section exit.
Context {W : Type} `{Firmware W}.
Context (junk : Z -> HEADER) (fill : Z) (BeforeExitBootServices ExitBootServicesFailed ExitBootServicesGroup : POOLS -> POOLS).
#[local] Instance core_firmware : Firmware (DXE_WORLD W) :=
  dxe_firmware junk fill BeforeExitBootServices ExitBootServicesFailed ExitBootServicesGroup.

(** The boot record holds the map of [st] as [GetMemoryMap] gives it for a
    buffer of [size] bytes at [p]: where the buffer is, how long the descriptors
    [l] written to it are, which show of every address what they should, and
    the key. *)
Definition recorded (p size : Z) (st : PAGES) (b b' : KERNEL_BOOT_INFO) : Prop :=
  exists l, CoreGetMemoryMap st (Some size) true = Done (EFI_SUCCESS, Some (descriptor_size * Z.of_nat (length l), mMemoryMapKey st), l) /\
    b' = set_map b p (mkMap (descriptor_size * Z.of_nat (length l)) (mMemoryMapKey st) descriptor_size EFI_MEMORY_DESCRIPTOR_VERSION) /\
    descriptor_size * Z.of_nat (length l) <= size /\ Forall desc_ok l /\ forall a, shows l a ≡ₚ reported st a.

(** At run time, the memory map as [q] left it terminated. *)
Definition left_behind (q : POOLS) (w : DXE_WORLD W) : DXE_WORLD W :=
  mkDxe (devices w) (mkCore (ExitBootServicesGroup q) true true true).

Lemma GetMemoryMap_dxe size p (w : DXE_WORLD W) : let st := pages (core_pools (dxe w)) in pages_ok st -> map_ok st ->
  (size < map_buffer_size st -> forall args, MapSize args = size -> GetMemoryMap args p w =
     (EFI_BUFFER_TOO_SMALL, mkMap (map_buffer_size st) (mMemoryMapKey st) descriptor_size EFI_MEMORY_DESCRIPTOR_VERSION, w)) /\
  (p <> 0 -> map_buffer_size st <= size -> exists l,
     CoreGetMemoryMap st (Some size) true = Done (EFI_SUCCESS, Some (descriptor_size * Z.of_nat (length l), mMemoryMapKey st), l) /\
     descriptor_size * Z.of_nat (length l) <= size /\ Forall desc_ok l /\ (forall a, shows l a ≡ₚ reported st a) /\
     forall args, MapSize args = size -> GetMemoryMap args p w =
     (EFI_SUCCESS, mkMap (descriptor_size * Z.of_nat (length l)) (mMemoryMapKey st) descriptor_size EFI_MEMORY_DESCRIPTOR_VERSION, w)).
Proof.
  intros st Hok Hmap. split; intros Hp.
  - intros args <-. change (GetMemoryMap args p w) with (dxe_GetMemoryMap args p w). unfold dxe_GetMemoryMap, CoreGetMemoryMap. fold st.
    by rewrite decide_True by done.
  - intros Hsz. destruct (map_descriptors_spec st size Hok Hmap Hsz) as (l & E & H1 & H2 & H3). exists l.
    split; [unfold CoreGetMemoryMap; rewrite decide_False by lia; cbn [negb]; by rewrite E|]. split; [lia|]. split; [done|]. split; [done|].
    intros args Ha. change (GetMemoryMap args p w) with (dxe_GetMemoryMap args p w). unfold dxe_GetMemoryMap, CoreGetMemoryMap. fold st.
    rewrite Ha, decide_False by lia. apply Z.eqb_neq in Hp. rewrite Hp. cbn [negb]. by rewrite E.
Qed.

Lemma ExitBootServices_dxe handle key (w : DXE_WORLD W) :
  let q := notified BeforeExitBootServices (dxe w) in pages_ok (pages q) ->
  ExitBootServices handle key w = if decide (key = mMemoryMapKey (pages q)) then (EFI_SUCCESS, left_behind q w)
    else (EFI_INVALID_PARAMETER, mkDxe (devices w)
           (mkCore (ExitBootServicesFailed q) true (gMemoryMapTerminated (dxe w)) (AtRuntime (dxe w)))).
Proof.
  intros q Hok. change (ExitBootServices handle key w) with
    (dxe_ExitBootServices BeforeExitBootServices ExitBootServicesFailed ExitBootServicesGroup handle key w). unfold dxe_ExitBootServices.
  rewrite CoreExitBootServices_spec by done. fold q. by destruct (decide _).
Qed.

(** One round of the loop: the map no longer fits, or it does and the key
    decides. *)
Lemma exit_round handle p size b (w : DXE_WORLD W) :
  let q0 := core_pools (dxe w) in let q := notified BeforeExitBootServices (dxe w) in
  p <> 0 -> pages_ok (pages q0) -> map_ok (pages q0) -> pages_ok (pages q) ->
  (size < map_buffer_size (pages q0) -> forall fuel args, exit_loop (S fuel) handle p size args b w = Done (EFI_BUFFER_TOO_SMALL, b, w)) /\
  (map_buffer_size (pages q0) <= size -> exists b', recorded p size (pages q0) b b' /\ forall fuel args, exists args',
     exit_loop (S fuel) handle p size args b w =
       if decide (mMemoryMapKey (pages q0) = mMemoryMapKey (pages q)) then Done (EFI_SUCCESS, b', left_behind q w)
       else exit_loop fuel handle p size args' b' (mkDxe (devices w)
              (mkCore (ExitBootServicesFailed q) true (gMemoryMapTerminated (dxe w)) (AtRuntime (dxe w))))).
Proof.
  intros q0 q Hp Hok0 Hmap0 Hok. destruct (GetMemoryMap_dxe size p w Hok0 Hmap0) as [Hsmall Hfit].
  split; intros Hsz; [intros fuel args; cbn [exit_loop]; by rewrite Hsmall|].
  destruct Hfit as (l & H1 & H2 & H3 & H4 & Hrun); [done|done|]. eexists (set_map b p _). split; [by exists l|].
  intros fuel args. cbn [exit_loop]. rewrite Hrun by done. eexists.
  change (EFI_SUCCESS =? EFI_SUCCESS) with true. cbn [negb MapKey]. rewrite ExitBootServices_dxe by done. fold q q0.
  by destruct (decide _).
Qed.

Lemma recorded_twice p size st1 st2 b b1 b2 : recorded p size st1 b b1 -> recorded p size st2 b1 b2 -> recorded p size st2 b b2.
Proof. intros (l1 & _ & -> & _) (l2 & E2 & -> & Hl). by exists l2. Qed.

(** The core after a first refusal. *)
Definition retry (q : POOLS) : POOLS := ExitBootServicesFailed (BeforeExitBootServices q).

(** The state the drivers find: that of the application's start, but for the
    buffer it has allocated. *)
Definition buffered (st : PAGES) (q : POOLS) : Prop :=
  (exists live ar, pool_wf junk live ar q) /\ map_ok (pages q) /\ kept 4 st (pages q).

(** What they do when they learn that the boot services end leaves the memory
    map in order. *)
Definition drivers_ok (st : PAGES) : Prop := forall q, buffered st q ->
  pages_ok (pages (BeforeExitBootServices q)) /\ pages_ok (pages (retry q)) /\ map_ok (pages (retry q)).

(** The buffer the application asks for, and the pages the pool may need. *)
Definition request (st : PAGES) : Z := map_buffer_size st + descriptor_size * 8.
Definition request_pages (st : PAGES) : Z :=
  let S := block_size (request st) in if decide (7 <= GetPoolIndexFromSize S) then block_pages S 4096 else 1.

(** The machine before the application leaves. *)
Record ready_to_leave (live : gmap Z (Z * Z)) (ar : gmap Z arena) (w : DXE_WORLD W) : Prop := {
  ready_wf : pool_wf junk live ar (core_pools (dxe w));
  ready_map : map_ok (pages (core_pools (dxe w)));
  ready_roomy : roomy (pages (core_pools (dxe w)));
  ready_first : mExitBootServicesCalled (dxe w) = false;
  ready_ample : ample MAX_ALLOC_ADDRESS EfiBootServicesData (request_pages (pages (core_pools (dxe w)))) (pages (core_pools (dxe w)));
  ready_free : exists a, 0 < a /\ free_at (gMemoryMap (pages (core_pools (dxe w)))) MAX_ALLOC_ADDRESS 0 (request_pages (pages (core_pools (dxe w)))) a;
}.

(** The buffer is allocated, at the cost of at most four entries. *)
Lemma buffer_dxe live ar m (w : DXE_WORLD W) : let st := pages (core_pools (dxe w)) in ready_to_leave live ar w ->
  exists a ar' q, AllocatePool EFI_BOOT_SERVICES_DATA (request st) 0 w m =
      (EFI_SUCCESS, a + SIZE_OF_POOL_HEAD, set_pools q w, m ∪ buffer (a + SIZE_OF_POOL_HEAD) (Z.to_nat (request st / 4)) fill) /\
    0 < a /\ live !! a = None /\ pool_wf junk (<[a := (EfiBootServicesData, block_size (request st))]> live) ar' q /\
    map_ok (pages q) /\ kept 4 st (pages q) /\ map_buffer_size (pages q) <= request st - descriptor_size * 4.
Proof.
  intros st [Hwf Hmap Hroomy Hfirst Hample Hfree]. fold st in Hmap, Hroomy, Hample, Hfree.
  change (AllocatePool EFI_BOOT_SERVICES_DATA (request st) 0 w m) with (dxe_AllocatePool junk fill EfiBootServicesData (request st) 0 w m).
  destruct (kept_buffer_size 0 st st (kept_refl 0 st) ltac:(lia) Hroomy) as [_ Hsz].
  assert (allocatable EfiBootServicesData /\ EfiBootServicesData < 16) as [HT HT'] by (split; [split_and!; [done|by left|done..]|done]).
  unfold dxe_AllocatePool.
  destruct (AllocatePool_spec junk 5 live ar (core_pools (dxe w)) EfiBootServicesData (request st) 0 ltac:(lia) Hwf HT HT') as
    [(a & ar' & q & -> & Ha & Hla & _ & _ & Hwf' & Hk)|[_ Hno]].
  { unfold request. change descriptor_size with 48. lia. } { exact Hample. }
  - exists a, ar', q. rewrite decide_True by done. do 4 (split; [done|]). split; [|split; [done|]].
    + apply (kept_map_ok 4 st); [done|lia|done|done].
    + destruct (kept_buffer_size 4 st (pages q) Hk ltac:(lia) Hroomy) as [? _]. unfold request. change descriptor_size with 48 in *. lia.
  - exfalso. destruct Hfree as (b & Hb & Hfr). by apply (Hno b).
Qed.

(** The whole of it: one round if the drivers leave the map alone, else a
    second one, for which the buffer must still be long enough. *)
Lemma ExitBootServicesForKernel_dxe_spec handle b m (w : DXE_WORLD W) live ar :
  let st := pages (core_pools (dxe w)) in drivers_ok st -> ready_to_leave live ar w ->
  exists p q m', AllocatePool EFI_BOOT_SERVICES_DATA (request st) 0 w m = (EFI_SUCCESS, p, set_pools q w, m') /\ m ⊆ m' /\ buffered st q /\ map_buffer_size (pages q) <= request st - descriptor_size * 4 /\
    let same := mMemoryMapKey (pages q) = mMemoryMapKey (pages (BeforeExitBootServices q)) in
    (same -> exists b', recorded p (request st) (pages q) b b' /\ forall fuel, (2 <= fuel)%nat ->
       ExitBootServicesForKernel fuel handle b m w = Done (EFI_SUCCESS, b', m', left_behind (BeforeExitBootServices q) w)) /\
    (~ same -> map_buffer_size (pages (retry q)) <= request st -> exists b', recorded p (request st) (pages (retry q)) b b' /\ forall fuel, (2 <= fuel)%nat ->
       ExitBootServicesForKernel fuel handle b m w = Done (EFI_SUCCESS, b', m', left_behind (retry q) w)) /\
    (~ same -> request st < map_buffer_size (pages (retry q)) -> exists b', recorded p (request st) (pages q) b b' /\ forall fuel, (2 <= fuel)%nat ->
       ExitBootServicesForKernel fuel handle b m w = Done (EFI_BUFFER_TOO_SMALL, b', m',
         mkDxe (devices w) (mkCore (retry q) true (gMemoryMapTerminated (dxe w)) (AtRuntime (dxe w))))).
Proof.
  intros st Hdrv Hready. destruct (buffer_dxe live ar m w Hready) as (a & ar' & q & Halloc & Ha & Hla & Hwf & Hmap & Hkept & Hsz).
  pose proof Hready as [[Hinv0 _] Hmap0 Hroomy Hfirst _ Hfree]. fold st in Halloc, Hsz, Hwf, Hkept, Hmap0, Hroomy, Hfree.
  destruct (kept_buffer_size 0 st st (kept_refl 0 st) ltac:(lia) Hroomy) as [_ Hsz0].
  assert (0 < map_buffer_size st) as Hpos.
  { destruct Hfree as (x & _ & E & HE & _). destruct (gMemoryMap st) as [|E0 l] eqn:Hm; [by apply elem_of_nil in HE|].
    pose proof (length_filter (fun G => gcd_counted G = true) (mGcdMemorySpaceMap st)).
    pose proof (length_filter (fun s => special_bin s = true) (take 16 (mMemoryTypeStatistics st))) as Hb. rewrite length_take in Hb.
    unfold map_buffer_size. unfold roomy in Hroomy. rewrite Hm in *. change descriptor_size with 48 in *. cbn [length] in *. rewrite u64_id; lia. }
  set (p := a + SIZE_OF_POOL_HEAD). assert (p <> 0) as Hp by (unfold p, SIZE_OF_POOL_HEAD; lia).
  assert (buffered st q) as Hbuf by (split; [by eexists _, _|done]).
  destruct (Hdrv q Hbuf) as (Hok1 & Hok2 & Hmap2). pose proof Hwf as [Hinv _].
  set (m' := m ∪ buffer p (Z.to_nat (request st / 4)) fill). set (w1 := set_pools q w).
  assert (notified BeforeExitBootServices (dxe w1) = BeforeExitBootServices q) as Hn.
  { unfold notified, w1, set_pools. cbn [dxe mExitBootServicesCalled core_pools]. by rewrite Hfirst. }
  assert (forall fuel, exists args, ExitBootServicesForKernel fuel handle b m w =
    ('(Status, b, w) ← exit_loop fuel handle p (request st) args b w1; Done (Status, b, m', w))) as Hrun.
  { intros fuel. unfold ExitBootServicesForKernel.
    destruct (GetMemoryMap_dxe 0 0 w (proj1 (wf_pages _ _ _ _ _ Hinv0)) Hmap0) as [Hsmall _]. rewrite Hsmall by (exact Hpos || done).
    change (EFI_BUFFER_TOO_SMALL =? EFI_BUFFER_TOO_SMALL) with true. cbn [negb MapSize DescriptorSize]. fold st.
    assert (u64 (map_buffer_size st + u64 (descriptor_size * 8)) = request st) as ->.
    { unfold request. change descriptor_size with 48. change (u64 (48 * 8)) with (48 * 8). rewrite u64_id; lia. }
    rewrite Halloc. by eexists. }
  exists p, q, m'. split; [exact Halloc|]. split; [apply map_union_subseteq_l|]. do 2 (split; [done|]). cbn zeta.
  destruct (exit_round handle p (request st) b w1 Hp (proj1 (wf_pages _ _ _ _ _ Hinv)) Hmap) as [_ H1]; [by rewrite Hn|];
    destruct H1 as (b1 & Hb1 & H1); [change descriptor_size with 48 in *; cbn [w1 set_pools dxe core_pools]; lia|]; rewrite Hn in H1;
    cbn [w1 set_pools dxe core_pools devices gMemoryMapTerminated AtRuntime] in H1, Hb1.
  change (ExitBootServicesFailed (BeforeExitBootServices q)) with (retry q) in H1.
  split; [|split].
  - intros Hsame. exists b1. split; [done|]. intros [|fuel] Hf; [lia|]. destruct (Hrun (S fuel)) as [args Hr]. rewrite Hr.
    destruct (H1 fuel args) as [args' H1']. rewrite H1', decide_True by done. done.
  - intros Hne Hfit. set (w2 := mkDxe (devices w) (mkCore (retry q) true (gMemoryMapTerminated (dxe w)) (AtRuntime (dxe w)))) in H1.
    destruct (exit_round handle p (request st) b1 w2 Hp Hok2 Hmap2 Hok2) as [_ H2]. destruct (H2 Hfit) as (b2 & Hb2 & H2').
    exists b2. split; [by eapply recorded_twice|]. intros [|[|fuel]] Hf; [lia..|]. destruct (Hrun (S (S fuel))) as [args Hr]. rewrite Hr.
    destruct (H1 (S fuel) args) as [args1 H1']. rewrite H1', decide_False by done.
    destruct (H2' fuel args1) as [args2 H2'']. rewrite H2'', decide_True by done. done.
  - intros Hne Hsm. set (w2 := mkDxe (devices w) (mkCore (retry q) true (gMemoryMapTerminated (dxe w)) (AtRuntime (dxe w)))) in H1.
    destruct (exit_round handle p (request st) b1 w2 Hp Hok2 Hmap2 Hok2) as [H2 _].
    exists b1. split; [done|]. intros [|[|fuel]] Hf; [lia..|]. destruct (Hrun (S (S fuel))) as [args Hr]. rewrite Hr.
    destruct (H1 (S fuel) args) as [args1 H1']. rewrite H1', decide_False by done. by rewrite H2.
Qed.

(** C7: Leaving the DXE core.  The pool and the memory map are in order, with all
    memory tested, and have room for the application's buffer, no exit has been tried before
    ([ready_to_leave]), and the drivers, told that the boot services end, leave
    the memory map in order and, after a refusal, four descriptors at most
    longer.  Then two rounds are enough: [ExitBootServicesForKernel] succeeds
    and the core is at run time.  The buffer is the block [AllocatePool] gives;
    [q] is the core after that.  If the drivers leave the key alone, the map
    that is recorded is that of [q], and that of the drivers' state is
    terminated; if not, the map is read again, and it is the map of that very
    state that is recorded and terminated.  Recorded are the buffer, the key
    and the size of the descriptors that the reading gives, which show of every
    address exactly what that state reports; the key is that of the map which
    is terminated. *)
Theorem ExitBootServicesForKernel_dxe handle b m (w : DXE_WORLD W) live ar :
  let st := pages (core_pools (dxe w)) in drivers_ok st ->
  (forall q, buffered st q -> map_buffer_size (pages (retry q)) <= map_buffer_size (pages q) + descriptor_size * 4) ->
  ready_to_leave live ar w ->
  exists p q m', AllocatePool EFI_BOOT_SERVICES_DATA (request st) 0 w m = (EFI_SUCCESS, p, set_pools q w, m') /\ m ⊆ m' /\
    let same := bool_decide (mMemoryMapKey (pages q) = mMemoryMapKey (pages (BeforeExitBootServices q))) in
    let read := if same then q else retry q in
    let left := if same then BeforeExitBootServices q else retry q in
    exists b', (forall fuel, (2 <= fuel)%nat ->
        ExitBootServicesForKernel fuel handle b m w = Done (EFI_SUCCESS, b', m', left_behind left w)) /\
      recorded p (request st) (pages read) b b' /\ mMemoryMapKey (pages read) = mMemoryMapKey (pages left) /\
      gMemoryMapTerminated (dxe (left_behind left w)) = true /\ AtRuntime (dxe (left_behind left w)) = true.
Proof.
  intros st Hdrv Hgrow Hready.
  destruct (ExitBootServicesForKernel_dxe_spec handle b m w live ar Hdrv Hready) as (p & q & m' & Ha & Hm & Hbuf & Hsz & H1 & H2 & _).
  specialize (Hgrow q Hbuf). fold st in Hsz, H2. exists p, q, m'. do 2 (split; [done|]). cbn zeta.
  case_bool_decide as Hs.
  - destruct (H1 Hs) as (b' & Hb' & Hrun). by exists b'.
  - destruct (H2 Hs) as (b' & Hb' & Hrun); [lia|]. by exists b'.
Qed.

(** Drivers that change the map and leave it longer than the buffer make
    the second reading fail: [ExitBootServicesForKernel] gives up with
    [EFI_BUFFER_TOO_SMALL], which no longer buffer is tried for, the map is
    not terminated, and the drivers have had their last chance. *)
Theorem ExitBootServicesForKernel_dxe_gives_up handle b m (w : DXE_WORLD W) live ar :
  let st := pages (core_pools (dxe w)) in drivers_ok st ->
  (forall q, buffered st q -> mMemoryMapKey (pages q) <> mMemoryMapKey (pages (BeforeExitBootServices q)) /\
     request st < map_buffer_size (pages (retry q))) ->
  ready_to_leave live ar w ->
  exists c b' m', (forall fuel, (2 <= fuel)%nat ->
      ExitBootServicesForKernel fuel handle b m w = Done (EFI_BUFFER_TOO_SMALL, b', m', mkDxe (devices w) c)) /\
    mExitBootServicesCalled c = true /\ gMemoryMapTerminated c = gMemoryMapTerminated (dxe w) /\ AtRuntime c = AtRuntime (dxe w).
Proof.
  intros st Hdrv Hgrow Hready.
  destruct (ExitBootServicesForKernel_dxe_spec handle b m w live ar Hdrv Hready) as (p & q & m' & _ & Hm & Hbuf & _ & _ & _ & H3).
  destruct (Hgrow q Hbuf) as [Hs Hl]. destruct (H3 Hs Hl) as (b' & _ & Hrun).
  by exists (mkCore (retry q) true (gMemoryMapTerminated (dxe w)) (AtRuntime (dxe w))), b', m'.
Qed.
End exit.

(* ------------------------------------------------------------------ *)
(** ** A concrete core, for the witnesses *)

Definition demo_core : DXE_WORLD MACHINE := mkDxe (mkMachine [] 4096 7 0 0) (mkCore demo_pool false false false).

Lemma demo_core_ready : ready_to_leave demo_junk ∅ ∅ demo_core.
Proof.
  constructor; cbn [demo_core dxe core_pools mExitBootServicesCalled].
  - exact demo_pool_wf.
  - exact demo_map_ok.
  - vm_compute. reflexivity.
  - reflexivity.
  - intros r A _ _. left. vm_compute. lia.
  - exists 0x1000. split; [lia|]. apply demo_free. vm_compute. split; [reflexivity|discriminate].
Qed.

Lemma demo_notify_ok : drivers_ok demo_junk demo_notify id demo_pages.
Proof.
  intros q ((live & ar & [Hinv _]) & Hmap & _). pose proof (demo_notify_pages_ok q (proj1 (wf_pages _ _ _ _ _ Hinv))) as Hok.
  split; [done|]. split; [done|]. destruct Hmap. by constructor.
Qed.

Lemma ExitBootServicesForKernel_dxe_witness : exists b' m' w',
  ExitBootServicesForKernel (H := core_firmware demo_junk 0 demo_notify id id) 2 1 demo_record ∅ demo_core = Done (EFI_SUCCESS, b', m', w') /\
  AtRuntime (dxe w') = true.
Proof.
  destruct (ExitBootServicesForKernel_dxe demo_junk 0 demo_notify id id 1 demo_record ∅ demo_core ∅ ∅ demo_notify_ok)
    as (p & q & m' & _ & _ & b' & Hrun & _ & _ & _ & Hrt); [|exact demo_core_ready|].
  - intros q _. change (map_buffer_size (pages (retry demo_notify id q))) with (map_buffer_size (pages q)). change descriptor_size with 48. lia.
  - exists b', m'. eexists. exact (conj (Hrun 2%nat (le_n 2)) Hrt).
Defined.

(** Drivers that cut the memory up: eleven entries, where the buffer is for
    ten. *)
Fixpoint ascending (lo : Z) (l : list MEMORY_MAP) : Prop :=
  match l with [] => True | E :: l => lo < Start E /\ Start E <= End_ E /\ ascending (End_ E) l end.

Lemma ascending_cover lo l : ascending lo l -> (forall a, a <= lo -> cover l a = []) /\ forall a, (length (cover l a) <= 1)%nat.
Proof.
  revert lo. induction l as [|E l IH]; intros lo; [split; [done|intros; cbn; lia]|]. intros (Hlo & Hse & Hl).
  destruct (IH _ Hl) as [Hnil Hone]. split; intros a.
  - intros Ha. rewrite cover_cons, Hnil by lia. replace (within _ _ a) with false by (unfold within; lia). done.
  - rewrite cover_cons. destruct (within _ _ a) eqn:Hw; [|apply Hone]. rewrite Hnil by (unfold within in Hw; lia). done.
Qed.

Definition crowd : list MEMORY_MAP :=
  (fun i => mkEntry None EfiBootServicesData (i * 0x2000) (i * 0x2000 + 0xFFF) 15) <$> seqZ 1 11.

Definition demo_crowd (p : POOLS) : POOLS :=
  set_pages (set_entries crowd (set_key (u64 (mMemoryMapKey (pages p) + 1)) (pages p))) p.

Lemma demo_crowd_ok : drivers_ok demo_junk demo_crowd id demo_pages.
Proof.
  intros q ((live & ar & [Hinv _]) & [Hbins Hgcd Hsize] & (_ & _ & Hg & _)).
  destruct (wf_pages _ _ _ _ _ Hinv) as ([_ _ _ Ht] & _). assert (ascending 0 crowd) as Hasc by (vm_compute; repeat (split; [first [reflexivity|discriminate]|]); exact I).
  assert (pages_ok (pages (demo_crowd q))) as Hok.
  { constructor; [|apply (ascending_cover 0 crowd Hasc)| |exact Ht].
    - cbn [demo_crowd pages set_pages set_entries gMemoryMap]. apply Forall_fmap, Forall_forall. intros i Hi%elem_of_seqZ. cbn. unfold entry_ok, page_range. cbn. split_and!; done || lia || dlia.
    - split; [apply NoDup_nil_2|constructor]. }
  split; [done|]. split; [done|]. constructor; [exact Hbins|exact Hgcd|].
  cbn [retry demo_crowd pages set_pages set_entries set_key mGcdMemorySpaceMap gMemoryMap id]. rewrite Hg. vm_compute. reflexivity.
Qed.

Lemma ExitBootServicesForKernel_dxe_gives_up_witness : exists b' m' w',
  ExitBootServicesForKernel (H := core_firmware demo_junk 0 demo_crowd id id) 2 1 demo_record ∅ demo_core = Done (EFI_BUFFER_TOO_SMALL, b', m', w') /\
  AtRuntime (dxe w') = false.
Proof.
  destruct (ExitBootServicesForKernel_dxe_gives_up demo_junk 0 demo_crowd id id 1 demo_record ∅ demo_core ∅ ∅ demo_crowd_ok)
    as (c & b' & m' & Hrun & _ & _ & Hrt); [|exact demo_core_ready|].
  - intros q ((live & ar & [Hinv _]) & _ & (_ & _ & Hg & Hb & _)). split.
    + intros E. exact (u64_succ_neq _ (proj2 (proj2 (proj1 (proj2 (wf_pages _ _ _ _ _ Hinv))))) (eq_sym E)).
    + unfold map_buffer_size. cbn [retry demo_crowd pages set_pages set_entries set_key mGcdMemorySpaceMap gMemoryMap mMemoryTypeStatistics id].
      rewrite Hg. rewrite (special_bins_bin _ (take 16 (mMemoryTypeStatistics demo_pages))) by (rewrite !fmap_take; by f_equal).
      vm_compute. reflexivity.
  - exists b', m', (mkDxe (devices demo_core) c). exact (conj (Hrun 2%nat (le_n 2)) Hrt).
Defined.
