(* ===== verification/Heap.v ===== *)
(** * The pool, as its clients see it

    [AllocatePool] and [FreePool] are the class [Heap], functions on an
    abstract heap; [HeapWf] states what a client relies on: a block that is
    handed out is no part of any block in use, and stays in use until it is
    given back.  [bump_heap] is a heap that keeps the laws. *)
From Stdlib Require Import ZArith Lia.
From stdpp Require Import base gmap list.
From S2P Require Import Prelude.
#[local] Open Scope Z_scope.

(** An address or nothing, and giving an address back. *)
Class Heap (H : Type) : Type := {
  heap_alloc : Z -> H -> option Z * H;
  heap_free : Z -> H -> H;
}.

(** Two blocks of memory have no byte in common. *)
Definition apart (p n q m : Z) : Prop := p + n <= q \/ q + m <= p.

(** [heap_live] maps the blocks in use to their sizes. *)
Class HeapWf (H : Type) `{Heap H} : Type := {
  heap_ok : H -> Prop;
  heap_live : H -> gmap Z Z;
  live_range : forall h p n, heap_ok h -> heap_live h !! p = Some n -> 0 < p /\ 0 <= n /\ p + n <= 2 ^ 64;
  alloc_some : forall h size p h', heap_ok h -> 0 <= size -> heap_alloc size h = (Some p, h') ->
    heap_ok h' /\ heap_live h !! p = None /\ heap_live h' = <[p := size]> (heap_live h) /\
    (forall q n, heap_live h !! q = Some n -> apart p size q n);
  alloc_none : forall h size h', heap_ok h -> 0 <= size -> heap_alloc size h = (None, h') ->
    heap_ok h' /\ heap_live h' = heap_live h;
  free_live : forall h p, heap_ok h -> is_Some (heap_live h !! p) ->
    heap_ok (heap_free p h) /\ heap_live (heap_free p h) = delete p (heap_live h);
}.

Section laws.
Context {H : Type} `{HeapWf H}.

(** A block from the heap is at a positive address below the end. *)
Lemma alloc_range h size p h' : heap_ok h -> 0 <= size -> heap_alloc size h = (Some p, h') ->
  0 < p /\ p + size <= 2 ^ 64.
Proof.
  intros Hok Hs Ha. destruct (alloc_some _ _ _ _ Hok Hs Ha) as (Hok' & _ & HL & _).
  destruct (live_range h' p size Hok') as (? & _ & ?); [rewrite HL; apply lookup_insert_eq|lia].
Qed.
End laws.

(* ------------------------------------------------------------------ *)
(** ** A heap that keeps the laws *)

(** The first address not handed out yet, the blocks in use and how many more
    will be handed out. *)
Record BUMP : Type := mkBump {
  bump_next : Z;
  bump_live : gmap Z Z;
  bump_left : nat;
}.

Definition bump_alloc (size : Z) (h : BUMP) : option Z * BUMP :=
  match bump_left h with
  | O => (None, h)
  | S n => if decide (0 <= size /\ bump_next h + size + 16 < 2 ^ 64)
           then (Some (bump_next h), mkBump (bump_next h + size + 16) (<[bump_next h := size]> (bump_live h)) n)
           else (None, h)
  end.

#[export] Instance bump_heap : Heap BUMP := {
  heap_alloc := bump_alloc;
  heap_free p h := mkBump (bump_next h) (delete p (bump_live h)) (bump_left h);
}.

Definition bump_ok (h : BUMP) : Prop :=
  0 < bump_next h < 2 ^ 64 /\ forall p n, bump_live h !! p = Some n -> 0 < p /\ 0 <= n /\ p + n < bump_next h.

Lemma bump_alloc_inv size h : bump_ok h -> 0 <= size ->
  bump_alloc size h = (None, h) \/
  exists h', bump_alloc size h = (Some (bump_next h), h') /\ bump_ok h' /\ bump_live h' = <[bump_next h := size]> (bump_live h).
Proof.
  intros [Hn Hl] Hs. unfold bump_alloc. destruct (bump_left h) as [|n]; [by left|].
  destruct (decide (0 <= size /\ bump_next h + size + 16 < 2 ^ 64)) as [[_ Hlt]|]; [right|by left].
  eexists. split; [reflexivity|]. split; [|reflexivity]. split; simpl; [lia|].
  intros p m Hp. apply lookup_insert_Some in Hp as [[<- <-]|[_ Hp]]; [lia|]. specialize (Hl _ _ Hp). lia.
Qed.

#[export] Instance bump_wf : HeapWf BUMP.
Proof.
  refine {| heap_ok := bump_ok; heap_live := bump_live |}.
  - intros h p n [Hn Hl] Hp. specialize (Hl _ _ Hp). lia.
  - intros h size p h' Hok Hs Ha. destruct (bump_alloc_inv size h Hok Hs) as [E|(h2 & E & Hok' & Hl)];
      simpl in Ha; rewrite E in Ha; simplify_eq.
    destruct Hok as [Hn HL]. split; [done|]. split; [|split; [done|]].
    + destruct (bump_live h !! bump_next h) as [m|] eqn:Em; [|done]. specialize (HL _ _ Em). lia.
    + intros q n Hq. specialize (HL _ _ Hq). right. lia.
  - intros h size h' Hok Hs Ha. destruct (bump_alloc_inv size h Hok Hs) as [E|(h2 & E & _)];
      simpl in Ha; rewrite E in Ha; by simplify_eq.
  - intros h p [Hn Hl] _. split; [|reflexivity]. split; simpl; [lia|].
    intros q n Hq. apply lookup_delete_Some in Hq as [_ Hq]. by apply Hl.
Defined.
