(* ===== verification/DevicePath.v ===== *)
(** * Device paths

    [MdePkg/Library/UefiDevicePathLib/DevicePathUtilities.c] of [src/edk2]: a
    device path is a run of nodes in memory, each with its type, sub-type and
    length in its first four bytes, up to an end node.  Memory is a function
    from address to byte, an address a 64-bit number, the pool the class
    [Heap].  [encode] gives the bytes of a list of nodes; the theorems say
    that the library accepts exactly the encodings ([IsDevicePathValid]), and
    what appending paths, nodes and instances and taking instances off again
    do to the nodes.  The walks over nodes run on fuel: more than there are
    nodes is enough. *)
From Stdlib Require Import ZArith Lia.
From stdpp Require Import base gmap list.
From S2P Require Import Prelude Heap.
#[local] Open Scope Z_scope.

(* ------------------------------------------------------------------ *)
(** ** Nodes in memory *)

Definition END_DEVICE_PATH_TYPE : Z := 0x7f.
Definition END_ENTIRE_DEVICE_PATH_SUBTYPE : Z := 0xFF.
Definition END_INSTANCE_DEVICE_PATH_SUBTYPE : Z := 0x01.
Definition END_DEVICE_PATH_LENGTH : Z := 4.
Definition MEDIA_DEVICE_PATH : Z := 0x04.
Definition MEDIA_FILEPATH_DP : Z := 0x04.
Definition PcdMaximumDevicePathNodeCount : Z := 0.
Definition MAX_UINTN : Z := 0xFFFFFFFFFFFFFFFF.

(** The byte at an address. *)
Abbreviation MEMORY := (Z -> Z).

(** The bytes of [mUefiDevicePathLibEndDevicePath]. *)
Definition mUefiDevicePathLibEndDevicePath : list Z :=
  [END_DEVICE_PATH_TYPE; END_ENTIRE_DEVICE_PATH_SUBTYPE; END_DEVICE_PATH_LENGTH; 0].

Definition ReadUnaligned16 (p : Z) (m : MEMORY) : Z := m (u64 p) + 256 * m (u64 (p + 1)).

Definition DevicePathType (Node : Z) (m : MEMORY) : Z := m (u64 Node).
Definition DevicePathSubType (Node : Z) (m : MEMORY) : Z := m (u64 (Node + 1)).
Definition DevicePathNodeLength (Node : Z) (m : MEMORY) : Z := ReadUnaligned16 (Node + 2) m.
Definition NextDevicePathNode (Node : Z) (m : MEMORY) : Z := u64 (Node + DevicePathNodeLength Node m).
Definition IsDevicePathEndType (Node : Z) (m : MEMORY) : bool := DevicePathType Node m =? END_DEVICE_PATH_TYPE.
Definition IsDevicePathEnd (Node : Z) (m : MEMORY) : bool :=
  IsDevicePathEndType Node m && (DevicePathSubType Node m =? END_ENTIRE_DEVICE_PATH_SUBTYPE).
Definition IsDevicePathEndInstance (Node : Z) (m : MEMORY) : bool :=
  IsDevicePathEndType Node m && (DevicePathSubType Node m =? END_INSTANCE_DEVICE_PATH_SUBTYPE).

(** The nodes from [DevicePath] on, with [Count] nodes and [Size] bytes seen. *)
Fixpoint valid_loop (fuel : nat) (MaxSize DevicePath Count Size : Z) (m : MEMORY) : outcome bool :=
  match fuel with
  | O => Fault Diverges
  | S fuel =>
      if IsDevicePathEnd DevicePath m then mret (DevicePathNodeLength DevicePath m =? END_DEVICE_PATH_LENGTH) else
      let NodeLength := DevicePathNodeLength DevicePath m in
      if NodeLength <? 4 then mret false else
      if MAX_UINTN - Size <? NodeLength then mret false else
      let Size := Size + NodeLength in
      if MaxSize - END_DEVICE_PATH_LENGTH <? Size then mret false else
      if (0 <? PcdMaximumDevicePathNodeCount) && (PcdMaximumDevicePathNodeCount <=? Count + 1) then mret false else
      if (DevicePathType DevicePath m =? MEDIA_DEVICE_PATH) && (DevicePathSubType DevicePath m =? MEDIA_FILEPATH_DP) &&
         negb (ReadUnaligned16 (DevicePath + NodeLength - 2) m =? 0) then mret false else
      valid_loop fuel MaxSize (NextDevicePathNode DevicePath m)
        (if 0 <? PcdMaximumDevicePathNodeCount then Count + 1 else Count) Size m
  end.

(** The first node, from [DevicePath] on, that [stop] accepts. *)
Fixpoint walk (fuel : nat) (stop : Z -> MEMORY -> bool) (DevicePath : Z) (m : MEMORY) : outcome Z :=
  match fuel with
  | O => Fault Diverges
  | S fuel => if stop DevicePath m then mret DevicePath else walk fuel stop (NextDevicePathNode DevicePath m) m
  end.

Definition CopyMem (Destination Source Length : Z) (m : MEMORY) : MEMORY :=
  fun a => if decide (Destination <= a < Destination + Length) then m (u64 (Source + (a - Destination))) else m a.

Definition store_bytes (p : Z) (l : list Z) (m : MEMORY) : MEMORY :=
  fun a => if decide (p <= a < p + Z.of_nat (length l)) then default 0 (l !! Z.to_nat (a - p)) else m a.

(** Whether two buffers hold the same bytes: 0, or the first difference. *)
Fixpoint InternalMemCompareMem (Length : nat) (DestinationBuffer SourceBuffer : Z) (m : MEMORY) : Z :=
  match Length with
  | O => 0
  | S n => let d := m (u64 DestinationBuffer) - m (u64 SourceBuffer) in
           if decide (d = 0) then InternalMemCompareMem n (DestinationBuffer + 1) (SourceBuffer + 1) m else d
  end.

Definition CompareMem (DestinationBuffer SourceBuffer Length : Z) (m : MEMORY) : Z :=
  if decide (DestinationBuffer = SourceBuffer) then 0
  else InternalMemCompareMem (Z.to_nat Length) DestinationBuffer SourceBuffer m.

(* ------------------------------------------------------------------ *)
(** ** The library *)

(** Memory and the pool it is handed out from. *)
Record DP_STATE (H : Type) : Type := mkDp {
  dp_memory : MEMORY;
  dp_heap : H;
}.
Arguments mkDp {H}.
Arguments dp_memory {H}.
Arguments dp_heap {H}.

Section library.
Context {H : Type} `{Heap H}.
(** The fuel of the walks, and where the constant end node is. *)
Context (fuel : nat) (gEnd : Z).
#[local] Abbreviation ST := (DP_STATE H).

Definition IsDevicePathValid (DevicePath MaxSize : Z) (m : MEMORY) : outcome bool :=
  if decide (DevicePath = 0 \/ 0 < MaxSize < END_DEVICE_PATH_LENGTH) then mret false
  else valid_loop fuel (if decide (MaxSize = 0) then MAX_UINTN else MaxSize) DevicePath 0 0 m.

Definition GetDevicePathSize (DevicePath : Z) (m : MEMORY) : outcome Z :=
  if decide (DevicePath = 0) then mret 0 else
  ok ← IsDevicePathValid DevicePath 0 m;
  if ok : bool then
    e ← walk fuel IsDevicePathEnd DevicePath m;
    mret (u64 (u64 (e - DevicePath) + DevicePathNodeLength e m))
  else mret 0.

(** [AllocatePool]: null or an address. *)
Definition dp_alloc (size : Z) (st : ST) : Z * ST :=
  let '(p, h) := heap_alloc size (dp_heap st) in (default 0 p, mkDp (dp_memory st) h).
Definition dp_free (p : Z) (st : ST) : ST := mkDp (dp_memory st) (heap_free p (dp_heap st)).
Definition on_memory (f : MEMORY -> MEMORY) (st : ST) : ST := mkDp (f (dp_memory st)) (dp_heap st).

Definition DuplicateDevicePath (DevicePath : Z) (st : ST) : outcome (Z * ST) :=
  Size ← GetDevicePathSize DevicePath (dp_memory st);
  if decide (Size = 0) then mret (0, st) else
  let '(p, st) := dp_alloc Size st in
  mret (p, if decide (p = 0) then st else on_memory (CopyMem p DevicePath Size) st).

Definition AppendDevicePath (FirstDevicePath SecondDevicePath : Z) (st : ST) : outcome (Z * ST) :=
  if decide (FirstDevicePath = 0)
  then DuplicateDevicePath (if decide (SecondDevicePath <> 0) then SecondDevicePath else gEnd) st else
  if decide (SecondDevicePath = 0) then DuplicateDevicePath FirstDevicePath st else
  ok1 ← IsDevicePathValid FirstDevicePath 0 (dp_memory st);
  ok2 ← (if ok1 : bool then IsDevicePathValid SecondDevicePath 0 (dp_memory st) else mret false);
  if negb ok2 then mret (0, st) else
  Size1 ← GetDevicePathSize FirstDevicePath (dp_memory st);
  Size2 ← GetDevicePathSize SecondDevicePath (dp_memory st);
  let '(New, st) := dp_alloc (u64 (Size1 + Size2 - END_DEVICE_PATH_LENGTH)) st in
  mret (New, if decide (New = 0) then st else
             on_memory (CopyMem (u64 (New + (Size1 - END_DEVICE_PATH_LENGTH))) SecondDevicePath Size2)
               (on_memory (CopyMem New FirstDevicePath Size1) st)).

Definition SetDevicePathNodeLength (Node Length : Z) (m : MEMORY) : MEMORY :=
  store_bytes (u64 (Node + 2)) [u8 Length; u8 (Length / 256)] m.

Definition SetDevicePathEndNode (Node : Z) (m : MEMORY) : MEMORY := CopyMem Node gEnd 4 m.

Definition AppendDevicePathNode (DevicePath DevicePathNode : Z) (st : ST) : outcome (Z * ST) :=
  if decide (DevicePathNode = 0)
  then DuplicateDevicePath (if decide (DevicePath <> 0) then DevicePath else gEnd) st else
  let NodeLength := DevicePathNodeLength DevicePathNode (dp_memory st) in
  let '(Temp, st) := dp_alloc (u64 (NodeLength + END_DEVICE_PATH_LENGTH)) st in
  if decide (Temp = 0) then mret (0, st) else
  let st := on_memory (CopyMem Temp DevicePathNode NodeLength) st in
  let st := on_memory (SetDevicePathEndNode (NextDevicePathNode Temp (dp_memory st))) st in
  '(New, st) ← AppendDevicePath DevicePath Temp st;
  mret (New, dp_free Temp st).

Definition AppendDevicePathInstance (DevicePath DevicePathInstance : Z) (st : ST) : outcome (Z * ST) :=
  if decide (DevicePath = 0) then DuplicateDevicePath DevicePathInstance st else
  if decide (DevicePathInstance = 0) then mret (0, st) else
  ok1 ← IsDevicePathValid DevicePath 0 (dp_memory st);
  ok2 ← (if ok1 : bool then IsDevicePathValid DevicePathInstance 0 (dp_memory st) else mret false);
  if negb ok2 then mret (0, st) else
  SrcSize ← GetDevicePathSize DevicePath (dp_memory st);
  InstanceSize ← GetDevicePathSize DevicePathInstance (dp_memory st);
  let '(New, st) := dp_alloc (u64 (SrcSize + InstanceSize)) st in
  if decide (New = 0) then mret (0, st) else
  let st := on_memory (CopyMem New DevicePath SrcSize) st in
  e ← walk fuel IsDevicePathEnd New (dp_memory st);
  let st := on_memory (store_bytes (u64 (e + 1)) [END_INSTANCE_DEVICE_PATH_SUBTYPE]) st in
  mret (New, on_memory (CopyMem (NextDevicePathNode e (dp_memory st)) DevicePathInstance InstanceSize) st).

(** [DevicePath] is the pointer the argument points at, or nothing for a null
    argument; the result is the instance, the new pointer and the size, which
    is not written when the path is not valid. *)
Definition GetNextDevicePathInstance (DevicePath : option Z) (Size : Z) (st : ST) : outcome (Z * option Z * Z * ST) :=
  match DevicePath with
  | None => mret (0, None, 0, st)
  | Some p =>
      if decide (p = 0) then mret (0, Some 0, 0, st) else
      ok ← IsDevicePathValid p 0 (dp_memory st);
      if negb ok then mret (0, Some p, Size, st) else
      DevPath ← walk fuel IsDevicePathEndType p (dp_memory st);
      let Size := u64 (u64 (DevPath - p) + 4) in
      let Temp := DevicePathSubType DevPath (dp_memory st) in
      let st := on_memory (store_bytes (u64 (DevPath + 1)) [END_ENTIRE_DEVICE_PATH_SUBTYPE]) st in
      '(ReturnValue, st) ← DuplicateDevicePath p st;
      let st := on_memory (store_bytes (u64 (DevPath + 1)) [Temp]) st in
      mret (ReturnValue,
        Some (if DevicePathSubType DevPath (dp_memory st) =? END_ENTIRE_DEVICE_PATH_SUBTYPE then 0
              else NextDevicePathNode DevPath (dp_memory st)), Size, st)
  end.

Definition CreateDeviceNode (NodeType NodeSubType NodeLength : Z) (st : ST) : Z * ST :=
  if decide (NodeLength < 4) then (0, st) else
  let '(p, st) := dp_alloc NodeLength st in
  (p, if decide (p = 0) then st else
      on_memory (SetDevicePathNodeLength p NodeLength)
        (on_memory (store_bytes p [NodeType; NodeSubType])
          (on_memory (store_bytes p (replicate (Z.to_nat NodeLength) 0)) st))).

Fixpoint instance_loop (n : nat) (Node : Z) (m : MEMORY) : outcome bool :=
  match n with
  | O => Fault Diverges
  | S n => if IsDevicePathEnd Node m then mret false
           else if IsDevicePathEndInstance Node m then mret true else instance_loop n (NextDevicePathNode Node m) m
  end.

Definition IsDevicePathMultiInstance (DevicePath : Z) (m : MEMORY) : outcome bool :=
  if decide (DevicePath = 0) then mret false else
  ok ← IsDevicePathValid DevicePath 0 m;
  if ok : bool then instance_loop fuel DevicePath m else mret false.
End library.

(* ------------------------------------------------------------------ *)
(** ** The nodes a device path stands for *)

Record NODE : Type := mkNode {
  node_type : Z;
  node_sub : Z;
  node_data : list Z;
}.

Definition node_length (n : NODE) : Z := 4 + Z.of_nat (length (node_data n)).
Definition node_bytes (n : NODE) : list Z :=
  node_type n :: node_sub n :: u8 (node_length n) :: node_length n / 256 :: node_data n.

(** A node that is not the end of the path; the name in a file path node ends
    in a null character. *)
Definition node_ok (n : NODE) : Prop :=
  Forall (fun b => is_u8 b) (node_type n :: node_sub n :: node_data n) /\ node_length n < 65536 /\
  ~ (node_type n = END_DEVICE_PATH_TYPE /\ node_sub n = END_ENTIRE_DEVICE_PATH_SUBTYPE) /\
  (node_type n = MEDIA_DEVICE_PATH -> node_sub n = MEDIA_FILEPATH_DP -> exists front, node_bytes n = front ++ [0; 0]).

Definition body (l : list NODE) : list Z := concat (node_bytes <$> l).
Definition encode (l : list NODE) : list Z := body l ++ mUefiDevicePathLibEndDevicePath.

(** The bytes at an address, which may wrap around. *)
Definition holds (m : MEMORY) (p : Z) (l : list Z) : Prop :=
  forall k x, l !! k = Some x -> m (u64 (p + Z.of_nat k)) = x.

Definition path_at (m : MEMORY) (p : Z) (l : list NODE) : Prop := Forall node_ok l /\ holds m p (encode l).

Definition size_of (l : list NODE) : Z := Z.of_nat (length (encode l)).

(** The same memory but for a block. *)
Definition same_outside (d n : Z) (m m' : MEMORY) : Prop := forall a, ~ (d <= a < d + n) -> m' a = m a.

(** Bytes of a block of the pool that is in use. *)
Definition in_use {H} `{HeapWf H} (h : H) (p n : Z) : Prop :=
  exists q k, heap_live h !! q = Some k /\ q <= p /\ p + n <= q + k.

(* ------------------------------------------------------------------ *)
(** ** Bytes in memory *)

Lemma u64_add_l a b : u64 (u64 a + b) = u64 (a + b).
Proof. unfold u64. apply Zplus_mod_idemp_l. Qed.

Lemma holds_u64 m p l : holds m (u64 p) l <-> holds m p l.
Proof. unfold holds. by setoid_rewrite u64_add_l. Qed.

Lemma holds_app m p l1 l2 : holds m p (l1 ++ l2) <-> holds m p l1 /\ holds m (p + Z.of_nat (length l1)) l2.
Proof.
  unfold holds. split.
  - intros Hh. split; intros k x Hk.
    + apply Hh. by apply lookup_app_l_Some.
    + rewrite <- (Hh (length l1 + k)%nat x); [f_equal; f_equal; lia|].
      rewrite lookup_app_r by lia. by rewrite Nat.add_sub_swap, Nat.sub_diag by lia.
  - intros [H1 H2] k x Hk. apply lookup_app_Some in Hk as [Hk|[Hle Hk]]; [by apply H1|].
    rewrite <- (H2 _ _ Hk). f_equal. f_equal. lia.
Qed.

Lemma holds_cons m p x l : holds m p (x :: l) <-> m (u64 p) = x /\ holds m (p + 1) l.
Proof.
  change (x :: l) with ([x] ++ l). rewrite holds_app. simpl. split; intros [Hx Hl]; split; try done.
  - specialize (Hx 0%nat x eq_refl). by rewrite Z.add_0_r in Hx.
  - intros [|k] y Hy; [simplify_eq/=|done]. by rewrite Z.add_0_r.
Qed.

Lemma holds_outside d n m m' p l : same_outside d n m m' -> apart p (Z.of_nat (length l)) d n -> 0 <= p ->
  p + Z.of_nat (length l) <= 2 ^ 64 -> holds m p l -> holds m' p l.
Proof.
  intros Hs Ha Hp Hr Hh k x Hk. pose proof (lookup_lt_Some _ _ _ Hk).
  rewrite Hs; [by apply Hh|]. rewrite u64_id by lia. unfold apart in Ha. lia.
Qed.

Lemma same_outside_copy d s n m : same_outside d n m (CopyMem d s n m).
Proof. intros a Ha. unfold CopyMem. by rewrite decide_False. Qed.

Lemma same_outside_store p l m : same_outside p (Z.of_nat (length l)) m (store_bytes p l m).
Proof. intros a Ha. unfold store_bytes. by rewrite decide_False. Qed.

Lemma same_outside_trans d n m1 m2 m3 : same_outside d n m1 m2 -> same_outside d n m2 m3 -> same_outside d n m1 m3.
Proof. intros H1 H2 a Ha. by rewrite H2, H1. Qed.

Lemma same_outside_mono d n d' n' m m' : d' <= d -> d + n <= d' + n' -> same_outside d n m m' -> same_outside d' n' m m'.
Proof. intros ?? Hs a Ha. apply Hs. lia. Qed.

Lemma holds_copy m d s l : 0 <= d -> d + Z.of_nat (length l) <= 2 ^ 64 -> holds m s l ->
  holds (CopyMem d s (Z.of_nat (length l)) m) d l.
Proof.
  intros Hd Hr Hh k x Hk. pose proof (lookup_lt_Some _ _ _ Hk). unfold CopyMem. rewrite u64_id by lia.
  rewrite decide_True by lia. rewrite <- (Hh _ _ Hk). f_equal. f_equal. lia.
Qed.

Lemma holds_store m p l : 0 <= p -> p + Z.of_nat (length l) <= 2 ^ 64 -> holds (store_bytes p l m) p l.
Proof.
  intros Hd Hr k x Hk. pose proof (lookup_lt_Some _ _ _ Hk). unfold store_bytes. rewrite u64_id by lia.
  rewrite decide_True by lia. replace (Z.to_nat (p + Z.of_nat k - p)) with k by lia. by rewrite Hk.
Qed.

(* ------------------------------------------------------------------ *)
(** ** One node *)

Lemma node_bytes_length n : Z.of_nat (length (node_bytes n)) = node_length n.
Proof. unfold node_length, node_bytes. simpl. lia. Qed.

Lemma node_length_bounds n : node_ok n -> 4 <= node_length n < 65536.
Proof. intros (_ & ? & _). unfold node_length in *. lia. Qed.

Lemma node_length_bytes n : node_ok n -> u8 (node_length n) + 256 * (node_length n / 256) = node_length n.
Proof. intros Hok. unfold u8. pose proof (Z.div_mod (node_length n) 256). lia. Qed.

Section node.
Context (m : MEMORY) (p : Z).

Lemma read_node n : node_ok n -> holds m p (node_bytes n) ->
  DevicePathType p m = node_type n /\ DevicePathSubType p m = node_sub n /\ DevicePathNodeLength p m = node_length n.
Proof.
  intros Hok Hh. unfold node_bytes in Hh. rewrite !holds_cons in Hh.
  destruct Hh as (H0 & H1 & H2 & H3 & _). unfold DevicePathType, DevicePathSubType, DevicePathNodeLength, ReadUnaligned16.
  split; [done|]. split; [done|]. replace (p + 2) with (p + 1 + 1) by lia. rewrite H2, H3. by apply node_length_bytes.
Qed.

Lemma next_node n : node_ok n -> holds m p (node_bytes n) -> NextDevicePathNode p m = u64 (p + node_length n).
Proof. intros Hok Hh. unfold NextDevicePathNode. by destruct (read_node n Hok Hh) as (_ & _ & ->). Qed.

Lemma node_not_end n : node_ok n -> holds m p (node_bytes n) -> IsDevicePathEnd p m = false.
Proof.
  intros Hok Hh. destruct (read_node n Hok Hh) as (E1 & E2 & _). unfold IsDevicePathEnd, IsDevicePathEndType.
  rewrite E1, E2. destruct Hok as (_ & _ & Hne & _). apply not_true_is_false. intros Hb.
  apply andb_true_iff in Hb as [Ha Hb]. apply Hne. lia.
Qed.

Lemma read_end : holds m p mUefiDevicePathLibEndDevicePath ->
  DevicePathType p m = END_DEVICE_PATH_TYPE /\ DevicePathSubType p m = END_ENTIRE_DEVICE_PATH_SUBTYPE /\
  DevicePathNodeLength p m = 4 /\ IsDevicePathEnd p m = true.
Proof.
  unfold mUefiDevicePathLibEndDevicePath. rewrite !holds_cons. intros (H0 & H1 & H2 & H3 & _).
  unfold IsDevicePathEnd, IsDevicePathEndType, DevicePathType, DevicePathSubType, DevicePathNodeLength, ReadUnaligned16.
  replace (p + 2) with (p + 1 + 1) by lia. rewrite H0, H1, H2, H3. repeat split.
Qed.
End node.

(** The bytes at an address, as many as asked for. *)
Definition bytes_of (m : MEMORY) (p : Z) (n : nat) : list Z := (fun k => m (u64 (p + Z.of_nat k))) <$> seq 0 n.

Lemma bytes_of_length m p n : length (bytes_of m p n) = n.
Proof. unfold bytes_of. by rewrite length_fmap, length_seq. Qed.

Lemma holds_bytes_of m p n : holds m p (bytes_of m p n).
Proof.
  intros k x Hk. unfold bytes_of in Hk. rewrite list_lookup_fmap in Hk.
  apply fmap_Some in Hk as (j & Hj & ->). by apply lookup_seq in Hj as [-> _].
Qed.

Lemma holds_unique m p l l' : length l = length l' -> holds m p l -> holds m p l' -> l = l'.
Proof.
  intros HL H1 H2. apply list_eq_same_length with (length l); [done|done|].
  intros k x y _ Hx Hy. rewrite <- (H1 _ _ Hx). by rewrite <- (H2 _ _ Hy).
Qed.

Lemma read16_zero m p : (forall a, is_u8 (m a)) -> ReadUnaligned16 p m = 0 <-> holds m p [0; 0].
Proof.
  intros Hm. unfold ReadUnaligned16. rewrite !holds_cons. pose proof (Hm (u64 p)). pose proof (Hm (u64 (p + 1))).
  split; [intros E; split; [lia|]; split; [lia|]; by intros k x Hk|]. intros (-> & -> & _). lia.
Qed.

Lemma body_cons n l : body (n :: l) = node_bytes n ++ body l.
Proof. reflexivity. Qed.

Lemma encode_cons n l : encode (n :: l) = node_bytes n ++ encode l.
Proof. unfold encode. by rewrite body_cons, app_assoc. Qed.

Lemma size_of_cons n l : size_of (n :: l) = node_length n + size_of l.
Proof. unfold size_of. rewrite encode_cons, length_app. pose proof (node_bytes_length n). lia. Qed.

Lemma size_of_body l : size_of l = Z.of_nat (length (body l)) + 4.
Proof. unfold size_of, encode. rewrite length_app. simpl. lia. Qed.

Lemma size_of_app l1 l2 : size_of (l1 ++ l2) = size_of l1 + size_of l2 - 4.
Proof. rewrite !size_of_body. unfold body. rewrite fmap_app, concat_app, length_app. lia. Qed.

Lemma path_at_cons m p n l : path_at m p (n :: l) <-> node_ok n /\ holds m p (node_bytes n) /\ path_at m (p + node_length n) l.
Proof. unfold path_at. rewrite Forall_cons, encode_cons, holds_app, node_bytes_length. tauto. Qed.

Lemma path_at_u64 m p l : path_at m (u64 p) l <-> path_at m p l.
Proof. unfold path_at. by rewrite holds_u64. Qed.

Lemma file_path_end m p n : node_ok n -> holds m p (node_bytes n) -> node_type n = MEDIA_DEVICE_PATH ->
  node_sub n = MEDIA_FILEPATH_DP -> ReadUnaligned16 (p + node_length n - 2) m = 0.
Proof.
  intros (_ & _ & _ & Hf) Hh Ht Hs. destruct (Hf Ht Hs) as [front E]. pose proof (node_bytes_length n) as HL.
  rewrite E in Hh, HL. rewrite length_app in HL. simpl in HL. apply holds_app in Hh as [_ Hh]. rewrite !holds_cons in Hh.
  replace (p + node_length n - 2) with (p + Z.of_nat (length front)) by lia.
  unfold ReadUnaligned16. destruct Hh as (-> & -> & _). lia.
Qed.

(** What the walk says of a path that is there: whether it is short enough. *)
Lemma valid_loop_path m l : forall fuel MaxSize p Count Size, path_at m p l -> (length l < fuel)%nat ->
  0 <= Size -> MaxSize <= MAX_UINTN -> Size + 4 <= MaxSize ->
  valid_loop fuel MaxSize p Count Size m = Done (bool_decide (Size + size_of l <= MaxSize)).
Proof.
  induction l as [|n l IH]; intros fuel MaxSize p Count Size Hp Hf H0 Hmax Hs;
    (destruct fuel as [|fuel]; [simpl in Hf; lia|]); cbn [valid_loop].
  - destruct Hp as [_ Hp]. destruct (read_end m p Hp) as (_ & _ & E3 & ->). rewrite E3.
    rewrite bool_decide_eq_true_2 by (unfold size_of; simpl; lia). done.
  - rewrite size_of_cons. apply path_at_cons in Hp as (Hok & Hn & Hl). pose proof (node_length_bounds n Hok).
    rewrite (node_not_end m p n Hok Hn), (next_node m p n Hok Hn).
    destruct (read_node m p n Hok Hn) as (Et & Es & ->). assert (4 <= size_of l) by (rewrite size_of_body; lia).
    rewrite (proj2 (Z.ltb_ge _ _)) by lia. unfold MAX_UINTN, END_DEVICE_PATH_LENGTH in *.
    destruct (_ - Size <? _) eqn:E1; [rewrite bool_decide_eq_false_2 by lia; done|].
    destruct (_ - 4 <? _) eqn:E2; [rewrite bool_decide_eq_false_2 by lia; done|]. cbn [andb].
    replace (_ && _ && _) with false.
    2:{ symmetry. apply not_true_is_false. rewrite !andb_true_iff, negb_true_iff, !Z.eqb_eq, Z.eqb_neq, Et, Es.
        intros [[E3 E4] E5]. by apply E5, file_path_end. }
    rewrite IH; [f_equal; apply bool_decide_ext; lia|by apply path_at_u64|simpl in Hf; lia|lia..].
Qed.

(** The node at an address. *)
Definition node_at (m : MEMORY) (p : Z) : NODE :=
  mkNode (DevicePathType p m) (DevicePathSubType p m) (bytes_of m (p + 4) (Z.to_nat (DevicePathNodeLength p m - 4))).

Lemma node_at_holds m p : (forall a, is_u8 (m a)) -> 4 <= DevicePathNodeLength p m ->
  node_length (node_at m p) = DevicePathNodeLength p m /\ holds m p (node_bytes (node_at m p)).
Proof.
  intros Hm HL. assert (node_length (node_at m p) = DevicePathNodeLength p m) as E.
  { unfold node_length, node_at. cbn [node_data]. rewrite bytes_of_length. lia. }
  split; [done|]. unfold node_bytes. rewrite !holds_cons, E. unfold node_at. cbn [node_type node_sub node_data].
  replace (p + 1 + 1 + 1 + 1) with (p + 4) by lia. split; [done|]. split; [done|].
  unfold DevicePathNodeLength, ReadUnaligned16. replace (p + 1 + 1) with (p + 2) by lia.
  pose proof (Hm (u64 (p + 2))). pose proof (Hm (u64 (p + 2 + 1))).
  split; [|split; [|apply holds_bytes_of]].
  - unfold u8. rewrite Z.mul_comm, Z_mod_plus_full, Z.mod_small by lia. done.
  - rewrite Z.mul_comm, Z_div_plus_full, Z.div_small by lia. lia.
Qed.

Lemma node_at_ok m p : (forall a, is_u8 (m a)) -> 4 <= DevicePathNodeLength p m -> IsDevicePathEnd p m = false ->
  (DevicePathType p m = MEDIA_DEVICE_PATH -> DevicePathSubType p m = MEDIA_FILEPATH_DP ->
   ReadUnaligned16 (p + DevicePathNodeLength p m - 2) m = 0) -> node_ok (node_at m p).
Proof.
  intros Hm HL He Hf. destruct (node_at_holds m p Hm HL) as [EL Hh]. split; [|split; [|split]].
  - repeat apply Forall_cons_2; [apply Hm|apply Hm|]. apply Forall_fmap, Forall_true. intros; apply Hm.
  - rewrite EL. unfold DevicePathNodeLength, ReadUnaligned16. pose proof (Hm (u64 (p + 2))). pose proof (Hm (u64 (p + 2 + 1))). lia.
  - intros [E1 E2]. cbn in E1, E2. unfold IsDevicePathEnd, IsDevicePathEndType in He. by rewrite E1, E2 in He.
  - intros E1 E2. specialize (Hf E1 E2). apply read16_zero in Hf; [|done].
    exists (bytes_of m p (Z.to_nat (DevicePathNodeLength p m) - 2)).
    pose proof (node_bytes_length (node_at m p)) as Hb. rewrite EL in Hb.
    apply (holds_unique m p); [rewrite length_app, bytes_of_length; simpl length at 2; lia|done|].
    apply holds_app. rewrite bytes_of_length. split; [apply holds_bytes_of|].
    replace (p + _) with (p + DevicePathNodeLength p m - 2) by lia. done.
Qed.

(** A walk that accepts has seen the nodes of a path. *)
Lemma valid_loop_sound m : (forall a, is_u8 (m a)) -> forall fuel MaxSize p Count Size,
  0 <= Size -> Size + 4 <= MaxSize -> valid_loop fuel MaxSize p Count Size m = Done true ->
  exists l, path_at m p l /\ (length l < fuel)%nat /\ Size + size_of l <= MaxSize.
Proof.
  intros Hm. induction fuel as [|fuel IH]; intros MaxSize p Count Size H0 Hs; [done|]. cbn [valid_loop].
  destruct (IsDevicePathEnd p m) eqn:Ee.
  - intros E. apply Done_inj, Z.eqb_eq in E. exists []. split; [|split; [simpl; lia|unfold size_of; simpl; lia]].
    split; [by constructor|]. unfold IsDevicePathEnd, IsDevicePathEndType in Ee. apply andb_true_iff in Ee as [E1 E2].
    apply Z.eqb_eq in E1, E2. change (encode []) with mUefiDevicePathLibEndDevicePath. unfold mUefiDevicePathLibEndDevicePath.
    rewrite !holds_cons. unfold DevicePathType, DevicePathSubType, DevicePathNodeLength, ReadUnaligned16 in *.
    pose proof (Hm (u64 (p + 2))). pose proof (Hm (u64 (p + 2 + 1))). unfold END_DEVICE_PATH_LENGTH in *.
    replace (p + 1 + 1) with (p + 2) by lia. split; [done|]. split; [done|]. split; [lia|]. split; [lia|]. by intros k x Hk.
  - destruct (_ <? 4) eqn:E1; [done|]. destruct (MAX_UINTN - Size <? _) eqn:E2; [done|]. destruct (MaxSize - _ <? _) eqn:E3; [done|].
    change (0 <? PcdMaximumDevicePathNodeCount) with false. cbn [andb]. destruct (_ && _ && _) eqn:E4; [done|]. intros E5.
    assert (4 <= DevicePathNodeLength p m) as HL by lia. destruct (node_at_holds m p Hm HL) as [EL Hh].
    assert (node_ok (node_at m p)) as Hok.
    { apply node_at_ok; try done. intros E6 E7. rewrite E6, E7 in E4. rewrite !Z.eqb_refl in E4. cbn [andb] in E4.
      by apply negb_false_iff, Z.eqb_eq in E4. }
    unfold END_DEVICE_PATH_LENGTH in E3. apply IH in E5 as (l & Hl & Hf & Hsz); [|lia..]. exists (node_at m p :: l).
    split; [|split; [simpl; lia|rewrite size_of_cons; lia]]. apply path_at_cons. split; [done|]. split; [done|].
    apply path_at_u64. rewrite EL. done.
Qed.

(** Every node takes four bytes of the limit. *)
Lemma valid_loop_ends m : forall fuel MaxSize p Count Size, MaxSize - Size < 4 * Z.of_nat fuel -> Size + 4 <= MaxSize ->
  exists b, valid_loop fuel MaxSize p Count Size m = Done b.
Proof.
  induction fuel as [|fuel IH]; intros MaxSize p Count Size Hf Hs; [lia|]. cbn [valid_loop].
  destruct (IsDevicePathEnd p m); [by eexists|]. destruct (_ <? 4) eqn:E1; [by eexists|].
  destruct (MAX_UINTN - Size <? _); [by eexists|]. destruct (MaxSize - _ <? _) eqn:E3; [by eexists|].
  change (0 <? PcdMaximumDevicePathNodeCount) with false. cbn [andb]. destruct (_ && _ && _); [by eexists|].
  unfold END_DEVICE_PATH_LENGTH in E3. apply IH; lia.
Qed.

Lemma node_bytes_inj n n' : node_ok n -> node_ok n' -> node_bytes n = node_bytes n' -> n = n'.
Proof. intros _ _ E. unfold node_bytes in E. destruct n, n'. by simplify_eq/=. Qed.

(** A place in memory is the start of one path at most. *)
Lemma path_at_unique m l : forall p l', path_at m p l -> path_at m p l' -> l = l'.
Proof.
  assert (forall p n l', path_at m p [] -> path_at m p (n :: l') -> False) as Hend.
  { intros p n l' [_ H1] H2. apply path_at_cons in H2 as (Hok & Hn & _).
    destruct (read_end m p H1) as (_ & _ & _ & E). by rewrite (node_not_end m p n Hok Hn) in E. }
  induction l as [|n l IH]; intros p [|n' l'] H1 H2; [done|by destruct (Hend p n' l')|by destruct (Hend p n l)|].
  apply path_at_cons in H1 as (Hok & Hn & Hl), H2 as (Hok' & Hn' & Hl').
  assert (node_length n = node_length n') as EL.
  { destruct (read_node m p n Hok Hn) as (_ & _ & <-). by destruct (read_node m p n' Hok' Hn') as (_ & _ & <-). }
  assert (n = n') as <-.
  { apply node_bytes_inj; [done..|]. eapply holds_unique; [|done..]. pose proof (node_bytes_length n).
    pose proof (node_bytes_length n'). lia. }
  f_equal. by apply IH with (p + node_length n).
Qed.

(** The limit an argument [MaxSize] stands for. *)
Definition size_limit (MaxSize : Z) : Z := if decide (MaxSize = 0) then MAX_UINTN else MaxSize.

Section library_facts.
Context {H : Type} `{HeapWf H} (fuel : nat) (gEnd : Z).

Lemma IsDevicePathValid_path m p MaxSize l : p <> 0 -> 0 <= MaxSize <= MAX_UINTN -> path_at m p l -> (length l < fuel)%nat ->
  IsDevicePathValid fuel p MaxSize m = Done (bool_decide (size_of l <= size_limit MaxSize)).
Proof.
  intros Hp HM Hl Hf. assert (4 <= size_of l) by (rewrite size_of_body; lia). unfold IsDevicePathValid, size_limit.
  destruct (decide (p = 0 \/ _)) as [[|Hs]|Hn]; [done| |].
  - unfold END_DEVICE_PATH_LENGTH in Hs. rewrite decide_False by lia. by rewrite bool_decide_eq_false_2 by lia.
  - unfold END_DEVICE_PATH_LENGTH in Hn. unfold MAX_UINTN in *.
    rewrite (valid_loop_path m l); [done..|lia|unfold MAX_UINTN|]; destruct (decide (MaxSize = 0)); lia.
Qed.

Lemma walk_nodes (stop : Z -> MEMORY -> bool) m l : forall n p, Forall node_ok l -> holds m p (body l) ->
  (forall q a, a ∈ l -> holds m q (node_bytes a) -> stop q m = false) ->
  stop (u64 (p + Z.of_nat (length (body l)))) m = true -> (length l < n)%nat ->
  walk n stop (u64 p) m = Done (u64 (p + Z.of_nat (length (body l)))).
Proof.
  induction l as [|a l IH]; intros n p Hok Hh Hs He Hf; (destruct n as [|n]; [simpl in Hf; lia|]); cbn [walk].
  - simpl in He. rewrite Z.add_0_r in He. rewrite He. simpl. by rewrite Z.add_0_r.
  - rewrite body_cons, length_app in *. apply holds_app in Hh as [Hn Hl]. apply Forall_cons in Hok as [Ha Hok].
    pose proof (node_bytes_length a) as EL. pose proof (proj2 (holds_u64 m p _) Hn) as Hn'.
    rewrite (Hs _ a); [|by left|done]. rewrite (next_node m _ a Ha Hn'), u64_add_l. simpl in Hf.
    replace (p + Z.of_nat (length (node_bytes a) + length (body l))) with (p + node_length a + Z.of_nat (length (body l))) in * by lia.
    rewrite EL in Hl. apply IH; [done|done| |done|lia]. intros q b Hb. apply Hs. by right.
Qed.

Lemma walk_path m l n p : path_at m p l -> (length l < n)%nat ->
  walk n IsDevicePathEnd (u64 p) m = Done (u64 (p + Z.of_nat (length (body l)))).
Proof.
  intros [Hok Hh] Hf. apply holds_app in Hh as [Hh He]. apply walk_nodes; [done|done| | |done].
  - intros q a Ha Hq. apply (node_not_end m q a); [|done]. by eapply Forall_forall.
  - by destruct (read_end m (u64 (p + Z.of_nat (length (body l))))) as (_ & _ & _ & ->); [apply holds_u64|].
Qed.

Lemma path_at_end m p l : path_at m p l -> path_at m (p + Z.of_nat (length (body l))) [].
Proof. intros [_ Hh]. split; [by constructor|]. unfold encode in Hh. by apply holds_app in Hh as [_ Hh]. Qed.

Lemma GetDevicePathSize_path m p l : p <> 0 -> is_u64 p -> path_at m p l -> (length l < fuel)%nat -> size_of l <= MAX_UINTN ->
  GetDevicePathSize fuel p m = Done (size_of l).
Proof.
  intros Hp Hu Hl Hf Hs. unfold GetDevicePathSize. rewrite decide_False by done.
  rewrite (IsDevicePathValid_path m p 0 l) by (done || unfold MAX_UINTN; lia). unfold size_limit. rewrite decide_True by done.
  rewrite bool_decide_eq_true_2 by done. mred. rewrite <- (u64_id p) at 1 by done. rewrite (walk_path m l) by done. mred.
  destruct (read_end m (u64 (p + Z.of_nat (length (body l))))) as (_ & _ & -> & _).
  { apply holds_u64. by apply (path_at_end m p l). }
  rewrite size_of_body in *. unfold MAX_UINTN in Hs. f_equal. rewrite <- (u64_id (Z.of_nat (length (body l)) + 4)) by lia.
  rewrite u64_add_l. unfold u64. rewrite <- !Z.add_sub_swap.
  replace ((p + Z.of_nat (length (body l))) mod 18446744073709551616 + 4 - p)
    with ((p + Z.of_nat (length (body l))) mod 18446744073709551616 + (4 - p)) by lia.
  rewrite Zplus_mod_idemp_l. f_equal. lia.
Qed.

(** More fuel gives the same answer. *)
Lemma valid_loop_mono m : forall n n' MaxSize p Count Size b, (n <= n')%nat ->
  valid_loop n MaxSize p Count Size m = Done b -> valid_loop n' MaxSize p Count Size m = Done b.
Proof.
  induction n as [|n IH]; intros n' MaxSize p Count Size b Hn; [done|]. destruct n' as [|n']; [lia|]. cbn [valid_loop].
  repeat (destruct (_ : bool); [done|]). apply IH. lia.
Qed.

Lemma walk_mono m stop p : forall n n' q, (n <= n')%nat -> walk n stop p m = Done q -> walk n' stop p m = Done q.
Proof.
  intros n. revert p. induction n as [|n IH]; intros p n' q Hn; [done|]. destruct n' as [|n']; [lia|]. cbn [walk].
  destruct (stop p m); [done|]. apply IH. lia.
Qed.

Lemma GetDevicePathSize_mono m p n n' s : (n <= n')%nat -> GetDevicePathSize n p m = Done s -> GetDevicePathSize n' p m = Done s.
Proof.
  intros Hn. unfold GetDevicePathSize, IsDevicePathValid. destruct (decide (p = 0)); [done|].
  destruct (decide (p = 0 \/ _)); [done|]. rewrite !bind_done. intros (b & Eb & E). exists b.
  split; [by apply (valid_loop_mono m n)|]. destruct b; [|done]. rewrite bind_done in *. destruct E as (e & Ee & E).
  exists e. split; [by apply (walk_mono m _ p n)|done].
Qed.

Lemma IsDevicePathValid_iff m p MaxSize b : (forall a, is_u8 (m a)) -> 0 <= MaxSize <= MAX_UINTN ->
  IsDevicePathValid fuel p MaxSize m = Done b ->
  b = true <-> p <> 0 /\ exists l, path_at m p l /\ size_of l <= size_limit MaxSize.
Proof.
  intros Hm HM Hb. unfold IsDevicePathValid in Hb. unfold END_DEVICE_PATH_LENGTH in Hb.
  assert (forall l, 4 <= size_of l) as H4 by (intros; rewrite size_of_body; lia).
  destruct (decide (p = 0 \/ _)) as [Hs|Hs].
  - apply Done_inj in Hb as <-. split; [done|]. intros (Hp & l & _ & Hl). specialize (H4 l). unfold size_limit in Hl.
    rewrite decide_False in Hl by lia. lia.
  - fold (size_limit MaxSize) in Hb. assert (4 <= size_limit MaxSize <= MAX_UINTN).
    { unfold size_limit, MAX_UINTN in *. destruct (decide (MaxSize = 0)); lia. }
    split.
    + intros ->. split; [lia|]. apply valid_loop_sound in Hb as (l & Hl & _ & Hsz); [|done|lia..]. by exists l.
    + intros (Hp & l & Hl & Hsz). apply (valid_loop_mono m fuel (fuel + S (length l))) in Hb; [|lia].
      rewrite (valid_loop_path m l) in Hb by (done || lia). apply Done_inj in Hb as <-. by apply bool_decide_eq_true_2.
Qed.
End library_facts.

(* ------------------------------------------------------------------ *)
(** ** Blocks from the pool *)

Section making.
Context {H : Type} `{HeapWf H} (fuel : nat) (gEnd : Z).
#[local] Abbreviation ST := (DP_STATE H).
#[local] Abbreviation live st := (heap_live (dp_heap st)).
#[local] Abbreviation inuse st := (in_use (dp_heap st)).

(** A path at an address, in a block of the pool that is in use. *)
Definition own_path (st : ST) (p : Z) (l : list NODE) : Prop :=
  path_at (dp_memory st) p l /\ inuse st p (size_of l) /\ size_of l <= MAX_UINTN /\ (length l < fuel)%nat.

(** The memory in use keeps its bytes. *)
Definition kept_bytes (st st' : ST) : Prop := forall a, inuse st a 1 -> dp_memory st' a = dp_memory st a.

(** What the pool answers when it is asked for [n] bytes. *)
Definition pool_gives (st : ST) (n : Z) : option Z := fst (heap_alloc n (dp_heap st)).

(** The memory in use keeps its bytes.  [o] is the answer of the pool: without
    a block the result [r] is null and nothing is made, and only then; a block
    is the result, it is fresh and of the size of the path [l], and holds it. *)
Definition made (o : option Z) (r : Z) (l : list NODE) (st st' : ST) : Prop :=
  r = default 0 o /\ heap_ok (dp_heap st') /\ kept_bytes st st' /\
  match o with
  | None => live st' = live st
  | Some q => 0 < q /\ live st !! q = None /\ live st' = <[q := size_of l]> (live st) /\ path_at (dp_memory st') q l /\
      forall p n, inuse st p n -> 0 <= n -> apart p n q (size_of l)
  end.

Lemma in_use_range h p n : heap_ok h -> in_use h p n -> 0 < p /\ p + n <= 2 ^ 64.
Proof. intros Hok (q & k & Hq & ? & ?). destruct (live_range h q k Hok Hq) as (? & ? & ?). lia. Qed.

Lemma dp_alloc_inv size st p st' : heap_ok (dp_heap st) -> 0 <= size -> dp_alloc size st = (p, st') ->
  heap_ok (dp_heap st') /\ dp_memory st' = dp_memory st /\
  ((p = 0 /\ pool_gives st size = None /\ live st' = live st) \/
   (pool_gives st size = Some p /\ 0 < p /\ p + size <= 2 ^ 64 /\ live st !! p = None /\ live st' = <[p := size]> (live st) /\
    forall q n, inuse st q n -> 0 <= n -> apart q n p size)).
Proof.
  intros Hok Hs. unfold dp_alloc, pool_gives. destruct (heap_alloc size (dp_heap st)) as [[a|] h] eqn:Ea; intros E; simplify_eq/=.
  - destruct (alloc_range _ _ _ _ Hok Hs Ea) as [Hp Hr]. destruct (alloc_some _ _ _ _ Hok Hs Ea) as (Hok' & Hn & HL & Hd).
    split; [done|]. split; [done|]. right. do 5 (split; [done|]).
    intros q n (q' & k & Hq & ? & ?) Hn0. specialize (Hd _ _ Hq). unfold apart in *. lia.
  - destruct (alloc_none _ _ _ Hok Hs Ea) as [Hok' HL]. split; [done|]. split; [done|]. by left.
Qed.

Lemma kept_outside (st st' : ST) d n : (forall p k, inuse st p k -> 0 <= k -> apart p k d n) ->
  same_outside d n (dp_memory st) (dp_memory st') -> kept_bytes st st'.
Proof. intros Hd Hs a Ha. apply Hs. specialize (Hd a 1 Ha). unfold apart in Hd. lia. Qed.

Lemma kept_bytes_trans (st st1 st2 : ST) : (forall a, inuse st a 1 -> inuse st1 a 1) -> kept_bytes st st1 -> kept_bytes st1 st2 ->
  kept_bytes st st2.
Proof. intros Hu K1 K2 a Ha. rewrite K2 by auto. by apply K1. Qed.

Lemma in_use_sub (h : H) p n q k : in_use h p n -> p <= q -> q + k <= p + n -> in_use h q k.
Proof. intros (b & s & Hb & ? & ?) ? ?. exists b, s. split; [done|]. lia. Qed.

Lemma in_use_mono (h h' : H) p n : heap_live h ⊆ heap_live h' -> in_use h p n -> in_use h' p n.
Proof. intros Hs (b & s & Hb & ?). exists b, s. split; [by eapply lookup_weaken|done]. Qed.

Lemma alloc_in_use (st : ST) p n : heap_ok (dp_heap st) -> live st !! p = Some n -> 0 < p /\ p + n <= 2 ^ 64.
Proof. intros Hok Hl. destruct (live_range _ _ _ Hok Hl) as (? & ? & ?). lia. Qed.

Lemma own_path_kept st st' p l : heap_ok (dp_heap st) -> kept_bytes st st' -> live st ⊆ live st' -> own_path st p l -> own_path st' p l.
Proof.
  intros Hok Hk Hl ((Hn & Hh) & Hu & Hs & Hf). destruct (in_use_range _ _ _ Hok Hu). split; [|split; [|done]].
  - split; [done|]. intros k x Hx. pose proof (lookup_lt_Some _ _ _ Hx). unfold size_of in *. rewrite <- (Hh k x Hx).
    rewrite u64_id by lia. apply Hk. eapply in_use_sub; [exact Hu|lia..].
  - by eapply in_use_mono.
Qed.

Lemma own_path_size st p l : heap_ok (dp_heap st) -> own_path st p l ->
  0 < p /\ p + size_of l <= 2 ^ 64 /\ is_u64 p /\ 4 <= size_of l.
Proof.
  intros Hok (_ & Hu & _). destruct (in_use_range _ _ _ Hok Hu). assert (4 <= size_of l) by (rewrite size_of_body; lia). lia.
Qed.

Lemma own_path_valid st p l : heap_ok (dp_heap st) -> own_path st p l ->
  IsDevicePathValid fuel p 0 (dp_memory st) = Done true /\ GetDevicePathSize fuel p (dp_memory st) = Done (size_of l).
Proof.
  intros Hok Ho. destruct (own_path_size _ _ _ Hok Ho) as (? & ? & ? & ?). destruct Ho as (Hp & Hu & Hs & Hf). split.
  - rewrite (IsDevicePathValid_path fuel _ p 0 l) by (done || lia || unfold MAX_UINTN; lia).
    by rewrite bool_decide_eq_true_2.
  - apply GetDevicePathSize_path; [lia|done..].
Qed.

(** A path stays where it is when a block apart from it is written. *)
Lemma path_at_outside d n m m' p l : same_outside d n m m' -> apart p (size_of l) d n -> 0 <= p -> p + size_of l <= 2 ^ 64 ->
  path_at m p l -> path_at m' p l.
Proof. intros Hs Ha Hp Hr [Hok Hh]. split; [done|]. by apply (holds_outside d n m). Qed.

Lemma path_at_copy m d s l : 0 <= d -> d + size_of l <= 2 ^ 64 -> path_at m s l -> path_at (CopyMem d s (size_of l) m) d l.
Proof. intros Hd Hr [Hok Hh]. split; [done|]. by apply holds_copy. Qed.

Lemma DuplicateDevicePath_made st p l : heap_ok (dp_heap st) -> own_path st p l ->
  exists r st', DuplicateDevicePath fuel p st = Done (r, st') /\ made (pool_gives st (size_of l)) r l st st'.
Proof.
  intros Hok Ho. destruct (own_path_size _ _ _ Hok Ho) as (? & ? & ? & ?). destruct (own_path_valid _ _ _ Hok Ho) as [_ Es].
  unfold DuplicateDevicePath. rewrite Es. mred. rewrite decide_False by lia.
  destruct (dp_alloc (size_of l) st) as [r st1] eqn:Ea. apply dp_alloc_inv in Ea as (Hok1 & Em & Ha); [|done|lia].
  exists r, (if decide (r = 0) then st1 else on_memory (CopyMem r p (size_of l)) st1). split; [done|].
  destruct Ha as [(-> & Eg & HL)|(Eg & Hr & Hr2 & Hn & HL & Hd)]; unfold made; rewrite Eg; (split; [done|]).
  - rewrite decide_True by done. split; [done|]. split; [intros a _; by rewrite Em|done].
  - rewrite decide_False by lia. split; [done|]. split.
    + apply (kept_outside _ _ r (size_of l)); [done|]. simpl. rewrite Em. apply same_outside_copy.
    + simpl. rewrite Em. do 3 (split; [done|]). split; [|done]. apply path_at_copy; [lia|done|apply Ho].
Qed.

(** A path is its nodes and an end node. *)
Lemma path_at_app m p l1 l2 : path_at m p (l1 ++ l2) <->
  Forall node_ok l1 /\ holds m p (body l1) /\ path_at m (p + Z.of_nat (length (body l1))) l2.
Proof.
  unfold path_at, encode, body. rewrite fmap_app, concat_app, <- app_assoc, Forall_app, holds_app. tauto.
Qed.

Lemma AppendDevicePath_made st p1 l1 p2 l2 : heap_ok (dp_heap st) -> own_path st p1 l1 -> own_path st p2 l2 ->
  size_of l1 + size_of l2 <= MAX_UINTN ->
  exists r st', AppendDevicePath fuel gEnd p1 p2 st = Done (r, st') /\ made (pool_gives st (size_of (l1 ++ l2))) r (l1 ++ l2) st st'.
Proof.
  intros Hok Ho1 Ho2 Hs. destruct (own_path_size _ _ _ Hok Ho1) as (? & ? & ? & ?), (own_path_size _ _ _ Hok Ho2) as (? & ? & ? & ?).
  destruct (own_path_valid _ _ _ Hok Ho1) as [Ev1 Es1], (own_path_valid _ _ _ Hok Ho2) as [Ev2 Es2]. unfold MAX_UINTN in Hs.
  unfold AppendDevicePath. rewrite !decide_False by lia. rewrite Ev1. mred. rewrite Ev2. mred. cbn [negb]. rewrite Es1. mred.
  rewrite Es2. mred. unfold END_DEVICE_PATH_LENGTH. rewrite u64_id by lia.
  replace (size_of l1 + size_of l2 - 4) with (size_of (l1 ++ l2)) by (rewrite size_of_app; lia).
  destruct (dp_alloc (size_of (l1 ++ l2)) st) as [r st1] eqn:Ea. pose proof (size_of_app l1 l2) as ES. pose proof (size_of_body l1) as EB.
  apply dp_alloc_inv in Ea as (Hok1 & Em & Ha); [|done|lia]. eexists _, _. split; [done|].
  destruct Ha as [(-> & Eg & HL)|(Eg & Hr & Hr2 & Hn & HL & Hd)]; unfold made; rewrite Eg; (split; [done|]).
  - rewrite decide_True by done. split; [done|]. split; [intros a _; by rewrite Em|done].
  - rewrite decide_False by lia. rewrite u64_id by lia. cbn [on_memory dp_memory dp_heap]. rewrite Em.
    set (m := dp_memory st). set (m1 := CopyMem r p1 (size_of l1) m). set (r2 := r + (size_of l1 - 4)).
    assert (path_at m1 r l1) as Hp1 by (apply path_at_copy; [lia|lia|apply Ho1]).
    assert (same_outside r (size_of (l1 ++ l2)) m m1) as Hs1.
    { eapply same_outside_mono; [| |apply same_outside_copy]; lia. }
    assert (path_at m1 p2 l2) as Hp2.
    { eapply path_at_outside; [exact Hs1| |lia|lia|apply Ho2]. apply Hd; [apply Ho2|lia]. }
    assert (same_outside r2 (size_of l2) m1 (CopyMem r2 p2 (size_of l2) m1)) as Hs2 by apply same_outside_copy.
    split; [done|]. split; [|do 3 (split; [done|]); split; [|done]].
    + apply (kept_outside _ _ r (size_of (l1 ++ l2))); [done|]. simpl. rewrite Em.
      eapply same_outside_trans; [exact Hs1|]. eapply same_outside_mono; [| |exact Hs2]; unfold r2; lia.
    + apply path_at_app. destruct Hp1 as [Hk1 Hh1]. unfold encode in Hh1. apply holds_app in Hh1 as [Hh1 _]. split; [done|].
      replace (r + Z.of_nat (length (body l1))) with r2 by (unfold r2; lia). unfold r2 in *. split; [|apply path_at_copy; (lia || done)].
      eapply holds_outside; [exact Hs2|left; lia|lia|lia|done].
Qed.

(** A null pointer stands for the empty path. *)
Definition opt_path (st : ST) (p : Z) (l : list NODE) : Prop := p = 0 /\ l = [] \/ own_path st p l.

Lemma opt_path_kept st st' p l : heap_ok (dp_heap st) -> kept_bytes st st' -> live st ⊆ live st' -> opt_path st p l -> opt_path st' p l.
Proof. intros Hok Hk Hl [E|Ho]; [by left|right]. by apply (own_path_kept st). Qed.

Lemma AppendDevicePath_opt st p1 l1 p2 l2 : heap_ok (dp_heap st) -> opt_path st p1 l1 -> opt_path st p2 l2 -> own_path st gEnd [] ->
  size_of l1 + size_of l2 <= MAX_UINTN ->
  exists r st', AppendDevicePath fuel gEnd p1 p2 st = Done (r, st') /\ made (pool_gives st (size_of (l1 ++ l2))) r (l1 ++ l2) st st'.
Proof.
  intros Hok [[-> ->]|Ho1] Ho2 He Hs.
  - unfold AppendDevicePath. rewrite decide_True by done. destruct Ho2 as [[-> ->]|Ho2].
    + rewrite decide_False by tauto. by apply DuplicateDevicePath_made.
    + destruct (own_path_size _ _ _ Hok Ho2). rewrite decide_True by lia. by apply DuplicateDevicePath_made.
  - destruct Ho2 as [[-> ->]|Ho2]; [|by apply AppendDevicePath_made].
    destruct (own_path_size _ _ _ Hok Ho1). unfold AppendDevicePath. rewrite decide_False by lia. rewrite decide_True by done.
    rewrite app_nil_r. by apply DuplicateDevicePath_made.
Qed.

(** A path made beside a block that is given back at the end. *)
Lemma made_free o r l t k (st st2 st3 : ST) : live st2 = <[t := k]> (live st) -> live st !! t = None -> kept_bytes st st2 ->
  made o r l st2 st3 -> made o r l st (dp_free t st3).
Proof.
  intros HL Ht Hk (-> & Hok3 & Hk3 & Hr). split; [done|].
  assert (live st ⊆ live st2) as Hsub by (rewrite HL; by apply insert_subseteq).
  assert (is_Some (live st3 !! t)) as Hs.
  { destruct o as [q|]; [destruct Hr as (_ & Hn & -> & _)|rewrite Hr, HL, lookup_insert_eq; by eexists].
    rewrite lookup_insert_ne, HL, lookup_insert_eq; [by eexists|]. intros ->. by rewrite HL, lookup_insert_eq in Hn. }
  destruct (free_live _ _ Hok3 Hs) as [Hok4 HL4]. split; [done|]. split.
  { eapply (kept_bytes_trans st st2); [intros a Ha; by apply (in_use_mono (dp_heap st))|done|exact Hk3]. }
  simpl. rewrite HL4. destruct o as [q|]; [destruct Hr as (Hq0 & Hn & HL3 & Hp & Ha)|].
  2:{ rewrite Hr, HL. by apply delete_insert_id. }
  - rewrite HL in Hn. apply lookup_insert_None in Hn as [Hn Hne']. split; [done|]. rewrite HL3, HL, delete_insert_ne, delete_insert_id by done.
    do 3 (split; [done|]). intros p n Hp0. apply Ha. by apply (in_use_mono (dp_heap st)).
Qed.

(** The answer of the pool when a block of [t] bytes, given back at the end, is
    asked for before one of [n]. *)
Definition pool_gives_beside (st : ST) (t n : Z) : option Z :=
  match heap_alloc t (dp_heap st) with
  | (None, _) => None
  | (Some _, h) => fst (heap_alloc n h)
  end.

Lemma AppendDevicePathNode_made st p l pn n : heap_ok (dp_heap st) -> opt_path st p l -> node_ok n ->
  holds (dp_memory st) pn (node_bytes n) -> inuse st pn (node_length n) -> own_path st gEnd [] ->
  size_of l + size_of [n] <= MAX_UINTN -> (1 < fuel)%nat ->
  exists r st', AppendDevicePathNode fuel gEnd p pn st = Done (r, st') /\
    made (pool_gives_beside st (size_of [n]) (size_of (l ++ [n]))) r (l ++ [n]) st st'.
Proof.
  intros Hok Ho Hn Hh Hu He Hs Hf. pose proof (node_length_bounds n Hn). destruct (in_use_range _ _ _ Hok Hu).
  unfold AppendDevicePathNode. rewrite decide_False by lia.
  destruct (read_node _ _ n Hn Hh) as (_ & _ & ->). unfold END_DEVICE_PATH_LENGTH. rewrite u64_id by lia.
  assert (size_of [n] = node_length n + 4) as ES by (rewrite size_of_cons; unfold size_of; simpl; lia). rewrite <- ES.
  assert (pool_gives_beside st (size_of [n]) (size_of (l ++ [n])) =
    if pool_gives st (size_of [n]) then fst (heap_alloc (size_of (l ++ [n])) (dp_heap (dp_alloc (size_of [n]) st).2)) else None) as EG.
  { unfold pool_gives_beside, pool_gives, dp_alloc. by destruct (heap_alloc (size_of [n]) (dp_heap st)) as [[?|] ?]. }
  rewrite EG. clear EG. destruct (dp_alloc (size_of [n]) st) as [t st1] eqn:Ea. apply dp_alloc_inv in Ea as (Hok1 & Em & Ha); [|done|lia].
  destruct Ha as [(-> & Eg & HL)|(Eg & Ht & Ht2 & Htn & HL & Hd)]; rewrite Eg.
  { rewrite decide_True by done. eexists _, _. split; [done|]. split; [done|]. split; [done|]. split; [intros a _; by rewrite Em|done]. }
  rewrite decide_False by lia. set (m1 := CopyMem t pn (node_length n) (dp_memory st1)).
  assert (holds m1 t (node_bytes n)) as Hh1.
  { unfold m1. rewrite <- node_bytes_length. apply holds_copy; [lia|rewrite node_bytes_length; lia|by rewrite Em]. }
  set (st2 := on_memory (SetDevicePathEndNode gEnd (NextDevicePathNode t m1)) (on_memory (CopyMem t pn (node_length n)) st1)).
  assert (NextDevicePathNode t m1 = t + node_length n) as EN by (rewrite (next_node _ _ n Hn Hh1); apply u64_id; lia).
  assert (same_outside t (size_of [n]) (dp_memory st1) m1) as Hs1.
  { eapply same_outside_mono; [| |apply same_outside_copy]; lia. }
  assert (same_outside (t + node_length n) 4 m1 (dp_memory st2)) as Hs2.
  { unfold st2. cbn [on_memory dp_memory]. rewrite EN. apply same_outside_copy. }
  assert (same_outside t (size_of [n]) (dp_memory st) (dp_memory st2)) as Hs3.
  { rewrite <- Em. eapply same_outside_trans; [exact Hs1|]. eapply same_outside_mono; [| |exact Hs2]; lia. }
  assert (kept_bytes st st2) as Hk by (by apply (kept_outside _ _ t (size_of [n]))).
  assert (live st2 = <[t := size_of [n]]> (live st)) as HL2 by done.
  assert (live st ⊆ live st2) as Hsub by (rewrite HL2; by apply insert_subseteq).
  assert (own_path st2 t [n]) as Hot.
  { split; [|split; [|split; [unfold MAX_UINTN in *; lia|done]]].
    - apply path_at_cons. split; [done|]. split.
      + eapply holds_outside; [exact Hs2|rewrite node_bytes_length; left; lia|lia|rewrite node_bytes_length; lia|done].
      + unfold st2. cbn [on_memory dp_memory]. fold m1. rewrite EN. apply (path_at_copy m1 (t + node_length n) gEnd []);
          [lia|unfold size_of; simpl; lia|].
        eapply path_at_outside; [exact Hs1| | | |rewrite Em; apply He]; destruct (own_path_size _ _ _ Hok He) as (? & ? & ? & ?);
          [|lia..]. apply Hd; [apply He|lia].
    - exists t, (size_of [n]). rewrite HL2, lookup_insert_eq. split; [done|]. lia. }
  destruct (AppendDevicePath_opt st2 p l t [n]) as (r & st3 & E & Hm); [done|by apply (opt_path_kept st)|by right|by apply (own_path_kept st)|done|].
  change (dp_memory (on_memory (CopyMem t pn (node_length n)) st1)) with m1. fold st2. rewrite E. mred.
  eexists _, _. split; [done|]. by apply (made_free _ _ _ t (size_of [n]) st st2).
Qed.

(* ------------------------------------------------------------------ *)
(** ** Instances *)

(** The node between two instances. *)
Definition separator (sub : Z) : NODE := mkNode END_DEVICE_PATH_TYPE sub [].

Lemma separator_ok sub : is_u8 sub -> sub <> END_ENTIRE_DEVICE_PATH_SUBTYPE -> node_ok (separator sub).
Proof.
  intros Hs Hne. split; [|split; [unfold node_length; simpl; lia|split; [by intros [_ ?]|done]]].
  repeat constructor; simpl; unfold END_DEVICE_PATH_TYPE; lia.
Qed.

Lemma separator_bytes sub : node_bytes (separator sub) = [END_DEVICE_PATH_TYPE; sub; 4; 0].
Proof. reflexivity. Qed.

(** One byte of a run of bytes replaced. *)
Lemma holds_poke m p l1 x y l2 : 0 <= p -> p + Z.of_nat (length (l1 ++ x :: l2)) <= 2 ^ 64 -> holds m p (l1 ++ x :: l2) ->
  holds (store_bytes (p + Z.of_nat (length l1)) [y] m) p (l1 ++ y :: l2).
Proof.
  intros Hp Hr. rewrite length_app in Hr. simpl in Hr. rewrite !holds_app, !holds_cons. intros (K1 & _ & K2).
  pose proof (same_outside_store (p + Z.of_nat (length l1)) [y] m) as Hs. simpl in Hs.
  split; [eapply holds_outside; [exact Hs|left; lia|lia|lia|done]|].
  split; [|eapply holds_outside; [exact Hs|right; lia|lia|lia|done]].
  rewrite u64_id by lia. unfold store_bytes. rewrite decide_True by (simpl; lia). by rewrite Z.sub_diag.
Qed.

(** The end node of a path turned into a separator. *)
Lemma end_to_separator m r l : let e := r + Z.of_nat (length (body l)) in
  let m' := store_bytes (e + 1) [END_INSTANCE_DEVICE_PATH_SUBTYPE] m in
  0 <= r -> r + size_of l < 2 ^ 64 -> path_at m r l ->
  holds m' r (body l ++ node_bytes (separator END_INSTANCE_DEVICE_PATH_SUBTYPE)) /\ NextDevicePathNode e m' = e + 4.
Proof.
  intros e m' Hr Hr2 [_ Hh]. rewrite size_of_body in Hr2. set (sep := separator END_INSTANCE_DEVICE_PATH_SUBTYPE).
  assert (holds m' r (body l ++ node_bytes sep)) as Hh2.
  { unfold encode, mUefiDevicePathLibEndDevicePath in Hh.
    change (holds m r (body l ++ [END_DEVICE_PATH_TYPE] ++ [END_ENTIRE_DEVICE_PATH_SUBTYPE; END_DEVICE_PATH_LENGTH; 0])) in Hh.
    rewrite app_assoc in Hh. apply (holds_poke _ _ _ _ END_INSTANCE_DEVICE_PATH_SUBTYPE) in Hh; [|lia|rewrite !length_app; simpl; lia].
    rewrite length_app in Hh. simpl length in Hh. unfold m', e.
    replace (r + Z.of_nat (length (body l)) + 1) with (r + Z.of_nat (length (body l) + 1)) by lia.
    rewrite <- app_assoc in Hh. exact Hh. }
  split; [done|]. apply holds_app in Hh2 as [_ Hh2].
  rewrite (next_node m' e sep); [change (node_length sep) with 4; apply u64_id; unfold e; lia| |done].
  apply separator_ok; [unfold END_INSTANCE_DEVICE_PATH_SUBTYPE; lia|done].
Qed.

(** The copy of the first path, its end node turned into a separator, and the
    second path after it. *)
Lemma AppendDevicePathInstance_made st p1 l1 p2 l2 : heap_ok (dp_heap st) -> own_path st p1 l1 -> own_path st p2 l2 ->
  size_of l1 + size_of l2 <= MAX_UINTN ->
  exists r st', AppendDevicePathInstance fuel p1 p2 st = Done (r, st') /\
    made (pool_gives st (size_of l1 + size_of l2)) r (l1 ++ separator END_INSTANCE_DEVICE_PATH_SUBTYPE :: l2) st st'.
Proof.
  intros Hok Ho1 Ho2 Hs. destruct (own_path_size _ _ _ Hok Ho1) as (? & ? & ? & ?), (own_path_size _ _ _ Hok Ho2) as (? & ? & ? & ?).
  destruct (own_path_valid _ _ _ Hok Ho1) as [Ev1 Es1], (own_path_valid _ _ _ Hok Ho2) as [Ev2 Es2]. unfold MAX_UINTN in Hs.
  unfold AppendDevicePathInstance. rewrite !decide_False by lia. rewrite Ev1. mred. rewrite Ev2. mred. cbn [negb]. rewrite Es1. mred.
  rewrite Es2. mred. rewrite u64_id by lia. set (sep := separator END_INSTANCE_DEVICE_PATH_SUBTYPE).
  assert (size_of l1 + size_of l2 = size_of (l1 ++ sep :: l2)) as ES.
  { rewrite size_of_app, size_of_cons. change (node_length sep) with 4. lia. }
  rewrite ES. destruct (dp_alloc (size_of (l1 ++ sep :: l2)) st) as [r st1] eqn:Ea.
  apply dp_alloc_inv in Ea as (Hok1 & Em & Ha); [|done|lia]. pose proof (size_of_body l1) as EB.
  unfold made. destruct Ha as [(-> & Eg & HL)|(Eg & Hr & Hr2 & Hn & HL & Hd)]; rewrite Eg.
  { rewrite decide_True by done. eexists _, _. split; [done|]. split; [done|]. split; [done|]. split; [intros a _; by rewrite Em|done]. }
  rewrite decide_False by lia. cbn [on_memory dp_memory dp_heap]. rewrite Em.
  set (m1 := CopyMem r p1 (size_of l1) (dp_memory st)).
  assert (path_at m1 r l1) as Hp1 by (apply path_at_copy; [lia|lia|apply Ho1]).
  pose proof (walk_path m1 l1 fuel r Hp1 ltac:(apply Ho1)) as Ew. rewrite !u64_id in Ew by lia. rewrite Ew. mred.
  rewrite u64_id by lia. cbn [on_memory dp_memory dp_heap].
  destruct (end_to_separator m1 r l1 ltac:(lia) ltac:(lia) Hp1) as [Hh2 EN].
  set (e := r + Z.of_nat (length (body l1))) in *. set (m2 := store_bytes (e + 1) [END_INSTANCE_DEVICE_PATH_SUBTYPE] m1) in *.
  assert (node_ok sep) as Hsep by (apply separator_ok; [unfold END_INSTANCE_DEVICE_PATH_SUBTYPE; lia|done]).
  rewrite EN. eexists _, _. split; [done|]. cbn [on_memory dp_memory dp_heap].
  assert (same_outside r (size_of (l1 ++ sep :: l2)) (dp_memory st) m2) as Hs2.
  { eapply same_outside_trans; (eapply same_outside_mono; [| |apply same_outside_copy || apply same_outside_store]); simpl; lia. }
  pose proof (same_outside_copy (e + 4) p2 (size_of l2) m2) as Hs3.
  assert (path_at m2 p2 l2) as Hp2.
  { eapply path_at_outside; [exact Hs2| |lia|lia|apply Ho2]. apply Hd; [apply Ho2|lia]. }
  split; [done|]. split; [done|]. split; [|do 3 (split; [done|]); split; [|done]].
  - apply (kept_outside _ _ r (size_of (l1 ++ sep :: l2))); [done|]. cbn [on_memory dp_memory].
    rewrite Em. eapply same_outside_trans; [exact Hs2|]. eapply same_outside_mono; [| |exact Hs3]; lia.
  - cbn [on_memory dp_memory]. rewrite Em. fold m1. fold m2. apply holds_app in Hh2 as [Hb Hsp]. apply path_at_app.
    split; [apply Hp1|]. split; [eapply holds_outside; [exact Hs3|left; lia|lia|lia|done]|].
    apply path_at_cons. change (node_length sep) with 4. fold e. split; [done|]. split; [|apply path_at_copy; [lia|lia|done]].
    assert (Z.of_nat (length (node_bytes sep)) = 4) as E4 by done.
    eapply holds_outside; [exact Hs3|left; lia|lia|lia|done].
Qed.

(** A path without separators. *)
Definition single (l : list NODE) : Prop := Forall (fun n => node_type n <> END_DEVICE_PATH_TYPE) l.

(** What comes after the first instance: nothing, or a separator and more;
    [x] is the sub-type of the node in between and [next] where more is. *)
Definition remainder (p : Z) (l1 rest : list NODE) (x next : Z) : Prop :=
  rest = [] /\ x = END_ENTIRE_DEVICE_PATH_SUBTYPE /\ next = 0 \/
  exists l2, rest = separator x :: l2 /\ is_u8 x /\ x <> END_ENTIRE_DEVICE_PATH_SUBTYPE /\ next = p + size_of l1.

Lemma read_remainder m p l1 rest x next : path_at m (p + Z.of_nat (length (body l1))) rest -> remainder p l1 rest x next ->
  let e := p + Z.of_nat (length (body l1)) in
  IsDevicePathEndType e m = true /\ DevicePathSubType e m = x /\ DevicePathNodeLength e m = 4.
Proof.
  intros Hp [(-> & -> & _)|(l2 & -> & Hx & Hne & _)] e; unfold IsDevicePathEndType.
  - destruct Hp as [_ Hp]. by destruct (read_end m e Hp) as (-> & -> & -> & _).
  - apply path_at_cons in Hp as (Hok & Hn & _). by destruct (read_node m e _ Hok Hn) as (-> & -> & ->).
Qed.

(** With the sub-type of an end node the path stops after its first
    instance. *)
Lemma cut_path m p l1 rest x next : let e := p + Z.of_nat (length (body l1)) in
  0 <= p -> p + size_of (l1 ++ rest) <= 2 ^ 64 -> remainder p l1 rest x next -> path_at m p (l1 ++ rest) ->
  path_at (store_bytes (e + 1) [END_ENTIRE_DEVICE_PATH_SUBTYPE] m) p l1.
Proof.
  intros e Hp Hr Hrem [Hok Hh]. apply Forall_app in Hok as [Hok _]. split; [done|]. unfold size_of in Hr.
  assert (exists tail, encode (l1 ++ rest) = (body l1 ++ [END_DEVICE_PATH_TYPE]) ++ x :: [4; 0] ++ tail) as [tail E].
  { unfold encode, body. rewrite fmap_app, concat_app, <- !app_assoc. destruct Hrem as [(-> & -> & _)|(l2 & -> & _)].
    - exists []. by rewrite <- app_assoc.
    - exists (encode l2). by rewrite fmap_cons, concat_cons, separator_bytes, <- !app_assoc. }
  rewrite E in Hh, Hr. apply (holds_poke _ _ _ _ END_ENTIRE_DEVICE_PATH_SUBTYPE) in Hh; [|done|done].
  rewrite length_app in Hh. simpl length in Hh. unfold e.
  replace (p + Z.of_nat (length (body l1)) + 1) with (p + Z.of_nat (length (body l1) + 1)) by lia.
  replace (_ ++ _ :: _ ++ tail) with (encode l1 ++ tail) in Hh by (unfold encode; by rewrite <- !app_assoc).
  by apply holds_app in Hh as [Hh _].
Qed.

Lemma walk_single m p l n : Forall node_ok l -> single l -> holds m p (body l) -> is_u64 p ->
  p + Z.of_nat (length (body l)) < 2 ^ 64 -> IsDevicePathEndType (p + Z.of_nat (length (body l))) m = true -> (length l < n)%nat ->
  walk n IsDevicePathEndType p m = Done (p + Z.of_nat (length (body l))).
Proof.
  intros Hok Hs Hh Hu Hr He Hf. pose proof (walk_nodes IsDevicePathEndType m l n p Hok Hh) as Hw.
  rewrite !u64_id in Hw by lia. apply Hw; [|done|done]. intros q a Ha Hq. unfold IsDevicePathEndType.
  destruct (read_node m q a) as (-> & _); [by eapply Forall_forall|done|]. apply Z.eqb_neq. by eapply (Forall_forall (fun n => node_type n <> _)).
Qed.

Lemma GetNextDevicePathInstance_made st p l1 rest x next Size : heap_ok (dp_heap st) -> own_path st p (l1 ++ rest) -> single l1 ->
  remainder p l1 rest x next ->
  exists r st', GetNextDevicePathInstance fuel (Some p) Size st = Done (r, Some next, size_of l1, st') /\
    made (pool_gives st (size_of l1)) r l1 st st'.
Proof.
  intros Hok Ho Hs Hrem. destruct (own_path_size _ _ _ Hok Ho) as (? & Hr & ? & ?).
  destruct (own_path_valid _ _ _ Hok Ho) as [Ev _]. destruct Ho as (Hp & Hu & Hsz & Hf). rewrite length_app in Hf.
  pose proof (size_of_app l1 rest) as ES. pose proof (size_of_body l1) as EB. pose proof (size_of_body rest) as ER.
  set (m := dp_memory st) in *. set (e := p + Z.of_nat (length (body l1))). pose proof (proj1 (path_at_app m p l1 rest) Hp) as (Hok1 & Hb & Hrest).
  destruct (read_remainder m p l1 rest x next Hrest Hrem) as (Ee & Ex & _).
  unfold GetNextDevicePathInstance. rewrite decide_False by lia. fold m. rewrite Ev. mred. cbn [negb].
  rewrite (walk_single m p l1) by (done || lia). mred. fold e. rewrite (u64_id (e - p)), (u64_id (e - p + 4)), !(u64_id (e + 1)) by (unfold e; lia).
  change (DevicePathSubType e m = x) in Ex. rewrite Ex. set (st1 := on_memory (store_bytes (e + 1) [END_ENTIRE_DEVICE_PATH_SUBTYPE]) st).
  assert (own_path st1 p l1) as Ho1.
  { split; [apply (cut_path m p l1 rest x next); (lia || done)|]. split; [eapply in_use_sub; [exact Hu|lia..]|]. split; lia. }
  destruct (DuplicateDevicePath_made st1 p l1 Hok Ho1) as (r & st2 & -> & Er & Hok2 & Hk2 & Hm). mred.
  change (pool_gives st1 (size_of l1)) with (pool_gives st (size_of l1)) in *.
  set (st3 := on_memory (store_bytes (e + 1) [x]) st2).
  assert (forall a, a <> e + 1 -> dp_memory st3 a = dp_memory st2 a) as Hst3 by (intros a Ha; apply same_outside_store; simpl; lia).
  assert (kept_bytes st st3) as Hk.
  { intros a Ha. destruct (decide (a = e + 1)) as [->|Hne].
    - unfold st3. cbn [on_memory dp_memory]. unfold store_bytes. rewrite decide_True by (simpl; lia). rewrite Z.sub_diag. simpl.
      rewrite <- Ex. unfold DevicePathSubType. by rewrite u64_id by (unfold e; lia).
    - rewrite Hst3 by done. rewrite (Hk2 a Ha). apply same_outside_store. simpl. lia. }
  assert (path_at (dp_memory st3) e rest) as Hrest3.
  { apply (path_at_app _ p l1 rest). apply (own_path_kept st st3); [done|done| |split; [done|split; [done|split; [done|rewrite length_app; lia]]]].
    unfold st3; simpl. destruct (pool_gives st _) as [q|]; [|by rewrite Hm]. destruct Hm as (_ & ? & -> & _). by apply insert_subseteq. }
  destruct (read_remainder (dp_memory st3) p l1 rest x next Hrest3 Hrem) as (_ & Ex3 & EL3). fold e in Ex3, EL3.
  fold st3. rewrite Ex3. unfold NextDevicePathNode. rewrite EL3. exists r, st3. split.
  - assert ((if x =? END_ENTIRE_DEVICE_PATH_SUBTYPE then 0 else u64 (e + 4)) = next) as ->.
    { destruct Hrem as [(_ & -> & ->)|(l2 & E & _ & Hne & ->)]; [done|]. rewrite (proj2 (Z.eqb_neq _ _)) by done.
      subst rest. rewrite size_of_cons, (size_of_body l2) in ES. change (node_length (separator x)) with 4 in ES.
      unfold e. rewrite u64_id; lia. }
    by replace (e - p + 4) with (size_of l1) by (unfold e; lia).
  - split; [done|]. split; [done|]. split; [done|]. destruct (pool_gives st _) as [q|]; [|done].
    destruct Hm as (Hq0 & Hn & HL & Hpr & Ha). do 3 (split; [done|]). split; [|done].
    pose proof (alloc_in_use st2 q (size_of l1) Hok2 ltac:(rewrite HL; apply lookup_insert_eq)) as [Hr0 Hr1].
    eapply (path_at_outside (e + 1) 1 (dp_memory st2)); [intros a Hna; apply Hst3; lia| |lia|lia|done].
    specialize (Ha (e + 1) 1). unfold apart in *. destruct Ha as [Ha|Ha]; [eapply in_use_sub; [exact Hu|unfold e; lia..]|lia|right|left]; lia.
Qed.
End making.

(** More than one instance: some node separates two. *)
Definition is_separator (n : NODE) : bool :=
  (node_type n =? END_DEVICE_PATH_TYPE) && (node_sub n =? END_INSTANCE_DEVICE_PATH_SUBTYPE).

Lemma instance_loop_path m l : forall n p, path_at m p l -> (length l < n)%nat ->
  instance_loop n (u64 p) m = Done (existsb is_separator l).
Proof.
  induction l as [|a l IH]; intros n p Hp Hf; (destruct n as [|n]; [simpl in Hf; lia|]); cbn [instance_loop existsb].
  - destruct (read_end m (u64 p)) as (_ & _ & _ & ->); [apply holds_u64, Hp|done].
  - apply path_at_cons in Hp as (Hok & Hn & Hl). pose proof (proj2 (holds_u64 m p _) Hn) as Hn'.
    rewrite (node_not_end m _ a Hok Hn'). unfold IsDevicePathEndInstance, IsDevicePathEndType, is_separator.
    destruct (read_node m _ a Hok Hn') as (-> & -> & _). destruct (_ && _); [done|]. cbn [orb].
    rewrite (next_node m _ a Hok Hn'), u64_add_l. apply IH; [done|simpl in Hf; lia].
Qed.

Lemma IsDevicePathMultiInstance_path {H} `{HeapWf H} fuel (st : DP_STATE H) p l : heap_ok (dp_heap st) -> own_path fuel st p l ->
  IsDevicePathMultiInstance fuel p (dp_memory st) = Done (existsb is_separator l).
Proof.
  intros Hok Ho. destruct (own_path_size _ _ _ _ Hok Ho) as (? & ? & ? & _). unfold IsDevicePathMultiInstance.
  rewrite decide_False by lia. destruct (own_path_valid _ _ _ _ Hok Ho) as [-> _]. mred. rewrite <- (u64_id p) by done.
  apply instance_loop_path; apply Ho.
Qed.

Lemma made_own {H} `{HeapWf H} fuel (st st' : DP_STATE H) o r l : made o r l st st' -> r <> 0 -> size_of l <= MAX_UINTN ->
  (length l < fuel)%nat -> own_path fuel st' r l.
Proof.
  intros (-> & Hok & _ & Hm) Hr Hs Hf. destruct o as [r|]; [|done]. destruct Hm as (_ & _ & HL & Hp & _). simpl in *.
  split; [done|]. split; [|done]. exists r, (size_of l). rewrite HL, lookup_insert_eq. split; [done|]. lia.
Qed.

(** What is made is null exactly when the pool has no block. *)
Lemma made_null {H} `{HeapWf H} (st st' : DP_STATE H) o r l : made o r l st st' -> r <> 0 <-> is_Some o.
Proof.
  intros (-> & _ & _ & Hm). destruct o as [q|]; simpl.
  - destruct Hm as (? & _). split; [by eexists|lia].
  - split; [done|by intros [? ?]].
Qed.

(* ------------------------------------------------------------------ *)
(** ** Properties *)

(** C38: the check of a device path ends when every node can take four bytes
    of the limit; what it accepts is exactly a run of well-formed nodes and an
    end node within the limit, of which there is only one at an address; and
    the size it reports is the size of these nodes, or 0 if there is no such
    path. *)
Theorem IsDevicePathValid_correct (fuel : nat) (m : MEMORY) (p MaxSize : Z) :
  (forall a, is_u8 (m a)) -> is_u64 p -> 0 <= MaxSize <= MAX_UINTN ->
  (size_limit MaxSize < 4 * Z.of_nat fuel -> exists b, IsDevicePathValid fuel p MaxSize m = Done b) /\
  (forall b, IsDevicePathValid fuel p MaxSize m = Done b ->
     b = true <-> p <> 0 /\ exists l, path_at m p l /\ size_of l <= size_limit MaxSize) /\
  (forall l l', path_at m p l -> path_at m p l' -> l = l') /\
  (forall s, GetDevicePathSize fuel p m = Done s ->
     (p <> 0 /\ exists l, path_at m p l /\ size_of l <= MAX_UINTN /\ s = size_of l) \/
     (s = 0 /\ ~ (p <> 0 /\ exists l, path_at m p l /\ size_of l <= MAX_UINTN))).
Proof.
  intros Hm Hp HM. split; [|split; [by intros b; apply IsDevicePathValid_iff|split; [intros l l'; apply path_at_unique|]]].
  - intros Hf. unfold IsDevicePathValid. destruct (decide (p = 0 \/ _)) as [|Hs]; [by eexists|]. fold (size_limit MaxSize).
    unfold END_DEVICE_PATH_LENGTH in Hs. apply valid_loop_ends; [lia|].
    unfold size_limit, MAX_UINTN. destruct (decide (MaxSize = 0)); lia.
  - intros s. unfold GetDevicePathSize. destruct (decide (p = 0)) as [|Hp0]; [intros E; apply Done_inj in E as <-; right; tauto|].
    rewrite bind_done. intros (b & Eb & E). pose proof (IsDevicePathValid_iff fuel m p 0 b Hm ltac:(unfold MAX_UINTN; lia) Eb) as Hb.
    change (size_limit 0) with MAX_UINTN in Hb. destruct b; [left|right; apply Done_inj in E as <-; split; [done|]; by intros ?%Hb].
    split; [done|]. destruct (proj1 Hb eq_refl) as (_ & l & Hl & Hs). exists l. split; [done|]. split; [done|].
    assert (GetDevicePathSize fuel p m = Done s) as E2 by (unfold GetDevicePathSize; by rewrite decide_False, Eb).
    apply (GetDevicePathSize_mono m p fuel (fuel + S (length l))) in E2; [|lia].
    rewrite (GetDevicePathSize_path _ m p l) in E2 by (done || lia). by apply Done_inj in E2.
Qed.

(** Appending a path to a path, or a node to a path, with null for the
    empty path, returns null exactly when the pool has no block, of the size of
    the joined path or for the copy of the node, and otherwise the block, a
    fresh one that holds the nodes of both in order; the memory in use keeps its bytes, and the block the node was
    copied to is given back. *)
Theorem AppendDevicePath_correct {H} `{HeapWf H} (fuel : nat) (gEnd : Z) (st : DP_STATE H) (p1 p2 pn : Z) (l1 l2 : list NODE) (n : NODE) :
  heap_ok (dp_heap st) -> own_path fuel st gEnd [] -> opt_path fuel st p1 l1 -> opt_path fuel st p2 l2 ->
  size_of l1 + size_of l2 <= MAX_UINTN ->
  node_ok n -> holds (dp_memory st) pn (node_bytes n) -> in_use (dp_heap st) pn (node_length n) ->
  size_of l1 + size_of [n] <= MAX_UINTN -> (1 < fuel)%nat ->
  (exists r st', AppendDevicePath fuel gEnd p1 p2 st = Done (r, st') /\
     made (pool_gives st (size_of (l1 ++ l2))) r (l1 ++ l2) st st') /\
  (exists r st', AppendDevicePathNode fuel gEnd p1 pn st = Done (r, st') /\
     made (pool_gives_beside st (size_of [n]) (size_of (l1 ++ [n]))) r (l1 ++ [n]) st st').
Proof. intros. split; [by apply AppendDevicePath_opt|by apply AppendDevicePathNode_made]. Qed.

(** C39: two paths of one instance, in blocks of the pool in use, with sizes
    whose sum fits a word, joined by [AppendDevicePathInstance]: the result is null exactly when the pool has no
    block of the size of both, and otherwise that block, which holds the nodes
    of the first, a separator and those of the second.  That is a path of more
    than one instance; [GetNextDevicePathInstance] takes the first instance off,
    and then the second, reporting its size and where the next one is, until
    nothing is left; each is copied, with the nodes it was made of, to the block
    the pool gives for it, or null is returned if it gives none. *)
Theorem DevicePathInstance_roundtrip {H} `{HeapWf H} (fuel : nat) (st : DP_STATE H) (p1 p2 Size : Z) (l1 l2 : list NODE) :
  heap_ok (dp_heap st) -> own_path fuel st p1 l1 -> own_path fuel st p2 l2 -> single l1 -> single l2 ->
  size_of l1 + size_of l2 <= MAX_UINTN -> (length l1 + length l2 + 1 < fuel)%nat ->
  exists r st1, AppendDevicePathInstance fuel p1 p2 st = Done (r, st1) /\
    made (pool_gives st (size_of l1 + size_of l2)) r (l1 ++ separator END_INSTANCE_DEVICE_PATH_SUBTYPE :: l2) st st1 /\
    (r <> 0 <-> is_Some (pool_gives st (size_of l1 + size_of l2))) /\
    (r <> 0 -> IsDevicePathMultiInstance fuel r (dp_memory st1) = Done true /\
     exists a st2 b st3,
       GetNextDevicePathInstance fuel (Some r) Size st1 = Done (a, Some (r + size_of l1), size_of l1, st2) /\
       made (pool_gives st1 (size_of l1)) a l1 st1 st2 /\
       GetNextDevicePathInstance fuel (Some (r + size_of l1)) (size_of l1) st2 = Done (b, Some 0, size_of l2, st3) /\
       made (pool_gives st2 (size_of l2)) b l2 st2 st3).
Proof.
  intros Hok Ho1 Ho2 Hs1 Hs2 Hs Hf.
  destruct (AppendDevicePathInstance_made fuel st p1 l1 p2 l2) as (r & st1 & E & Hm); [done..|]. exists r, st1.
  split; [done|]. split; [done|]. split; [by eapply made_null|]. intros Hr. set (sep := separator END_INSTANCE_DEVICE_PATH_SUBTYPE) in *.
  assert (size_of (l1 ++ sep :: l2) = size_of l1 + size_of l2) as ES.
  { rewrite size_of_app, size_of_cons. change (node_length sep) with 4. lia. }
  assert (own_path fuel st1 r (l1 ++ sep :: l2)) as Ho by (eapply (made_own fuel st); [done|done|lia|rewrite length_app; simpl; lia]).
  destruct Hm as (_ & Hok1 & _). split.
  { rewrite (IsDevicePathMultiInstance_path fuel st1 r _ Hok1 Ho). by rewrite existsb_app, orb_comm. }
  destruct (GetNextDevicePathInstance_made fuel st1 r l1 (sep :: l2) 1 (r + size_of l1) Size) as (a & st2 & E2 & Hm2); [done..| |].
  { right. exists l2. split; [done|]. split; [lia|]. split; done. }
  assert (own_path fuel st2 (r + size_of l1) (l2 ++ [])) as Ho2'.
  { destruct Hm2 as (_ & _ & Hk & HL). assert (heap_live (dp_heap st1) ⊆ heap_live (dp_heap st2)).
    { destruct (pool_gives st1 _) as [q|]; [|by rewrite HL]. destruct HL as (_ & ? & -> & _). by apply insert_subseteq. }
    rewrite app_nil_r. apply (own_path_kept fuel st1); [done..|]. destruct Ho as (Hp & Hu & _ & _).
    apply path_at_app in Hp as (_ & _ & Hp). apply path_at_cons in Hp as (_ & _ & Hp). pose proof (size_of_body l1).
    change (node_length sep) with 4 in Hp. split; [|split; [|split; [unfold MAX_UINTN in *|]]].
    - by replace (r + size_of l1) with (r + Z.of_nat (length (body l1)) + 4) by lia.
    - eapply in_use_sub; [exact Hu|lia|lia].
    - lia.
    - lia. }
  pose proof Hm2 as (_ & Hok2 & _).
  destruct (GetNextDevicePathInstance_made fuel st2 (r + size_of l1) l2 [] END_ENTIRE_DEVICE_PATH_SUBTYPE 0 (size_of l1))
    as (b & st3 & E3 & Hm3); [done..|by left|].
  exists a, st2, b, st3. split; [exact E2|]. split; [exact Hm2|]. split; [exact E3|exact Hm3].
Qed.

(* ------------------------------------------------------------------ *)
(** ** Concrete runs *)

(** A root bridge, a PCI device and a file name, at two addresses, the end
    node and a single node, each in a block of its own. *)
Definition demo_bridge : NODE := mkNode 2 1 [0xD0; 0x41; 0x03; 0x0A; 0; 0; 0; 0].
Definition demo_device : NODE := mkNode 1 1 [0; 0x1F].
Definition demo_file : NODE := mkNode 4 4 [0x61; 0; 0; 0].

Definition demo_memory : MEMORY :=
  store_bytes 0x1000 (encode [demo_bridge; demo_device]) (store_bytes 0x2000 (encode [demo_file])
    (store_bytes 0x3000 (node_bytes demo_device) (store_bytes 0x100 mUefiDevicePathLibEndDevicePath (fun _ => 0)))).

Definition demo_paths : DP_STATE BUMP :=
  mkDp demo_memory (mkBump 0x10000 (<[0x100 := 4]> (<[0x1000 := 22]> (<[0x2000 := 12]> (<[0x3000 := 6]> ∅)))) 8).

Lemma demo_nodes_ok : Forall node_ok [demo_bridge; demo_device; demo_file].
Proof.
  assert (forall n, forallb (fun b => (0 <=? b) && (b <? 256)) (node_type n :: node_sub n :: node_data n) = true ->
    node_length n < 65536 -> node_type n <> END_DEVICE_PATH_TYPE ->
    (node_type n = MEDIA_DEVICE_PATH -> exists front, node_bytes n = front ++ [0; 0]) -> node_ok n) as Hok.
  { intros n Hb HL He Hf. split; [|split; [done|split; [by intros [? _]|auto]]].
    apply Forall_forall. intros b Hi. apply list_elem_of_In in Hi. rewrite forallb_forall in Hb. specialize (Hb b Hi). lia. }
  apply Forall_cons_2; [|apply Forall_cons_2; [|apply Forall_cons_2; [|by apply Forall_nil]]]; apply Hok; try done.
  intros _. by exists [4; 4; 8; 0; 0x61; 0].
Qed.

Lemma demo_heap_ok : heap_ok (dp_heap demo_paths).
Proof.
  change (bump_ok (dp_heap demo_paths)). split; simpl; [lia|]. intros p n Hp.
  repeat (apply lookup_insert_Some in Hp as [[<- <-]|[_ Hp]]; [lia|]). by rewrite lookup_empty in Hp.
Qed.

Lemma holds_computed m p l : bytes_of m p (length l) = l -> holds m p l.
Proof. intros E. pose proof (holds_bytes_of m p (length l)) as Hb. by rewrite E in Hb. Qed.

Lemma demo_own p l : Forall node_ok l -> bytes_of demo_memory p (length (encode l)) = encode l -> (length l < 9)%nat ->
  bump_live (dp_heap demo_paths) !! p = Some (size_of l) -> size_of l <= MAX_UINTN -> own_path 9 demo_paths p l.
Proof.
  intros Hok Hb Hf Hl Hs. split; [split; [done|by apply holds_computed]|]. split; [|done]. exists p, (size_of l).
  split; [exact Hl|lia].
Qed.

Lemma demo_memory_u8 a : is_u8 (demo_memory a).
Proof.
  assert (forall p l (m : MEMORY), Forall (fun b => is_u8 b) l -> (forall a, is_u8 (m a)) -> forall a, is_u8 (store_bytes p l m a)) as Hs.
  { intros p l m Hl Hm b. unfold store_bytes. destruct (decide _); [|apply Hm].
    destruct (l !! _) eqn:E; simpl; [|lia]. by eapply Forall_lookup in E; [|exact Hl]. }
  unfold demo_memory. repeat apply Hs; [..|intros; lia]; vm_compute; repeat constructor; discriminate.
Qed.

Lemma demo_path1 : own_path 9 demo_paths 0x1000 [demo_bridge; demo_device].
Proof.
  pose proof demo_nodes_ok as Hn. rewrite !Forall_cons in Hn. destruct Hn as (? & ? & ? & _).
  apply demo_own; [by repeat (apply Forall_cons_2; [done|])|reflexivity|simpl; lia|reflexivity|vm_compute; discriminate].
Qed.

Lemma demo_path2 : own_path 9 demo_paths 0x2000 [demo_file].
Proof.
  pose proof demo_nodes_ok as Hn. rewrite !Forall_cons in Hn. destruct Hn as (? & ? & ? & _).
  apply demo_own; [by repeat (apply Forall_cons_2; [done|])|reflexivity|simpl; lia|reflexivity|vm_compute; discriminate].
Qed.

Lemma demo_end : own_path 9 demo_paths 0x100 [].
Proof. apply demo_own; [by constructor|reflexivity|simpl; lia|reflexivity|vm_compute; discriminate]. Qed.

(** The pool of the example has a block for the two paths. *)
Example demo_pool_gives : pool_gives demo_paths (size_of [demo_bridge; demo_device] + size_of [demo_file]) = Some 0x10000.
Proof. reflexivity. Qed.

(** The whole paths as the library sees them. *)
Example demo_sizes : GetDevicePathSize 9 0x1000 demo_memory = Done 22 /\ GetDevicePathSize 9 0x2000 demo_memory = Done 12 /\
  GetDevicePathSize 9 0x3000 demo_memory = Done 0 /\ IsDevicePathValid 9 0x1000 21 demo_memory = Done false.
Proof. split_and!; vm_compute; reflexivity. Qed.

Lemma IsDevicePathValid_correct_witness :
  (forall b, IsDevicePathValid 9 0x1000 22 demo_memory = Done b ->
     b = true <-> 0x1000 <> 0 /\ exists l, path_at demo_memory 0x1000 l /\ size_of l <= size_limit 22) /\
  IsDevicePathValid 9 0x1000 22 demo_memory = Done true.
Proof.
  split; [|reflexivity].
  apply (IsDevicePathValid_correct 9 demo_memory 0x1000 22 demo_memory_u8); unfold MAX_UINTN; lia.
Defined.

Lemma AppendDevicePath_correct_witness :
  (exists r st', AppendDevicePath 9 0x100 0x1000 0x2000 demo_paths = Done (r, st') /\
     made (pool_gives demo_paths (size_of ([demo_bridge; demo_device] ++ [demo_file]))) r ([demo_bridge; demo_device] ++ [demo_file]) demo_paths st') /\
  (exists r st', AppendDevicePathNode 9 0x100 0x1000 0x3000 demo_paths = Done (r, st') /\
     made (pool_gives_beside demo_paths (size_of [demo_device]) (size_of ([demo_bridge; demo_device] ++ [demo_device]))) r
       ([demo_bridge; demo_device] ++ [demo_device]) demo_paths st').
Proof.
  apply (AppendDevicePath_correct 9 0x100 demo_paths 0x1000 0x2000 0x3000 [demo_bridge; demo_device] [demo_file] demo_device).
  - exact demo_heap_ok.
  - exact demo_end.
  - right. exact demo_path1.
  - right. exact demo_path2.
  - vm_compute. discriminate.
  - pose proof demo_nodes_ok as Hn. rewrite !Forall_cons in Hn. apply Hn.
  - by apply holds_computed.
  - exists 0x3000, 6. split; [reflexivity|vm_compute; by split].
  - vm_compute. discriminate.
  - lia.
Defined.

Lemma DevicePathInstance_roundtrip_witness :
  let l1 := [demo_bridge; demo_device] in let l2 := [demo_file] in
  exists r st1, AppendDevicePathInstance 9 0x1000 0x2000 demo_paths = Done (r, st1) /\
    made (pool_gives demo_paths (size_of l1 + size_of l2)) r (l1 ++ separator END_INSTANCE_DEVICE_PATH_SUBTYPE :: l2) demo_paths st1 /\
    (r <> 0 <-> is_Some (pool_gives demo_paths (size_of l1 + size_of l2))) /\
    (r <> 0 -> IsDevicePathMultiInstance 9 r (dp_memory st1) = Done true /\
     exists a st2 b st3,
       GetNextDevicePathInstance 9 (Some r) 0 st1 = Done (a, Some (r + size_of l1), size_of l1, st2) /\
       made (pool_gives st1 (size_of l1)) a l1 st1 st2 /\
       GetNextDevicePathInstance 9 (Some (r + size_of l1)) (size_of l1) st2 = Done (b, Some 0, size_of l2, st3) /\
       made (pool_gives st2 (size_of l2)) b l2 st2 st3).
Proof.
  intros l1 l2. apply (DevicePathInstance_roundtrip 9 demo_paths 0x1000 0x2000 0 l1 l2 demo_heap_ok demo_path1 demo_path2).
  - repeat constructor; discriminate.
  - repeat constructor; discriminate.
  - vm_compute. discriminate.
  - simpl. lia.
Defined.
