(* ===== verification/DxeHand.v ===== *)
(** * DXE core: the handle database

    [Hand/Handle.c], [Hand/Locate.c] and [Hand/Notify.c] of
    [src/edk2/MdeModulePkg/Core/Dxe]: handles, the protocol interfaces
    installed on them, who has opened them, notification of new ones, and the
    searches.

    A structure from the pool is its address; a linked list is the list of
    the addresses on it, and a pointer into one the address it points at
    ([None] for the list's head).  Following a pointer to a structure that has
    been freed is a fault.  The ordered collection of handles is the map it
    represents, from handle to the node that holds it.  The pool is the class
    [Heap]; connecting and disconnecting drivers are parameters, which may
    change the database.  Locks and task priorities are not modelled: a
    signalled event is queued until the lock is released. *)
From Stdlib Require Import ZArith Lia.
From stdpp Require Import base gmap list.
From S2P Require Import Prelude Pointer Firmware DxePage Heap DevicePath.
#[local] Open Scope Z_scope.

(* ------------------------------------------------------------------ *)
(** ** Data *)

Definition EFI_ACCESS_DENIED : Z := Z.lor EFI_ERROR_BIT 15.
Definition EFI_ALREADY_STARTED : Z := Z.lor EFI_ERROR_BIT 20.

Definition EFI_ERROR (Status : Z) : bool := EFI_ERROR_BIT <=? Status.

Definition EFI_OPEN_PROTOCOL_BY_HANDLE_PROTOCOL : Z := 0x1.
Definition EFI_OPEN_PROTOCOL_GET_PROTOCOL : Z := 0x2.
Definition EFI_OPEN_PROTOCOL_TEST_PROTOCOL : Z := 0x4.
Definition EFI_OPEN_PROTOCOL_BY_CHILD_CONTROLLER : Z := 0x8.
Definition EFI_OPEN_PROTOCOL_BY_DRIVER : Z := 0x10.
Definition EFI_OPEN_PROTOCOL_EXCLUSIVE : Z := 0x20.

Definition AllHandles : Z := 0.
Definition ByRegisterNotify : Z := 1.
Definition ByProtocol : Z := 2.

Definition EFI_NATIVE_INTERFACE : Z := 0.

(** The key and the lists of a handle. *)
Record IHANDLE : Type := mkHandle {
  Protocols : list Z;
  LocateRequest : Z;
  HandleKey : Z;
}.

Record PROTOCOL_NOTIFY : Type := mkNotify {
  NotifyAddress : Z;
  NotifyEvent : Z;
  Position : option Z;
}.

Record PROTOCOL_ENTRY : Type := mkProtocol {
  EntryAddress : Z;
  ProtocolID : EFI_GUID;
  ByProtocolList : list Z;
  Notify : list PROTOCOL_NOTIFY;
}.

Record OPEN_PROTOCOL_DATA : Type := mkOpen {
  OpenAddress : Z;
  AgentHandle : Z;
  ControllerHandle : Z;
  OpenAttributes : Z;
  OpenCount : Z;
}.

Record PROTOCOL_INTERFACE : Type := mkInterface {
  HandleOf : Z;
  ProtocolOf : Z;
  InterfaceOf : Z;
  OpenList : list OPEN_PROTOCOL_DATA;
  OpenListCount : Z;
}.

Record DATABASE (H : Type) : Type := mkDatabase {
  handles : gmap Z IHANDLE;
  gHandleList : list Z;
  gOrderedHandleList : gmap Z Z;
  mProtocolDatabase : list PROTOCOL_ENTRY;
  interfaces : gmap Z PROTOCOL_INTERFACE;
  gHandleDatabaseKey : Z;
  mEfiLocateHandleRequest : Z;
  signalled : list Z;
  flagged : gset Z;
  pool_heap : H;
}.
Arguments mkDatabase {H}.
Arguments handles {H}.
Arguments gHandleList {H}.
Arguments gOrderedHandleList {H}.
Arguments mProtocolDatabase {H}.
Arguments interfaces {H}.
Arguments gHandleDatabaseKey {H}.
Arguments mEfiLocateHandleRequest {H}.
Arguments signalled {H}.
Arguments flagged {H}.
Arguments pool_heap {H}.

Section database.
Context {H : Type} `{Heap H}.
#[local] Abbreviation DB := (DATABASE H).

Definition with_handles (h : gmap Z IHANDLE) (db : DB) : DB :=
  mkDatabase h (gHandleList db) (gOrderedHandleList db) (mProtocolDatabase db) (interfaces db) (gHandleDatabaseKey db)
    (mEfiLocateHandleRequest db) (signalled db) (flagged db) (pool_heap db).
Definition with_list (l : list Z) (db : DB) : DB :=
  mkDatabase (handles db) l (gOrderedHandleList db) (mProtocolDatabase db) (interfaces db) (gHandleDatabaseKey db)
    (mEfiLocateHandleRequest db) (signalled db) (flagged db) (pool_heap db).
Definition with_ordered (o : gmap Z Z) (db : DB) : DB :=
  mkDatabase (handles db) (gHandleList db) o (mProtocolDatabase db) (interfaces db) (gHandleDatabaseKey db)
    (mEfiLocateHandleRequest db) (signalled db) (flagged db) (pool_heap db).
Definition with_protocols (p : list PROTOCOL_ENTRY) (db : DB) : DB :=
  mkDatabase (handles db) (gHandleList db) (gOrderedHandleList db) p (interfaces db) (gHandleDatabaseKey db)
    (mEfiLocateHandleRequest db) (signalled db) (flagged db) (pool_heap db).
Definition with_interfaces (i : gmap Z PROTOCOL_INTERFACE) (db : DB) : DB :=
  mkDatabase (handles db) (gHandleList db) (gOrderedHandleList db) (mProtocolDatabase db) i (gHandleDatabaseKey db)
    (mEfiLocateHandleRequest db) (signalled db) (flagged db) (pool_heap db).
Definition with_key (k : Z) (db : DB) : DB :=
  mkDatabase (handles db) (gHandleList db) (gOrderedHandleList db) (mProtocolDatabase db) (interfaces db) k
    (mEfiLocateHandleRequest db) (signalled db) (flagged db) (pool_heap db).
Definition with_request (r : Z) (db : DB) : DB :=
  mkDatabase (handles db) (gHandleList db) (gOrderedHandleList db) (mProtocolDatabase db) (interfaces db) (gHandleDatabaseKey db)
    r (signalled db) (flagged db) (pool_heap db).
Definition with_signalled (s : list Z) (db : DB) : DB :=
  mkDatabase (handles db) (gHandleList db) (gOrderedHandleList db) (mProtocolDatabase db) (interfaces db) (gHandleDatabaseKey db)
    (mEfiLocateHandleRequest db) s (flagged db) (pool_heap db).
Definition with_flagged (f : gset Z) (db : DB) : DB :=
  mkDatabase (handles db) (gHandleList db) (gOrderedHandleList db) (mProtocolDatabase db) (interfaces db) (gHandleDatabaseKey db)
    (mEfiLocateHandleRequest db) (signalled db) f (pool_heap db).
Definition with_heap (h : H) (db : DB) : DB :=
  mkDatabase (handles db) (gHandleList db) (gOrderedHandleList db) (mProtocolDatabase db) (interfaces db) (gHandleDatabaseKey db)
    (mEfiLocateHandleRequest db) (signalled db) (flagged db) h.

(** [AllocatePool] and [CoreFreePool]. *)
Definition db_alloc (size : Z) (db : DB) : option Z * DB :=
  let '(p, h) := heap_alloc size (pool_heap db) in (p, with_heap h db).
Definition db_free (p : Z) (db : DB) : DB := with_heap (heap_free p (pool_heap db)) db.

(** Following a pointer. *)
Definition deref {A} (o : option A) : outcome A := match o with Some a => mret a | None => Fault OutOfBounds end.

Definition entry_of (e : Z) (db : DB) : option PROTOCOL_ENTRY :=
  List.find (fun E => EntryAddress E =? e) (mProtocolDatabase db).
Definition update_entry (e : Z) (f : PROTOCOL_ENTRY -> PROTOCOL_ENTRY) (db : DB) : DB :=
  with_protocols ((fun E => if EntryAddress E =? e then f E else E) <$> mProtocolDatabase db) db.
Definition update_handle (h : Z) (f : IHANDLE -> IHANDLE) (db : DB) : DB := with_handles (alter f h (handles db)) db.
Definition update_interface (i : Z) (f : PROTOCOL_INTERFACE -> PROTOCOL_INTERFACE) (db : DB) : DB :=
  with_interfaces (alter f i (interfaces db)) db.

Definition set_by_protocol (l : list Z) (E : PROTOCOL_ENTRY) : PROTOCOL_ENTRY := mkProtocol (EntryAddress E) (ProtocolID E) l (Notify E).
Definition set_notify (l : list PROTOCOL_NOTIFY) (E : PROTOCOL_ENTRY) : PROTOCOL_ENTRY :=
  mkProtocol (EntryAddress E) (ProtocolID E) (ByProtocolList E) l.
Definition set_notify_position (p : option Z) (N : PROTOCOL_NOTIFY) : PROTOCOL_NOTIFY := mkNotify (NotifyAddress N) (NotifyEvent N) p.
Definition set_protocols (l : list Z) (I : IHANDLE) : IHANDLE := mkHandle l (LocateRequest I) (HandleKey I).
Definition set_locate (r : Z) (I : IHANDLE) : IHANDLE := mkHandle (Protocols I) r (HandleKey I).
Definition set_handle_key (k : Z) (I : IHANDLE) : IHANDLE := mkHandle (Protocols I) (LocateRequest I) k.
Definition set_open_list (l : list OPEN_PROTOCOL_DATA) (n : Z) (P : PROTOCOL_INTERFACE) : PROTOCOL_INTERFACE :=
  mkInterface (HandleOf P) (ProtocolOf P) (InterfaceOf P) l n.
Definition set_interface (i : Z) (P : PROTOCOL_INTERFACE) : PROTOCOL_INTERFACE :=
  mkInterface (HandleOf P) (ProtocolOf P) i (OpenList P) (OpenListCount P).
Definition set_open_count (n : Z) (O : OPEN_PROTOCOL_DATA) : OPEN_PROTOCOL_DATA :=
  mkOpen (OpenAddress O) (AgentHandle O) (ControllerHandle O) (OpenAttributes O) n.
End database.

(* ------------------------------------------------------------------ *)
(** ** Looking up *)

Section operations.
Context {H : Type} `{Heap H}.
#[local] Abbreviation DB := (DATABASE H).

Definition CoreValidateHandle (UserHandle : Z) (db : DB) : Z :=
  if decide (UserHandle = 0) then EFI_INVALID_PARAMETER
  else match gOrderedHandleList db !! UserHandle with Some _ => EFI_SUCCESS | None => EFI_INVALID_PARAMETER end.

(** The entry of a protocol, made at the end of the database if it is asked
    for and there is memory. *)
Definition CoreFindProtocolEntry (Protocol : EFI_GUID) (Create : bool) (db : DB) : option Z * DB :=
  match List.find (fun E => bool_decide (ProtocolID E = Protocol)) (mProtocolDatabase db) with
  | Some E => (Some (EntryAddress E), db)
  | None =>
      if Create then
        match db_alloc 72 db with
        | (Some e, db) => (Some e, with_protocols (mProtocolDatabase db ++ [mkProtocol e Protocol [] []]) db)
        | (None, db) => (None, db)
        end
      else (None, db)
  end.

Fixpoint find_interface (E Interface : Z) (l : list Z) (db : DB) : outcome (option Z) :=
  match l with
  | [] => mret None
  | i :: l =>
      Prot ← deref (interfaces db !! i);
      if decide (InterfaceOf Prot = Interface /\ ProtocolOf Prot = E) then mret (Some i) else find_interface E Interface l db
  end.

Definition CoreFindProtocolInterface (Handle : Z) (Protocol : EFI_GUID) (Interface : Z) (db : DB) : outcome (option Z) :=
  match (CoreFindProtocolEntry Protocol false db).1 with
  | None => mret None
  | Some E => I ← deref (handles db !! Handle); find_interface E Interface (Protocols I) db
  end.

Fixpoint get_interface (Protocol : EFI_GUID) (l : list Z) (db : DB) : outcome (option Z) :=
  match l with
  | [] => mret None
  | i :: l =>
      Prot ← deref (interfaces db !! i);
      E ← deref (entry_of (ProtocolOf Prot) db);
      if decide (ProtocolID E = Protocol) then mret (Some i) else get_interface Protocol l db
  end.

Definition CoreGetProtocolInterface (UserHandle : Z) (Protocol : EFI_GUID) (db : DB) : outcome (option Z) :=
  I ← deref (handles db !! UserHandle); get_interface Protocol (Protocols I) db.

Definition CoreGetHandleDatabaseKey (db : DB) : Z := gHandleDatabaseKey db.

(** The next key, which a handle that changes is given. *)
Definition next_key (Handle : Z) (db : DB) : outcome DB :=
  let k := u64 (gHandleDatabaseKey db + 1) in
  _ ← deref (handles db !! Handle);
  mret (update_handle Handle (set_handle_key k) (with_key k db)).

Definition CoreNotifyProtocolEntry (E : PROTOCOL_ENTRY) (db : DB) : DB :=
  with_signalled (reverse (NotifyEvent <$> Notify E) ++ signalled db) db.

(* ------------------------------------------------------------------ *)
(** ** Searches *)

(** What is left of the list a search walks. *)
Inductive LOCATE_POSITION : Type :=
| AtHandles (rest : list Z)
| AtNotify (SearchKey : Z)
| AtProtocol (rest : list Z).

(** The element of a list after a position in it. *)
Fixpoint after (p : Z) (l : list Z) : option (list Z) :=
  match l with [] => None | i :: l => if decide (i = p) then Some l else after p l end.
Definition rest_after (p : option Z) (l : list Z) : outcome (list Z) :=
  match p with None => mret l | Some p => deref (after p l) end.

(** A registration and the entry it belongs to. *)
Definition notify_of (N : Z) (db : DB) : option (PROTOCOL_ENTRY * PROTOCOL_NOTIFY) :=
  E ← List.find (fun E => existsb (fun n => NotifyAddress n =? N) (Notify E)) (mProtocolDatabase db);
  n ← List.find (fun n => NotifyAddress n =? N) (Notify E);
  Some (E, n).

(** Each step of a search gives a handle, if there is one, and what it wrote
    as the interface. *)
Definition CoreGetNextLocateAllHandles (rest : list Z) : option Z * Z * LOCATE_POSITION :=
  match rest with [] => (None, 0, AtHandles []) | h :: rest => (Some h, 0, AtHandles rest) end.

(** The next interface after the registration's position, once. *)
Definition CoreGetNextLocateByRegisterNotify (SearchKey : Z) (db : DB) : outcome (option Z * Z * LOCATE_POSITION) :=
  if decide (SearchKey = 0) then mret (None, 0, AtNotify 0) else
  '(E, N) ← deref (notify_of SearchKey db);
  rest ← rest_after (Position N) (ByProtocolList E);
  match rest with
  | [] => mret (None, 0, AtNotify 0)
  | i :: _ => Prot ← deref (interfaces db !! i); mret (Some (HandleOf Prot), InterfaceOf Prot, AtNotify 0)
  end.

(** The next interface whose handle this search has not reported. *)
Fixpoint CoreGetNextLocateByProtocol (rest : list Z) (Interface : Z) (db : DB) : outcome (option Z * Z * LOCATE_POSITION * DB) :=
  match rest with
  | [] => mret (None, Interface, AtProtocol [], db)
  | i :: rest =>
      Prot ← deref (interfaces db !! i);
      I ← deref (handles db !! HandleOf Prot);
      if decide (LocateRequest I <> mEfiLocateHandleRequest db)
      then mret (Some (HandleOf Prot), InterfaceOf Prot, AtProtocol rest,
                 update_handle (HandleOf Prot) (set_locate (mEfiLocateHandleRequest db)) db)
      else CoreGetNextLocateByProtocol rest (InterfaceOf Prot) db
  end.

Definition GetNext (p : LOCATE_POSITION) (db : DB) : outcome (option Z * Z * LOCATE_POSITION * DB) :=
  match p with
  | AtHandles rest => mret (CoreGetNextLocateAllHandles rest, db)
  | AtNotify k => r ← CoreGetNextLocateByRegisterNotify k db; mret (r, db)
  | AtProtocol rest => CoreGetNextLocateByProtocol rest 0 db
  end.

(** Handles are counted in bytes and written while they fit. *)
Fixpoint locate_loop (n : nat) (p : LOCATE_POSITION) (ResultSize BufferSize : Z) (written : list Z) (db : DB)
    : outcome (Z * list Z * DB) :=
  match n with
  | O => Fault Diverges
  | S n =>
      '(r, _, p, db) ← GetNext p db;
      match r with
      | None => mret (ResultSize, written, db)
      | Some h =>
          let ResultSize := u64 (ResultSize + 8) in
          locate_loop n p ResultSize BufferSize (if decide (ResultSize <= BufferSize) then written ++ [h] else written) db
      end
  end.

Definition search_length (p : LOCATE_POSITION) : nat :=
  match p with AtHandles l | AtProtocol l => length l | AtNotify _ => 1%nat end.

(** The registration has been told of the interface after its position. *)
Definition advance_notify (N : Z) (db : DB) : outcome DB :=
  '(E, n) ← deref (notify_of N db);
  rest ← rest_after (Position n) (ByProtocolList E);
  mret (update_entry (EntryAddress E)
    (set_notify ((fun n => if NotifyAddress n =? N then set_notify_position (head rest) n else n) <$> Notify E)) db).

(** The status, the buffer size and the handles written to the buffer.
    [BufferSize] is [None] for a null pointer, [Buffer] says whether there is
    a buffer, a null [SearchKey] is zero. *)
Definition InternalCoreLocateHandle (SearchType : Z) (Protocol : option EFI_GUID) (SearchKey : Z)
    (BufferSize : option Z) (Buffer : bool) (db : DB) : outcome (Z * option Z * list Z * DB) :=
  match BufferSize with
  | None => mret (EFI_INVALID_PARAMETER, None, [], db)
  | Some Size =>
      if decide (0 < Size /\ Buffer = false) then mret (EFI_INVALID_PARAMETER, Some Size, [], db) else
      let start : Z + LOCATE_POSITION :=
        if decide (SearchType = AllHandles) then inr (AtHandles (gHandleList db))
        else if decide (SearchType = ByRegisterNotify) then
          if decide (SearchKey = 0) then inl EFI_INVALID_PARAMETER else inr (AtNotify SearchKey)
        else if decide (SearchType = ByProtocol) then
          match Protocol with
          | None => inl EFI_INVALID_PARAMETER
          | Some g =>
              match List.find (fun E => bool_decide (ProtocolID E = g)) (mProtocolDatabase db) with
              | None => inl EFI_NOT_FOUND
              | Some E => inr (AtProtocol (ByProtocolList E))
              end
          end
        else inl EFI_INVALID_PARAMETER in
      match start with
      | inl Status => mret (Status, Some Size, [], db)
      | inr p =>
          let db := with_request (u64 (mEfiLocateHandleRequest db + 1)) db in
          '(ResultSize, written, db) ← locate_loop (2 + search_length p) p 0 Size [] db;
          if decide (ResultSize = 0) then mret (EFI_NOT_FOUND, Some Size, written, db) else
          let Status := if decide (Size < ResultSize) then EFI_BUFFER_TOO_SMALL else EFI_SUCCESS in
          db ← (if decide (SearchType = ByRegisterNotify /\ EFI_ERROR Status = false) then advance_notify SearchKey db else mret db);
          mret (Status, Some ResultSize, written, db)
      end
  end.

Definition CoreLocateHandle := InternalCoreLocateHandle.

(** The status, the number of handles and the buffer, its address and what it
    holds. *)
Definition CoreLocateHandleBuffer (SearchType : Z) (Protocol : option EFI_GUID) (SearchKey : Z)
    (NumberHandles Buffer : bool) (db : DB) : outcome (Z * Z * (Z * list Z) * DB) :=
  if negb (NumberHandles && Buffer) then mret (EFI_INVALID_PARAMETER, 0, (0, []), db) else
  '(Status, Size, _, db) ← InternalCoreLocateHandle SearchType Protocol SearchKey (Some 0) false db;
  if decide (EFI_ERROR Status = true /\ Status <> EFI_BUFFER_TOO_SMALL)
  then mret (if decide (Status <> EFI_INVALID_PARAMETER) then EFI_NOT_FOUND else Status, 0, (0, []), db) else
  match db_alloc (default 0 Size) db with
  | (None, db) => mret (EFI_OUT_OF_RESOURCES, 0, (0, []), db)
  | (Some p, db) =>
      '(Status, Size, l, db) ← InternalCoreLocateHandle SearchType Protocol SearchKey Size true db;
      if EFI_ERROR Status then mret (Status, 0, (0, []), db_free p db)
      else mret (Status, default 0 Size / 8, (p, l), db)
  end.

(** The status and the interface, null where the code writes null; nothing is
    written through null pointers. *)
Definition CoreLocateProtocol (Protocol : option EFI_GUID) (Registration : Z) (Interface : bool) (db : DB)
    : outcome (Z * option Z * DB) :=
  match Protocol with
  | None => mret (EFI_INVALID_PARAMETER, None, db)
  | Some g =>
      if negb Interface then mret (EFI_INVALID_PARAMETER, None, db) else
      let db := with_request (u64 (mEfiLocateHandleRequest db + 1)) db in
      if decide (Registration = 0) then
        match List.find (fun E => bool_decide (ProtocolID E = g)) (mProtocolDatabase db) with
        | None => mret (EFI_NOT_FOUND, Some 0, db)
        | Some E =>
            '(r, i, _, db) ← CoreGetNextLocateByProtocol (ByProtocolList E) 0 db;
            mret (match r with None => EFI_NOT_FOUND | Some _ => EFI_SUCCESS end, Some i, db)
        end
      else
        '(r, i, _) ← CoreGetNextLocateByRegisterNotify Registration db;
        match r with
        | None => mret (EFI_NOT_FOUND, Some i, db)
        | Some _ => db ← advance_notify Registration db; mret (EFI_SUCCESS, Some i, db)
        end
  end.
End operations.

(* ------------------------------------------------------------------ *)
(** ** Opening, installing and removing *)

Section drivers.
Context {H : Type} `{Heap H}.
#[local] Abbreviation DB := (DATABASE H).

(** [CoreConnectController] of a handle with every driver, and
    [CoreDisconnectController] of one driver from a handle, which returns a
    status. *)
Context (CoreConnectController : Z -> DB -> DB) (CoreDisconnectController : Z -> Z -> DB -> Z * DB).
Context (gDxeCoreImageHandle : Z) (fuel : nat).

(** The handles an attribute of an open needs, checked in this order. *)
Definition open_check (UserHandle ImageHandle Controller Attributes : Z) (db : DB) : Z :=
  let checked l := foldr (fun h Status => if EFI_ERROR (CoreValidateHandle h db) then CoreValidateHandle h db else Status) EFI_SUCCESS l in
  if decide (EFI_ERROR (CoreValidateHandle UserHandle db) = true) then CoreValidateHandle UserHandle db else
  if decide (Attributes = EFI_OPEN_PROTOCOL_BY_CHILD_CONTROLLER) then
    if EFI_ERROR (checked [ImageHandle; Controller]) then checked [ImageHandle; Controller]
    else if decide (UserHandle = Controller) then EFI_INVALID_PARAMETER else EFI_SUCCESS
  else if decide (Attributes = EFI_OPEN_PROTOCOL_BY_DRIVER \/
                  Attributes = Z.lor EFI_OPEN_PROTOCOL_BY_DRIVER EFI_OPEN_PROTOCOL_EXCLUSIVE) then
    checked [ImageHandle; Controller]
  else if decide (Attributes = EFI_OPEN_PROTOCOL_EXCLUSIVE) then checked [ImageHandle]
  else if decide (Attributes = EFI_OPEN_PROTOCOL_BY_HANDLE_PROTOCOL \/ Attributes = EFI_OPEN_PROTOCOL_GET_PROTOCOL \/
                  Attributes = EFI_OPEN_PROTOCOL_TEST_PROTOCOL) then EFI_SUCCESS
  else EFI_INVALID_PARAMETER.

(** The walk over who has the interface open: a status that ends the call,
    with the records as it leaves them, or whether a driver and whether an
    exclusive agent has it. *)
Fixpoint open_scan (ImageHandle Controller Attributes : Z) (ByDriver Exclusive : bool) (seen l : list OPEN_PROTOCOL_DATA)
    : (Z * list OPEN_PROTOCOL_DATA) + (bool * bool) :=
  match l with
  | [] => inr (ByDriver, Exclusive)
  | D :: l =>
      let ExactMatch := bool_decide (AgentHandle D = ImageHandle /\ OpenAttributes D = Attributes /\ ControllerHandle D = Controller) in
      let driver := negb (Z.land (OpenAttributes D) EFI_OPEN_PROTOCOL_BY_DRIVER =? 0) in
      if driver && ExactMatch then inl (EFI_ALREADY_STARTED, seen ++ D :: l) else
      let ByDriver := ByDriver || driver in
      if negb (Z.land (OpenAttributes D) EFI_OPEN_PROTOCOL_EXCLUSIVE =? 0)
      then open_scan ImageHandle Controller Attributes ByDriver true (seen ++ [D]) l
      else if ExactMatch then inl (EFI_SUCCESS, seen ++ set_open_count (u32 (OpenCount D + 1)) D :: l)
      else open_scan ImageHandle Controller Attributes ByDriver Exclusive (seen ++ [D]) l
  end.

Definition opened_by_driver (D : OPEN_PROTOCOL_DATA) : bool := negb (Z.land (OpenAttributes D) EFI_OPEN_PROTOCOL_BY_DRIVER =? 0).

(** Every driver that has the interface open is disconnected. *)
Fixpoint disconnect_loop (n : nat) (UserHandle Prot : Z) (db : DB) : outcome (Z * DB) :=
  match n with
  | O => Fault Diverges
  | S n =>
      P ← deref (interfaces db !! Prot);
      match List.find opened_by_driver (OpenList P) with
      | None => mret (EFI_SUCCESS, db)
      | Some D =>
          let '(Status, db) := CoreDisconnectController UserHandle (AgentHandle D) db in
          if EFI_ERROR Status then mret (EFI_ACCESS_DENIED, db) else disconnect_loop n UserHandle Prot db
      end
  end.

(** What [CoreOpenProtocol] does with the interface it has found. *)
Definition open_interface (UserHandle Prot ImageHandle Controller Attributes : Z) (db : DB) : outcome (Z * DB) :=
  P ← deref (interfaces db !! Prot);
  match open_scan ImageHandle Controller Attributes false false [] (OpenList P) with
  | inl (Status, l) => mret (Status, update_interface Prot (set_open_list l (OpenListCount P)) db)
  | inr (ByDriver, Exclusive) =>
      let driver := Attributes =? EFI_OPEN_PROTOCOL_BY_DRIVER in
      let exclusive := (Attributes =? EFI_OPEN_PROTOCOL_EXCLUSIVE) ||
                       (Attributes =? Z.lor EFI_OPEN_PROTOCOL_BY_DRIVER EFI_OPEN_PROTOCOL_EXCLUSIVE) in
      if (driver && (Exclusive || ByDriver)) || (exclusive && Exclusive)
      then mret (EFI_ACCESS_DENIED, db) else
      '(Status, db) ← (if exclusive && ByDriver then disconnect_loop fuel UserHandle Prot db
                       else mret (EFI_SUCCESS, db));
      if decide (EFI_ERROR Status = true) then mret (Status, db) else
      if decide (ImageHandle = 0) then mret (EFI_SUCCESS, db) else
      match db_alloc 48 db with
      | (None, db) => mret (EFI_OUT_OF_RESOURCES, db)
      | (Some o, db) =>
          P ← deref (interfaces db !! Prot);
          mret (EFI_SUCCESS, update_interface Prot
            (set_open_list (OpenList P ++ [mkOpen o ImageHandle Controller Attributes 1]) (u64 (OpenListCount P + 1))) db)
      end
  end.

(** [Interface] says whether there is a place for the interface; the result
    says what is written there, if anything. *)
Definition CoreOpenProtocol (UserHandle : Z) (Protocol : option EFI_GUID) (Interface : bool)
    (ImageHandle Controller Attributes : Z) (db : DB) : outcome (Z * option Z * DB) :=
  match Protocol with
  | None => mret (EFI_INVALID_PARAMETER, None, db)
  | Some g =>
      let test := bool_decide (Attributes = EFI_OPEN_PROTOCOL_TEST_PROTOCOL) in
      if negb test && negb Interface then mret (EFI_INVALID_PARAMETER, None, db) else
      if decide (EFI_ERROR (open_check UserHandle ImageHandle Controller Attributes db) = true)
      then mret (open_check UserHandle ImageHandle Controller Attributes db, None, db) else
      r ← CoreGetProtocolInterface UserHandle g db;
      match r with
      | None => mret (EFI_UNSUPPORTED, if test then None else Some 0, db)
      | Some Prot =>
          '(Status, db) ← open_interface UserHandle Prot ImageHandle Controller Attributes db;
          if test then mret (Status, None, db) else
          if decide (EFI_ERROR Status = false \/ Status = EFI_ALREADY_STARTED)
          then P ← deref (interfaces db !! Prot); mret (Status, Some (InterfaceOf P), db)
          else mret (Status, if decide (Status = EFI_UNSUPPORTED) then Some 0 else None, db)
      end
  end.

Definition CoreHandleProtocol (UserHandle : Z) (Protocol : option EFI_GUID) (Interface : bool) (db : DB) : outcome (Z * option Z * DB) :=
  CoreOpenProtocol UserHandle Protocol Interface gDxeCoreImageHandle 0 EFI_OPEN_PROTOCOL_BY_HANDLE_PROTOCOL db.

(** Every record of that agent and controller is given back. *)
Definition CoreCloseProtocol (UserHandle : Z) (Protocol : option EFI_GUID) (Agent Controller : Z) (db : DB) : outcome (Z * DB) :=
  let bad h := EFI_ERROR (CoreValidateHandle h db) in
  if bad UserHandle || bad Agent || (negb (Controller =? 0) && bad Controller) then mret (EFI_INVALID_PARAMETER, db) else
  match Protocol with
  | None => mret (EFI_INVALID_PARAMETER, db)
  | Some g =>
      r ← CoreGetProtocolInterface UserHandle g db;
      match r with
      | None => mret (EFI_NOT_FOUND, db)
      | Some Prot =>
          P ← deref (interfaces db !! Prot);
          let closed D := (AgentHandle D =? Agent) && (ControllerHandle D =? Controller) in
          let gone := filter (fun D => closed D = true) (OpenList P) in
          mret (match gone with [] => EFI_NOT_FOUND | _ => EFI_SUCCESS end,
            foldr (fun D => db_free (OpenAddress D))
              (update_interface Prot (set_open_list (filter (fun D => closed D = false) (OpenList P))
                 (u64 (OpenListCount P - Z.of_nat (length gone)))) db) (reverse gone))
      end
  end.

(** The records of an interface, in a buffer from the pool. *)
Definition CoreOpenProtocolInformation (UserHandle : Z) (Protocol : EFI_GUID) (db : DB)
    : outcome (Z * (Z * list (Z * Z * Z * Z)) * DB) :=
  if EFI_ERROR (CoreValidateHandle UserHandle db) then mret (EFI_NOT_FOUND, (0, []), db) else
  r ← CoreGetProtocolInterface UserHandle Protocol db;
  match r with
  | None => mret (EFI_NOT_FOUND, (0, []), db)
  | Some Prot =>
      P ← deref (interfaces db !! Prot);
      let n := Z.of_nat (length (OpenList P)) in
      match db_alloc (if decide (n = 0) then 24 else u64 (n * 24)) db with
      | (None, db) => mret (EFI_OUT_OF_RESOURCES, (0, []), db)
      | (Some b, db) =>
          mret (EFI_SUCCESS, (b, (fun D => (AgentHandle D, ControllerHandle D, OpenAttributes D, OpenCount D)) <$> OpenList P), db)
      end
  end.

(** The protocols of a handle, in a buffer from the pool. *)
Fixpoint protocol_ids (l : list Z) (db : DB) : outcome (list EFI_GUID) :=
  match l with
  | [] => mret []
  | i :: l => P ← deref (interfaces db !! i); E ← deref (entry_of (ProtocolOf P) db);
              gs ← protocol_ids l db; mret (ProtocolID E :: gs)
  end.

Definition CoreProtocolsPerHandle (UserHandle : Z) (ProtocolBuffer ProtocolBufferCount : bool) (db : DB)
    : outcome (Z * (Z * list EFI_GUID) * DB) :=
  if negb (ProtocolBuffer && ProtocolBufferCount) then mret (EFI_INVALID_PARAMETER, (0, []), db) else
  if EFI_ERROR (CoreValidateHandle UserHandle db) then mret (CoreValidateHandle UserHandle db, (0, []), db) else
  I ← deref (handles db !! UserHandle);
  if decide (Protocols I = []) then mret (EFI_INVALID_PARAMETER, (0, []), db) else
  match db_alloc (u64 (8 * Z.of_nat (length (Protocols I)))) db with
  | (None, db) => mret (EFI_OUT_OF_RESOURCES, (0, []), db)
  | (Some b, db) => gs ← protocol_ids (Protocols I) db; mret (EFI_SUCCESS, (b, gs), db)
  end.

(** A handle for the interface: the caller's, or a new one at the end of the
    list. *)
Definition install_handle (UserHandle : Z) (db : DB) : Z * Z * DB :=
  if decide (UserHandle <> 0) then (CoreValidateHandle UserHandle db, UserHandle, db) else
  match db_alloc 56 db with
  | (None, db) => (EFI_OUT_OF_RESOURCES, 0, db)
  | (Some h, db) =>
      match gOrderedHandleList db !! h with
      | Some _ => (EFI_ALREADY_STARTED, h, db_free h db)
      | None =>
          match db_alloc 40 db with
          | (None, db) => (EFI_OUT_OF_RESOURCES, h, db_free h db)
          | (Some node, db) =>
              (EFI_SUCCESS, h,
               with_list (gHandleList db ++ [h]) (with_ordered (<[h := node]> (gOrderedHandleList db))
                 (with_handles (<[h := mkHandle [] 0 0]> (handles db)) db)))
          end
      end
  end.

(** The interface at [Prot] joins its handle, as its first, and its protocol,
    as its last. *)
Definition link_interface (Prot Handle E Interface : Z) (db : DB) : outcome DB :=
  I ← deref (handles db !! Handle);
  X ← deref (entry_of E db);
  mret (update_entry E (set_by_protocol (ByProtocolList X ++ [Prot]))
    (update_handle Handle (set_protocols (Prot :: Protocols I))
      (with_interfaces (<[Prot := mkInterface Handle E Interface [] 0]> (interfaces db)) db))).

(** [UserHandle] and [Protocol] may be null pointers; the result is the
    status, the handle and the database. *)
Definition CoreInstallProtocolInterfaceNotify (UserHandle : option Z) (Protocol : option EFI_GUID)
    (InterfaceType Interface : Z) (NotifyAll : bool) (db : DB) : outcome (Z * option Z * DB) :=
  match UserHandle, Protocol with
  | Some h0, Some g =>
      if decide (InterfaceType <> EFI_NATIVE_INTERFACE) then mret (EFI_INVALID_PARAMETER, Some h0, db) else
      '(Status, db) ← (if decide (h0 <> 0) then '(Status, _, db) ← CoreHandleProtocol h0 (Some g) true db; mret (Status, db)
                       else mret (EFI_OUT_OF_RESOURCES, db));
      if decide (h0 <> 0 /\ EFI_ERROR Status = false) then mret (EFI_INVALID_PARAMETER, Some h0, db) else
      match CoreFindProtocolEntry g true db with
      | (None, db) => mret (Status, Some h0, db)
      | (Some E, db) =>
          match db_alloc 88 db with
          | (None, db) => mret (EFI_OUT_OF_RESOURCES, Some h0, db)
          | (Some Prot, db) =>
              let '(Status, h, db) := install_handle h0 db in
              if EFI_ERROR Status then mret (Status, Some h0, db_free Prot db) else
              db ← next_key h db;
              db ← link_interface Prot h E Interface db;
              X ← deref (entry_of E db);
              mret (EFI_SUCCESS, Some h, if NotifyAll then CoreNotifyProtocolEntry X db else db)
          end
      end
  | _, _ => mret (EFI_INVALID_PARAMETER, UserHandle, db)
  end.

Definition CoreInstallProtocolInterface (UserHandle : option Z) (Protocol : option EFI_GUID) (InterfaceType Interface : Z)
    (db : DB) : outcome (Z * option Z * DB) :=
  CoreInstallProtocolInterfaceNotify UserHandle Protocol InterfaceType Interface true db.

(** Drivers are asked to let go until one refuses or none is left; then the
    records of the calls that need no closing are dropped.  If any record is
    left, the drivers are connected again. *)
Fixpoint disconnect_all (n : nat) (UserHandle Prot Status : Z) (db : DB) : outcome (Z * DB) :=
  match n with
  | O => Fault Diverges
  | S n =>
      P ← deref (interfaces db !! Prot);
      match List.find opened_by_driver (OpenList P) with
      | None => mret (Status, db)
      | Some D =>
          let '(Status, db) := CoreDisconnectController UserHandle (AgentHandle D) db in
          if EFI_ERROR Status then mret (Status, db) else disconnect_all n UserHandle Prot Status db
      end
  end.

Definition passing (D : OPEN_PROTOCOL_DATA) : bool :=
  negb (Z.land (OpenAttributes D) (Z.lor (Z.lor EFI_OPEN_PROTOCOL_BY_HANDLE_PROTOCOL EFI_OPEN_PROTOCOL_GET_PROTOCOL)
    EFI_OPEN_PROTOCOL_TEST_PROTOCOL) =? 0).

Definition drop_passing (Prot : Z) (db : DB) : outcome DB :=
  P ← deref (interfaces db !! Prot);
  let gone := filter (fun D => passing D = true) (OpenList P) in
  mret (foldr (fun D => db_free (OpenAddress D))
    (update_interface Prot (set_open_list (filter (fun D => passing D = false) (OpenList P))
       (u64 (OpenListCount P - Z.of_nat (length gone)))) db) (reverse gone)).

Definition CoreDisconnectControllersUsingProtocolInterface (UserHandle Prot : Z) (db : DB) : outcome (Z * DB) :=
  '(Status, db) ← disconnect_all fuel UserHandle Prot EFI_SUCCESS db;
  db ← (if EFI_ERROR Status then mret db else drop_passing Prot db);
  P ← deref (interfaces db !! Prot);
  if EFI_ERROR Status || (0 <? OpenListCount P)
  then mret (EFI_ACCESS_DENIED, CoreConnectController UserHandle db) else mret (Status, db).

(** The element of a list before one of its elements. *)
Fixpoint before (prev : option Z) (i : Z) (l : list Z) : option Z :=
  match l with [] => None | j :: l => if decide (j = i) then prev else before (Some j) i l end.

(** The interface leaves the list of its protocol; a registration that stands
    on it steps back. *)
Definition CoreRemoveInterfaceFromProtocol (Handle : Z) (Protocol : EFI_GUID) (Interface : Z) (db : DB) : outcome (option Z * DB) :=
  r ← CoreFindProtocolInterface Handle Protocol Interface db;
  match r with
  | None => mret (None, db)
  | Some Prot =>
      P ← deref (interfaces db !! Prot);
      E ← deref (entry_of (ProtocolOf P) db);
      let back n := if decide (Position n = Some Prot) then set_notify_position (before None Prot (ByProtocolList E)) n else n in
      mret (Some Prot, update_entry (ProtocolOf P)
        (fun E => set_by_protocol (filter (fun i => i <> Prot) (ByProtocolList E)) (set_notify (back <$> Notify E) E)) db)
  end.

(** A handle without protocols is gone. *)
Definition drop_handle (Handle : Z) (db : DB) : outcome DB :=
  node ← deref (gOrderedHandleList db !! Handle);
  mret (db_free Handle (with_handles (delete Handle (handles db)) (with_list (filter (fun i => i <> Handle) (gHandleList db))
    (db_free node (with_ordered (delete Handle (gOrderedHandleList db)) db))))).

Definition CoreUninstallProtocolInterface (UserHandle : Z) (Protocol : option EFI_GUID) (Interface : Z) (db : DB) : outcome (Z * DB) :=
  match Protocol with
  | None => mret (EFI_INVALID_PARAMETER, db)
  | Some g =>
      if EFI_ERROR (CoreValidateHandle UserHandle db) then mret (CoreValidateHandle UserHandle db, db) else
      r ← CoreFindProtocolInterface UserHandle g Interface db;
      match r with
      | None => mret (EFI_NOT_FOUND, db)
      | Some Prot =>
          '(Status, db) ← CoreDisconnectControllersUsingProtocolInterface UserHandle Prot db;
          if EFI_ERROR Status then mret (Status, db) else
          '(r, db) ← CoreRemoveInterfaceFromProtocol UserHandle g Interface db;
          '(Status, db) ←
            (match r with
             | None => mret (EFI_NOT_FOUND, db)
             | Some Prot =>
                 db ← next_key UserHandle db;
                 I ← deref (handles db !! UserHandle);
                 mret (EFI_SUCCESS, db_free Prot (with_interfaces (delete Prot (interfaces db))
                   (update_handle UserHandle (set_protocols (filter (fun i => i <> Prot) (Protocols I))) db)))
             end);
          I ← deref (handles db !! UserHandle);
          db ← (if decide (Protocols I = []) then drop_handle UserHandle db else mret db);
          mret (Status, db)
      end
  end.

Definition CoreReinstallProtocolInterface (UserHandle : Z) (Protocol : option EFI_GUID) (OldInterface NewInterface : Z)
    (db : DB) : outcome (Z * DB) :=
  match Protocol with
  | None => mret (EFI_INVALID_PARAMETER, db)
  | Some g =>
      if EFI_ERROR (CoreValidateHandle UserHandle db) then mret (CoreValidateHandle UserHandle db, db) else
      r ← CoreFindProtocolInterface UserHandle g OldInterface db;
      match r with
      | None => mret (EFI_NOT_FOUND, db)
      | Some Prot =>
          '(Status, db) ← CoreDisconnectControllersUsingProtocolInterface UserHandle Prot db;
          if EFI_ERROR Status then mret (Status, db) else
          '(r, db) ← CoreRemoveInterfaceFromProtocol UserHandle g OldInterface db;
          match r with
          | None => mret (EFI_NOT_FOUND, db)
          | Some Prot =>
              P ← deref (interfaces db !! Prot);
              let db := update_interface Prot (set_interface NewInterface) db in
              E ← deref (entry_of (ProtocolOf P) db);
              let db := update_entry (ProtocolOf P) (set_by_protocol (ByProtocolList E ++ [Prot])) db in
              db ← next_key UserHandle db;
              let db := CoreConnectController UserHandle db in
              E ← deref (entry_of (ProtocolOf P) db);
              mret (EFI_SUCCESS, CoreNotifyProtocolEntry E db)
          end
      end
  end.

(** The event's flag, the registration, the status and the database. *)
Definition CoreRegisterProtocolNotify (event_ok : Z -> bool) (Protocol : option EFI_GUID) (Event : Z) (Registration : bool)
    (db : DB) : outcome (Z * option Z * DB) :=
  match Protocol with
  | None => mret (EFI_INVALID_PARAMETER, None, db)
  | Some g =>
      if decide (Event = 0 \/ Registration = false \/ event_ok Event = false) then mret (EFI_INVALID_PARAMETER, None, db) else
      match CoreFindProtocolEntry g true db with
      | (None, db) => mret (EFI_OUT_OF_RESOURCES, None, db)
      | (Some E, db) =>
          match db_alloc 48 db with
          | (None, db) => mret (EFI_OUT_OF_RESOURCES, None, db)
          | (Some N, db) =>
              X ← deref (entry_of E db);
              mret (EFI_SUCCESS, Some N,
                update_entry E (set_notify (Notify X ++ [mkNotify N Event None])) (with_flagged ({[Event]} ∪ flagged db) db))
          end
      end
  end.

(** The first registration of an event, if there is one, is forgotten. *)
Fixpoint remove_first (Event : Z) (l : list PROTOCOL_NOTIFY) : option (Z * list PROTOCOL_NOTIFY) :=
  match l with
  | [] => None
  | n :: l => if decide (NotifyEvent n = Event) then Some (NotifyAddress n, l)
              else '(a, l) ← remove_first Event l; Some (a, n :: l)
  end.

Fixpoint unregister (Event : Z) (l : list PROTOCOL_ENTRY) : option (Z * list PROTOCOL_ENTRY) :=
  match l with
  | [] => None
  | E :: l => match remove_first Event (Notify E) with
              | Some (a, ns) => Some (a, set_notify ns E :: l)
              | None => '(a, l) ← unregister Event l; Some (a, E :: l)
              end
  end.

Definition CoreUnregisterProtocolNotifyEvent (Event : Z) (db : DB) : Z * DB :=
  match unregister Event (mProtocolDatabase db) with
  | Some (a, l) => (EFI_SUCCESS, db_free a (with_protocols l db))
  | None => (EFI_NOT_FOUND, db)
  end.

Fixpoint unregister_loop (n : nat) (Event : Z) (db : DB) : outcome (Z * DB) :=
  match n with
  | O => Fault Diverges
  | S n => let '(Status, db) := CoreUnregisterProtocolNotifyEvent Event db in
           if EFI_ERROR Status then mret (EFI_SUCCESS, db) else unregister_loop n Event db
  end.

(** Each round but the last takes a registration off. *)
Definition CoreUnregisterProtocolNotify (Event : Z) (db : DB) : outcome (Z * DB) :=
  unregister_loop (S (sum_list ((fun E => length (Notify E)) <$> mProtocolDatabase db))) Event db.

(** Handles that have changed since [Key] are connected; a buffer that cannot
    be had ends the call. *)
Definition CoreConnectHandlesByKey (Key : Z) (db : DB) : outcome DB :=
  hs ← foldr (fun h rest => l ← rest; I ← deref (handles db !! h); mret (if decide (Key < HandleKey I) then h :: l else l))
         (mret []) (gHandleList db);
  match db_alloc (u64 (8 * Z.of_nat (length hs))) db with
  | (None, db) => mret db
  | (Some b, db) => mret (db_free b (foldl (fun db h => CoreConnectController h db) db hs))
  end.

(** *** Several at once

    The argument list is a list of protocols and interfaces. *)
Fixpoint uninstall_all (Handle : Z) (l : list (EFI_GUID * Z)) (done : list (EFI_GUID * Z)) (db : DB)
    : outcome (Z * list (EFI_GUID * Z) * DB) :=
  match l with
  | [] => mret (EFI_SUCCESS, done, db)
  | (g, i) :: l =>
      '(Status, db) ← CoreUninstallProtocolInterface Handle (Some g) i db;
      if EFI_ERROR Status then mret (Status, done, db) else uninstall_all Handle l (done ++ [(g, i)]) db
  end.

Fixpoint reinstall_all (Handle : Z) (l : list (EFI_GUID * Z)) (db : DB) : outcome DB :=
  match l with
  | [] => mret db
  | (g, i) :: l =>
      '(_, h, db) ← CoreInstallProtocolInterface (Some Handle) (Some g) EFI_NATIVE_INTERFACE i db;
      reinstall_all (default Handle h) l db
  end.

Definition CoreUninstallMultipleProtocolInterfaces (Handle : Z) (Args : list (EFI_GUID * Z)) (db : DB) : outcome (Z * DB) :=
  '(Status, done, db) ← uninstall_all Handle Args [] db;
  if EFI_ERROR Status then db ← reinstall_all Handle done db; mret (EFI_INVALID_PARAMETER, db) else mret (Status, db).

Section paths.
(** The memory the device paths are in, and the GUID of the protocol. *)
Context (m : MEMORY) (gEfiDevicePathProtocolGuid : EFI_GUID).

(** Whether some handle has the device path [DevicePath] already. *)
Fixpoint same_device_path (DevicePath SourceSize : Z) (l : list Z) (db : DB) : outcome bool :=
  match l with
  | [] => mret false
  | i :: l =>
      Prot ← deref (interfaces db !! i);
      Size ← GetDevicePathSize fuel (InterfaceOf Prot) m;
      if decide (Size = SourceSize /\ CompareMem DevicePath (InterfaceOf Prot) (u64 (Size - END_DEVICE_PATH_LENGTH)) m = 0)
      then mret true else same_device_path DevicePath SourceSize l db
  end.

Definition IsDevicePathInstalled (DevicePath : Z) (db : DB) : outcome bool :=
  if decide (DevicePath = 0) then mret false else
  SourceSize ← GetDevicePathSize fuel DevicePath m;
  match List.find (fun E => bool_decide (ProtocolID E = gEfiDevicePathProtocolGuid)) (mProtocolDatabase db) with
  | None => mret false
  | Some E => same_device_path DevicePath SourceSize (ByProtocolList E) db
  end.

Fixpoint install_all (Handle : Z) (l : list (EFI_GUID * Z)) (done : list (EFI_GUID * Z)) (db : DB)
    : outcome (Z * Z * list (EFI_GUID * Z) * DB) :=
  match l with
  | [] => mret (EFI_SUCCESS, Handle, done, db)
  | (g, i) :: l =>
      there ← (if decide (g = gEfiDevicePathProtocolGuid)
               then IsDevicePathInstalled i db else mret false);
      if there : bool then mret (EFI_ALREADY_STARTED, Handle, done, db) else
      '(Status, h, db) ← CoreInstallProtocolInterface (Some Handle) (Some g) EFI_NATIVE_INTERFACE i db;
      let Handle := default Handle h in
      if EFI_ERROR Status then mret (Status, Handle, done, db) else install_all Handle l (done ++ [(g, i)]) db
  end.

Fixpoint remove_all (Handle : Z) (l : list (EFI_GUID * Z)) (db : DB) : outcome DB :=
  match l with
  | [] => mret db
  | (g, i) :: l => '(_, db) ← CoreUninstallProtocolInterface Handle (Some g) i db; remove_all Handle l db
  end.

Definition CoreInstallMultipleProtocolInterfaces (Handle : option Z) (Args : list (EFI_GUID * Z)) (db : DB)
    : outcome (Z * option Z * DB) :=
  match Handle with
  | None => mret (EFI_INVALID_PARAMETER, None, db)
  | Some OldHandle =>
      '(Status, Handle, done, db) ← install_all OldHandle Args [] db;
      if EFI_ERROR Status then db ← remove_all Handle done db; mret (Status, Some OldHandle, db)
      else mret (Status, Some Handle, db)
  end.

(** The best match so far: its size, -1 for none, and its handle. *)
Fixpoint best_device (SourcePath SourceSize BestMatch BestDevice : Z) (Handles : list Z) (db : DB) : outcome (Z * Z * DB) :=
  match Handles with
  | [] => mret (BestMatch, BestDevice, db)
  | h :: Handles =>
      '(Status, Interface, db) ← CoreHandleProtocol h (Some gEfiDevicePathProtocolGuid) true db;
      if EFI_ERROR Status then best_device SourcePath SourceSize BestMatch BestDevice Handles db else
      n ← GetDevicePathSize fuel (default 0 Interface) m;
      let Size := i64 (n - 4) in
      if decide (Size <= SourceSize /\ CompareMem SourcePath (default 0 Interface) (u64 Size) m = 0 /\ BestMatch < Size)
      then best_device SourcePath SourceSize Size h Handles db
      else best_device SourcePath SourceSize BestMatch BestDevice Handles db
  end.

(** [DevicePath] is the pointer the argument points at, or nothing for a null
    argument, and [Device] whether there is a place for the handle; the result
    is the status, the pointer, the handle if one is written, and the
    database. *)
Definition CoreLocateDevicePath (Protocol : option EFI_GUID) (DevicePath : option Z) (Device : bool) (db : DB)
    : outcome (Z * option Z * option Z * DB) :=
  match Protocol with
  | None => mret (EFI_INVALID_PARAMETER, DevicePath, None, db)
  | Some g =>
      if decide (default 0 DevicePath = 0) then mret (EFI_INVALID_PARAMETER, DevicePath, None, db) else
      let SourcePath := default 0 DevicePath in
      e ← walk fuel (fun p m => IsDevicePathEnd p m || IsDevicePathEndInstance p m) SourcePath m;
      let SourceSize := i64 (u64 (e - SourcePath)) in
      '(Status, HandleCount, Handles, db) ← CoreLocateHandleBuffer ByProtocol (Some g) 0 true true db;
      if decide (EFI_ERROR Status = true \/ HandleCount = 0) then mret (EFI_NOT_FOUND, DevicePath, None, db) else
      '(BestMatch, BestDevice, db) ← best_device SourcePath SourceSize (-1) 0 Handles.2 db;
      let db := db_free Handles.1 db in
      if decide (BestMatch = -1) then mret (EFI_NOT_FOUND, DevicePath, None, db) else
      if Device then mret (EFI_SUCCESS, Some (u64 (SourcePath + BestMatch)), Some BestDevice, db)
      else mret (EFI_INVALID_PARAMETER, DevicePath, None, db)
  end.
End paths.
End drivers.
