(* ===== verification/DxeHandOk.v ===== *)
(** * DXE core: what the handle database keeps

    The invariant of the handle database of [DxeHand.v], the view a client has
    of it, and how the steps the services are made of change both.

    [linked] says that the four structures agree: the list of handles, the
    ordered collection and the handles; the interfaces of a handle and those
    of a protocol, each listed once and by both; one entry for a protocol;
    registrations that stand in the list of their protocol; counts of open
    records.  [owns] says that every structure is a block of its own in the
    pool.  The view is the list of handles, what is installed on each handle
    ([protocols]), and where each protocol is installed, oldest first
    ([order]). *)
From Stdlib Require Import ZArith Lia.
From stdpp Require Import base gmap list.
From S2P Require Import Prelude Pointer Firmware DxePage Heap DevicePath DxeHand.
#[local] Open Scope Z_scope.

Section ok.
Context {H : Type} `{HeapWf H}.
#[local] Abbreviation DB := (DATABASE H).
#[local] Abbreviation entries db := (mProtocolDatabase db).

(* ------------------------------------------------------------------ *)
(** ** Blocks *)

Definition entry_addresses (E : PROTOCOL_ENTRY) : list Z := EntryAddress E :: (NotifyAddress <$> Notify E).
Definition interface_addresses (ip : Z * PROTOCOL_INTERFACE) : list Z := ip.1 :: (OpenAddress <$> OpenList ip.2).

(** The blocks the database is made of. *)
Definition addresses (db : DB) : list Z :=
  gHandleList db ++ (map_to_list (gOrderedHandleList db)).*2 ++ (entries db ≫= entry_addresses) ++
  (map_to_list (interfaces db) ≫= interface_addresses).

(** Every block is in use and belongs to one structure, the blocks [X] to the
    caller. *)
Definition owns (X : list Z) (db : DB) : Prop :=
  heap_ok (pool_heap db) /\ NoDup (X ++ addresses db) /\
  forall a, a ∈ X ++ addresses db -> is_Some (heap_live (pool_heap db) !! a).

Lemma owns_move X X' (db db' : DB) : X ++ addresses db ≡ₚ X' ++ addresses db' -> pool_heap db' = pool_heap db ->
  owns X db -> owns X' db'.
Proof.
  intros Hp E (Hok & Hn & Hl). unfold owns. rewrite E. split; [done|]. split; [by rewrite <- Hp|].
  intros a Ha. apply Hl. by rewrite Hp.
Qed.

Lemma owns_alloc X (db db' : DB) size p : owns X db -> 0 <= size -> db_alloc size db = (Some p, db') ->
  db' = with_heap (pool_heap db') db /\ owns (p :: X) db' /\ p ∉ addresses db.
Proof.
  intros (Hok & Hn & Hl) Hs. unfold db_alloc. destruct (heap_alloc size (pool_heap db)) as [o h] eqn:Ea.
  intros E. simplify_eq. destruct (alloc_some _ _ _ _ Hok Hs Ea) as (Hok' & Hfresh & HL & _). simpl.
  split; [done|]. assert (p ∉ X ++ addresses db) as Hp by (intros Hi; apply Hl in Hi as [k Hk]; congruence).
  split; [|by intros Hi; apply Hp, elem_of_app; right]. split; [done|]. split; [by apply NoDup_cons|].
  intros a Ha. simpl. rewrite HL. apply elem_of_cons in Ha as [->|Ha]; [rewrite lookup_insert_eq; by eexists|].
  rewrite lookup_insert_ne; [by apply Hl|]. by intros ->.
Qed.

Lemma owns_alloc_none X (db db' : DB) size : owns X db -> 0 <= size -> db_alloc size db = (None, db') ->
  db' = with_heap (pool_heap db') db /\ owns X db'.
Proof.
  intros (Hok & Hn & Hl) Hs. unfold db_alloc. destruct (heap_alloc size (pool_heap db)) as [o h] eqn:Ea.
  intros E. simplify_eq. destruct (alloc_none _ _ _ Hok Hs Ea) as [Hok' HL]. simpl. split; [done|].
  split; [done|]. split; [done|]. simpl. by rewrite HL.
Qed.

Lemma owns_free X (db : DB) p : owns (p :: X) db -> owns X (db_free p db).
Proof.
  intros (Hok & Hn & Hl). apply NoDup_cons in Hn as [Hp Hn].
  destruct (free_live _ p Hok ltac:(apply Hl; by left)) as [Hok' HL]. split; [done|]. split; [done|].
  intros a Ha. simpl. rewrite HL. rewrite lookup_delete_ne; [apply Hl; by right|]. intros ->. by apply Hp.
Qed.

Lemma owns_free_list X l (db : DB) : owns (l ++ X) db -> owns X (foldr db_free db (reverse l)).
Proof.
  revert db. induction l as [|a l IH]; intros db Ho; [done|]. rewrite reverse_cons, foldr_app. simpl.
  apply IH, owns_free, Ho.
Qed.

Lemma owns_range X (db : DB) a : owns X db -> a ∈ X ++ addresses db -> 0 < a < 2 ^ 64 + 1.
Proof.
  intros (Hok & _ & Hl) Ha. destruct (Hl a Ha) as [n Hn]. destruct (live_range _ _ _ Hok Hn) as (? & ? & ?). lia.
Qed.

Lemma interfaces_insert (m : gmap Z PROTOCOL_INTERFACE) i P : m !! i = None ->
  map_to_list (<[i := P]> m) ≫= interface_addresses ≡ₚ interface_addresses (i, P) ++ (map_to_list m ≫= interface_addresses).
Proof. intros Hi. by rewrite map_to_list_insert. Qed.

Lemma interfaces_delete (m : gmap Z PROTOCOL_INTERFACE) i P : m !! i = Some P ->
  map_to_list m ≫= interface_addresses ≡ₚ interface_addresses (i, P) ++ (map_to_list (delete i m) ≫= interface_addresses).
Proof. intros Hi. by rewrite <- (map_to_list_delete m i P). Qed.

Lemma interfaces_alter (m : gmap Z PROTOCOL_INTERFACE) i P f : m !! i = Some P ->
  map_to_list (alter f i m) ≫= interface_addresses ≡ₚ interface_addresses (i, f P) ++ (map_to_list (delete i m) ≫= interface_addresses).
Proof.
  intros Hi. replace (alter f i m) with (<[i := f P]> (delete i m)); [apply interfaces_insert, lookup_delete_eq|].
  rewrite insert_delete_eq. apply map_eq. intros j. destruct (decide (i = j)) as [<-|].
  - by rewrite lookup_insert_eq, lookup_alter_eq, Hi.
  - by rewrite lookup_insert_ne, lookup_alter_ne.
Qed.

(* ------------------------------------------------------------------ *)
(** ** The structures agree *)

(** All handles but [bare] have a protocol. *)
Record linked (bare : option Z) (db : DB) : Prop := {
  l_list : NoDup (gHandleList db);
  l_dom : forall h, h ∈ gHandleList db <-> is_Some (handles db !! h);
  l_ordered : forall h, is_Some (gOrderedHandleList db !! h) <-> is_Some (handles db !! h);
  l_null : handles db !! 0 = None;
  l_bare : forall h I, handles db !! h = Some I -> Protocols I = [] -> bare = Some h;
  l_protocols : forall h I, handles db !! h = Some I -> NoDup (Protocols I);
  l_handle : forall h I i, handles db !! h = Some I -> i ∈ Protocols I <-> exists P, interfaces db !! i = Some P /\ HandleOf P = h;
  l_handle_of : forall i P, interfaces db !! i = Some P -> is_Some (handles db !! HandleOf P);
  l_guid : NoDup (ProtocolID <$> entries db);
  l_address : NoDup (EntryAddress <$> entries db);
  l_entries : forall E, E ∈ entries db -> NoDup (ByProtocolList E);
  l_entry : forall E i, E ∈ entries db -> i ∈ ByProtocolList E <-> exists P, interfaces db !! i = Some P /\ ProtocolOf P = EntryAddress E;
  l_protocol_of : forall i P, interfaces db !! i = Some P -> exists E, E ∈ entries db /\ EntryAddress E = ProtocolOf P;
  l_position : forall E n i, E ∈ entries db -> n ∈ Notify E -> Position n = Some i -> i ∈ ByProtocolList E;
  l_count : forall i P, interfaces db !! i = Some P -> OpenListCount P = u64 (Z.of_nat (length (OpenList P)));
  l_request : forall h I, handles db !! h = Some I -> 0 <= LocateRequest I <= mEfiLocateHandleRequest db;
  l_requests : is_u64 (mEfiLocateHandleRequest db);
}.

Definition guid_is (g : EFI_GUID) (E : PROTOCOL_ENTRY) : bool := bool_decide (ProtocolID E = g).
Definition find_guid (g : EFI_GUID) (db : DB) : option PROTOCOL_ENTRY := List.find (guid_is g) (entries db).

Lemma find_guid_spec g (db : DB) : match find_guid g db with
  | Some E => E ∈ entries db /\ ProtocolID E = g
  | None => forall E, E ∈ entries db -> ProtocolID E <> g
  end.
Proof.
  unfold find_guid. destruct (List.find _ _) as [E|] eqn:Ef.
  - apply List.find_some in Ef as [Hi Hg]. split; [by apply list_elem_of_In|]. by apply bool_decide_eq_true in Hg.
  - intros E Hi Hg. apply list_elem_of_In in Hi. pose proof (List.find_none _ _ Ef _ Hi) as Hn.
    unfold guid_is in Hn. by rewrite bool_decide_eq_true_2 in Hn.
Qed.

Lemma nodup_fmap_inj {A B} (f : A -> B) l x y : NoDup (f <$> l) -> x ∈ l -> y ∈ l -> f x = f y -> x = y.
Proof.
  intros Hn Hx Hy E. apply list_elem_of_lookup_1 in Hx as [i Hi], Hy as [j Hj].
  assert (i = j) as <-; [|congruence]. eapply (NoDup_lookup (f <$> l)); [done|rewrite list_lookup_fmap, Hi; done|].
  rewrite list_lookup_fmap, Hj. simpl. by rewrite E.
Qed.

Lemma entry_of_iff bare (db : DB) e E : linked bare db -> entry_of e db = Some E <-> E ∈ entries db /\ EntryAddress E = e.
Proof.
  intros HL. unfold entry_of. split.
  - intros Ef. apply List.find_some in Ef as [Hi Hg]. split; [by apply list_elem_of_In|]. by apply Z.eqb_eq.
  - intros [Hi He]. destruct (List.find _ _) as [E'|] eqn:Ef.
    + apply List.find_some in Ef as [Hi' He']. apply list_elem_of_In in Hi'. apply Z.eqb_eq in He'. f_equal.
      apply (nodup_fmap_inj EntryAddress (entries db)); [apply HL|done|done|congruence].
    + apply list_elem_of_In in Hi. pose proof (List.find_none _ _ Ef _ Hi) as Hn. simpl in Hn. by apply Z.eqb_neq in Hn.
Qed.

Lemma entry_of_interface bare (db : DB) i P : linked bare db -> interfaces db !! i = Some P ->
  exists E, entry_of (ProtocolOf P) db = Some E /\ E ∈ entries db /\ EntryAddress E = ProtocolOf P.
Proof. intros HL Hi. destruct (l_protocol_of _ _ HL i P Hi) as (E & HE & EE). exists E. split; [|done]. by apply (entry_of_iff bare). Qed.

(* ------------------------------------------------------------------ *)
(** ** The view of a client *)

(** Where an interface is and what it is. *)
Definition placed (db : DB) (i : Z) : option (Z * Z) := P ← interfaces db !! i; Some (HandleOf P, InterfaceOf P).
Definition named (db : DB) (i : Z) : option (EFI_GUID * Z) :=
  P ← interfaces db !! i; E ← entry_of (ProtocolOf P) db; Some (ProtocolID E, InterfaceOf P).

Definition order (db : DB) (g : EFI_GUID) : list (Z * Z) :=
  match find_guid g db with Some E => omap (placed db) (ByProtocolList E) | None => [] end.
Definition protocols (db : DB) (h : Z) : list (EFI_GUID * Z) :=
  match handles db !! h with Some T => omap (named db) (Protocols T) | None => [] end.

(** The same view: the handles, their protocols and the order. *)
Record same_view (db db' : DB) : Prop := {
  same_list : gHandleList db' = gHandleList db;
  same_protocols : forall h, protocols db' h = protocols db h;
  same_order : forall g, order db' g = order db g;
}.

#[export] Instance same_view_equiv : Equivalence same_view.
Proof.
  split.
  - intros db. by constructor.
  - intros a b []. constructor; intros; auto; symmetry; auto.
  - intros a b c [L1 P1 O1] [L2 P2 O2]. constructor; intros; [by rewrite L2|by rewrite P2|by rewrite O2].
Qed.

Lemma named_interface bare (db : DB) i P E : linked bare db -> interfaces db !! i = Some P -> E ∈ entries db -> EntryAddress E = ProtocolOf P ->
  named db i = Some (ProtocolID E, InterfaceOf P).
Proof. intros HL Hi HE EE. unfold named. rewrite Hi. simpl. by rewrite (proj2 (entry_of_iff bare db (ProtocolOf P) E HL)). Qed.

Lemma elem_of_protocols bare (db : DB) h g x : linked bare db ->
  (g, x) ∈ protocols db h <-> exists i P E, interfaces db !! i = Some P /\ HandleOf P = h /\ E ∈ entries db /\ EntryAddress E = ProtocolOf P /\
    ProtocolID E = g /\ InterfaceOf P = x.
Proof.
  intros HL. unfold protocols. split.
  - destruct (handles db !! h) as [I|] eqn:Eh; [|by intros Hi%elem_of_nil]. rewrite list_elem_of_omap. intros (i & Hi & Hn).
    apply (l_handle _ _ HL h I i Eh) in Hi as (P & Hi & Hh). destruct (entry_of_interface _ _ _ _ HL Hi) as (E & _ & HE & EE).
    rewrite (named_interface bare db i P E) in Hn by done. simplify_eq. by exists i, P, E.
  - intros (i & P & E & Hi & Hh & HE & EE & <- & <-). destruct (l_handle_of _ _ HL i P Hi) as [I Hh2]. rewrite Hh in Hh2. rewrite Hh2.
    apply list_elem_of_omap. exists i. split; [apply (l_handle _ _ HL h I i Hh2); by exists P|]. by apply (named_interface bare).
Qed.

Lemma elem_of_order bare (db : DB) h g x : linked bare db ->
  (h, x) ∈ order db g <-> (g, x) ∈ protocols db h.
Proof.
  intros HL. rewrite (elem_of_protocols bare) by done. unfold order. pose proof (find_guid_spec g db) as Hf.
  destruct (find_guid g db) as [E|].
  - destruct Hf as [HE Eg]. rewrite list_elem_of_omap. split.
    + intros (i & Hi & Hp). apply (l_entry _ _ HL E i HE) in Hi as (P & Hi & EP). unfold placed in Hp. rewrite Hi in Hp. simplify_eq/=.
      by exists i, P, E.
    + intros (i & P & E' & Hi & Hh & HE' & EE & Eg' & <-). assert (E' = E) as ->.
      { apply (nodup_fmap_inj ProtocolID (entries db)); [apply HL|done|done|congruence]. }
      exists i. split; [apply (l_entry _ _ HL E i HE); by exists P|]. unfold placed. rewrite Hi. simpl. by rewrite Hh.
  - split; [by intros Hi%elem_of_nil|]. intros (i & P & E & _ & _ & HE & _ & Eg & _). by destruct (Hf E HE).
Qed.

(** The first interface of a protocol on a handle. *)
Definition lookup_protocol (g : EFI_GUID) (l : list (EFI_GUID * Z)) : option Z :=
  snd <$> List.find (fun gx => bool_decide (gx.1 = g)) l.

Lemma lookup_protocol_None g l : lookup_protocol g l = None <-> forall x, (g, x) ∉ l.
Proof.
  unfold lookup_protocol. rewrite fmap_None. split.
  - intros Hf x Hi. apply list_elem_of_In in Hi. pose proof (List.find_none _ _ Hf _ Hi) as Hn. simpl in Hn.
    by rewrite bool_decide_eq_true_2 in Hn.
  - intros Hn. destruct (List.find _ l) as [[g' x]|] eqn:Ef; [|done]. apply List.find_some in Ef as [Hi Hg]. simpl in Hg.
    apply bool_decide_eq_true in Hg as ->. apply list_elem_of_In in Hi. by destruct (Hn x).
Qed.

Lemma get_interface_spec bare (db : DB) g l : linked bare db -> (forall i, i ∈ l -> is_Some (interfaces db !! i)) ->
  exists r, get_interface g l db = Done r /\
  match r with
  | Some i => i ∈ l /\ exists P E, interfaces db !! i = Some P /\ E ∈ entries db /\ EntryAddress E = ProtocolOf P /\ ProtocolID E = g /\
      lookup_protocol g (omap (named db) l) = Some (InterfaceOf P)
  | None => lookup_protocol g (omap (named db) l) = None
  end.
Proof.
  intros HL. induction l as [|i l IH]; intros Hl; [by exists None|]. cbn [get_interface].
  destruct (Hl i ltac:(by left)) as [P Hi]. destruct (entry_of_interface _ _ _ _ HL Hi) as (E & Ee & HE & EE).
  rewrite Hi. mred. cbn [deref]. mred. rewrite Ee. mred. cbn [deref]. mred.
  cbn [omap list_omap]. rewrite (named_interface bare db i P E) by done.
  unfold lookup_protocol. cbn [List.find fst]. destruct (decide (ProtocolID E = g)) as [Eg|Hg].
  - eexists. split; [done|]. split; [by left|]. exists P, E. rewrite bool_decide_eq_true_2 by done. done.
  - rewrite bool_decide_eq_false_2 by done. destruct IH as (r & -> & Hr); [intros j Hj; apply Hl; by right|].
    exists r. split; [done|]. destruct r as [j|]; [|done]. destruct Hr as [Hj Hr]. split; [by right|done].
Qed.

(** [CoreGetProtocolInterface] finds the first interface of the protocol. *)
Lemma CoreGetProtocolInterface_spec bare (db : DB) h I g : linked bare db -> handles db !! h = Some I ->
  exists r, CoreGetProtocolInterface h g db = Done r /\
  match r with
  | Some i => exists P E, interfaces db !! i = Some P /\ HandleOf P = h /\ E ∈ entries db /\ EntryAddress E = ProtocolOf P /\ ProtocolID E = g /\
      lookup_protocol g (protocols db h) = Some (InterfaceOf P)
  | None => lookup_protocol g (protocols db h) = None
  end.
Proof.
  intros HL Hh. unfold CoreGetProtocolInterface, protocols. rewrite Hh. cbn [deref]. mred.
  assert (forall i, i ∈ Protocols I -> exists P, interfaces db !! i = Some P /\ HandleOf P = h) as Hl.
  { intros i Hi. by apply (l_handle _ _ HL h I i Hh). }
  destruct (get_interface_spec bare db g (Protocols I) HL) as (r & Er & Hr).
  { intros i Hi. destruct (Hl i Hi) as (P & HP & _). by eexists. }
  exists r. split; [done|]. destruct r as [i|]; [|done]. destruct Hr as (Hi & P & E & HP & HE & EE & Eg & El).
  exists P, E. destruct (Hl i Hi) as (P' & HP' & Hh'). by replace P' with P in Hh' by congruence.
Qed.

(* ------------------------------------------------------------------ *)
(** ** Steps that keep the shape *)

Definition entry_head (E : PROTOCOL_ENTRY) : Z * EFI_GUID * list Z := (EntryAddress E, ProtocolID E, ByProtocolList E).
Definition interface_head (P : PROTOCOL_INTERFACE) : Z * Z * Z := (HandleOf P, ProtocolOf P, InterfaceOf P).

(** The same handles, entries and interfaces, linked the same way. *)
Record same_shape (db db' : DB) : Prop := {
  s_list : gHandleList db' = gHandleList db;
  s_ordered : forall h, is_Some (gOrderedHandleList db' !! h) <-> is_Some (gOrderedHandleList db !! h);
  s_handles : forall h, Protocols <$> handles db' !! h = Protocols <$> handles db !! h;
  s_interfaces : forall i, interface_head <$> interfaces db' !! i = interface_head <$> interfaces db !! i;
  s_entries : entry_head <$> entries db' = entry_head <$> entries db;
}.

#[export] Instance same_shape_refl : Reflexive same_shape.
Proof. by constructor. Qed.

Lemma same_shape_sym (db db' : DB) : same_shape db db' -> same_shape db' db.
Proof. intros []. constructor; intros; auto. symmetry. auto. Qed.

Lemma same_shape_trans (a b c : DB) : same_shape a b -> same_shape b c -> same_shape a c.
Proof.
  intros [L1 D1 H1' I1 E1] [L2 D2 H2' I2 E2].
  constructor; intros; [by rewrite L2|by rewrite D2|by rewrite H2'|by rewrite I2|by rewrite E2].
Qed.

Lemma s_handle (db db' : DB) h I' : same_shape db db' -> handles db' !! h = Some I' ->
  exists I, handles db !! h = Some I /\ Protocols I' = Protocols I.
Proof.
  intros Hs Hh. pose proof (s_handles _ _ Hs h) as E. rewrite Hh in E. destruct (handles db !! h) as [I|]; [|done].
  exists I. by simplify_eq/=.
Qed.

Lemma s_interface (db db' : DB) i P' : same_shape db db' -> interfaces db' !! i = Some P' ->
  exists P, interfaces db !! i = Some P /\ HandleOf P' = HandleOf P /\ ProtocolOf P' = ProtocolOf P /\ InterfaceOf P' = InterfaceOf P.
Proof.
  intros Hs Hh. pose proof (s_interfaces _ _ Hs i) as E. rewrite Hh in E. destruct (interfaces db !! i) as [P|]; [|done].
  exists P. simpl in E. unfold interface_head in E. by simplify_eq.
Qed.

Lemma s_entry (db db' : DB) E' : same_shape db db' -> E' ∈ entries db' ->
  exists E, E ∈ entries db /\ EntryAddress E' = EntryAddress E /\ ProtocolID E' = ProtocolID E /\ ByProtocolList E' = ByProtocolList E.
Proof.
  intros Hs HE. assert (entry_head E' ∈ entry_head <$> entries db) as Hi by (rewrite <- (s_entries _ _ Hs); by apply list_elem_of_fmap_2).
  apply list_elem_of_fmap_1 in Hi as (E & Eq & HE2). exists E. unfold entry_head in Eq. by simplify_eq.
Qed.

Lemma heads_guid (l l' : list PROTOCOL_ENTRY) : entry_head <$> l' = entry_head <$> l -> ProtocolID <$> l' = ProtocolID <$> l.
Proof. intros E. apply (f_equal (fmap (fun x => x.1.2))) in E. by rewrite <- !list_fmap_compose in E. Qed.

Lemma heads_address (l l' : list PROTOCOL_ENTRY) : entry_head <$> l' = entry_head <$> l -> EntryAddress <$> l' = EntryAddress <$> l.
Proof. intros E. apply (f_equal (fmap (fun x => x.1.1))) in E. by rewrite <- !list_fmap_compose in E. Qed.

Lemma linked_shape bare (db db' : DB) : same_shape db db' -> linked bare db ->
  (forall E n i, E ∈ entries db' -> n ∈ Notify E -> Position n = Some i -> i ∈ ByProtocolList E) ->
  (forall i P, interfaces db' !! i = Some P -> OpenListCount P = u64 (Z.of_nat (length (OpenList P)))) ->
  (forall h I, handles db' !! h = Some I -> 0 <= LocateRequest I <= mEfiLocateHandleRequest db') ->
  is_u64 (mEfiLocateHandleRequest db') -> linked bare db'.
Proof.
  intros Hs HL Hpos Hcount Hreq Hu. pose proof (same_shape_sym _ _ Hs) as Hs'.
  assert (forall h, is_Some (handles db' !! h) <-> is_Some (handles db !! h)) as Hd.
  { intros h. pose proof (s_handles _ _ Hs h) as E. by rewrite <- (fmap_is_Some Protocols), E, fmap_is_Some. }
  constructor; try done.
  - rewrite (s_list _ _ Hs). apply HL.
  - intros h. rewrite (s_list _ _ Hs), (l_dom _ _ HL). by rewrite Hd.
  - intros h. by rewrite (s_ordered _ _ Hs), (l_ordered _ _ HL), Hd.
  - destruct (handles db' !! 0) eqn:E0; [|done]. destruct (proj1 (Hd 0)) as [I HI]; [by eexists|]. by rewrite (l_null _ _ HL) in HI.
  - intros h I' Hh Hn. destruct (s_handle _ _ _ _ Hs Hh) as (I & HI & EI). apply (l_bare _ _ HL h I HI). by rewrite <- EI.
  - intros h I' Hh. destruct (s_handle _ _ _ _ Hs Hh) as (I & HI & ->). by apply (l_protocols _ _ HL h).
  - intros h I' i Hh. destruct (s_handle _ _ _ _ Hs Hh) as (I & HI & ->). rewrite (l_handle _ _ HL h I i HI). split; intros (P & HP & <-).
    + destruct (s_interface _ _ _ _ Hs' HP) as (P' & HP' & E1 & _). by exists P'.
    + destruct (s_interface _ _ _ _ Hs HP) as (P' & HP' & E1 & _). by exists P'.
  - intros i P' HP. destruct (s_interface _ _ _ _ Hs HP) as (P & HP2 & -> & _). by apply Hd, (l_handle_of _ _ HL i).
  - rewrite (heads_guid _ _ (s_entries _ _ Hs)). apply HL.
  - rewrite (heads_address _ _ (s_entries _ _ Hs)). apply HL.
  - intros E' HE. destruct (s_entry _ _ _ Hs HE) as (E & HE2 & _ & _ & ->). by apply (l_entries _ _ HL).
  - intros E' i HE. destruct (s_entry _ _ _ Hs HE) as (E & HE2 & -> & _ & ->). rewrite (l_entry _ _ HL E i HE2). split; intros (P & HP & EP).
    + destruct (s_interface _ _ _ _ Hs' HP) as (P' & HP' & _ & E1 & _). exists P'. by rewrite <- E1.
    + destruct (s_interface _ _ _ _ Hs HP) as (P' & HP' & _ & E1 & _). exists P'. by rewrite <- E1.
  - intros i P' HP. destruct (s_interface _ _ _ _ Hs HP) as (P & HP2 & _ & -> & _). destruct (l_protocol_of _ _ HL i P HP2) as (E & HE & EE).
    destruct (s_entry _ _ _ Hs' HE) as (E' & HE' & EA & _). exists E'. by rewrite <- EA.
Qed.

Lemma find_fmap {A B} (f : A -> B) (p : B -> bool) l : f <$> List.find (fun x => p (f x)) l = List.find p (f <$> l).
Proof. induction l as [|x l IH]; [done|]. cbn. by destruct (p (f x)). Qed.

Lemma omap_same {A B} (f g : A -> option B) (l : list A) : (forall x, x ∈ l -> f x = g x) -> omap f l = omap g l.
Proof.
  intros Hfg. apply list_omap_ext. apply Forall2_same_length_lookup_2; [done|]. intros i x y Hx Hy. simplify_eq.
  apply Hfg. by eapply list_elem_of_lookup_2.
Qed.

Lemma same_shape_view (db db' : DB) : same_shape db db' -> same_view db db'.
Proof.
  intros Hs. assert (forall i, placed db' i = placed db i) as Hp.
  { intros i. unfold placed. pose proof (s_interfaces _ _ Hs i) as E. destruct (interfaces db' !! i), (interfaces db !! i); try done.
    simpl in *. unfold interface_head in E. congruence. }
  assert (forall g, entry_head <$> find_guid g db' = entry_head <$> find_guid g db) as Hg.
  { intros g. unfold find_guid, guid_is. pose proof (find_fmap entry_head (fun x => bool_decide (x.1.2 = g))) as E. simpl in E.
    by rewrite !E, (s_entries _ _ Hs). }
  assert (forall e, entry_head <$> entry_of e db' = entry_head <$> entry_of e db) as He.
  { intros e. unfold entry_of. pose proof (find_fmap entry_head (fun x => x.1.1 =? e)) as E. simpl in E. by rewrite !E, (s_entries _ _ Hs). }
  assert (forall i, named db' i = named db i) as Hn.
  { intros i. unfold named. pose proof (s_interfaces _ _ Hs i) as E. destruct (interfaces db' !! i) as [P'|], (interfaces db !! i) as [P|]; try done.
    simpl in *. unfold interface_head in E. simplify_eq. replace (ProtocolOf P') with (ProtocolOf P) by congruence.
    specialize (He (ProtocolOf P)). destruct (entry_of _ db'), (entry_of _ db); try done. simpl in *. unfold entry_head in He. congruence. }
  constructor; [apply Hs| |].
  - intros h. unfold protocols. pose proof (s_handles _ _ Hs h) as E. destruct (handles db' !! h), (handles db !! h); try done.
    simpl in E. simplify_eq. rewrite E. by apply omap_same.
  - intros g. unfold order. specialize (Hg g). destruct (find_guid g db'), (find_guid g db); try done. simpl in Hg. unfold entry_head in Hg.
    simplify_eq. replace (ByProtocolList p) with (ByProtocolList p0) by congruence. by apply omap_same.
Qed.

(* ------------------------------------------------------------------ *)
(** ** New entries, handles and interfaces *)

Lemma nodup_app_one {A} (l : list A) x : NoDup l -> x ∉ l -> NoDup (l ++ [x]).
Proof. intros Hn Hx. apply NoDup_app. split; [done|]. split; [|apply NoDup_singleton]. intros y Hy Hi. apply list_elem_of_singleton in Hi. by subst. Qed.

Lemma find_app_new {A} (p : A -> bool) l x : p x = false -> List.find p (l ++ [x]) = List.find p l.
Proof. intros Hx. induction l as [|y l IH]; simpl; [by rewrite Hx|]. by destruct (p y). Qed.

Lemma find_app_last {A} (p : A -> bool) l x : List.find p l = None -> p x = true -> List.find p (l ++ [x]) = Some x.
Proof. intros Hn Hx. induction l as [|y l IH]; simpl in *; [by rewrite Hx|]. destruct (p y); [done|]. by apply IH. Qed.

(** An entry for a protocol that has none. *)
Lemma add_entry bare (db : DB) e g : linked bare db -> e ∉ EntryAddress <$> entries db -> find_guid g db = None ->
  let db' := with_protocols (entries db ++ [mkProtocol e g [] []]) db in
  linked bare db' /\ same_view db db' /\ find_guid g db' = Some (mkProtocol e g [] []).
Proof.
  intros HL He Hg db'. pose proof (find_guid_spec g db) as Hf. rewrite Hg in Hf.
  assert (forall i P, interfaces db !! i = Some P -> ProtocolOf P <> e) as Hne.
  { intros i P HP <-. destruct (l_protocol_of _ _ HL i P HP) as (E & HE & EE). apply He. rewrite <- EE. by apply list_elem_of_fmap_2. }
  assert (linked bare db') as HL'.
  { destruct HL. constructor; simpl; try done.
    - rewrite fmap_app. apply nodup_app_one; [done|]. intros (E & EE & HE)%list_elem_of_fmap_1. by destruct (Hf E HE).
    - rewrite fmap_app. by apply nodup_app_one.
    - intros E [HE|HE%list_elem_of_singleton]%elem_of_app; [auto|subst E; apply NoDup_nil_2].
    - intros E i [HE|HE%list_elem_of_singleton]%elem_of_app; [auto|]. subst E. simpl. split; [by intros Hi%elem_of_nil|].
      intros (P & HP & EP). by destruct (Hne i P HP).
    - intros i P HP. destruct (l_protocol_of0 i P HP) as (E & HE & EE). exists E. split; [|done]. apply elem_of_app. by left.
    - intros E n i [HE|HE%list_elem_of_singleton]%elem_of_app; [eauto|]. subst E. simpl. by intros Hn%elem_of_nil. }
  split; [done|]. split; [|apply find_app_last; [exact Hg|by apply bool_decide_eq_true_2]].
  constructor; [done| |].
  - intros h. unfold protocols. simpl. destruct (handles db !! h) as [T|] eqn:Eh; [|done]. apply omap_same. intros i Hi.
    unfold named. simpl. destruct (interfaces db !! i) as [P|] eqn:EP; [|done]. simpl. unfold entry_of. simpl.
    rewrite find_app_new; [done|]. simpl. apply Z.eqb_neq. intros E. by apply (Hne i P).
  - intros g'. unfold order, find_guid. simpl. destruct (decide (g' = g)) as [->|Hgg].
    + unfold find_guid in Hg. rewrite Hg. rewrite find_app_last; [done|done|by apply bool_decide_eq_true_2].
    + rewrite find_app_new; [done|]. by apply bool_decide_eq_false_2.
Qed.

(** A new handle, without protocols. *)
Lemma add_handle (db : DB) h node : linked None db -> handles db !! h = None -> h <> 0 ->
  let db' := with_list (gHandleList db ++ [h]) (with_ordered (<[h := node]> (gOrderedHandleList db))
               (with_handles (<[h := mkHandle [] 0 0]> (handles db)) db)) in
  linked (Some h) db' /\ (forall h', protocols db' h' = protocols db h') /\ (forall g, order db' g = order db g).
Proof.
  intros HL Hh H0' db'. pose proof (l_requests _ _ HL) as Hu. split; [|split; [|done]].
  - destruct HL. constructor; simpl; try done.
    + apply nodup_app_one; [done|]. rewrite l_dom0, Hh. by intros [].
    + intros h'. rewrite elem_of_app, list_elem_of_singleton, l_dom0, lookup_insert_is_Some. destruct (decide (h = h')) as [->|]; [tauto|].
      split; [intros [?|?]; [right; done|congruence]|]. intros [?|[_ ?]]; [congruence|by left].
    + intros h'. rewrite !lookup_insert_is_Some. by rewrite l_ordered0.
    + by rewrite lookup_insert_ne.
    + intros h' I [[-> <-]|[_ HI]]%lookup_insert_Some; [done|]. intros En. by specialize (l_bare0 h' I HI En).
    + intros h' I [[-> <-]|[_ HI]]%lookup_insert_Some; [apply NoDup_nil_2|by apply (l_protocols0 h')].
    + intros h' I i [[-> <-]|[_ HI]]%lookup_insert_Some; [|by apply l_handle0]. simpl. split; [by intros Hi%elem_of_nil|].
      intros (P & HP & EP). apply l_handle_of0 in HP as [I HI]. congruence.
    + intros i P HP. apply lookup_insert_is_Some'. right. by apply (l_handle_of0 i).
    + intros h' I [[-> <-]|[_ HI]]%lookup_insert_Some; [simpl; lia|by apply (l_request0 h')].
  - intros h'. unfold protocols. simpl. destruct (decide (h = h')) as [<-|]; [|by rewrite lookup_insert_ne].
    by rewrite lookup_insert_eq, Hh.
Qed.

Lemma elem_of_update_entry (db : DB) e f E' : E' ∈ entries (update_entry e f db) <->
  exists E, E ∈ entries db /\ E' = (if EntryAddress E =? e then f E else E).
Proof. simpl. rewrite list_elem_of_fmap. split; intros (E & ? & ?); by exists E. Qed.

Lemma update_entry_heads {B} (h : PROTOCOL_ENTRY -> B) (db : DB) e f : (forall E, h (f E) = h E) ->
  h <$> entries (update_entry e f db) = h <$> entries db.
Proof. intros Hh. simpl. rewrite <- list_fmap_compose. apply list_fmap_ext. intros i E _. simpl. by destruct (_ =? _). Qed.

Lemma find_update_entry {B} (h : PROTOCOL_ENTRY -> B) (p : B -> bool) (db : DB) e f : (forall E, h (f E) = h E) ->
  List.find (fun E => p (h E)) (entries (update_entry e f db)) =
  (fun E => if EntryAddress E =? e then f E else E) <$> List.find (fun E => p (h E)) (entries db).
Proof.
  intros Hh. simpl. induction (entries db) as [|E l IH]; [done|]. cbn [List.find fmap list_fmap].
  replace (h (if EntryAddress E =? e then f E else E)) with (h E) by (by destruct (_ =? _)). by destruct (p (h E)).
Qed.

(** An interface joins the front of its handle and the end of its protocol. *)
Definition link (h e p x : Z) (db : DB) : DB :=
  update_entry e (fun E => set_by_protocol (ByProtocolList E ++ [p]) E)
    (update_handle h (fun I => set_protocols (p :: Protocols I) I)
      (with_interfaces (<[p := mkInterface h e x [] 0]> (interfaces db)) db)).

Lemma linked_link bare (db : DB) h I E p x : linked bare db -> (bare = None \/ bare = Some h) -> handles db !! h = Some I ->
  E ∈ entries db -> interfaces db !! p = None -> linked None (link h (EntryAddress E) p x db).
Proof.
  intros HL Hb Hh HE Hp. pose proof (l_entry _ _ HL) as Hentry. pose proof (l_handle _ _ HL) as Hhandle. destruct HL.
  assert (forall E', E' ∈ entries db -> p ∉ ByProtocolList E') as Hpe.
  { intros E' HE' Hi. apply Hentry in Hi as (P & HP & _); [congruence|done]. }
  constructor; try done.
  - intros h'. simpl. by rewrite lookup_alter_is_Some.
  - intros h'. simpl. rewrite lookup_alter_is_Some. apply l_ordered0.
  - simpl. rewrite lookup_alter_ne; [done|]. intros ->. congruence.
  - simpl. intros h' I'. rewrite lookup_alter_Some. intros [(-> & I0 & _ & ->)|[Hne HI]]; [done|].
    intros En. specialize (l_bare0 h' I' HI En). destruct Hb; congruence.
  - simpl. intros h' I'. rewrite lookup_alter_Some. intros [(-> & I0 & HI & ->)|[Hne HI]]; [|by apply (l_protocols0 h')].
    simpl. apply NoDup_cons. split; [|by apply (l_protocols0 h')]. intros Hi. apply (Hhandle h' I0) in Hi as (P & HP & _); [congruence|done].
  - simpl. intros h' I' i. rewrite lookup_alter_Some. intros [(-> & I0 & HI & ->)|[Hne HI]]; simpl.
    + rewrite elem_of_cons, (Hhandle h' I0 i HI). split.
      * intros [->|(P & HP & EP)]; [eexists; by rewrite lookup_insert_eq|]. exists P. rewrite lookup_insert_ne; [done|congruence].
      * intros (P & [[-> <-]|[Hi HP]]%lookup_insert_Some & EP); [by left|right; by exists P].
    + rewrite (Hhandle h' I' i HI). split; intros (P & HP & EP).
      * exists P. rewrite lookup_insert_ne; [done|congruence].
      * apply lookup_insert_Some in HP as [[-> <-]|[Hi HP]]; [done|by exists P].
  - simpl. intros i P [[-> <-]|[Hi HP]]%lookup_insert_Some; rewrite lookup_alter_is_Some; [by eexists|by apply (l_handle_of0 i)].
  - unfold link. by rewrite update_entry_heads.
  - unfold link. by rewrite update_entry_heads.
  - intros E'. unfold link. rewrite elem_of_update_entry. intros (E0 & HE0 & ->). destruct (_ =? _); [|auto].
    apply nodup_app_one; [auto|by apply Hpe].
  - intros E' i. unfold link. rewrite elem_of_update_entry. intros (E0 & HE0 & ->). simpl. destruct (Z.eqb_spec (EntryAddress E0) (EntryAddress E)) as [EE|Hne].
    + simpl. rewrite elem_of_app, list_elem_of_singleton, (Hentry E0 i HE0). split.
      * intros [(P & HP & EP)| ->]; [|eexists; by rewrite lookup_insert_eq]. exists P. rewrite lookup_insert_ne; [done|congruence].
      * intros (P & [[-> <-]|[Hi HP]]%lookup_insert_Some & EP); [by right|left; by exists P].
    + rewrite (Hentry E0 i HE0). split; intros (P & HP & EP).
      * exists P. rewrite lookup_insert_ne; [done|congruence].
      * apply lookup_insert_Some in HP as [[-> <-]|[Hi HP]]; [simpl in EP; congruence|by exists P].
  - simpl. intros i P HP. assert (exists E0, E0 ∈ entries db /\ EntryAddress E0 = ProtocolOf P) as (E0 & HE0 & EE0).
    { apply lookup_insert_Some in HP as [[-> <-]|[Hi HP]]; [by exists E|by apply (l_protocol_of0 i)]. }
    eexists. split; [apply elem_of_update_entry; by exists E0|]. by destruct (_ =? _).
  - intros E' n i. unfold link. rewrite elem_of_update_entry. intros (E0 & HE0 & ->) Hn Hpos.
    assert (i ∈ ByProtocolList E0) as Hi by (apply (l_position0 E0 n i HE0); [by destruct (_ =? _)|done]).
    destruct (_ =? _); [|done]. simpl. apply elem_of_app. by left.
  - simpl. intros i P [[-> <-]|[Hi HP]]%lookup_insert_Some; [done|by apply (l_count0 i)].
  - simpl. intros h' I'. rewrite lookup_alter_Some. intros [(-> & I0 & HI & ->)|[Hne HI]]; [exact (l_request0 h' I0 HI)|by apply (l_request0 h')].
Qed.

Lemma link_view bare (db : DB) h I E p x : linked bare db -> handles db !! h = Some I -> E ∈ entries db -> interfaces db !! p = None ->
  let db' := link h (EntryAddress E) p x db in
  (forall h', protocols db' h' = if decide (h' = h) then (ProtocolID E, x) :: protocols db h else protocols db h') /\
  (forall g, order db' g = if decide (g = ProtocolID E) then order db g ++ [(h, x)] else order db g).
Proof.
  intros HL Hh HE Hp db'.
  assert (forall i P, interfaces db !! i = Some P -> named db' i = named db i /\ placed db' i = placed db i) as Hold.
  { intros i P HP. assert (i <> p) by congruence. unfold named, placed. simpl. rewrite lookup_insert_ne, HP by done. split; [|done].
    simpl. unfold entry_of. simpl.
    pose proof (find_update_entry EntryAddress (fun a => a =? ProtocolOf P) db (EntryAddress E) (fun E => set_by_protocol (ByProtocolList E ++ [p]) E)
      ltac:(done)) as Ef. simpl in Ef. rewrite Ef. destruct (List.find _ (entries db)) as [E0|]; simpl; [by destruct (_ =? _)|done]. }
  split.
  - intros h'. unfold protocols. simpl. destruct (decide (h' = h)) as [->|Hne].
    + rewrite lookup_alter_eq, Hh. simpl. unfold named at 1. simpl. rewrite lookup_insert_eq. simpl. unfold entry_of. simpl.
      pose proof (find_update_entry EntryAddress (fun a => a =? EntryAddress E) db (EntryAddress E) (fun E => set_by_protocol (ByProtocolList E ++ [p]) E)
        ltac:(done)) as Ef. simpl in Ef. rewrite Ef. change (List.find _ (entries db)) with (entry_of (EntryAddress E) db).
      rewrite (proj2 (entry_of_iff bare db (EntryAddress E) E HL)) by done. simpl. rewrite Z.eqb_refl. simpl. f_equal.
      apply omap_same. intros i Hi. apply (l_handle _ _ HL h I i Hh) in Hi as (P & HP & _). by apply (Hold i P).
    + rewrite lookup_alter_ne by done. destruct (handles db !! h') as [I'|] eqn:Eh'; [|done].
      apply omap_same. intros i Hi. apply (l_handle _ _ HL h' I' i Eh') in Hi as (P & HP & _). by apply (Hold i P).
  - intros g. unfold order, find_guid, guid_is.
    pose proof (find_update_entry ProtocolID (fun a => bool_decide (a = g)) (update_handle h (fun I => set_protocols (p :: Protocols I) I)
      (with_interfaces (<[p := mkInterface h (EntryAddress E) x [] 0]> (interfaces db)) db)) (EntryAddress E)
      (fun E => set_by_protocol (ByProtocolList E ++ [p]) E) ltac:(done)) as Ef.
    cbn [fmap] in Ef. unfold db', link at 1. rewrite Ef. simpl. pose proof (find_guid_spec g db) as Hf. unfold find_guid, guid_is in Hf.
    assert (forall E', E' ∈ entries db -> omap (placed db') (ByProtocolList E') = omap (placed db) (ByProtocolList E')) as Hom.
    { intros E' HE'. apply omap_same. intros i Hi. apply (l_entry _ _ HL E' i HE') in Hi as (P & HP & _). by apply (Hold i P). }
    destruct (List.find _ (entries db)) as [E'|]; simpl.
    + destruct Hf as [HE' <-]. destruct (Z.eqb_spec (EntryAddress E') (EntryAddress E)) as [EE|HEE].
      * assert (E' = E) as -> by (by apply (nodup_fmap_inj EntryAddress (entries db)); [apply HL|..]).
        rewrite decide_True by done. simpl. rewrite omap_app. rewrite Hom by done. f_equal. simpl. unfold placed. simpl.
        by rewrite lookup_insert_eq.
      * rewrite decide_False; [by apply Hom|]. intros EI. apply HEE. f_equal.
        by apply (nodup_fmap_inj ProtocolID (entries db)); [apply HL|..].
    + rewrite decide_False; [done|]. intros ->. by apply (Hf E HE).
Qed.

(** The invariant of the database between calls, when the caller has the
    blocks [X]. *)
Definition db_with (X : list Z) (db : DB) : Prop := owns X db /\ linked None db.
Definition db_ok (db : DB) : Prop := owns [] db /\ linked None db.

(* ------------------------------------------------------------------ *)
(** ** Opening *)

Definition exclusive (D : OPEN_PROTOCOL_DATA) : bool := negb (Z.land (OpenAttributes D) EFI_OPEN_PROTOCOL_EXCLUSIVE =? 0).
Definition exact (ImageHandle Controller Attributes : Z) (D : OPEN_PROTOCOL_DATA) : Prop :=
  AgentHandle D = ImageHandle /\ OpenAttributes D = Attributes /\ ControllerHandle D = Controller.

Lemma open_scan_spec a c t l : forall seen d x,
  match open_scan a c t d x seen l with
  | inl (Status, l') => exists D l1 l2, l = l1 ++ D :: l2 /\ exact a c t D /\
      ((opened_by_driver D = true /\ Status = EFI_ALREADY_STARTED /\ l' = seen ++ l) \/
       (opened_by_driver D = false /\ exclusive D = false /\ Status = EFI_SUCCESS /\
        l' = seen ++ l1 ++ set_open_count (u32 (OpenCount D + 1)) D :: l2))
  | inr (d', x') => d' = d || existsb opened_by_driver l /\ x' = x || existsb exclusive l /\
      forall D, D ∈ l -> exact a c t D -> opened_by_driver D = false /\ exclusive D = true
  end.
Proof.
  induction l as [|D l IH]; intros seen d x; cbn [open_scan].
  - simpl. rewrite !orb_false_r. split; [done|]. split; [done|]. by intros D Hi%elem_of_nil.
  - cbn [existsb]. fold (opened_by_driver D) (exclusive D).
    destruct (opened_by_driver D && _) eqn:E1.
    { apply andb_true_iff in E1 as [E1 E2]. apply bool_decide_eq_true in E2. exists D, [], l. split; [done|]. split; [done|]. by left. }
    assert (forall d x, match open_scan a c t d x (seen ++ [D]) l with
      | inl (Status, l') => exists D' l1 l2, D :: l = l1 ++ D' :: l2 /\ exact a c t D' /\
          ((opened_by_driver D' = true /\ Status = EFI_ALREADY_STARTED /\ l' = seen ++ D :: l) \/
           (opened_by_driver D' = false /\ exclusive D' = false /\ Status = EFI_SUCCESS /\
            l' = seen ++ l1 ++ set_open_count (u32 (OpenCount D' + 1)) D' :: l2))
      | inr (d', x') => d' = d || existsb opened_by_driver l /\ x' = x || existsb exclusive l /\
          ((exact a c t D -> opened_by_driver D = false /\ exclusive D = true) -> forall D', D' ∈ D :: l -> exact a c t D' -> opened_by_driver D' = false /\ exclusive D' = true)
      end) as Hstep.
    { intros d' x'. specialize (IH (seen ++ [D]) d' x'). destruct (open_scan _ _ _ _ _ _ _) as [[S l']|[d2 x2]].
      - destruct IH as (D' & l1 & l2 & -> & He & Hs). exists D', (D :: l1), l2. split; [done|]. split; [done|].
        destruct Hs as [(?&?&->)|(?&?&?&->)]; [left|right]; rewrite <- app_assoc; done.
      - destruct IH as (-> & -> & Hall). split; [done|]. split; [done|]. intros HD D' [->|Hi]%elem_of_cons; auto. }
    destruct (exclusive D) eqn:E3.
    + specialize (Hstep (d || opened_by_driver D) true). destruct (open_scan _ _ _ _ _ _ _) as [[S l']|[d2 x2]]; [done|].
      destruct Hstep as (-> & -> & Hall). rewrite orb_assoc. split; [done|]. split; [by rewrite orb_true_r|]. apply Hall.
      intros He. split; [|done]. destruct (opened_by_driver D); [|done]. simpl in E1. by apply bool_decide_eq_false in E1.
    + destruct (bool_decide _) eqn:E2.
      * apply bool_decide_eq_true in E2. exists D, [], l. split; [done|]. split; [done|]. right. rewrite andb_true_r in E1. done.
      * specialize (Hstep (d || opened_by_driver D) x). destruct (open_scan _ _ _ _ _ _ _) as [[S l']|[d2 x2]]; [done|].
        destruct Hstep as (-> & -> & Hall). rewrite orb_assoc. split; [done|]. split; [done|]. apply Hall.
        intros He. by apply bool_decide_eq_false in E2.
Qed.

Lemma same_shape_heap (db : DB) h : same_shape db (with_heap h db).
Proof. by constructor. Qed.

Lemma linked_heap bare (db : DB) h : linked bare db -> linked bare (with_heap h db).
Proof. intros HL. apply (linked_shape bare db); [apply same_shape_heap|done|apply HL..]. Qed.

(** A change of an interface that leaves where it is and what it is. *)
Lemma update_interface_shape (db : DB) p f : (forall P, interface_head (f P) = interface_head P) -> same_shape db (update_interface p f db).
Proof.
  intros Hf. constructor; try done. intros i. simpl. destruct (decide (i = p)) as [->|]; [|by rewrite lookup_alter_ne].
  rewrite lookup_alter_eq. destruct (interfaces db !! p) as [P|]; [|done]. simpl. by rewrite Hf.
Qed.

Lemma update_open_list bare (db : DB) p P l n : linked bare db -> interfaces db !! p = Some P -> n = u64 (Z.of_nat (length l)) ->
  same_shape db (update_interface p (set_open_list l n) db) /\ linked bare (update_interface p (set_open_list l n) db).
Proof.
  intros HL HP Hn. assert (same_shape db (update_interface p (set_open_list l n) db)) as Hs by (by apply update_interface_shape).
  split; [done|]. apply (linked_shape bare db); [done|done|apply HL| |apply HL..].
  simpl. intros i P'. rewrite lookup_alter_Some. intros [(<- & P0 & HP0 & ->)|[_ HP0]]; [done|by apply (l_count _ _ HL i)].
Qed.

(** The blocks after the records of an interface change. *)
Lemma owns_open_list X X' (db : DB) p P l n : owns X db -> interfaces db !! p = Some P ->
  X ++ (OpenAddress <$> OpenList P) ≡ₚ X' ++ (OpenAddress <$> l) -> owns X' (update_interface p (set_open_list l n) db).
Proof.
  intros Ho HP Hp. apply (owns_move X X' db); [|done|done]. unfold addresses. simpl.
  rewrite (interfaces_alter _ p P) by done. rewrite (interfaces_delete _ p P HP). unfold interface_addresses. cbn [fst snd set_open_list OpenList].
  set (A := gHandleList db). set (B := (map_to_list _).*2). set (C := entries db ≫= _). set (D := map_to_list (delete p _) ≫= _).
  rewrite !(Permutation_app_comm A), !(Permutation_app_comm B), !(Permutation_app_comm C). simpl.
  rewrite <- !Permutation_middle, <- !app_assoc, !app_assoc. apply Permutation_cons; [done|].
  rewrite <- !app_assoc, (app_assoc X), (app_assoc X'). by rewrite Hp.
Qed.

Lemma u64_succ a : u64 (u64 a + 1) = u64 (a + 1).
Proof. apply u64_add_l. Qed.
End ok.
