(* ===== verification/DxeOpen.v ===== *)
(** * DXE core: opening and closing protocols

    What [CoreOpenProtocol], [CoreHandleProtocol] and [CoreCloseProtocol] of
    [DxeHand.v] do: which interface is found, who may open it, what is recorded
    and how the records are given back.  [open_args] says which opens are asked
    for rightly and [opened] is the specification of an open on the list of
    records, with the disconnects ([cleared]) and the allocation it makes; the
    list never has more than one owner, a driver or an exclusive agent.  Disconnecting a driver is a parameter, of
    which [disconnect_ok] asks that it keeps the database sound, leaves the
    interface in place, opens it for nobody, and, when it reports success, has
    removed a driver's record: so many rounds are enough as there are. *)
From Stdlib Require Import ZArith Lia.
From stdpp Require Import base gmap list list_tactics.
From S2P Require Import Prelude Pointer Firmware DxePage Heap DevicePath DxeHand DxeHandOk.
#[local] Open Scope Z_scope.

Section opening.
Context {H : Type} `{HeapWf H}.
#[local] Abbreviation DB := (DATABASE H).
#[local] Abbreviation OPEN := (list OPEN_PROTOCOL_DATA).
#[local] Abbreviation entries db := (mProtocolDatabase db).

(* ------------------------------------------------------------------ *)
(** ** The specification *)

(** Drivers and exclusive agents own an interface. *)
Definition owner (D : OPEN_PROTOCOL_DATA) : bool := opened_by_driver D || exclusive D.
Definition sole_owner (l : OPEN) : Prop := (length (filter (fun D => owner D = true) l) <= 1)%nat.

Definition exclusive_type (t : Z) : Prop :=
  t = EFI_OPEN_PROTOCOL_EXCLUSIVE \/ t = Z.lor EFI_OPEN_PROTOCOL_BY_DRIVER EFI_OPEN_PROTOCOL_EXCLUSIVE.
Definition owner_type (t : Z) : Prop := t = EFI_OPEN_PROTOCOL_BY_DRIVER \/ exclusive_type t.

(** The arguments the specification asks for: the handle is in the database
    and, for each kind of open, so are the handles it speaks of; a controller
    is not its own child. *)
Definition open_args (h a c t : Z) (db : DB) : Prop :=
  is_Some (handles db !! h) /\
  ((t = EFI_OPEN_PROTOCOL_BY_HANDLE_PROTOCOL \/ t = EFI_OPEN_PROTOCOL_GET_PROTOCOL \/ t = EFI_OPEN_PROTOCOL_TEST_PROTOCOL) \/
   t = EFI_OPEN_PROTOCOL_EXCLUSIVE /\ is_Some (handles db !! a) \/
   (t = EFI_OPEN_PROTOCOL_BY_DRIVER \/ t = Z.lor EFI_OPEN_PROTOCOL_BY_DRIVER EFI_OPEN_PROTOCOL_EXCLUSIVE) /\
     is_Some (handles db !! a) /\ is_Some (handles db !! c) \/
   t = EFI_OPEN_PROTOCOL_BY_CHILD_CONTROLLER /\ is_Some (handles db !! a) /\ is_Some (handles db !! c) /\ h <> c).

(** The attributes of an open are one of seven. *)
Definition known_attributes (t : Z) : Prop :=
  t ∈ [EFI_OPEN_PROTOCOL_BY_HANDLE_PROTOCOL; EFI_OPEN_PROTOCOL_GET_PROTOCOL; EFI_OPEN_PROTOCOL_TEST_PROTOCOL;
       EFI_OPEN_PROTOCOL_BY_CHILD_CONTROLLER; EFI_OPEN_PROTOCOL_BY_DRIVER; EFI_OPEN_PROTOCOL_EXCLUSIVE;
       Z.lor EFI_OPEN_PROTOCOL_BY_DRIVER EFI_OPEN_PROTOCOL_EXCLUSIVE].

Lemma owner_new o a c t n : known_attributes t -> owner (mkOpen o a c t n) = true <-> owner_type t.
Proof.
  unfold known_attributes, owner_type, exclusive_type. intros Ht.
  repeat (apply elem_of_cons in Ht as [->|Ht]; [vm_compute; split; [intros; by auto|intros [?|[?|?]]; congruence]|]).
  by apply elem_of_nil in Ht.
Qed.

Lemma owners_none l : (forall D, D ∈ l -> owner D = false) -> filter (fun D => owner D = true) l = [].
Proof.
  intros Hl. induction l as [|D l IH]; [done|]. rewrite filter_cons_False.
  - apply IH. intros D' Hi. apply Hl. by right.
  - by rewrite (Hl D) by (by left).
Qed.

Lemma sole_owner_sublist l l' : l' `sublist_of` l -> sole_owner l -> sole_owner l'.
Proof.
  unfold sole_owner. intros Hs Hl. enough (length (filter (fun D => owner D = true) l') <= length (filter (fun D => owner D = true) l))%nat by lia.
  apply sublist_length. clear Hl. induction Hs as [|x l1 l2 Hs IH|x l1 l2 Hs IH]; [constructor| |]; rewrite !filter_cons;
    destruct (decide _); by constructor || done.
Qed.

(* ------------------------------------------------------------------ *)
(** ** Disconnecting *)

Definition drivers (l : OPEN) : nat := length (filter (fun D => opened_by_driver D = true) l).

(** What is asked of [CoreDisconnectController]. *)
Definition disconnect_ok (disconnect : Z -> Z -> DB -> Z * DB) : Prop := forall h a db p P Status db',
  db_ok db -> interfaces db !! p = Some P -> HandleOf P = h -> disconnect h a db = (Status, db') ->
  db_ok db' /\ exists P', interfaces db' !! p = Some P' /\ interface_head P' = interface_head P /\
    OpenList P' `sublist_of` OpenList P /\ (EFI_ERROR Status = false -> (drivers (OpenList P') < drivers (OpenList P))%nat).

Context (disconnect : Z -> Z -> DB -> Z * DB) (Hdisconnect : disconnect_ok disconnect).

(** The drivers that have interface [p] of handle [h] open are disconnected,
    the first record's first, until none has it or one refuses. *)
Inductive cleared (h p : Z) : DB -> DB -> bool -> Prop :=
| cleared_all db P : interfaces db !! p = Some P -> (forall D, D ∈ OpenList P -> opened_by_driver D = false) -> cleared h p db db true
| cleared_refused db P l1 D l2 S db1 : interfaces db !! p = Some P -> OpenList P = l1 ++ D :: l2 ->
    (forall D, D ∈ l1 -> opened_by_driver D = false) -> opened_by_driver D = true ->
    disconnect h (AgentHandle D) db = (S, db1) -> EFI_ERROR S = true -> cleared h p db db1 false
| cleared_next db P l1 D l2 S db1 db2 r : interfaces db !! p = Some P -> OpenList P = l1 ++ D :: l2 ->
    (forall D, D ∈ l1 -> opened_by_driver D = false) -> opened_by_driver D = true ->
    disconnect h (AgentHandle D) db = (S, db1) -> EFI_ERROR S = false -> cleared h p db1 db2 r -> cleared h p db db2 r.

(** What must be out of the way of an open with attributes [t] of an
    interface with records [l0]: of a driver every owner, of an exclusive agent
    the exclusive ones, and the drivers are disconnected. *)
Definition free_for (h p t : Z) (l0 : OPEN) (db db1 : DB) : Prop :=
  exclusive_type t /\ (forall D, D ∈ l0 -> exclusive D = false) /\ cleared h p db db1 true \/
  t = EFI_OPEN_PROTOCOL_BY_DRIVER /\ (forall D, D ∈ l0 -> owner D = false) /\ db1 = db \/
  ~ owner_type t /\ db1 = db.

(** No record of just this open, or only an exclusive one. *)
Definition unmatched (a c t : Z) (l0 : OPEN) : Prop :=
  forall D, D ∈ l0 -> exact a c t D -> opened_by_driver D = false /\ exclusive D = true.

(** Agent [a] opens interface [p] of handle [h], with records [l0], for
    controller [c] with attributes [t]; once the drivers that are in the way
    are disconnected the database is [db1] and the records are [l], and in the
    end they are [l']. *)
Inductive opened (h p a c t : Z) (db : DB) (l0 : OPEN) : DB -> OPEN -> Z -> OPEN -> Prop :=
| opened_started D : D ∈ l0 -> exact a c t D -> opened_by_driver D = true -> opened h p a c t db l0 db l0 EFI_ALREADY_STARTED l0
| opened_again D l1 l2 : l0 = l1 ++ D :: l2 -> exact a c t D -> opened_by_driver D = false -> exclusive D = false ->
    opened h p a c t db l0 db l0 EFI_SUCCESS (l1 ++ set_open_count (u32 (OpenCount D + 1)) D :: l2)
| opened_denied D : unmatched a c t l0 -> D ∈ l0 ->
    (t = EFI_OPEN_PROTOCOL_BY_DRIVER /\ owner D = true \/ exclusive_type t /\ exclusive D = true) ->
    opened h p a c t db l0 db l0 EFI_ACCESS_DENIED l0
| opened_kept db1 l : unmatched a c t l0 -> exclusive_type t -> (forall D, D ∈ l0 -> exclusive D = false) ->
    cleared h p db db1 false -> opened h p a c t db l0 db1 l EFI_ACCESS_DENIED l
| opened_anonymous db1 l : unmatched a c t l0 -> free_for h p t l0 db db1 -> a = 0 -> opened h p a c t db l0 db1 l EFI_SUCCESS l
| opened_new db1 l o : unmatched a c t l0 -> free_for h p t l0 db db1 -> a <> 0 -> (heap_alloc 48 (pool_heap db1)).1 = Some o ->
    opened h p a c t db l0 db1 l EFI_SUCCESS (l ++ [mkOpen o a c t 1])
| opened_no_memory db1 l : unmatched a c t l0 -> free_for h p t l0 db db1 -> a <> 0 -> (heap_alloc 48 (pool_heap db1)).1 = None ->
    opened h p a c t db l0 db1 l EFI_OUT_OF_RESOURCES l.

Lemma cleared_driverless h p db db1 r P1 : cleared h p db db1 r -> r = true -> interfaces db1 !! p = Some P1 ->
  forall D, D ∈ OpenList P1 -> opened_by_driver D = false.
Proof. induction 1 as [db P HP Hn| |]; intros Er HP1; [|done|by auto]. rewrite HP in HP1. by injection HP1 as <-. Qed.

(** Where an open is free to go ahead, nobody owns the interface. *)
Lemma free_for_owner h p t l0 db db1 P1 : free_for h p t l0 db db1 -> interfaces db1 !! p = Some P1 -> OpenList P1 `sublist_of` l0 ->
  owner_type t -> forall D, D ∈ OpenList P1 -> owner D = false.
Proof.
  intros Hf HP1 Hs Ht D HD. destruct Hf as [(_ & Hx & Hc)|[(_ & Ho & _)|[Hn _]]]; [|by apply Ho, (elem_of_sublist (OpenList P1))|done].
  unfold owner. rewrite (cleared_driverless h p db db1 true P1 Hc) by done. by apply Hx, (elem_of_sublist (OpenList P1)).
Qed.

(** An open leaves at most one owner. *)
Lemma opened_sole h p a c t db l0 db1 P1 Status l' : known_attributes t -> interfaces db1 !! p = Some P1 -> OpenList P1 `sublist_of` l0 ->
  opened h p a c t db l0 db1 (OpenList P1) Status l' -> sole_owner l0 -> sole_owner l'.
Proof.
  intros Ht HP1 Hs Ho Hl0. pose proof (sole_owner_sublist _ _ Hs Hl0) as Hl. revert HP1 Hs Hl. remember (OpenList P1) as l eqn:El. intros HP1 Hs Hl.
  destruct Ho as [|D l1 l2 El0| | | |db1 l o _ Hf Ha _|]; try done.
  - clear Hl Hs El. subst l0. unfold sole_owner in *. rewrite filter_app in *. rewrite filter_cons in *. change (owner (set_open_count _ D)) with (owner D).
    destruct (decide _); simpl in *; rewrite !length_app in *; done.
  - unfold sole_owner. rewrite filter_app, length_app. destruct (owner (mkOpen o a c t 1)) eqn:Eo.
    + apply owner_new in Eo; [|done]. subst l. rewrite (owners_none (OpenList P1)) by (by apply (free_for_owner h p t l0 db db1)).
      rewrite filter_cons. destruct (decide _); simpl; lia.
    + rewrite filter_cons_False by (by rewrite Eo). simpl. unfold sole_owner in Hl. lia.
Qed.

Lemma no_driver l : List.find opened_by_driver l = None -> forall D, D ∈ l -> opened_by_driver D = false.
Proof. intros Hn D Hi. apply list_elem_of_In in Hi. exact (List.find_none _ _ Hn _ Hi). Qed.

Lemma first_driver l D : List.find opened_by_driver l = Some D ->
  exists l1 l2, l = l1 ++ D :: l2 /\ (forall D, D ∈ l1 -> opened_by_driver D = false) /\ opened_by_driver D = true.
Proof.
  induction l as [|E l IH]; [done|]. cbn [List.find]. destruct (opened_by_driver E) eqn:EE.
  - intros [= <-]. exists [], l. split; [done|]. split; [by intros D' Hi%elem_of_nil|done].
  - intros (l1 & l2 & -> & Hl & HD)%IH. exists (E :: l1), l2. split; [done|]. split; [|done].
    intros D' [->|Hi]%elem_of_cons; [done|by apply Hl].
Qed.

Lemma disconnect_loop_ok h p n : forall db P, db_ok db -> interfaces db !! p = Some P -> HandleOf P = h -> (drivers (OpenList P) < n)%nat ->
  exists Status db' P', disconnect_loop disconnect n h p db = Done (Status, db') /\ db_ok db' /\ interfaces db' !! p = Some P' /\
    interface_head P' = interface_head P /\ OpenList P' `sublist_of` OpenList P /\
    (Status = EFI_ACCESS_DENIED /\ cleared h p db db' false \/ Status = EFI_SUCCESS /\ cleared h p db db' true).
Proof.
  induction n as [|n IH]; intros db P Hok HP Hh Hn; [lia|]. cbn [disconnect_loop]. rewrite HP. cbn [deref]. mred.
  destruct (List.find _ _) as [D|] eqn:Ef.
  - destruct (first_driver _ _ Ef) as (l1 & l2 & El & Hl1 & HD).
    destruct (disconnect h (AgentHandle D) db) as [S db1] eqn:Ed.
    destruct (Hdisconnect _ _ _ _ _ _ _ Hok HP Hh Ed) as (Hok1 & P1 & HP1 & Hhd & Hsub & Hlt).
    destruct (EFI_ERROR S) eqn:ES.
    { exists EFI_ACCESS_DENIED, db1, P1. do 5 (split; [done|]). left. split; [done|]. by eapply cleared_refused. }
    assert (HandleOf P1 = h) as Hh1 by (unfold interface_head in Hhd; congruence). specialize (Hlt eq_refl).
    destruct (IH db1 P1 Hok1 HP1 Hh1 ltac:(lia)) as (S2 & db2 & P2 & -> & Hok2 & HP2 & Hhd2 & Hsub2 & Hs).
    exists S2, db2, P2. split; [done|]. split; [done|]. split; [done|]. split; [congruence|]. split; [by etrans|].
    destruct Hs as [[-> Hc]|[-> Hc]]; [left|right]; (split; [done|]); by eapply cleared_next.
  - exists EFI_SUCCESS, db, P. do 5 (split; [done|]). right. split; [done|]. eapply cleared_all; [done|by apply no_driver].
Qed.

(* ------------------------------------------------------------------ *)
(** ** An open on the interface that was found *)

Lemma existsb_elem (f : OPEN_PROTOCOL_DATA -> bool) l : existsb f l = true <-> exists D, D ∈ l /\ f D = true.
Proof. rewrite List.existsb_exists. by setoid_rewrite list_elem_of_In. Qed.

Lemma existsb_none (f : OPEN_PROTOCOL_DATA -> bool) l : existsb f l = false -> forall D, D ∈ l -> f D = false.
Proof. intros Hf D Hi. destruct (f D) eqn:E; [|done]. rewrite (proj2 (existsb_elem f l)) in Hf; [done|by exists D]. Qed.

(** Nothing but open records and the pool changes. *)
Record only_opens (db db' : DB) : Prop := {
  o_shape : same_shape db db';
  o_handles : handles db' = handles db;
  o_list : gHandleList db' = gHandleList db;
  o_entries : entries db' = entries db;
  o_key : gHandleDatabaseKey db' = gHandleDatabaseKey db;
  o_request : mEfiLocateHandleRequest db' = mEfiLocateHandleRequest db;
  o_signalled : signalled db' = signalled db;
}.

Lemma only_opens_refl db : only_opens db db.
Proof. by constructor. Qed.

Lemma only_opens_heap (db : DB) h : only_opens db (with_heap h db).
Proof. constructor; [apply same_shape_heap|done..]. Qed.

Lemma only_opens_trans (a b c : DB) : only_opens a b -> only_opens b c -> only_opens a c.
Proof. intros [] []. constructor; [by eapply same_shape_trans|congruence..]. Qed.

Lemma only_opens_interface (db : DB) p f : (forall P, interface_head (f P) = interface_head P) -> only_opens db (update_interface p f db).
Proof. intros Hf. constructor; [by apply update_interface_shape|done..]. Qed.

(** The record of a new open. *)
Lemma record_open X (db : DB) p P a c t : db_with X db -> interfaces db !! p = Some P ->
  exists Status db' P',
    match db_alloc 48 db with
    | (Some o, db) => P ← deref (interfaces db !! p);
        mret (EFI_SUCCESS, update_interface p (set_open_list (OpenList P ++ [mkOpen o a c t 1]) (u64 (OpenListCount P + 1))) db)
    | (None, db) => mret (EFI_OUT_OF_RESOURCES, db)
    end = Done (Status, db') /\ db_with X db' /\ only_opens db db' /\ interfaces db' !! p = Some P' /\
    interface_head P' = interface_head P /\
    ((exists o, (heap_alloc 48 (pool_heap db)).1 = Some o /\ Status = EFI_SUCCESS /\ OpenList P' = OpenList P ++ [mkOpen o a c t 1]) \/
     (heap_alloc 48 (pool_heap db)).1 = None /\ Status = EFI_OUT_OF_RESOURCES /\ OpenList P' = OpenList P).
Proof.
  intros [Ho HL] HP. assert ((heap_alloc 48 (pool_heap db)).1 = (db_alloc 48 db).1) as -> by (unfold db_alloc; by destruct (heap_alloc _ _)).
  destruct (db_alloc 48 db) as [[o|] db1] eqn:Ea; cbn [fst].
  - destruct (owns_alloc X db db1 48 o Ho ltac:(lia) Ea) as (E1 & Ho1 & _).
    assert (interfaces db1 = interfaces db) as Ei by (by rewrite E1).
    assert (linked None db1) as HL1 by (rewrite E1; by apply linked_heap).
    rewrite Ei, HP. cbn [deref]. mred. set (l' := OpenList P ++ [mkOpen o a c t 1]). set (n := u64 (OpenListCount P + 1)).
    destruct (update_open_list None db1 p P l' n HL1) as [Hs HL2]; [by rewrite Ei| |].
    { unfold n, l'. rewrite (l_count _ _ HL p P HP), u64_add_l, length_app. simpl. f_equal. lia. }
    eexists _, _, (set_open_list l' n P). split; [done|]. split; [split; [|done]|].
    + apply (owns_open_list (o :: X) X db1 p P); [done|by rewrite Ei|]. unfold l'. rewrite fmap_app. simpl. solve_Permutation.
    + split; [apply (only_opens_trans _ db1); [rewrite E1; apply only_opens_heap|by apply only_opens_interface]|].
      split; [simpl; by rewrite lookup_alter_eq, Ei, HP|]. split; [done|]. left. by exists o.
  - destruct (owns_alloc_none X db db1 48 Ho ltac:(lia) Ea) as (E1 & Ho1).
    assert (interfaces db1 = interfaces db) as Ei by (by rewrite E1).
    exists EFI_OUT_OF_RESOURCES, db1, P. split; [done|].
    split; [split; [done|rewrite E1; by apply linked_heap]|]. split; [rewrite E1; apply only_opens_heap|].
    split; [by rewrite Ei|]. split; [done|]. by right.
Qed.

(** A record that is there already. *)
Lemma open_found X (db : DB) p P a c t S l' : db_with X db -> interfaces db !! p = Some P ->
  open_scan a c t false false [] (OpenList P) = inl (S, l') ->
  let db' := update_interface p (set_open_list l' (OpenListCount P)) db in
  db_with X db' /\ interfaces db' !! p = Some (set_open_list l' (OpenListCount P) P) /\ only_opens db db' /\
  forall h, opened h p a c t db (OpenList P) db (OpenList P) S l'.
Proof.
  intros [Ho HL] HP Escan db'. pose proof (open_scan_spec a c t (OpenList P) [] false false) as Hscan. rewrite Escan in Hscan.
  destruct Hscan as (D & l1 & l2 & El & He & Hs).
  assert (length l' = length (OpenList P) /\ OpenAddress <$> l' = OpenAddress <$> OpenList P) as [Elen Eadd].
  { destruct Hs as [(_ & _ & ->)|(_ & _ & _ & ->)]; [done|]. rewrite El. simpl. split; [rewrite !length_app; simpl; lia|].
    by rewrite !fmap_app. }
  destruct (update_open_list None db p P l' (OpenListCount P) HL HP) as [Hs' HL'].
  { rewrite (l_count _ _ HL p P HP). by rewrite Elen. }
  split; [split; [|done]; apply (owns_open_list X X db p P); [done|done|by rewrite Eadd]|].
  split; [simpl; by rewrite lookup_alter_eq, HP|]. split; [by apply only_opens_interface|]. intros h.
  destruct Hs as [(Hd & -> & ->)|(Hd & Hx & -> & ->)]; [|by eapply opened_again].
  apply (opened_started _ _ _ _ _ _ _ D); [rewrite El; apply elem_of_app; right; by left|done..].
Qed.

(** An exclusive open that nobody exclusive is in the way of. *)
Lemma open_exclusive fuel (db : DB) h p P t : db_ok db -> interfaces db !! p = Some P -> HandleOf P = h ->
  (drivers (OpenList P) < fuel)%nat -> exclusive_type t -> (forall D, D ∈ OpenList P -> exclusive D = false) ->
  exists Status db1 P1, (if existsb opened_by_driver (OpenList P) then disconnect_loop disconnect fuel h p db else mret (EFI_SUCCESS, db)) = Done (Status, db1) /\
    db_ok db1 /\ interfaces db1 !! p = Some P1 /\ interface_head P1 = interface_head P /\ OpenList P1 `sublist_of` OpenList P /\
    (Status = EFI_ACCESS_DENIED /\ cleared h p db db1 false \/ Status = EFI_SUCCESS /\ free_for h p t (OpenList P) db db1) /\
    (db1 = db \/ exists D, D ∈ OpenList P /\ opened_by_driver D = true).
Proof.
  intros Hok HP Hh Hf Ht Hx. destruct (existsb _ _) eqn:Ed.
  - destruct (disconnect_loop_ok h p fuel db P Hok HP Hh Hf) as (S & db1 & P1 & E & Hok1 & HP1 & Hhd & Hsub & Hs).
    exists S, db1, P1. do 5 (split; [done|]). split; [|right; by apply existsb_elem].
    destruct Hs as [?|[-> Hc]]; [by left|right]. split; [done|]. by left.
  - exists EFI_SUCCESS, db, P. do 5 (split; [done|]). split; [|by left]. right. split; [done|]. left. split; [done|]. split; [done|].
    eapply cleared_all; [done|]. by apply existsb_none.
Qed.

(** What is left once the way is free: no agent, or a record for it. *)
Lemma open_free (db db1 : DB) h p l0 P1 a c t : db_ok db1 -> interfaces db1 !! p = Some P1 -> unmatched a c t l0 -> free_for h p t l0 db db1 ->
  exists Status db' P',
    (if decide (a = 0) then mret (EFI_SUCCESS, db1) else
     match db_alloc 48 db1 with
     | (None, db) => mret (EFI_OUT_OF_RESOURCES, db)
     | (Some o, db) => P ← deref (interfaces db !! p);
         mret (EFI_SUCCESS, update_interface p (set_open_list (OpenList P ++ [mkOpen o a c t 1]) (u64 (OpenListCount P + 1))) db)
     end) = Done (Status, db') /\ db_ok db' /\ interfaces db' !! p = Some P' /\ interface_head P' = interface_head P1 /\
    only_opens db1 db' /\ opened h p a c t db l0 db1 (OpenList P1) Status (OpenList P').
Proof.
  intros Hok1 HP1 Hu Hw. destruct (decide (a = 0)) as [->|Ha].
  { exists EFI_SUCCESS, db1, P1. do 4 (split; [done|]). split; [apply only_opens_refl|by apply opened_anonymous]. }
  destruct (record_open [] db1 p P1 a c t Hok1 HP1) as (S & db' & P' & E & Hok' & Hs & HP' & Hhd & Hop).
  exists S, db', P'. split; [etransitivity; [|exact E]; by destruct (db_alloc 48 db1) as [[]]|]. do 4 (split; [done|]).
  destruct Hop as [(o & Ho & -> & ->)|(Ho & -> & ->)]; [by apply opened_new|by apply opened_no_memory].
Qed.

Lemma open_interface_ok fuel (db : DB) h p P a c t : db_ok db -> interfaces db !! p = Some P -> HandleOf P = h ->
  (drivers (OpenList P) < fuel)%nat ->
  exists Status db' P' db1 P1, open_interface disconnect fuel h p a c t db = Done (Status, db') /\ db_ok db' /\ interfaces db' !! p = Some P' /\
    interface_head P' = interface_head P /\ interfaces db1 !! p = Some P1 /\ OpenList P1 `sublist_of` OpenList P /\
    opened h p a c t db (OpenList P) db1 (OpenList P1) Status (OpenList P') /\ only_opens db1 db' /\
    (db1 = db \/ exclusive_type t /\ exists D, D ∈ OpenList P /\ opened_by_driver D = true).
Proof.
  intros Hok HP Hh Hf. unfold open_interface. rewrite HP. cbn [deref]. mred.
  pose proof (open_scan_spec a c t (OpenList P) [] false false) as Hscan. destruct (open_scan _ _ _ _ _ _ _) as [[S l']|[d x]] eqn:Escan.
  { destruct (open_found [] db p P a c t S l' Hok HP Escan) as (Hok' & HP' & Hs & Hop).
    eexists S, _, _, db, P. split; [done|]. split; [done|]. split; [done|]. do 2 (split; [done|]). split; [done|]. split; [apply Hop|]. split; [done|by left]. }
  destruct Hscan as (-> & -> & Hex). cbn [orb].
  set (driver := t =? EFI_OPEN_PROTOCOL_BY_DRIVER).
  set (excl := (t =? EFI_OPEN_PROTOCOL_EXCLUSIVE) || (t =? Z.lor EFI_OPEN_PROTOCOL_BY_DRIVER EFI_OPEN_PROTOCOL_EXCLUSIVE)).
  assert (driver = true <-> t = EFI_OPEN_PROTOCOL_BY_DRIVER) as Hd by apply Z.eqb_eq.
  assert (excl = true <-> exclusive_type t) as Hx by (unfold excl, exclusive_type; rewrite orb_true_iff, !Z.eqb_eq; done).
  destruct ((driver && _) || (excl && _)) eqn:Eden.
  - assert (exists D, D ∈ OpenList P /\ (t = EFI_OPEN_PROTOCOL_BY_DRIVER /\ owner D = true \/ exclusive_type t /\ exclusive D = true)) as (D & HD & HDo).
    { rewrite orb_true_iff, !andb_true_iff, orb_true_iff, !existsb_elem in Eden. unfold owner.
      destruct Eden as [[Et [(D & HD & E)|(D & HD & E)]]|[Et (D & HD & E)]]; (apply Hd in Et || apply Hx in Et);
        exists D; rewrite E, ?orb_true_r; auto. }
    exists EFI_ACCESS_DENIED, db, P, db, P. do 6 (split; [done|]). split; [by apply (opened_denied _ _ _ _ _ _ _ D)|].
    split; [apply only_opens_refl|by left].
  - apply orb_false_iff in Eden as [Ed1 Ed2]. destruct excl eqn:Ee; cbn [andb] in *.
    + destruct (open_exclusive fuel db h p P t Hok HP Hh Hf (proj1 Hx eq_refl) (existsb_none _ _ Ed2)) as (S & db1 & P1 & -> & Hok1 & HP1 & Hhd & Hsub & Hs & Hdb). mred.
      assert (db1 = db \/ exclusive_type t /\ exists D, D ∈ OpenList P /\ opened_by_driver D = true) as Hdb' by (destruct Hdb; [by left|right; by split; [apply Hx|]]).
      destruct Hs as [[-> Hc]|[-> Hw]].
      * rewrite decide_True by done. exists EFI_ACCESS_DENIED, db1, P1, db1, P1. do 6 (split; [done|]).
        split; [apply opened_kept; [done|by apply Hx|exact (existsb_none _ _ Ed2)|done]|]. by split; [apply only_opens_refl|].
      * rewrite decide_False by done. destruct (open_free db db1 h p (OpenList P) P1 a c t Hok1 HP1 Hex Hw) as (S2 & db2 & P2 & E2 & Hok2 & HP2 & Hhd2 & Hs2 & Hop).
        exists S2, db2, P2, db1, P1. split; [exact E2|]. do 2 (split; [done|]). split; [congruence|done].
    + mred. rewrite decide_False by done.
      assert (free_for h p t (OpenList P) db db) as Hw.
      { destruct driver eqn:Ed; [right; left|right; right].
        - split; [by apply Hd|]. split; [|done]. intros D HD. apply orb_false_iff in Ed1 as [E1 E2]. unfold owner.
          by rewrite (existsb_none _ _ E1), (existsb_none _ _ E2).
        - split; [|done]. intros [Ht|Ht]; [by apply Hd in Ht|by apply Hx in Ht]. }
      destruct (open_free db db h p (OpenList P) P a c t Hok HP Hex Hw) as (S2 & db2 & P2 & E2 & Hok2 & HP2 & Hhd2 & Hs2 & Hop).
      exists S2, db2, P2, db, P. split; [exact E2|]. do 6 (split; [done|]). split; [done|by left].
Qed.

(* ------------------------------------------------------------------ *)
(** ** The services *)

Lemma CoreValidateHandle_ok (db : DB) h : db_ok db ->
  CoreValidateHandle h db = if bool_decide (is_Some (handles db !! h)) then EFI_SUCCESS else EFI_INVALID_PARAMETER.
Proof.
  intros [_ HL]. unfold CoreValidateHandle. destruct (decide (h = 0)) as [->|Hne].
  - rewrite bool_decide_eq_false_2; [done|]. rewrite (l_null _ _ HL). by intros [].
  - pose proof (l_ordered _ _ HL h) as Ho. destruct (gOrderedHandleList db !! h) eqn:E.
    + by rewrite bool_decide_eq_true_2 by (apply Ho; by eexists).
    + rewrite bool_decide_eq_false_2; [done|]. intros Hs. by apply Ho in Hs as [].
Qed.

Lemma open_check_ok (db : DB) h a c t : db_ok db ->
  (open_check h a c t db = EFI_SUCCESS /\ open_args h a c t db) \/ (open_check h a c t db = EFI_INVALID_PARAMETER /\ ~ open_args h a c t db).
Proof.
  intros Hok. unfold open_check, open_args. cbn [foldr]. rewrite !(CoreValidateHandle_ok db) by done.
  destruct (bool_decide (is_Some (handles db !! h))) eqn:Eh; [apply bool_decide_eq_true in Eh|apply bool_decide_eq_false in Eh; right; by split; [|intros [? _]]].
  rewrite decide_False by done.
  destruct (bool_decide (is_Some (handles db !! a))) eqn:Ea; (apply bool_decide_eq_true in Ea || apply bool_decide_eq_false in Ea);
  destruct (bool_decide (is_Some (handles db !! c))) eqn:Ec; (apply bool_decide_eq_true in Ec || apply bool_decide_eq_false in Ec);
    change (EFI_ERROR EFI_SUCCESS) with false; change (EFI_ERROR EFI_INVALID_PARAMETER) with true; cbn iota;
    change (EFI_ERROR EFI_SUCCESS) with false; change (EFI_ERROR EFI_INVALID_PARAMETER) with true; cbn iota;
    repeat match goal with |- context [decide ?P] => destruct (decide P) end;
    first [left; split; [done|]; tauto|right; split; [done|]; intros [_ Hargs]];
    repeat match goal with H : _ \/ _ |- _ => destruct H | H : _ /\ _ |- _ => destruct H end; subst; by eauto.
Qed.

Lemma open_args_known (db : DB) h a c t : open_args h a c t db -> known_attributes t.
Proof. unfold known_attributes. rewrite !elem_of_cons. intros [_ Ht]. tauto. Qed.

(** What a successful search for the interface says. *)
Lemma search_ok (db : DB) h g : db_ok db -> is_Some (handles db !! h) ->
  exists r, CoreGetProtocolInterface h g db = Done r /\
  match r with
  | Some p => exists P, interfaces db !! p = Some P /\ HandleOf P = h /\ lookup_protocol g (protocols db h) = Some (InterfaceOf P)
  | None => lookup_protocol g (protocols db h) = None
  end.
Proof.
  intros [_ HL] [T Hh]. destruct (CoreGetProtocolInterface_spec None db h T g HL Hh) as (r & Er & Hr). exists r. split; [done|].
  destruct r as [p|]; [|done]. destruct Hr as (P & E & HP & HhP & _ & _ & _ & Hl). by exists P.
Qed.

Lemma CoreOpenProtocol_ok fuel (db : DB) h g (Interface : bool) a c t : db_ok db ->
  (forall p P, interfaces db !! p = Some P -> (drivers (OpenList P) < fuel)%nat) ->
  exists Status x db', CoreOpenProtocol disconnect fuel h (Some g) Interface a c t db = Done (Status, x, db') /\ db_ok db' /\
    ((Status = EFI_INVALID_PARAMETER /\ x = None /\ db' = db /\
      ~ ((t = EFI_OPEN_PROTOCOL_TEST_PROTOCOL \/ Interface = true) /\ open_args h a c t db)) \/
     (t = EFI_OPEN_PROTOCOL_TEST_PROTOCOL \/ Interface = true) /\ open_args h a c t db /\
     ((Status = EFI_UNSUPPORTED /\ lookup_protocol g (protocols db h) = None /\ db' = db /\
       x = (if decide (t = EFI_OPEN_PROTOCOL_TEST_PROTOCOL) then None else Some 0)) \/
      exists p P db1 P1 P', lookup_protocol g (protocols db h) = Some (InterfaceOf P) /\ interfaces db !! p = Some P /\ HandleOf P = h /\
        interfaces db1 !! p = Some P1 /\ OpenList P1 `sublist_of` OpenList P /\
        interfaces db' !! p = Some P' /\ interface_head P' = interface_head P /\
        opened h p a c t db (OpenList P) db1 (OpenList P1) Status (OpenList P') /\ only_opens db1 db' /\
        (sole_owner (OpenList P) -> sole_owner (OpenList P')) /\
        x = (if decide (t <> EFI_OPEN_PROTOCOL_TEST_PROTOCOL /\ (EFI_ERROR Status = false \/ Status = EFI_ALREADY_STARTED))
             then Some (InterfaceOf P) else None) /\
        (db1 = db \/ exclusive_type t /\ exists D, D ∈ OpenList P /\ opened_by_driver D = true))).
Proof.
  intros Hok Hf. unfold CoreOpenProtocol. set (test := bool_decide (t = EFI_OPEN_PROTOCOL_TEST_PROTOCOL)).
  assert (test = true <-> t = EFI_OPEN_PROTOCOL_TEST_PROTOCOL) as Ht by apply bool_decide_eq_true.
  destruct (negb test && negb Interface) eqn:Ei.
  { exists EFI_INVALID_PARAMETER, None, db. split; [done|]. split; [done|]. left. do 3 (split; [done|]).
    apply andb_true_iff in Ei as [E1 E2]. intros [[HT|HI] _]; [apply Ht in HT; by rewrite HT in E1|by rewrite HI in E2]. }
  assert (t = EFI_OPEN_PROTOCOL_TEST_PROTOCOL \/ Interface = true) as HI.
  { apply andb_false_iff in Ei as [E|E]; apply negb_false_iff in E; [left; by apply Ht|by right]. }
  destruct (open_check_ok db h a c t Hok) as [(Ec & Hargs)|[Ec Hargs]]; rewrite Ec.
  2: { exists EFI_INVALID_PARAMETER, None, db. split; [done|]. split; [done|]. left. do 3 (split; [done|]). by intros [_ ?]. }
  pose proof (open_args_known _ _ _ _ _ Hargs) as Hk. pose proof (proj1 Hargs) as Hh.
  rewrite decide_False by done. destruct (search_ok db h g Hok Hh) as (r & -> & Hr). mred. destruct r as [p|].
  - destruct Hr as (P & HP & HhP & Hl).
    destruct (open_interface_ok fuel db h p P a c t Hok HP HhP (Hf p P HP)) as (S & db' & P' & db1 & P1 & -> & Hok' & HP' & Hhd & HP1 & Hsub & Hop & Hs & Hdb).
    mred. assert (InterfaceOf P' = InterfaceOf P) as EI by (unfold interface_head in Hhd; congruence).
    eexists S, _, db'. split.
    + instantiate (1 := if decide (t <> EFI_OPEN_PROTOCOL_TEST_PROTOCOL /\ (EFI_ERROR S = false \/ S = EFI_ALREADY_STARTED))
            then Some (InterfaceOf P) else None).
      destruct test; [rewrite decide_False by (intros [? _]; tauto); done|].
      assert (t <> EFI_OPEN_PROTOCOL_TEST_PROTOCOL) as Hnt by (intros E; by apply Ht in E).
      destruct (decide (EFI_ERROR S = false \/ S = EFI_ALREADY_STARTED)) as [HS|HS].
      * rewrite (decide_True (P := t <> _ /\ _)) by done. rewrite HP'. cbn [deref]. mred. by rewrite EI.
      * rewrite (decide_False (P := t <> _ /\ _)) by tauto. rewrite decide_False; [done|]. intros ->. inversion Hop.
    + split; [done|]. right. split; [done|]. split; [done|]. right. exists p, P, db1, P1, P'. do 9 (split; [done|]).
      split; [by eapply opened_sole|done].
  - eexists EFI_UNSUPPORTED, _, db. split; [done|]. split; [done|]. right. split; [done|]. split; [done|]. left. do 3 (split; [done|]).
    destruct test; [rewrite decide_True by (by apply Ht); done|]. rewrite decide_False; [done|]. intros E. by apply Ht in E.
Qed.

(* ------------------------------------------------------------------ *)
(** ** Closing *)

Definition record_of (a c : Z) (D : OPEN_PROTOCOL_DATA) : bool := (AgentHandle D =? a) && (ControllerHandle D =? c).

Lemma filter_split (f : OPEN_PROTOCOL_DATA -> bool) (l : OPEN) :
  filter (fun D => f D = true) l ++ filter (fun D => f D = false) l ≡ₚ l.
Proof.
  induction l as [|D l IH]; [done|]. rewrite !filter_cons. destruct (f D); simpl; [by rewrite IH|].
  by rewrite <- Permutation_middle, IH.
Qed.

(** Records taken off an interface and given back to the pool. *)
Lemma drop_records bare X (db : DB) p P f : owns X db -> linked bare db -> interfaces db !! p = Some P ->
  let gone := filter (fun D => f D = true) (OpenList P) in
  let kept := filter (fun D => f D = false) (OpenList P) in
  let db' := foldr (fun D => db_free (OpenAddress D))
    (update_interface p (set_open_list kept (u64 (OpenListCount P - Z.of_nat (length gone)))) db) (reverse gone) in
  owns X db' /\ linked bare db' /\ same_shape db db' /\ handles db' = handles db /\ entries db' = entries db /\
  gHandleDatabaseKey db' = gHandleDatabaseKey db /\ signalled db' = signalled db /\
  interfaces db' = alter (set_open_list kept (u64 (Z.of_nat (length kept)))) p (interfaces db).
Proof.
  intros Ho HL HP gone kept db'. set (n := u64 (OpenListCount P - Z.of_nat (length gone))) in *.
  assert (n = u64 (Z.of_nat (length kept))) as En.
  { unfold n. rewrite (l_count _ _ HL p P HP). rewrite <- (filter_split f (OpenList P)) at 1. fold gone kept. rewrite length_app.
    replace (u64 (Z.of_nat (length gone + length kept)) - Z.of_nat (length gone))
      with (u64 (Z.of_nat (length gone + length kept)) + - Z.of_nat (length gone)) by lia. rewrite u64_add_l. f_equal. lia. }
  destruct (update_open_list bare db p P kept n HL HP En) as [Hs HL'].
  set (db1 := update_interface p (set_open_list kept n) db) in *.
  assert (owns ((OpenAddress <$> gone) ++ X) db1) as Ho1.
  { apply (owns_open_list X _ db p P); [done|done|]. rewrite <- (filter_split f (OpenList P)). fold gone kept. rewrite fmap_app.
    by rewrite (app_assoc X), (Permutation_app_comm X). }
  assert (db' = foldr db_free db1 (reverse (OpenAddress <$> gone))) as Edb.
  { unfold db', db1. rewrite <- fmap_reverse. generalize (reverse gone). intros l. induction l as [|D l IH]; [done|]. simpl. by rewrite IH. }
  assert (exists hp, db' = with_heap hp db1) as [hp Ehp].
  { rewrite Edb. generalize (reverse (OpenAddress <$> gone)). intros l. induction l as [|D l [hp IH]]; [by exists (pool_heap db1)|].
    simpl. rewrite IH. by eexists. }
  split; [rewrite Edb; by apply owns_free_list|]. rewrite Ehp. split; [by apply linked_heap|].
  split; [exact (same_shape_trans _ _ _ Hs (same_shape_heap _ hp))|]. do 4 (split; [done|]). simpl. by rewrite En.
Qed.

Lemma CoreCloseProtocol_ok (db : DB) h g a c : db_ok db ->
  exists Status db', CoreCloseProtocol h (Some g) a c db = Done (Status, db') /\ db_ok db' /\ same_shape db db' /\
    ((Status = EFI_INVALID_PARAMETER /\ db' = db /\
      ~ (is_Some (handles db !! h) /\ is_Some (handles db !! a) /\ (c = 0 \/ is_Some (handles db !! c)))) \/
     (Status = EFI_NOT_FOUND /\ db' = db /\ lookup_protocol g (protocols db h) = None) \/
     exists p P, lookup_protocol g (protocols db h) = Some (InterfaceOf P) /\ interfaces db !! p = Some P /\ HandleOf P = h /\
       (Status = EFI_SUCCESS <-> exists D, D ∈ OpenList P /\ record_of a c D = true) /\ (Status = EFI_SUCCESS \/ Status = EFI_NOT_FOUND) /\
       interfaces db' !! p = Some (set_open_list (filter (fun D => record_of a c D = false) (OpenList P))
         (u64 (Z.of_nat (length (filter (fun D => record_of a c D = false) (OpenList P))))) P)).
Proof.
  intros Hok. pose proof Hok as [Ho HL]. unfold CoreCloseProtocol.
  assert (forall x, EFI_ERROR (CoreValidateHandle x db) = negb (bool_decide (is_Some (handles db !! x)))) as Ev.
  { intros x. rewrite CoreValidateHandle_ok by done. by destruct (bool_decide _). }
  rewrite !Ev. destruct (_ || _) eqn:Eb.
  { exists EFI_INVALID_PARAMETER, db. do 2 (split; [done|]). split; [reflexivity|]. left. do 2 (split; [done|]). intros (K1 & K2 & K3).
    rewrite !(bool_decide_eq_true_2 (is_Some _)) in Eb by done. cbn in Eb. destruct K3 as [->|K3]; [done|].
    rewrite (bool_decide_eq_true_2 (is_Some _)) in Eb by done. by rewrite andb_false_r in Eb. }
  apply orb_false_iff in Eb as [Eb _]. apply orb_false_iff in Eb as [Eh _]. apply negb_false_iff, bool_decide_eq_true in Eh.
  destruct (search_ok db h g Hok Eh) as (r & -> & Hr). mred. destruct r as [p|].
  - destruct Hr as (P & HP & HhP & Hl). rewrite HP. cbn [deref]. mred.
    destruct (drop_records None [] db p P (record_of a c) Ho HL HP) as (Ho' & HL' & Hs & _ & _ & _ & _ & HI).
    eexists _, _. split; [reflexivity|]. split; [by split|]. split; [exact Hs|]. right. right. exists p, P. do 3 (split; [done|]).
    fold (record_of a c). change (fun D => (AgentHandle D =? a) && (ControllerHandle D =? c) = true) with (fun D => record_of a c D = true).
    pose proof (fun D => list_elem_of_filter (fun D => record_of a c D = true) (OpenList P) D) as Hel.
    revert Hel. destruct (filter (fun D => record_of a c D = true) (OpenList P)) as [|D0 gone]; intros Hel; (split; [|split; [by auto|]]).
    + split; [done|]. intros (D & HD & HDr). by destruct (proj1 (elem_of_nil D) (proj2 (Hel D) (conj HDr HD))).
    + by etransitivity; [exact (f_equal (fun m => m !! p) HI)|]; rewrite lookup_alter_eq, HP.
    + split; [|done]. intros _. exists D0. destruct (proj1 (Hel D0)) as [? ?]; [by left|done].
    + etransitivity; [exact (f_equal (fun m => m !! p) HI)|]. by rewrite lookup_alter_eq, HP.
  - exists EFI_NOT_FOUND, db. do 2 (split; [done|]). split; [reflexivity|]. right. left. done.
Qed.
End opening.

(* ------------------------------------------------------------------ *)
(** ** Properties *)

(** C15: [CoreOpenProtocol] is refused, without effect, exactly when the
    protocol is null, there is no place for the interface and the open is not
    a test, the handle is not in the database, the attributes are not one of
    the seven kinds of open, or an agent or controller that kind needs is not
    in the database or is the handle's own child ([open_args]).  Otherwise it
    reports [EFI_UNSUPPORTED] when the handle does not have the protocol, and
    opens an interface of it on the handle as the specification [opened] says:
    a driver that has it open already is told so, an agent that opens it again
    is counted, an open is denied while an owner is in the way that is not a
    driver to disconnect or is one that refuses, and everyone else is recorded
    once the drivers in the way have been disconnected one by one, unless the
    heap has no block for the record; an interface never gets a second owner.
    The interface is reported exactly when the open succeeds or has succeeded
    before; the database stays sound, and nothing but open records changes
    but for the disconnected drivers.  Disconnecting keeps the database sound
    and the interface in place, and the drivers that have an interface open
    are fewer than the rounds of the model. *)
Theorem CoreOpenProtocol_correct {H} `{HeapWf H} (disconnect : Z -> Z -> DATABASE H -> Z * DATABASE H) (fuel : nat)
    (db : DATABASE H) (h : Z) (Protocol : option EFI_GUID) (Interface : bool) (a c t : Z) :
  disconnect_ok disconnect -> db_ok db -> (forall p P, interfaces db !! p = Some P -> (drivers (OpenList P) < fuel)%nat) ->
  exists Status x db', CoreOpenProtocol disconnect fuel h Protocol Interface a c t db = Done (Status, x, db') /\ db_ok db' /\
    ((Status = EFI_INVALID_PARAMETER /\ x = None /\ db' = db /\
      ~ (is_Some Protocol /\ (t = EFI_OPEN_PROTOCOL_TEST_PROTOCOL \/ Interface = true) /\ open_args h a c t db)) \/
     exists g, Protocol = Some g /\ (t = EFI_OPEN_PROTOCOL_TEST_PROTOCOL \/ Interface = true) /\ open_args h a c t db /\
     ((Status = EFI_UNSUPPORTED /\ lookup_protocol g (protocols db h) = None /\ db' = db /\
       x = (if decide (t = EFI_OPEN_PROTOCOL_TEST_PROTOCOL) then None else Some 0)) \/
      exists p P db1 P1 P', lookup_protocol g (protocols db h) = Some (InterfaceOf P) /\ interfaces db !! p = Some P /\ HandleOf P = h /\
        interfaces db1 !! p = Some P1 /\ OpenList P1 `sublist_of` OpenList P /\
        interfaces db' !! p = Some P' /\ interface_head P' = interface_head P /\
        opened disconnect h p a c t db (OpenList P) db1 (OpenList P1) Status (OpenList P') /\ only_opens db1 db' /\
        (sole_owner (OpenList P) -> sole_owner (OpenList P')) /\
        x = (if decide (t <> EFI_OPEN_PROTOCOL_TEST_PROTOCOL /\ (EFI_ERROR Status = false \/ Status = EFI_ALREADY_STARTED))
             then Some (InterfaceOf P) else None) /\
        (db1 = db \/ exclusive_type t /\ exists D, D ∈ OpenList P /\ opened_by_driver D = true))).
Proof.
  intros Hd Hok Hf. destruct Protocol as [g|].
  - destruct (CoreOpenProtocol_ok disconnect Hd fuel db h g Interface a c t Hok Hf) as (S & x & db' & E & Hok' & Hc).
    exists S, x, db'. split; [done|]. split; [done|]. destruct Hc as [(? & ? & ? & Hn)|Hc]; [left|right; by exists g].
    do 3 (split; [done|]). by intros [_ ?].
  - exists EFI_INVALID_PARAMETER, None, db. split; [done|]. split; [done|]. left. do 3 (split; [done|]). by intros [[] _].
Qed.

(** [CoreCloseProtocol] takes every record of the agent and controller off
    the first interface of the protocol, leaves the others in order, counts
    what is left and gives the blocks back; it succeeds exactly when there was
    such a record, and the view of the database does not change. *)
Theorem CoreCloseProtocol_correct {H} `{HeapWf H} (db : DATABASE H) (h : Z) (g : EFI_GUID) (a c : Z) : db_ok db ->
  exists Status db', CoreCloseProtocol h (Some g) a c db = Done (Status, db') /\ db_ok db' /\ same_view db db' /\
    ((Status = EFI_INVALID_PARAMETER /\ db' = db /\
      ~ (is_Some (handles db !! h) /\ is_Some (handles db !! a) /\ (c = 0 \/ is_Some (handles db !! c)))) \/
     (Status = EFI_NOT_FOUND /\ db' = db /\ lookup_protocol g (protocols db h) = None) \/
     exists p P, lookup_protocol g (protocols db h) = Some (InterfaceOf P) /\ interfaces db !! p = Some P /\ HandleOf P = h /\
       (Status = EFI_SUCCESS <-> exists D, D ∈ OpenList P /\ record_of a c D = true) /\ (Status = EFI_SUCCESS \/ Status = EFI_NOT_FOUND) /\
       interfaces db' !! p = Some (set_open_list (filter (fun D => record_of a c D = false) (OpenList P))
         (u64 (Z.of_nat (length (filter (fun D => record_of a c D = false) (OpenList P))))) P)).
Proof.
  intros Hok. destruct (CoreCloseProtocol_ok db h g a c Hok) as (S & db' & E & Hok' & Hs & Hc).
  exists S, db'. split; [done|]. split; [done|]. split; [by apply same_shape_view|done].
Qed.
