(* ===== verification/DxeInstall.v ===== *)
(** * DXE core: installing protocols and being told of them

    [CoreInstallProtocolInterface] of [DxeHand.v] against the view of
    [DxeHandOk.v]: [installed] says what one more interface does to the list of
    handles, to the protocols of its handle, to the order of its protocol, to
    the key, to the events that are signalled and to what each registration
    still has to be told.  A registration is followed by [pending], the
    interfaces after its position: [CoreRegisterProtocolNotify] starts it with
    every interface there is, an install adds to its end, [CoreLocateProtocol]
    takes its first. *)
From Stdlib Require Import ZArith Lia.
From stdpp Require Import base gmap list list_tactics.
From S2P Require Import Prelude Pointer Firmware DxePage Heap DevicePath DxeHand DxeHandOk DxeOpen.
#[local] Open Scope Z_scope.

Section installing.
Context {H : Type} `{HeapWf H}.
#[local] Abbreviation DB := (DATABASE H).
#[local] Abbreviation entries db := (mProtocolDatabase db).

(* ------------------------------------------------------------------ *)
(** ** The specification *)

(** The registrations of a protocol. *)
Definition registered (db : DB) (g : EFI_GUID) : list PROTOCOL_NOTIFY :=
  match find_guid g db with Some E => Notify E | None => [] end.

(** The interfaces after a registration's position: those it has not been
    told of. *)
Definition rest_list (n : PROTOCOL_NOTIFY) (l : list Z) : list Z :=
  match Position n with None => l | Some p => default [] (after p l) end.
Definition pending (db : DB) (N : Z) : list (Z * Z) :=
  match notify_of N db with Some (E, n) => omap (placed db) (rest_list n (ByProtocolList E)) | None => [] end.
Definition registered_for (db : DB) (N : Z) : option EFI_GUID :=
  match notify_of N db with Some (E, _) => Some (ProtocolID E) | None => None end.

(** One more interface [x] of protocol [g] on handle [h]. *)
Record installed (h : Z) (g : EFI_GUID) (x : Z) (db db' : DB) : Prop := {
  i_list : gHandleList db' = gHandleList db ++ (if decide (h ∈ gHandleList db) then [] else [h]);
  i_protocols : forall h', protocols db' h' = if decide (h' = h) then (g, x) :: protocols db h else protocols db h';
  i_order : forall g', order db' g' = if decide (g' = g) then order db g ++ [(h, x)] else order db g';
  i_key : gHandleDatabaseKey db' = u64 (gHandleDatabaseKey db + 1) /\
          (exists I, handles db' !! h = Some I /\ HandleKey I = gHandleDatabaseKey db');
  i_registered : forall N, registered_for db' N = registered_for db N;
  i_pending : forall N, pending db' N = if decide (registered_for db N = Some g) then pending db N ++ [(h, x)] else pending db N;
}.

(** The heap has room for [n] small blocks, one after the other. *)
Fixpoint plenty (n : nat) (h : H) : Prop :=
  match n with
  | O => True
  | S n => forall size, 0 <= size <= 88 -> exists p h', heap_alloc size h = (Some p, h') /\ plenty n h'
  end.

(* ------------------------------------------------------------------ *)
(** ** Steps that keep the view, once more *)

(** What the invariant and the view do not look at. *)
Lemma linked_frame bare (db db' : DB) : handles db' = handles db -> gHandleList db' = gHandleList db ->
  gOrderedHandleList db' = gOrderedHandleList db -> entries db' = entries db -> interfaces db' = interfaces db ->
  mEfiLocateHandleRequest db' = mEfiLocateHandleRequest db -> linked bare db -> linked bare db' /\ same_shape db db'.
Proof.
  intros E1 E2 E3 E4 E5 E6 HL. assert (same_shape db db') as Hs by (constructor; intros; by rewrite ?E1, ?E2, ?E3, ?E4, ?E5).
  split; [|done]. apply (linked_shape bare db); [done|done|rewrite E4; apply HL|rewrite E5; apply HL|rewrite E1, E6; apply HL|rewrite E6; apply HL].
Qed.

(** What a registration sees depends on the entries and the interfaces. *)
Lemma same_registrations (db db' : DB) : entries db' = entries db -> (forall i, placed db' i = placed db i) ->
  forall N, registered_for db' N = registered_for db N /\ pending db' N = pending db N.
Proof.
  intros E Hp N. unfold registered_for, pending, notify_of. rewrite E. split; [done|].
  destruct (List.find _ (entries db)) as [X|]; [simpl|done]. destruct (List.find _ (Notify X)); [simpl|done]. by apply omap_same.
Qed.

Lemma shape_placed (db db' : DB) : same_shape db db' -> forall i, placed db' i = placed db i.
Proof.
  intros Hs i. unfold placed. pose proof (s_interfaces _ _ Hs i) as E. destruct (interfaces db' !! i), (interfaces db !! i); try done.
  simpl in *. unfold interface_head in E. congruence.
Qed.

(** A step that a client of the view and of the registrations cannot see. *)
Record unseen (db db' : DB) : Prop := {
  u_view : same_view db db';
  u_key : gHandleDatabaseKey db' = gHandleDatabaseKey db;
  u_signalled : signalled db' = signalled db;
  u_registered : forall N, registered_for db' N = registered_for db N;
  u_pending : forall N, pending db' N = pending db N;
  u_events : forall g, registered db' g = registered db g;
}.

Lemma unseen_refl db : unseen db db.
Proof. by constructor. Qed.

Lemma unseen_trans (a b c : DB) : unseen a b -> unseen b c -> unseen a c.
Proof.
  intros [V1 K1 S1 R1 P1 G1] [V2 K2 S2 R2 P2 G2].
  constructor; intros; [by etrans|congruence|congruence|by rewrite R2|by rewrite P2|by rewrite G2].
Qed.

Lemma only_opens_unseen (db db' : DB) : only_opens db db' -> unseen db db'.
Proof.
  intros [Hs Eh El Ee Ek Er Es].
  pose proof (same_registrations db db' Ee (shape_placed _ _ Hs)) as Hr.
  constructor; [by apply same_shape_view|done|done|intros N; apply Hr|intros N; apply Hr|].
  intros g. unfold registered, find_guid. by rewrite Ee.
Qed.

Lemma heap_unseen (db : DB) h : unseen db (with_heap h db).
Proof. apply only_opens_unseen, only_opens_heap. Qed.

(* ------------------------------------------------------------------ *)
(** ** The entry of a protocol *)

Lemma notify_of_app (db db' : DB) e g N : entries db' = entries db ++ [mkProtocol e g [] []] -> notify_of N db' = notify_of N db.
Proof. intros E. unfold notify_of. rewrite E. by rewrite find_app_new. Qed.

Lemma find_entry_ok bare X (db : DB) g : owns X db -> linked bare db ->
  exists r db', CoreFindProtocolEntry g true db = (r, db') /\ owns X db' /\ linked bare db' /\ unseen db db' /\
    handles db' = handles db /\ interfaces db' = interfaces db /\ gOrderedHandleList db' = gOrderedHandleList db /\
    match r with
    | Some e => (exists E, find_guid g db' = Some E /\ EntryAddress E = e) /\ forall n, plenty (S n) (pool_heap db) -> plenty n (pool_heap db')
    | None => ~ plenty 1 (pool_heap db)
    end.
Proof.
  intros Ho HL. unfold CoreFindProtocolEntry. pose proof (find_guid_spec g db) as Hf.
  change (List.find (fun E => bool_decide (ProtocolID E = g)) (entries db)) with (find_guid g db).
  destruct (find_guid g db) as [E|] eqn:Eg.
  - exists (Some (EntryAddress E)), db. do 3 (split; [done|]). split; [apply unseen_refl|]. do 3 (split; [done|]). split; [by exists E|].
    assert (forall n h, plenty (S n) h -> plenty n h) as Hm.
    { induction n as [|n IH]; [done|]. intros h Hp size Hs. destruct (Hp size Hs) as (p & h' & Ea & Hp'). exists p, h'. split; [done|]. by apply IH. }
    intros n. apply Hm.
  - destruct (db_alloc 72 db) as [[e|] db1] eqn:Ea.
    + destruct (owns_alloc X db db1 72 e Ho ltac:(lia) Ea) as (E1 & Ho1 & Hfr).
      destruct (add_entry bare db e g HL) as (HL' & Hv & Hfind); [|done|].
      { intros (E & EE & HE)%list_elem_of_fmap_1. apply Hfr. unfold addresses. rewrite !elem_of_app. right. right. left.
        apply list_elem_of_bind. exists E. split; [rewrite EE; by left|done]. }
      set (db2 := with_protocols (entries db1 ++ [mkProtocol e g [] []]) db1).
      assert (db2 = with_heap (pool_heap db1) (with_protocols (entries db ++ [mkProtocol e g [] []]) db)) as E2.
      { unfold db2. rewrite E1. done. }
      exists (Some e), db2. split; [done|]. split; [|split; [|split]].
      * apply (owns_move (e :: X) X db1); [|done|done]. unfold db2, addresses. rewrite E1. simpl. rewrite bind_app. simpl.
        solve_Permutation.
      * rewrite E2. by apply linked_heap.
      * rewrite E2. apply (unseen_trans _ (with_protocols (entries db ++ [mkProtocol e g [] []]) db)); [|apply heap_unseen].
        constructor; [done|done|done| | |].
        -- intros N. unfold registered_for. by rewrite (notify_of_app db _ e g N).
        -- intros N. unfold pending. by rewrite (notify_of_app db _ e g N).
        -- intros g'. unfold registered. destruct (decide (g' = g)) as [->|Hne]; [by rewrite Hfind, Eg|].
           unfold find_guid. simpl. rewrite find_app_new; [done|]. by apply bool_decide_eq_false_2.
      * rewrite E2. do 3 (split; [done|]). split; [by exists (mkProtocol e g [] [])|].
        intros n Hp. destruct (Hp 72 ltac:(lia)) as (p & h' & Eh & Hp'). unfold db_alloc in Ea. rewrite Eh in Ea. by simplify_eq/=.
    + destruct (owns_alloc_none X db db1 72 Ho ltac:(lia) Ea) as (E1 & Ho1). exists None, db1. split; [done|]. split; [done|].
      rewrite E1. split; [by apply linked_heap|]. split; [apply heap_unseen|]. do 3 (split; [done|]).
      intros Hp. destruct (Hp 72 ltac:(lia)) as (p & h' & Eh & _). unfold db_alloc in Ea. rewrite Eh in Ea. by simplify_eq.
Qed.

(* ------------------------------------------------------------------ *)
(** ** The handle *)

Lemma plenty_alloc n (db db' : DB) size o : plenty (S n) (pool_heap db) -> 0 <= size <= 88 -> db_alloc size db = (o, db') ->
  plenty n (pool_heap db') /\ is_Some o.
Proof.
  intros Hp Hs. destruct (Hp size Hs) as (p & h' & Eh & Hp'). unfold db_alloc. rewrite Eh. intros E. simplify_eq. by eauto.
Qed.

Lemma not_plenty_alloc n (db db' : DB) size : 0 <= size <= 88 -> db_alloc size db = (None, db') -> ~ plenty (S n) (pool_heap db).
Proof. intros Hs Ea Hp. by destruct (plenty_alloc n db db' size None Hp Hs Ea) as [_ [? ?]]. Qed.

(** A handle to install on: the caller's, or a new one. *)
Lemma install_handle_ok X (db : DB) h0 : owns X db -> linked None db ->
  exists Status h db', install_handle h0 db = (Status, h, db') /\
    ((Status = EFI_SUCCESS /\ h0 <> 0 /\ h = h0 /\ h ∈ gHandleList db /\ db' = db) \/
     (Status = EFI_SUCCESS /\ h0 = 0 /\ h <> 0 /\ (h ∉ gHandleList db) /\ handles db' !! h = Some (mkHandle [] 0 0) /\
      owns X db' /\ linked (Some h) db' /\ gHandleList db' = gHandleList db ++ [h] /\ entries db' = entries db /\ interfaces db' = interfaces db /\
      (forall h', protocols db' h' = protocols db h') /\ (forall g, order db' g = order db g) /\
      gHandleDatabaseKey db' = gHandleDatabaseKey db /\ signalled db' = signalled db) \/
     (EFI_ERROR Status = true /\ owns X db' /\ linked None db' /\ unseen db db' /\
      ((h0 <> 0 /\ (h0 ∉ gHandleList db) /\ Status = EFI_INVALID_PARAMETER) \/ h0 = 0 /\ ~ plenty 2 (pool_heap db)))).
Proof.
  intros Ho HL. unfold install_handle. destruct (decide (h0 <> 0)) as [Hne|E0].
  - unfold CoreValidateHandle. rewrite decide_False by done. pose proof (l_ordered _ _ HL h0) as Hor. pose proof (l_dom _ _ HL h0) as Hd.
    destruct (gOrderedHandleList db !! h0) eqn:Eo; eexists _, _, _; (split; [done|]).
    + left. do 3 (split; [done|]). split; [|done]. apply Hd, Hor. by eexists.
    + right. right. split; [done|]. split; [done|]. split; [done|]. split; [apply unseen_refl|]. left. split; [done|].
      split; [|done]. intros Hi. by apply Hd, Hor in Hi as [].
  - assert (h0 = 0) as -> by (by destruct (decide (h0 = 0))). clear E0.
    destruct (db_alloc 56 db) as [[h|] db1] eqn:Ea.
    2:{ destruct (owns_alloc_none X db db1 56 Ho ltac:(lia) Ea) as (E1 & Ho1). eexists _, _, _. split; [done|]. right. right.
        split; [done|]. split; [done|]. rewrite E1. split; [by apply linked_heap|]. split; [apply heap_unseen|]. right. split; [done|].
        by apply (not_plenty_alloc 1 _ db1 56); [lia|]. }
    destruct (owns_alloc X db db1 56 h Ho ltac:(lia) Ea) as (E1 & Ho1 & Hfr).
    assert (h ∉ gHandleList db) as Hh by (intros Hi; apply Hfr; unfold addresses; apply elem_of_app; by left).
    assert (handles db !! h = None) as Hhn by (apply eq_None_not_Some; intros Hs; by apply Hh, (l_dom _ _ HL)).
    assert (gOrderedHandleList db !! h = None) as Hon by (apply eq_None_not_Some; intros Hs; by apply Hh, (l_dom _ _ HL), (l_ordered _ _ HL)).
    replace (gOrderedHandleList db1) with (gOrderedHandleList db) by (by rewrite E1). rewrite Hon.
    assert (linked None db1) as HL1 by (rewrite E1; by apply linked_heap).
    destruct (db_alloc 40 db1) as [[node|] db2] eqn:Ea2.
    + destruct (owns_alloc (h :: X) db1 db2 40 node Ho1 ltac:(lia) Ea2) as (E2 & Ho2 & _).
      pose proof (owns_range _ _ h Ho1 ltac:(by left)) as Hr. rewrite E2, E1 in *. cbn in Ho2 |- *.
      destruct (add_handle (with_heap (pool_heap db2) db) h node (linked_heap None db _ HL) Hhn ltac:(lia)) as (HL3 & Hp3 & Ho3).
      eexists _, _, _. split; [done|]. right. left. do 2 (split; [done|]). split; [lia|]. split; [done|].
      split; [apply lookup_insert_eq|]. split; [|split; [exact HL3|do 3 (split; [done|])]].
      * apply (owns_move (node :: h :: X) X (with_heap (pool_heap db2) db)); [|done|done].
        unfold addresses. simpl. rewrite map_to_list_insert by done. simpl. solve_Permutation.
      * split; [exact Hp3|]. split; [exact Ho3|done].
    + destruct (owns_alloc_none (h :: X) db1 db2 40 Ho1 ltac:(lia) Ea2) as (E2 & Ho2). eexists _, _, _. split; [done|]. right. right.
      split; [done|]. split; [by apply owns_free|]. rewrite E2, E1. split; [by repeat apply linked_heap|].
      split; [exact (heap_unseen db _)|]. right. split; [done|].
      intros Hp. destruct (plenty_alloc 1 db db1 56 (Some h) Hp ltac:(lia) Ea) as [Hp1 _].
      by apply (not_plenty_alloc 0 db1 db2 40) in Ea2; [|lia].
Qed.

(* ------------------------------------------------------------------ *)
(** ** The link *)

Lemma link_interface_link bare (db : DB) h I E p x : linked bare db -> handles db !! h = Some I -> E ∈ entries db ->
  link_interface p h (EntryAddress E) x db = Done (link h (EntryAddress E) p x db).
Proof.
  intros HL Hh HE. unfold link_interface. rewrite Hh. cbn [deref]. mred. rewrite (proj2 (entry_of_iff bare db (EntryAddress E) E HL)) by done.
  cbn [deref]. mred. f_equal. unfold link, update_entry, update_handle, with_protocols, with_handles. simpl. f_equal.
  - apply map_eq. intros j. destruct (decide (h = j)) as [<-|]; [by rewrite !lookup_alter_eq, Hh|by rewrite !lookup_alter_ne].
  - apply list_fmap_ext. intros i E' Hi. simpl. destruct (Z.eqb_spec (EntryAddress E') (EntryAddress E)) as [EE|]; [|done].
    apply list_elem_of_lookup_2 in Hi. by rewrite (nodup_fmap_inj EntryAddress (entries db) E' E); [|apply HL|..].
Qed.

Lemma update_entry_addresses (db : DB) e f : (forall E, entry_addresses (f E) = entry_addresses E) ->
  entries (update_entry e f db) ≫= entry_addresses = entries db ≫= entry_addresses.
Proof.
  intros Hf. simpl. induction (entries db) as [|E l IH]; [done|]. rewrite fmap_cons, !bind_cons, IH. f_equal.
  destruct (_ =? _); [apply Hf|done].
Qed.

Lemma owns_link X (db : DB) h e p x : owns (p :: X) db -> interfaces db !! p = None -> owns X (link h e p x db).
Proof.
  intros Ho Hp. apply (owns_move (p :: X) X db); [|done|done]. unfold addresses, link. rewrite update_entry_addresses by done.
  simpl. rewrite interfaces_insert by done. unfold interface_addresses at 2. simpl. solve_Permutation.
Qed.

Lemma after_app p (l l' : list Z) : p ∈ l -> after p (l ++ l') = (fun r => r ++ l') <$> after p l.
Proof.
  induction l as [|i l IH]; [by intros Hi%elem_of_nil|]. intros Hi. simpl. destruct (decide (i = p)) as [|Hne]; [done|].
  apply IH. by apply elem_of_cons in Hi as [->|].
Qed.

Lemma after_elem p (l : list Z) : p ∈ l -> exists r, after p l = Some r /\ r `suffix_of` l.
Proof.
  induction l as [|i l IH]; [by intros Hi%elem_of_nil|]. intros Hi. simpl. destruct (decide (i = p)) as [|Hne].
  - exists l. split; [done|]. by apply suffix_cons_r.
  - destruct IH as (r & -> & Hr); [by apply elem_of_cons in Hi as [->|]|]. exists r. split; [done|]. by apply suffix_cons_r.
Qed.

Lemma rest_list_app n (l l' : list Z) : (forall p, Position n = Some p -> p ∈ l) -> rest_list n (l ++ l') = rest_list n l ++ l'.
Proof.
  intros Hp. unfold rest_list. destruct (Position n) as [p|]; [|done]. rewrite after_app by auto.
  by destruct (after_elem p l (Hp p eq_refl)) as (r & -> & _).
Qed.

Lemma rest_list_elem n (l : list Z) i : (forall p, Position n = Some p -> p ∈ l) -> i ∈ rest_list n l -> i ∈ l.
Proof.
  intros Hp. unfold rest_list. destruct (Position n) as [p|]; [|done]. destruct (after_elem p l (Hp p eq_refl)) as (r & -> & k & ->).
  simpl. intros Hi. apply elem_of_app. by right.
Qed.

Lemma notify_of_spec (db : DB) N E n : notify_of N db = Some (E, n) -> E ∈ entries db /\ n ∈ Notify E /\ NotifyAddress n = N.
Proof.
  unfold notify_of. destruct (List.find _ (entries db)) as [E'|] eqn:Ef; [|done]. simpl.
  destruct (List.find _ (Notify E')) as [n'|] eqn:En; [|done]. simpl. intros. simplify_eq.
  apply List.find_some in Ef as [HE _], En as [Hn EN]. rewrite !list_elem_of_In. apply Z.eqb_eq in EN. done.
Qed.

(** What a link does to the registrations. *)
Lemma link_registrations bare (db : DB) h I E p x : linked bare db -> handles db !! h = Some I -> E ∈ entries db -> interfaces db !! p = None ->
  let db' := link h (EntryAddress E) p x db in
  (forall N, registered_for db' N = registered_for db N) /\
  (forall N, pending db' N = if decide (registered_for db N = Some (ProtocolID E)) then pending db N ++ [(h, x)] else pending db N) /\
  (forall g, registered db' g = registered db g).
Proof.
  intros HL Hh HE Hp db'.
  assert (forall N, notify_of N db' = (fun En => (if EntryAddress En.1 =? EntryAddress E then set_by_protocol (ByProtocolList En.1 ++ [p]) En.1
    else En.1, En.2)) <$> notify_of N db) as Hn.
  { intros N. unfold notify_of. pose proof (find_update_entry Notify (fun ns => existsb (fun n => NotifyAddress n =? N) ns)
      (update_handle h (fun I => set_protocols (p :: Protocols I) I) (with_interfaces (<[p := mkInterface h (EntryAddress E) x [] 0]> (interfaces db)) db))
      (EntryAddress E) (fun E => set_by_protocol (ByProtocolList E ++ [p]) E) ltac:(done)) as Ef.
    unfold db', link. simpl in Ef |- *. rewrite Ef. destruct (List.find _ (entries db)) as [X|]; [|done]. simpl.
    replace (Notify (if EntryAddress X =? EntryAddress E then set_by_protocol (ByProtocolList X ++ [p]) X else X)) with (Notify X)
      by (by destruct (_ =? _)). by destruct (List.find _ (Notify X)). }
  assert (forall i, i <> p -> placed db' i = placed db i) as Hpl by (intros i Hi; unfold placed; simpl; by rewrite lookup_insert_ne).
  split; [|split].
  - intros N. unfold registered_for. rewrite Hn. destruct (notify_of N db) as [[X n]|]; [|done]. simpl. by destruct (_ =? _).
  - intros N. unfold pending, registered_for. rewrite Hn. destruct (notify_of N db) as [[X n]|] eqn:En; [|by rewrite decide_False].
    destruct (notify_of_spec _ _ _ _ En) as (HX & Hx & _). simpl.
    assert (forall q, Position n = Some q -> q ∈ ByProtocolList X) as Hpos by (intros q; by apply (l_position _ _ HL X n q)).
    assert (omap (placed db') (rest_list n (ByProtocolList X)) = omap (placed db) (rest_list n (ByProtocolList X))) as Hom.
    { apply omap_same. intros i Hi. apply Hpl. intros ->. apply (rest_list_elem _ _ _ Hpos), (l_entry _ _ HL X p HX) in Hi as (P & HP & _). congruence. }
    destruct (Z.eqb_spec (EntryAddress X) (EntryAddress E)) as [EE|HEE].
    + assert (X = E) as -> by (by apply (nodup_fmap_inj EntryAddress (entries db)); [apply HL|..]). rewrite decide_True by done.
      simpl. rewrite rest_list_app by done. rewrite omap_app, Hom. f_equal. simpl. unfold placed. simpl. by rewrite lookup_insert_eq.
    + rewrite decide_False; [done|]. intros EI. apply HEE. f_equal.
      apply (nodup_fmap_inj ProtocolID (entries db)); [apply HL|done|done|congruence].
  - intros g. unfold registered, find_guid, guid_is.
    pose proof (find_update_entry ProtocolID (fun a => bool_decide (a = g)) (update_handle h (fun I => set_protocols (p :: Protocols I) I)
      (with_interfaces (<[p := mkInterface h (EntryAddress E) x [] 0]> (interfaces db)) db)) (EntryAddress E)
      (fun E => set_by_protocol (ByProtocolList E ++ [p]) E) ltac:(done)) as Ef.
    unfold db', link. simpl in Ef |- *. rewrite Ef. destruct (List.find _ (entries db)); [|done]. simpl. by destruct (_ =? _).
Qed.

(* ------------------------------------------------------------------ *)
(** ** The install *)

Lemma plenty_less n h : plenty (S n) h -> plenty n h.
Proof.
  revert h. induction n as [|n IH]; [done|]. intros h Hp size Hs. destruct (Hp size Hs) as (p & h' & Ea & Hp').
  exists p, h'. split; [done|]. by apply IH.
Qed.

Lemma plenty_le m n h : (m <= n)%nat -> plenty n h -> plenty m h.
Proof. induction 1 as [|n Hn IH]; [done|]. intros Hp. by apply IH, plenty_less. Qed.

Lemma next_key_ok bare X (db : DB) h I : owns X db -> linked bare db -> handles db !! h = Some I ->
  let k := u64 (gHandleDatabaseKey db + 1) in
  let db' := update_handle h (set_handle_key k) (with_key k db) in
  next_key h db = Done db' /\ owns X db' /\ linked bare db' /\ same_shape db db' /\ handles db' !! h = Some (set_handle_key k I).
Proof.
  intros Ho HL Hh k db'. unfold next_key. rewrite Hh. cbn [deref]. mred. split; [done|]. split; [by apply (owns_move X X db)|].
  assert (same_shape db db') as Hs.
  { constructor; try done. intros j. simpl. destruct (decide (h = j)) as [<-|]; [|by rewrite lookup_alter_ne]. by rewrite lookup_alter_eq, Hh. }
  split; [|split; [done|simpl; by rewrite lookup_alter_eq, Hh]].
  apply (linked_shape bare db); [done|done|apply HL|apply HL| |apply HL]. intros j J. simpl. rewrite lookup_alter_Some.
  intros [(<- & J0 & HJ & ->)|[_ HJ]]; [exact (l_request _ _ HL h J0 HJ)|exact (l_request _ _ HL j J HJ)].
Qed.

(** The last steps: the key, the link and the events. *)
Lemma finish_install bare (db : DB) h I E p x : owns [p] db -> linked bare db -> (bare = None \/ bare = Some h) -> handles db !! h = Some I ->
  E ∈ entries db -> interfaces db !! p = None ->
  exists db' E', (db1 ← next_key h db; link_interface p h (EntryAddress E) x db1) = Done db' /\ owns [] db' /\ linked None db' /\
    gHandleList db' = gHandleList db /\ signalled db' = signalled db /\
    (forall h', protocols db' h' = if decide (h' = h) then (ProtocolID E, x) :: protocols db h else protocols db h') /\
    (forall g, order db' g = if decide (g = ProtocolID E) then order db g ++ [(h, x)] else order db g) /\
    gHandleDatabaseKey db' = u64 (gHandleDatabaseKey db + 1) /\
    (exists I', handles db' !! h = Some I' /\ HandleKey I' = gHandleDatabaseKey db') /\
    (forall N, registered_for db' N = registered_for db N) /\
    (forall N, pending db' N = if decide (registered_for db N = Some (ProtocolID E)) then pending db N ++ [(h, x)] else pending db N) /\
    entry_of (EntryAddress E) db' = Some E' /\ Notify E' = Notify E.
Proof.
  intros Ho HL Hb Hh HE Hp. destruct (next_key_ok bare [p] db h I Ho HL Hh) as (E1 & Ho1 & HL1 & Hs1 & Hh1).
  set (k := u64 (gHandleDatabaseKey db + 1)) in *. set (db1 := update_handle h (set_handle_key k) (with_key k db)) in *.
  pose proof (same_shape_view _ _ Hs1) as [_ Hv1 Hv2].
  pose proof (same_registrations db db1 eq_refl (shape_placed _ _ Hs1)) as Hr.
  destruct (link_view bare db1 h _ E p x HL1 Hh1 HE Hp) as [Hp2 Ho2].
  destruct (link_registrations bare db1 h _ E p x HL1 Hh1 HE Hp) as (Hr2 & Hpe2 & _).
  set (db2 := link h (EntryAddress E) p x db1) in *.
  assert (linked None db2) as HL2 by (by eapply (linked_link bare)).
  exists db2, (set_by_protocol (ByProtocolList E ++ [p]) E).
  rewrite E1. mred. rewrite (link_interface_link bare db1 h _ E p x HL1 Hh1 HE). split; [done|].
  split; [by apply owns_link|]. split; [done|]. do 2 (split; [done|]).
  split; [intros h'; rewrite Hp2; by rewrite !Hv1|]. split; [intros g; rewrite Ho2; by rewrite !Hv2|]. split; [done|].
  split; [eexists; split; [unfold db2; simpl; rewrite !lookup_alter_eq, Hh; simpl; reflexivity|done]|].
  split; [intros N; rewrite Hr2; apply Hr|].
  split; [intros N; rewrite Hpe2; destruct (Hr N) as [-> ->]; done|]. split; [|done].
  apply (entry_of_iff None); [done|]. split; [|done]. unfold db2, link. apply elem_of_update_entry. exists E.
  split; [exact HE|]. by rewrite Z.eqb_refl.
Qed.

Definition rejected (h0 : Z) (g : EFI_GUID) (db : DB) : Prop :=
  h0 <> 0 /\ (h0 ∉ gHandleList db \/ lookup_protocol g (protocols db h0) <> None).

(** What an install may do: install, or change nothing. *)
Definition install_result (h0 : Z) (g : EFI_GUID) (x : Z) (NotifyAll : bool) (db : DB) (Status h : Z) (db' : DB) : Prop :=
  Status = EFI_SUCCESS /\ installed h g x db db' /\
    signalled db' = (if NotifyAll then reverse (NotifyEvent <$> registered db g) else []) ++ signalled db /\
    (h0 <> 0 -> h = h0 /\ h ∈ gHandleList db) /\ (h0 = 0 -> h <> 0 /\ (h ∉ gHandleList db)).

(** The interface at [p] is linked and the events are signalled. *)
Definition install_end (h e p x : Z) (NotifyAll : bool) (db : DB) : outcome (Z * option Z * DB) :=
  db ← next_key h db;
  db ← link_interface p h e x db;
  X ← deref (entry_of e db);
  mret (EFI_SUCCESS, Some h, if NotifyAll then CoreNotifyProtocolEntry X db else db).

(** Everything after the search for the protocol on the handle. *)
Definition install_tail (h0 : Z) (g : EFI_GUID) (Status x : Z) (NotifyAll : bool) (db : DB) : outcome (Z * option Z * DB) :=
  match CoreFindProtocolEntry g true db with
  | (None, db) => mret (Status, Some h0, db)
  | (Some E, db) =>
      match db_alloc 88 db with
      | (None, db) => mret (EFI_OUT_OF_RESOURCES, Some h0, db)
      | (Some Prot, db) =>
          let '(Status, h, db) := install_handle h0 db in
          if EFI_ERROR Status then mret (Status, Some h0, db_free Prot db) else
          install_end h E Prot x NotifyAll db
      end
  end.

(** The handle is there: the interface is installed. *)
Lemma install_linked bare (db db3 : DB) h E p x NotifyAll : owns [p] db3 -> linked bare db3 -> (bare = None \/ bare = Some h) ->
  is_Some (handles db3 !! h) -> E ∈ entries db3 -> interfaces db3 !! p = None ->
  gHandleList db3 = gHandleList db ++ (if decide (h ∈ gHandleList db) then [] else [h]) ->
  (forall h', protocols db3 h' = protocols db h') -> (forall g, order db3 g = order db g) ->
  gHandleDatabaseKey db3 = gHandleDatabaseKey db -> signalled db3 = signalled db ->
  (forall N, registered_for db3 N = registered_for db N) -> (forall N, pending db3 N = pending db N) ->
  Notify E = registered db (ProtocolID E) ->
  exists db', install_end h (EntryAddress E) p x NotifyAll db3 = Done (EFI_SUCCESS, Some h, db') /\
    db_ok db' /\ installed h (ProtocolID E) x db db' /\
    signalled db' = (if NotifyAll then reverse (NotifyEvent <$> registered db (ProtocolID E)) else []) ++ signalled db.
Proof.
  intros Ho HL Hb [I Hh] HE Hp El Epr Eor Ek Es Er Epe EN.
  destruct (finish_install bare db3 h I E p x Ho HL Hb Hh HE Hp)
    as (db5 & E' & Eq & Ho5 & HL5 & El5 & Es5 & Epr5 & Eor5 & Ek5 & (I' & EI & EK) & Er5 & Epe5 & Ee5 & EN5).
  unfold install_end. rewrite bind_done in Eq. destruct Eq as (db4 & -> & Eq). mred. rewrite Eq. mred. rewrite Ee5. cbn [deref]. mred.
  set (db6 := if NotifyAll then CoreNotifyProtocolEntry E' db5 else db5).
  exists db6. split; [done|].
  assert (exists sg, db6 = with_signalled sg db5) as [sg E6].
  { unfold db6. destruct NotifyAll; [by eexists|]. exists (signalled db5). by destruct db5. }
  destruct (linked_frame None db5 db6) as [HL6 Hs6]; [by rewrite E6..|done|].
  pose proof (same_registrations db5 db6 ltac:(by rewrite E6) (shape_placed _ _ Hs6)) as Hr6.
  destruct (same_shape_view _ _ Hs6) as [Hl6 Hp6 Ho6].
  split; [split; [rewrite E6; by apply (owns_move [] [] db5)|done]|]. split; [constructor|].
  - by rewrite Hl6, El5.
  - intros h'. rewrite Hp6, Epr5, !Epr. done.
  - intros g'. rewrite Ho6, Eor5, Eor. by destruct (decide (g' = ProtocolID E)) as [->|].
  - split; [rewrite E6; simpl; by rewrite Ek5, Ek|]. exists I'. rewrite E6. done.
  - intros N. destruct (Hr6 N) as [-> _]. by rewrite Er5.
  - intros N. destruct (Hr6 N) as [_ ->]. by rewrite Epe5, Er, Epe.
  - unfold db6. destruct NotifyAll; simpl; [by rewrite EN5, EN, Es5, Es|by rewrite Es5].
Qed.

Lemma addresses_interface (db : DB) p : p ∉ addresses db -> interfaces db !! p = None.
Proof.
  intros Hp. apply eq_None_not_Some. intros [P HP]. apply Hp. unfold addresses. rewrite !elem_of_app. right. right. right.
  apply list_elem_of_bind. exists (p, P). split; [by left|by apply elem_of_map_to_list].
Qed.

Lemma install_tail_ok (db : DB) h0 g Status0 x NotifyAll : db_ok db -> EFI_ERROR Status0 = true ->
  exists Status h db', install_tail h0 g Status0 x NotifyAll db = Done (Status, Some h, db') /\ db_ok db' /\
    (install_result h0 g x NotifyAll db Status h db' \/
     EFI_ERROR Status = true /\ h = h0 /\ unseen db db' /\
       (Status = Status0 /\ ~ plenty 1 (pool_heap db) \/
        (h0 <> 0 /\ (h0 ∉ gHandleList db) /\ Status = EFI_INVALID_PARAMETER) \/ ~ plenty 4 (pool_heap db))).
Proof.
  intros [Ho HL] HS. unfold install_tail.
  destruct (find_entry_ok None [] db g Ho HL) as (r & db1 & -> & Ho1 & HL1 & Hu1 & Eh1 & Ei1 & _ & Hr).
  destruct r as [e|]; [|exists Status0, h0, db1; split; [done|]; split; [done|]; right; by auto 6].
  destruct Hr as ((E & Eg & Ee) & Hpl). destruct (db_alloc 88 db1) as [[p|] db2] eqn:Ea.
  2:{ destruct (owns_alloc_none [] db1 db2 88 Ho1 ltac:(lia) Ea) as (E2 & Ho2). eexists _, _, db2. split; [done|].
      split; [split; [done|rewrite E2; by apply linked_heap]|]. right. split; [done|]. split; [done|].
      split; [apply (unseen_trans _ db1); [done|rewrite E2; apply heap_unseen]|]. right. right. intros Hp.
      by apply (not_plenty_alloc 2 db1 db2 88) in Ea; [apply Ea, Hpl|lia]. }
  destruct (owns_alloc [] db1 db2 88 p Ho1 ltac:(lia) Ea) as (E2 & Ho2 & Hfr). apply addresses_interface in Hfr.
  assert (linked None db2) as HL2 by (rewrite E2; by apply linked_heap).
  assert (unseen db db2) as Hu2 by (apply (unseen_trans _ db1); [done|rewrite E2; apply heap_unseen]).
  pose proof (find_guid_spec g db1) as Hf. rewrite Eg in Hf. destruct Hf as [HE EG].
  assert (Notify E = registered db (ProtocolID E)) as EN.
  { rewrite <- (u_events _ _ Hu1), EG. unfold registered. by rewrite Eg. }
  assert (E ∈ entries db2 /\ interfaces db2 !! p = None) as [HE2 Hp2] by (by rewrite E2). subst e.
  destruct Hu2 as [[Vl Vp Vo] Vk Vs Vr Vpe Vg].
  destruct (install_handle_ok [p] db2 h0 Ho2 HL2) as (S & h & db3 & -> & Hcase).
  destruct Hcase as [(-> & Hne & -> & Hin & ->)|[(-> & -> & Hne & Hnin & Hh & Ho3 & HL3 & Hl3 & He3 & Hi3 & Hp3 & Ho3' & Hk3 & Hs3)|(HSe & Ho3 & HL3 & Hu3 & Hwhy)]].
  - change (EFI_ERROR EFI_SUCCESS) with false. cbn iota.
    destruct (install_linked None db db2 h0 E p x NotifyAll) as (db' & Eq & Hok' & Hi & Hsig); try done; [by left|by apply (l_dom _ _ HL2)| |].
    { rewrite decide_True by (by rewrite <- Vl). by rewrite app_nil_r, Vl. }
    exists EFI_SUCCESS, h0, db'. split; [exact Eq|]. split; [done|]. left. rewrite EG in *. split; [done|]. split; [done|]. split; [done|].
    split; [rewrite <- Vl; done|done].
  - change (EFI_ERROR EFI_SUCCESS) with false. cbn iota. rewrite Vl in Hnin.
    assert (forall N, registered_for db3 N = registered_for db N /\ pending db3 N = pending db N) as Hreg.
    { intros N. destruct (same_registrations db2 db3 He3 ltac:(intros i; unfold placed; by rewrite Hi3) N) as [-> ->]. by rewrite Vr, Vpe. }
    destruct (install_linked (Some h) db db3 h E p x NotifyAll) as (db' & Eq & Hok' & Hi & Hsig); try done.
    + by right.
    + by rewrite He3.
    + by rewrite Hi3.
    + rewrite decide_False by done. by rewrite Hl3, Vl.
    + intros h'. by rewrite Hp3.
    + intros g'. by rewrite Ho3'.
    + by rewrite Hk3.
    + by rewrite Hs3.
    + intros N. apply Hreg.
    + intros N. apply Hreg.
    + exists EFI_SUCCESS, h, db'. split; [exact Eq|]. split; [done|]. left. rewrite EG in *. split; [done|]. split; [done|]. split; [done|]. by split.
  - rewrite HSe. exists S, h0, (db_free p db3). split; [done|]. split; [split; [by apply owns_free|by apply linked_heap]|]. right.
    split; [done|]. split; [done|]. split.
    + apply (unseen_trans _ db2); [by constructor|]. apply (unseen_trans _ db3); [done|apply heap_unseen].
    + right. destruct Hwhy as [(? & Hn & ->)|[-> Hn]]; [left; by rewrite <- Vl|right]. intros Hp. apply Hn.
      apply (plenty_alloc 2 db1 db2 88 (Some p)); [by apply Hpl|lia|done].
Qed.
End installing.

Section services.
Context {H : Type} `{HeapWf H}.
#[local] Abbreviation DB := (DATABASE H).
#[local] Abbreviation entries db := (mProtocolDatabase db).
Context (disconnect : Z -> Z -> DB -> Z * DB) (Hdisconnect : disconnect_ok disconnect) (dxe : Z) (fuel : nat).

(** The drivers that have an interface open are fewer than the rounds. *)
Definition rounds_ok (db : DB) : Prop := forall p P, interfaces db !! p = Some P -> (drivers (OpenList P) < fuel)%nat.

(** An open by handle protocol succeeds if there is memory for the record. *)
Lemma open_by_handle X h p P a c (db : DB) : db_with X db -> interfaces db !! p = Some P ->
  exists Status db' P', open_interface disconnect fuel h p a c EFI_OPEN_PROTOCOL_BY_HANDLE_PROTOCOL db = Done (Status, db') /\
    db_with X db' /\ only_opens db db' /\ interfaces db' !! p = Some P' /\ interface_head P' = interface_head P /\
    (Status = EFI_SUCCESS /\ (forall n, plenty (S n) (pool_heap db) -> plenty n (pool_heap db')) \/
     Status = EFI_OUT_OF_RESOURCES /\ ~ plenty 1 (pool_heap db)).
Proof.
  intros Hok HP. unfold open_interface. rewrite HP. cbn [deref]. mred. set (t := EFI_OPEN_PROTOCOL_BY_HANDLE_PROTOCOL).
  pose proof (open_scan_spec a c t (OpenList P) [] false false) as Hscan. destruct (open_scan _ _ _ _ _ _ _) as [[S l']|[d x]] eqn:Escan.
  - destruct (open_found disconnect X db p P a c t S l' Hok HP Escan) as (Hok' & HP' & Hs & _).
    destruct Hscan as (D & l1 & l2 & _ & (_ & HA & _) & [(HD & _)|(_ & _ & -> & _)]); [unfold opened_by_driver in HD; by rewrite HA in HD|].
    eexists EFI_SUCCESS, _, _. split; [reflexivity|]. split; [exact Hok'|]. split; [exact Hs|]. split; [exact HP'|]. split; [done|].
    left. split; [done|]. intros n. apply plenty_less.
  - destruct Hscan as (_ & _ & Hex). change (t =? _) with false. cbn [andb orb]. mred. rewrite (decide_False (P := EFI_ERROR _ = true)) by done.
    destruct (decide (a = 0)) as [|Ha].
    { exists EFI_SUCCESS, db, P. split; [done|]. split; [done|]. split; [apply only_opens_refl|]. do 2 (split; [done|]). left. split; [done|]. intros n. apply plenty_less. }
    destruct (record_open X db p P a c t Hok HP) as (S2 & db2 & P2 & E2 & Hok2 & Hs2 & HP2 & Hhd2 & _).
    exists S2, db2, P2. split; [exact E2|]. do 4 (split; [done|]). revert E2. destruct (db_alloc 48 db) as [[o|] db1] eqn:Ea.
    + rewrite bind_done. intros (P1 & _ & E). apply Done_pair_inj in E as [<- <-]. left. split; [done|]. intros n Hp.
      by destruct (plenty_alloc n db db1 48 (Some o) Hp ltac:(lia) Ea).
    + intros E. apply Done_pair_inj in E as [<- <-]. right. split; [done|]. by apply (not_plenty_alloc 0 db db1 48); [lia|].
Qed.

(** The interface of a protocol a handle has. *)
Lemma CoreHandleProtocol_found X (db : DB) h g v : db_with X db -> h ∈ gHandleList db -> lookup_protocol g (protocols db h) = Some v ->
  exists Status x db', CoreHandleProtocol disconnect dxe fuel h (Some g) true db = Done (Status, x, db') /\ db_with X db' /\ only_opens db db' /\
    (Status = EFI_SUCCESS /\ x = Some v /\ (forall n, plenty (S n) (pool_heap db) -> plenty n (pool_heap db')) \/
     Status = EFI_OUT_OF_RESOURCES /\ ~ plenty 1 (pool_heap db)).
Proof.
  intros [Ho HL] Hin Hl. pose proof (proj1 (l_dom _ _ HL h) Hin) as Hh. destruct Hh as [T Hh].
  unfold CoreHandleProtocol, CoreOpenProtocol. cbn [negb andb]. rewrite (bool_decide_eq_false_2 (_ = EFI_OPEN_PROTOCOL_TEST_PROTOCOL)) by done. cbn [negb andb].
  assert (open_check h dxe 0 EFI_OPEN_PROTOCOL_BY_HANDLE_PROTOCOL db = EFI_SUCCESS) as ->.
  { unfold open_check. assert (CoreValidateHandle h db = EFI_SUCCESS) as ->; [|done]. unfold CoreValidateHandle.
    rewrite decide_False by (intros ->; by rewrite (l_null _ _ HL) in Hh).
    destruct (proj2 (l_ordered _ _ HL h)) as [o ->]; [by exists T|done]. }
  rewrite decide_False by done. destruct (CoreGetProtocolInterface_spec None db h T g HL Hh) as (r & -> & Hr). mred.
  destruct r as [p|]; [|congruence]. destruct Hr as (P & E & HP & _ & _ & _ & _ & Hlp).
  destruct (open_by_handle X h p P dxe 0 db (conj Ho HL) HP) as (S & db' & P' & -> & Hok' & Hs & HP' & Hhd & Hc). mred.
  assert (InterfaceOf P' = v) as Ev by (unfold interface_head in Hhd; congruence).
  destruct Hc as [[-> Hpl]|[-> Hn]].
  - rewrite decide_True by (by left). rewrite HP'. cbn [deref]. mred. eexists _, _, db'. split; [reflexivity|]. split; [done|]. split; [done|].
    left. by rewrite Ev.
  - rewrite decide_False by (by intros [?|?]). eexists _, _, db'. split; [reflexivity|]. split; [done|]. split; [done|]. by right.
Qed.

Lemma CoreHandleProtocol_ok (db : DB) h g : db_ok db -> rounds_ok db ->
  exists Status x db', CoreHandleProtocol disconnect dxe fuel h (Some g) true db = Done (Status, x, db') /\ db_ok db' /\ only_opens db db' /\
    ((Status = EFI_INVALID_PARAMETER /\ (h ∉ gHandleList db) /\ db' = db) \/
     (Status = EFI_UNSUPPORTED /\ h ∈ gHandleList db /\ lookup_protocol g (protocols db h) = None /\ x = Some 0 /\ db' = db) \/
     (h ∈ gHandleList db /\ exists v, lookup_protocol g (protocols db h) = Some v /\
        (Status = EFI_SUCCESS /\ x = Some v \/ EFI_ERROR Status = true /\ ~ plenty 1 (pool_heap db)))).
Proof.
  intros Hok Hf. pose proof Hok as [_ HL]. unfold CoreHandleProtocol.
  destruct (CoreOpenProtocol_ok disconnect Hdisconnect fuel db h g true dxe 0 EFI_OPEN_PROTOCOL_BY_HANDLE_PROTOCOL Hok Hf)
    as (S & x & db' & Erun & Hok' & Hcase). exists S, x, db'. split; [done|]. split; [done|].
  destruct Hcase as [(-> & _ & -> & Hc)|(_ & [Hh _] & [(-> & Hl & -> & ->)|(p & P & db1 & P1 & P' & Hl & HP & HhP & _ & _ & HP' & _ & _ & Hs & _ & -> & Hdb)])].
  - split; [apply only_opens_refl|]. left. split; [done|]. split; [|done]. rewrite (l_dom _ _ HL). intros Hs. apply Hc.
    split; [by right|]. split; [done|]. left. by left.
  - split; [apply only_opens_refl|]. right. left. split; [done|]. split; [by apply (l_dom _ _ HL)|]. done.
  - split; [destruct Hdb as [->|[[Hx|Hx] _]]; [done|by vm_compute in Hx..]|]. right. right.
    assert (h ∈ gHandleList db) as Hin by (by apply (l_dom _ _ HL)). split; [done|]. exists (InterfaceOf P). split; [done|].
    destruct (CoreHandleProtocol_found [] db h g (InterfaceOf P) Hok Hin Hl) as (S2 & x2 & db2 & E2 & _ & _ & Hc2). unfold CoreHandleProtocol in E2.
    rewrite E2 in Erun. apply Done_inj in Erun. injection Erun as -> -> ->. destruct Hc2 as [(-> & E & _)|[-> Hn]]; [left|right; by split].
    by split.
Qed.

(** Installing an interface, on every branch. *)
Lemma CoreInstall_ok (db : DB) h0 g x NotifyAll : db_ok db -> rounds_ok db ->
  exists Status h db', CoreInstallProtocolInterfaceNotify disconnect dxe fuel (Some h0) (Some g) EFI_NATIVE_INTERFACE x NotifyAll db =
      Done (Status, Some h, db') /\ db_ok db' /\
    ((install_result h0 g x NotifyAll db Status h db' /\ (rejected h0 g db -> ~ plenty 5 (pool_heap db))) \/
     (EFI_ERROR Status = true /\ h = h0 /\ unseen db db' /\
      (rejected h0 g db /\ Status = EFI_INVALID_PARAMETER \/ ~ plenty 5 (pool_heap db)))).
Proof.
  intros Hok Hf.
  assert (forall n, (n <= 5)%nat -> ~ plenty n (pool_heap db) -> ~ plenty 5 (pool_heap db)) as Hpl.
  { intros n Hn Hp Hp5. apply Hp. by apply (plenty_le n 5). }
  assert (forall S0, EFI_ERROR S0 = true -> (rejected h0 g db -> S0 = EFI_INVALID_PARAMETER /\ h0 ∉ gHandleList db) ->
    exists Status h db', install_tail h0 g S0 x NotifyAll db = Done (Status, Some h, db') /\ db_ok db' /\
    ((install_result h0 g x NotifyAll db Status h db' /\ (rejected h0 g db -> ~ plenty 5 (pool_heap db))) \/
     (EFI_ERROR Status = true /\ h = h0 /\ unseen db db' /\
      (rejected h0 g db /\ Status = EFI_INVALID_PARAMETER \/ ~ plenty 5 (pool_heap db))))) as Htail.
  { intros S0 HS Hrej. destruct (install_tail_ok db h0 g S0 x NotifyAll Hok HS) as (S & h & db' & E & Hok' & Hc).
    exists S, h, db'. split; [done|]. split; [done|]. destruct Hc as [Hr|(HE & -> & Hu & Hc)]; [left|right].
    - split; [done|]. intros Hj. destruct (Hrej Hj) as [_ Hn]. destruct Hj as [Hj _]. destruct Hr as (_ & _ & _ & Hin & _). by destruct (Hin Hj) as [-> ?].
    - do 3 (split; [done|]). destruct Hc as [[_ Hc]|[(? & ? & ->)|Hc]]; [right; by apply (Hpl 1%nat); [lia|]| |right; by apply (Hpl 4%nat); [lia|]].
      left. split; [|done]. split; [done|by left]. }
  unfold CoreInstallProtocolInterfaceNotify. rewrite (decide_False (P := EFI_NATIVE_INTERFACE <> _)) by (intros Hn; by apply Hn).
  destruct (decide (h0 <> 0)) as [Hne|Hz].
  - destruct (CoreHandleProtocol_ok db h0 g Hok Hf) as (S & v & db1 & -> & Hok1 & Hoo & Hc). mred.
    destruct Hc as [(-> & Hn & ->)|[(-> & Hin & Hl & _ & ->)|(Hin & w & Hl & [[-> _]|[HE Hn]])]].
    + rewrite decide_False by (by intros [_ ?]). by apply (Htail EFI_INVALID_PARAMETER).
    + rewrite decide_False by (by intros [_ ?]). apply (Htail EFI_UNSUPPORTED); [done|]. intros [_ [?|?]]; done.
    + rewrite decide_True by done. exists EFI_INVALID_PARAMETER, h0, db1. split; [done|]. split; [done|]. right. split; [done|]. split; [done|].
      split; [by apply only_opens_unseen|]. left. split; [|done]. split; [done|right; by rewrite Hl].
    + rewrite decide_False by (rewrite HE; by intros [_ ?]).
      destruct (install_tail_ok db1 h0 g S x NotifyAll Hok1 HE) as (S2 & h & db2 & E & Hok2 & Hc2). exists S2, h, db2.
      split; [exact E|]. split; [done|]. pose proof (only_opens_unseen _ _ Hoo) as Hu.
      pose proof Hu as [[Vl Vp Vo] Vk Vs Vr Vpe Vg].
      destruct Hc2 as [(-> & [I1 I2 I3 I4 I5 I6] & Hsg & Hi1 & Hi2)|(HE2 & -> & Hu2 & _)]; [left|right].
      * split; [|intros _; by apply (Hpl 1%nat); [lia|]]. split; [done|]. split; [constructor|].
        -- by rewrite I1, Vl.
        -- intros h'. by rewrite I2, !Vp.
        -- intros g'. by rewrite I3, !Vo.
        -- rewrite <- Vk. exact I4.
        -- intros N. by rewrite I5, Vr.
        -- intros N. by rewrite I6, Vr, Vpe.
        -- split; [by rewrite Hsg, Vg, Vs|]. rewrite <- Vl. done.
      * do 2 (split; [done|]). split; [by apply (unseen_trans _ db1)|]. right. by apply (Hpl 1%nat); [lia|].
  - mred. rewrite decide_False by (by intros [? _]). apply (Htail EFI_OUT_OF_RESOURCES); [done|]. by intros [? _].
Qed.
End services.

(* ------------------------------------------------------------------ *)
(** ** Properties *)

(** C16: On a sound database, [CoreInstallProtocolInterface] refuses a null
    handle pointer, a null protocol and other interface types, without effect;
    otherwise it either installs the interface, which then is
    the first on its handle, the last of its protocol, and the next each
    registration of the protocol will be told of, with a fresh handle at the
    end of the list if none was given, a new key and the events of the
    protocol signalled; or it changes nothing a client can see.  As long as
    the pool has memory (for five records) it fails exactly when the handle is
    not in the database or has the protocol already. *)
Theorem CoreInstallProtocolInterface_correct {H} `{HeapWf H} (disconnect : Z -> Z -> DATABASE H -> Z * DATABASE H) (dxe : Z) (fuel : nat)
    (db : DATABASE H) (h0 : Z) (g : EFI_GUID) (x : Z) :
  disconnect_ok disconnect -> db_ok db -> rounds_ok fuel db ->
  (forall UserHandle Protocol t, UserHandle = None \/ Protocol = None \/ t <> EFI_NATIVE_INTERFACE ->
     CoreInstallProtocolInterface disconnect dxe fuel UserHandle Protocol t x db = Done (EFI_INVALID_PARAMETER, UserHandle, db)) /\
  exists Status h db', CoreInstallProtocolInterface disconnect dxe fuel (Some h0) (Some g) EFI_NATIVE_INTERFACE x db = Done (Status, Some h, db') /\
    db_ok db' /\
    ((Status = EFI_SUCCESS /\ installed h g x db db' /\ signalled db' = reverse (NotifyEvent <$> registered db g) ++ signalled db /\
      (h0 <> 0 -> h = h0 /\ h ∈ gHandleList db) /\ (h0 = 0 -> h <> 0 /\ (h ∉ gHandleList db)) /\
      (rejected h0 g db -> ~ plenty 5 (pool_heap db))) \/
     (EFI_ERROR Status = true /\ h = h0 /\ unseen db db' /\
      (rejected h0 g db /\ Status = EFI_INVALID_PARAMETER \/ ~ plenty 5 (pool_heap db)))).
Proof.
  intros Hd Hok Hf. split.
  { intros [u|] [p|] t Ht; unfold CoreInstallProtocolInterface, CoreInstallProtocolInterfaceNotify; [|done..].
    rewrite decide_True; [done|]. by destruct Ht as [|[|]]. }
  destruct (CoreInstall_ok disconnect Hd dxe fuel db h0 g x true Hok Hf) as (S & h & db' & E & Hok' & Hc).
  exists S, h, db'. split; [done|]. split; [done|]. destruct Hc as [[(-> & Hi & Hs & H1' & H2') Hr]|Hc]; [left|by right].
  by do 5 (split; [done|]).
Qed.
