(* ===== verification/DxeLocate.v ===== *)
(** * DXE core: finding handles and protocols

    The searches of [Hand/Locate.c] in [DxeHand.v] against the view of
    [DxeHandOk.v]: a search by protocol gives every handle that has it once,
    in the order of their first interface, a search for all gives the list of
    handles, and a registration is told of the interfaces of its protocol one
    by one ([pending]), each once, in the order they were installed. *)
From Stdlib Require Import ZArith Lia.
From stdpp Require Import base gmap list list_tactics.
From S2P Require Import Prelude Pointer Firmware DxePage Heap DevicePath DxeHand DxeHandOk DxeOpen DxeInstall.
#[local] Open Scope Z_scope.

Section locating.
Context {H : Type} `{HeapWf H}.
#[local] Abbreviation DB := (DATABASE H).
#[local] Abbreviation entries db := (mProtocolDatabase db).

(* ------------------------------------------------------------------ *)
(** ** Distinct handles *)

(** The first occurrences in a list of what is not in [seen]. *)
Fixpoint distinct (seen l : list Z) : list Z :=
  match l with
  | [] => []
  | h :: l => if decide (h ∈ seen) then distinct seen l else h :: distinct (h :: seen) l
  end.

Lemma distinct_spec l : forall seen, NoDup (distinct seen l) /\ forall h, h ∈ distinct seen l <-> h ∈ l /\ h ∉ seen.
Proof.
  induction l as [|a l IH]; intros seen; cbn [distinct].
  { split; [apply NoDup_nil_2|]. intros h. rewrite elem_of_nil. tauto. }
  destruct (decide (a ∈ seen)) as [Ha|Ha].
  - destruct (IH seen) as [Hn Hi]. split; [done|]. intros h. rewrite Hi, elem_of_cons. split; [tauto|]. by intros [[->|] ?].
  - destruct (IH (a :: seen)) as [Hn Hi]. split.
    { apply NoDup_cons. split; [|done]. rewrite Hi, elem_of_cons. tauto. }
    intros h. rewrite !elem_of_cons, Hi, elem_of_cons. destruct (decide (h = a)) as [->|]; tauto.
Qed.

(** Handles, oldest interface first, that have a protocol. *)
Definition handles_with (db : DB) (g : EFI_GUID) : list Z := distinct [] (fst <$> order db g).

(* ------------------------------------------------------------------ *)
(** ** Marking handles *)

(** Nothing but the marks of the search changes. *)
Record only_marks (db db' : DB) : Prop := {
  m_shape : same_shape db db';
  m_interfaces : interfaces db' = interfaces db;
  m_entries : entries db' = entries db;
  m_list : gHandleList db' = gHandleList db;
  m_ordered : gOrderedHandleList db' = gOrderedHandleList db;
  m_key : gHandleDatabaseKey db' = gHandleDatabaseKey db;
  m_signalled : signalled db' = signalled db;
  m_heap : pool_heap db' = pool_heap db;
  m_request : mEfiLocateHandleRequest db' = mEfiLocateHandleRequest db;
}.

Lemma only_marks_refl db : only_marks db db.
Proof. by constructor. Qed.

Lemma only_marks_trans (a b c : DB) : only_marks a b -> only_marks b c -> only_marks a c.
Proof. intros [] []. constructor; [by eapply same_shape_trans|congruence..]. Qed.

Lemma marks_unseen (db db' : DB) : only_marks db db' -> unseen db db'.
Proof.
  intros [Hs Ei Ee El Eo Ek Es _ _]. pose proof (same_registrations db db' Ee (shape_placed _ _ Hs)) as Hr.
  constructor; [by apply same_shape_view|done|done|intros N; apply Hr|intros N; apply Hr|].
  intros g. unfold registered, find_guid. by rewrite Ee.
Qed.

Lemma marks_owns X (db db' : DB) : only_marks db db' -> owns X db -> owns X db'.
Proof. intros [Hs Ei Ee El Eo Ek Es Eh _]. apply owns_move; [|done]. unfold addresses. by rewrite El, Eo, Ee, Ei. Qed.

(** The handles that carry the number of the search are those in [seen]. *)
Definition marked (seen : list Z) (db : DB) : Prop :=
  forall h I, handles db !! h = Some I -> LocateRequest I = mEfiLocateHandleRequest db <-> h ∈ seen.

Lemma mark_handle bare (db : DB) h I seen : linked bare db -> handles db !! h = Some I -> marked seen db ->
  let db' := update_handle h (set_locate (mEfiLocateHandleRequest db)) db in
  only_marks db db' /\ linked bare db' /\ marked (h :: seen) db'.
Proof.
  intros HL Hh Hm db'. assert (same_shape db db') as Hs.
  { constructor; try done. intros j. simpl. destruct (decide (h = j)) as [<-|]; [|by rewrite lookup_alter_ne]. by rewrite lookup_alter_eq, Hh. }
  split; [by constructor|]. split.
  - pose proof (l_requests _ _ HL). apply (linked_shape bare db); [done|done|apply HL|apply HL| |done]. intros j J. simpl.
    rewrite lookup_alter_Some. intros [(<- & J0 & HJ & ->)|[_ HJ]]; [simpl; lia|exact (l_request _ _ HL j J HJ)].
  - intros j J. simpl. rewrite lookup_alter_Some. intros [(<- & J0 & HJ & ->)|[Hne HJ]]; simpl; rewrite elem_of_cons; [tauto|].
    rewrite (Hm j J HJ). split; [by right|]. by intros [->|].
Qed.

(** The handle of an interface. *)
Definition handle_at (db : DB) (i : Z) : option Z := HandleOf <$> interfaces db !! i.

Lemma GetNextLocateByProtocol_ok bare rest : forall (db : DB) i0 seen, linked bare db -> marked seen db ->
  (forall i, i ∈ rest -> is_Some (interfaces db !! i)) ->
  exists r x rest' db', CoreGetNextLocateByProtocol rest i0 db = Done (r, x, AtProtocol rest', db') /\
    only_marks db db' /\ linked bare db' /\ rest' `suffix_of` rest /\
    match distinct seen (omap (handle_at db) rest) with
    | [] => r = None /\ marked seen db'
    | h :: hs => r = Some h /\ marked (h :: seen) db' /\ (length rest' < length rest)%nat /\ hs = distinct (h :: seen) (omap (handle_at db) rest')
    end.
Proof.
  induction rest as [|i rest IH]; intros db i0 seen HL Hm Hi.
  { exists None, i0, [], db. split; [done|]. split; [apply only_marks_refl|]. by do 2 (split; [done|]). }
  destruct (Hi i ltac:(by left)) as [P HP]. destruct (l_handle_of _ _ HL i P HP) as [I Hh]. cbn [CoreGetNextLocateByProtocol].
  rewrite HP. cbn [deref]. mred. rewrite Hh. cbn [deref]. mred. cbn [omap list_omap]. unfold handle_at at 1. rewrite HP. simpl.
  destruct (decide (LocateRequest I <> mEfiLocateHandleRequest db)) as [Hne|Heq].
  - rewrite decide_False by (intros Hin; by apply (Hm _ _ Hh) in Hin).
    destruct (mark_handle bare db (HandleOf P) I seen HL Hh Hm) as (Hom & HL' & Hm'). eexists _, _, rest, _. split; [done|].
    split; [done|]. split; [done|]. split; [by apply suffix_cons_r|]. do 2 (split; [done|]). split; [lia|done].
  - rewrite decide_True; [|apply (Hm _ _ Hh); by destruct (decide (LocateRequest I = mEfiLocateHandleRequest db))].
    destruct (IH db (InterfaceOf P) seen HL Hm) as (r & x & rest' & db' & -> & Hom & HL' & Hsuf & Hd); [intros j Hj; apply Hi; by right|].
    exists r, x, rest', db'. do 3 (split; [done|]). split; [by apply suffix_cons_r|].
    destruct (distinct seen (omap (handle_at db) rest)); [done|]. destruct Hd as (? & ? & ? & ?). do 2 (split; [done|]). split; [lia|done].
Qed.

(** A handle is written if it fits. *)
Lemma write_step R Size h (written l : list Z) :
  (if decide (R + 8 <= Size) then written ++ [h] else written) ++ take (Z.to_nat ((Size - (R + 8)) / 8)) l =
  written ++ take (Z.to_nat ((Size - R) / 8)) (h :: l).
Proof.
  destruct (decide (R + 8 <= Size)) as [Hle|Hgt].
  - replace ((Size - R) / 8) with ((Size - (R + 8)) / 8 + 1) by (replace (Size - R) with (Size - (R + 8) + 1 * 8) by lia; by rewrite Z.div_add).
    rewrite Z2Nat.inj_add by (try apply Z.div_pos; lia). rewrite Nat.add_1_r. simpl. by rewrite <- app_assoc.
  - assert (forall k, k < 8 -> Z.to_nat (k / 8) = 0%nat) as Hz.
    { intros k Hk. assert (k / 8 < 1) by (apply Z.div_lt_upper_bound; lia). lia. }
    by rewrite !Hz by lia.
Qed.

(** The loop counts every handle of the search and writes those that fit. *)
Lemma locate_loop_protocol bare n : forall (db : DB) rest seen R Size written, linked bare db -> marked seen db ->
  (forall i, i ∈ rest -> is_Some (interfaces db !! i)) -> (length rest < n)%nat -> 0 <= R ->
  R + 8 * Z.of_nat (length (distinct seen (omap (handle_at db) rest))) < 2 ^ 64 ->
  let l := distinct seen (omap (handle_at db) rest) in
  exists db', locate_loop n (AtProtocol rest) R Size written db =
      Done (R + 8 * Z.of_nat (length l), written ++ take (Z.to_nat ((Size - R) / 8)) l, db') /\ only_marks db db' /\ linked bare db'.
Proof.
  induction n as [|n IH]; intros db rest seen R Size written HL Hm Hi Hn HR Hlt l; [lia|]. cbn [locate_loop GetNext].
  destruct (GetNextLocateByProtocol_ok bare rest db 0 seen HL Hm Hi) as (r & x & rest' & db1 & -> & Hom & HL1 & Hsuf & Hd). mred.
  unfold l in *. destruct (distinct seen (omap (handle_at db) rest)) as [|h hs].
  - destruct Hd as [-> Hm1]. exists db1. split; [|done]. rewrite take_nil, app_nil_r. simpl. by rewrite Z.add_0_r.
  - destruct Hd as (-> & Hm1 & Hlen & ->). simpl length in *. rewrite (u64_id (R + 8)) by lia.
    assert (omap (handle_at db1) rest' = omap (handle_at db) rest') as Eo.
    { apply omap_same. intros i _. unfold handle_at. by rewrite (m_interfaces _ _ Hom). }
    destruct (IH db1 rest' (h :: seen) (R + 8) Size (if decide (R + 8 <= Size) then written ++ [h] else written)) as (db2 & E & Hom2 & HL2); try done.
    + intros i Hin. rewrite (m_interfaces _ _ Hom). apply Hi. destruct Hsuf as [k ->]. apply elem_of_app. by right.
    + lia.
    + lia.
    + rewrite Eo. lia.
    + exists db2. split; [|split; [by apply (only_marks_trans _ db1)|done]]. rewrite E, Eo, write_step. do 3 f_equal. lia.
Qed.

Lemma locate_loop_handles n : forall (db : DB) rest R Size written, (length rest < n)%nat -> 0 <= R ->
  R + 8 * Z.of_nat (length rest) < 2 ^ 64 ->
  locate_loop n (AtHandles rest) R Size written db =
    Done (R + 8 * Z.of_nat (length rest), written ++ take (Z.to_nat ((Size - R) / 8)) rest, db).
Proof.
  induction n as [|n IH]; intros db rest R Size written Hn HR Hlt; [lia|]. cbn [locate_loop GetNext].
  destruct rest as [|h rest]; cbn [CoreGetNextLocateAllHandles]; mred.
  - rewrite take_nil, app_nil_r. simpl. by rewrite Z.add_0_r.
  - simpl length in *. rewrite (u64_id (R + 8)) by lia. rewrite IH; [|lia|lia|lia]. rewrite write_step. do 3 f_equal. lia.
Qed.

(* ------------------------------------------------------------------ *)
(** ** Searches for handles *)

(** The handles a search is for. *)
Definition wanted (SearchType : Z) (Protocol : option EFI_GUID) (db : DB) : list Z :=
  if decide (SearchType = AllHandles) then gHandleList db
  else match Protocol with Some g => handles_with db g | None => [] end.

Lemma elem_of_handles_with bare (db : DB) g h : linked bare db -> h ∈ handles_with db g <-> exists x, (g, x) ∈ protocols db h.
Proof.
  intros HL. unfold handles_with. rewrite (proj2 (distinct_spec _ _)), elem_of_nil. split.
  - intros [([h' x] & -> & Hi)%list_elem_of_fmap_1 _]. exists x. by apply (elem_of_order bare).
  - intros [x Hx]. split; [|by intros []]. apply (elem_of_order bare) in Hx; [|done]. by apply (list_elem_of_fmap_2 fst) in Hx.
Qed.

Lemma wanted_listed bare (db : DB) SearchType Protocol : linked bare db ->
  NoDup (wanted SearchType Protocol db) /\ wanted SearchType Protocol db ⊆ gHandleList db.
Proof.
  intros HL. unfold wanted. destruct (decide _); [split; [apply HL|done]|]. destruct Protocol as [g|]; [|split; [apply NoDup_nil_2|by intros h Hh%elem_of_nil]].
  split; [apply distinct_spec|]. intros h. rewrite (elem_of_handles_with bare) by done. intros [x Hx]. apply (l_dom _ _ HL).
  unfold protocols in Hx. destruct (handles db !! h); [by eexists|by apply elem_of_nil in Hx].
Qed.

Lemma wanted_length bare (db : DB) SearchType Protocol : linked bare db ->
  (length (wanted SearchType Protocol db) <= length (gHandleList db))%nat.
Proof. intros HL. apply submseteq_length, NoDup_submseteq; by apply (wanted_listed bare). Qed.

Lemma wanted_unseen SearchType Protocol (db db' : DB) : unseen db db' -> wanted SearchType Protocol db' = wanted SearchType Protocol db.
Proof.
  intros [[El _ Eo] _ _ _ _ _]. unfold wanted. destruct (decide _); [done|]. destruct Protocol; [|done]. unfold handles_with. by rewrite Eo.
Qed.

(** A search starts with a number no handle carries. *)
Lemma new_request (db : DB) : linked None db -> mEfiLocateHandleRequest db + 1 < 2 ^ 64 ->
  let db1 := with_request (u64 (mEfiLocateHandleRequest db + 1)) db in
  linked None db1 /\ marked [] db1 /\ unseen db db1 /\ mEfiLocateHandleRequest db1 = mEfiLocateHandleRequest db + 1.
Proof.
  intros HL Hlt db1. pose proof (l_requests _ _ HL) as Hu.
  assert (mEfiLocateHandleRequest db1 = mEfiLocateHandleRequest db + 1) as Er by (apply u64_id; lia).
  assert (same_shape db db1) as Hs by (by constructor).
  split; [|split; [|split; [|done]]].
  - apply (linked_shape None db); [done|done|apply HL|apply HL| |rewrite Er; lia].
    intros h I Hh. pose proof (l_request _ _ HL h I Hh). rewrite Er. lia.
  - intros h I Hh. pose proof (l_request _ _ HL h I Hh). rewrite Er, elem_of_nil. split; [lia|done].
  - pose proof (same_registrations db db1 eq_refl (shape_placed _ _ Hs)) as Hr.
    constructor; [by apply same_shape_view|done|done|intros N; apply Hr|intros N; apply Hr|done].
Qed.

(** One pass of a search: the size of what there is, and what fits. *)
Lemma InternalCoreLocateHandle_ok X (db : DB) SearchType Protocol SearchKey Size (Buffer : bool) :
  owns X db -> linked None db -> (SearchType = AllHandles \/ SearchType = ByProtocol /\ Protocol <> None) ->
  (0 < Size -> Buffer = true) -> mEfiLocateHandleRequest db + 1 < 2 ^ 64 -> 8 * Z.of_nat (length (gHandleList db)) < 2 ^ 64 ->
  let l := wanted SearchType Protocol db in
  exists db', InternalCoreLocateHandle SearchType Protocol SearchKey (Some Size) Buffer db =
      Done (if decide (l = []) then EFI_NOT_FOUND else if decide (Size < 8 * Z.of_nat (length l)) then EFI_BUFFER_TOO_SMALL else EFI_SUCCESS,
            if decide (l = []) then Some Size else Some (8 * Z.of_nat (length l)), take (Z.to_nat (Size / 8)) l, db') /\
    owns X db' /\ linked None db' /\ unseen db db' /\ pool_heap db' = pool_heap db /\
    mEfiLocateHandleRequest db' <= mEfiLocateHandleRequest db + 1.
Proof.
  intros Ho HL Htype Hbuf Hreq Hlen l. pose proof (wanted_length None db SearchType Protocol HL) as Hw. fold l in Hw.
  destruct (new_request db HL Hreq) as (HL1 & Hm1 & Hu1 & Er1). unfold InternalCoreLocateHandle.
  rewrite (decide_False (P := 0 < Size /\ Buffer = false)) by (intros [Hs Hb]; rewrite Hbuf in Hb by done; done).
  set (db1 := with_request (u64 (mEfiLocateHandleRequest db + 1)) db) in *.
  assert (forall p, (exists db2, locate_loop (2 + search_length p) p 0 Size [] db1 =
      Done (8 * Z.of_nat (length l), take (Z.to_nat (Size / 8)) l, db2) /\ only_marks db1 db2 /\ linked None db2) ->
    SearchType <> ByRegisterNotify ->
    exists db', ('(ResultSize, written, db2) ← locate_loop (2 + search_length p) p 0 Size [] db1;
          if decide (ResultSize = 0) then mret (EFI_NOT_FOUND, Some Size, written, db2) else
          let Status := if decide (Size < ResultSize) then EFI_BUFFER_TOO_SMALL else EFI_SUCCESS in
          db3 ← (if decide (SearchType = ByRegisterNotify /\ EFI_ERROR Status = false) then advance_notify SearchKey db2 else mret db2);
          mret (Status, Some ResultSize, written, db3)) =
      Done (if decide (l = []) then EFI_NOT_FOUND else if decide (Size < 8 * Z.of_nat (length l)) then EFI_BUFFER_TOO_SMALL else EFI_SUCCESS,
            if decide (l = []) then Some Size else Some (8 * Z.of_nat (length l)), take (Z.to_nat (Size / 8)) l, db') /\
    owns X db' /\ linked None db' /\ unseen db db' /\ pool_heap db' = pool_heap db /\
    mEfiLocateHandleRequest db' <= mEfiLocateHandleRequest db + 1) as Hrun.
  { intros p (db2 & -> & Hom & HL2) Hn. mred. exists db2. split.
    - destruct l as [|h l']; [done|]. rewrite (decide_False (P := _ = 0)) by (simpl; lia). rewrite (decide_False (P := _ /\ _)) by (by intros [? _]).
      by rewrite (decide_False (P := h :: l' = [])).
    - split; [by apply (marks_owns X db1)|]. split; [done|].
      split; [by apply (unseen_trans _ db1); [|apply marks_unseen]|]. split; [by rewrite (m_heap _ _ Hom)|].
      rewrite (m_request _ _ Hom). lia. }
  destruct Htype as [->|[-> HP]].
  - rewrite (decide_True (P := AllHandles = AllHandles)) by done. apply (Hrun (AtHandles (gHandleList db))); [|done].
    exists db1. split; [|split; [apply only_marks_refl|done]]. simpl search_length. rewrite locate_loop_handles by lia.
    rewrite Z.sub_0_r. done.
  - rewrite (decide_False (P := ByProtocol = AllHandles)), (decide_False (P := ByProtocol = ByRegisterNotify)), (decide_True (P := ByProtocol = ByProtocol)) by done.
    destruct Protocol as [g|]; [|done]. change (List.find _ (entries db)) with (find_guid g db).
    assert (l = match find_guid g db with Some E => distinct [] (omap (handle_at db1) (ByProtocolList E)) | None => [] end) as El.
    { unfold l, wanted. rewrite decide_False by done. unfold handles_with, order. destruct (find_guid g db) as [E|]; [|done]. f_equal.
      rewrite list_fmap_omap. apply omap_same. intros i _. unfold placed, handle_at. simpl. by destruct (interfaces db !! i). }
    pose proof (find_guid_spec g db) as Hf. destruct (find_guid g db) as [E|].
    + destruct Hf as [HE _]. apply (Hrun (AtProtocol (ByProtocolList E))); [|done]. simpl search_length.
      destruct (locate_loop_protocol None (S (S (length (ByProtocolList E)))) db1 (ByProtocolList E) [] 0 Size []) as (db2 & E2 & Hom & HL2);
        try done; [|lia|rewrite <- El; lia|].
      * intros i Hi. apply (l_entry _ _ HL E i HE) in Hi as (P & HP' & _). by exists P.
      * exists db2. rewrite <- El in E2. rewrite Z.sub_0_r in E2. done.
    + rewrite El. rewrite decide_True by done. exists db. rewrite take_nil. do 3 (split; [done|]). split; [apply unseen_refl|]. split; [done|lia].
Qed.

(* ------------------------------------------------------------------ *)
(** ** Registrations *)

Lemma after_middle k i (r : list Z) : NoDup (k ++ i :: r) -> after i (k ++ i :: r) = Some r.
Proof.
  induction k as [|j k IH]; intros Hn; simpl; [by rewrite decide_True|]. apply NoDup_cons in Hn as [Hj Hn].
  rewrite decide_False; [by apply IH|]. intros ->. apply Hj, elem_of_app. right. by left.
Qed.

Lemma rest_after_list n (l : list Z) : (forall p, Position n = Some p -> p ∈ l) ->
  rest_after (Position n) l = Done (rest_list n l) /\ rest_list n l `suffix_of` l.
Proof.
  intros Hp. unfold rest_after, rest_list. destruct (Position n) as [p|]; [|done].
  destruct (after_elem p l (Hp p eq_refl)) as (r & -> & Hr). done.
Qed.

(** A change of an entry that keeps the addresses of its registrations. *)
Lemma notify_of_update (db : DB) e F (f : PROTOCOL_ENTRY -> PROTOCOL_NOTIFY -> PROTOCOL_NOTIFY) N :
  (forall E, Notify (F E) = f E <$> Notify E) -> (forall E n, NotifyAddress (f E n) = NotifyAddress n) ->
  notify_of N (update_entry e F db) =
  (fun En => if EntryAddress En.1 =? e then (F En.1, f En.1 En.2) else En) <$> notify_of N db.
Proof.
  intros HF Hf. assert (forall E l, List.find (fun n => NotifyAddress n =? N) (f E <$> l) = f E <$> List.find (fun n => NotifyAddress n =? N) l) as Hn.
  { intros E. induction l as [|n l IH]; [done|]. cbn. rewrite Hf. by destruct (_ =? _). }
  unfold notify_of. simpl. induction (entries db) as [|E l IH]; [done|]. cbn [List.find fmap list_fmap].
  assert (existsb (fun n => NotifyAddress n =? N) (Notify (if EntryAddress E =? e then F E else E)) =
    existsb (fun n => NotifyAddress n =? N) (Notify E)) as ->.
  { destruct (EntryAddress E =? e); [|done]. rewrite HF. induction (Notify E) as [|n ns IHn]; [done|]. cbn. by rewrite Hf, IHn. }
  destruct (existsb _ (Notify E)); [|exact IH]. simpl. destruct (EntryAddress E =? e) eqn:EE; simpl.
  - rewrite HF, Hn. destruct (List.find _ (Notify E)); [|done]. simpl. by rewrite EE.
  - destruct (List.find _ (Notify E)); [|done]. simpl. by rewrite EE.
Qed.

(** Updates of one entry that agree on it. *)
Lemma update_entry_one bare (db : DB) E f f' : linked bare db -> E ∈ entries db -> f E = f' E ->
  update_entry (EntryAddress E) f db = update_entry (EntryAddress E) f' db.
Proof.
  intros HL HE Hf. unfold update_entry, with_protocols. f_equal. apply list_fmap_ext. intros j E' Hj. simpl.
  destruct (Z.eqb_spec (EntryAddress E') (EntryAddress E)) as [EE|]; [|done]. apply list_elem_of_lookup_2 in Hj.
  by rewrite (nodup_fmap_inj EntryAddress (entries db) E' E); [|apply HL|..].
Qed.

(** A registration is told of its next interface. *)
Lemma advance_notify_ok (db : DB) N E n i r : db_ok db -> notify_of N db = Some (E, n) -> rest_list n (ByProtocolList E) = i :: r ->
  exists db', advance_notify N db = Done db' /\ db_ok db' /\ same_shape db db' /\ interfaces db' = interfaces db /\
    gHandleDatabaseKey db' = gHandleDatabaseKey db /\ signalled db' = signalled db /\
    (forall N', registered_for db' N' = registered_for db N') /\
    (forall N', pending db' N' = if decide (N' = N) then omap (placed db) r else pending db N').
Proof.
  intros [Ho HL] En Er. destruct (notify_of_spec _ _ _ _ En) as (HE & Hn & EN).
  assert (forall p, Position n = Some p -> p ∈ ByProtocolList E) as Hpos by (intros p; by apply (l_position _ _ HL E n p)).
  destruct (rest_after_list n (ByProtocolList E) Hpos) as [Era [k Ek]]. rewrite Er in Era, Ek.
  set (f := fun m => if NotifyAddress m =? N then set_notify_position (Some i) m else m).
  set (db' := update_entry (EntryAddress E) (fun E => set_notify (f <$> Notify E) E) db). exists db'.
  assert (advance_notify N db = Done db') as Ea.
  { unfold advance_notify. rewrite En. cbn [deref]. mred. rewrite Era. mred. f_equal. by apply (update_entry_one None). }
  assert (forall m, NotifyAddress (f m) = NotifyAddress m) as Hf by (intros m; unfold f; by destruct (_ =? _)).
  assert (same_shape db db') as Hs.
  { constructor; try done. unfold db'. by apply update_entry_heads. }
  split; [exact Ea|]. split; [split|].
  - apply (owns_move [] [] db); [|done|done]. unfold addresses, db'. rewrite update_entry_addresses; [done|].
    intros X. unfold entry_addresses. simpl. rewrite <- list_fmap_compose. f_equal. apply list_fmap_ext. intros j m _. simpl. by rewrite Hf.
  - apply (linked_shape None db); [done|done| |apply HL..]. intros X m j. unfold db'. rewrite elem_of_update_entry.
    intros (E0 & HE0 & ->). destruct (Z.eqb_spec (EntryAddress E0) (EntryAddress E)) as [EE|HEE]; [|by apply (l_position _ _ HL E0)].
    assert (E0 = E) as -> by (by apply (nodup_fmap_inj EntryAddress (entries db)); [apply HL|..]).
    simpl. rewrite list_elem_of_fmap. intros (m0 & -> & Hm0). unfold f. destruct (_ =? _); [|by apply (l_position _ _ HL E m0 j)].
    simpl. intros [= <-]. rewrite Ek. apply elem_of_app. right. by left.
  - split; [done|]. do 3 (split; [done|]).
    assert (forall N', notify_of N' db' = (fun En => if EntryAddress En.1 =? EntryAddress E then (set_notify (f <$> Notify En.1) En.1, f En.2) else En) <$> notify_of N' db)
      as Hno by (intros N'; by apply (notify_of_update db (EntryAddress E) (fun E => set_notify (f <$> Notify E) E) (fun _ => f))).
    split.
    + intros N'. unfold registered_for. rewrite Hno. destruct (notify_of N' db) as [[X m]|]; [|done]. simpl. by destruct (_ =? _).
    + intros N'. unfold pending. rewrite Hno. destruct (decide (N' = N)) as [->|Hne].
      * rewrite En. simpl. rewrite Z.eqb_refl. unfold f. rewrite EN, Z.eqb_refl. simpl. unfold rest_list. simpl.
        rewrite Ek, after_middle; [done|]. rewrite <- Ek. by apply (l_entries _ _ HL).
      * destruct (notify_of N' db) as [[X m]|] eqn:En'; [|done]. destruct (notify_of_spec _ _ _ _ En') as (_ & _ & EN'). simpl.
        assert (f m = m) as Em by (unfold f; destruct (Z.eqb_spec (NotifyAddress m) N); [congruence|done]).
        destruct (_ =? _); simpl; by rewrite ?Em.
Qed.

Lemma find_one_address N (l : list PROTOCOL_NOTIFY) n : existsb (fun m => NotifyAddress m =? N) l = false -> NotifyAddress n = N ->
  List.find (fun m => NotifyAddress m =? N) (l ++ [n]) = Some n.
Proof.
  intros Hl Hn. induction l as [|m l IH]; cbn in *; [by rewrite (proj2 (Z.eqb_eq _ _) Hn)|].
  apply orb_false_iff in Hl as [-> Hl]. by apply IH.
Qed.

(** One more registration, at the end of an entry's. *)
Definition with_notify (e : Z) (n : PROTOCOL_NOTIFY) (db : DB) : DB := update_entry e (fun E => set_notify (Notify E ++ [n]) E) db.

Lemma notify_addresses (l : list PROTOCOL_ENTRY) E n : NoDup (EntryAddress <$> l) -> E ∈ l ->
  NotifyAddress n :: (l ≫= entry_addresses) ≡ₚ
  ((fun E0 => if EntryAddress E0 =? EntryAddress E then set_notify (Notify E0 ++ [n]) E0 else E0) <$> l) ≫= entry_addresses.
Proof.
  intros Hn HE. induction l as [|E0 l IH]; [by apply elem_of_nil in HE|]. rewrite fmap_cons, !bind_cons.
  apply NoDup_cons in Hn as [Hi Hn]. apply elem_of_cons in HE as [<-|HE].
  - rewrite Z.eqb_refl. unfold entry_addresses at 3. simpl. rewrite fmap_app. simpl.
    assert ((fun E1 => if EntryAddress E1 =? EntryAddress E then set_notify (Notify E1 ++ [n]) E1 else E1) <$> l = l) as ->.
    { rewrite <- (list_fmap_id l) at 2. apply list_fmap_ext. intros j E1 Hj. destruct (Z.eqb_spec (EntryAddress E1) (EntryAddress E)) as [EE|]; [|done].
      exfalso. apply Hi. rewrite <- EE. apply list_elem_of_fmap_2. by eapply list_elem_of_lookup_2. }
    solve_Permutation.
  - destruct (Z.eqb_spec (EntryAddress E0) (EntryAddress E)) as [EE|]; [exfalso; apply Hi; rewrite EE; by apply list_elem_of_fmap_2|].
    rewrite <- IH by done. solve_Permutation.
Qed.

(** A registration at an address of its own is found in its entry; the others
    are where they were. *)
Lemma notify_of_new (db : DB) E n N' : NoDup (EntryAddress <$> entries db) -> E ∈ entries db ->
  (forall E0, E0 ∈ entries db -> existsb (fun m => NotifyAddress m =? NotifyAddress n) (Notify E0) = false) ->
  notify_of N' (with_notify (EntryAddress E) n db) =
  if decide (N' = NotifyAddress n) then Some (set_notify (Notify E ++ [n]) E, n)
  else (fun En => if EntryAddress En.1 =? EntryAddress E then (set_notify (Notify En.1 ++ [n]) En.1, En.2) else En) <$> notify_of N' db.
Proof.
  unfold notify_of, with_notify. simpl. generalize (entries db). intros l Hn HE Hfresh. destruct (decide (N' = NotifyAddress n)) as [->|Hne].
  - induction l as [|E0 l IH]; [by apply elem_of_nil in HE|]. cbn [List.find fmap list_fmap].
    rewrite fmap_cons in Hn. apply NoDup_cons in Hn as [Hi Hn]. destruct (Z.eqb_spec (EntryAddress E0) (EntryAddress E)) as [EE|HEE].
    + assert (E0 = E) as ->. { apply elem_of_cons in HE as [->|HE]; [done|]. exfalso. apply Hi. rewrite EE. by apply list_elem_of_fmap_2. }
      simpl. rewrite existsb_app. simpl. rewrite Z.eqb_refl, orb_true_r. simpl.
      by rewrite find_one_address by (try apply Hfresh; done || by left).
    + rewrite Hfresh by (by left). apply IH; [done| |intros; apply Hfresh; by right].
      apply elem_of_cons in HE as [->|]; [done|done].
  - assert ((NotifyAddress n =? N') = false) as En by (by apply Z.eqb_neq).
    clear Hn HE Hfresh. induction l as [|E0 l IH]; [done|]. cbn [List.find fmap list_fmap].
    assert (existsb (fun n => NotifyAddress n =? N') (Notify (if EntryAddress E0 =? EntryAddress E then set_notify (Notify E0 ++ [n]) E0 else E0)) =
      existsb (fun n => NotifyAddress n =? N') (Notify E0)) as ->.
    { destruct (EntryAddress E0 =? EntryAddress E); [|reflexivity]. simpl. rewrite existsb_app. cbn [existsb]. by rewrite En, !orb_false_r. }
    destruct (existsb _ (Notify E0)); [|exact IH]. simpl. destruct (EntryAddress E0 =? EntryAddress E) eqn:EE; simpl.
    + rewrite find_app_new by done. destruct (List.find _ (Notify E0)); [|done]. simpl. by rewrite EE.
    + destruct (List.find _ (Notify E0)); [|done]. simpl. by rewrite EE.
Qed.

(** A new registration at the end of an entry's. *)
Lemma add_notify bare X (db : DB) E N Event : owns (N :: X) db -> linked bare db -> E ∈ entries db -> N ∉ addresses db ->
  let db' := with_notify (EntryAddress E) (mkNotify N Event None) db in
  owns X db' /\ linked bare db' /\ same_shape db db' /\
  (forall N', registered_for db' N' = if decide (N' = N) then Some (ProtocolID E) else registered_for db N') /\
  (forall N', pending db' N' = if decide (N' = N) then order db (ProtocolID E) else pending db N') /\
  (forall g, registered db' g = registered db g ++ (if decide (g = ProtocolID E) then [mkNotify N Event None] else [])).
Proof.
  intros Ho HL HE HN db'. set (new := mkNotify N Event None) in *.
  assert (forall E0, E0 ∈ entries db -> existsb (fun m => NotifyAddress m =? N) (Notify E0) = false) as Hfresh.
  { intros E0 HE0. apply not_true_is_false. intros (m & Hm & EN)%existsb_exists. apply Z.eqb_eq in EN. apply HN.
    unfold addresses. rewrite !elem_of_app. right. right. left. apply list_elem_of_bind. exists E0. split; [|done]. right.
    rewrite <- EN. apply list_elem_of_fmap_2. by apply list_elem_of_In. }
  assert (same_shape db db') as Hs by (constructor; try done; unfold db'; by apply update_entry_heads).
  assert (forall E0, E0 ∈ entries db -> EntryAddress E0 = EntryAddress E -> E0 = E) as Hone.
  { intros E0 HE0 EE. by apply (nodup_fmap_inj EntryAddress (entries db)); [apply HL|..]. }
  split; [|split; [|split; [done|]]].
  - apply (owns_move (N :: X) X db); [|done|done]. unfold addresses, db'. simpl. rewrite Permutation_middle. apply Permutation_app_head.
    rewrite Permutation_middle. apply Permutation_app_head. rewrite Permutation_middle. apply Permutation_app_head.
    rewrite app_comm_cons. apply Permutation_app_tail. exact (notify_addresses (entries db) E new (l_address _ _ HL) HE).
  - apply (linked_shape bare db); [done|done| |apply HL..]. intros X0 m j. unfold db', with_notify. rewrite elem_of_update_entry.
    intros (E0 & HE0 & ->). destruct (_ =? _); [|by apply (l_position _ _ HL E0)]. simpl. intros [Hm|Hm]%elem_of_app; [by apply (l_position _ _ HL E0)|].
    apply list_elem_of_singleton in Hm as ->. done.
  - assert (forall N', notify_of N' db' = if decide (N' = N) then Some (set_notify (Notify E ++ [new]) E, new)
      else (fun En => if EntryAddress En.1 =? EntryAddress E then (set_notify (Notify En.1 ++ [new]) En.1, En.2) else En) <$> notify_of N' db) as Hno
      by (intros N'; apply notify_of_new; [apply HL|done|done]).
    split; [|split].
    + intros N'. unfold registered_for. rewrite Hno. destruct (decide (N' = N)); [done|]. destruct (notify_of N' db) as [[X0 m]|]; [|done].
      simpl. by destruct (_ =? _).
    + intros N'. unfold pending. rewrite Hno. destruct (decide (N' = N)).
      * simpl. unfold order. pose proof (find_guid_spec (ProtocolID E) db) as Hf. destruct (find_guid (ProtocolID E) db) as [E0|].
        -- destruct Hf as [HE0 EG]. by rewrite (nodup_fmap_inj ProtocolID (entries db) E0 E); [|apply HL|..].
        -- by destruct (Hf E HE).
      * destruct (notify_of N' db) as [[X0 m]|]; [|done]. simpl. by destruct (_ =? _).
    + intros g. unfold registered. pose proof (find_update_entry ProtocolID (fun a => bool_decide (a = g)) db (EntryAddress E)
        (fun E => set_notify (Notify E ++ [new]) E) ltac:(done)) as Ef.
      change (find_guid g db' = (fun E0 => if EntryAddress E0 =? EntryAddress E then set_notify (Notify E0 ++ [new]) E0 else E0) <$> find_guid g db) in Ef.
      rewrite Ef. pose proof (find_guid_spec g db) as Hf. destruct (find_guid g db) as [E0|]; simpl.
      * destruct Hf as [HE0 EG]. destruct (Z.eqb_spec (EntryAddress E0) (EntryAddress E)) as [EE|HEE].
        -- rewrite (Hone E0 HE0 EE) in *. rewrite decide_True; [done|congruence].
        -- rewrite decide_False; [by rewrite app_nil_r|]. intros EI. apply HEE. f_equal.
           apply (nodup_fmap_inj ProtocolID (entries db)); [apply HL|done|done|congruence].
      * rewrite decide_False; [done|]. intros ->. by apply (Hf E HE).
Qed.

(** The next interface of a search by protocol that has reported nothing. *)
Lemma first_by_protocol (db : DB) i l P : linked None db -> marked [] db -> interfaces db !! i = Some P ->
  exists db', CoreGetNextLocateByProtocol (i :: l) 0 db = Done (Some (HandleOf P), InterfaceOf P, AtProtocol l, db') /\
    only_marks db db' /\ linked None db'.
Proof.
  intros HL Hm HP. destruct (l_handle_of _ _ HL i P HP) as [T Hh]. cbn [CoreGetNextLocateByProtocol]. rewrite HP. cbn [deref]. mred.
  rewrite Hh. cbn [deref]. mred. rewrite decide_True by (intros E; apply (Hm _ _ Hh) in E; by apply elem_of_nil in E).
  destruct (mark_handle None db (HandleOf P) T [] HL Hh Hm) as (Hom & HL' & _). by eexists.
Qed.

Lemma placed_some (db : DB) i P : interfaces db !! i = Some P -> placed db i = Some (HandleOf P, InterfaceOf P).
Proof. intros HP. unfold placed. by rewrite HP. Qed.

Lemma CoreLocateProtocol_by_protocol (db : DB) g : db_ok db -> mEfiLocateHandleRequest db + 1 < 2 ^ 64 ->
  exists db', CoreLocateProtocol (Some g) 0 true db =
      Done (match order db g with [] => EFI_NOT_FOUND | _ => EFI_SUCCESS end, Some (match order db g with [] => 0 | (_, x) :: _ => x end), db') /\
    db_ok db' /\ unseen db db'.
Proof.
  intros [Ho HL] Hreq. destruct (new_request db HL Hreq) as (HL1 & Hm1 & Hu1 & _). unfold CoreLocateProtocol. cbn [negb].
  set (db1 := with_request (u64 (mEfiLocateHandleRequest db + 1)) db) in *. rewrite decide_True by done.
  change (List.find _ _) with (find_guid g db). unfold order. pose proof (find_guid_spec g db) as Hf. assert (owns [] db1) as Ho1 by (by apply (owns_move [] [] db)).
  destruct (find_guid g db) as [E|]; [|by exists db1]. destruct Hf as [HE _].
  pose proof (l_entry _ _ HL E) as Hl. destruct (ByProtocolList E) as [|i l].
  - exists db1. split; [done|]. done.
  - destruct (proj1 (Hl i HE) ltac:(by left)) as (P & HP & _).
    destruct (first_by_protocol db1 i l P HL1 Hm1 HP) as (db2 & -> & Hom & HL2). mred. cbn [omap list_omap]. rewrite (placed_some db i P HP).
    exists db2. split; [done|]. split; [split; [by apply (marks_owns [] db1)|done]|]. by apply (unseen_trans _ db1); [|apply marks_unseen].
Qed.

Lemma CoreLocateProtocol_registered (db : DB) g N : db_ok db -> mEfiLocateHandleRequest db + 1 < 2 ^ 64 -> N <> 0 -> registered_for db N <> None ->
  exists db', CoreLocateProtocol (Some g) N true db =
      Done (match pending db N with [] => EFI_NOT_FOUND | _ => EFI_SUCCESS end, Some (match pending db N with [] => 0 | (_, x) :: _ => x end), db') /\
    db_ok db' /\ same_view db db' /\ gHandleDatabaseKey db' = gHandleDatabaseKey db /\ signalled db' = signalled db /\
    (forall N', registered_for db' N' = registered_for db N') /\
    (forall N', pending db' N' = if decide (N' = N) then tail (pending db N) else pending db N').
Proof.
  intros [Ho HL] Hreq HN Hreg. destruct (new_request db HL Hreq) as (HL1 & _ & Hu1 & _). unfold CoreLocateProtocol. cbn [negb].
  set (db1 := with_request (u64 (mEfiLocateHandleRequest db + 1)) db) in *. rewrite (decide_False (P := N = 0)) by done.
  assert (db_ok db1) as Hok1 by (split; [by apply (owns_move [] [] db)|done]).
  destruct Hu1 as [Vv Vk Vs Vr Vp _]. unfold CoreGetNextLocateByRegisterNotify. rewrite (decide_False (P := N = 0)) by done.
  unfold registered_for in Hreg. destruct (notify_of N db) as [[E n]|] eqn:En; [|done]. change (notify_of N db1) with (notify_of N db).
  rewrite En. cbn [deref]. mred. destruct (notify_of_spec _ _ _ _ En) as (HE & Hn & _).
  destruct (rest_after_list n (ByProtocolList E)) as [-> [k Hk]]; [intros p; by apply (l_position _ _ HL E n p)|]. mred.
  assert (pending db N = omap (placed db) (rest_list n (ByProtocolList E))) as Hp by (unfold pending; by rewrite En).
  destruct (rest_list n (ByProtocolList E)) as [|i r] eqn:Er.
  - simpl in Hp. rewrite Hp. mred. exists db1. split; [done|]. split; [done|]. do 3 (split; [done|]). split; [done|].
    intros N'. rewrite Vp. destruct (decide (N' = N)) as [->|]; [by rewrite Hp|done].
  - assert (exists P, interfaces db !! i = Some P) as [P HP].
    { destruct (proj1 (l_entry _ _ HL E i HE)) as (P & HP & _); [rewrite Hk; apply elem_of_app; right; by left|by exists P]. }
    change (interfaces db1) with (interfaces db). rewrite HP. cbn [deref]. mred.
    destruct (advance_notify_ok db1 N E n i r Hok1 En Er) as (db2 & -> & Hok2 & Hs2 & _ & Ek2 & Es2 & Hr2 & Hp2). mred.
    cbn [omap list_omap] in Hp. rewrite (placed_some db i P HP) in Hp. rewrite Hp. exists db2. split; [done|]. split; [done|].
    split; [etrans; [exact Vv|by apply same_shape_view]|]. split; [by rewrite Ek2|]. split; [by rewrite Es2|].
    split; [intros N'; by rewrite Hr2|]. intros N'. rewrite Hp2. by destruct (decide (N' = N)).
Qed.

Lemma owns_fresh (db : DB) N : N ∉ addresses db -> registered_for db N = None.
Proof.
  intros HN. unfold registered_for. destruct (notify_of N db) as [[E n]|] eqn:En; [|done]. destruct (notify_of_spec _ _ _ _ En) as (HE & Hn & EN).
  exfalso. apply HN. unfold addresses. rewrite !elem_of_app. right. right. left. apply list_elem_of_bind. exists E. split; [|done]. right.
  rewrite <- EN. by apply list_elem_of_fmap_2.
Qed.
End locating.

(** A search into a fresh buffer. *)
Lemma CoreLocateHandleBuffer_ok {H} `{HeapWf H} (db : DATABASE H) (SearchType : Z) (Protocol : option EFI_GUID) (SearchKey : Z) :
  db_ok db -> (SearchType = AllHandles \/ SearchType = ByProtocol /\ Protocol <> None) ->
  mEfiLocateHandleRequest db + 2 < 2 ^ 64 -> 8 * Z.of_nat (length (gHandleList db)) < 2 ^ 64 ->
  let hs := wanted SearchType Protocol db in
  exists Status n p l db', CoreLocateHandleBuffer SearchType Protocol SearchKey true true db = Done (Status, n, (p, l), db') /\
    linked None db' /\ unseen db db' /\
    ((hs = [] /\ Status = EFI_NOT_FOUND /\ n = 0 /\ l = [] /\ owns [] db') \/
     (hs <> [] /\ Status = EFI_OUT_OF_RESOURCES /\ n = 0 /\ l = [] /\ owns [] db' /\
      (heap_alloc (8 * Z.of_nat (length hs)) (pool_heap db)).1 = None) \/
     (hs <> [] /\ Status = EFI_SUCCESS /\ n = Z.of_nat (length hs) /\ l = hs /\ owns [p] db' /\
      heap_alloc (8 * Z.of_nat (length hs)) (pool_heap db) = (Some p, pool_heap db'))).
Proof.
  intros [Ho HL] Htype Hreq Hlen hs. pose proof (wanted_length None db SearchType Protocol HL) as Hw. fold hs in Hw.
  unfold CoreLocateHandleBuffer. cbn [negb andb].
  destruct (InternalCoreLocateHandle_ok [] db SearchType Protocol SearchKey 0 false Ho HL Htype) as (db1 & -> & Ho1 & HL1 & Hu1 & Eh1 & Er1); [lia..|].
  fold hs. mred. destruct (decide (hs = [])) as [Hnil|Hne].
  { rewrite decide_True by done. eexists _, _, _, _, db1. split; [done|]. split; [done|]. split; [done|]. by left. }
  assert (1 <= length hs)%nat as Hpos by (destruct hs; [done|simpl; lia]).
  rewrite (decide_True (P := 0 < _)) by lia. rewrite decide_False by (by intros [_ ?]). cbn [default].
  destruct (db_alloc _ db1) as [[p|] db2] eqn:Ea.
  - destruct (owns_alloc [] db1 db2 (8 * Z.of_nat (length hs)) p Ho1 ltac:(lia) Ea) as (E2 & Ho2 & _).
    assert (linked None db2) as HL2 by (rewrite E2; by apply linked_heap).
    assert (unseen db db2) as Hu2 by (apply (unseen_trans _ db1); [done|rewrite E2; apply heap_unseen]).
    assert (mEfiLocateHandleRequest db2 = mEfiLocateHandleRequest db1) as Er2 by (by rewrite E2).
    destruct (InternalCoreLocateHandle_ok [p] db2 SearchType Protocol SearchKey (8 * Z.of_nat (length hs)) true Ho2 HL2 Htype)
      as (db3 & -> & Ho3 & HL3 & Hu3 & Eh3 & _); [done|lia|by rewrite (same_list _ _ (u_view _ _ Hu2))|].
    mred. rewrite (wanted_unseen _ _ db db2 Hu2). fold hs. rewrite !(decide_False (P := hs = [])) by done. rewrite (decide_False (P := 8 * _ < 8 * _)) by lia.
    change (EFI_ERROR EFI_SUCCESS) with false. cbn [default]. eexists _, _, _, _, db3. split; [done|]. split; [done|].
    split; [by apply (unseen_trans _ db2)|]. right. right. do 2 (split; [done|]).
    unfold id in *. replace (8 * Z.of_nat (length hs) / 8) with (Z.of_nat (length hs)) by (by rewrite Z.mul_comm, Z.div_mul). rewrite Nat2Z.id, firstn_all. do 3 (split; [done|]).
    rewrite Eh3. revert Ea. unfold db_alloc. rewrite Eh1. clear E2. destruct (heap_alloc _ _) as [o hp]. by intros [= -> <-].
  - destruct (owns_alloc_none [] db1 db2 (8 * Z.of_nat (length hs)) Ho1 ltac:(lia) Ea) as (E2 & Ho2). eexists _, _, _, _, db2. split; [done|].
    split; [rewrite E2; by apply linked_heap|]. split; [apply (unseen_trans _ db1); [done|rewrite E2; apply heap_unseen]|].
    right. left. do 5 (split; [done|]). revert Ea. unfold db_alloc. rewrite Eh1. destruct (heap_alloc _ _) as [o hp]. intros [= -> _]. done.
Qed.

(** A registration, on every branch. *)
Lemma CoreRegister_ok {H} `{HeapWf H} (event_ok : Z -> bool) (db : DATABASE H) (g : EFI_GUID) (Event : Z) :
  db_ok db -> Event <> 0 -> event_ok Event = true ->
  exists Status r db', CoreRegisterProtocolNotify event_ok (Some g) Event true db = Done (Status, r, db') /\ db_ok db' /\
    ((Status = EFI_OUT_OF_RESOURCES /\ r = None /\ unseen db db' /\ ~ plenty 2 (pool_heap db)) \/
     exists N, Status = EFI_SUCCESS /\ r = Some N /\ N <> 0 /\ registered_for db N = None /\ same_view db db' /\
       gHandleDatabaseKey db' = gHandleDatabaseKey db /\ signalled db' = signalled db /\ Event ∈ flagged db' /\
       (forall N', registered_for db' N' = if decide (N' = N) then Some g else registered_for db N') /\
       (forall N', pending db' N' = if decide (N' = N) then order db g else pending db N') /\
       (forall g', registered db' g' = registered db g' ++ (if decide (g' = g) then [mkNotify N Event None] else []))).
Proof.
  intros [Ho HL] Hev Hokev. unfold CoreRegisterProtocolNotify. rewrite decide_False by (rewrite Hokev; intuition congruence).
  destruct (find_entry_ok None [] db g Ho HL) as (r & db1 & -> & Ho1 & HL1 & Hu1 & _ & _ & _ & Hr).
  destruct r as [e|].
  2:{ exists EFI_OUT_OF_RESOURCES, None, db1. split; [done|]. split; [done|]. left. do 3 (split; [done|]).
      intros Hp. apply Hr. by apply (plenty_le 1 2); [lia|]. }
  destruct Hr as ((E & Eg & <-) & Hpl). destruct (db_alloc 48 db1) as [[N|] db2] eqn:Ea.
  2:{ destruct (owns_alloc_none [] db1 db2 48 Ho1 ltac:(lia) Ea) as (E2 & Ho2). eexists _, _, db2. split; [done|].
      split; [split; [done|rewrite E2; by apply linked_heap]|]. left. do 2 (split; [done|]).
      split; [apply (unseen_trans _ db1); [done|rewrite E2; apply heap_unseen]|]. intros Hp.
      by apply (not_plenty_alloc 0 db1 db2 48) in Ea; [apply Ea, Hpl|lia]. }
  destruct (owns_alloc [] db1 db2 48 N Ho1 ltac:(lia) Ea) as (E2 & Ho2 & Hfr).
  set (db3 := with_flagged ({[Event]} ∪ flagged db2) db2).
  destruct (linked_frame None db1 db3) as [HL3 Hs3]; [by unfold db3; rewrite E2..|done|].
  pose proof (find_guid_spec g db1) as Hf. rewrite Eg in Hf. destruct Hf as [HE EG].
  assert (mProtocolDatabase db2 = mProtocolDatabase db1) as Ee2 by (by rewrite E2). assert (E ∈ mProtocolDatabase db3) as HE3 by (simpl; by rewrite Ee2).
  change (entry_of (EntryAddress E) db2) with (entry_of (EntryAddress E) db3). rewrite (proj2 (entry_of_iff None db3 (EntryAddress E) E HL3)) by done. cbn [deref]. mred.
  rewrite (update_entry_one None db3 E _ (fun E => set_notify (Notify E ++ [mkNotify N Event None]) E) HL3 HE3) by done.
  assert (N ∉ addresses db3) as Hfr3 by (unfold db3; rewrite E2; done).
  destruct (add_notify None [] db3 E N Event ltac:(by apply (owns_move [N] [N] db2)) HL3 HE3 Hfr3) as (Ho4 & HL4 & Hs4 & Hr4 & Hp4 & Hg4).
  pose proof (same_registrations db1 db3 ltac:(done) (shape_placed _ _ Hs3)) as Hr3. destruct Hu1 as [Vv Vk Vs Vr Vp Vg].
  pose proof (same_shape_view _ _ Hs3) as V3. rewrite EG in *.
  eexists _, _, _. split; [reflexivity|]. split; [by split|]. right. exists N. do 2 (split; [done|]).
  split; [pose proof (owns_range _ _ N Ho2 ltac:(by left)); lia|]. split; [rewrite <- Vr; by apply owns_fresh|].
  split; [etrans; [exact Vv|etrans; [exact V3|by apply same_shape_view]]|].
  split; [rewrite <- Vk; simpl; by rewrite E2|]. split; [rewrite <- Vs; simpl; by rewrite E2|].
  split; [apply (elem_of_union_l Event {[Event]} (flagged db2)); by apply elem_of_singleton|]. split; [|split].
  - intros N'. etrans; [apply Hr4|]. destruct (Hr3 N') as [-> _]. by rewrite Vr.
  - intros N'. etrans; [apply Hp4|]. destruct (Hr3 N') as [_ ->]. rewrite Vp. by rewrite (same_order _ _ V3), (same_order _ _ Vv).
  - intros g'. etrans; [apply Hg4|]. rewrite <- Vg. unfold registered at 1, find_guid. simpl. by rewrite Ee2.
Qed.

(* ------------------------------------------------------------------ *)
(** ** Properties *)

(** C18: [CoreLocateHandleBuffer] by protocol, or for all handles: if there is
    no such handle the answer is [EFI_NOT_FOUND]; otherwise, if the pool has a
    block for it, the caller is given a fresh buffer with every handle that
    has the protocol, each once, oldest interface first, and their number.
    The marks of the search are all that changes. *)
Theorem CoreLocateHandleBuffer_correct {H} `{HeapWf H} (db : DATABASE H) (SearchType : Z) (Protocol : option EFI_GUID) (SearchKey : Z) :
  db_ok db -> (SearchType = AllHandles \/ SearchType = ByProtocol /\ Protocol <> None) ->
  mEfiLocateHandleRequest db + 2 < 2 ^ 64 -> 8 * Z.of_nat (length (gHandleList db)) < 2 ^ 64 ->
  let hs := wanted SearchType Protocol db in
  NoDup hs /\
  (forall h, h ∈ hs <-> if decide (SearchType = AllHandles) then h ∈ gHandleList db else exists g x, Protocol = Some g /\ (g, x) ∈ protocols db h) /\
  exists Status n p l db', CoreLocateHandleBuffer SearchType Protocol SearchKey true true db = Done (Status, n, (p, l), db') /\
    linked None db' /\ unseen db db' /\
    ((hs = [] /\ Status = EFI_NOT_FOUND /\ n = 0 /\ l = [] /\ owns [] db') \/
     (hs <> [] /\ Status = EFI_OUT_OF_RESOURCES /\ n = 0 /\ l = [] /\ owns [] db' /\
      (heap_alloc (8 * Z.of_nat (length hs)) (pool_heap db)).1 = None) \/
     (hs <> [] /\ Status = EFI_SUCCESS /\ n = Z.of_nat (length hs) /\ l = hs /\ owns [p] db' /\
      heap_alloc (8 * Z.of_nat (length hs)) (pool_heap db) = (Some p, pool_heap db'))).
Proof.
  intros Hok Htype Hreq Hlen hs. pose proof Hok as [_ HL]. split; [by apply (wanted_listed None)|]. split; [|by apply CoreLocateHandleBuffer_ok].
  intros h. unfold hs, wanted. destruct (decide _) as [|Hn]; [done|]. destruct Htype as [|[_ HP]]; [done|]. destruct Protocol as [g|]; [|done].
  rewrite (elem_of_handles_with None) by done. split; [intros [x Hx]; by exists g, x|intros (g' & x & [= <-] & Hx); by exists x].
Qed.

(** C30: [CoreRegisterProtocolNotify] gives out a registration that has yet to
    be told of every interface of the protocol there is; the event will be
    signalled by the installs to come.  Nothing else a client sees changes,
    and it fails only for want of memory. *)
Theorem CoreRegisterProtocolNotify_correct {H} `{HeapWf H} (event_ok : Z -> bool) (db : DATABASE H) (g : EFI_GUID) (Event : Z) :
  db_ok db -> Event <> 0 -> event_ok Event = true ->
  exists Status r db', CoreRegisterProtocolNotify event_ok (Some g) Event true db = Done (Status, r, db') /\ db_ok db' /\
    ((Status = EFI_OUT_OF_RESOURCES /\ r = None /\ unseen db db' /\ ~ plenty 2 (pool_heap db)) \/
     exists N, Status = EFI_SUCCESS /\ r = Some N /\ N <> 0 /\ registered_for db N = None /\ same_view db db' /\
       gHandleDatabaseKey db' = gHandleDatabaseKey db /\ signalled db' = signalled db /\ Event ∈ flagged db' /\
       (forall N', registered_for db' N' = if decide (N' = N) then Some g else registered_for db N') /\
       (forall N', pending db' N' = if decide (N' = N) then order db g else pending db N') /\
       (forall g', registered db' g' = registered db g' ++ (if decide (g' = g) then [mkNotify N Event None] else []))).
Proof. apply CoreRegister_ok. Qed.

(** [CoreLocateProtocol] gives the oldest interface of the protocol, or,
    for a registration, the oldest it has not been told of, and
    [EFI_NOT_FOUND] and null if there is none; a registration is told of each
    interface once, and the others are not affected. *)
Theorem CoreLocateProtocol_correct {H} `{HeapWf H} (db : DATABASE H) (g : EFI_GUID) (N : Z) :
  db_ok db -> mEfiLocateHandleRequest db + 1 < 2 ^ 64 -> (N <> 0 -> registered_for db N <> None) ->
  let l := if decide (N = 0) then order db g else pending db N in
  exists db', CoreLocateProtocol (Some g) N true db =
      Done (match l with [] => EFI_NOT_FOUND | _ => EFI_SUCCESS end, Some (match l with [] => 0 | (_, x) :: _ => x end), db') /\
    db_ok db' /\ same_view db db' /\ gHandleDatabaseKey db' = gHandleDatabaseKey db /\ signalled db' = signalled db /\
    (forall N', registered_for db' N' = registered_for db N') /\
    (forall N', pending db' N' = if decide (N <> 0 /\ N' = N) then tail l else pending db N').
Proof.
  intros Hok Hreq HN l. unfold l. destruct (decide (N = 0)) as [->|Hne].
  - destruct (CoreLocateProtocol_by_protocol db g Hok Hreq) as (db' & E & Hok' & [Vv Vk Vs Vr Vp _]). exists db'.
    do 6 (split; [done|]). intros N'. rewrite decide_False by (by intros [? _]). apply Vp.
  - destruct (CoreLocateProtocol_registered db g N Hok Hreq Hne (HN Hne)) as (db' & E & Hok' & Hv & Hk & Hs & Hr & Hp). exists db'.
    do 6 (split; [done|]). intros N'. rewrite Hp. destruct (decide (N' = N)) as [E1|E1]; [by rewrite decide_True|].
    by rewrite decide_False by (by intros [_ ?]).
Qed.
