(* ===== verification/DxeUninstall.v ===== *)
(** * DXE core: removing protocols

    [CoreUninstallProtocolInterface] of [DxeHand.v] against the view of
    [DxeHandOk.v]: [removed] says what is left when an interface is gone, of
    the protocols of its handle, of the order of its protocol, of what the
    registrations have yet to be told, and of the handle, which goes with its
    last protocol.  A protocol that is installed and removed again leaves the
    view as it was. *)
From Stdlib Require Import ZArith Lia.
From stdpp Require Import base gmap list list_tactics.
From S2P Require Import Prelude Pointer Firmware DxePage Heap DevicePath DxeHand DxeHandOk DxeOpen DxeInstall DxeLocate.
#[local] Open Scope Z_scope.

(* ------------------------------------------------------------------ *)
(** ** Lists with one element less *)

Definition removed_one {A} (y : A) (l l' : list A) : Prop := exists a b, l = a ++ y :: b /\ l' = a ++ b.

#[local] Abbreviation without p l := (filter (fun i : Z => i <> p) (l : list Z)).

Lemma removed_one_absent {A} (y : A) a b l' : y ∉ a -> y ∉ b -> removed_one y (a ++ y :: b) l' -> l' = a ++ b.
Proof.
  intros Ha Hb (c & d & E & ->). revert c E. induction a as [|z a IH]; intros [|w c] E; simpl in *; simplify_eq.
  - done.
  - exfalso. apply Hb, elem_of_app. right. by left.
  - exfalso. apply Ha. by left.
  - f_equal. apply IH; [|done]. intros Hi. apply Ha. by right.
Qed.

Lemma without_absent (p : Z) l : p ∉ l -> without p l = l.
Proof.
  induction l as [|i l IH]; [done|]. rewrite elem_of_cons. intros Hp. rewrite filter_cons_True by (intros ->; tauto).
  rewrite IH; tauto.
Qed.

Lemma without_middle (p : Z) a b : NoDup (a ++ p :: b) -> without p (a ++ p :: b) = a ++ b.
Proof.
  intros Hn. apply NoDup_app in Hn as (_ & Ha & Hb). apply NoDup_cons in Hb as [Hb _]. rewrite filter_app, filter_cons_False by tauto.
  rewrite !without_absent; [done|done|]. intros Hp. apply (Ha p Hp). by left.
Qed.

Lemma elem_of_without (p i : Z) l : i ∈ without p l <-> i <> p /\ i ∈ l.
Proof. exact (list_elem_of_filter (fun i : Z => i <> p) l i). Qed.

Lemma without_cons (p : Z) l : NoDup l -> p ∈ l -> p :: without p l ≡ₚ l.
Proof. intros Hn (a & b & ->)%list_elem_of_split. rewrite without_middle by done. by rewrite Permutation_middle. Qed.

(** What is read off a list when an element of it is gone. *)
Lemma omap_without {B} (f f' : Z -> option B) (l : list Z) (p : Z) : NoDup l -> (forall i, i <> p -> f' i = f i) ->
  match f p with
  | Some y => p ∈ l -> removed_one y (omap f l) (omap f' (without p l))
  | None => True
  end /\ (p ∉ l -> omap f' (without p l) = omap f l).
Proof.
  intros Hn Hf. assert (forall l, p ∉ l -> omap f' l = omap f l) as Hs by (intros k Hk; apply omap_same; intros i Hi; apply Hf; by intros ->).
  split; [|intros Hp; rewrite without_absent by done; by apply Hs]. destruct (f p) as [y|] eqn:Ey; [|done].
  intros (a & b & ->)%list_elem_of_split. rewrite without_middle by done. exists (omap f a), (omap f b).
  apply NoDup_app in Hn as (_ & Ha & Hb). apply NoDup_cons in Hb as [Hb _]. rewrite !omap_app, (Hs a), (Hs b); [|done|].
  - split; [|done]. simpl. by rewrite Ey.
  - intros Hp. apply (Ha p Hp). by left.
Qed.

Lemma before_app prev (p : Z) a b : p ∉ a -> before prev p (a ++ p :: b) = match last a with None => prev | Some q => Some q end.
Proof.
  revert prev. induction a as [|i a IH]; intros prev Hp; cbn [before app]; [by rewrite decide_True|].
  rewrite decide_False by (intros ->; apply Hp; by left). rewrite IH by (intros Hi; apply Hp; by right). rewrite last_cons. by destruct (last a).
Qed.

(** A registration that stands on an interface that goes steps back; what it
    has yet to be told loses the interface. *)
Definition step_back (p : Z) (l : list Z) (n : PROTOCOL_NOTIFY) : PROTOCOL_NOTIFY :=
  if decide (Position n = Some p) then set_notify_position (before None p l) n else n.

Lemma step_back_address p l n : NotifyAddress (step_back p l n) = NotifyAddress n.
Proof. unfold step_back. by destruct (decide _). Qed.

Lemma rest_list_at k q r n : Position n = Some q -> NoDup (k ++ q :: r) -> rest_list n (k ++ q :: r) = r.
Proof. intros Hq Hn. unfold rest_list. rewrite Hq. by rewrite after_middle. Qed.

Lemma step_back_rest (p : Z) l n : NoDup l -> p ∈ l -> (forall q, Position n = Some q -> q ∈ l) ->
  rest_list (step_back p l n) (without p l) = without p (rest_list n l).
Proof.
  intros Hn (a & b & ->)%list_elem_of_split Hpos. rewrite without_middle by done. pose proof Hn as Hn0.
  apply NoDup_app in Hn0 as (Hna & Ha & Hb). apply NoDup_cons in Hb as [Hpb Hnb].
  assert (p ∉ a) as Hpa by (intros Hp; apply (Ha p Hp); by left).
  unfold step_back. destruct (decide (Position n = Some p)) as [Hp|Hp].
  - rewrite (rest_list_at a p b n) by done. rewrite without_absent by done. rewrite before_app by done.
    destruct (last a) as [q|] eqn:Eq; [|apply last_None in Eq as ->; done]. apply last_Some in Eq as [a' ->].
    rewrite <- app_assoc. apply rest_list_at; [done|]. change (q :: b) with ([q] ++ b). rewrite app_assoc. apply NoDup_app. split; [done|]. split; [|done].
    intros i Hi Hi2. apply (Ha i Hi). by right.
  - destruct (Position n) as [q|] eqn:Eq.
    2:{ unfold rest_list. rewrite Eq. by rewrite without_middle. }
    assert (NoDup (a ++ b)) as Hnab by (apply NoDup_app; split; [done|]; split; [intros i Hi Hi2; apply (Ha i Hi); by right|done]).
    specialize (Hpos q eq_refl). apply elem_of_app in Hpos as [Hq|Hq].
    + apply list_elem_of_split in Hq as (a1 & a2 & ->). rewrite <- app_assoc in Hn, Hnab |- *. rewrite <- app_assoc. cbn [app] in *.
      rewrite !(rest_list_at a1 q) by done. rewrite without_middle; [done|].
      apply NoDup_app in Hn as (_ & _ & Hn). by apply NoDup_cons in Hn as [_ Hn].
    + apply elem_of_cons in Hq as [->|Hq]; [done|]. apply list_elem_of_split in Hq as (b1 & b2 & ->).
      assert (a ++ p :: b1 ++ q :: b2 = (a ++ p :: b1) ++ q :: b2) as E1 by (by rewrite <- app_assoc).
      rewrite (app_assoc a b1) in *. rewrite E1 in *. rewrite !(rest_list_at _ q) by done. rewrite without_absent; [done|].
      intros Hp2. apply Hpb, elem_of_app. right. by right.
Qed.

Section removing.
Context {H : Type} `{HeapWf H}.
#[local] Abbreviation DB := (DATABASE H).
#[local] Abbreviation entries db := (mProtocolDatabase db).

(* ------------------------------------------------------------------ *)
(** ** The specification *)

(** One interface [x] of protocol [g] on handle [h] less. *)
Record removed (h : Z) (g : EFI_GUID) (x : Z) (db db' : DB) : Prop := {
  r_list : gHandleList db' = if decide (protocols db' h = []) then without h (gHandleList db) else gHandleList db;
  r_protocols : removed_one (g, x) (protocols db h) (protocols db' h) /\ forall h', h' <> h -> protocols db' h' = protocols db h';
  r_order : removed_one (h, x) (order db g) (order db' g) /\ forall g', g' <> g -> order db' g' = order db g';
  r_key : gHandleDatabaseKey db' = u64 (gHandleDatabaseKey db + 1);
  r_signalled : signalled db' = signalled db;
  r_registered : forall N, registered_for db' N = registered_for db N;
  r_pending : forall N, pending db' N = pending db N \/ registered_for db N = Some g /\ removed_one (h, x) (pending db N) (pending db' N);
}.

(* ------------------------------------------------------------------ *)
(** ** The link undone *)

Definition stand_back (p : Z) (E : PROTOCOL_ENTRY) : PROTOCOL_ENTRY :=
  set_by_protocol (without p (ByProtocolList E)) (set_notify (step_back p (ByProtocolList E) <$> Notify E) E).

(** An interface leaves its handle and its protocol. *)
Definition unlink_interface (h e p : Z) (db : DB) : DB :=
  update_handle h (fun I => set_protocols (without p (Protocols I)) I)
    (with_interfaces (delete p (interfaces db)) (update_entry e (stand_back p) db)).

Lemma entries_unlink h e p db : entries (unlink_interface h e p db) = entries (update_entry e (stand_back p) db).
Proof. done. Qed.

Lemma linked_unlink (db : DB) p P : linked None db -> interfaces db !! p = Some P ->
  linked (Some (HandleOf P)) (unlink_interface (HandleOf P) (ProtocolOf P) p db).
Proof.
  intros HL HP. pose proof (l_entry _ _ HL) as Hentry. pose proof (l_handle _ _ HL) as Hhandle.
  assert (forall i P0, i <> p -> delete p (interfaces db) !! i = Some P0 <-> interfaces db !! i = Some P0) as Hdel
    by (intros i P0 Hi; by rewrite lookup_delete_ne).
  assert (forall i P0, delete p (interfaces db) !! i = Some P0 -> i <> p /\ interfaces db !! i = Some P0) as Hdel2
    by (intros i P0 [? ?]%lookup_delete_Some; by split).
  destruct HL. constructor; try done.
  - intros h'. simpl. by rewrite lookup_alter_is_Some.
  - intros h'. simpl. by rewrite lookup_alter_is_Some.
  - simpl. destruct (decide (HandleOf P = 0)) as [E|]; [|by rewrite lookup_alter_ne]. destruct (l_handle_of p P HP) as [I HI]. rewrite E in HI. congruence.
  - simpl. intros h' I'. rewrite lookup_alter_Some. intros [(<- & I0 & _ & ->)|[Hne HI]]; [done|].
    intros En. by specialize (l_bare h' I' HI En).
  - simpl. intros h' I'. rewrite lookup_alter_Some. intros [(<- & I0 & HI & ->)|[Hne HI]]; [|by apply (l_protocols h')].
    simpl. apply NoDup_filter. by apply (l_protocols (HandleOf P)).
  - simpl. intros h' I' i. rewrite lookup_alter_Some. intros [(<- & I0 & HI & ->)|[Hne HI]]; simpl.
    + rewrite elem_of_without, (Hhandle _ I0 i HI). split; [intros (Hi & P0 & HP0 & EP); exists P0; by rewrite Hdel|].
      intros (P0 & [Hi HP0]%Hdel2 & EP). split; [done|by exists P0].
    + rewrite (Hhandle h' I' i HI). split; intros (P0 & HP0 & EP); exists P0; [|by apply Hdel2 in HP0 as [_ ?]].
      rewrite Hdel; [done|]. intros ->. simplify_eq.
  - simpl. intros i P0 [Hi HP0]%Hdel2. rewrite lookup_alter_is_Some. by apply (l_handle_of i).
  - rewrite entries_unlink. rewrite (update_entry_heads ProtocolID db (ProtocolOf P) (stand_back p)); done.
  - rewrite entries_unlink. rewrite (update_entry_heads EntryAddress db (ProtocolOf P) (stand_back p)); done.
  - intros E'. rewrite entries_unlink, (elem_of_update_entry db). intros (E0 & HE0 & ->). destruct (_ =? _); [|auto].
    simpl. apply NoDup_filter. auto.
  - intros E' i. rewrite entries_unlink, (elem_of_update_entry db). intros (E0 & HE0 & ->).
    destruct (Z.eqb_spec (EntryAddress E0) (ProtocolOf P)) as [EE|Hne]; simpl.
    + rewrite elem_of_without, (Hentry E0 i HE0). split; [intros (Hi & P0 & HP0 & EP); exists P0; by rewrite Hdel|].
      intros (P0 & [Hi HP0]%Hdel2 & EP). split; [done|by exists P0].
    + rewrite (Hentry E0 i HE0). split; intros (P0 & HP0 & EP); exists P0; [|by apply Hdel2 in HP0 as [_ ?]].
      rewrite Hdel; [done|]. intros ->. simplify_eq.
  - intros i P0 [Hi HP0]%Hdel2. destruct (l_protocol_of i P0 HP0) as (E0 & HE0 & EE0).
    eexists. split; [rewrite entries_unlink; apply (elem_of_update_entry db); by exists E0|]. by destruct (_ =? _).
  - intros E' n i. rewrite entries_unlink, (elem_of_update_entry db). intros (E0 & HE0 & ->).
    destruct (_ =? _); [|by apply (l_position E0)]. simpl. intros (n0 & -> & Hn0)%list_elem_of_fmap_1. rewrite elem_of_without.
    unfold step_back. destruct (decide (Position n0 = Some p)) as [Hp|Hp].
    + simpl. pose proof (l_position E0 n0 p HE0 Hn0 Hp) as Hin. pose proof (l_entries E0 HE0) as Hn.
      apply list_elem_of_split in Hin as (a & b & Eab). rewrite Eab in Hn |- *. apply NoDup_app in Hn as (_ & Ha & _).
      rewrite before_app by (intros Hpa; apply (Ha p Hpa); by left).
      destruct (last a) as [q|] eqn:Eq; [|done]. intros [= <-]. apply last_Some in Eq as [a' ->].
      assert (q ∈ a' ++ [q]) as Hq by (apply elem_of_app; right; by left). split; [|apply elem_of_app; by left].
      intros ->. apply (Ha p Hq). by left.
    + intros Hi. split; [congruence|by apply (l_position E0 n0)].
  - simpl. intros i P0 [Hi HP0]%Hdel2. by apply (l_count i).
  - simpl. intros h' I'. rewrite lookup_alter_Some. intros [(<- & I0 & HI & ->)|[Hne HI]]; [exact (l_request _ I0 HI)|by apply (l_request h')].
Qed.

Lemma owns_unlink X (db : DB) p P : owns X db -> interfaces db !! p = Some P -> OpenList P = [] ->
  owns (p :: X) (unlink_interface (HandleOf P) (ProtocolOf P) p db).
Proof.
  intros Ho HP HO. apply (owns_move X (p :: X) db); [|done|done]. unfold addresses.
  rewrite entries_unlink, update_entry_addresses.
  2:{ intros E. unfold entry_addresses. simpl. rewrite <- list_fmap_compose. f_equal. apply list_fmap_ext. intros j n _. simpl. by rewrite step_back_address. }
  simpl. rewrite (interfaces_delete (interfaces db) p P HP). unfold interface_addresses at 1. simpl. rewrite HO. simpl. solve_Permutation.
Qed.

Lemma unlink_reads (db : DB) h e p i : i <> p -> placed (unlink_interface h e p db) i = placed db i /\ named (unlink_interface h e p db) i = named db i.
Proof.
  intros Hi. unfold placed, named. simpl. rewrite lookup_delete_ne by done. split; [done|]. destruct (interfaces db !! i) as [P0|]; [|done].
  simpl. unfold entry_of. rewrite entries_unlink.
  pose proof (find_update_entry EntryAddress (fun a => a =? ProtocolOf P0) db e (stand_back p) ltac:(done)) as Ef.
  rewrite Ef. destruct (List.find _ (entries db)) as [E0|]; simpl; [by destruct (_ =? _)|done].
Qed.

Section unlinking.
Context (db : DB) (p : Z) (P : PROTOCOL_INTERFACE) (E : PROTOCOL_ENTRY).
Context (HL : linked None db) (HP : interfaces db !! p = Some P) (HE : E ∈ entries db) (EE : EntryAddress E = ProtocolOf P).
#[local] Abbreviation db' := (unlink_interface (HandleOf P) (ProtocolOf P) p db).
#[local] Abbreviation g := (ProtocolID E).

Lemma unlink_protocols : removed_one (g, InterfaceOf P) (protocols db (HandleOf P)) (protocols db' (HandleOf P)) /\
  forall h', h' <> HandleOf P -> protocols db' h' = protocols db h'.
Proof.
  split.
  - destruct (l_handle_of _ _ HL p P HP) as [I Hh]. unfold protocols. simpl. rewrite lookup_alter_eq, Hh. simpl.
    destruct (omap_without (named db) (named db') (Protocols I) p) as [Hr _]; [by apply (l_protocols _ _ HL (HandleOf P))|intros i Hi; by apply unlink_reads|].
    rewrite (named_interface None db p P E HL HP HE EE) in Hr. apply Hr. apply (l_handle _ _ HL _ I p Hh). by exists P.
  - intros h' Hne. unfold protocols. simpl. rewrite lookup_alter_ne by done. destruct (handles db !! h') as [I|] eqn:Hh; [|done].
    apply omap_same. intros i Hi. apply unlink_reads. intros ->. apply (l_handle _ _ HL _ I p Hh) in Hi as (P0 & HP0 & EP). congruence.
Qed.

Lemma unlink_order : removed_one (HandleOf P, InterfaceOf P) (order db g) (order db' g) /\
  forall g', g' <> g -> order db' g' = order db g'.
Proof.
  assert (forall g', find_guid g' db' = (fun E0 => if EntryAddress E0 =? ProtocolOf P then stand_back p E0 else E0) <$> find_guid g' db) as Hf.
  { intros g'. exact (find_update_entry ProtocolID (fun a => bool_decide (a = g')) db (ProtocolOf P) (stand_back p) ltac:(done)). }
  unfold order. split.
  - rewrite Hf. pose proof (find_guid_spec g db) as Hs. destruct (find_guid g db) as [E0|]; [|by destruct (Hs E HE)].
    destruct Hs as [HE0 EG]. assert (E0 = E) as -> by (by apply (nodup_fmap_inj ProtocolID (entries db)); [apply HL|..]).
    simpl. rewrite EE, Z.eqb_refl. simpl.
    destruct (omap_without (placed db) (placed db') (ByProtocolList E) p) as [Hr _]; [by apply (l_entries _ _ HL)|intros i Hi; by apply unlink_reads|].
    rewrite (placed_some db p P HP) in Hr. apply Hr. apply (l_entry _ _ HL E p HE). by exists P.
  - intros g' Hne. rewrite Hf. pose proof (find_guid_spec g' db) as Hs. destruct (find_guid g' db) as [E0|]; [|done].
    destruct Hs as [HE0 EG]. simpl. destruct (Z.eqb_spec (EntryAddress E0) (ProtocolOf P)) as [EE0|HEE].
    { rewrite (nodup_fmap_inj EntryAddress (entries db) E0 E) in EG; [congruence|apply HL|done|done|congruence]. }
    apply omap_same. intros i Hi. apply unlink_reads. intros ->. apply (l_entry _ _ HL E0 p HE0) in Hi as (P0 & HP0 & EP). congruence.
Qed.

Lemma unlink_registrations : (forall N, registered_for db' N = registered_for db N) /\
  (forall N, pending db' N = pending db N \/
     registered_for db N = Some g /\ removed_one (HandleOf P, InterfaceOf P) (pending db N) (pending db' N)).
Proof.
  assert (forall N, notify_of N db' = (fun En => if EntryAddress En.1 =? ProtocolOf P
    then (stand_back p En.1, step_back p (ByProtocolList En.1) En.2) else En) <$> notify_of N db) as Hn.
  { intros N. apply (notify_of_update db (ProtocolOf P) (stand_back p) (fun E0 => step_back p (ByProtocolList E0))); [done|].
    intros E0 n. apply step_back_address. }
  split; intros N.
  - unfold registered_for. rewrite Hn. destruct (notify_of N db) as [[E0 n]|]; [|done]. simpl. by destruct (_ =? _).
  - unfold pending, registered_for. rewrite Hn. destruct (notify_of N db) as [[E0 n]|] eqn:En; [|by left]. simpl.
    destruct (notify_of_spec _ _ _ _ En) as (HE0 & Hn0 & _).
    destruct (Z.eqb_spec (EntryAddress E0) (ProtocolOf P)) as [EE0|HEE]; simpl.
    + assert (E0 = E) as -> by (apply (nodup_fmap_inj EntryAddress (entries db)); [apply HL|done|done|congruence]).
      pose proof (l_entries _ _ HL E HE) as Hnd. assert (p ∈ ByProtocolList E) as Hp by (apply (l_entry _ _ HL E p HE); by exists P).
      assert (forall q, Position n = Some q -> q ∈ ByProtocolList E) as Hpos by (intros q; by apply (l_position _ _ HL E n q)).
      rewrite step_back_rest by done. destruct (rest_after_list n _ Hpos) as [_ [k Hk]].
      assert (NoDup (rest_list n (ByProtocolList E))) as Hnr by (rewrite Hk in Hnd; by apply NoDup_app in Hnd as (_ & _ & ?)).
      destruct (omap_without (placed db) (placed db') (rest_list n (ByProtocolList E)) p) as [Hr1 Hr2];
        [done|intros i Hi; by apply unlink_reads|].
      rewrite (placed_some db p P HP) in Hr1. destruct (decide (p ∈ rest_list n (ByProtocolList E))) as [Hin|Hin]; [right; by auto|left; by auto].
    + left. apply omap_same. intros i Hi. apply unlink_reads. intros ->.
      apply (rest_list_elem _ _ _ ltac:(intros q; by apply (l_position _ _ HL E0 n q))), (l_entry _ _ HL E0 p HE0) in Hi as (P0 & HP0 & EP). congruence.
Qed.
End unlinking.

(* ------------------------------------------------------------------ *)
(** ** The search for the interface *)

Lemma find_interface_spec (db : DB) e x l : (forall i, i ∈ l -> is_Some (interfaces db !! i)) ->
  exists r, find_interface e x l db = Done r /\
  match r with
  | Some p => p ∈ l /\ exists P, interfaces db !! p = Some P /\ InterfaceOf P = x /\ ProtocolOf P = e
  | None => forall i P, i ∈ l -> interfaces db !! i = Some P -> InterfaceOf P = x -> ProtocolOf P <> e
  end.
Proof.
  induction l as [|i l IH]; intros Hl; [exists None; split; [done|]; by intros i P Hi%elem_of_nil|]. cbn [find_interface].
  destruct (Hl i ltac:(by left)) as [P HP]. rewrite HP. cbn [deref]. mred. destruct (decide _) as [[Ex Ee]|Hn].
  - exists (Some i). split; [done|]. split; [by left|]. by exists P.
  - destruct IH as (r & -> & Hr); [intros j Hj; apply Hl; by right|]. exists r. split; [done|]. destruct r as [p|].
    + destruct Hr as [Hp Hr]. split; [by right|done].
    + intros j P0 [->|Hj]%elem_of_cons HP0 Ex; [|by apply (Hr j)]. intros Ee. apply Hn. by simplify_eq.
Qed.

Lemma CoreFindProtocolInterface_spec (db : DB) h g x : linked None db -> is_Some (handles db !! h) ->
  exists r, CoreFindProtocolInterface h g x db = Done r /\
  match r with
  | Some p => exists P E, interfaces db !! p = Some P /\ HandleOf P = h /\ InterfaceOf P = x /\
      E ∈ entries db /\ EntryAddress E = ProtocolOf P /\ ProtocolID E = g
  | None => (g, x) ∉ protocols db h
  end.
Proof.
  intros HL [T Hh]. unfold CoreFindProtocolInterface, CoreFindProtocolEntry.
  change (List.find (fun E => bool_decide (ProtocolID E = g)) (entries db)) with (find_guid g db).
  pose proof (find_guid_spec g db) as Hf. destruct (find_guid g db) as [E|]; cbn [fst].
  - destruct Hf as [HE EG]. rewrite Hh. cbn [deref]. mred.
    assert (forall i, i ∈ Protocols T -> exists P, interfaces db !! i = Some P /\ HandleOf P = h) as Hl.
    { intros i Hi. by apply (l_handle _ _ HL h T i Hh). }
    destruct (find_interface_spec db (EntryAddress E) x (Protocols T)) as (r & -> & Hr).
    { intros i Hi. destruct (Hl i Hi) as (P & HP & _). by exists P. }
    exists r. split; [done|]. destruct r as [p|].
    + destruct Hr as (Hp & P & HP & Ex & Ee). destruct (Hl p Hp) as (P0 & HP0 & Eh). exists P, E. by simplify_eq.
    + rewrite (elem_of_protocols None) by done. intros (i & P & E0 & HP & Eh & HE0 & EE0 & EG0 & Ex).
      assert (E0 = E) as -> by (apply (nodup_fmap_inj ProtocolID (entries db)); [apply HL|done|done|congruence]).
      apply (Hr i P); [|done|done|done]. apply (l_handle _ _ HL h T i Hh). by exists P.
  - exists None. split; [done|]. rewrite (elem_of_protocols None) by done. intros (i & P & E0 & _ & _ & HE0 & _ & EG & _). by destruct (Hf E0 HE0).
Qed.

Lemma CoreFindProtocolInterface_shape (db db' : DB) h g x : handles db' = handles db -> entries db' = entries db ->
  (forall i, interface_head <$> interfaces db' !! i = interface_head <$> interfaces db !! i) ->
  CoreFindProtocolInterface h g x db' = CoreFindProtocolInterface h g x db.
Proof.
  intros Eh Ee Hi. unfold CoreFindProtocolInterface, CoreFindProtocolEntry. rewrite Eh, Ee.
  destruct (List.find _ (entries db)) as [E|]; [|done]. cbn [fst]. destruct (handles db !! h) as [I|]; [|done]. cbn [deref]. mred.
  induction (Protocols I) as [|i l IH]; [done|]. cbn [find_interface]. specialize (Hi i).
  destruct (interfaces db' !! i) as [P'|], (interfaces db !! i) as [P|]; try done. cbn [deref]. mred. simpl in Hi. unfold interface_head in Hi.
  simplify_eq. replace (InterfaceOf P') with (InterfaceOf P) by congruence. replace (ProtocolOf P') with (ProtocolOf P) by congruence.
  by destruct (decide _).
Qed.

(* ------------------------------------------------------------------ *)
(** ** The handle goes with its last protocol *)

Lemma linked_bare (db : DB) h : linked (Some h) db -> (forall I, handles db !! h = Some I -> Protocols I <> []) -> linked None db.
Proof.
  intros HL Hn. destruct HL. constructor; try done. intros h' I Hh E. pose proof (l_bare h' I Hh E) as [= ->]. by destruct (Hn I).
Qed.

Lemma drop_handle_ok X (db : DB) h I : owns X db -> linked (Some h) db -> handles db !! h = Some I -> Protocols I = [] ->
  exists db', drop_handle h db = Done db' /\ owns X db' /\ linked None db' /\ gHandleList db' = without h (gHandleList db) /\
    (forall h', protocols db' h' = protocols db h') /\ entries db' = entries db /\ interfaces db' = interfaces db /\
    gHandleDatabaseKey db' = gHandleDatabaseKey db /\ signalled db' = signalled db.
Proof.
  intros Ho HL Hh EI. destruct (proj2 (l_ordered _ _ HL h)) as [node Hnode]; [by eexists|].
  assert (h ∈ gHandleList db) as Hin by (apply (l_dom _ _ HL); by eexists).
  set (db0 := with_handles (delete h (handles db)) (with_list (without h (gHandleList db)) (with_ordered (delete h (gOrderedHandleList db)) db))).
  assert (forall i P, interfaces db !! i = Some P -> HandleOf P <> h) as Hne.
  { intros i P HP EP. assert (i ∈ Protocols I) as Hi by (apply (l_handle _ _ HL h I i Hh); by exists P). rewrite EI in Hi. by apply elem_of_nil in Hi. }
  exists (db_free h (db_free node db0)). split; [unfold drop_handle; by rewrite Hnode|]. split; [|split].
  - apply owns_free, owns_free. apply (owns_move X _ db); [|done|done]. unfold addresses. simpl.
    rewrite <- (without_cons h (gHandleList db)) at 1 by (done || apply HL).
    rewrite <- (map_to_list_delete (gOrderedHandleList db) h node Hnode) at 1. simpl. solve_Permutation.
  - do 2 apply linked_heap. destruct HL. constructor; simpl; try done.
    + by apply NoDup_filter.
    + intros h'. rewrite elem_of_without, l_dom, lookup_delete_is_Some. split; intros [? ?]; auto.
    + intros h'. rewrite !lookup_delete_is_Some. by rewrite l_ordered.
    + by apply lookup_delete_None; right.
    + intros h' I' [Hn HI]%lookup_delete_Some E. pose proof (l_bare h' I' HI E). congruence.
    + intros h' I' [Hn HI]%lookup_delete_Some. by apply (l_protocols h').
    + intros h' I' i [Hn HI]%lookup_delete_Some. by apply l_handle.
    + intros i P HP. rewrite lookup_delete_is_Some. split; [intros E; by apply (Hne i P)|by apply (l_handle_of i)].
    + intros h' I' [Hn HI]%lookup_delete_Some. by apply (l_request h').
  - split; [done|]. split; [|done]. intros h'. unfold protocols. simpl. destruct (decide (h' = h)) as [->|].
    + by rewrite lookup_delete_eq, Hh, EI.
    + by rewrite lookup_delete_ne.
Qed.

(* ------------------------------------------------------------------ *)
(** ** The count of what is left *)

Lemma NoDup_range_length (n : Z) (l : list Z) : 0 <= n -> NoDup l -> (forall a, a ∈ l -> 0 < a <= n) -> Z.of_nat (length l) <= n.
Proof.
  intros Hn Hl Ha. assert (l ⊆+ seqZ 1 n) as Hs.
  { apply NoDup_submseteq; [done|]. intros a Hi. apply elem_of_seqZ. specialize (Ha a Hi). lia. }
  apply submseteq_length in Hs. rewrite length_seqZ in Hs. lia.
Qed.

(** The counter of open records cannot run over: each is a block. *)
Lemma open_count_pos (db : DB) p P : db_ok db -> interfaces db !! p = Some P -> (0 <? OpenListCount P) = negb (bool_decide (OpenList P = [])).
Proof.
  intros [Ho HL] HP. rewrite (l_count _ _ HL p P HP).
  assert (Z.of_nat (length (p :: (OpenAddress <$> OpenList P))) <= 2 ^ 64) as Hlen.
  { assert (interface_addresses (p, P) ⊆+ addresses db) as Hs.
    { unfold addresses. rewrite (interfaces_delete (interfaces db) p P HP). do 3 apply submseteq_inserts_l. apply submseteq_inserts_r. done. }
    apply NoDup_range_length; [lia| |].
    - destruct Ho as (_ & Hn & _). apply submseteq_Permutation in Hs as [k Hs]. simpl in Hn. rewrite Hs in Hn. by apply NoDup_app in Hn as [? _].
    - intros a Ha. assert (a ∈ addresses db) as Ha2.
      { apply submseteq_Permutation in Hs as [k Hs]. rewrite Hs. apply elem_of_app. by left. }
      pose proof (owns_range [] db a Ho Ha2). lia. }
  simpl in Hlen. rewrite length_fmap in Hlen. rewrite u64_id by lia. destruct (OpenList P) as [|D l].
  - by rewrite bool_decide_eq_true_2.
  - rewrite bool_decide_eq_false_2 by done. apply Z.ltb_lt. simpl. lia.
Qed.

(* ------------------------------------------------------------------ *)
(** ** The removal *)

(** What follows when nobody holds the interface any more. *)
Definition uninstall_tail (h : Z) (g : EFI_GUID) (x : Z) (db : DB) : outcome (Z * DB) :=
  '(r, db) ← CoreRemoveInterfaceFromProtocol h g x db;
  '(Status, db) ←
    (match r with
     | None => mret (EFI_NOT_FOUND, db)
     | Some Prot =>
         db ← next_key h db;
         I ← deref (handles db !! h);
         mret (EFI_SUCCESS, db_free Prot (with_interfaces (delete Prot (interfaces db))
           (update_handle h (set_protocols (filter (fun i => i <> Prot) (Protocols I))) db)))
     end);
  I ← deref (handles db !! h);
  db ← (if decide (Protocols I = []) then drop_handle h db else mret db);
  mret (Status, db).

Lemma update_handle_one (db : DB) h f f' I : handles db !! h = Some I -> f I = f' I -> update_handle h f db = update_handle h f' db.
Proof.
  intros Hh Hf. unfold update_handle, with_handles. f_equal. apply map_eq. intros j. destruct (decide (h = j)) as [<-|].
  - rewrite !lookup_alter_eq, Hh. simpl. by rewrite Hf.
  - by rewrite !lookup_alter_ne.
Qed.

(** The interface is unlinked and given back. *)
Lemma remove_interface_ok (db : DB) p P E : db_ok db -> interfaces db !! p = Some P -> OpenList P = [] ->
  E ∈ entries db -> EntryAddress E = ProtocolOf P ->
  CoreFindProtocolInterface (HandleOf P) (ProtocolID E) (InterfaceOf P) db = Done (Some p) ->
  let h := HandleOf P in
  let k := u64 (gHandleDatabaseKey db + 1) in
  let db1 := update_handle h (set_handle_key k) (with_key k db) in
  let db2 := db_free p (unlink_interface h (ProtocolOf P) p db1) in
  uninstall_tail h (ProtocolID E) (InterfaceOf P) db =
    (I ← deref (handles db2 !! h); db ← (if decide (Protocols I = []) then drop_handle h db2 else mret db2); mret (EFI_SUCCESS, db)) /\
  owns [] db2 /\ linked (Some h) db2 /\ is_Some (handles db2 !! h) /\ gHandleList db2 = gHandleList db /\
  gHandleDatabaseKey db2 = u64 (gHandleDatabaseKey db + 1) /\ signalled db2 = signalled db /\
  (removed_one (ProtocolID E, InterfaceOf P) (protocols db h) (protocols db2 h) /\ forall h', h' <> h -> protocols db2 h' = protocols db h') /\
  (removed_one (h, InterfaceOf P) (order db (ProtocolID E)) (order db2 (ProtocolID E)) /\ forall g', g' <> ProtocolID E -> order db2 g' = order db g') /\
  (forall N, registered_for db2 N = registered_for db N) /\
  (forall N, pending db2 N = pending db N \/
     registered_for db N = Some (ProtocolID E) /\ removed_one (h, InterfaceOf P) (pending db N) (pending db2 N)).
Proof.
  intros [Ho HL] HP HO HE EE Hfind h k db1 db2. assert (exists I, handles db !! h = Some I) as [I Hh] by exact (l_handle_of _ _ HL p P HP).
  destruct (next_key_ok None [] db h I Ho HL Hh) as (Ek & Ho1 & HL1 & Hs1 & Hh1). fold k db1 in Ek, Ho1, HL1, Hs1, Hh1.
  split.
  { unfold uninstall_tail, CoreRemoveInterfaceFromProtocol. fold h in Hfind. rewrite Hfind. mred. rewrite HP. cbn [deref]. mred.
    rewrite (proj2 (entry_of_iff None db (ProtocolOf P) E HL)) by done. cbn [deref]. mred. rewrite <- EE.
    rewrite (update_entry_one None db E _ (stand_back p) HL HE) by done.
    set (dbu := update_entry (EntryAddress E) (stand_back p) db).
    assert (next_key h dbu = Done (update_handle h (set_handle_key k) (with_key k dbu))) as -> by (unfold next_key; change (handles dbu) with (handles db); by rewrite Hh). mred.
    assert (handles (update_handle h (set_handle_key k) (with_key k dbu)) !! h = Some (set_handle_key k I)) as Hk
      by (simpl; by rewrite lookup_alter_eq, Hh). rewrite Hk. cbn [deref]. mred.
    match goal with |- context [deref (handles ?x !! h) ≫= _ = _] => assert (x = db2) as ->; [|done] end.
    rewrite (update_handle_one (update_handle h (set_handle_key k) (with_key k dbu)) h _ (fun I => set_protocols (without p (Protocols I)) I) (set_handle_key k I)); [|exact Hk|done].
    unfold db2, dbu. by rewrite EE. }
  pose proof (same_shape_view _ _ Hs1) as [_ Vp Vo]. pose proof (same_registrations db db1 eq_refl (shape_placed _ _ Hs1)) as Vr.
  split; [by apply owns_free, owns_unlink|]. split; [by apply linked_heap, linked_unlink|].
  split; [simpl; rewrite lookup_alter_is_Some; by eexists|]. do 3 (split; [done|]).
  split; [|split; [|split]].
  - destruct (unlink_protocols db1 p P E HL1 HP HE EE) as [Hr Hn]. rewrite !Vp in Hr. split; [exact Hr|].
    intros h' Hne. etrans; [exact (Hn h' Hne)|apply Vp].
  - destruct (unlink_order db1 p P E HL1 HP HE EE) as [Hr Hn]. rewrite !Vo in Hr. split; [exact Hr|].
    intros g' Hne. etrans; [exact (Hn g' Hne)|apply Vo].
  - intros N. etrans; [exact (proj1 (unlink_registrations db1 p P E HL1 HP HE EE) N)|apply Vr].
  - intros N. destruct (proj2 (unlink_registrations db1 p P E HL1 HP HE EE) N) as [Hr|[Hr1 Hr2]]; [left; etrans; [exact Hr|apply Vr]|right].
    destruct (Vr N) as [Vr1 Vr2]. rewrite Vr1 in Hr1. rewrite Vr2 in Hr2. by split.
Qed.

Lemma protocols_nonempty bare (db : DB) h I : linked bare db -> handles db !! h = Some I -> Protocols I <> [] -> protocols db h <> [].
Proof.
  intros HL Hh EI E0. assert (forall i, i ∈ Protocols I -> is_Some (named db i)) as Hn.
  { intros i Hi. apply (l_handle _ _ HL h I i Hh) in Hi as (P0 & HP0 & _). destruct (l_protocol_of _ _ HL i P0 HP0) as (E1 & HE1 & EE1).
    exists (ProtocolID E1, InterfaceOf P0). by apply (named_interface bare). }
  unfold protocols in E0. rewrite Hh in E0. destruct (Protocols I) as [|i l]; [done|]. destruct (Hn i ltac:(by left)) as [y Ey].
  cbn [omap list_omap] in E0. by rewrite Ey in E0.
Qed.

Lemma protocols_listed (db : DB) h : linked None db -> protocols db h <> [] <-> h ∈ gHandleList db.
Proof.
  intros HL. rewrite (l_dom _ _ HL). split.
  - unfold protocols. destruct (handles db !! h); [by eexists|done].
  - intros [I Hh]. apply (protocols_nonempty None db h I HL Hh). intros E. by pose proof (l_bare _ _ HL h I Hh E).
Qed.

Lemma uninstall_tail_ok (db : DB) p P E : db_ok db -> interfaces db !! p = Some P -> OpenList P = [] ->
  E ∈ entries db -> EntryAddress E = ProtocolOf P ->
  CoreFindProtocolInterface (HandleOf P) (ProtocolID E) (InterfaceOf P) db = Done (Some p) ->
  exists db', uninstall_tail (HandleOf P) (ProtocolID E) (InterfaceOf P) db = Done (EFI_SUCCESS, db') /\ db_ok db' /\
    removed (HandleOf P) (ProtocolID E) (InterfaceOf P) db db'.
Proof.
  intros Hok HP HO HE EE Hfind.
  destruct (remove_interface_ok db p P E Hok HP HO HE EE Hfind) as (-> & Ho2 & HL2 & [I Hh] & El & Ek & Es & [Hp1 Hp2] & [Hor1 Hor2] & Hr & Hpe).
  set (db2 := db_free p _) in *. set (h := HandleOf P) in *. rewrite Hh. cbn [deref]. mred. destruct (decide (Protocols I = [])) as [EI|EI].
  - destruct (drop_handle_ok [] db2 h I Ho2 HL2 Hh EI) as (db3 & -> & Ho3 & HL3 & El3 & Ep3 & Ee3 & Ei3 & Ek3 & Es3). mred.
    assert (forall i, placed db3 i = placed db2 i) as Hpl by (intros i; unfold placed; by rewrite Ei3).
    pose proof (same_registrations db2 db3 Ee3 Hpl) as Hr3.
    assert (forall g, order db3 g = order db2 g) as Eo3.
    { intros g. unfold order, find_guid. rewrite Ee3. destruct (List.find _ _); [|done]. by apply omap_same. }
    assert (protocols db3 h = []) as E0 by (rewrite Ep3; unfold protocols; rewrite Hh, EI; done).
    exists db3. split; [done|]. split; [done|]. constructor.
    + rewrite decide_True by done. by rewrite El3, El.
    + split; [by rewrite Ep3|]. intros h' Hne. rewrite Ep3. by apply Hp2.
    + split; [by rewrite Eo3|]. intros g' Hne. rewrite Eo3. by apply Hor2.
    + by rewrite Ek3.
    + by rewrite Es3.
    + intros N. destruct (Hr3 N) as [-> _]. apply Hr.
    + intros N. destruct (Hr3 N) as [_ ->]. apply Hpe.
  - mred. exists db2. split; [done|]. split; [split; [done|]|].
    + apply (linked_bare db2 h); [done|]. intros I' HI'. by simplify_eq.
    + constructor; try done. rewrite decide_False; [done|]. by apply (protocols_nonempty (Some h) db2 h I).
Qed.
End removing.

Section services.
Context {H : Type} `{HeapWf H}.
#[local] Abbreviation DB := (DATABASE H).
Context (connect : Z -> DB -> DB) (disconnect : Z -> Z -> DB -> Z * DB) (fuel : nat).

(** No driver has opened a protocol of the handle. *)
Definition undriven (h : Z) (db : DB) : Prop := forall p P, interfaces db !! p = Some P -> HandleOf P = h ->
  forall D, D ∈ OpenList P -> opened_by_driver D = false.

(** The records of calls that need no closing are dropped; if others are left
    the interface stays. *)
Lemma disconnect_undriven (db : DB) p P : db_ok db -> interfaces db !! p = Some P -> undriven (HandleOf P) db ->
  exists db1, db_ok db1 /\ unseen db db1 /\ handles db1 = handles db /\ mProtocolDatabase db1 = mProtocolDatabase db /\
    (forall i, interface_head <$> interfaces db1 !! i = interface_head <$> interfaces db !! i) /\
    interfaces db1 !! p = Some (set_open_list (filter (fun D => passing D = false) (OpenList P))
      (u64 (Z.of_nat (length (filter (fun D => passing D = false) (OpenList P))))) P) /\
    CoreDisconnectControllersUsingProtocolInterface connect disconnect (S fuel) (HandleOf P) p db =
      Done (if bool_decide (filter (fun D => passing D = false) (OpenList P) = []) then (EFI_SUCCESS, db1)
            else (EFI_ACCESS_DENIED, connect (HandleOf P) db1)).
Proof.
  intros [Ho HL] HP Hd. unfold CoreDisconnectControllersUsingProtocolInterface. cbn [disconnect_all]. rewrite HP. cbn [deref]. mred.
  assert (List.find opened_by_driver (OpenList P) = None) as ->.
  { destruct (List.find _ _) as [D|] eqn:Ef; [|done]. apply List.find_some in Ef as [Hi Hb]. apply list_elem_of_In in Hi.
    by rewrite (Hd p P HP eq_refl D Hi) in Hb. }
  mred. change (EFI_ERROR EFI_SUCCESS) with false. cbn iota. unfold drop_passing. rewrite HP. cbn [deref]. mred.
  destruct (drop_records None [] db p P passing Ho HL HP) as (Ho1 & HL1 & Hs & Eh & Ee & Ek & Es & EI).
  set (db1 := foldr _ _ _) in *.
  assert (interfaces db1 !! p = Some (set_open_list (filter (fun D => passing D = false) (OpenList P))
      (u64 (Z.of_nat (length (filter (fun D => passing D = false) (OpenList P))))) P)) as HP1 by (by rewrite EI, lookup_alter_eq, HP).
  exists db1. split; [done|]. split.
  { pose proof (same_registrations db db1 Ee (shape_placed _ _ Hs)) as Hr. constructor; [by apply same_shape_view|done|done|intros N; apply Hr|intros N; apply Hr|].
    intros g. unfold registered, find_guid. by rewrite Ee. }
  split; [done|]. split; [done|]. split; [apply Hs|]. split; [done|].
  rewrite HP1. cbn [deref]. mred. change (EFI_ERROR EFI_SUCCESS) with false. cbn [orb].
  rewrite (open_count_pos db1 p _ (conj Ho1 HL1) HP1). cbn [set_open_list OpenList]. by destruct (bool_decide _).
Qed.

(** Removing an interface, when no driver has the handle open. *)
Lemma CoreUninstall_ok (db : DB) h g x : db_ok db -> undriven h db ->
  exists Status db', CoreUninstallProtocolInterface connect disconnect (S fuel) h (Some g) x db = Done (Status, db') /\
    ((Status = EFI_INVALID_PARAMETER /\ (h ∉ gHandleList db) /\ db' = db) \/
     (Status = EFI_NOT_FOUND /\ h ∈ gHandleList db /\ ((g, x) ∉ protocols db h) /\ db' = db) \/
     ((g, x) ∈ protocols db h /\ exists p P, interfaces db !! p = Some P /\ HandleOf P = h /\ InterfaceOf P = x /\
       ((Status = EFI_SUCCESS /\ db_ok db' /\ removed h g x db db' /\ forall D, D ∈ OpenList P -> passing D = true) \/
        (Status = EFI_ACCESS_DENIED /\ (exists D, D ∈ OpenList P /\ passing D = false) /\
         exists db1, db_ok db1 /\ unseen db db1 /\ db' = connect h db1)))).
Proof.
  intros Hok Hd. pose proof Hok as [_ HL]. unfold CoreUninstallProtocolInterface. rewrite (CoreValidateHandle_ok db) by done.
  destruct (bool_decide (is_Some (handles db !! h))) eqn:Eh.
  2:{ apply bool_decide_eq_false in Eh. exists EFI_INVALID_PARAMETER, db. split; [done|]. left. split; [done|]. split; [|done]. by rewrite (l_dom _ _ HL). }
  apply bool_decide_eq_true in Eh. change (EFI_ERROR EFI_SUCCESS) with false. cbn iota.
  destruct (CoreFindProtocolInterface_spec db h g x HL Eh) as (r & Efind & Hr). rewrite Efind. mred. destruct r as [p|].
  2:{ exists EFI_NOT_FOUND, db. split; [done|]. right. left. split; [done|]. split; [by apply (l_dom _ _ HL)|done]. }
  destruct Hr as (P & E & HP & <- & <- & HE & EE & <-).
  destruct (disconnect_undriven db p P Hok HP Hd) as (db1 & Hok1 & Hu & Eh1 & Ee1 & Hheads & HP1 & ->). mred.
  assert ((ProtocolID E, InterfaceOf P) ∈ protocols db (HandleOf P)) as Hin by (apply (elem_of_protocols None); [done|by exists p, P, E]).
  pose proof (fun D => list_elem_of_filter (fun D => passing D = false) (OpenList P) D) as Hel.
  destruct (bool_decide _) eqn:Eb.
  - apply bool_decide_eq_true in Eb. mred. change (EFI_ERROR EFI_SUCCESS) with false. cbn iota. rewrite Eb in *.
    destruct (uninstall_tail_ok db1 p _ E Hok1 HP1 eq_refl) as (db2 & Erun & Hok2 & Hrem); [by rewrite Ee1|done| |].
    { rewrite <- Efind. by apply CoreFindProtocolInterface_shape. }
    exists EFI_SUCCESS, db2. split; [exact Erun|]. right. right. split; [done|]. exists p, P. do 3 (split; [done|]). left.
    split; [done|]. split; [done|]. split.
    + destruct Hu as [[Vl Vp Vo] Vk Vs Vr Vpe _], Hrem as [R1 [R2 R2'] [R3 R3'] R4 R5 R6 R7]. cbn [set_open_list HandleOf InterfaceOf] in *. constructor.
      * by rewrite R1, Vl.
      * split; [by rewrite <- Vp|]. intros h' Hne. by rewrite R2'.
      * split; [by rewrite <- Vo|]. intros g' Hne. by rewrite R3'.
      * by rewrite R4, Vk.
      * by rewrite R5.
      * intros N. by rewrite R6.
      * intros N. destruct (R7 N) as [R|[Ra Rb]]; [left; by rewrite R|right]. by rewrite <- Vr, <- Vpe.
    + intros D HD. destruct (passing D) eqn:Ep; [done|]. by destruct (proj1 (elem_of_nil D) (proj2 (Hel D) (conj Ep HD))).
  - apply bool_decide_eq_false in Eb. exists EFI_ACCESS_DENIED, (connect (HandleOf P) db1). split; [done|]. right. right.
    split; [done|]. exists p, P. do 3 (split; [done|]). right. split; [done|]. split; [|by exists db1].
    destruct (filter (fun D => passing D = false) (OpenList P)) as [|D0 l]; [done|]. exists D0. destruct (proj1 (Hel D0)) as [? ?]; [by left|done].
Qed.
End services.

Section lost.
Context {H : Type} `{HeapWf H}.
#[local] Abbreviation DB := (DATABASE H).

(** Nothing is installed on a handle that is gone. *)
Lemma install_on_lost disconnect dxe fuel (db : DB) h g x : db_ok db -> h <> 0 -> h ∉ gHandleList db ->
  exists Status db', CoreInstallProtocolInterface disconnect dxe fuel (Some h) (Some g) EFI_NATIVE_INTERFACE x db = Done (Status, Some h, db') /\
    EFI_ERROR Status = true /\ db_ok db' /\ unseen db db'.
Proof.
  intros Hok Hne Hh. pose proof Hok as [_ HL]. unfold CoreInstallProtocolInterface, CoreInstallProtocolInterfaceNotify.
  rewrite (decide_False (P := EFI_NATIVE_INTERFACE <> _)) by (intros Hn; by apply Hn). rewrite (decide_True (P := h <> 0)) by done.
  assert (CoreHandleProtocol disconnect dxe fuel h (Some g) true db = Done (EFI_INVALID_PARAMETER, None, db)) as ->.
  { unfold CoreHandleProtocol, CoreOpenProtocol. cbn [negb andb].
    assert (open_check h dxe 0 EFI_OPEN_PROTOCOL_BY_HANDLE_PROTOCOL db = EFI_INVALID_PARAMETER) as ->.
    { unfold open_check. rewrite !CoreValidateHandle_ok by done. rewrite bool_decide_eq_false_2 by (by rewrite <- (l_dom _ _ HL)). done. }
    by rewrite andb_false_r. }
  mred. rewrite decide_False by (by intros [_ ?]).
  destruct (install_tail_ok db h g EFI_INVALID_PARAMETER x true Hok ltac:(done)) as (S & h' & db' & E & Hok' & Hc).
  destruct Hc as [(-> & _ & _ & Hi & _)|(HE & -> & Hu & _)]; [by destruct (Hi Hne) as [-> ?]|].
  by exists S, db'.
Qed.
End lost.

(* ------------------------------------------------------------------ *)
(** ** Properties *)

(** C17: [CoreUninstallProtocolInterface] on a handle no driver has open:
    handles and interfaces that are not in the database are refused; an
    interface that only calls which need no closing have open leaves its
    handle, its protocol and what the registrations have yet to be told, and
    the handle goes with its last protocol; if anyone else has the interface
    open, nothing a client sees changes before the drivers are connected
    again. *)
Theorem CoreUninstallProtocolInterface_correct {H} `{HeapWf H} (connect : Z -> DATABASE H -> DATABASE H)
    (disconnect : Z -> Z -> DATABASE H -> Z * DATABASE H) (fuel : nat) (db : DATABASE H) (h : Z) (g : EFI_GUID) (x : Z) :
  db_ok db -> undriven h db ->
  exists Status db', CoreUninstallProtocolInterface connect disconnect (S fuel) h (Some g) x db = Done (Status, db') /\
    ((Status = EFI_INVALID_PARAMETER /\ (h ∉ gHandleList db) /\ db' = db) \/
     (Status = EFI_NOT_FOUND /\ h ∈ gHandleList db /\ ((g, x) ∉ protocols db h) /\ db' = db) \/
     ((g, x) ∈ protocols db h /\ exists p P, interfaces db !! p = Some P /\ HandleOf P = h /\ InterfaceOf P = x /\
       ((Status = EFI_SUCCESS /\ db_ok db' /\ removed h g x db db' /\ forall D, D ∈ OpenList P -> passing D = true) \/
        (Status = EFI_ACCESS_DENIED /\ (exists D, D ∈ OpenList P /\ passing D = false) /\
         exists db1, db_ok db1 /\ unseen db db1 /\ db' = connect h db1)))).
Proof. intros Hok Hd. by apply CoreUninstall_ok. Qed.

(** C19: A protocol is installed on a sound database, on a new handle or on
    one that does not have it; then its interface is opened, if at all, by
    calls that need no closing (by handle protocol, get and test), while no
    driver has anything on the handle open, and nothing but open records
    changes ([only_opens]); then it is removed.  The removal succeeds and leaves the
    handles, their protocols and the order of every protocol as they were
    before the installation; a handle that was made for it is gone. *)
Theorem InstallUninstall_roundtrip {H} `{HeapWf H} (connect : Z -> DATABASE H -> DATABASE H)
    (disconnect : Z -> Z -> DATABASE H -> Z * DATABASE H) (dxe : Z) (fuel : nat) (db db1 db2 : DATABASE H) (h0 h : Z) (g : EFI_GUID) (x : Z) :
  disconnect_ok disconnect -> db_ok db -> rounds_ok (S fuel) db -> ~ rejected h0 g db ->
  CoreInstallProtocolInterface disconnect dxe (S fuel) (Some h0) (Some g) EFI_NATIVE_INTERFACE x db = Done (EFI_SUCCESS, Some h, db1) ->
  db_ok db2 -> only_opens db1 db2 -> undriven h db2 ->
  (forall p P D, interfaces db2 !! p = Some P -> HandleOf P = h -> InterfaceOf P = x -> D ∈ OpenList P -> passing D = true) ->
  exists db3, CoreUninstallProtocolInterface connect disconnect (S fuel) h (Some g) x db2 = Done (EFI_SUCCESS, db3) /\ db_ok db3 /\ same_view db db3.
Proof.
  intros Hd Hok Hf Hrej Erun Hok2 Hoo Hu Hp. pose proof Hok as [_ HL].
  destruct (CoreInstall_ok disconnect Hd dxe (S fuel) db h0 g x true Hok Hf) as (S1 & h1 & db1' & E1 & Hok1 & Hc).
  unfold CoreInstallProtocolInterface in Erun. rewrite E1 in Erun. apply Done_inj in Erun. injection Erun as -> -> ->.
  destruct Hc as [[(_ & [J1 J2 J3 _ _ _] & _ & Hi1 & Hi2) _]|(HE & _)]; [|done].
  pose proof (u_view _ _ (only_opens_unseen _ _ Hoo)) as [Vl Vp Vo]. rewrite <- Vl in J1. setoid_rewrite <- Vp in J2. setoid_rewrite <- Vo in J3.
  clear E1 Vl Vp Vo Hoo. revert J1 J2 J3. intros I1 I2 I3.
  assert (forall y, (g, y) ∉ protocols db h) as Hnew.
  { intros y Hy. destruct (decide (h0 = 0)) as [E0|E0].
    - destruct (Hi2 E0) as [_ Hn]. apply Hn, (protocols_listed db h HL). intros E. rewrite E in Hy. by apply elem_of_nil in Hy.
    - destruct (Hi1 E0) as [-> _]. apply Hrej. split; [done|]. right. intros E. by apply (proj1 (lookup_protocol_None g _) E) in Hy. }
  assert ((g, x) ∈ protocols db2 h) as Hin by (rewrite I2, decide_True by done; by left).
  destruct (CoreUninstall_ok connect disconnect fuel db2 h g x Hok2 Hu) as (S2 & db3 & -> & Hc2).
  destruct Hc2 as [(_ & Hn & _)|[(_ & _ & Hn & _)|(_ & p & P & HP & EP & EX & [(-> & Hok3 & [R1 [R2 R2'] [R3 R3'] _ _ _ _] & _)|(_ & (D & HD & Ep) & _)])]].
  - exfalso. apply Hn, (protocols_listed db2 h); [apply Hok2|]. intros E. rewrite E in Hin. by apply elem_of_nil in Hin.
  - done.
  - exists db3. split; [done|]. split; [done|].
    assert (protocols db3 h = protocols db h) as E2.
    { rewrite I2, decide_True in R2 by done. by apply (removed_one_absent (g, x) [] (protocols db h)); [apply not_elem_of_nil|apply Hnew|]. }
    constructor.
    + rewrite R1, I1, E2. destruct (decide (h ∈ gHandleList db)) as [Hh|Hh].
      * rewrite decide_False by (by apply (protocols_listed db h HL)). by rewrite app_nil_r.
      * rewrite decide_True.
        -- rewrite filter_app, filter_cons_False by tauto. simpl. rewrite app_nil_r. by apply without_absent.
        -- destruct (decide (protocols db h = [])) as [|Hne]; [done|]. by apply (protocols_listed db h HL) in Hne.
    + intros h'. destruct (decide (h' = h)) as [->|Hne]; [done|]. by rewrite R2', I2, decide_False.
    + intros g'. destruct (decide (g' = g)) as [->|Hne].
      * rewrite I3, decide_True in R3 by done. rewrite <- (app_nil_r (order db g)).
        apply (removed_one_absent (h, x)); [|apply not_elem_of_nil|done]. intros Ho. by apply (elem_of_order None), Hnew in Ho.
      * by rewrite R3', I3, decide_False.
  - by rewrite (Hp p P D HP EP EX HD) in Ep.
Qed.

(** C35: [CoreUninstallMultipleProtocolInterfaces] on a sound database and a
    handle whose only protocol comes before one that is not there, when no
    driver has the handle open and no record of the interface stands in the
    way of its removal (all are of calls that need no closing): the call fails, but the
    handle went with its protocol, so putting the protocol back is refused and
    both stay lost. *)
Theorem CoreUninstallMultiple_loses_handle {H} `{HeapWf H} (connect : Z -> DATABASE H -> DATABASE H)
    (disconnect : Z -> Z -> DATABASE H -> Z * DATABASE H) (dxe : Z) (fuel : nat) (db : DATABASE H) (h : Z) (g g' : EFI_GUID) (x y : Z) :
  db_ok db -> undriven h db -> protocols db h = [(g, x)] ->
  (forall p P D, interfaces db !! p = Some P -> HandleOf P = h -> D ∈ OpenList P -> passing D = true) ->
  exists db', CoreUninstallMultipleProtocolInterfaces connect disconnect dxe (S fuel) h [(g, x); (g', y)] db = Done (EFI_INVALID_PARAMETER, db') /\
    db_ok db' /\ gHandleList db' = filter (fun i => i <> h) (gHandleList db) /\ protocols db' h = [].
Proof.
  intros Hok Hu Ep Hp. pose proof Hok as [_ HL]. unfold CoreUninstallMultipleProtocolInterfaces. cbn [uninstall_all].
  assert (h ∈ gHandleList db) as Hh by (apply (protocols_listed db h HL); by rewrite Ep).
  assert (h <> 0) as Hne by (intros ->; apply (l_dom _ _ HL) in Hh; rewrite (l_null _ _ HL) in Hh; by destruct Hh).
  destruct (CoreUninstall_ok connect disconnect fuel db h g x Hok Hu) as (S1 & db1 & -> & Hc). mred.
  destruct Hc as [(_ & Hn & _)|[(_ & _ & Hn & _)|(_ & p & P & HP & EP & _ & [(-> & Hok1 & [R1 [R2 _] _ _ _ _ _] & _)|(_ & (D & HD & Epa) & _)])]].
  - done.
  - exfalso. apply Hn. rewrite Ep. by left.
  - change (EFI_ERROR EFI_SUCCESS) with false. cbn iota. rewrite Ep in R2.
    assert (protocols db1 h = []) as E1 by (by apply (removed_one_absent (g, x) [] []); [apply not_elem_of_nil..|]).
    rewrite decide_True in R1 by done. assert (h ∉ gHandleList db1) as Hh1 by (rewrite R1, elem_of_without; tauto).
    assert (CoreUninstallProtocolInterface connect disconnect (S fuel) h (Some g') y db1 = Done (EFI_INVALID_PARAMETER, db1)) as ->.
    { unfold CoreUninstallProtocolInterface. rewrite (CoreValidateHandle_ok db1) by done. rewrite bool_decide_eq_false_2; [done|].
      by rewrite <- (l_dom _ _ (proj2 Hok1)). }
    mred. change (EFI_ERROR EFI_INVALID_PARAMETER) with true. cbn [app]. mred. change (EFI_ERROR EFI_INVALID_PARAMETER) with true. cbn [reinstall_all].
    destruct (install_on_lost disconnect dxe (S fuel) db1 h g x Hok1 Hne Hh1) as (S2 & db2 & -> & _ & Hok2 & [[Vl Vp _] _ _ _ _ _]). mred.
    exists db2. split; [done|]. split; [done|]. split; [by rewrite Vl|by rewrite Vp].
  - by rewrite (Hp p P D HP EP HD) in Epa.
Qed.
