(* ===== verification/DxeHandDemo.v ===== *)
(** * DXE core: a handle database in the small

    A database that starts empty on the heap [bump_heap] of [Heap.v] and is
    taken through an install, an open and a registration: it keeps the
    invariant, and the properties of [DxeOpen.v], [DxeInstall.v],
    [DxeLocate.v] and [DxeUninstall.v] apply to it. *)
From Stdlib Require Import ZArith Lia.
From stdpp Require Import base gmap list.
From S2P Require Import Prelude Pointer Firmware DxePage Heap DevicePath DxeHand DxeHandOk DxeOpen DxeInstall DxeLocate DxeUninstall.
#[local] Open Scope Z_scope.

#[local] Abbreviation DB := (DATABASE BUMP).

Definition empty_db : DB := mkDatabase ∅ [] ∅ [] ∅ 0 0 [] ∅ (mkBump 0x1000 ∅ 100).

(** Nobody is disconnected, nobody is connected. *)
Definition never (h a : Z) (db : DB) : Z * DB := (EFI_NOT_FOUND, db).
Definition idle (h : Z) (db : DB) : DB := db.

Lemma never_ok : disconnect_ok never.
Proof. intros h a db p P Status db' Hok HP _ [= <- <-]. split; [done|]. exists P. by repeat split. Qed.

Lemma empty_ok : db_ok empty_db.
Proof.
  split.
  - split; [split; [by vm_compute|]|].
    + intros p n Hp. change ((∅ : gmap Z Z) !! p = Some n) in Hp. by rewrite lookup_empty in Hp.
    + split; [apply NoDup_nil_2|]. intros a Ha. by apply elem_of_nil in Ha.
  - assert (forall i : Z, (∅ : gmap Z IHANDLE) !! i = None /\ (∅ : gmap Z PROTOCOL_INTERFACE) !! i = None /\ (∅ : gmap Z Z) !! i = None) as Hn
      by (intros i; by rewrite !lookup_empty).
    constructor; simpl; try done; try apply NoDup_nil_2; try (by intros E HE%elem_of_nil); try (by intros E i HE%elem_of_nil);
      try (by intros E n i HE%elem_of_nil); try (intros h; destruct (Hn h) as (-> & _ & ->)); try (intros i; destruct (Hn i) as (_ & -> & _));
      try done.
    all: try (split; [by intros Hi%elem_of_nil|by intros []]).
Qed.

(** What a call that finishes leaves. *)
Definition status3 {A B} (o : outcome (Z * A * B)) : option Z := match o with Done (s, _, _) => Some s | _ => None end.
Definition value3 {A} (o : outcome (Z * option Z * A)) : Z := match o with Done (_, Some v, _) => v | _ => 0 end.
Definition after3 {A} (o : outcome (A * DB)) : DB := match o with Done (_, db) => db | _ => empty_db end.

Definition demo_guid : EFI_GUID := gPciIoProtocolGuid.

(** A handle with a protocol, which is then opened by its handle; a
    registration for the protocol. *)
Definition demo_install := CoreInstallProtocolInterface never 0 8 (Some 0) (Some demo_guid) EFI_NATIVE_INTERFACE 0x5000 empty_db.
Definition one_protocol : DB := after3 demo_install.
Definition demo_handle : Z := value3 demo_install.
Definition demo_open := CoreOpenProtocol never 8 demo_handle (Some demo_guid) true demo_handle 0 EFI_OPEN_PROTOCOL_GET_PROTOCOL one_protocol.
Definition opened_protocol : DB := after3 demo_open.
Definition demo_register := CoreRegisterProtocolNotify (fun e => e =? 7) (Some demo_guid) 7 true one_protocol.
Definition told_protocol : DB := after3 demo_register.
Definition demo_registration : Z := value3 demo_register.

Lemma rounds_check n (db : DB) : bool_decide (map_Forall (fun _ P => (drivers (OpenList P) < n)%nat) (interfaces db)) = true -> rounds_ok n db.
Proof. intros Hb p P HP. apply bool_decide_eq_true in Hb. exact (Hb p P HP). Qed.

Lemma empty_rounds n : rounds_ok n empty_db.
Proof. intros p P HP. change ((∅ : gmap Z PROTOCOL_INTERFACE) !! p = Some P) in HP. by rewrite lookup_empty in HP. Qed.

Lemma one_protocol_ok : db_ok one_protocol.
Proof.
  destruct (CoreInstall_ok never never_ok 0 8 empty_db 0 demo_guid 0x5000 true empty_ok (empty_rounds 8)) as (S & h & db' & E & Hok & _).
  unfold one_protocol, demo_install, CoreInstallProtocolInterface. by rewrite E.
Qed.

Lemma one_protocol_rounds : rounds_ok 8 one_protocol.
Proof. apply rounds_check. by vm_compute. Qed.

Lemma opened_protocol_ok : db_ok opened_protocol.
Proof.
  destruct (CoreOpenProtocol_ok never never_ok 8 one_protocol demo_handle demo_guid true demo_handle 0 EFI_OPEN_PROTOCOL_GET_PROTOCOL
    one_protocol_ok one_protocol_rounds) as (S & x & db' & E & Hok & _).
  unfold opened_protocol, demo_open. by rewrite E.
Qed.

Lemma opened_protocol_opens : only_opens one_protocol opened_protocol.
Proof.
  destruct (CoreOpenProtocol_ok never never_ok 8 one_protocol demo_handle demo_guid true demo_handle 0 EFI_OPEN_PROTOCOL_GET_PROTOCOL
    one_protocol_ok one_protocol_rounds) as (S & x & db' & E & _ & Hc).
  unfold opened_protocol, demo_open. rewrite E. cbn [after3].
  destruct Hc as [(_ & _ & -> & _)|(_ & _ & [(_ & _ & -> & _)|(p & P & db1 & P1 & P' & _ & _ & _ & _ & _ & _ & _ & _ & Hs & _ & _ & Hdb)])];
    [apply only_opens_refl..|].
  by destruct Hdb as [->|[[Hx|Hx] _]]; [|vm_compute in Hx..].
Qed.

Lemma undriven_check h (db : DB) :
  bool_decide (map_Forall (fun _ P => Forall (fun D => opened_by_driver D = false /\ passing D = true) (OpenList P)) (interfaces db)) = true ->
  undriven h db /\ forall p P D, interfaces db !! p = Some P -> HandleOf P = h -> D ∈ OpenList P -> passing D = true.
Proof.
  intros Hb. apply bool_decide_eq_true in Hb. split.
  - intros p P HP _ D HD. pose proof (Hb p P HP) as Hf. cbn in Hf. rewrite Forall_forall in Hf. by apply Hf.
  - intros p P D HP _ HD. pose proof (Hb p P HP) as Hf. cbn in Hf. rewrite Forall_forall in Hf. by apply Hf.
Qed.

(* ------------------------------------------------------------------ *)
(** ** The properties at work *)

Lemma CoreInstallProtocolInterface_correct_witness : exists h db',
  CoreInstallProtocolInterface never 0 8 (Some 0) (Some demo_guid) EFI_NATIVE_INTERFACE 0x5000 empty_db = Done (EFI_SUCCESS, Some h, db') /\
  db_ok db' /\ h <> 0.
Proof.
  destruct (CoreInstallProtocolInterface_correct never 0 8 empty_db 0 demo_guid 0x5000 never_ok empty_ok (empty_rounds 8))
    as [_ (S & h & db' & E & Hok & Hc)].
  assert (status3 demo_install = Some EFI_SUCCESS) as HS by (by vm_compute). unfold demo_install in HS. rewrite E in HS. injection HS as ->.
  destruct Hc as [(_ & _ & _ & _ & Hn & _)|[HE _]]; [|discriminate HE]. exists h, db'. exact (conj E (conj Hok (proj1 (Hn eq_refl)))).
Defined.

Lemma CoreOpenProtocol_correct_witness : exists x db',
  CoreOpenProtocol never 8 demo_handle (Some demo_guid) true demo_handle 0 EFI_OPEN_PROTOCOL_GET_PROTOCOL one_protocol = Done (EFI_SUCCESS, x, db') /\ db_ok db'.
Proof.
  destruct (CoreOpenProtocol_correct never 8 one_protocol demo_handle (Some demo_guid) true demo_handle 0 EFI_OPEN_PROTOCOL_GET_PROTOCOL
    never_ok one_protocol_ok one_protocol_rounds) as (S & x & db' & E & Hok & _).
  assert (status3 demo_open = Some EFI_SUCCESS) as HS by (by vm_compute). unfold demo_open in HS. rewrite E in HS. injection HS as ->.
  exists x, db'. exact (conj E Hok).
Defined.

Lemma CoreCloseProtocol_correct_witness : exists db',
  CoreCloseProtocol demo_handle (Some demo_guid) demo_handle 0 opened_protocol = Done (EFI_SUCCESS, db') /\ db_ok db' /\ same_view opened_protocol db'.
Proof.
  destruct (CoreCloseProtocol_correct opened_protocol demo_handle demo_guid demo_handle 0 opened_protocol_ok) as (S & db' & E & Hok & Hv & _).
  assert (S = EFI_SUCCESS) as -> by (by apply (f_equal (fun o => match o with Done (s, _) => s | _ => 0 end)) in E; rewrite <- E; vm_compute).
  exists db'. exact (conj E (conj Hok Hv)).
Defined.

Lemma CoreLocateHandleBuffer_correct_witness : exists p db',
  CoreLocateHandleBuffer ByProtocol (Some demo_guid) 0 true true one_protocol = Done (EFI_SUCCESS, 1, (p, [demo_handle]), db') /\ owns [p] db'.
Proof.
  destruct (CoreLocateHandleBuffer_correct one_protocol ByProtocol (Some demo_guid) 0 one_protocol_ok) as (_ & _ & S & n & p & l & db' & E & _ & _ & Hc);
    [by right|by vm_compute|by vm_compute|].
  assert (wanted ByProtocol (Some demo_guid) one_protocol = [demo_handle]) as Ew by (by vm_compute). rewrite Ew in Hc.
  destruct Hc as [(Hn & _)|[(_ & _ & _ & _ & _ & Hn)|(_ & -> & -> & -> & Ho & _)]]; [discriminate Hn|vm_compute in Hn; discriminate Hn|].
  exists p, db'. exact (conj E Ho).
Defined.

Lemma CoreRegisterProtocolNotify_correct_witness : exists N db',
  CoreRegisterProtocolNotify (fun e => e =? 7) (Some demo_guid) 7 true one_protocol = Done (EFI_SUCCESS, Some N, db') /\
  pending db' N = [(demo_handle, 0x5000)].
Proof.
  destruct (CoreRegisterProtocolNotify_correct (fun e => e =? 7) one_protocol demo_guid 7 one_protocol_ok) as (S & r & db' & E & _ & Hc);
    [by vm_compute|by vm_compute|].
  assert (status3 demo_register = Some EFI_SUCCESS) as HS by (by vm_compute). unfold demo_register in HS. rewrite E in HS. injection HS as ->.
  destruct Hc as [(HE & _)|(N & _ & -> & _ & _ & _ & _ & _ & _ & _ & Hp & _)]; [discriminate HE|].
  exists N, db'. split; [exact E|]. rewrite Hp, decide_True by done. by vm_compute.
Defined.

Lemma told_protocol_ok : db_ok told_protocol.
Proof.
  assert (exists S r db', demo_register = Done (S, r, db') /\ db_ok db') as (S & r & db' & E & Hok); [|unfold told_protocol; by rewrite E].
  destruct (CoreRegister_ok (fun e => e =? 7) one_protocol demo_guid 7 one_protocol_ok) as (S & r & db' & E & Hok & _); [by vm_compute|by vm_compute|].
  by exists S, r, db'.
Qed.

Lemma CoreLocateProtocol_correct_witness : exists db',
  CoreLocateProtocol (Some demo_guid) demo_registration true told_protocol = Done (EFI_SUCCESS, Some 0x5000, db') /\ pending db' demo_registration = [].
Proof.
  destruct (CoreLocateProtocol_correct told_protocol demo_guid demo_registration told_protocol_ok) as (db' & E & _ & _ & _ & _ & _ & Hp);
    [by vm_compute|by vm_compute|].
  exists db'. split; [rewrite E; by vm_compute|]. rewrite Hp. by vm_compute.
Defined.

Lemma CoreUninstallProtocolInterface_correct_witness : exists db',
  CoreUninstallProtocolInterface idle never 8 demo_handle (Some demo_guid) 0x5000 opened_protocol = Done (EFI_SUCCESS, db') /\
  removed demo_handle demo_guid 0x5000 opened_protocol db'.
Proof.
  destruct (undriven_check demo_handle opened_protocol ltac:(by vm_compute)) as [Hu _].
  destruct (CoreUninstallProtocolInterface_correct idle never 7 opened_protocol demo_handle demo_guid 0x5000 opened_protocol_ok Hu)
    as (S & db' & E & Hc).
  assert (S = EFI_SUCCESS) as -> by (by apply (f_equal (fun o => match o with Done (s, _) => s | _ => 0 end)) in E; rewrite <- E; vm_compute).
  destruct Hc as [(HE & _)|[(HE & _)|(_ & p & P & _ & _ & _ & [(_ & _ & Hr & _)|(HE & _)])]]; [discriminate HE|discriminate HE| |discriminate HE].
  exists db'. exact (conj E Hr).
Defined.

(** Installed, opened to get the interface, and removed. *)
Lemma InstallUninstall_roundtrip_witness : exists db3,
  CoreUninstallProtocolInterface idle never 8 demo_handle (Some demo_guid) 0x5000 opened_protocol = Done (EFI_SUCCESS, db3) /\ same_view empty_db db3.
Proof.
  destruct (undriven_check demo_handle opened_protocol ltac:(by vm_compute)) as [Hu Hp].
  destruct (InstallUninstall_roundtrip idle never 0 7 empty_db one_protocol opened_protocol 0 demo_handle demo_guid 0x5000 never_ok empty_ok (empty_rounds 8))
    as (db3 & E & _ & Hv); [intros [Hn _]; by apply Hn|by vm_compute|exact opened_protocol_ok|exact opened_protocol_opens|exact Hu|
      intros p P D HP HhP _; exact (Hp p P D HP HhP)|].
  exists db3. exact (conj E Hv).
Defined.

Lemma CoreUninstallMultiple_loses_handle_witness : exists db',
  CoreUninstallMultipleProtocolInterfaces idle never 0 8 demo_handle [(demo_guid, 0x5000); (gGraphicsOutputProtocolGuid, 0x6000)] one_protocol =
    Done (EFI_INVALID_PARAMETER, db') /\ gHandleList db' = [].
Proof.
  destruct (undriven_check demo_handle one_protocol ltac:(by vm_compute)) as [Hu Hp].
  destruct (CoreUninstallMultiple_loses_handle idle never 0 7 one_protocol demo_handle demo_guid gGraphicsOutputProtocolGuid 0x5000 0x6000
    one_protocol_ok Hu) as (db' & E & _ & El & _); [by vm_compute|exact Hp|].
  exists db'. split; [exact E|]. rewrite El. by vm_compute.
Defined.

(* ------------------------------------------------------------------ *)
(** ** When memory runs out *)

(** The heap [bump_heap], but for blocks of one size, of which there are none
    left. *)
Definition without_size (n : Z) : Heap BUMP := {|
  heap_alloc size h := if decide (size = n) then (None, h) else bump_alloc size h;
  heap_free p h := mkBump (bump_next h) (delete p (bump_live h)) (bump_left h);
|}.

Lemma without_size_wf n : @HeapWf BUMP (without_size n).
Proof.
  refine (@Build_HeapWf BUMP (without_size n) bump_ok bump_live _ _ _ _).
  - exact (live_range (HeapWf := bump_wf)).
  - intros h size p h' Hok Hs. cbn. destruct (decide (size = n)); [done|]. by apply (alloc_some (HeapWf := bump_wf)).
  - intros h size h' Hok Hs. cbn. destruct (decide (size = n)); [by intros [= <-]|]. by apply (alloc_none (HeapWf := bump_wf)).
  - exact (free_live (HeapWf := bump_wf)).
Qed.

(** Without a block for the record of its own look at the handle, an install
    takes the protocol for absent and adds a second interface of it. *)
Example CoreInstall_second_interface :
  (fun '(s, db) => (s, protocols db demo_handle)) <$>
    (fun o => match o with Done (s, _, db) => Some (s, db) | _ => None end)
      (CoreInstallProtocolInterface (H0 := without_size 48) never demo_handle 8 (Some demo_handle) (Some demo_guid) EFI_NATIVE_INTERFACE 0x6000 one_protocol) =
  Some (EFI_SUCCESS, [(demo_guid, 0x6000); (demo_guid, 0x5000)]).
Proof. by vm_compute. Qed.

(** Without a block for the entry of the protocol, an install on an existing
    handle reports the status of its look at the handle. *)
Example CoreInstall_no_entry_status :
  status3 (CoreInstallProtocolInterface (H0 := without_size 72) never demo_handle 8 (Some demo_handle) (Some gGraphicsOutputProtocolGuid)
    EFI_NATIVE_INTERFACE 0x6000 one_protocol) = Some EFI_UNSUPPORTED.
Proof. by vm_compute. Qed.
