(* ===== verification/DxePci.v ===== *)
(** * PCI enumeration over the DXE handle database

    The handle and protocol services of the boot services table, as the
    [mBootServices] of [DxeMain.c] fills it, over the handle database of
    [DxeHand.v]: [CollectPciDevices] of [Pci.v], which is written against the
    class [Firmware], runs on them, and finds every interface of the PCI
    protocol the drivers have installed, in the order they were installed.
    Everything that is not a service on the database is some other firmware
    [W], on which the PCI protocol reads its registers. *)
From Stdlib Require Import ZArith Lia.
From stdpp Require Import base gmap list.
From S2P Require Import Prelude Surface Pixel Assets Pointer Console Firmware DxePage DxeBoot Pci Heap DevicePath DxeHand DxeHandOk DxeOpen DxeInstall DxeLocate DxeHandDemo.
#[local] Open Scope Z_scope.

(* ------------------------------------------------------------------ *)
(** ** The services *)

(** What is outside the database, and the database. *)
Record HAND_WORLD (W P : Type) : Type := mkHand {
  outside : W;
  database : DATABASE P;
}.
Arguments mkHand {W P}.
Arguments outside {W P}.
Arguments database {W P}.

Section firmware.
Context {W P : Type} `{Firmware W} `{Heap P}.
Context (disconnect : Z -> Z -> DATABASE P -> Z * DATABASE P) (gDxeCoreImageHandle : Z) (fuel : nat).
#[local] Abbreviation HW := (HAND_WORLD W P).

Definition aside {A} (f : W -> A * W) (w : HW) : A * HW := let '(a, o) := f (outside w) in (a, mkHand o (database w)).

(** The services return; a fault would be reported as a device error. *)
Definition hand_LocateProtocol (guid : EFI_GUID) (p : Z) (w : HW) : Z * Z * HW :=
  match CoreLocateProtocol (Some guid) 0 true (database w) with
  | Done (st, i, db) => (st, default p i, mkHand (outside w) db)
  | Fault _ => (EFI_DEVICE_ERROR, p, w)
  end.

Definition hand_LocateHandleBuffer (type : Z) (guid : EFI_GUID) (n : Z) (w : HW) : Z * Z * (Z * list Z) * HW :=
  match CoreLocateHandleBuffer type (Some guid) 0 true true (database w) with
  | Done (st, n, b, db) => (st, n, b, mkHand (outside w) db)
  | Fault _ => (EFI_DEVICE_ERROR, n, (0, []), w)
  end.

Definition hand_HandleProtocol (handle : Z) (guid : EFI_GUID) (p : Z) (w : HW) : Z * Z * HW :=
  match CoreHandleProtocol disconnect gDxeCoreImageHandle fuel handle (Some guid) true (database w) with
  | Done (st, i, db) => (st, default p i, mkHand (outside w) db)
  | Fault _ => (EFI_DEVICE_ERROR, p, w)
  end.

Definition hand_FreePool (p : Z) (w : HW) : HW := mkHand (outside w) (db_free p (database w)).

Definition hand_pci (p : Z) : EFI_PCI_IO_PROTOCOL HW :=
  mkPciIo (option_map (fun f width offset count v => aside (f width offset count v)) (Pci_Read (pci_io p)))
    (option_map (fun f l => aside (f l)) (GetLocation (pci_io p))).

#[local] Instance hand_firmware : Firmware HW := {|
  Stall := option_map (fun f n w => mkHand (f n (outside w)) (database w)) Stall;
  LocateProtocol := hand_LocateProtocol;
  LocateHandleBuffer := hand_LocateHandleBuffer;
  HandleProtocol := hand_HandleProtocol;
  GetMemoryMap args p := aside (GetMemoryMap args p);
  AllocatePool type size p w m := let '(r, o, m) := AllocatePool type size p (outside w) m in (r, mkHand o (database w), m);
  FreePool := hand_FreePool;
  ExitBootServices handle key := aside (ExitBootServices handle key);
  peek32 a w := peek32 a (outside w);
  peek64 a w := peek64 a (outside w);
  pci_io := hand_pci;
  rdtsc := aside rdtsc;
|}.

(* ------------------------------------------------------------------ *)
(** ** The devices behind the interfaces *)

(** The firmware [W], asked for the protocol of an interface instead of a
    handle. *)
Definition by_interface : Firmware W := {|
  Stall := Stall;
  LocateProtocol := LocateProtocol;
  LocateHandleBuffer := LocateHandleBuffer;
  HandleProtocol x _ _ w := (EFI_SUCCESS, x, w);
  GetMemoryMap := GetMemoryMap;
  AllocatePool := AllocatePool;
  FreePool := FreePool;
  ExitBootServices := ExitBootServices;
  peek32 := peek32;
  peek64 := peek64;
  pci_io := pci_io;
  rdtsc := rdtsc;
|}.

(** The interfaces a client finds by asking for the handles and then each
    handle for the protocol. *)
Definition found_interfaces (g : EFI_GUID) (db : DATABASE P) : list Z :=
  omap (fun h => lookup_protocol g (protocols db h)) (handles_with db g).

Lemma aside_eta {A} (f : W -> A * W) (w : HW) : aside f w = ((f (outside w)).1, mkHand (f (outside w)).2 (database w)).
Proof. unfold aside. by destruct (f (outside w)). Qed.

(** Reading a handle's device is reading its interface's. *)
Lemma device_at_hand h x (w : HW) db' : HandleProtocol h gPciIoProtocolGuid 0 w = (EFI_SUCCESS, x, mkHand (outside w) db') ->
  device_at h w = ((device_at (H := by_interface) x (outside w)).1, mkHand (device_at (H := by_interface) x (outside w)).2 db').
Proof.
  intros E. unfold device_at, pci_registers. rewrite E. cbn [HandleProtocol by_interface]. change (EFI_SUCCESS =? EFI_SUCCESS) with true. cbn [negb orb].
  destruct (x =? 0); [done|]. cbn [pci_io by_interface hand_firmware hand_pci Pci_Read].
  destruct (Pci_Read (pci_io x)) as [Read|]; [|done]. cbn [option_map]. unfold aside. cbn [outside database].
  destruct (Read EFI_PCI_IO_PROTOCOL_WIDTH_UINT32 0 1 4294967295 (outside w)) as [[s1 ids] o1].
  destruct (negb (s1 =? EFI_SUCCESS)); [done|]. cbn [outside database].
  destruct (Read EFI_PCI_IO_PROTOCOL_WIDTH_UINT32 8 1 0 o1) as [[s2 cls] o2]. destruct (negb (s2 =? EFI_SUCCESS)); [done|]. cbn zeta.
  destruct (decide _); [done|]. unfold pci_location. cbn [GetLocation hand_pci option_map].
  destruct (GetLocation (pci_io x)) as [get|]; [|done]. cbn [option_map]. unfold aside. cbn [outside database].
  by destruct (get (0, 0, 0, 0) o2) as [[s3 [[[seg bus] dev] fn]] o3].
Qed.
End firmware.

Section enumeration.
Context {W P : Type} `{Firmware W} `{HeapWf P}.
Context (disconnect : Z -> Z -> DATABASE P -> Z * DATABASE P) (dxe : Z) (fuel : nat).
#[local] Abbreviation HW := (HAND_WORLD W P).
#[local] Instance core : Firmware HW := hand_firmware disconnect dxe fuel.

(** Every handle gives its interface, as long as there is memory for the
    records of the calls. *)
Lemma found_devices_hand X l : forall (w : HW), db_with X (database w) -> l ⊆ gHandleList (database w) ->
  (forall h, h ∈ l -> lookup_protocol gPciIoProtocolGuid (protocols (database w) h) <> None) -> plenty (length l) (pool_heap (database w)) ->
  exists db', db_with X db' /\ unseen (database w) db' /\
    found_devices l w =
      (let '(ds, o) := found_devices (H := by_interface) (omap (fun h => lookup_protocol gPciIoProtocolGuid (protocols (database w) h)) l) (outside w) in
       (ds, mkHand o db')).
Proof.
  induction l as [|h l IH]; intros w Hok Hin Hl Hp.
  { exists (database w). split; [done|]. split; [apply unseen_refl|]. by destruct w. }
  destruct (lookup_protocol gPciIoProtocolGuid (protocols (database w) h)) as [x|] eqn:Ex; [|by destruct (Hl h ltac:(by left))].
  destruct (CoreHandleProtocol_found disconnect dxe fuel X (database w) h gPciIoProtocolGuid x Hok) as (S & i & db1 & E1 & Hok1 & Hs & Hc);
    [apply Hin; by left|done|].
  destruct Hc as [(-> & -> & Hpl)|[_ Hn]]; [|exfalso; apply Hn; by apply (plenty_le 1 (length (h :: l))); [simpl; lia|]].
  assert (HandleProtocol h gPciIoProtocolGuid 0 w = (EFI_SUCCESS, x, mkHand (outside w) db1)) as Eh.
  { cbn [HandleProtocol core hand_firmware]. unfold hand_HandleProtocol. by rewrite E1. }
  pose proof (only_opens_unseen _ _ Hs) as Hu1. pose proof (u_view _ _ Hu1) as [Vl Vp _].
  assert (device_at h w = ((device_at (H := by_interface) x (outside w)).1, mkHand (device_at (H := by_interface) x (outside w)).2 db1)) as Ed
    by exact (device_at_hand disconnect dxe fuel h x w db1 Eh).
  cbn [found_devices omap list_omap]. rewrite Ex, Ed. cbn [found_devices].
  destruct (device_at (H := by_interface) x (outside w)) as [d o1]. cbn [fst snd].
  destruct (IH (mkHand o1 db1)) as (db2 & Hok2 & Hu2 & E2); cbn [database]; [done| | |by apply Hpl|].
  { rewrite Vl. intros j Hj. apply Hin. by right. }
  { intros j Hj. rewrite Vp. apply Hl. by right. }
  exists db2. split; [done|]. split; [by apply (unseen_trans _ db1)|]. cbn [database outside] in E2. rewrite E2.
  assert (omap (fun h => lookup_protocol gPciIoProtocolGuid (protocols db1 h)) l = omap (fun h => lookup_protocol gPciIoProtocolGuid (protocols (database w) h)) l)
    as -> by (apply omap_same; intros j _; by rewrite Vp).
  by destruct (found_devices (H := by_interface) (omap (fun h => lookup_protocol gPciIoProtocolGuid (protocols (database w) h)) l) o1) as [ds o2].
Qed.

Lemma distinct_NoDup seen (l : list Z) : NoDup l -> (forall h, h ∈ l -> h ∉ seen) -> distinct seen l = l.
Proof.
  revert seen. induction l as [|h l IH]; intros seen Hn Hs; [done|]. cbn [distinct]. rewrite decide_False by (apply Hs; by left).
  apply NoDup_cons in Hn as [Hh Hn]. f_equal. apply IH; [done|]. intros j Hj. rewrite elem_of_cons. intros [->|Hj2]; [done|].
  by apply (Hs j); [right|].
Qed.

(** With one interface of the protocol on a handle, all are found, in the
    order they were installed. *)
Lemma found_interfaces_order (db : DATABASE P) g : linked None db -> NoDup (fst <$> order db g) -> found_interfaces g db = snd <$> order db g.
Proof.
  intros HL Hn. unfold found_interfaces, handles_with. rewrite distinct_NoDup by (done || (intros; apply not_elem_of_nil)).
  assert (forall h x, (h, x) ∈ order db g -> lookup_protocol g (protocols db h) = Some x) as Hl.
  { intros h x Hx. destruct (lookup_protocol g (protocols db h)) as [y|] eqn:Ey.
    - f_equal. unfold lookup_protocol in Ey. destruct (List.find _ _) as [[g' y']|] eqn:Ef; [|done]. simplify_eq/=.
      apply List.find_some in Ef as [Hi Hg]. apply bool_decide_eq_true in Hg. simpl in Hg. subst g'. apply list_elem_of_In, (elem_of_order None) in Hi; [|done].
      by pose proof (nodup_fmap_inj fst (order db g) (h, y) (h, x) Hn Hi Hx eq_refl) as [= ->].
    - exfalso. apply (proj1 (lookup_protocol_None g _) Ey x). by apply (elem_of_order None). }
  revert Hl. generalize (order db g). intros l Hl. induction l as [|[h x] l IH]; [done|]. cbn [fmap list_fmap omap list_omap fst snd].
  rewrite (Hl h x) by (by left). f_equal. apply IH. intros h' x' Hi. apply Hl. by right.
Qed.

(** The interfaces' devices, asked of a firmware directly. *)
Lemma found_devices_of {V} `{Firmware V} xs : forall w : V,
  devices_of pci_io xs w (found_devices (H := by_interface) xs w).1 (found_devices (H := by_interface) xs w).2 /\
  Forall known_kind (found_devices (H := by_interface) xs w).1.
Proof.
  induction xs as [|x xs IH]; intros w; [split; by constructor|]. cbn [found_devices].
  pose proof (device_at_of (H := by_interface) x w w x eq_refl) as Hd.
  destruct (device_at (H := by_interface) x w) as [d w1] eqn:Ed. cbn [fst snd] in Hd. destruct (IH w1) as [Hds Hk].
  destruct (found_devices (H := by_interface) xs w1) as [ds w2]. cbn [fst snd] in *.
  destruct d as [d|]; (split; [exact (devices_cons _ _ _ _ _ _ _ _ Hd Hds)|]); [|done].
  constructor; [by apply (device_at_ok (H := by_interface)) in Ed as [_ ?]|done].
Qed.

(** The enumeration over the core is the list of the interfaces' devices. *)
Lemma CollectPciDevices_hand b (w : HW) :
  let hs := handles_with (database w) gPciIoProtocolGuid in
  no_devices b -> db_ok (database w) -> mEfiLocateHandleRequest (database w) + 2 < 2 ^ 64 -> 8 * Z.of_nat (length (gHandleList (database w))) < 2 ^ 64 ->
  (hs = [] \/ exists p hp, heap_alloc (8 * Z.of_nat (length hs)) (pool_heap (database w)) = (Some p, hp) /\ plenty (length hs) hp) ->
  exists db', db_ok db' /\ unseen (database w) db' /\
    CollectPciDevices (H := hand_firmware disconnect dxe fuel) b w =
      (let '(ds, o) := found_devices (H := by_interface) (found_interfaces gPciIoProtocolGuid (database w)) (outside w) in
       Done (recorded b ds, mkHand o db')).
Proof.
  intros hs Hb Hok Hreq Hlen Hroom. pose proof Hok as [Ho HL].
  assert (Z.of_nat (length hs) < 18446744073709551616) as Hhs.
  { pose proof (wanted_length None (database w) ByProtocol (Some gPciIoProtocolGuid) HL) as Hw.
    change (wanted ByProtocol (Some gPciIoProtocolGuid) (database w)) with hs in Hw. lia. }
  destruct (CoreLocateHandleBuffer_ok (database w) ByProtocol (Some gPciIoProtocolGuid) 0 Hok ltac:(by right) Hreq Hlen)
    as (S & n & p & l & db1 & E & HL1 & Hu1 & Hc).
  change (wanted ByProtocol (Some gPciIoProtocolGuid) (database w)) with hs in Hc.
  assert (forall c, LocateHandleBuffer (Firmware := hand_firmware disconnect dxe fuel) EFI_BY_PROTOCOL gPciIoProtocolGuid c w = (S, n, (p, l), mkHand (outside w) db1)) as El.
  { intros c. cbn [LocateHandleBuffer hand_firmware]. unfold hand_LocateHandleBuffer. change EFI_BY_PROTOCOL with ByProtocol. by rewrite E. }
  unfold CollectPciDevices. rewrite El. unfold found_interfaces. fold hs.
  destruct Hc as [(-> & -> & -> & -> & Ho1)|[(Hne & _ & _ & _ & _ & Ha)|(Hne & -> & -> & -> & Ho1 & Ha)]].
  - exists db1. split; [done|]. split; [done|]. cbn. by rewrite recorded_none.
  - exfalso. destruct Hroom as [|(q & hp & Eq & _)]; [done|]. by rewrite Eq in Ha.
  - change (EFI_SUCCESS =? EFI_SUCCESS) with true. pose proof (owns_range _ _ p Ho1 ltac:(by left)) as Hp.
    rewrite (proj2 (Z.eqb_neq p 0)) by lia. cbn [negb orb]. destruct Hroom as [|(q & hp & Eq & Hpl)]; [done|]. rewrite Eq in Ha. injection Ha as -> ->.
    pose proof (u_view _ _ Hu1) as [Vl Vp _].
    destruct (found_devices_hand [p] hs (mkHand (outside w) db1)) as (db2 & [Ho2 HL2] & Hu2 & E2); cbn [database]; [done| | |done|].
    { rewrite Vl. apply (wanted_listed None (database w) ByProtocol (Some gPciIoProtocolGuid) HL). }
    { intros h Hh. rewrite Vp. apply (elem_of_handles_with None) in Hh as [x Hx]; [|done]. intros En. by apply (proj1 (lookup_protocol_None _ _) En x). }
    pose proof (handles_loop (H := hand_firmware disconnect dxe fuel) [] hs b [] (mkHand (outside w) db1)) as Hloop. cbn [app length] in Hloop. change (Z.of_nat 0) with 0 in Hloop.
    rewrite (recorded_none b Hb) in Hloop. unfold for_count, for_range.
    replace (Z.to_nat ((Z.of_nat (length hs) - 0 + 1 - 1) / 1)) with (length hs) by (rewrite Z.div_1_r; lia).
    rewrite Hloop by (apply Hb || done || lia). unfold core in E2. rewrite E2. cbn [outside database].
    exists (db_free p db2). split; [split; [by apply owns_free|by apply linked_heap]|].
    split; [apply (unseen_trans _ db1); [done|apply (unseen_trans _ db2); [done|apply heap_unseen]]|].
    assert (omap (fun h => lookup_protocol gPciIoProtocolGuid (protocols db1 h)) hs = omap (fun h => lookup_protocol gPciIoProtocolGuid (protocols (database w) h)) hs)
      as -> by (apply omap_same; intros j _; by rewrite Vp).
    by destruct (found_devices (H := by_interface) (omap (fun h => lookup_protocol gPciIoProtocolGuid (protocols (database w) h)) hs) (outside w)) as [ds o2].
Qed.
End enumeration.

(* ------------------------------------------------------------------ *)
(** ** Properties *)

(** C14: Over the DXE core with a sound handle database, [CollectPciDevices]
    reads the device behind the PCI interface of every handle that has one, in
    the order the handles got it (with one interface each, the order of
    installation), and, starting from a record with nothing counted, counts
    exactly those whose vendor is not 0xFFFF and whose class byte is 3 (a
    display adapter) or 4 (audio), records the first 32 of them and changes
    nothing else of the record; the buffer is given back, and the database is
    as it was but for the records of the calls.  The pool has a buffer for the
    handles and a record for each call, and the size of the buffer and the
    number of searches made so far do not wrap. *)
Theorem CollectPciDevices_dxe {W P} `{Firmware W} `{HeapWf P} (disconnect : Z -> Z -> DATABASE P -> Z * DATABASE P) (dxe : Z) (fuel : nat)
    (b : KERNEL_BOOT_INFO) (w : HAND_WORLD W P) :
  let hs := handles_with (database w) gPciIoProtocolGuid in
  no_devices b -> db_ok (database w) -> mEfiLocateHandleRequest (database w) + 2 < 2 ^ 64 -> 8 * Z.of_nat (length (gHandleList (database w))) < 2 ^ 64 ->
  (hs = [] \/ exists p hp, heap_alloc (8 * Z.of_nat (length hs)) (pool_heap (database w)) = (Some p, hp) /\ plenty (length hs) hp) ->
  (NoDup (fst <$> order (database w) gPciIoProtocolGuid) ->
     found_interfaces gPciIoProtocolGuid (database w) = snd <$> order (database w) gPciIoProtocolGuid) /\
  exists b' ds o db', CollectPciDevices (H := hand_firmware disconnect dxe fuel) b w = Done (b', mkHand o db') /\
    devices_of pci_io (found_interfaces gPciIoProtocolGuid (database w)) (outside w) ds o /\ tallied b ds b' /\
    db_ok db' /\ unseen (database w) db'.
Proof.
  intros hs Hb Hok Hreq Hlen Hroom. split; [apply found_interfaces_order, Hok|].
  destruct (CollectPciDevices_hand disconnect dxe fuel b w Hb Hok Hreq Hlen Hroom) as (db' & Hok' & Hu & E).
  pose proof (found_devices_of (found_interfaces gPciIoProtocolGuid (database w)) (outside w)) as [Hd Hk].
  destruct (found_devices (H := by_interface) _ _) as [ds o]. exists (recorded b ds), ds, o, db'. split; [exact E|]. split; [exact Hd|].
  split; [apply recorded_tallied; [apply Hb|exact Hk]|done].
Qed.


(** A database with the display adapter of [demo_firmware] on one handle. *)
Definition adapter_install := CoreInstallProtocolInterface never 0 8 (Some 0) (Some gPciIoProtocolGuid) EFI_NATIVE_INTERFACE 1 empty_db.
Definition one_adapter : HAND_WORLD MACHINE BUMP := mkHand (mkMachine [] 4096 0 0 0) (after3 adapter_install).

Lemma one_adapter_ok : db_ok (database one_adapter).
Proof.
  destruct (CoreInstall_ok never never_ok 0 8 empty_db 0 gPciIoProtocolGuid 1 true empty_ok (empty_rounds 8)) as (S & h & db' & E & Hok & _).
  unfold one_adapter, adapter_install, CoreInstallProtocolInterface. cbn [database]. by rewrite E.
Qed.

(** The heap [bump_heap] hands out as many blocks as are left, while their
    addresses last. *)
Lemma bump_plenty n (h : BUMP) : (n <= bump_left h)%nat -> bump_next h + 104 * Z.of_nat n < 2 ^ 64 -> plenty n h.
Proof.
  revert h. induction n as [|n IH]; intros h Hl Hn; [done|]. intros size Hs. cbn [heap_alloc bump_heap]. unfold bump_alloc.
  destruct (bump_left h) as [|m] eqn:El; [lia|]. rewrite decide_True by lia. eexists _, _. split; [reflexivity|].
  apply IH; cbn [bump_left bump_next]; lia.
Qed.

Lemma CollectPciDevices_dxe_witness : exists b' w',
  CollectPciDevices (H := hand_firmware never 0 8) demo_record one_adapter = Done (b', w') /\ GpuCount b' = 1 /\ PciDeviceCount b' = 1 /\ db_ok (database w').
Proof.
  destruct (CollectPciDevices_dxe never 0 8 demo_record one_adapter) as [_ (b' & ds & o & db' & E & _ & _ & Hok & _)].
  - by split_and!.
  - exact one_adapter_ok.
  - by vm_compute.
  - by vm_compute.
  - right. eexists _, _. split; [by vm_compute|]. apply bump_plenty; vm_compute; [lia|done].
  - assert ((match CollectPciDevices (H := hand_firmware never 0 8) demo_record one_adapter with
             | Done (b, _) => (GpuCount b =? 1) && (PciDeviceCount b =? 1) | Fault _ => false end)%bool = true) as Hv by (vm_compute; reflexivity).
    rewrite E in Hv. apply andb_true_iff in Hv as [Hg%Z.eqb_eq Hc%Z.eqb_eq].
    exists b', (mkHand o db'). exact (conj E (conj Hg (conj Hc Hok))).
Defined.
