(* ===== verification/DxeEvent.v ===== *)
(** * DXE core: events, timers and task priorities

    [Event/Event.c], [Event/Timer.c] and [Event/Tpl.c] of
    [src/edk2/MdeModulePkg/Core/Dxe]: events and the queues of their
    notifications, one for each task priority level, the list of the timers,
    and the level itself, whose lowering runs what is queued above it.

    An event is its address, a queue the list of the events on it; a link that
    is part of an event says whether it is on a list.  A lock raises the level
    and keeps the old one, which [CoreAcquireLock] returns here.  The
    notification functions of the drivers are a parameter: they may do
    anything with the state, and call the services again.  Lowering the level
    and dispatching call each other; both are written over the lowering they
    call, and [CoreRestoreTpl] ties the knot on fuel.  The rest of the core is
    an abstract world with a pool. *)
From Stdlib Require Import ZArith Lia.
From stdpp Require Import base gmap list.
From S2P Require Import Prelude Pointer Firmware DxePage Heap DevicePath DxeHand.
#[local] Open Scope Z_scope.

(* ------------------------------------------------------------------ *)
(** ** Data *)

Definition TPL_APPLICATION : Z := 4.
Definition TPL_CALLBACK : Z := 8.
Definition TPL_NOTIFY : Z := 16.
Definition TPL_HIGH_LEVEL : Z := 31.

Definition EVT_TIMER : Z := 0x80000000.
Definition EVT_RUNTIME : Z := 0x40000000.
Definition EVT_NOTIFY_WAIT : Z := 0x100.
Definition EVT_NOTIFY_SIGNAL : Z := 0x200.
Definition EVT_SIGNAL_EXIT_BOOT_SERVICES : Z := 0x201.
Definition EVT_SIGNAL_VIRTUAL_ADDRESS_CHANGE : Z := 0x60000202.

Definition EVT_EXFLAG_EVENT_GROUP : Z := 0x01.
Definition EVT_EXFLAG_EVENT_PROTOCOL_NOTIFICATION : Z := 0x02.

Definition mEventTable : list Z :=
  [Z.lor EVT_TIMER EVT_NOTIFY_SIGNAL; EVT_TIMER; EVT_NOTIFY_WAIT; EVT_NOTIFY_SIGNAL; EVT_SIGNAL_EXIT_BOOT_SERVICES;
   EVT_SIGNAL_VIRTUAL_ADDRESS_CHANGE; 0; Z.lor EVT_TIMER EVT_NOTIFY_WAIT].

Definition TimerCancel : Z := 0.
Definition TimerPeriodic : Z := 1.
Definition TimerRelative : Z := 2.

Definition gEfiEventVirtualAddressChangeGuid : EFI_GUID :=
  mkGuid 0x13FA7698 0xC831 0x49C7 [0x87; 0xEA; 0x8F; 0x43; 0xFC; 0xC2; 0x51; 0x96].
Definition gEfiEventExitBootServicesGuid : EFI_GUID :=
  mkGuid 0x27ABF055 0xB1B8 0x4C26 [0x80; 0x48; 0x74; 0x8F; 0x37; 0xBA; 0xA2; 0xDF].
Definition gIdleLoopEventGuid : EFI_GUID :=
  mkGuid 0x3c8d294c 0x5fc3 0x4451 [0xbb; 0x31; 0xc4; 0xc0; 0x32; 0x29; 0x5e; 0x6c].
Definition no_guid : EFI_GUID := mkGuid 0 0 0 [0; 0; 0; 0; 0; 0; 0; 0].

(** The three links say whether the event is on the queue of its level, on the
    list of those that are notified, on the list of timers. *)
Record IEVENT : Type := mkEvent {
  EventType : Z;
  SignalCount : Z;
  SignalLinked : bool;
  NotifyTpl : Z;
  NotifyFunction : Z;
  NotifyContext : Z;
  EventGroup : EFI_GUID;
  NotifyLinked : bool;
  ExFlag : Z;
  RuntimeLinked : bool;
  TimerLinked : bool;
  TriggerTime : Z;
  Period : Z;
}.

Definition set_count (n : Z) (E : IEVENT) : IEVENT :=
  mkEvent (EventType E) n (SignalLinked E) (NotifyTpl E) (NotifyFunction E) (NotifyContext E) (EventGroup E) (NotifyLinked E) (ExFlag E)
    (RuntimeLinked E) (TimerLinked E) (TriggerTime E) (Period E).
Definition set_notify_link (b : bool) (E : IEVENT) : IEVENT :=
  mkEvent (EventType E) (SignalCount E) (SignalLinked E) (NotifyTpl E) (NotifyFunction E) (NotifyContext E) (EventGroup E) b (ExFlag E)
    (RuntimeLinked E) (TimerLinked E) (TriggerTime E) (Period E).
Definition set_timer (linked : bool) (time period : Z) (E : IEVENT) : IEVENT :=
  mkEvent (EventType E) (SignalCount E) (SignalLinked E) (NotifyTpl E) (NotifyFunction E) (NotifyContext E) (EventGroup E) (NotifyLinked E) (ExFlag E)
    (RuntimeLinked E) linked time period.

Record EVENTS (W : Type) : Type := mkEvents {
  gEfiCurrentTpl : Z;
  Interrupts : bool;
  gEventQueue : gmap Z (list Z);
  gEventPending : Z;
  gEventSignalQueue : list Z;
  gIdleLoopEvent : Z;
  mEfiTimerList : list Z;
  mEfiCheckTimerEvent : Z;
  mEfiSystemTime : Z;
  EventHead : list Z;
  events : gmap Z IEVENT;
  world : W;
}.
Arguments mkEvents {W}.
Arguments gEfiCurrentTpl {W}.
Arguments Interrupts {W}.
Arguments gEventQueue {W}.
Arguments gEventPending {W}.
Arguments gEventSignalQueue {W}.
Arguments gIdleLoopEvent {W}.
Arguments mEfiTimerList {W}.
Arguments mEfiCheckTimerEvent {W}.
Arguments mEfiSystemTime {W}.
Arguments EventHead {W}.
Arguments events {W}.
Arguments world {W}.

Section fields.
Context {W : Type}.
#[local] Abbreviation ES := (EVENTS W).

Definition set_level (t : Z) (b : bool) (s : ES) : ES :=
  mkEvents t b (gEventQueue s) (gEventPending s) (gEventSignalQueue s) (gIdleLoopEvent s) (mEfiTimerList s) (mEfiCheckTimerEvent s)
    (mEfiSystemTime s) (EventHead s) (events s) (world s).
Definition set_queue (q : gmap Z (list Z)) (p : Z) (s : ES) : ES :=
  mkEvents (gEfiCurrentTpl s) (Interrupts s) q p (gEventSignalQueue s) (gIdleLoopEvent s) (mEfiTimerList s) (mEfiCheckTimerEvent s)
    (mEfiSystemTime s) (EventHead s) (events s) (world s).
Definition set_signal_queue (l : list Z) (s : ES) : ES :=
  mkEvents (gEfiCurrentTpl s) (Interrupts s) (gEventQueue s) (gEventPending s) l (gIdleLoopEvent s) (mEfiTimerList s) (mEfiCheckTimerEvent s)
    (mEfiSystemTime s) (EventHead s) (events s) (world s).
Definition set_idle (e : Z) (s : ES) : ES :=
  mkEvents (gEfiCurrentTpl s) (Interrupts s) (gEventQueue s) (gEventPending s) (gEventSignalQueue s) e (mEfiTimerList s) (mEfiCheckTimerEvent s)
    (mEfiSystemTime s) (EventHead s) (events s) (world s).
Definition set_timers (l : list Z) (s : ES) : ES :=
  mkEvents (gEfiCurrentTpl s) (Interrupts s) (gEventQueue s) (gEventPending s) (gEventSignalQueue s) (gIdleLoopEvent s) l (mEfiCheckTimerEvent s)
    (mEfiSystemTime s) (EventHead s) (events s) (world s).
Definition set_check_timer (e : Z) (s : ES) : ES :=
  mkEvents (gEfiCurrentTpl s) (Interrupts s) (gEventQueue s) (gEventPending s) (gEventSignalQueue s) (gIdleLoopEvent s) (mEfiTimerList s) e
    (mEfiSystemTime s) (EventHead s) (events s) (world s).
Definition set_time (t : Z) (s : ES) : ES :=
  mkEvents (gEfiCurrentTpl s) (Interrupts s) (gEventQueue s) (gEventPending s) (gEventSignalQueue s) (gIdleLoopEvent s) (mEfiTimerList s) (mEfiCheckTimerEvent s)
    t (EventHead s) (events s) (world s).
Definition set_runtime (l : list Z) (s : ES) : ES :=
  mkEvents (gEfiCurrentTpl s) (Interrupts s) (gEventQueue s) (gEventPending s) (gEventSignalQueue s) (gIdleLoopEvent s) (mEfiTimerList s) (mEfiCheckTimerEvent s)
    (mEfiSystemTime s) l (events s) (world s).
Definition set_events (m : gmap Z IEVENT) (s : ES) : ES :=
  mkEvents (gEfiCurrentTpl s) (Interrupts s) (gEventQueue s) (gEventPending s) (gEventSignalQueue s) (gIdleLoopEvent s) (mEfiTimerList s) (mEfiCheckTimerEvent s)
    (mEfiSystemTime s) (EventHead s) m (world s).
Definition set_world (w : W) (s : ES) : ES :=
  mkEvents (gEfiCurrentTpl s) (Interrupts s) (gEventQueue s) (gEventPending s) (gEventSignalQueue s) (gIdleLoopEvent s) (mEfiTimerList s) (mEfiCheckTimerEvent s)
    (mEfiSystemTime s) (EventHead s) (events s) w.

Definition update_event (e : Z) (f : IEVENT -> IEVENT) (s : ES) : ES := set_events (alter f e (events s)) s.

(** The events queued at a level, where the head of its list has been set up;
    the code goes through the head, and a head that has not been set up holds
    null pointers. *)
Definition queue (t : Z) (s : ES) : list Z := default [] (gEventQueue s !! t).
Definition queue_head (t : Z) (s : ES) : outcome (list Z) := deref (gEventQueue s !! t).
Definition bits (a b : Z) : bool := negb (Z.land a b =? 0).
End fields.

(* ------------------------------------------------------------------ *)
(** ** The highest bit *)

Fixpoint HighBitSet32_loop (n : nat) (BitIndex Operand : Z) : Z :=
  match n with
  | O => BitIndex
  | S n => if 0 <? i32 Operand then HighBitSet32_loop n (BitIndex - 1) (u32 (Z.shiftl Operand 1)) else BitIndex
  end.

(** A 32-bit number has its highest bit in place after 31 shifts at most. *)
Definition HighBitSet32 (Operand : Z) : Z := if Operand =? 0 then -1 else HighBitSet32_loop 32 31 Operand.

Definition HighBitSet64 (Operand : Z) : Z :=
  if Operand =? u32 Operand then HighBitSet32 (u32 Operand) else HighBitSet32 (u32 (Z.shiftr Operand 32)) + 32.

(** [(UINTN)(1 << Priority)]: the shift is that of an [int]. *)
Definition priority_bit (Priority : Z) : Z := u64 (i32 (shl32 1 Priority)).

(* ------------------------------------------------------------------ *)
(** ** Levels and notifications *)

Section services.
Context {W : Type} `{Heap W}.
#[local] Abbreviation ES := (EVENTS W).

(** Whether the processor's interrupts can be controlled, what the SMM
    protocol, if there is one, answers, the drivers' notification functions
    (function, event, context), the timer's period, what forgets the
    registrations of an event, and two addresses of functions of the core. *)
Context (gCpu : bool) (gSmmBase2 : option (Z * bool)) (notify : Z -> Z -> Z -> ES -> outcome ES)
  (GetTimerPeriod : W -> Z) (CoreUnregisterProtocolNotify : Z -> W -> W) (CheckTimersFunction EfiEventEmptyFunction : Z).

Definition CoreSetInterruptState (Enable : bool) (s : ES) : ES :=
  if negb gCpu then s else
  if negb Enable then set_level (gEfiCurrentTpl s) false s else
  match gSmmBase2 with
  | None => set_level (gEfiCurrentTpl s) true s
  | Some (Status, InSmm) => if negb (EFI_ERROR Status) && negb InSmm then set_level (gEfiCurrentTpl s) true s else s
  end.

Definition set_tpl (t : Z) (s : ES) : ES := set_level t (Interrupts s) s.

Definition CoreRaiseTpl (NewTpl : Z) (s : ES) : Z * ES :=
  let OldTpl := gEfiCurrentTpl s in
  let s := if (TPL_HIGH_LEVEL <=? NewTpl) && (OldTpl <? TPL_HIGH_LEVEL) then CoreSetInterruptState false s else s in
  (OldTpl, set_tpl NewTpl s).

Definition CoreAcquireLock (Tpl : Z) (s : ES) : Z * ES := CoreRaiseTpl Tpl s.

(** The levels of the three locks. *)
Definition gEventQueueLock : Z := TPL_HIGH_LEVEL.
Definition mEfiTimerLock : Z := TPL_HIGH_LEVEL - 1.
Definition mEfiSystemTimeLock : Z := TPL_HIGH_LEVEL.

(** The event goes to the end of the queue of its level. *)
Definition CoreNotifyEvent (e : Z) (s : ES) : outcome ES :=
  E ← deref (events s !! e);
  if decide (0 <= NotifyTpl E <= TPL_HIGH_LEVEL) then
    q ← queue_head (NotifyTpl E) s;
    let q := if NotifyLinked E then filter (fun i => i <> e) q else q in
    mret (update_event e (set_notify_link true)
      (set_queue (<[NotifyTpl E := q ++ [e]]> (gEventQueue s)) (Z.lor (gEventPending s) (priority_bit (NotifyTpl E))) s))
  else Fault OutOfBounds.

Fixpoint notify_group (EventGroup0 : EFI_GUID) (l : list Z) (s : ES) : outcome ES :=
  match l with
  | [] => mret s
  | e :: l =>
      E ← deref (events s !! e);
      s ← (if decide (EventGroup E = EventGroup0) then CoreNotifyEvent e s else mret s);
      notify_group EventGroup0 l s
  end.

(** The place of a timer: before the first that is due later. *)
Fixpoint insert_timer (Time e : Z) (l : list Z) (s : ES) : outcome (list Z) :=
  match l with
  | [] => mret [e]
  | i :: l' =>
      E ← deref (events s !! i);
      if decide (Time < TriggerTime E) then mret (e :: l) else l' ← insert_timer Time e l' s; mret (i :: l')
  end.

Definition CoreInsertEventTimer (e : Z) (s : ES) : outcome ES :=
  E ← deref (events s !! e);
  l ← insert_timer (TriggerTime E) e (mEfiTimerList s) s;
  mret (update_event e (set_timer true (TriggerTime E) (Period E)) (set_timers l s)).

Section lowering.
(** The lowering of the level that releasing a lock ends in. *)
Context (CoreRestoreTpl : Z -> ES -> outcome ES).

Definition CoreReleaseLock (OwnerTpl : Z) (s : ES) : outcome ES := CoreRestoreTpl OwnerTpl s.

Definition CoreNotifySignalList (Group : EFI_GUID) (s : ES) : outcome ES :=
  let '(Owner, s) := CoreAcquireLock gEventQueueLock s in
  s ← notify_group Group (gEventSignalQueue s) s;
  CoreReleaseLock Owner s.

(** At an address without the signature of an event there is no event. *)
Definition CoreSignalEvent (e : Z) (s : ES) : outcome (Z * ES) :=
  if decide (e = 0) then mret (EFI_INVALID_PARAMETER, s) else
  match events s !! e with
  | None => mret (EFI_INVALID_PARAMETER, s)
  | Some E =>
      let '(Owner, s) := CoreAcquireLock gEventQueueLock s in
      if decide (SignalCount E = 0) then
        let s := update_event e (set_count (u32 (SignalCount E + 1))) s in
        if bits (EventType E) EVT_NOTIFY_SIGNAL then
          if bits (ExFlag E) EVT_EXFLAG_EVENT_GROUP then
            s ← CoreReleaseLock Owner s;
            E ← deref (events s !! e);
            s ← CoreNotifySignalList (EventGroup E) s;
            let '(Owner, s) := CoreAcquireLock gEventQueueLock s in
            s ← CoreReleaseLock Owner s; mret (EFI_SUCCESS, s)
          else s ← CoreNotifyEvent e s; s ← CoreReleaseLock Owner s; mret (EFI_SUCCESS, s)
        else s ← CoreReleaseLock Owner s; mret (EFI_SUCCESS, s)
      else s ← CoreReleaseLock Owner s; mret (EFI_SUCCESS, s)
  end.

Definition CoreCurrentSystemTime (s : ES) : outcome (Z * ES) :=
  let '(Owner, s) := CoreAcquireLock mEfiSystemTimeLock s in
  let SystemTime := mEfiSystemTime s in
  s ← CoreReleaseLock Owner s; mret (SystemTime, s).

(** Timers that are due are signalled, the periodic ones set again; one that
    has fallen behind is due at once. *)
Fixpoint timers_loop (n : nat) (SystemTime : Z) (s : ES) : outcome ES :=
  match n with
  | O => Fault Diverges
  | S n =>
      match mEfiTimerList s with
      | [] => mret s
      | e :: l =>
          E ← deref (events s !! e);
          if decide (SystemTime < TriggerTime E) then mret s else
          let s := update_event e (set_timer false (TriggerTime E) (Period E)) (set_timers l s) in
          '(_, s) ← CoreSignalEvent e s;
          E ← deref (events s !! e);
          s ← (if decide (Period E <> 0) then
                 let Time := u64 (TriggerTime E + Period E) in
                 let s := update_event e (set_timer (TimerLinked E) Time (Period E)) s in
                 s ← (if decide (Time <= SystemTime) then
                        '(_, s) ← CoreSignalEvent (mEfiCheckTimerEvent s) (update_event e (set_timer (TimerLinked E) SystemTime (Period E)) s);
                        mret s
                      else mret s);
                 CoreInsertEventTimer e s
               else mret s);
          timers_loop n SystemTime s
      end
  end.

Definition CoreCheckTimers (n : nat) (s : ES) : outcome ES :=
  let '(Owner, s) := CoreAcquireLock mEfiTimerLock s in
  '(SystemTime, s) ← CoreCurrentSystemTime s;
  s ← timers_loop n SystemTime s;
  CoreReleaseLock Owner s.

(** [Event->NotifyFunction (Event, Event->NotifyContext)]. *)
Definition call_notify (n : nat) (e : Z) (s : ES) : outcome ES :=
  E ← deref (events s !! e);
  if decide (NotifyFunction E = CheckTimersFunction) then CoreCheckTimers n s
  else notify (NotifyFunction E) e (NotifyContext E) s.

(** The first event of the queue is taken off and, with the lock released,
    notified; the lock is held again at the end. *)
Fixpoint dispatch_loop (n : nat) (Priority Owner : Z) (s : ES) : outcome (Z * ES) :=
  match n with
  | O => Fault Diverges
  | S n =>
      l ← queue_head Priority s;
      match l with
      | [] => mret (Owner, s)
      | e :: q =>
          E ← deref (events s !! e);
          let s := update_event e (fun E => set_count (if bits (EventType E) EVT_NOTIFY_SIGNAL then 0 else SignalCount E) (set_notify_link false E))
                     (set_queue (<[Priority := q]> (gEventQueue s)) (gEventPending s) s) in
          s ← CoreReleaseLock Owner s;
          s ← call_notify n e s;
          let '(Owner, s) := CoreAcquireLock gEventQueueLock s in
          dispatch_loop n Priority Owner s
      end
  end.

Definition CoreDispatchEventNotifies (n : nat) (Priority : Z) (s : ES) : outcome ES :=
  let '(Owner, s) := CoreAcquireLock gEventQueueLock s in
  '(Owner, s) ← dispatch_loop n Priority Owner s;
  CoreReleaseLock Owner (set_queue (gEventQueue s) (Z.land (gEventPending s) (u64 (Z.lnot (priority_bit Priority)))) s).

(** What is pending above the new level is dispatched, highest level first. *)
Fixpoint pending_loop (n : nat) (NewTpl : Z) (s : ES) : outcome ES :=
  match n with
  | O => Fault Diverges
  | S n' =>
      if decide (gEventPending s = 0) then mret s else
      let PendingTpl := u64 (HighBitSet64 (gEventPending s)) in
      if decide (PendingTpl <= NewTpl) then mret s else
      let s := set_tpl PendingTpl s in
      let s := if PendingTpl <? TPL_HIGH_LEVEL then CoreSetInterruptState true s else s in
      s ← CoreDispatchEventNotifies n PendingTpl s;
      pending_loop n' NewTpl s
  end.
End lowering.

Fixpoint CoreRestoreTpl (n : nat) (NewTpl : Z) (s : ES) : outcome ES :=
  match n with
  | O => Fault Diverges
  | S n' =>
      let OldTpl := gEfiCurrentTpl s in
      let s := if (TPL_HIGH_LEVEL <=? OldTpl) && (NewTpl <? TPL_HIGH_LEVEL) then set_tpl TPL_HIGH_LEVEL s else s in
      s ← pending_loop (CoreRestoreTpl n') n NewTpl s;
      let s := set_tpl NewTpl s in
      mret (if NewTpl <? TPL_HIGH_LEVEL then CoreSetInterruptState true s else s)
  end.

(* ------------------------------------------------------------------ *)
(** ** The services *)

Context (fuel : nat).
#[local] Abbreviation lower := (CoreRestoreTpl fuel).

Definition CoreTimerTick (Duration : Z) (s : ES) : outcome ES :=
  let '(Owner, s) := CoreAcquireLock mEfiSystemTimeLock s in
  let s := set_time (u64 (mEfiSystemTime s + Duration)) s in
  s ← (match mEfiTimerList s with
       | [] => mret s
       | e :: _ =>
           E ← deref (events s !! e);
           if decide (TriggerTime E <= mEfiSystemTime s) then '(_, s) ← CoreSignalEvent lower (mEfiCheckTimerEvent s) s; mret s
           else mret s
       end);
  CoreReleaseLock lower Owner s.

Definition CoreSetTimer (e Type_ Time : Z) (s : ES) : outcome (Z * ES) :=
  if decide (e = 0) then mret (EFI_INVALID_PARAMETER, s) else
  match events s !! e with
  | None => mret (EFI_INVALID_PARAMETER, s)
  | Some E =>
      if decide (TimerRelative < u32 Type_ \/ bits (EventType E) EVT_TIMER = false) then mret (EFI_INVALID_PARAMETER, s) else
      let '(Owner, s) := CoreAcquireLock mEfiTimerLock s in
      let s := if TimerLinked E then set_timers (filter (fun i => i <> e) (mEfiTimerList s)) s else s in
      let s := update_event e (set_timer false 0 0) s in
      s ← (if decide (Type_ <> TimerCancel) then
             let Time := if decide (Type_ = TimerPeriodic /\ Time = 0) then u64 (GetTimerPeriod (world s)) else Time in
             '(Now, s) ← CoreCurrentSystemTime lower s;
             s ← CoreInsertEventTimer e (update_event e (set_timer false (u64 (Now + Time)) (if decide (Type_ = TimerPeriodic) then Time else 0)) s);
             if decide (Time = 0) then '(_, s) ← CoreSignalEvent lower (mEfiCheckTimerEvent s) s; mret s else mret s
           else mret s);
      s ← CoreReleaseLock lower Owner s; mret (EFI_SUCCESS, s)
  end.

(** A null function, group or place for the event is 0, [None], [false]. *)
Definition CoreCreateEventInternal (Type_ NotifyTpl0 NotifyFunction0 NotifyContext0 : Z) (Group : option EFI_GUID) (Event : bool) (s : ES)
    : outcome (Z * option Z * ES) :=
  if negb Event then mret (EFI_INVALID_PARAMETER, None, s) else
  if decide (Type_ ∉ mEventTable) then mret (EFI_INVALID_PARAMETER, None, s) else
  if decide (Group <> None /\ (Type_ = EVT_SIGNAL_EXIT_BOOT_SERVICES \/ Type_ = EVT_SIGNAL_VIRTUAL_ADDRESS_CHANGE))
  then mret (EFI_INVALID_PARAMETER, None, s) else
  let '(Type_, Group) :=
    match Group with
    | Some g => (if decide (g = gEfiEventExitBootServicesGuid) then EVT_SIGNAL_EXIT_BOOT_SERVICES
                 else if decide (g = gEfiEventVirtualAddressChangeGuid) then EVT_SIGNAL_VIRTUAL_ADDRESS_CHANGE else Type_, Some g)
    | None => (Type_, if decide (Type_ = EVT_SIGNAL_EXIT_BOOT_SERVICES) then Some gEfiEventExitBootServicesGuid
                      else if decide (Type_ = EVT_SIGNAL_VIRTUAL_ADDRESS_CHANGE) then Some gEfiEventVirtualAddressChangeGuid else None)
    end in
  let notified := bits Type_ (Z.lor EVT_NOTIFY_WAIT EVT_NOTIFY_SIGNAL) in
  if decide (notified = true /\ (NotifyFunction0 = 0 \/ NotifyTpl0 <= TPL_APPLICATION \/ TPL_HIGH_LEVEL <= NotifyTpl0))
  then mret (EFI_INVALID_PARAMETER, None, s) else
  let '(p, w) := heap_alloc 184 (world s) in
  let s := set_world w s in
  match p with
  | None => mret (EFI_OUT_OF_RESOURCES, None, s)
  | Some e =>
      let E := mkEvent Type_ 0 (bits Type_ EVT_NOTIFY_SIGNAL) (if notified then NotifyTpl0 else 0) (if notified then NotifyFunction0 else 0)
        (if notified then NotifyContext0 else 0) (default no_guid Group) false (match Group with Some _ => EVT_EXFLAG_EVENT_GROUP | None => 0 end)
        (bits Type_ EVT_RUNTIME) false 0 0 in
      let s := set_events (<[e := E]> (events s)) s in
      let s := if bits Type_ EVT_RUNTIME then set_runtime (EventHead s ++ [e]) s else s in
      s ← (if bits Type_ EVT_NOTIFY_SIGNAL then
             let '(Owner, s) := CoreAcquireLock gEventQueueLock s in
             CoreReleaseLock lower Owner (set_signal_queue (e :: gEventSignalQueue s) s)
           else mret s);
      mret (EFI_SUCCESS, Some e, s)
  end.

Definition CoreCreateEventEx (Type_ NotifyTpl0 NotifyFunction0 NotifyContext0 : Z) (Group : option EFI_GUID) (Event : bool) (s : ES)
    : outcome (Z * option Z * ES) :=
  if decide (bits Type_ (Z.lor EVT_NOTIFY_WAIT EVT_NOTIFY_SIGNAL) = true /\ NotifyTpl0 <> TPL_APPLICATION /\ NotifyTpl0 <> TPL_CALLBACK /\
             NotifyTpl0 <> TPL_NOTIFY)
  then mret (EFI_INVALID_PARAMETER, None, s) else CoreCreateEventInternal Type_ NotifyTpl0 NotifyFunction0 NotifyContext0 Group Event s.

Definition CoreCreateEvent (Type_ NotifyTpl0 NotifyFunction0 NotifyContext0 : Z) (Event : bool) (s : ES) : outcome (Z * option Z * ES) :=
  CoreCreateEventEx Type_ NotifyTpl0 NotifyFunction0 NotifyContext0 None Event s.

Definition CoreInitializeTimer (s : ES) : outcome ES :=
  '(_, e, s) ← CoreCreateEventInternal EVT_NOTIFY_SIGNAL (TPL_HIGH_LEVEL - 1) CheckTimersFunction 0 None true s;
  mret (set_check_timer (default (mEfiCheckTimerEvent s) e) s).

Definition CoreInitializeEventServices (s : ES) : outcome (Z * ES) :=
  let s := set_queue (foldr (fun t q => <[t := []]> q) (gEventQueue s) (seqZ 0 (TPL_HIGH_LEVEL + 1))) (gEventPending s) s in
  s ← CoreInitializeTimer s;
  '(_, e, s) ← CoreCreateEventEx EVT_NOTIFY_SIGNAL TPL_NOTIFY EfiEventEmptyFunction 0 (Some gIdleLoopEventGuid) true s;
  mret (EFI_SUCCESS, set_idle (default (gIdleLoopEvent s) e) s).

(** An event with a notification to wait on is notified if it has not been
    signalled; one that has been is ready, once. *)
Definition CoreCheckEvent (e : Z) (s : ES) : outcome (Z * ES) :=
  if decide (e = 0) then mret (EFI_INVALID_PARAMETER, s) else
  match events s !! e with
  | None => mret (EFI_INVALID_PARAMETER, s)
  | Some E =>
      if bits (EventType E) EVT_NOTIFY_SIGNAL then mret (EFI_INVALID_PARAMETER, s) else
      s ← (if decide (SignalCount E = 0 /\ bits (EventType E) EVT_NOTIFY_WAIT = true) then
             let '(Owner, s) := CoreAcquireLock gEventQueueLock s in
             s ← CoreNotifyEvent e s;
             CoreReleaseLock lower Owner s
           else mret s);
      E ← deref (events s !! e);
      if decide (SignalCount E <> 0) then
        let '(Owner, s) := CoreAcquireLock gEventQueueLock s in
        s ← CoreReleaseLock lower Owner (update_event e (set_count 0) s);
        mret (EFI_SUCCESS, s)
      else mret (EFI_NOT_READY, s)
  end.

(** The first event that is ready or wrong, and its index. *)
Fixpoint wait_round (Index : Z) (l : list Z) (s : ES) : outcome (option (Z * Z) * ES) :=
  match l with
  | [] => mret (None, s)
  | e :: l =>
      '(Status, s) ← CoreCheckEvent e s;
      if decide (Status <> EFI_NOT_READY) then mret (Some (Status, Index), s) else wait_round (Index + 1) l s
  end.

Fixpoint wait_loop (n : nat) (UserEvents : list Z) (s : ES) : outcome (Z * Z * ES) :=
  match n with
  | O => Fault Diverges
  | S n =>
      '(r, s) ← wait_round 0 UserEvents s;
      match r with
      | Some (Status, Index) => mret (Status, Index, s)
      | None => '(_, s) ← CoreSignalEvent lower (gIdleLoopEvent s) s; wait_loop n UserEvents s
      end
  end.

(** [UserEvents] is [None] for a null pointer; the index is written if there
    is one. *)
Definition CoreWaitForEvent (n : nat) (NumberOfEvents : Z) (UserEvents : option (list Z)) (s : ES) : outcome (Z * option Z * ES) :=
  if decide (gEfiCurrentTpl s <> TPL_APPLICATION) then mret (EFI_UNSUPPORTED, None, s) else
  if decide (NumberOfEvents = 0) then mret (EFI_INVALID_PARAMETER, None, s) else
  match UserEvents with
  | None => mret (EFI_INVALID_PARAMETER, None, s)
  | Some l => '(Status, Index, s) ← wait_loop n (take (Z.to_nat NumberOfEvents) l) s; mret (Status, Some Index, s)
  end.

(** The event leaves every list it is on and is given back. *)
Definition CoreCloseEvent (e : Z) (s : ES) : outcome (Z * ES) :=
  if decide (e = 0) then mret (EFI_INVALID_PARAMETER, s) else
  match events s !! e with
  | None => mret (EFI_INVALID_PARAMETER, s)
  | Some E =>
      s ← (if bits (EventType E) EVT_TIMER then '(_, s) ← CoreSetTimer e TimerCancel 0 s; mret s else mret s);
      E ← deref (events s !! e);
      let '(Owner, s) := CoreAcquireLock gEventQueueLock s in
      let s := if RuntimeLinked E then set_runtime (filter (fun i => i <> e) (EventHead s)) s else s in
      let s := if NotifyLinked E
               then set_queue (alter (filter (fun i => i <> e)) (NotifyTpl E) (gEventQueue s)) (gEventPending s) s else s in
      let s := if SignalLinked E then set_signal_queue (filter (fun i => i <> e) (gEventSignalQueue s)) s else s in
      s ← CoreReleaseLock lower Owner s;
      E ← deref (events s !! e);
      let s := if bits (ExFlag E) EVT_EXFLAG_EVENT_PROTOCOL_NOTIFICATION then set_world (CoreUnregisterProtocolNotify e (world s)) s else s in
      mret (EFI_SUCCESS, set_world (heap_free e (world s)) (set_events (delete e (events s)) s))
  end.

End services.
