(* ===== verification/DxeEventOk.v ===== *)
(** * DXE core: what lowering the level delivers

    The dispatcher of [DxeEvent.v]: the highest bit, the levels, and
    [delivered], the specification of [CoreRestoreTpl]: as long as something is
    pending above the new level, the first event of the highest level's queue
    is notified at its own level. *)
From Stdlib Require Import ZArith Lia.
From stdpp Require Import base gmap list.
From S2P Require Import Prelude Pointer Firmware DxePage Heap DevicePath DxeHand DxeEvent.
#[local] Open Scope Z_scope.
#[local] Ltac dred := unfold deref; mred.

(* ------------------------------------------------------------------ *)
(** ** The highest bit *)

Lemma HighBitSet32_loop_log2 n : forall k x, 0 < x < 2 ^ 32 -> 31 - Z.log2 x < Z.of_nat n ->
  HighBitSet32_loop n k x = k - (31 - Z.log2 x).
Proof.
  induction n as [|n IH]; intros k x Hx Hn.
  { assert (Z.log2 x <= 31); [|lia]. pose proof (proj1 (Z.log2_lt_pow2 x 32 ltac:(lia)) ltac:(lia)). lia. }
  cbn [HighBitSet32_loop]. destruct (Z.lt_ge_cases x (2 ^ 31)) as [Hlt|Hge].
  - rewrite i32_id by lia. rewrite (proj2 (Z.ltb_lt 0 x)) by lia. rewrite Z.shiftl_mul_pow2 by lia. rewrite u32_id by lia.
    assert (Z.log2 (x * 2 ^ 1) = Z.log2 x + 1) as El by (rewrite Z.log2_mul_pow2 by lia; lia).
    rewrite IH, El; lia.
  - replace (i32 x) with (x - 2 ^ 32).
    + rewrite (proj2 (Z.ltb_ge 0 _)) by lia. assert (Z.log2 x = 31) as ->; [|lia]. apply Z.log2_unique; lia.
    + unfold i32. symmetry. replace (x + 2147483648) with (x - 2147483648 + 1 * 4294967296) by lia. rewrite Z.mod_add by lia.
      rewrite Z.mod_small by lia. lia.
Qed.

Lemma HighBitSet32_log2 x : 0 < x < 2 ^ 32 -> HighBitSet32 x = Z.log2 x.
Proof.
  intros Hx. unfold HighBitSet32. rewrite (proj2 (Z.eqb_neq x 0)) by lia. rewrite HighBitSet32_loop_log2 by (try lia; pose proof (Z.log2_nonneg x); lia). lia.
Qed.

Lemma HighBitSet64_log2 x : 0 < x < 2 ^ 64 -> HighBitSet64 x = Z.log2 x.
Proof.
  intros Hx. unfold HighBitSet64. destruct (Z.eqb_spec x (u32 x)) as [E|Hne].
  - rewrite <- E. apply HighBitSet32_log2. pose proof (u32_range x). lia.
  - assert (2 ^ 32 <= x) as Hge by (destruct (Z.lt_ge_cases x (2 ^ 32)); [exfalso; apply Hne; by rewrite u32_id by lia|done]).
    rewrite Z.shiftr_div_pow2 by lia. assert (0 < x / 2 ^ 32 < 2 ^ 32) as Hd.
    { split; [apply Z.div_str_pos; lia|apply Z.div_lt_upper_bound; lia]. }
    rewrite u32_id by lia. rewrite HighBitSet32_log2 by done. rewrite <- Z.shiftr_div_pow2 by lia. rewrite Z.log2_shiftr by lia.
    pose proof (Z.log2_le_mono _ _ Hge) as Hl. rewrite Z.log2_pow2 in Hl by lia. lia.
Qed.

Lemma priority_bit_pow t : 0 <= t <= 30 -> priority_bit t = 2 ^ t.
Proof.
  intros Ht. unfold priority_bit, shl32. replace (Z.land t 31) with t.
  2:{ change 31 with (Z.ones 5). rewrite Z.land_ones by lia. by rewrite Z.mod_small by lia. }
  rewrite Z.shiftl_mul_pow2 by lia. rewrite Z.mul_1_l.
  assert (2 ^ t <= 2 ^ 30) by (apply Z.pow_le_mono_r; lia). pose proof (Z.pow_pos_nonneg 2 t ltac:(lia) ltac:(lia)).
  rewrite u32_id, i32_id, u64_id by lia. done.
Qed.

(* ------------------------------------------------------------------ *)
(** ** Levels and locks *)

Section levels.
Context {W : Type} `{Heap W}.
#[local] Abbreviation ES := (EVENTS W).
Context (gCpu : bool) (gSmmBase2 : option (Z * bool)) (notify : Z -> Z -> Z -> ES -> outcome ES) (CheckTimersFunction : Z).
#[local] Abbreviation restore := (CoreRestoreTpl gCpu gSmmBase2 notify CheckTimersFunction).
#[local] Abbreviation interrupts := (CoreSetInterruptState gCpu gSmmBase2).
#[local] Abbreviation acquire := (CoreAcquireLock gCpu gSmmBase2).

(** Whether interrupts are on after they are switched on or off. *)
Definition switched (b i : bool) : bool :=
  if negb gCpu then i else
  if negb b then false else
  match gSmmBase2 with None => true | Some (Status, InSmm) => (negb (EFI_ERROR Status) && negb InSmm) || i end.

(** Level [t] after a lock at the highest level was held and released. *)
Definition at_level (t : Z) (s : ES) : ES :=
  set_level t (if t <? TPL_HIGH_LEVEL then switched true (switched false (Interrupts s)) else Interrupts s) s.

Definition locked (s : ES) : ES :=
  set_level TPL_HIGH_LEVEL (if gEfiCurrentTpl s <? TPL_HIGH_LEVEL then switched false (Interrupts s) else Interrupts s) s.

Definition lowered (t : Z) (s : ES) : ES :=
  set_level t (if t <? TPL_HIGH_LEVEL then switched true (Interrupts s) else Interrupts s) s.

(** Nothing is pending above [t]. *)
Definition calm (t : Z) (s : ES) : Prop := gEventPending s < 2 ^ (t + 1).

Lemma interrupts_switched b (s : ES) : interrupts b s = set_level (gEfiCurrentTpl s) (switched b (Interrupts s)) s.
Proof.
  unfold CoreSetInterruptState, switched. destruct gCpu, b, gSmmBase2 as [[Status InSmm]|]; cbn; try done; try (by destruct s).
  destruct (negb (EFI_ERROR Status) && negb InSmm); [done|by destruct s].
Qed.

Lemma switched_switched b i : switched b (switched b i) = switched b i.
Proof. unfold switched. destruct gCpu, b, gSmmBase2 as [[Status InSmm]|]; cbn; try done. by destruct (_ && _). Qed.

Lemma switched_off b i : switched false (switched b i) = switched false i.
Proof. unfold switched. by destruct gCpu, b. Qed.

Lemma at_level_at_level t t' (s : ES) : t < TPL_HIGH_LEVEL -> at_level t (at_level t' s) = at_level t s.
Proof.
  intros Ht. unfold at_level. cbn [Interrupts set_level]. rewrite (proj2 (Z.ltb_lt t _)) by done.
  destruct (t' <? _); [by rewrite !switched_off|done].
Qed.

Lemma at_level_twice t (s : ES) : at_level t (at_level t s) = at_level t s.
Proof. unfold at_level. cbn [Interrupts set_level]. destruct (t <? _); [by rewrite !switched_off|done]. Qed.

Lemma acquire_locked (s : ES) : acquire TPL_HIGH_LEVEL s = (gEfiCurrentTpl s, locked s).
Proof.
  unfold CoreAcquireLock, CoreRaiseTpl, locked. change (TPL_HIGH_LEVEL <=? TPL_HIGH_LEVEL) with true. cbn [andb].
  destruct (_ <? _); [|done]. by rewrite interrupts_switched.
Qed.

Lemma high_bit (s : ES) : 0 < gEventPending s < 2 ^ 31 ->
  u64 (HighBitSet64 (gEventPending s)) = Z.log2 (gEventPending s) /\ 0 <= Z.log2 (gEventPending s) <= 30.
Proof.
  intros Hp. assert (0 <= Z.log2 (gEventPending s) <= 30) as Hl.
  { split; [apply Z.log2_nonneg|]. pose proof (proj1 (Z.log2_lt_pow2 (gEventPending s) 31 ltac:(lia)) ltac:(lia)). lia. }
  rewrite HighBitSet64_log2 by lia. by rewrite u64_id by lia.
Qed.

Lemma calm_log2 t (s : ES) : 0 <= gEventPending s -> 0 <= t -> calm t s <-> gEventPending s = 0 \/ Z.log2 (gEventPending s) <= t.
Proof.
  unfold calm. intros Hp Ht. destruct (decide (gEventPending s = 0)) as [->|Hn].
  - split; [by left|]. intros _. apply Z.pow_pos_nonneg; lia.
  - rewrite Z.log2_lt_pow2 by lia. split; [right; lia|intros [?|?]; lia].
Qed.

(** Nothing is pending above the new level: lowering changes the level only. *)
Lemma restore_calm n t (s : ES) : 0 <= gEventPending s < 2 ^ 31 -> 0 <= t -> calm t s -> restore (S n) t s = Done (lowered t s).
Proof.
  intros Hp Ht Hc. apply calm_log2 in Hc; [|lia|done]. cbn [CoreRestoreTpl].
  set (s1 := if _ && _ then _ else _). assert (exists i, s1 = set_level i (Interrupts s) s) as [i E1].
  { unfold s1. destruct (_ && _); [by exists TPL_HIGH_LEVEL|exists (gEfiCurrentTpl s); by destruct s]. }
  assert (pending_loop gCpu gSmmBase2 notify CheckTimersFunction (restore n) (S n) t s1 = Done s1) as ->.
  { cbn [pending_loop]. replace (gEventPending s1) with (gEventPending s) by (by rewrite E1). destruct (decide (gEventPending s = 0)) as [|Hn]; [done|].
    destruct (high_bit s ltac:(lia)) as [-> _]. rewrite decide_True; [done|]. destruct Hc; [done|lia]. }
  mred. rewrite interrupts_switched, E1. unfold lowered. by destruct (_ <? _).
Qed.

(** A lock at the highest level is released when nothing is pending above the
    level it was taken at; [s'] is what was done in between. *)
Lemma release_calm n (s s' : ES) : 0 <= gEventPending s' < 2 ^ 31 -> 0 <= gEfiCurrentTpl s <= TPL_HIGH_LEVEL -> calm (gEfiCurrentTpl s) s' ->
  Interrupts s' = Interrupts (locked s) ->
  restore (S n) (gEfiCurrentTpl s) s' = Done (at_level (gEfiCurrentTpl s) (set_level (gEfiCurrentTpl s) (Interrupts s) s')).
Proof.
  intros Hp Ht Hc Hi. rewrite restore_calm by (done || lia). unfold lowered, at_level. rewrite Hi. unfold locked. cbn [Interrupts set_level].
  by destruct (_ <? _).
Qed.
End levels.

(* ------------------------------------------------------------------ *)
(** ** Queues *)

Section queues.
Context {W : Type}.
#[local] Abbreviation ES := (EVENTS W).

Lemma events_update e f (s : ES) i : events (update_event e f s) !! i = if decide (i = e) then f <$> events s !! i else events s !! i.
Proof.
  unfold update_event. cbn [events set_events]. destruct (decide (i = e)) as [->|Hne]; [apply lookup_alter_eq|by apply lookup_alter_ne].
Qed.

Lemma filter_ne_id (e : Z) (l : list Z) : e ∉ l -> filter (fun i => i <> e) l = l.
Proof.
  induction l as [|i l IH]; [done|]. intros Hn. apply not_elem_of_cons in Hn as [Hne Hn]. rewrite filter_cons, decide_True by congruence. by rewrite IH.
Qed.

(** The queues: the heads are set up, from level 0 to the highest; their members are the events whose link says so, each once and
    at its own level; a level whose queue is not empty is pending. *)
Record queues_ok (s : ES) : Prop := {
  q_heads : forall t, 0 <= t <= TPL_HIGH_LEVEL -> is_Some (gEventQueue s !! t);
  q_pending : 0 <= gEventPending s < 2 ^ 31;
  q_bit : forall t, queue t s <> [] -> Z.testbit (gEventPending s) t = true;
  q_in : forall t e, e ∈ queue t s <-> exists E, events s !! e = Some E /\ NotifyLinked E = true /\ NotifyTpl E = t;
  q_nodup : forall t, NoDup (queue t s);
  q_level : forall e E, events s !! e = Some E -> 0 <= NotifyTpl E < 31;
  q_signal : forall e, e ∈ gEventSignalQueue s <-> exists E, events s !! e = Some E /\ SignalLinked E = true;
  q_once : NoDup (gEventSignalQueue s);
  q_null : events s !! 0 = None;
}.

(** The event moves to the end of the queue of its level. *)
Definition enqueue (e : Z) (s : ES) : ES :=
  match events s !! e with
  | Some E =>
      update_event e (set_notify_link true)
        (set_queue (<[NotifyTpl E := filter (fun i => i <> e) (queue (NotifyTpl E) s) ++ [e]]> (gEventQueue s))
           (Z.lor (gEventPending s) (2 ^ NotifyTpl E)) s)
  | None => s
  end.

(** The event is signalled; what is notified of it is queued, for an event with
    a group every event of the group that can be signalled. *)
Definition group_of (g : EFI_GUID) (s : ES) : list Z :=
  filter (fun e => EventGroup <$> events s !! e = Some g) (gEventSignalQueue s).
Definition enqueue_all (l : list Z) (s : ES) : ES := foldl (fun s e => enqueue e s) s l.
Definition signalled (e : Z) (s : ES) : ES :=
  match events s !! e with
  | Some E =>
      if decide (SignalCount E = 0) then
        let s' := update_event e (set_count 1) s in
        if bits (EventType E) EVT_NOTIFY_SIGNAL
        then enqueue_all (if bits (ExFlag E) EVT_EXFLAG_EVENT_GROUP then group_of (EventGroup E) s' else [e]) s'
        else s'
      else s
  | None => s
  end.

Lemma queue_insert t (l : list Z) p (s : ES) i :
  queue i (set_queue (<[t := l]> (gEventQueue s)) p s) = if decide (i = t) then l else queue i s.
Proof.
  unfold queue. cbn [gEventQueue set_queue]. destruct (decide (i = t)) as [->|Hne]; [by rewrite lookup_insert_eq|by rewrite lookup_insert_ne by congruence].
Qed.

(** A queue that is set up, as the code finds it. *)
Lemma queue_head_ok t (s : ES) : queues_ok s -> 0 <= t <= TPL_HIGH_LEVEL -> queue_head t s = Done (queue t s).
Proof. intros Hq Ht. unfold queue_head, queue. by destruct (q_heads s Hq t Ht) as [q ->]. Qed.

Lemma heads_insert t (l : list Z) p (s : ES) i : is_Some (gEventQueue s !! i) ->
  is_Some (gEventQueue (set_queue (<[t := l]> (gEventQueue s)) p s) !! i).
Proof. intros Hi. cbn. destruct (decide (i = t)) as [->|]; [rewrite lookup_insert_eq; by eexists|by rewrite lookup_insert_ne by congruence]. Qed.

Lemma lor_below a t : 0 <= a < 2 ^ 31 -> 0 <= t < 31 -> 0 <= Z.lor a (2 ^ t) < 2 ^ 31.
Proof.
  intros Ha Ht. assert (0 <= 2 ^ t) by (apply Z.pow_nonneg; lia). assert (0 <= Z.lor a (2 ^ t)) by (apply Z.lor_nonneg; lia). split; [done|].
  destruct (decide (Z.lor a (2 ^ t) = 0)) as [->|Hn]; [lia|]. apply Z.log2_lt_pow2; [lia|]. rewrite Z.log2_lor by lia.
  rewrite Z.log2_pow2 by lia. apply Z.max_lub_lt; [|lia]. destruct (decide (a = 0)) as [->|]; [done|]. apply Z.log2_lt_pow2; lia.
Qed.

Lemma enqueue_ok e (s : ES) : queues_ok s -> queues_ok (enqueue e s).
Proof.
  intros Hok. unfold enqueue. destruct (events s !! e) as [E|] eqn:Ee; [|done]. destruct Hok as [Hh Hp Hb Hi Hn Hl Hs Ho Hz].
  pose proof (Hl e E Ee) as Hle. split; cbn [gEventPending update_event set_events set_queue gEventSignalQueue].
  - intros t Ht. apply (heads_insert _ _ (gEventPending s)), Hh, Ht.
  - by apply lor_below.
  - intros t. change (queue t (update_event e ?f ?s)) with (queue t s). rewrite queue_insert. rewrite Z.lor_spec, Z.pow2_bits_eqb by lia.
    destruct (decide (t = NotifyTpl E)) as [->|Hne]; [by rewrite Z.eqb_refl, orb_true_r|]. intros Hq. by rewrite (Hb t Hq).
  - intros t i. change (queue t (update_event e ?f ?s)) with (queue t s). rewrite queue_insert, events_update. cbn [events set_queue].
    destruct (decide (t = NotifyTpl E)) as [->|Hne].
    + rewrite elem_of_app, list_elem_of_filter, list_elem_of_singleton, Hi. destruct (decide (i = e)) as [->|Hie].
      * rewrite Ee. split; [|by right]. intros _. by eexists.
      * naive_solver.
    + rewrite Hi. destruct (decide (i = e)) as [->|Hie]; [|done]. rewrite Ee. naive_solver.
  - intros t. change (queue t (update_event e ?f ?s)) with (queue t s). rewrite queue_insert. destruct (decide (t = NotifyTpl E)) as [->|]; [|apply Hn].
    apply NoDup_app. split; [by apply NoDup_filter|]. split; [|apply NoDup_singleton]. intros i Hin. apply list_elem_of_filter in Hin.
    rewrite list_elem_of_singleton. naive_solver.
  - intros i F. rewrite events_update. cbn [events set_queue]. destruct (decide (i = e)) as [->|]; [|apply Hl]. rewrite Ee. cbn. intros [= <-]. done.
  - intros i. rewrite Hs, events_update. cbn [events set_queue]. destruct (decide (i = e)) as [->|]; [|done]. rewrite Ee. naive_solver.
  - done.
  - rewrite events_update. cbn [events set_queue]. destruct (decide (0 = e)) as [<-|]; [|done]. by rewrite Hz.
Qed.

Lemma queues_ok_count e n (s : ES) : queues_ok s -> queues_ok (update_event e (set_count n) s).
Proof.
  intros [Hh Hp Hb Hi Hn Hl Hs Ho Hz]. split; try done.
  - intros t i. change (queue t (update_event e ?f ?s)) with (queue t s). rewrite Hi, events_update. destruct (decide (i = e)) as [->|]; [|done].
    destruct (events s !! e); naive_solver.
  - intros i F. rewrite events_update. destruct (decide (i = e)) as [->|]; [|apply Hl]. destruct (events s !! e) as [E|] eqn:Ee; [|done].
    intros [= <-]. by apply (Hl e E).
  - intros i. cbn [gEventSignalQueue update_event set_events]. rewrite Hs, events_update. destruct (decide (i = e)) as [->|]; [|done].
    destruct (events s !! e); naive_solver.
  - rewrite events_update. destruct (decide (0 = e)) as [<-|]; [|done]. by rewrite Hz.
Qed.

Lemma queues_ok_level t b (s : ES) : queues_ok s -> queues_ok (set_level t b s).
Proof. by intros []. Qed.

Lemma enqueue_all_ok l (s : ES) : queues_ok s -> queues_ok (enqueue_all l s).
Proof. revert s. induction l as [|e l IH]; intros s Hok; [done|]. by apply IH, enqueue_ok. Qed.

Lemma signalled_ok e (s : ES) : queues_ok s -> queues_ok (signalled e s).
Proof.
  intros Hok. unfold signalled. destruct (events s !! e) as [E|]; [|done]. destruct (decide _); [|done].
  pose proof (queues_ok_count e 1 s Hok). destruct (bits _ _); [|done]. by apply enqueue_all_ok.
Qed.

(** Signalling does not look at the level. *)
Lemma enqueue_level t b e (s : ES) : enqueue e (set_level t b s) = set_level t b (enqueue e s).
Proof. unfold enqueue. cbn [events set_level]. by destruct (events s !! e). Qed.

Lemma enqueue_all_level t b l (s : ES) : enqueue_all l (set_level t b s) = set_level t b (enqueue_all l s).
Proof. revert s. induction l as [|e l IH]; intros s; [done|]. unfold enqueue_all in *. cbn [foldl]. by rewrite enqueue_level, IH. Qed.

Lemma signalled_level t b e (s : ES) : signalled e (set_level t b s) = set_level t b (signalled e s).
Proof.
  unfold signalled. cbn [events set_level]. destruct (events s !! e) as [E|]; [|done]. destruct (decide _); [|done].
  change (update_event e (set_count 1) (set_level t b s)) with (set_level t b (update_event e (set_count 1) s)).
  destruct (bits _ _); [|done]. change (group_of ?g (set_level t b ?s)) with (group_of g s). by rewrite enqueue_all_level.
Qed.

(** What is pending only grows. *)
Lemma lor_ge a b : 0 <= a -> 0 <= b -> a <= Z.lor a b.
Proof.
  intros Ha Hb. apply Z.ldiff_le; [by apply Z.lor_nonneg|]. apply Z.bits_inj'. intros i Hi. rewrite Z.ldiff_spec, Z.lor_spec, Z.bits_0.
  by destruct (Z.testbit a i), (Z.testbit b i).
Qed.

Lemma enqueue_pending e (s : ES) : queues_ok s -> gEventPending s <= gEventPending (enqueue e s).
Proof.
  intros Hok. unfold enqueue. destruct (events s !! e) as [E|] eqn:Ee; [|done]. cbn [gEventPending update_event set_events set_queue].
  apply lor_ge; [apply (q_pending s Hok)|]. apply Z.pow_nonneg. lia.
Qed.

Lemma enqueue_all_pending l (s : ES) : queues_ok s -> gEventPending s <= gEventPending (enqueue_all l s).
Proof.
  revert s. induction l as [|e l IH]; intros s Hok; [done|]. unfold enqueue_all in *. cbn [foldl].
  pose proof (IH _ (enqueue_ok e s Hok)). pose proof (enqueue_pending e s Hok). lia.
Qed.

Lemma signalled_pending e (s : ES) : queues_ok s -> gEventPending s <= gEventPending (signalled e s).
Proof.
  intros Hok. unfold signalled. destruct (events s !! e) as [E|]; [|done]. destruct (decide _); [|done].
  destruct (bits _ _); [|done]. by apply (enqueue_all_pending _ _ (queues_ok_count e 1 s Hok)).
Qed.

(** Enqueuing changes no event but for its link. *)
Lemma enqueue_event e (s : ES) i F : events (enqueue e s) !! i = Some F ->
  exists E, events s !! i = Some E /\ F = set_notify_link (NotifyLinked F) E.
Proof.
  unfold enqueue. destruct (events s !! e) as [E|] eqn:Ee.
  - rewrite events_update. cbn [events set_queue]. destruct (decide (i = e)) as [->|Hne].
    + rewrite Ee. intros [= <-]. by exists E.
    + intros Hi. exists F. split; [done|]. by destruct F.
  - intros Hi. exists F. split; [done|]. by destruct F.
Qed.

Lemma enqueue_dom e (s : ES) i : is_Some (events (enqueue e s) !! i) <-> is_Some (events s !! i).
Proof.
  unfold enqueue. destruct (events s !! e) as [E|] eqn:Ee; [|done]. rewrite events_update. cbn [events set_queue].
  destruct (decide (i = e)) as [->|]; [|done]. rewrite Ee. by split; eexists.
Qed.

(** Signalling changes the counts and the links of notifications only. *)
Lemma enqueue_all_event l (s : ES) i : (fun E => (set_notify_link false E)) <$> events (enqueue_all l s) !! i = set_notify_link false <$> events s !! i.
Proof.
  revert s. induction l as [|e l IH]; intros s; [done|]. unfold enqueue_all in *. cbn [foldl]. rewrite IH. unfold enqueue.
  destruct (events s !! e) as [E|] eqn:Ee; [|done]. rewrite events_update. cbn [events set_queue].
  destruct (decide (i = e)) as [->|]; [|done]. by rewrite Ee.
Qed.

Definition static (E : IEVENT) : IEVENT := set_notify_link false (set_count 0 E).

Lemma signalled_static e (s : ES) i : static <$> events (signalled e s) !! i = static <$> events s !! i.
Proof.
  unfold signalled. destruct (events s !! e) as [E|] eqn:Ee; [|done]. destruct (decide _); [|done].
  assert (static <$> events (update_event e (set_count 1) s) !! i = static <$> events s !! i) as Hs.
  { rewrite events_update. destruct (decide (i = e)) as [->|]; [|done]. by rewrite Ee. }
  destruct (bits _ _); [|done]. rewrite <- Hs. set (l := if bits _ _ then _ else _). set (s' := update_event _ _ _).
  pose proof (enqueue_all_event l s' i) as He. destruct (events (enqueue_all l s') !! i) as [F|], (events s' !! i) as [G|]; try done. cbn in *.
  injection He. intros. f_equal. unfold static, set_notify_link, set_count. cbn. by f_equal.
Qed.

Definition count (i : Z) (s : ES) : option Z := SignalCount <$> events s !! i.

Lemma signalled_count e (s : ES) i : count i (signalled e s) = if decide (i = e /\ count e s = Some 0) then Some 1 else count i s.
Proof.
  assert (forall l (s : ES), count i (enqueue_all l s) = count i s) as Hall.
  { intros l s'. unfold count. pose proof (enqueue_all_event l s' i) as He.
    destruct (events (enqueue_all l s') !! i) as [F|], (events s' !! i) as [G|]; try done. cbn in *. injection He. intros. by f_equal. }
  unfold signalled. assert (count e s = SignalCount <$> events s !! e) as Hce by done. destruct (events s !! e) as [E|] eqn:Ee; cbn in Hce.
  2:{ rewrite decide_False; [done|]. intros [_ ?]. congruence. }
  destruct (decide (SignalCount E = 0)) as [Hz|Hz].
  2:{ rewrite decide_False; [done|]. intros [_ ?]. congruence. }
  assert (count i (update_event e (set_count 1) s) = if decide (i = e /\ count e s = Some 0) then Some 1 else count i s) as Hc.
  { unfold count at 1. rewrite events_update. destruct (decide (i = e)) as [->|Hne].
    - rewrite decide_True by (split; congruence). by rewrite Ee.
    - rewrite decide_False by naive_solver. done. }
  destruct (bits _ _); [|done]. by rewrite Hall.
Qed.

(** An event that has been signalled is not signalled again. *)
Lemma signalled_again e (s : ES) : count e s <> Some 0 -> signalled e s = s.
Proof. unfold signalled, count. destruct (events s !! e) as [E|]; [|done]. intros Hn. rewrite decide_False; [done|]. cbn in Hn. congruence. Qed.

Lemma signalled_twice e (s : ES) : signalled e (signalled e s) = signalled e s.
Proof. apply signalled_again. rewrite signalled_count. destruct (decide _) as [|Hn]; [done|]. naive_solver. Qed.

Lemma signalled_dom e (s : ES) i : is_Some (events (signalled e s) !! i) <-> is_Some (events s !! i).
Proof.
  pose proof (signalled_static e s i) as Hs. destruct (events (signalled e s) !! i), (events s !! i); try done; by split; eexists.
Qed.

(* ------------------------------------------------------------------ *)
(** ** The code *)

Context `{Heap W} (gCpu : bool) (gSmmBase2 : option (Z * bool)) (notify : Z -> Z -> Z -> ES -> outcome ES) (CheckTimersFunction : Z).
#[local] Abbreviation restore := (CoreRestoreTpl gCpu gSmmBase2 notify CheckTimersFunction).
#[local] Abbreviation at_level := (at_level gCpu gSmmBase2).
#[local] Abbreviation locked := (locked gCpu gSmmBase2).

Lemma CoreNotifyEvent_ok e (s : ES) : queues_ok s -> is_Some (events s !! e) -> CoreNotifyEvent e s = Done (enqueue e s).
Proof.
  intros Hok [E Ee]. unfold CoreNotifyEvent, enqueue. rewrite Ee. dred. pose proof (q_level s Hok e E Ee) as Hl.
  rewrite decide_True by (unfold TPL_HIGH_LEVEL; lia). rewrite queue_head_ok by (done || unfold TPL_HIGH_LEVEL; lia). mred.
  rewrite priority_bit_pow by lia. destruct (NotifyLinked E) eqn:El; [done|].
  rewrite filter_ne_id; [done|]. intros Hin. apply (q_in s Hok) in Hin as (F & EF & EL & _). congruence.
Qed.

Lemma group_of_enqueue g e (s : ES) : group_of g (enqueue e s) = group_of g s.
Proof.
  unfold group_of. replace (gEventSignalQueue (enqueue e s)) with (gEventSignalQueue s) by (unfold enqueue; by destruct (events s !! e)).
  apply list_filter_iff. intros i. unfold enqueue. destruct (events s !! e) as [E|] eqn:Ee; [|done]. rewrite events_update. cbn [events set_queue].
  destruct (decide (i = e)) as [->|]; [|done]. by rewrite Ee.
Qed.

Lemma notify_group_ok g l : forall s : ES, queues_ok s -> (forall e, e ∈ l -> is_Some (events s !! e)) ->
  notify_group g l s = Done (enqueue_all (filter (fun e => EventGroup <$> events s !! e = Some g) l) s).
Proof.
  induction l as [|e l IH]; intros s Hok Hl; [done|]. cbn [notify_group]. destruct (Hl e) as [E Ee]; [left|]. rewrite filter_cons. rewrite Ee. dred.
  assert (forall s', (forall i, EventGroup <$> events s' !! i = EventGroup <$> events s !! i) -> queues_ok s' ->
    notify_group g l s' = Done (enqueue_all (filter (fun e => EventGroup <$> events s !! e = Some g) l) s')) as Hstep.
  { intros s' Hg Hok'. rewrite IH; [|done|].
    - f_equal. f_equal. apply list_filter_iff. intros i. by rewrite Hg.
    - intros i Hi. destruct (Hl i) as [F EF]; [by right|]. specialize (Hg i). rewrite EF in Hg. destruct (events s' !! i); [by eexists|done]. }
  cbn [fmap option_fmap option_map]. destruct (decide (EventGroup E = g)) as [Hg|Hg].
  - rewrite decide_True by congruence. rewrite CoreNotifyEvent_ok by (done || by eexists). mred. rewrite Hstep; [done| |by apply enqueue_ok].
    intros i. unfold enqueue. rewrite Ee. rewrite events_update. cbn [events set_queue]. destruct (decide (i = e)) as [->|]; [|done]. by rewrite Ee.
  - rewrite decide_False by congruence. mred. by apply Hstep.
Qed.

Lemma signal_exists (s : ES) e : queues_ok s -> e ∈ gEventSignalQueue s -> is_Some (events s !! e).
Proof. intros Hok Hin. apply (q_signal s Hok) in Hin as (E & -> & _). by eexists. Qed.

(** A lock at the highest level, then [s'], then the release. *)
Lemma release_locked n (s s' : ES) : queues_ok s' -> 0 <= gEfiCurrentTpl s <= TPL_HIGH_LEVEL -> calm (gEfiCurrentTpl s) s' ->
  gEfiCurrentTpl s' = gEfiCurrentTpl s -> Interrupts s' = Interrupts s ->
  restore (S n) (gEfiCurrentTpl s) (set_level TPL_HIGH_LEVEL (Interrupts (locked s)) s') = Done (at_level (gEfiCurrentTpl s) s').
Proof.
  intros Hok Ht Hc HT HI. rewrite release_calm; [|apply (q_pending s' Hok)|done|done|done]. do 2 f_equal. cbn. destruct s'. cbn in *. by subst.
Qed.

Lemma enqueue_all_same l (s : ES) : gEfiCurrentTpl (enqueue_all l s) = gEfiCurrentTpl s /\ Interrupts (enqueue_all l s) = Interrupts s.
Proof.
  revert s. induction l as [|e l IH]; intros s; [done|]. unfold enqueue_all in *. cbn [foldl]. destruct (IH (enqueue e s)) as [-> ->].
  unfold enqueue. by destruct (events s !! e).
Qed.

Lemma signalled_same e (s : ES) : gEfiCurrentTpl (signalled e s) = gEfiCurrentTpl s /\ Interrupts (signalled e s) = Interrupts s.
Proof.
  unfold signalled. destruct (events s !! e); [|done]. destruct (decide _); [|done]. destruct (bits _ _); [|done].
  apply (enqueue_all_same _ (update_event e (set_count 1) s)).
Qed.

Lemma enqueue_all_at t l (s : ES) : enqueue_all l (at_level t s) = at_level t (enqueue_all l s).
Proof. unfold DxeEventOk.at_level. rewrite enqueue_all_level. by destruct (enqueue_all_same l s) as [_ ->]. Qed.

Lemma signalled_at t e (s : ES) : signalled e (at_level t s) = at_level t (signalled e s).
Proof. unfold DxeEventOk.at_level. rewrite signalled_level. by destruct (signalled_same e s) as [_ ->]. Qed.

Lemma calm_mono t (s s' : ES) : gEventPending s <= gEventPending s' -> calm t s' -> calm t s.
Proof. unfold calm. lia. Qed.

Lemma CoreNotifySignalList_ok n g (s : ES) : queues_ok s -> 0 <= gEfiCurrentTpl s <= TPL_HIGH_LEVEL ->
  calm (gEfiCurrentTpl s) (enqueue_all (group_of g s) s) ->
  CoreNotifySignalList gCpu gSmmBase2 (restore (S n)) g s = Done (at_level (gEfiCurrentTpl s) (enqueue_all (group_of g s) s)).
Proof.
  intros Hok Ht Hc. unfold CoreNotifySignalList, gEventQueueLock. rewrite acquire_locked. unfold locked at 1 2. cbn [gEventSignalQueue set_level].
  rewrite notify_group_ok; [|by apply queues_ok_level|intros e He; by apply (signal_exists s)].
  mred. fold (group_of g s). rewrite enqueue_all_level. apply release_locked; [by apply enqueue_all_ok|done|done|apply enqueue_all_same..].
Qed.

(** Signalling an event at a level nothing is pending above: the event and what
    it notifies are queued, nothing else changes. *)
Lemma CoreSignalEvent_ok n e (s : ES) : queues_ok s -> is_Some (events s !! e) -> 0 <= gEfiCurrentTpl s <= TPL_HIGH_LEVEL ->
  calm (gEfiCurrentTpl s) (signalled e s) ->
  CoreSignalEvent gCpu gSmmBase2 (restore (S n)) e s = Done (EFI_SUCCESS, at_level (gEfiCurrentTpl s) (signalled e s)).
Proof.
  intros Hok [E Ee] Ht Hc. unfold CoreSignalEvent, gEventQueueLock. rewrite decide_False by (intros ->; by rewrite (q_null s Hok) in Ee).
  rewrite Ee, acquire_locked. unfold locked at 1 2 3 4. unfold signalled in *. rewrite Ee in *. unfold CoreReleaseLock.
  destruct (decide (SignalCount E = 0)) as [->|Hn]; [|rewrite release_locked by done; by mred].
  change (u32 (0 + 1)) with 1. set (s' := update_event e (set_count 1) s) in *.
  change (update_event e (set_count 1) (set_level ?t ?b s)) with (set_level t b s').
  assert (queues_ok s') as Hok' by (by apply queues_ok_count).
  destruct (bits (EventType E) EVT_NOTIFY_SIGNAL); [|rewrite release_locked by done; by mred].
  destruct (bits (ExFlag E) EVT_EXFLAG_EVENT_GROUP).
  - rewrite release_locked; [|done|done|apply (calm_mono _ _ _ (enqueue_all_pending _ _ Hok') Hc)|done..]. mred.
    replace (events (at_level (gEfiCurrentTpl s) s') !! e) with (Some (set_count 1 E)); [|unfold at_level; cbn; by rewrite lookup_alter_eq, Ee]. dred.
    set (t := gEfiCurrentTpl s) in *. set (s2 := at_level t s').
    rewrite (CoreNotifySignalList_ok n _ s2); [|by apply queues_ok_level|done|unfold s2; by rewrite enqueue_all_at].
    mred. rewrite acquire_locked. change (gEfiCurrentTpl s2) with t. change (group_of (EventGroup (set_count 1 E)) s2) with (group_of (EventGroup E) s').
    set (s3 := at_level t _). assert (s3 = at_level t (enqueue_all (group_of (EventGroup E) s') s')) as ->.
    { unfold s3, s2. rewrite enqueue_all_at. apply at_level_twice. }
    change (locked ?x) with (set_level TPL_HIGH_LEVEL (Interrupts (locked x)) x).
    set (s4 := at_level t (enqueue_all _ _)). change (gEfiCurrentTpl s4) with (gEfiCurrentTpl s4) at 1.
    rewrite (release_locked n s4 s4); [|by apply queues_ok_level, enqueue_all_ok|done..]. mred. unfold s4. do 2 f_equal. apply at_level_twice.
  - rewrite CoreNotifyEvent_ok; [|by apply queues_ok_level|cbn; rewrite lookup_alter_eq, Ee; by eexists]. mred. rewrite enqueue_level.
    rewrite release_locked; [by mred|by apply enqueue_ok|done|done|apply (enqueue_all_same [e] s')..].
Qed.

Lemma queue_enqueue t e E (s : ES) : events s !! e = Some E ->
  queue t (enqueue e s) = if decide (t = NotifyTpl E) then filter (fun i => i <> e) (queue t s) ++ [e] else queue t s.
Proof.
  intros Ee. unfold enqueue. rewrite Ee. change (queue t (update_event e ?f ?s)) with (queue t s). rewrite queue_insert.
  by destruct (decide (t = NotifyTpl E)) as [->|].
Qed.

Lemma enqueue_all_in l i E (s : ES) : queues_ok s -> i ∈ l -> events s !! i = Some E -> i ∈ queue (NotifyTpl E) (enqueue_all l s).
Proof.
  revert s E. induction l as [|e l IH]; intros s E Hok Hi Ei; [by apply elem_of_nil in Hi|]. unfold enqueue_all in *. cbn [foldl].
  destruct (decide (i ∈ l)) as [Hin|Hnin].
  - assert (exists F, events (enqueue e s) !! i = Some F /\ NotifyTpl F = NotifyTpl E) as (F & EF & <-); [|by apply IH; [apply enqueue_ok|..]].
    destruct (proj2 (enqueue_dom e s i) ltac:(by eexists)) as [F EF]. exists F. split; [done|].
    destruct (enqueue_event e s i F EF) as (E' & EE' & ->). cbn. congruence.
  - apply elem_of_cons in Hi as [->|Hi]; [|done].
    assert (NotifyLinked <$> events (foldl (fun s e => enqueue e s) (enqueue e s) l) !! e = Some true /\
      NotifyTpl <$> events (foldl (fun s e => enqueue e s) (enqueue e s) l) !! e = Some (NotifyTpl E)) as [HL HT].
    { assert (NotifyLinked <$> events (enqueue e s) !! e = Some true /\ NotifyTpl <$> events (enqueue e s) !! e = Some (NotifyTpl E)) as Hbase.
      { unfold enqueue. rewrite Ei, events_update, decide_True by done. cbn [events set_queue]. by rewrite Ei. }
      revert Hbase. generalize (enqueue e s). clear -Hnin. induction l as [|j l IH]; intros x Hx; [done|]. cbn [foldl].
      apply not_elem_of_cons in Hnin as [Hne Hnin]. apply (IH Hnin). unfold enqueue. destruct (events x !! j) as [J|] eqn:Ej; [|done].
      rewrite events_update, decide_False by done. done. }
    pose proof (enqueue_all_ok l (enqueue e s) (enqueue_ok e s Hok)) as Hok'. unfold enqueue_all in Hok'. apply (q_in _ Hok').
    destruct (events (foldl _ _ l) !! e) as [F|]; [|done]. exists F. cbn in HL, HT. split; [done|]. split; congruence.
Qed.

(** C24: signalling an event at a level nothing pending will be above.  An
    address that is no event is refused.  Otherwise an event that has been
    signalled and not been notified since is left as it is; one that has not is
    marked, and the event, if it is notified when signalled, goes to the end of
    the queue of its level, once; for an event with a group every event of the
    group that can be signalled is queued.  Only counts, links and queues
    change, and to signal again changes nothing. *)
Theorem CoreSignalEvent_correct n e (s : ES) (Hok : queues_ok s) (Ht : 0 <= gEfiCurrentTpl s <= TPL_HIGH_LEVEL)
    (Hc : calm (gEfiCurrentTpl s) (signalled e s)) :
  let s' := signalled e s in
  CoreSignalEvent gCpu gSmmBase2 (restore (S n)) e s =
    Done (match events s !! e with Some _ => (EFI_SUCCESS, at_level (gEfiCurrentTpl s) s') | None => (EFI_INVALID_PARAMETER, s) end) /\
  queues_ok s' /\ signalled e s' = s' /\ (forall i, static <$> events s' !! i = static <$> events s !! i) /\
  (forall E, events s !! e = Some E -> SignalCount E = 0 -> bits (EventType E) EVT_NOTIFY_SIGNAL = true ->
     if bits (ExFlag E) EVT_EXFLAG_EVENT_GROUP
     then forall i F, i ∈ gEventSignalQueue s -> events s !! i = Some F -> EventGroup F = EventGroup E -> i ∈ queue (NotifyTpl F) s'
     else forall t, queue t s' = if decide (t = NotifyTpl E) then filter (fun i => i <> e) (queue t s) ++ [e] else queue t s).
Proof.
  intros s'. split; [|split; [by apply signalled_ok|split; [apply signalled_twice|split; [apply signalled_static|]]]].
  - destruct (events s !! e) as [E|] eqn:Ee; [by apply CoreSignalEvent_ok|]. unfold CoreSignalEvent. rewrite Ee. by destruct (decide (e = 0)).
  - intros E Ee Hz Hb. unfold s', signalled. rewrite Ee, decide_True, Hb by done. set (s1 := update_event e (set_count 1) s).
    assert (queues_ok s1) as Hok1 by (by apply queues_ok_count).
    assert (forall i F, events s !! i = Some F -> exists F', events s1 !! i = Some F' /\ EventGroup F' = EventGroup F /\ NotifyTpl F' = NotifyTpl F) as Hs1.
    { intros i F EF. unfold s1. rewrite events_update. destruct (decide (i = e)) as [->|]; rewrite EF; by eexists. }
    destruct (bits (ExFlag E) EVT_EXFLAG_EVENT_GROUP).
    + intros i F Hi EF Hg. destruct (Hs1 i F EF) as (F' & EF' & Hg' & <-). apply enqueue_all_in; [done| |done].
      apply list_elem_of_filter. split; [|done]. rewrite EF'. cbn. congruence.
    + intros t. destruct (Hs1 e E Ee) as (F' & EF' & _ & HT). cbn. rewrite (queue_enqueue t e F' s1 EF'). by rewrite HT.
Qed.
End queues.
