(* ===== verification/DxeTimer.v ===== *)
(** * DXE core: the timers

    [CoreCheckTimers] and [CoreSetTimer] of [DxeEvent.v]: the list of timers is
    sorted by the time they are due, and the events on it are those whose link
    says so.  When the timers are checked, those that are due are signalled in
    order and the periodic ones set again. *)
From Stdlib Require Import ZArith Lia.
From stdpp Require Import base gmap list sorting.
From S2P Require Import Prelude Pointer Firmware DxePage Heap DevicePath DxeHand DxeEvent DxeEventOk.
#[local] Open Scope Z_scope.
#[local] Ltac dred := unfold deref; mred.

(* ------------------------------------------------------------------ *)
(** ** Signalling and setting a timer do not disturb each other *)

Section commute.
Context {W : Type}.
#[local] Abbreviation ES := (EVENTS W).

Lemma alter_swap {A} (f g : A -> A) (i j : Z) (m : gmap Z A) : (forall x, f (g x) = g (f x)) -> alter f i (alter g j m) = alter g j (alter f i m).
Proof.
  intros Hc. destruct (decide (i = j)) as [->|Hne]; [|by apply alter_alter_ne]. rewrite !alter_alter_eq. apply map_eq. intros k.
  destruct (decide (k = j)) as [->|Hk]; [rewrite !lookup_alter_eq|by rewrite !lookup_alter_ne by done]. destruct (m !! j); [|done]. cbn. by rewrite Hc.
Qed.

(** The event's timer is set and the list of timers changed. *)
Definition timed (e : Z) (b : bool) (t p : Z) (l : list Z) (s : ES) : ES := set_timers l (update_event e (set_timer b t p) s).

Lemma timed_event e b t p l (s : ES) i : events (timed e b t p l s) !! i = if decide (i = e) then set_timer b t p <$> events s !! i else events s !! i.
Proof. apply (events_update e (set_timer b t p) s). Qed.

Lemma timed_timed e b t p l b' t' p' l' (s : ES) : timed e b t p l (timed e b' t' p' l' s) = timed e b t p l s.
Proof.
  unfold timed, update_event, set_timers, set_events. cbn. rewrite alter_alter_eq. f_equal. 
Qed.

Lemma enqueue_timed i e b t p l (s : ES) : enqueue i (timed e b t p l s) = timed e b t p l (enqueue i s).
Proof.
  unfold enqueue. rewrite timed_event. destruct (decide (i = e)) as [->|Hne].
  - destruct (events s !! e) as [E|]; [|done]. cbn [fmap option_fmap option_map]. unfold timed, update_event, set_timers, set_events, set_queue. cbn. f_equal.
    by apply alter_swap.
  - destruct (events s !! i) as [E|]; [|done]. unfold timed, update_event, set_timers, set_events, set_queue. cbn. f_equal. by apply alter_swap.
Qed.

Lemma enqueue_all_timed k e b t p l (s : ES) : enqueue_all k (timed e b t p l s) = timed e b t p l (enqueue_all k s).
Proof. revert s. induction k as [|i k IH]; intros s; [done|]. unfold enqueue_all in *. cbn [foldl]. by rewrite enqueue_timed, IH. Qed.

Lemma count_timed i n e b t p l (s : ES) : update_event i (set_count n) (timed e b t p l s) = timed e b t p l (update_event i (set_count n) s).
Proof. unfold timed, update_event, set_timers, set_events. cbn. f_equal. by apply alter_swap. Qed.

Lemma group_of_timed g e b t p l (s : ES) : group_of g (timed e b t p l s) = group_of g s.
Proof.
  unfold group_of. apply list_filter_iff. intros i. rewrite timed_event. destruct (decide (i = e)); [|done]. by destruct (events s !! i).
Qed.

Lemma signalled_timed i e b t p l (s : ES) : signalled i (timed e b t p l s) = timed e b t p l (signalled i s).
Proof.
  unfold signalled. rewrite count_timed, timed_event.
  assert (forall E, (if bits (EventType E) EVT_NOTIFY_SIGNAL
    then enqueue_all (if bits (ExFlag E) EVT_EXFLAG_EVENT_GROUP then group_of (EventGroup E) (timed e b t p l (update_event i (set_count 1) s)) else [i])
           (timed e b t p l (update_event i (set_count 1) s))
    else timed e b t p l (update_event i (set_count 1) s)) =
    timed e b t p l (if bits (EventType E) EVT_NOTIFY_SIGNAL
      then enqueue_all (if bits (ExFlag E) EVT_EXFLAG_EVENT_GROUP then group_of (EventGroup E) (update_event i (set_count 1) s) else [i])
             (update_event i (set_count 1) s)
      else update_event i (set_count 1) s)) as Hc.
  { intros E. destruct (bits _ _); [|done]. by rewrite enqueue_all_timed, group_of_timed. }
  destruct (decide (i = e)) as [->|Hne]; (destruct (events s !! _) as [E|]; [|done]); cbn [fmap option_fmap option_map SignalCount set_timer];
    (destruct (decide (SignalCount E = 0)); [|done]); exact (Hc E).
Qed.

Definition signal_all (l : list Z) (s : ES) : ES := foldl (fun s e => signalled e s) s l.

Lemma signal_all_timed k e b t p l (s : ES) : signal_all k (timed e b t p l s) = timed e b t p l (signal_all k s).
Proof. revert s. induction k as [|i k IH]; intros s; [done|]. unfold signal_all in *. cbn [foldl]. by rewrite signalled_timed, IH. Qed.

Lemma signal_all_app k k' (s : ES) : signal_all (k ++ k') s = signal_all k' (signal_all k s).
Proof. apply foldl_app. Qed.

Lemma signal_all_ok k (s : ES) : queues_ok s -> queues_ok (signal_all k s).
Proof. revert s. induction k as [|i k IH]; intros s Hok; [done|]. by apply IH, signalled_ok. Qed.

Lemma signal_all_static k (s : ES) i : static <$> events (signal_all k s) !! i = static <$> events s !! i.
Proof. revert s. induction k as [|j k IH]; intros s; [done|]. unfold signal_all in *. cbn [foldl]. by rewrite IH, signalled_static. Qed.

(** An event is signalled once. *)
Lemma signal_all_count k (s : ES) i : count i (signal_all k s) = if decide (i ∈ k /\ count i s = Some 0) then Some 1 else count i s.
Proof.
  revert s. induction k as [|j k IH]; intros s; [rewrite decide_False; [done|]; intros [Hi _]; by apply elem_of_nil in Hi|].
  unfold signal_all in *. cbn [foldl]. rewrite IH, signalled_count. destruct (decide (i = j /\ count j s = Some 0)) as [[-> Hz]|Hn].
  - rewrite decide_False by naive_solver. rewrite decide_True; [done|]. split; [left|done].
  - destruct (decide (i ∈ k /\ count i s = Some 0)) as [[Hi Hz]|Hk].
    + rewrite decide_True; [done|]. split; [by right|done].
    + rewrite decide_False; [done|]. intros [Hi Hz]. apply elem_of_cons in Hi as [->|Hi]; naive_solver.
Qed.

Lemma signal_all_again k e (s : ES) : e ∈ k -> signalled e (signal_all k s) = signal_all k s.
Proof.
  intros He. apply signalled_again. rewrite signal_all_count. destruct (decide _) as [|Hn]; [done|]. intros Hz. apply Hn. done.
Qed.
End commute.

(* ------------------------------------------------------------------ *)
(** ** The list of timers *)

Section timers.
Context {W : Type} `{Heap W}.
#[local] Abbreviation ES := (EVENTS W).

(** The time a timer is due. *)
Definition due_time (s : ES) (e : Z) : Z := from_option TriggerTime 0 (events s !! e).
Definition by_time (s : ES) (e i : Z) : Prop := due_time s e <= due_time s i.

Record timers_ok (s : ES) : Prop := {
  t_sorted : StronglySorted (by_time s) (mEfiTimerList s);
  t_in : forall e, e ∈ mEfiTimerList s <-> exists E, events s !! e = Some E /\ TimerLinked E = true;
  t_once : NoDup (mEfiTimerList s);
  t_range : forall e E, events s !! e = Some E -> is_u64 (TriggerTime E) /\ is_u64 (Period E);
  t_now : is_u64 (mEfiSystemTime s);
}.

(** The event goes behind those that are due no later. *)
Lemma insert_timer_ok Time e l (s : ES) : StronglySorted (by_time s) l -> (forall i, i ∈ l -> is_Some (events s !! i)) ->
  exists l1 l2, l = l1 ++ l2 /\ insert_timer Time e l s = Done (l1 ++ e :: l2) /\
    (forall i, i ∈ l1 -> due_time s i <= Time) /\ (forall i, i ∈ l2 -> Time < due_time s i).
Proof.
  induction l as [|i l IH]; intros Hs Hl; [by exists [], []; repeat split; try (intros ? Hn; by apply elem_of_nil in Hn)|].
  apply StronglySorted_inv in Hs as [Hs Hi]. destruct (Hl i) as [E Ei]; [left|]. cbn [insert_timer]. rewrite Ei. dred.
  assert (due_time s i = TriggerTime E) as Ht by (unfold due_time; by rewrite Ei). destruct (decide (Time < TriggerTime E)) as [Hlt|Hge].
  - exists [], (i :: l). split; [done|]. split; [done|]. split; [intros ? Hn; by apply elem_of_nil in Hn|].
    intros j Hj. apply elem_of_cons in Hj as [->|Hj]; [lia|]. rewrite Forall_forall in Hi. specialize (Hi j Hj). unfold by_time in Hi. lia.
  - destruct IH as (l1 & l2 & -> & -> & H1 & H2); [done|intros j Hj; apply Hl; by right|]. exists (i :: l1), l2. split; [done|]. split; [done|].
    split; [|done]. intros j Hj. apply elem_of_cons in Hj as [->|Hj]; [lia|by apply H1].
Qed.

Lemma sorted_app (R : Z -> Z -> Prop) l1 e l2 : StronglySorted R (l1 ++ l2) -> (forall i, i ∈ l1 -> R i e) -> (forall i, i ∈ l2 -> R e i) ->
  StronglySorted R (l1 ++ e :: l2).
Proof.
  induction l1 as [|i l1 IH]; intros Hs H1 H2; cbn in *.
  - constructor; [done|]. by apply Forall_forall.
  - apply StronglySorted_inv in Hs as [Hs Hi]. constructor; [apply IH; [done|intros; apply H1; by right|done]|].
    apply Forall_app in Hi as [Hi1 Hi2]. apply Forall_app. split; [done|]. constructor; [apply H1; left|done].
Qed.

Lemma sorted_ext (s s' : ES) l : (forall i, i ∈ l -> due_time s' i = due_time s i) -> StronglySorted (by_time s) l -> StronglySorted (by_time s') l.
Proof.
  induction l as [|i l IH]; intros Hd Hs; [constructor|]. apply StronglySorted_inv in Hs as [Hs Hi]. constructor.
  - apply IH; [|done]. intros j Hj. apply Hd. by right.
  - rewrite Forall_forall in *. intros j Hj. specialize (Hi j Hj). unfold by_time in *. rewrite !Hd; [done|by right|left].
Qed.

Lemma due_time_timed e b t p l (s : ES) i : due_time (timed e b t p l s) i = if decide (i = e /\ is_Some (events s !! e)) then t else due_time s i.
Proof.
  unfold due_time. rewrite timed_event. destruct (decide (i = e)) as [->|Hne]; [|by rewrite decide_False by naive_solver].
  destruct (events s !! e) as [E|] eqn:Ee; [by rewrite decide_True by (split; [done|by eexists])|].
  rewrite decide_False; [done|]. intros [_ [? ?]]. done.
Qed.

Lemma due_time_signal k (s : ES) i : due_time (signal_all k s) i = due_time s i.
Proof.
  unfold due_time. pose proof (signal_all_static k s i) as Hs. destruct (events (signal_all k s) !! i) as [F|], (events s !! i) as [G|]; try done.
  cbn in *. injection Hs. congruence.
Qed.

(** The timer of an event that is on no list is set: it is put in its place. *)
Lemma timers_ok_insert e t p l1 l2 (s : ES) : timers_ok s -> mEfiTimerList s = l1 ++ l2 -> is_Some (events s !! e) -> e ∉ mEfiTimerList s ->
  (forall i, i ∈ l1 -> due_time s i <= t) -> (forall i, i ∈ l2 -> t < due_time s i) -> is_u64 t -> is_u64 p ->
  timers_ok (timed e true t p (l1 ++ e :: l2) s).
Proof.
  intros [Hs Hi Ho Hr Hn] El [E Ee] He Hb1 Hb2 Ht Hp. rewrite El in *. apply not_elem_of_app in He as [He1 He2]. split; cbn [mEfiTimerList timed set_timers].
  - apply sorted_app; [|intros i Hin|intros i Hin]; unfold by_time in *.
    + apply (sorted_ext s); [|done]. intros i Hin. rewrite due_time_timed. rewrite decide_False; [done|]. intros [-> _]. set_solver.
    + rewrite !due_time_timed. rewrite decide_False by naive_solver. rewrite decide_True by (split; [done|by eexists]). by apply Hb1.
    + rewrite !due_time_timed. rewrite decide_True by (split; [done|by eexists]). rewrite decide_False by naive_solver. specialize (Hb2 i Hin). lia.
  - intros i. rewrite timed_event. destruct (decide (i = e)) as [->|Hne].
    + rewrite Ee. split; [intros _; by eexists|]. intros _. set_solver.
    + rewrite <- Hi. set_solver.
  - rewrite <- Permutation_middle. constructor; [set_solver|done].
  - intros i F. rewrite timed_event. destruct (decide (i = e)) as [->|]; [|apply Hr]. rewrite Ee. intros [= <-]. done.
  - done.
Qed.

(** The timer of an event is cancelled. *)
Lemma timers_ok_cancel e t p l1 l2 (s : ES) : timers_ok s -> mEfiTimerList s = l1 ++ e :: l2 -> is_u64 t -> is_u64 p ->
  timers_ok (timed e false t p (l1 ++ l2) s) /\ e ∉ l1 ++ l2.
Proof.
  intros [Hs Hi Ho Hr Hn] El Ht Hp. rewrite El in *. assert (e ∉ l1 ++ l2 /\ NoDup (l1 ++ l2)) as [He Hd].
  { rewrite <- Permutation_middle in Ho. by apply NoDup_cons in Ho. }
  split; [|done]. split; cbn [mEfiTimerList timed set_timers].
  - apply (sorted_ext s); [|].
    + intros i Hin. rewrite due_time_timed. rewrite decide_False; [done|]. intros [-> _]. done.
    + clear -Hs. induction l1 as [|i l1 IH]; cbn in *; apply StronglySorted_inv in Hs as [Hs Hi]; [done|]. constructor; [by apply IH|].
      apply Forall_app in Hi as [Hi1 Hi2]. apply Forall_app. by inversion Hi2.
  - intros i. rewrite timed_event. destruct (decide (i = e)) as [->|Hne].
    + split; [done|]. intros (F & EF & HL). destruct (events s !! e); [|done]. cbn in EF. injection EF as <-. done.
    + rewrite <- Hi. set_solver.
  - done.
  - intros i F. rewrite timed_event. destruct (decide (i = e)) as [->|]; [|apply Hr]. destruct (events s !! e) as [E|] eqn:Ee; [|done]. by intros [= <-].
  - done.
Qed.

Lemma static_timer F E : static F = static E -> TimerLinked F = TimerLinked E /\ TriggerTime F = TriggerTime E /\ Period F = Period E.
Proof. by intros [=]. Qed.

Lemma timers_ok_static (s s' : ES) : (forall i, static <$> events s' !! i = static <$> events s !! i) -> mEfiTimerList s' = mEfiTimerList s ->
  mEfiSystemTime s' = mEfiSystemTime s -> timers_ok s -> timers_ok s'.
Proof.
  intros He Hl Hn [Hs Hi Ho Hr Hw]. assert (forall i, due_time s' i = due_time s i) as Hd.
  { intros i. unfold due_time. specialize (He i). destruct (events s' !! i), (events s !! i); try done. cbn in *. injection He. congruence. }
  assert (forall i F, events s' !! i = Some F -> exists E, events s !! i = Some E /\ static F = static E) as Hb.
  { intros i F EF. specialize (He i). rewrite EF in He. destruct (events s !! i) as [E|]; [|done]. exists E. split; [done|]. cbn in He. congruence. }
  split; rewrite ?Hl, ?Hn; try done.
  - apply (sorted_ext s); [|done]. auto.
  - intros i. rewrite Hi. specialize (He i). destruct (events s' !! i) as [F|], (events s !! i) as [E|]; try done.
    cbn in He. apply (inj Some) in He. apply static_timer in He as (HL & _ & _).
    split; intros (G & [= <-] & HG); eexists; (split; [done|congruence]).
  - intros i F EF. destruct (Hb i F EF) as (E & EE & Hst). apply static_timer in Hst as (_ & -> & ->).
    by apply (Hr i).
Qed.
End timers.

(* ------------------------------------------------------------------ *)
(** ** One timer that is due *)

Section check.
Context {W : Type} `{Heap W}.
#[local] Abbreviation ES := (EVENTS W).
Context (gCpu : bool) (gSmmBase2 : option (Z * bool)) (notify : Z -> Z -> Z -> ES -> outcome ES) (CheckTimersFunction : Z).
#[local] Abbreviation restore := (CoreRestoreTpl gCpu gSmmBase2 notify CheckTimersFunction).
#[local] Abbreviation at_level := (at_level gCpu gSmmBase2).
#[local] Abbreviation loop m := (timers_loop gCpu gSmmBase2 (restore (S m))).

(** The level the timers are checked at. *)
Definition TPL_TIMER : Z := TPL_HIGH_LEVEL - 1.

Record checking (s : ES) : Prop := {
  c_settled : at_level TPL_TIMER s = s;
  c_queues : queues_ok s;
  c_timers : timers_ok s;
  c_event : is_Some (events s !! mEfiCheckTimerEvent s);
}.

Lemma queues_ok_timed e b t p l (s : ES) : queues_ok s -> queues_ok (timed e b t p l s).
Proof.
  intros [Hh Hp Hb Hi Hn Hl Hs Ho Hz]. split; try done.
  - intros u i. change (queue u (timed e b t p l s)) with (queue u s). rewrite Hi, timed_event. destruct (decide (i = e)) as [->|]; [|done].
    destruct (events s !! e); naive_solver.
  - intros i F. rewrite timed_event. destruct (decide (i = e)) as [->|]; [|apply Hl]. destruct (events s !! e) as [E|] eqn:Ee; [|done].
    intros [= <-]. by apply (Hl e E).
  - intros i. cbn [gEventSignalQueue timed set_timers update_event set_events]. rewrite Hs, timed_event. destruct (decide (i = e)) as [->|]; [|done].
    destruct (events s !! e); naive_solver.
  - rewrite timed_event. destruct (decide (0 = e)) as [<-|]; [|done]. by rewrite Hz.
Qed.

Lemma calm_timer (s : ES) : queues_ok s -> calm TPL_TIMER s.
Proof. intros Hok. unfold calm. change (2 ^ (TPL_TIMER + 1)) with (2 ^ 31). apply (q_pending s Hok). Qed.

Lemma settled_level (s : ES) : at_level TPL_TIMER s = s -> gEfiCurrentTpl s = TPL_TIMER.
Proof. intros <-. done. Qed.

Lemma signal_checking m e (s : ES) : at_level TPL_TIMER s = s -> queues_ok s -> is_Some (events s !! e) ->
  CoreSignalEvent gCpu gSmmBase2 (restore (S m)) e s = Done (EFI_SUCCESS, signalled e s).
Proof.
  intros Hs Hok He. pose proof (settled_level s Hs) as Hl. rewrite CoreSignalEvent_ok; [|done|done|rewrite Hl; done|].
  - rewrite Hl. by rewrite <- signalled_at, Hs.
  - rewrite Hl. by apply calm_timer, signalled_ok.
Qed.

Lemma settled_timed e b t p l (s : ES) : at_level TPL_TIMER s = s -> at_level TPL_TIMER (timed e b t p l s) = timed e b t p l s.
Proof.
  intros Hs. change (at_level TPL_TIMER (timed e b t p l s)) with (timed e b t p l (at_level TPL_TIMER s)). by rewrite Hs.
Qed.

Lemma settled_signal k (s : ES) : at_level TPL_TIMER s = s -> at_level TPL_TIMER (signal_all k s) = signal_all k s.
Proof.
  revert s. induction k as [|e k IH]; intros s Hs; [done|]. unfold signal_all in *. cbn [foldl]. apply IH. by rewrite <- signalled_at, Hs.
Qed.

Lemma signal_all_fields k (s : ES) : mEfiTimerList (signal_all k s) = mEfiTimerList s /\ mEfiSystemTime (signal_all k s) = mEfiSystemTime s /\
  mEfiCheckTimerEvent (signal_all k s) = mEfiCheckTimerEvent s.
Proof.
  assert (forall l (s : ES), mEfiTimerList (enqueue_all l s) = mEfiTimerList s /\ mEfiSystemTime (enqueue_all l s) = mEfiSystemTime s /\
    mEfiCheckTimerEvent (enqueue_all l s) = mEfiCheckTimerEvent s) as Hq.
  { intros l. induction l as [|e l IH]; intros s'; [done|]. unfold enqueue_all in *. cbn [foldl]. destruct (IH (enqueue e s')) as (-> & -> & ->).
    unfold enqueue. by destruct (events s' !! e). }
  revert s. induction k as [|e k IH]; intros s; [done|]. unfold signal_all in *. cbn [foldl]. destruct (IH (signalled e s)) as (-> & -> & ->).
  unfold signalled. destruct (events s !! e) as [E|]; [|done]. destruct (decide _); [|done]. destruct (bits _ _); [|done]. apply (Hq _ (update_event e (set_count 1) s)).
Qed.

(** The next time of a periodic timer, and who is signalled when it is due. *)
Definition next_time (Now : Z) (E : IEVENT) : Z :=
  let T := u64 (TriggerTime E + Period E) in if decide (T <= Now) then Now else T.
Definition expiry (Now : Z) (s : ES) (e : Z) : list Z :=
  match events s !! e with
  | Some E => if decide (TriggerTime E <= Now)
              then e :: (if decide (Period E <> 0 /\ u64 (TriggerTime E + Period E) <= Now) then [mEfiCheckTimerEvent s] else []) else []
  | None => []
  end.

Lemma checking_signal k (s : ES) : checking s -> checking (signal_all k s).
Proof.
  intros [Hs Hq Ht He]. destruct (signal_all_fields k s) as (Hl & Hn & Hc). split.
  - by apply settled_signal.
  - by apply signal_all_ok.
  - apply (timers_ok_static s); [apply signal_all_static|done..].
  - rewrite Hc. pose proof (signal_all_static k s (mEfiCheckTimerEvent s)) as Hst. destruct He as [E Ee]. rewrite Ee in Hst.
    destruct (events (signal_all k s) !! _); [by eexists|done].
Qed.

Lemma checking_timed e b t p l (s : ES) : checking s -> timers_ok (timed e b t p l s) -> checking (timed e b t p l s).
Proof.
  intros [Hs Hq _ He] Ht. split; [by apply settled_timed|by apply queues_ok_timed|done|]. change (mEfiCheckTimerEvent (timed e b t p l s)) with (mEfiCheckTimerEvent s).
  rewrite timed_event. destruct (decide _); [|done]. destruct He as [E ->]. by eexists.
Qed.

Lemma update_timed e b t p (s : ES) : update_event e (set_timer b t p) s = timed e b t p (mEfiTimerList s) s.
Proof. by destruct s. Qed.

(** An event that is on no list of timers is put on it. *)
Lemma CoreInsertEventTimer_ok e E (s : ES) : checking s -> events s !! e = Some E -> TimerLinked E = false ->
  exists l1 l2, mEfiTimerList s = l1 ++ l2 /\ (forall i, i ∈ l1 -> due_time s i <= TriggerTime E) /\ (forall i, i ∈ l2 -> TriggerTime E < due_time s i) /\
    CoreInsertEventTimer e s = Done (timed e true (TriggerTime E) (Period E) (l1 ++ e :: l2) s) /\
    checking (timed e true (TriggerTime E) (Period E) (l1 ++ e :: l2) s).
Proof.
  intros Hc Ee HL. pose proof (c_timers s Hc) as Ht. destruct (t_range s Ht e E Ee) as [HT HP].
  destruct (insert_timer_ok (TriggerTime E) e (mEfiTimerList s) s) as (l1 & l2 & El & Ei & Hl1 & Hl2); [apply Ht| |].
  { intros i Hi. apply (t_in s Ht) in Hi as (F & -> & _). by eexists. }
  exists l1, l2. split; [done|]. split; [done|]. split; [done|]. split.
  - unfold CoreInsertEventTimer. rewrite Ee. dred. by rewrite Ei.
  - apply checking_timed; [done|]. apply timers_ok_insert; [done|done|by eexists| |done..]. intros Hin. apply (t_in s Ht) in Hin as (F & EF & HF). congruence.
Qed.

(** The first timer is due: what the code does before the event is put back. *)
Definition due_state (Now : Z) (e : Z) (l : list Z) (E : IEVENT) (s : ES) : ES :=
  timed e false (if decide (Period E = 0) then TriggerTime E else next_time Now E) (Period E) l (signal_all (expiry Now s e) s).

Lemma due_state_checking Now e l E (s : ES) : checking s -> is_u64 Now -> mEfiTimerList s = e :: l -> events s !! e = Some E ->
  checking (due_state Now e l E s).
Proof.
  intros Hc HNow El Ee. pose proof (c_timers s Hc) as Ht. destruct (t_range s Ht e E Ee) as [HT HP]. unfold due_state. rewrite <- signal_all_timed.
  apply checking_signal, checking_timed; [done|]. apply (timers_ok_cancel e _ _ [] l); [done|done| |done].
  destruct (decide (Period E = 0)); [done|]. unfold next_time. destruct (decide (_ <= Now)); [done|apply u64_range].
Qed.

(** The check of the timers is asked for when the timer has fallen behind. *)
Lemma due_behind m Now e l E (s : ES) : checking s -> events s !! e = Some E -> TriggerTime E <= Now -> Period E <> 0 ->
  let T := u64 (TriggerTime E + Period E) in
  let s1 := timed e false (TriggerTime E) (Period E) l (signalled e s) in
  (if decide (T <= Now) then
     '(_, x) ← CoreSignalEvent gCpu gSmmBase2 (restore (S m)) (mEfiCheckTimerEvent s1)
                 (update_event e (set_timer false Now (Period E)) (update_event e (set_timer false T (Period E)) s1)); mret x
   else mret (update_event e (set_timer false T (Period E)) s1)) = Done (due_state Now e l E s).
Proof.
  intros [Hset Hq _ Hev] Ee Hdue HP T s1. rewrite !update_timed. change (mEfiTimerList (timed _ _ _ _ ?l _)) with l. unfold s1. rewrite !timed_timed.
  unfold due_state, next_time, expiry. rewrite Ee. rewrite (decide_False (P := Period E = 0)), (decide_True (P := TriggerTime E <= Now)) by done. fold T.
  assert (mEfiCheckTimerEvent (signalled e s) = mEfiCheckTimerEvent s) as Hf by (apply (signal_all_fields [e] s)).
  destruct (decide (T <= Now)) as [HT2|HT2]; [|rewrite decide_False by naive_solver; by mred].
  rewrite (decide_True (P := Period E <> 0 /\ T <= Now)) by done. change (mEfiCheckTimerEvent (timed _ _ _ _ _ ?x)) with (mEfiCheckTimerEvent x). rewrite Hf.
  rewrite signal_checking; [|apply settled_timed|apply queues_ok_timed|]; [|by apply (settled_signal [e])|by apply signalled_ok|].
  - mred. by rewrite signalled_timed.
  - rewrite timed_event. destruct (proj2 (signalled_dom e s (mEfiCheckTimerEvent s)) Hev) as [G EG]. rewrite EG.
    destruct (decide (mEfiCheckTimerEvent s = e)); by eexists.
Qed.

Lemma timers_step_code m n Now e l E (s : ES) : checking s -> is_u64 Now -> mEfiTimerList s = e :: l -> events s !! e = Some E -> TriggerTime E <= Now ->
  loop m (S n) Now s =
    (x ← (if decide (Period E = 0) then Done (due_state Now e l E s) else CoreInsertEventTimer e (due_state Now e l E s)); loop m n Now x).
Proof.
  intros Hc HNow El Ee Hdue. pose proof Hc as [Hset Hq Ht Hev]. destruct (t_range s Ht e E Ee) as [HT HP].
  destruct (timers_ok_cancel e (TriggerTime E) (Period E) [] l s Ht El HT HP) as [Ht0 He].
  set (s0 := timed e false (TriggerTime E) (Period E) l s) in *. assert (checking s0) as Hc0 by (by apply checking_timed).
  assert (signalled e s0 = timed e false (TriggerTime E) (Period E) l (signalled e s)) as Es1 by apply signalled_timed.
  set (s1 := timed e false (TriggerTime E) (Period E) l (signalled e s)) in *.
  assert (exists F, events s1 !! e = Some F /\ TriggerTime F = TriggerTime E /\ Period F = Period E /\ TimerLinked F = false) as (F & EF & HFT & HFP & HFL).
  { pose proof (signalled_static e s e) as Hst. rewrite Ee in Hst. unfold s1. rewrite timed_event, decide_True by done.
    destruct (events (signalled e s) !! e) as [F|]; [|done]. by eexists. }
  cbn [timers_loop]. rewrite El, Ee. dred. rewrite decide_False by lia. change (update_event e _ (set_timers l s)) with s0.
  rewrite (signal_checking m e s0); [|apply Hc0|apply Hc0|unfold s0; rewrite timed_event, decide_True, Ee by done; by eexists]. mred.
  rewrite Es1, EF. dred. rewrite HFP, HFT, HFL. destruct (decide (Period E = 0)) as [Hz|Hz].
  - rewrite decide_False by tauto. mred. unfold due_state, expiry. rewrite Ee. rewrite decide_True, decide_True by done. by rewrite decide_False by tauto.
  - rewrite decide_True by done. cbv zeta. change (mEfiCheckTimerEvent (update_event e _ s1)) with (mEfiCheckTimerEvent s1).
    pose proof (due_behind m Now e l E s Hc Ee Hdue Hz) as Hb. cbv zeta in Hb. fold s1 in Hb. rewrite Hb. by mred.
Qed.

(** The first timer is due: it is signalled and, if periodic, set again. *)
Lemma timers_step Now e l E (s : ES) : checking s -> is_u64 Now -> mEfiTimerList s = e :: l -> events s !! e = Some E -> TriggerTime E <= Now ->
  exists s', (forall m n, loop m (S n) Now s = loop m n Now s') /\ checking s' /\
    (if decide (Period E = 0) then s' = timed e false (TriggerTime E) (Period E) l (signal_all (expiry Now s e) s)
     else exists l1 l2, l = l1 ++ l2 /\ (forall i, i ∈ l1 -> due_time s i <= next_time Now E) /\ (forall i, i ∈ l2 -> next_time Now E < due_time s i) /\
       s' = timed e true (next_time Now E) (Period E) (l1 ++ e :: l2) (signal_all (expiry Now s e) s)).
Proof.
  intros Hc HNow El Ee Hdue. pose proof (due_state_checking Now e l E s Hc HNow El Ee) as Hc2.
  assert (forall m n, loop m (S n) Now s =
    (x ← (if decide (Period E = 0) then Done (due_state Now e l E s) else CoreInsertEventTimer e (due_state Now e l E s)); loop m n Now x)) as Hcode
    by (intros m n; by apply timers_step_code).
  assert (e ∉ l) as He.
  { pose proof (t_once s (c_timers s Hc)) as Ho. rewrite El in Ho. by apply NoDup_cons in Ho as [? _]. }
  unfold due_state in *. destruct (decide (Period E = 0)) as [Hz|Hz]; [by eexists|].
  set (s2 := timed e false (next_time Now E) (Period E) l (signal_all (expiry Now s e) s)) in *.
  assert (exists X, events s2 !! e = Some (set_timer false (next_time Now E) (Period E) X)) as [X EX].
  { unfold s2. rewrite timed_event, decide_True by done. pose proof (signal_all_static (expiry Now s e) s e) as Hst. rewrite Ee in Hst.
    destruct (events (signal_all _ s) !! e) as [X|]; [by exists X|done]. }
  destruct (CoreInsertEventTimer_ok e _ s2 Hc2 EX eq_refl) as (l1 & l2 & Esp & Hl1 & Hl2 & Ei & Hc3). cbn [TriggerTime Period set_timer] in *.
  assert (forall i, i ∈ l -> due_time s2 i = due_time s i) as Hd.
  { intros i Hi. unfold s2. rewrite due_time_timed, decide_False by (intros [-> _]; done). apply due_time_signal. }
  eexists. split; [intros m n; rewrite Hcode, Ei; by mred|]. split; [done|]. change (mEfiTimerList s2) with l in Esp. exists l1, l2. split; [done|].
  split; [intros i Hi; rewrite <- Hd by (rewrite Esp; set_solver); by apply Hl1|]. split; [intros i Hi; rewrite <- Hd by (rewrite Esp; set_solver); by apply Hl2|].
  apply timed_timed.
Qed.

(* ------------------------------------------------------------------ *)
(** ** All the timers that are due *)

(** What becomes of an event when the timers are checked. *)
Definition rescheduled (Now : Z) (E : IEVENT) : IEVENT :=
  if TimerLinked E && (TriggerTime E <=? Now) then
    if decide (Period E = 0) then set_timer false (TriggerTime E) (Period E) E
    else set_timer true (if decide (Now < TriggerTime E + Period E) then TriggerTime E + Period E else Now + Period E) (Period E) E
  else E.

Definition expiries (Now : Z) (s : ES) : list Z := mEfiTimerList s ≫= expiry Now s.
Definition stays (Now : Z) (s : ES) (e : Z) : Prop := ~ exists E, events s !! e = Some E /\ TriggerTime E <= Now /\ Period E = 0.
Definition expired (Now : Z) (l : list Z) (s : ES) : ES :=
  let s1 := signal_all (expiries Now s) s in set_timers l (set_events (rescheduled Now <$> events s1) s1).

(** No periodic timer that is due has a period that takes it past the end of
    time. *)
Definition no_overflow (Now : Z) (s : ES) : Prop :=
  forall e E, events s !! e = Some E -> TimerLinked E = true -> TriggerTime E <= Now -> Period E <> 0 -> Now + Period E < 2 ^ 64.

#[local] Instance stays_dec Now (s : ES) e : Decision (stays Now s e).
Proof.
  unfold stays. destruct (events s !! e) as [E|].
  - destruct (decide (TriggerTime E <= Now /\ Period E = 0)) as [Hy|Hn]; [right|left]; naive_solver.
  - left. naive_solver.
Defined.

Lemma expiry_none Now (s : ES) l : (forall i, i ∈ l -> Now < due_time s i) -> l ≫= expiry Now s = [].
Proof.
  induction l as [|i l IH]; intros Hl; [done|]. cbn. rewrite IH by (intros j Hj; apply Hl; by right). rewrite app_nil_r.
  specialize (Hl i ltac:(left)). unfold expiry, due_time in *. destruct (events s !! i) as [E|]; [|done]. cbn in Hl. by rewrite decide_False by lia.
Qed.

Lemma bind_pointwise {A} (f g : Z -> list A) l : (forall i, i ∈ l -> f i = g i) -> l ≫= f = l ≫= g.
Proof.
  induction l as [|i l IH]; intros Hl; [done|]. cbn. f_equal; [apply Hl; left|]. apply IH. intros j Hj. apply Hl. by right.
Qed.

(** Events other than [e] keep their time. *)
Lemma other_event e b t p l k (s : ES) i : i <> e ->
  static <$> events (timed e b t p l (signal_all k s)) !! i = static <$> events s !! i.
Proof. intros Hi. rewrite timed_event, decide_False by done. apply signal_all_static. Qed.

Lemma expiry_static Now (s s' : ES) i : static <$> events s' !! i = static <$> events s !! i -> mEfiCheckTimerEvent s' = mEfiCheckTimerEvent s ->
  expiry Now s' i = expiry Now s i.
Proof.
  intros He Hc. unfold expiry. rewrite Hc. destruct (events s' !! i) as [F|], (events s !! i) as [E|]; try done. apply (inj Some) in He.
  by apply static_timer in He as (_ & -> & ->).
Qed.

Lemma stays_static Now (s s' : ES) i : static <$> events s' !! i = static <$> events s !! i -> stays Now s' i <-> stays Now s i.
Proof.
  intros He. unfold stays. destruct (events s' !! i) as [F|], (events s !! i) as [E|]; try done. apply (inj Some) in He.
  apply static_timer in He as (_ & HT & HP). split; intros Hn (G & [= <-] & HG1 & HG2); apply Hn; eexists; (split; [done|]); lia.
Qed.

Lemma rescheduled_done Now E : is_u64 (TriggerTime E) -> is_u64 (Period E) -> is_u64 Now -> TimerLinked E = true -> TriggerTime E <= Now ->
  (Period E <> 0 -> Now + Period E < 2 ^ 64) ->
  forall X, static X = static E ->
  rescheduled Now (if decide (Period E = 0) then set_timer false (TriggerTime E) (Period E) X else set_timer true (next_time Now E) (Period E) X) =
  rescheduled Now X.
Proof.
  intros HT HP HN HL Hdue Hov X HX. apply static_timer in HX as (HXL & HXT & HXP). destruct (decide (Period E = 0)) as [Hz|Hz].
  - unfold rescheduled. cbn [TimerLinked TriggerTime Period set_timer andb]. rewrite HXL, HXT, HXP, HL. rewrite (proj2 (Z.leb_le (TriggerTime E) Now)) by done.
    cbn [andb]. by rewrite decide_True by done.
  - specialize (Hov Hz). unfold rescheduled. cbn [TimerLinked TriggerTime Period set_timer]. rewrite HXL, HXT, HXP, HL.
    rewrite (proj2 (Z.leb_le (TriggerTime E) Now)) by done. rewrite !(decide_False (P := Period E = 0)) by done. cbn [andb].
    unfold next_time. rewrite u64_id by lia. destruct (decide (TriggerTime E + Period E <= Now)) as [Hb|Hb].
    + rewrite (proj2 (Z.leb_le Now Now)) by lia. rewrite decide_True by lia. by rewrite decide_False by lia.
    + rewrite (proj2 (Z.leb_gt _ Now)) by lia. by rewrite decide_True by lia.
Qed.

(** The state after one timer, [s'], ends up as [s] does. *)
Lemma expired_step Now e b t p l l' (s : ES) E : events s !! e = Some E ->
  (forall X, static X = static E -> rescheduled Now (set_timer b t p X) = rescheduled Now X) ->
  signal_all (expiries Now (timed e b t p l (signal_all (expiry Now s e) s))) (signal_all (expiry Now s e) s) = signal_all (expiries Now s) s ->
  expired Now l' (timed e b t p l (signal_all (expiry Now s e) s)) = expired Now l' s.
Proof.
  intros Ee HX Hsig. unfold expired. rewrite signal_all_timed, Hsig. set (s1 := signal_all (expiries Now s) s).
  assert (rescheduled Now <$> events (timed e b t p l s1) = rescheduled Now <$> events s1) as ->; [|done].
  apply map_eq. intros i. rewrite !lookup_fmap, timed_event. destruct (decide (i = e)) as [->|]; [|done].
  pose proof (signal_all_static (expiries Now s) s e) as Hst. rewrite Ee in Hst. fold s1 in Hst. destruct (events s1 !! e) as [X|]; [|done].
  apply (inj Some) in Hst. cbn. by rewrite HX.
Qed.

(** What is signalled after the first timer, in [s'], is the rest of what is
    signalled in [s], and perhaps the first timer again. *)
Lemma expiries_step Now e l E (s s' : ES) : timers_ok s -> is_u64 Now -> mEfiTimerList s = e :: l -> events s !! e = Some E -> TriggerTime E <= Now ->
  (Period E <> 0 -> Now + Period E < 2 ^ 64) ->
  (if decide (Period E = 0) then s' = timed e false (TriggerTime E) (Period E) l (signal_all (expiry Now s e) s)
   else exists l1 l2, l = l1 ++ l2 /\ (forall i, i ∈ l1 -> due_time s i <= next_time Now E) /\ (forall i, i ∈ l2 -> next_time Now E < due_time s i) /\
     s' = timed e true (next_time Now E) (Period E) (l1 ++ e :: l2) (signal_all (expiry Now s e) s)) ->
  (exists k, expiries Now s' = (l ≫= expiry Now s) ++ k /\ (length k < length (expiry Now s e))%nat /\ (forall i, i ∈ k -> i = e)) /\
  mEfiTimerList s' ≡ₚ (if decide (Period E = 0) then l else e :: l) /\
  (forall i, i ∈ l -> static <$> events s' !! i = static <$> events s !! i).
Proof.
  intros Ht HNow El Ee Hdue Hov Hs'. destruct (t_range s Ht e E Ee) as [HT HP]. assert (e ∉ l) as He.
  { pose proof (t_once s Ht) as Ho. rewrite El in Ho. by apply NoDup_cons in Ho as [? _]. }
  destruct (signal_all_fields (expiry Now s e) s) as (_ & _ & Hev).
  assert (forall b t p l', (forall i, i ∈ l -> static <$> events (timed e b t p l' (signal_all (expiry Now s e) s)) !! i = static <$> events s !! i)) as Hst.
  { intros b t p l' i Hi. apply other_event. by intros ->. }
  assert (expiry Now s e <> []) as Hne.
  { unfold expiry. rewrite Ee. by rewrite decide_True by done. }
  destruct (decide (Period E = 0)) as [Hz|Hz].
  - subst s'. split; [|split; [done|by apply Hst]]. exists []. rewrite app_nil_r. split; [|split; [|intros i Hi; by apply elem_of_nil in Hi]].
    + apply bind_pointwise. intros i Hi. apply expiry_static; [by apply Hst|done].
    + destruct (expiry Now s e); [done|cbn; lia].
  - destruct Hs' as (l1 & l2 & -> & Hl1 & Hl2 & ->). specialize (Hov Hz). split; [|split; [cbn; by rewrite <- Permutation_middle|by apply Hst]].
    set (s' := timed e true _ _ _ _). exists (expiry Now s' e).
    assert (Now <= next_time Now E) as Hnt by (unfold next_time; destruct (decide _); lia).
    unfold expiries. change (mEfiTimerList s') with (l1 ++ e :: l2). rewrite !bind_app, bind_cons.
    assert (forall i, i ∈ l1 ++ l2 -> expiry Now s' i = expiry Now s i) as Hex by (intros i Hi; apply expiry_static; [by apply Hst|done]).
    rewrite (bind_pointwise _ (expiry Now s) l1) by (intros; apply Hex; set_solver). rewrite (bind_pointwise _ (expiry Now s) l2) by (intros; apply Hex; set_solver).
    rewrite (expiry_none Now s l2) by (intros i Hi; specialize (Hl2 i Hi); lia). rewrite !app_nil_r. split; [done|].
    assert (exists X, events s' !! e = Some (set_timer true (next_time Now E) (Period E) X)) as [X EX].
    { unfold s'. rewrite timed_event, decide_True by done. pose proof (signal_all_static (expiry Now s e) s e) as Hse. rewrite Ee in Hse.
      destruct (events (signal_all _ s) !! e) as [X|]; [by exists X|done]. }
    unfold expiry at 1 3. rewrite EX. cbn [TriggerTime Period set_timer]. unfold expiry. rewrite Ee. rewrite (decide_True (P := TriggerTime E <= Now)) by done.
    unfold next_time in *. rewrite u64_id in * by lia. destruct (decide (TriggerTime E + Period E <= Now)) as [Hb|Hb].
    + rewrite (decide_True (P := Now <= Now)) by lia. rewrite u64_id by lia. rewrite (decide_False (P := _ /\ Now + Period E <= Now)) by lia.
      rewrite decide_True by lia. split; [cbn; lia|]. intros i Hi. by apply list_elem_of_singleton in Hi.
    + rewrite (decide_False (P := TriggerTime E + Period E <= Now)) by lia. split; [cbn; lia|]. intros i Hi. by apply elem_of_nil in Hi.
Qed.

Lemma signal_all_same k e (s : ES) : (forall i, i ∈ k -> i = e) -> count e s <> Some 0 -> signal_all k s = s.
Proof.
  intros Hk Hn. induction k as [|i k IH]; [done|]. unfold signal_all in *. cbn [foldl]. rewrite (Hk i) by left. rewrite signalled_again by done.
  apply IH. intros j Hj. apply Hk. by right.
Qed.

(** Nothing is due: nothing happens. *)
Lemma expired_none Now (s : ES) : timers_ok s -> (forall i, i ∈ mEfiTimerList s -> Now < due_time s i) -> expired Now (mEfiTimerList s) s = s.
Proof.
  intros Ht Hd. unfold expired, expiries. rewrite expiry_none by done. change (signal_all [] s) with s.
  assert (rescheduled Now <$> events s = events s) as ->; [|by destruct s]. apply map_eq. intros i. rewrite lookup_fmap.
  destruct (events s !! i) as [E|] eqn:Ei; [|done]. cbn. f_equal. unfold rescheduled. destruct (TimerLinked E) eqn:HL; [|done].
  assert (Now < TriggerTime E) as Hlt.
  { specialize (Hd i). unfold due_time in Hd. rewrite Ei in Hd. apply Hd. apply (t_in s Ht). by exists E. }
  by rewrite (proj2 (Z.leb_gt (TriggerTime E) Now)) by done.
Qed.

Lemma head_due Now (s : ES) e l : timers_ok s -> mEfiTimerList s = e :: l -> Now < due_time s e -> forall i, i ∈ mEfiTimerList s -> Now < due_time s i.
Proof.
  intros Ht El He i Hi. pose proof (t_sorted s Ht) as Hs. rewrite El in *. apply StronglySorted_inv in Hs as [_ Hs].
  apply elem_of_cons in Hi as [->|Hi]; [done|]. rewrite Forall_forall in Hs. specialize (Hs i Hi). unfold by_time in Hs. lia.
Qed.

Lemma no_overflow_step Now e b t p l k (s : ES) E : no_overflow Now s -> events s !! e = Some E -> TimerLinked E = true -> TriggerTime E <= Now ->
  p = Period E -> no_overflow Now (timed e b t p l (signal_all k s)).
Proof.
  intros Hno Ee HL HT -> i F. rewrite timed_event. pose proof (signal_all_static k s i) as Hst. destruct (decide (i = e)) as [->|Hne].
  - rewrite Ee in Hst. destruct (events (signal_all k s) !! e) as [X|]; [|done]. intros [= <-]. cbn. intros _ _. by apply (Hno e).
  - intros EF HFL HFT HFP. rewrite EF in Hst. destruct (events s !! i) as [G|] eqn:EG; [|done]. apply (inj Some) in Hst.
    apply static_timer in Hst as (H1 & H2 & H3). rewrite H3. apply (Hno i G); congruence || lia.
Qed.

Lemma stays_all Now (s : ES) : (forall i, i ∈ mEfiTimerList s -> Now < due_time s i) -> filter (stays Now s) (mEfiTimerList s) = mEfiTimerList s.
Proof.
  intros Hd. induction (mEfiTimerList s) as [|i l IHl]; [done|]. rewrite filter_cons. rewrite decide_True.
  - f_equal. apply IHl. intros j Hj. apply Hd. by right.
  - intros (E & Ei & HT & _). specialize (Hd i ltac:(left)). unfold due_time in Hd. rewrite Ei in Hd. cbn in Hd. lia.
Qed.

Lemma timers_loop_ok Now : forall w (s : ES), (length (expiries Now s) <= w)%nat -> checking s -> is_u64 Now -> no_overflow Now s ->
  exists l', (forall m n, (length (expiries Now s) < n)%nat -> loop m n Now s = Done (expired Now l' s)) /\ checking (expired Now l' s) /\
    l' ≡ₚ filter (stays Now s) (mEfiTimerList s) /\ (forall i, i ∈ l' -> Now < due_time (expired Now l' s) i).
Proof.
  induction w as [w IH] using lt_wf_ind; intros s Hn Hc HNow Hno. pose proof (c_timers s Hc) as Ht.
  assert ((forall i, i ∈ mEfiTimerList s -> Now < due_time s i) -> (forall m n, loop m (S n) Now s = Done s) ->
    exists l', (forall m n, (length (expiries Now s) < n)%nat -> loop m n Now s = Done (expired Now l' s)) /\ checking (expired Now l' s) /\
    l' ≡ₚ filter (stays Now s) (mEfiTimerList s) /\ (forall i, i ∈ l' -> Now < due_time (expired Now l' s) i)) as Hdone.
  { intros Hd Hl. exists (mEfiTimerList s). rewrite expired_none, stays_all by done. split; [|done]. intros m [|n] Hlt; [lia|apply Hl]. }
  destruct (mEfiTimerList s) as [|e l] eqn:El; rewrite ?El in Hdone.
  { apply Hdone; [intros i Hi; by apply elem_of_nil in Hi|]. intros m n. cbn [timers_loop]. by rewrite El. }
  destruct (proj1 (t_in s Ht e)) as (E & Ee & HL); [rewrite El; left|].
  destruct (decide (Now < TriggerTime E)) as [Hlt|Hdue].
  { apply Hdone.
    - intros i Hi. apply (head_due Now s e l Ht El); [unfold due_time; by rewrite Ee|by rewrite El].
    - intros m n. cbn [timers_loop]. rewrite El, Ee. dred. by rewrite decide_True by done. }
  clear Hdone. assert (TriggerTime E <= Now) as HT by lia. pose proof (Hno e E Ee HL HT) as Hov.
  destruct (timers_step Now e l E s Hc HNow El Ee HT) as (s' & Hloop & Hc' & Hs').
  destruct (expiries_step Now e l E s s' Ht HNow El Ee HT Hov Hs') as ((k & Ek & Hk & Hke) & Hperm & Hst).
  assert (expiries Now s = expiry Now s e ++ (l ≫= expiry Now s)) as Es by (unfold expiries; by rewrite El).
  assert (exists b t p l2, s' = timed e b t p l2 (signal_all (expiry Now s e) s) /\ p = Period E /\
    (forall X, static X = static E -> rescheduled Now (set_timer b t p X) = rescheduled Now X)) as (b & t & p & l2 & Es' & Hp & HX).
  { pose proof (rescheduled_done Now E) as HR. destruct (t_range s Ht e E Ee) as [HT1 HP1].
    destruct (decide (Period E = 0)) as [Hz|Hz]; [|destruct Hs' as (l1 & l2 & _ & _ & _ & Hs')];
      (do 4 eexists; split; [exact Hs'|]; split; [done|]; intros X HX'; specialize (HR HT1 HP1 HNow HL HT Hov X HX')); exact HR. }
  assert (length (expiries Now s') < length (expiries Now s))%nat as Hless by (rewrite Es, Ek, !length_app; lia).
  destruct (IH (length (expiries Now s')) ltac:(lia) s') as (l' & Hl & Hc2 & Hperm2 & Hd2);
    [done|done|done|rewrite Es'; by apply (no_overflow_step Now e b t p l2 _ s E)|].
  assert (expired Now l' s' = expired Now l' s) as Hexp.
  { rewrite Es'. apply (expired_step Now e b t p l2 l' s E); [done|done|]. rewrite <- Es', Ek, Es, !signal_all_app. 
    apply (signal_all_same k e); [done|]. rewrite <- signal_all_app, signal_all_count. destruct (decide (e ∈ expiry Now s e ++ (l ≫= expiry Now s) /\ count e s = Some 0)) as [|Hno']; [done|].
    intros Hz. apply Hno'. split; [|done]. apply elem_of_app. left. unfold expiry. rewrite Ee, decide_True by done. left. }
  rewrite Hexp in *. exists l'. split; [intros m [|n] Hm; [lia|]; rewrite Hloop; apply Hl; lia|]. split; [done|]. split; [|done]. rewrite Hperm2, Hperm.
  assert (filter (stays Now s') l = filter (stays Now s) l) as Hf.
  { clear -Hst. induction l as [|i l IHl]; [done|]. rewrite !filter_cons. rewrite IHl by (intros j Hj; apply Hst; by right).
    pose proof (stays_static Now s s' i (Hst i ltac:(left))) as Hi. destruct (decide (stays Now s' i)), (decide (stays Now s i)); try done; tauto. }
  destruct (decide (Period E = 0)) as [Hz|Hz].
  - rewrite filter_cons, decide_False; [by rewrite Hf|]. intros Hs. apply Hs. by exists E.
  - rewrite !filter_cons, Hf. rewrite (decide_True (P := stays Now s e)); [rewrite decide_True; [done|]|].
    + intros (F & EF & _ & HF). rewrite Es', timed_event, decide_True in EF by done. destruct (events (signal_all _ s) !! e); [|done].
      cbn in EF. injection EF as <-. cbn in HF. lia.
    + intros (F & EF & _ & HF). congruence.
Qed.

(* ------------------------------------------------------------------ *)
(** ** The notification function of the timers *)

Lemma CoreCurrentSystemTime_ok m (s : ES) : queues_ok s -> 0 <= gEfiCurrentTpl s <= TPL_HIGH_LEVEL -> calm (gEfiCurrentTpl s) s ->
  CoreCurrentSystemTime gCpu gSmmBase2 (restore (S m)) s = Done (mEfiSystemTime s, at_level (gEfiCurrentTpl s) s).
Proof.
  intros Hq Hl Hc. unfold CoreCurrentSystemTime, mEfiSystemTimeLock, CoreReleaseLock. rewrite acquire_locked.
  change (locked gCpu gSmmBase2 s) with (set_level TPL_HIGH_LEVEL (Interrupts (locked gCpu gSmmBase2 s)) s).
  rewrite release_locked by done. by mred.
Qed.

Lemma acquire_timer t (s : ES) : gEfiCurrentTpl s = t -> CoreAcquireLock gCpu gSmmBase2 mEfiTimerLock s = (t, set_level TPL_TIMER (Interrupts s) s).
Proof. intros <-. reflexivity. Qed.

Lemma lowered_at_level t (s : ES) : t < TPL_HIGH_LEVEL -> lowered gCpu gSmmBase2 t (at_level TPL_TIMER s) = at_level t s.
Proof.
  intros Ht. unfold lowered, DxeEventOk.at_level. change (TPL_TIMER <? TPL_HIGH_LEVEL) with true. cbn. rewrite (proj2 (Z.ltb_lt t _)) by done.
  by rewrite switched_switched.
Qed.

Lemma CoreCheckTimers_ok (s : ES) : queues_ok s -> timers_ok s -> is_Some (events s !! mEfiCheckTimerEvent s) -> gEfiCurrentTpl s = TPL_TIMER ->
  no_overflow (mEfiSystemTime s) s ->
  exists l, (forall m n, (length (expiries (mEfiSystemTime s) s) < n)%nat ->
      CoreCheckTimers gCpu gSmmBase2 (restore (S m)) n s = Done (at_level TPL_TIMER (expired (mEfiSystemTime s) l s))) /\
    checking (at_level TPL_TIMER (expired (mEfiSystemTime s) l s)) /\
    l ≡ₚ filter (stays (mEfiSystemTime s) s) (mEfiTimerList s) /\
    (forall i, i ∈ l -> mEfiSystemTime s < due_time (expired (mEfiSystemTime s) l s) i).
Proof.
  intros Hq Ht Hev Hl Hno. set (Now := mEfiSystemTime s) in *. set (s0 := at_level TPL_TIMER s).
  assert (checking s0) as Hc0 by (split; [apply at_level_twice|by apply queues_ok_level|by apply (timers_ok_static s)|done]).
  destruct (timers_loop_ok Now _ s0 (le_n _)) as (l & El & Hc & Hp & Hd); [done|apply (t_now s Ht)|done|].
  assert (expired Now l s0 = at_level TPL_TIMER (expired Now l s)) as Eexp.
  { unfold expired. change (expiries Now s0) with (expiries Now s). set (k := expiries Now s).
    assert (forall (x : ES), signal_all k (at_level TPL_TIMER x) = at_level TPL_TIMER (signal_all k x)) as Hsa.
    { induction k as [|i k IH]; intros x; [done|]. unfold signal_all in *. cbn [foldl]. by rewrite signalled_at. }
    unfold s0. by rewrite Hsa. }
  rewrite Eexp in *. exists l. split; [|split; [done|split; [done|exact Hd]]]. intros m n Hn. unfold CoreCheckTimers. rewrite (acquire_timer _ _ Hl).
  assert (set_level TPL_TIMER (Interrupts s) s = s) as -> by (destruct s; cbn in *; by subst).
  rewrite CoreCurrentSystemTime_ok by (rewrite ?Hl; done || by apply calm_timer). mred. rewrite Hl. fold s0 Now.
  rewrite El by exact Hn. mred. unfold CoreReleaseLock. rewrite restore_calm; [|apply (q_pending _ (c_queues _ Hc))|done|by apply calm_timer, (c_queues _ Hc)].
  f_equal. by apply lowered_at_level.
Qed.

(* ------------------------------------------------------------------ *)
(** ** A period past the end of time *)

(** A periodic timer that is due and whose next time, at or after [Now], is not
    after [Now]. *)
Definition runaway (Now e : Z) (s : ES) : Prop := exists E, events s !! e = Some E /\ TimerLinked E = true /\ TriggerTime E <= Now /\ Period E <> 0 /\
  u64 (TriggerTime E + Period E) <= Now /\ 2 ^ 64 <= Now + Period E.

Lemma timers_loop_runaway m Now e : forall n (s : ES), checking s -> is_u64 Now -> runaway Now e s -> loop m n Now s = Fault Diverges.
Proof.
  induction n as [|n IH]; intros s Hc HNow (E & Ee & HL & HT & HP & Hu & Hov); [done|]. pose proof (c_timers s Hc) as Ht.
  assert (e ∈ mEfiTimerList s) as Hin by (apply (t_in s Ht); by exists E).
  destruct (mEfiTimerList s) as [|i l] eqn:El; [by apply elem_of_nil in Hin|].
  destruct (proj1 (t_in s Ht i)) as (F & EF & HFL); [rewrite El; left|].
  assert (TriggerTime F <= Now) as HF.
  { destruct (decide (Now < TriggerTime F)) as [Hlt|]; [|lia]. pose proof (head_due Now s i l Ht El) as Hd. unfold due_time in Hd.
    rewrite EF in Hd. specialize (Hd Hlt e). rewrite Ee, El in Hd. specialize (Hd Hin). cbn in Hd. lia. }
  destruct (timers_step Now i l F s Hc HNow El EF HF) as (s' & -> & Hc' & Hs'). apply IH; [done|done|]. clear IH.
  assert (exists b t l2, s' = timed i b t (Period F) l2 (signal_all (expiry Now s i) s) /\ (Period F <> 0 -> b = true /\ t = next_time Now F))
    as (b & t & l2 & -> & Hbt).
  { destruct (decide (Period F = 0)) as [Hz|Hz]; [|destruct Hs' as (l1 & l2 & _ & _ & _ & Hs')]; (do 3 eexists; split; [exact Hs'|done]). }
  unfold runaway. rewrite timed_event. pose proof (signal_all_static (expiry Now s i) s e) as Hst. rewrite Ee in Hst.
  destruct (events (signal_all _ s) !! e) as [X|]; [|done]. apply (inj Some) in Hst. apply static_timer in Hst as (HX1 & HX2 & HX3).
  destruct (decide (e = i)) as [->|Hne].
  - assert (F = E) as -> by congruence. destruct (Hbt HP) as [-> ->]. eexists. split; [reflexivity|]. cbn. unfold next_time. rewrite decide_True by done.
    split; [done|]. split; [lia|]. split; [done|]. split; [|done]. destruct (t_range s Ht i E Ee) as [_ HPr]. unfold u64.
    replace (Now + Period E) with (Now + Period E - 2 ^ 64 + 1 * 2 ^ 64) by lia. change 18446744073709551616 with (2 ^ 64). rewrite Z.mod_add by lia.
    rewrite Z.mod_small by lia. lia.
  - exists X. rewrite HX1, HX2, HX3. done.
Qed.

(* ------------------------------------------------------------------ *)
(** ** Setting a timer *)

(** An event's timer is taken off the list, if it is on it. *)
Definition unlinked (e : Z) (s : ES) : list Z := filter (fun i => i <> e) (mEfiTimerList s).

Lemma timers_ok_unlinked e t p (s : ES) : timers_ok s -> is_u64 t -> is_u64 p -> timers_ok (timed e false t p (unlinked e s) s) /\ e ∉ unlinked e s.
Proof.
  intros Ht HT HP. unfold unlinked. destruct (decide (e ∈ mEfiTimerList s)) as [Hin|Hin].
  - apply list_elem_of_split in Hin as (l1 & l2 & El). pose proof (timers_ok_cancel e t p l1 l2 s Ht El HT HP) as [Hc He].
    rewrite El, filter_app, filter_cons, decide_False by tauto. apply not_elem_of_app in He as [He1 He2]. rewrite !filter_ne_id by done.
    split; [done|]. apply not_elem_of_app. done.
  - rewrite filter_ne_id by done. split; [|done]. destruct Ht as [Hs Hi Ho Hr Hw]. split; cbn [mEfiTimerList timed set_timers]; try done.
    + apply (sorted_ext s); [|done]. intros i Hii. rewrite due_time_timed, decide_False; [done|]. by intros [-> _].
    + intros i. rewrite timed_event. destruct (decide (i = e)) as [->|]; [|apply Hi]. split; [done|]. intros (F & EF & HL).
      destruct (events s !! e); [|done]. cbn in EF. injection EF as <-. done.
    + intros i F. rewrite timed_event. destruct (decide (i = e)) as [->|]; [|apply Hr]. destruct (events s !! e); [|done]. by intros [= <-].
Qed.

Lemma CoreSetTimer_ok m GetTimerPeriod e Type_ Time E (s : ES) : queues_ok s -> timers_ok s -> is_Some (events s !! mEfiCheckTimerEvent s) ->
  0 <= gEfiCurrentTpl s < TPL_HIGH_LEVEL -> is_u64 Time ->
  events s !! e = Some E -> bits (EventType E) EVT_TIMER = true -> 0 <= Type_ <= TimerRelative ->
  let delay := if decide (Type_ = TimerPeriodic /\ Time = 0) then u64 (GetTimerPeriod (world s)) else Time in
  let T := u64 (mEfiSystemTime s + delay) in
  let P := if decide (Type_ = TimerPeriodic) then delay else 0 in
  if decide (Type_ = TimerCancel)
  then CoreSetTimer gCpu gSmmBase2 notify GetTimerPeriod CheckTimersFunction (S m) e Type_ Time s =
         (s' ← restore (S m) (gEfiCurrentTpl s) (set_level TPL_TIMER (Interrupts s) (timed e false 0 0 (unlinked e s) s)); Done (EFI_SUCCESS, s')) /\
       timers_ok (timed e false 0 0 (unlinked e s) s)
  else exists l1 l2, unlinked e s = l1 ++ l2 /\ (forall i, i ∈ l1 -> due_time s i <= T) /\ (forall i, i ∈ l2 -> T < due_time s i) /\
    let s' := signal_all (if decide (delay = 0) then [mEfiCheckTimerEvent s] else []) (timed e true T P (l1 ++ e :: l2) s) in
    CoreSetTimer gCpu gSmmBase2 notify GetTimerPeriod CheckTimersFunction (S m) e Type_ Time s =
      (s' ← restore (S m) (gEfiCurrentTpl s) (at_level TPL_TIMER s'); Done (EFI_SUCCESS, s')) /\
    checking (at_level TPL_TIMER s').
Proof.
  intros Hq Ht Hev Hl HTime Ee Hbit HType delay T P.
  assert (is_u64 delay) as Hdel by (unfold delay; destruct (decide _); [apply u64_range|done]).
  assert (is_u64 P) as HPr by (clearbody delay; unfold P; destruct (decide _); [exact Hdel|lia]).
  assert (is_u64 T) as HTr by apply u64_range.
  destruct (timers_ok_unlinked e 0 0 s Ht) as [Ht0 He0]; [lia|lia|]. set (s0 := timed e false 0 0 (unlinked e s) s) in *.
  set (s1 := set_level TPL_TIMER (Interrupts s) s0).
  assert (CoreSetTimer gCpu gSmmBase2 notify GetTimerPeriod CheckTimersFunction (S m) e Type_ Time s =
    (x ← (if decide (Type_ <> TimerCancel) then
            '(Now, s) ← CoreCurrentSystemTime gCpu gSmmBase2 (restore (S m)) s1;
            s ← CoreInsertEventTimer e (update_event e (set_timer false (u64 (Now + delay)) P) s);
            if decide (delay = 0) then '(_, s) ← CoreSignalEvent gCpu gSmmBase2 (restore (S m)) (mEfiCheckTimerEvent s) s; mret s else mret s
          else mret s1);
     x ← restore (S m) (gEfiCurrentTpl s) x; Done (EFI_SUCCESS, x))) as ->.
  { unfold CoreSetTimer. rewrite decide_False by (intros ->; by rewrite (q_null s Hq) in Ee). rewrite Ee.
    rewrite decide_False by (rewrite u32_id by (unfold TimerRelative in *; lia); rewrite Hbit; naive_solver lia).
    rewrite (acquire_timer (gEfiCurrentTpl s)) by done.
    assert (update_event e (set_timer false 0 0) (if TimerLinked E then set_timers (filter (fun i => i <> e) (mEfiTimerList (set_level TPL_TIMER (Interrupts s) s)))
      (set_level TPL_TIMER (Interrupts s) s) else set_level TPL_TIMER (Interrupts s) s) = s1) as ->; [|done].
    unfold s1, s0, unlinked. destruct (TimerLinked E) eqn:HL; [done|]. rewrite update_timed, filter_ne_id; [done|].
    intros Hin. apply (t_in s Ht) in Hin as (F & EF & HF). congruence. }
  destruct (decide (Type_ = TimerCancel)) as [HC|HC]; [rewrite decide_False by tauto; by mred|]. rewrite (decide_True (P := Type_ <> TimerCancel)) by done.
  rewrite CoreCurrentSystemTime_ok; [|by apply queues_ok_level, queues_ok_timed|done|by apply calm_timer, queues_ok_level, queues_ok_timed]. mred.
  change (mEfiSystemTime s1) with (mEfiSystemTime s). fold T. set (s2 := at_level TPL_TIMER (timed e false T P (unlinked e s) s)).
  assert (update_event e (set_timer false T P) (at_level (gEfiCurrentTpl s1) s1) = s2) as ->.
  { rewrite update_timed. change (timed e false T P (unlinked e s) (at_level TPL_TIMER (timed e false 0 0 (unlinked e s) s)) = s2).
    change (at_level TPL_TIMER (timed e false T P (unlinked e s) (timed e false 0 0 (unlinked e s) s)) = s2). by rewrite timed_timed. }
  destruct (timers_ok_unlinked e T P s Ht HTr HPr) as [Ht2 _].
  assert (checking s2) as Hc2.
  { split; [apply at_level_twice|by apply queues_ok_level, queues_ok_timed|by apply (timers_ok_static (timed e false T P (unlinked e s) s))|].
    change (is_Some (events (timed e false T P (unlinked e s) s) !! mEfiCheckTimerEvent s)). rewrite timed_event. destruct Hev as [G ->].
    destruct (decide (mEfiCheckTimerEvent s = e)); [by exists (set_timer false T P G)|by exists G]. }
  assert (events s2 !! e = Some (set_timer false T P E)) as E2.
  { change (events (timed e false T P (unlinked e s) s) !! e = Some (set_timer false T P E)). by rewrite timed_event, decide_True, Ee by done. }
  destruct (CoreInsertEventTimer_ok e _ s2 Hc2 E2 eq_refl) as (l1 & l2 & El & Hl1 & Hl2 & Ei & Hc3). cbn [TriggerTime Period set_timer] in *.
  rewrite Ei. mred. change (mEfiTimerList s2) with (unlinked e s) in El.
  set (l := l1 ++ e :: l2) in *. assert (timed e true T P l s2 = at_level TPL_TIMER (timed e true T P l s)) as E3.
  { change (timed e true T P l s2) with (at_level TPL_TIMER (timed e true T P l (timed e false T P (unlinked e s) s))). by rewrite timed_timed. }
  rewrite E3 in *. assert (forall i, i ∈ unlinked e s -> due_time s2 i = due_time s i) as Hd.
  { intros i Hi. change (due_time (timed e false T P (unlinked e s) s) i = due_time s i). rewrite due_time_timed, decide_False; [done|].
    by intros [-> _]. }
  exists l1, l2. split; [done|]. split; [intros i Hi; rewrite <- Hd by (rewrite El; set_solver); by apply Hl1|].
  split; [intros i Hi; rewrite <- Hd by (rewrite El; set_solver); by apply Hl2|]. cbv zeta. fold l.
  destruct (decide (delay = 0)) as [Hz|Hz]; [|by mred].
  change (signal_all [mEfiCheckTimerEvent s] ?x) with (signalled (mEfiCheckTimerEvent s) x).
  change (mEfiCheckTimerEvent (at_level _ _)) with (mEfiCheckTimerEvent s). rewrite <- signalled_at.
  rewrite signal_checking; [|apply Hc3|apply Hc3|apply (c_event _ Hc3)]. mred. split; [done|].
  by apply (checking_signal [mEfiCheckTimerEvent s]).
Qed.

(* ------------------------------------------------------------------ *)
(** ** Theorems *)

Lemma rescheduled_static Now E : static (rescheduled Now E) = rescheduled Now (static E).
Proof.
  unfold rescheduled. change (TimerLinked (static E)) with (TimerLinked E). change (TriggerTime (static E)) with (TriggerTime E).
  change (Period (static E)) with (Period E). destruct (_ && _); [|done]. destruct (decide (Period E = 0)); [done|].
  by destruct (decide (Now < TriggerTime E + Period E)).
Qed.

Lemma expired_event Now l (s : ES) e E : events s !! e = Some E ->
  exists F, events (expired Now l s) !! e = Some F /\ static F = static (rescheduled Now E) /\
    (e ∈ mEfiTimerList s -> TriggerTime E <= Now -> SignalCount F <> 0).
Proof.
  intros Ee. pose proof (signal_all_static (expiries Now s) s e) as Hst. pose proof (signal_all_count (expiries Now s) s e) as Hct. rewrite Ee in Hst.
  unfold expired. cbn [events set_timers set_events]. rewrite lookup_fmap. unfold count at 1 in Hct.
  destruct (events (signal_all _ s) !! e) as [X|]; [|done]. apply (inj Some) in Hst. exists (rescheduled Now X). split; [done|].
  split; [by rewrite !rescheduled_static, Hst|]. intros Hin HT. assert (SignalCount (rescheduled Now X) = SignalCount X) as ->.
  { unfold rescheduled. destruct (_ && _); [|done]. destruct (decide (Period X = 0)); [done|]. by destruct (decide (Now < TriggerTime X + Period X)). }
  cbn in Hct. revert Hct. destruct (decide (e ∈ expiries Now s /\ count e s = Some 0)) as [|Hn]; intros Hct Hz; [rewrite Hz in Hct; done|]. apply Hn. split; [|congruence].
  apply list_elem_of_bind. exists e. split; [|done]. unfold expiry. rewrite Ee, decide_True by done. left.
Qed.

(** C23: checking the timers, with fuel for two steps of each timer, ends; what
    it does is [expired]: the events whose timer is due are signalled in the
    order in which they are due, a one-shot timer leaves the list, a periodic
    one is due again one period after the time it was due, or one period from
    now if it has fallen behind, in which case the timers will be checked
    again; the list is sorted, nothing on it is due, and everything that stays
    is on it once.  The period of a timer that is due must not reach past the
    end of time. *)
Theorem CoreCheckTimers_correct m n (s : ES) (Hq : queues_ok s) (Ht : timers_ok s) (Hev : is_Some (events s !! mEfiCheckTimerEvent s))
    (Hl : gEfiCurrentTpl s = TPL_TIMER) (Hno : no_overflow (mEfiSystemTime s) s) (Hn : (2 * length (mEfiTimerList s) < n)%nat) :
  let Now := mEfiSystemTime s in
  exists l s', CoreCheckTimers gCpu gSmmBase2 (restore (S m)) n s = Done s' /\ s' = at_level TPL_TIMER (expired Now l s) /\
    queues_ok s' /\ timers_ok s' /\ l ≡ₚ filter (stays Now s) (mEfiTimerList s) /\ (forall e, e ∈ mEfiTimerList s' -> Now < due_time s' e) /\
    (forall e E, events s !! e = Some E -> exists F, events s' !! e = Some F /\ static F = static (rescheduled Now E) /\
       (e ∈ mEfiTimerList s -> TriggerTime E <= Now -> SignalCount F <> 0)).
Proof.
  intros Now. assert (length (expiries Now s) <= 2 * length (mEfiTimerList s))%nat as Hlen.
  { unfold expiries. clear. induction (mEfiTimerList s) as [|e l IH]; [done|]. rewrite bind_cons, length_app. cbn [length]. assert (length (expiry Now s e) <= 2)%nat; [|lia].
    unfold expiry. destruct (events s !! e) as [E|]; [|cbn; lia]. destruct (decide (TriggerTime E <= Now)); [|cbn; lia].
    destruct (decide (Period E <> 0 /\ _)); cbn; lia. }
  destruct (CoreCheckTimers_ok s Hq Ht Hev Hl Hno) as (l & El & Hc & Hp & Hd). exists l. eexists. split; [apply El; fold Now; lia|].
  split; [done|]. split; [apply Hc|]. split; [apply Hc|]. split; [done|]. split; [exact Hd|]. intros e E Ee. by apply (expired_event Now l s e E).
Qed.

(** C29: a periodic timer that is due and whose period reaches past the end of
    time keeps the check of the timers busy for ever: its next time wraps
    around, is taken for one that has been missed and is set to now, again and
    again. *)
Theorem CoreCheckTimers_never_ends m n e (s : ES) (Hq : queues_ok s) (Ht : timers_ok s) (Hev : is_Some (events s !! mEfiCheckTimerEvent s))
    (Hl : gEfiCurrentTpl s = TPL_TIMER) (Hr : runaway (mEfiSystemTime s) e s) :
  CoreCheckTimers gCpu gSmmBase2 (restore (S m)) n s = Fault Diverges.
Proof.
  unfold CoreCheckTimers. rewrite (acquire_timer _ _ Hl). assert (set_level TPL_TIMER (Interrupts s) s = s) as -> by (destruct s; cbn in *; by subst).
  rewrite CoreCurrentSystemTime_ok by (rewrite ?Hl; done || by apply calm_timer). mred. rewrite Hl.
  rewrite (timers_loop_runaway m (mEfiSystemTime s) e); [done| |apply (t_now s Ht)|done].
  split; [apply at_level_twice|by apply queues_ok_level|by apply (timers_ok_static s)|done].
Qed.

(** C25: setting a timer from a level nothing is pending above.  The request is
    refused if there is no such event, it has no timer or the kind of delay is
    unknown; a cancelled timer is on no list; a timer that is set is due after
    the delay (a periodic one after the tick of the clock, for a delay of 0),
    stands behind those that are due no later, and has a period if it is
    periodic; if the delay is 0 the timers are checked as soon as the level
    allows it. *)
Theorem CoreSetTimer_correct m GetTimerPeriod e Type_ Time (s : ES) (Hq : queues_ok s) (Ht : timers_ok s)
    (Hev : is_Some (events s !! mEfiCheckTimerEvent s)) (Hl : 0 <= gEfiCurrentTpl s < TPL_HIGH_LEVEL) (Hcalm : calm (gEfiCurrentTpl s) s)
    (HTime : is_u64 Time) (HType : is_i32 Type_) :
  let delay := if decide (Type_ = TimerPeriodic /\ Time = 0) then u64 (GetTimerPeriod (world s)) else Time in
  let T := u64 (mEfiSystemTime s + delay) in
  let P := if decide (Type_ = TimerPeriodic) then delay else 0 in
  let t := gEfiCurrentTpl s in
  let result := CoreSetTimer gCpu gSmmBase2 notify GetTimerPeriod CheckTimersFunction (S m) e Type_ Time s in
  if decide (from_option (fun E => bits (EventType E) EVT_TIMER) false (events s !! e) = true /\ 0 <= Type_ <= TimerRelative) then
    if decide (Type_ = TimerCancel)
    then result = Done (EFI_SUCCESS, lowered gCpu gSmmBase2 t (timed e false 0 0 (unlinked e s) s)) /\ timers_ok (timed e false 0 0 (unlinked e s) s)
    else exists l1 l2, unlinked e s = l1 ++ l2 /\ (forall i, i ∈ l1 -> due_time s i <= T) /\ (forall i, i ∈ l2 -> T < due_time s i) /\
      let s' := timed e true T P (l1 ++ e :: l2) s in
      timers_ok s' /\
      (delay <> 0 -> result = Done (EFI_SUCCESS, at_level t s')) /\
      (delay = 0 -> result = (x ← restore (S m) t (at_level TPL_TIMER (signalled (mEfiCheckTimerEvent s) s')); Done (EFI_SUCCESS, x)))
  else result = Done (EFI_INVALID_PARAMETER, s).
Proof.
  intros delay T P t result.
  destruct (decide (from_option (fun E => bits (EventType E) EVT_TIMER) false (events s !! e) = true /\ 0 <= Type_ <= TimerRelative)) as [[Hb HT]|Hn].
  - destruct (events s !! e) as [E|] eqn:Ee; [|done]. pose proof (CoreSetTimer_ok m GetTimerPeriod e Type_ Time E s Hq Ht Hev Hl HTime Ee Hb HT) as Hok.
    cbv zeta in Hok. fold delay in Hok. fold T P t in Hok. fold result in Hok. destruct (decide (Type_ = TimerCancel)) as [HC|HC].
    + destruct Hok as [-> Hok]. split; [|done]. rewrite restore_calm; [by mred|apply (q_pending s Hq)|apply Hl|done].
    + destruct Hok as (l1 & l2 & El & Hl1 & Hl2 & Hr & Hc). exists l1, l2. split; [done|]. split; [done|]. split; [done|]. cbv zeta.
      set (s' := timed e true T P (l1 ++ e :: l2) s) in *. destruct (decide (delay = 0)) as [Hz|Hz].
      * split; [|done]. apply (timers_ok_static (at_level TPL_TIMER (signal_all [mEfiCheckTimerEvent s] s'))); [|symmetry; apply (signal_all_fields [mEfiCheckTimerEvent s] s')..|apply Hc].
        intros i. symmetry. apply (signal_all_static [mEfiCheckTimerEvent s] s').
      * split; [by apply (timers_ok_static (at_level TPL_TIMER s')); [..|apply Hc]|]. split; [|done]. intros _. rewrite Hr. change (signal_all [] s') with s'.
        rewrite restore_calm; [mred; by rewrite lowered_at_level by apply Hl|apply (q_pending s Hq)|apply Hl|done].
  - unfold result, CoreSetTimer. destruct (decide (e = 0)); [done|]. destruct (events s !! e) as [E|]; [|done]. cbn in Hn.
    rewrite decide_True; [done|]. destruct (bits (EventType E) EVT_TIMER); [left|by right]. destruct (decide (0 <= Type_)).
    + rewrite u32_id by lia. apply Z.nle_gt. intros ?. by apply Hn.
    + unfold u32. replace Type_ with (Type_ + 4294967296 + (-1) * 4294967296) by lia. rewrite Z.mod_add by lia. rewrite Z.mod_small by lia. unfold TimerRelative. lia.
Qed.
End check.
