(* ===== verification/DxeDispatch.v ===== *)
(** * DXE core: what lowering the level delivers

    [delivered] specifies [CoreRestoreTpl] of [DxeEvent.v]: as long as something
    is pending above the new level, the first event of the highest level's
    queue is taken off and notified at that level; a level whose queue is empty
    is no longer pending.  The code implements it whenever the notifications
    come to an end. *)
From Stdlib Require Import ZArith Lia.
From stdpp Require Import base gmap list.
From S2P Require Import Prelude Pointer Firmware DxePage Heap DevicePath DxeHand DxeEvent DxeEventOk DxeTimer.
#[local] Open Scope Z_scope.
#[local] Ltac dred := unfold deref; mred.

Section dispatch.
Context {W : Type} `{Heap W}.
#[local] Abbreviation ES := (EVENTS W).
Context (gCpu : bool) (gSmmBase2 : option (Z * bool)) (notify : Z -> Z -> Z -> ES -> outcome ES) (CheckTimersFunction : Z).
#[local] Abbreviation restore := (CoreRestoreTpl gCpu gSmmBase2 notify CheckTimersFunction).
#[local] Abbreviation at_level := (at_level gCpu gSmmBase2).
#[local] Abbreviation locked := (locked gCpu gSmmBase2).
#[local] Abbreviation lowered := (lowered gCpu gSmmBase2).
#[local] Abbreviation switched := (switched gCpu gSmmBase2).
#[local] Abbreviation call m := (call_notify gCpu gSmmBase2 notify CheckTimersFunction (restore m)).
#[local] Abbreviation dispatch m := (dispatch_loop gCpu gSmmBase2 notify CheckTimersFunction (restore m)).
#[local] Abbreviation pendings m := (pending_loop gCpu gSmmBase2 notify CheckTimersFunction (restore m)).

(* ------------------------------------------------------------------ *)
(** ** The specification *)

(** The highest level that is pending. *)
Definition highest (t : Z) (s : ES) : Prop := 0 < gEventPending s /\ Z.log2 (gEventPending s) = t.

(** The first event of a level's queue is taken off; a level is drained. *)
Definition dequeue (t e : Z) (q : list Z) (s : ES) : ES :=
  update_event e (fun E => set_count (if bits (EventType E) EVT_NOTIFY_SIGNAL then 0 else SignalCount E) (set_notify_link false E))
    (set_queue (<[t := q]> (gEventQueue s)) (gEventPending s) s).
Definition drained (t : Z) (s : ES) : ES := set_queue (gEventQueue s) (Z.clearbit (gEventPending s) t) s.

(** The notification function of the event runs, with enough fuel. *)
Definition runs (e : Z) (s s' : ES) : Prop := exists m0, forall m k, (m0 <= m)%nat -> (m0 <= k)%nat -> call m k e s = Done s'.

Inductive delivered (NewTpl : Z) : ES -> list (Z * Z) -> ES -> Prop :=
| d_done s : calm NewTpl s -> delivered NewTpl s [] (lowered NewTpl s)
| d_next s t e q s1 tr s2 : highest t s -> NewTpl < t -> queue t s = e :: q -> runs e (at_level t (dequeue t e q s)) s1 ->
    delivered NewTpl s1 tr s2 -> delivered NewTpl s ((t, e) :: tr) s2
| d_drain s t tr s2 : highest t s -> NewTpl < t -> queue t s = [] -> delivered NewTpl (at_level t (drained t s)) tr s2 -> delivered NewTpl s tr s2.

(* ------------------------------------------------------------------ *)
(** ** Notifications that come to an end *)

(** The states of the events between notifications, and a rank that every
    notification lowers. *)
Record ending (good : ES -> Prop) (rank : ES -> nat) : Prop := {
  e_queues : forall s, good s -> queues_ok s;
  e_level : forall t b s, good s -> good (set_level t b s) /\ rank (set_level t b s) = rank s;
  e_drain : forall t s, good s -> highest t s -> queue t s = [] -> good (drained t s) /\ (rank (drained t s) <= rank s)%nat;
  e_run : forall t e q s, good s -> highest t s -> queue t s = e :: q ->
    exists s1, runs e (at_level t (dequeue t e q s)) s1 /\ good s1 /\ gEfiCurrentTpl s1 = t /\ highest t s1 /\ (rank s1 < rank s)%nat;
}.

Context (good : ES -> Prop) (rank : ES -> nat) (HE : ending good rank).

Lemma good_at t (s : ES) : good s -> good (at_level t s) /\ rank (at_level t s) = rank s.
Proof. apply (e_level _ _ HE). Qed.

Lemma highest_range t (s : ES) : queues_ok s -> highest t s -> 0 <= t < 31.
Proof.
  intros Hq [Hp <-]. pose proof (q_pending s Hq). destruct (high_bit s); lia.
Qed.

Lemma highest_calm t (s : ES) : queues_ok s -> highest t s -> calm t s.
Proof. intros Hq Ht. pose proof (highest_range t s Hq Ht). destruct Ht. apply calm_log2; [lia|lia|]. right. lia. Qed.

Lemma drained_code t (s : ES) : queues_ok s -> 0 <= t <= 30 -> Z.land (gEventPending s) (u64 (Z.lnot (priority_bit t))) = Z.clearbit (gEventPending s) t.
Proof.
  intros Hq Ht. rewrite priority_bit_pow by done. pose proof (q_pending s Hq) as Hp. apply Z.bits_inj'. intros i Hi.
  rewrite Z.land_spec. unfold u64. change 18446744073709551616 with (2 ^ 64).
  destruct (decide (i < 64)) as [Hlt|Hge].
  - rewrite Z.mod_pow2_bits_low by lia. rewrite Z.lnot_spec by lia. rewrite Z.pow2_bits_eqb by lia. destruct (Z.eqb_spec t i) as [->|Hne].
    + rewrite Z.clearbit_eq by lia. by destruct (Z.testbit _ i).
    + rewrite Z.clearbit_neq by lia. by destruct (Z.testbit _ i).
  - assert (Z.testbit (gEventPending s) i = false) as Hf.
    { destruct (decide (gEventPending s = 0)) as [->|Hn]; [apply Z.bits_0|]. apply Z.bits_above_log2; [lia|].
      pose proof (proj1 (Z.log2_lt_pow2 (gEventPending s) 31 ltac:(lia)) ltac:(lia)). lia. }
    rewrite Z.clearbit_neq by lia. by rewrite Hf.
Qed.

Lemma clear_less t (s : ES) : highest t s -> 0 <= t -> 0 <= Z.clearbit (gEventPending s) t < gEventPending s.
Proof.
  intros [Hp <-] Ht. assert (0 <= Z.clearbit (gEventPending s) (Z.log2 (gEventPending s))) as Hn.
  { unfold Z.clearbit. apply Z.ldiff_nonneg. lia. }
  split; [done|]. assert (Z.clearbit (gEventPending s) (Z.log2 (gEventPending s)) <= gEventPending s) as Hle.
  { apply Z.ldiff_le; [lia|]. unfold Z.clearbit. apply Z.bits_inj'. intros i Hi. rewrite !Z.ldiff_spec, Z.bits_0. by destruct (Z.testbit _ i), (Z.testbit _ i). }
  assert (Z.clearbit (gEventPending s) (Z.log2 (gEventPending s)) <> gEventPending s); [|lia]. intros Heq.
  pose proof (Z.bit_log2 (gEventPending s) Hp) as Hb. rewrite <- Heq in Hb at 1. rewrite Z.clearbit_eq in Hb by lia. done.
Qed.

(** The specification does not look at the level it starts from. *)
Lemma delivered_level t u b NewTpl (s : ES) tr s2 : highest t s -> NewTpl < t -> switched false b = switched false (Interrupts s) ->
  t < TPL_HIGH_LEVEL ->
  delivered NewTpl (set_level u b s) tr s2 -> delivered NewTpl s tr s2.
Proof.
  intros Ht Hlt Hb H31 Hd. assert (forall x : ES, Interrupts x = Interrupts s -> at_level t (set_level u b x) = at_level t x) as Hat.
  { intros x Hx. unfold DxeEventOk.at_level. cbn. rewrite Hx. rewrite (proj2 (Z.ltb_lt t _)) by done. by rewrite Hb. }
  inversion Hd as [? Hc|? t' e q s1 tr' ? Ht' Hlt' Hq Hr Hd'|? t' ? ? Ht' Hlt' Hq Hd']; subst.
  - exfalso. unfold calm in Hc. cbn in Hc. destruct Ht as [Hp <-]. pose proof (Z.log2_spec (gEventPending s) Hp).
    assert (2 ^ (NewTpl + 1) <= 2 ^ Z.log2 (gEventPending s)); [|lia]. apply Z.pow_le_mono_r; lia.
  - assert (t' = t) as -> by (destruct Ht, Ht'; cbn in *; congruence). apply (d_next _ s t e q s1); [done..| |done]. by rewrite <- Hat.
  - assert (t' = t) as -> by (destruct Ht, Ht'; cbn in *; congruence). apply (d_drain _ s t); [done..|]. by rewrite <- Hat.
Qed.

(* ------------------------------------------------------------------ *)
(** ** The code implements the specification *)

(** A lock is taken at level [t] and released after [s']. *)
Lemma release_at n t (s s' : ES) : 0 <= gEventPending s' < 2 ^ 31 -> 0 <= t <= 30 -> gEfiCurrentTpl s = t -> calm t s' ->
  gEfiCurrentTpl s' = t -> Interrupts s' = Interrupts s ->
  restore (S n) t (set_level TPL_HIGH_LEVEL (Interrupts (locked s)) s') = Done (at_level t s').
Proof.
  intros Hp Ht <- Hc HT HI. rewrite release_calm; [|done|unfold TPL_HIGH_LEVEL; lia|done|done]. do 2 f_equal. cbn. destruct s'. cbn in *. by subst.
Qed.

Lemma queue_exists t e q (s : ES) : queues_ok s -> queue t s = e :: q -> exists E, events s !! e = Some E.
Proof. intros Hq Eq. assert (e ∈ queue t s) as Hin by (rewrite Eq; left). apply (q_in s Hq) in Hin as (E & EE & _). by exists E. Qed.

(** One notification of the dispatcher. *)
Lemma dispatch_step n k t e q (s s1 : ES) : queues_ok s -> highest t s -> gEfiCurrentTpl s = t -> queue t s = e :: q ->
  call (S n) k e (at_level t (dequeue t e q s)) = Done s1 -> gEfiCurrentTpl s1 = t ->
  dispatch (S n) (S k) t t (locked s) = dispatch (S n) k t t (locked s1).
Proof.
  intros Hq Ht Hl Eq Hr Hl1. pose proof (highest_range t s Hq Ht) as Hrange. destruct (queue_exists t e q s Hq Eq) as [E Ee].
  cbn [dispatch_loop]. change (queue_head t (locked s)) with (queue_head t s). rewrite queue_head_ok, Eq by (done || unfold TPL_HIGH_LEVEL; lia). mred.
  change (events (locked s)) with (events s). rewrite Ee. dred.
  change (update_event e ?f (set_queue ?a ?b (locked s))) with (set_level TPL_HIGH_LEVEL (Interrupts (locked s)) (dequeue t e q s)).
  unfold CoreReleaseLock. rewrite release_at; [|apply (q_pending s Hq)|lia|done|by apply (highest_calm t s)|done|done]. mred. rewrite Hr. mred.
  unfold gEventQueueLock. rewrite acquire_locked, Hl1. done.
Qed.

Lemma dispatch_ends t : forall n (s : ES), (rank s < n)%nat -> good s -> highest t s -> gEfiCurrentTpl s = t ->
  exists tr sB, good sB /\ highest t sB /\ gEfiCurrentTpl sB = t /\ queue t sB = [] /\ (sB = s \/ (rank sB < rank s)%nat) /\
    (forall NewTpl tr' s2, NewTpl < t -> delivered NewTpl sB tr' s2 -> delivered NewTpl s (tr ++ tr') s2) /\
    exists m0, forall m k, (m0 <= m)%nat -> (m0 <= k)%nat -> dispatch m k t t (locked s) = Done (t, locked sB).
Proof.
  induction n as [|n IH]; intros s Hn Hg Ht Hl; [lia|]. pose proof (e_queues _ _ HE s Hg) as Hq. destruct (queue t s) as [|e q] eqn:Eq.
  - exists [], s. split_and!; try done; [by left|]. exists 1%nat. intros m [|k] _ Hk; [lia|]. cbn [dispatch_loop].
    change (queue_head t (locked s)) with (queue_head t s). pose proof (highest_range t s Hq Ht).
    rewrite queue_head_ok, Eq by (done || unfold TPL_HIGH_LEVEL; lia). by mred.
  - destruct (e_run _ _ HE t e q s Hg Ht Eq) as (s1 & [m1 Hr] & Hg1 & Hl1 & Ht1 & Hrank).
    destruct (IH s1) as (tr & sB & HgB & HtB & HlB & EqB & HrB & HdB & m2 & Hm2); [lia|done..|]. exists ((t, e) :: tr), sB.
    split_and!; try done; [right; destruct HrB as [->|]; lia| |].
    + intros NewTpl tr' s2 Hlt Hd. cbn. apply (d_next _ s t e q s1); [done..|by exists m1|]. by apply HdB.
    + exists (S (max m1 m2)). intros [|m] [|k] Hm Hk; try lia. rewrite (dispatch_step m k t e q s s1); [|done..|apply Hr; lia|done].
      apply Hm2; lia.
Qed.

(** Everything at the highest level: what [CoreDispatchEventNotifies] does. *)
Lemma level_ends t (s : ES) : good s -> highest t s -> gEfiCurrentTpl s = t ->
  exists tr s1, good s1 /\ ((rank s1 < rank s)%nat \/ (rank s1 <= rank s)%nat /\ gEventPending s1 < gEventPending s) /\
    (forall NewTpl tr' s2, NewTpl < t -> delivered NewTpl s1 tr' s2 -> delivered NewTpl s (tr ++ tr') s2) /\
    exists m0, forall m k, (m0 <= m)%nat -> (m0 <= k)%nat ->
      CoreDispatchEventNotifies gCpu gSmmBase2 notify CheckTimersFunction (restore m) k t s = Done s1.
Proof.
  intros Hg Ht Hl. destruct (dispatch_ends t (S (rank s)) s) as (tr & sB & HgB & HtB & HlB & EqB & HrB & HdB & m0 & Hm0); [lia|done..|].
  pose proof (e_queues _ _ HE sB HgB) as HqB. pose proof (highest_range t sB HqB HtB) as Hrange.
  destruct (e_drain _ _ HE t sB HgB HtB EqB) as [HgD HrD]. pose proof (clear_less t sB HtB ltac:(lia)) as Hclear.
  pose proof (good_at t _ HgD) as [HgA HrA]. exists tr, (at_level t (drained t sB)). split; [done|]. split; [|split].
  - rewrite HrA. destruct HrB as [->|]; [right|left; lia]. split; [done|]. cbn. lia.
  - intros NewTpl tr' s2 Hlt Hd. apply HdB; [done|]. by apply (d_drain _ sB t).
  - exists (S m0). intros [|m] k Hm Hk; [lia|]. unfold CoreDispatchEventNotifies, gEventQueueLock. rewrite acquire_locked, Hl, Hm0 by lia. mred.
    change (gEventPending (locked sB)) with (gEventPending sB). rewrite drained_code by (done || lia).
    change (set_queue ?a ?b (locked sB)) with (set_level TPL_HIGH_LEVEL (Interrupts (locked sB)) (drained t sB)).
    unfold CoreReleaseLock. apply release_at; [|lia|done| |done|done].
    + pose proof (q_pending sB HqB). cbn. lia.
    + pose proof (highest_calm t sB HqB HtB) as Hc. unfold calm in *. cbn. lia.
Qed.

(** Ranks first, then what is pending. *)
Definition work (s : ES) : Z := Z.of_nat (rank s) * 2 ^ 31 + gEventPending s.

Lemma pending_ends NewTpl : 0 <= NewTpl -> forall n (s : ES), (Z.to_nat (work s) < n)%nat -> good s ->
  exists tr s1, good s1 /\ calm NewTpl s1 /\ delivered NewTpl s tr (lowered NewTpl s1) /\
    exists m0, forall m k, (m0 <= m)%nat -> (m0 <= k)%nat -> pendings m k NewTpl s = Done s1.
Proof.
  intros HNew. induction n as [|n IH]; intros s Hn Hg; [lia|]. pose proof (e_queues _ _ HE s Hg) as Hq. pose proof (q_pending s Hq) as Hp.
  assert (gEventPending s = 0 \/ Z.log2 (gEventPending s) <= NewTpl \/ 0 < gEventPending s /\ NewTpl < Z.log2 (gEventPending s)) as Hcase by lia.
  destruct Hcase as [Hz|[Hle|[Hpos Hgt]]].
  1,2: exists [], s; assert (calm NewTpl s) as Hc by (apply calm_log2; [lia|done|tauto]); split_and!; [done|done|by apply d_done|];
    exists 1%nat; intros m [|k] _ Hk; [lia|]; cbn [pending_loop]; destruct (decide (gEventPending s = 0)) as [|Hnz]; [done|].
  - lia.
  - destruct (high_bit s) as [-> _]; [lia|]. by rewrite decide_True.
  - set (t := Z.log2 (gEventPending s)) in *. assert (highest t s) as Ht by done. pose proof (highest_range t s Hq Ht) as Hrange.
    set (s0 := set_level t (switched true (Interrupts s)) s). assert (good s0 /\ rank s0 = rank s) as [Hg0 Hr0] by (apply (e_level _ _ HE); done).
    destruct (level_ends t s0 Hg0 Ht eq_refl) as (tr1 & s1 & Hg1 & Hless & Hd1 & m1 & Hm1).
    pose proof (q_pending s1 (e_queues _ _ HE s1 Hg1)) as Hp1.
    destruct (IH s1) as (tr2 & s2 & Hg2 & Hc2 & Hd2 & m2 & Hm2); [|done|].
    { assert (0 <= work s1 < work s); [|lia]. unfold work. rewrite Hr0 in Hless. change (gEventPending s0) with (gEventPending s) in Hless. destruct Hless; lia. }
    exists (tr1 ++ tr2), s2. split_and!; [done|done| |].
    + apply (delivered_level t t (switched true (Interrupts s))); [done|done|apply switched_off|unfold TPL_HIGH_LEVEL; lia|]. by apply Hd1.
    + exists (S (max m1 m2)). intros m [|k] Hm Hk; [lia|]. cbn [pending_loop]. rewrite decide_False by lia.
      destruct (high_bit s) as [-> _]; [lia|]. fold t. rewrite decide_False by lia.
      assert ((if t <? TPL_HIGH_LEVEL then CoreSetInterruptState gCpu gSmmBase2 true (set_tpl t s) else set_tpl t s) = s0) as ->.
      { rewrite (proj2 (Z.ltb_lt t _)) by (unfold TPL_HIGH_LEVEL; lia). by rewrite interrupts_switched. }
      rewrite Hm1 by lia. mred. apply Hm2; lia.
Qed.

Lemma delivered_from u NewTpl (s : ES) tr s2 : queues_ok s -> delivered NewTpl (set_level u (Interrupts s) s) tr s2 -> delivered NewTpl s tr s2.
Proof.
  intros Hq Hd. pose proof Hd as Hd'.
  assert (forall t, highest t (set_level u (Interrupts s) s) -> NewTpl < t -> delivered NewTpl s tr s2) as Hstep.
  { intros t Ht Hlt. apply (delivered_level t u (Interrupts s)); [exact Ht|done|done| |done].
    pose proof (highest_range t s Hq Ht). unfold TPL_HIGH_LEVEL. lia. }
  inversion Hd as [s0 Hc|s0 t e q s3 tr' s4 Ht Hlt|s0 t tr' s4 Ht Hlt]; subst; [|by eapply Hstep..]. by apply (d_done NewTpl s).
Qed.

Lemma CoreRestoreTpl_ends NewTpl (s : ES) : 0 <= NewTpl -> good s ->
  exists tr s', delivered NewTpl s tr s' /\ good s' /\ calm NewTpl s' /\ gEfiCurrentTpl s' = NewTpl /\
    exists n0, forall n, (n0 <= n)%nat -> restore n NewTpl s = Done s'.
Proof.
  intros HNew Hg. set (s0 := if (TPL_HIGH_LEVEL <=? gEfiCurrentTpl s) && (NewTpl <? TPL_HIGH_LEVEL) then set_tpl TPL_HIGH_LEVEL s else s).
  assert (exists u, s0 = set_level u (Interrupts s) s) as [u E0].
  { unfold s0. destruct (_ && _); [by exists TPL_HIGH_LEVEL|exists (gEfiCurrentTpl s); by destruct s]. }
  destruct (e_level _ _ HE u (Interrupts s) s Hg) as [Hg0 _]. rewrite <- E0 in Hg0.
  destruct (pending_ends NewTpl HNew _ s0 (Nat.lt_succ_diag_r _) Hg0) as (tr & s1 & Hg1 & Hc1 & Hd & m0 & Hm0).
  exists tr, (lowered NewTpl s1). destruct (e_level _ _ HE NewTpl (Interrupts (lowered NewTpl s1)) s1 Hg1) as [Hg2 _]. split_and!; [|exact Hg2|exact Hc1|done|].
  - rewrite E0 in Hd. by apply (delivered_from u _ _ _ _ (e_queues _ _ HE s Hg)).
  - exists (S m0). intros [|n] Hn; [lia|]. cbn [CoreRestoreTpl]. fold s0. rewrite Hm0 by lia. mred. rewrite interrupts_switched. unfold DxeEventOk.lowered.
    by destruct (_ <? _).
Qed.
End dispatch.

(* ------------------------------------------------------------------ *)
(** ** Drivers whose notification functions do not call the services *)

Section passive.
Context {W : Type} `{Heap W}.
#[local] Abbreviation ES := (EVENTS W).
Context (gCpu : bool) (gSmmBase2 : option (Z * bool)) (notify : Z -> Z -> Z -> ES -> outcome ES) (CheckTimersFunction : Z).
#[local] Abbreviation restore := (CoreRestoreTpl gCpu gSmmBase2 notify CheckTimersFunction).
#[local] Abbreviation at_level := (at_level gCpu gSmmBase2).
#[local] Abbreviation runs := (runs gCpu gSmmBase2 notify CheckTimersFunction).
#[local] Abbreviation delivered := (delivered gCpu gSmmBase2 notify CheckTimersFunction).

(** What they do, they do outside; the core checks the timers itself. *)
Context (act : Z -> Z -> Z -> W -> W) (Hact : forall f e c s, notify f e c s = Done (set_world (act f e c (world s)) s)).

#[local] Abbreviation now := mEfiSystemTime.

Record events_ok (s : ES) : Prop := {
  ev_queues : queues_ok s;
  ev_timers : timers_ok s;
  ev_check : is_Some (events s !! mEfiCheckTimerEvent s);
  ev_level : forall e E, events s !! e = Some E -> NotifyFunction E = CheckTimersFunction -> NotifyTpl E = TPL_TIMER;
  ev_period : no_overflow (now s) s;
}.

(** The events that are queued; the steps the timers that are due still take
    weigh more than all of them. *)
Definition queued (s : ES) : nat := size (filter (fun p => NotifyLinked p.2 = true) (events s)).
Definition passive_rank (s : ES) : nat := length (expiries (now s) s) * S (size (events s)) + queued s.

Lemma queued_bound (s : ES) : (queued s <= size (events s))%nat.
Proof. apply map_subseteq_size, map_filter_subseteq. Qed.

Lemma dequeue_ok t e q (s : ES) : queues_ok s -> queue t s = e :: q -> queues_ok (dequeue t e q s).
Proof.
  intros [Hh Hp Hb Hi Hn Hl Hs Ho Hz] Eq. assert (e ∈ queue t s) as Hin by (rewrite Eq; left). apply Hi in Hin as (E & Ee & HL & HT).
  pose proof (Hn t) as Hnd. rewrite Eq in Hnd. apply NoDup_cons in Hnd as [Heq Hnd].
  assert (forall u, queue u (dequeue t e q s) = if decide (u = t) then q else queue u s) as Hqu by (intros u; apply (queue_insert t q (gEventPending s) s u)).
  assert (forall i, events (dequeue t e q s) !! i = if decide (i = e)
    then Some (set_count (if bits (EventType E) EVT_NOTIFY_SIGNAL then 0 else SignalCount E) (set_notify_link false E)) else events s !! i) as Hev.
  { intros i. unfold dequeue. rewrite events_update. cbn [events set_queue]. destruct (decide (i = e)) as [->|]; [by rewrite Ee|done]. }
  split; rewrite ?Hev; try done.
  - intros u Hu. apply (heads_insert t q (gEventPending s)), Hh, Hu.
  - intros u. rewrite Hqu. destruct (decide (u = t)) as [->|]; [|apply Hb]. intros _. apply Hb. by rewrite Eq.
  - intros u i. rewrite Hqu, Hev. destruct (decide (u = t)) as [->|Hne], (decide (i = e)) as [->|Hie].
    + split; [done|]. intros (F & [= <-] & HF & _). done.
    + rewrite <- Hi, Eq. rewrite elem_of_cons. naive_solver.
    + rewrite Hi. split; [intros (F & EF & _ & HF); congruence|]. intros (F & [= <-] & HF & _). done.
    + apply Hi.
  - intros u. rewrite Hqu. destruct (decide (u = t)); [done|apply Hn].
  - intros i F. rewrite Hev. destruct (decide (i = e)); [|apply Hl]. intros [= <-]. by apply (Hl e E).
  - intros i. rewrite Hev. change (gEventSignalQueue (dequeue t e q s)) with (gEventSignalQueue s). rewrite Hs. destruct (decide (i = e)) as [->|]; [|done].
    rewrite Ee. naive_solver.
  - destruct (decide (0 = e)) as [<-|]; [congruence|done].
Qed.

Lemma dequeue_static t e q (s : ES) i : static <$> events (dequeue t e q s) !! i = static <$> events s !! i.
Proof. unfold dequeue. rewrite events_update. cbn [events set_queue]. destruct (decide (i = e)) as [->|]; [|done]. by destruct (events s !! e). Qed.

Lemma queued_dequeue t e q (s : ES) : queues_ok s -> queue t s = e :: q -> queued s = S (queued (dequeue t e q s)).
Proof.
  intros Hq Eq. assert (e ∈ queue t s) as Hin by (rewrite Eq; left). apply (q_in s Hq) in Hin as (E & Ee & HL & HT). unfold queued, dequeue, update_event.
  cbn [events set_events set_queue]. assert (forall f, alter f e (events s) = <[e := f E]> (events s)) as ->.
  { intros f. apply map_eq. intros i. destruct (decide (i = e)) as [->|Hne]; [by rewrite lookup_alter_eq, lookup_insert_eq, Ee|].
    by rewrite lookup_alter_ne, lookup_insert_ne by done. }
  rewrite map_filter_insert_False by done. rewrite map_filter_delete.
  assert (filter (fun p : Z * IEVENT => NotifyLinked p.2 = true) (events s) !! e = Some E) as HE by (apply map_lookup_filter_Some; done).
  rewrite map_size_delete, HE. assert (size (filter (fun p : Z * IEVENT => NotifyLinked p.2 = true) (events s)) <> 0)%nat; [|lia].
  intros Hz. apply map_size_empty_inv in Hz. rewrite Hz in HE. done.
Qed.

Lemma static_fields F E : static F = static E -> NotifyFunction F = NotifyFunction E /\ NotifyTpl F = NotifyTpl E.
Proof. by intros [=]. Qed.

(** A state whose events differ in their counts and links only. *)
Record same_events (s s' : ES) : Prop := {
  se_static : forall i, static <$> events s' !! i = static <$> events s !! i;
  se_list : mEfiTimerList s' = mEfiTimerList s;
  se_now : now s' = now s;
  se_check : mEfiCheckTimerEvent s' = mEfiCheckTimerEvent s;
}.

Lemma same_lookup (s s' : ES) i F : same_events s s' -> events s' !! i = Some F -> exists E, events s !! i = Some E /\ static F = static E.
Proof.
  intros Hs EF. pose proof (se_static _ _ Hs i) as Hi. rewrite EF in Hi. destruct (events s !! i) as [E|]; [|done]. exists E. split; [done|].
  by apply (inj Some) in Hi.
Qed.

Lemma events_ok_same (s s' : ES) : same_events s s' -> queues_ok s' -> events_ok s -> events_ok s'.
Proof.
  intros Hs Hq [_ Ht Hc Hl Hp]. split; [done|by apply (timers_ok_static s); [apply Hs..|]| | |].
  - rewrite (se_check _ _ Hs). pose proof (se_static _ _ Hs (mEfiCheckTimerEvent s)) as Hi. destruct Hc as [C HC]. rewrite HC in Hi.
    destruct (events s' !! _); [by eexists|done].
  - intros e F EF. destruct (same_lookup s s' e F Hs EF) as (E & EE & Hst). apply static_fields in Hst as [-> ->]. by apply (Hl e).
  - intros e F EF. destruct (same_lookup s s' e F Hs EF) as (E & EE & Hst). apply static_timer in Hst as (-> & -> & ->). rewrite (se_now _ _ Hs). by apply (Hp e).
Qed.

Lemma expiries_same (s s' : ES) Now : same_events s s' -> expiries Now s' = expiries Now s.
Proof.
  intros Hs. unfold expiries. rewrite (se_list _ _ Hs). apply bind_pointwise. intros i _. apply expiry_static; [apply Hs|apply (se_check _ _ Hs)].
Qed.

Lemma size_same (s s' : ES) : (forall i, static <$> events s' !! i = static <$> events s !! i) -> size (events s') = size (events s).
Proof.
  intros Hs. rewrite <- (map_size_fmap static (events s')), <- (map_size_fmap static (events s)). f_equal. apply map_eq. intros i. by rewrite !lookup_fmap.
Qed.

Lemma same_dequeue t u e q (s : ES) : same_events s (at_level u (dequeue t e q s)).
Proof. split; try done. apply dequeue_static. Qed.

Lemma passive_dequeue t u e q (s : ES) : events_ok s -> queue t s = e :: q ->
  events_ok (at_level u (dequeue t e q s)) /\ (passive_rank (at_level u (dequeue t e q s)) < passive_rank s)%nat.
Proof.
  intros Hok Eq. pose proof (ev_queues s Hok) as Hq. pose proof (same_dequeue t u e q s) as Hs.
  split; [apply (events_ok_same s); [done|by apply queues_ok_level, dequeue_ok|done]|]. unfold passive_rank. rewrite (expiries_same _ _ _ Hs), (size_same s) by apply Hs.
  change (now (at_level u (dequeue t e q s))) with (now s). rewrite (queued_dequeue t e q s) by done.
  change (queued (at_level u (dequeue t e q s))) with (queued (dequeue t e q s)). lia.
Qed.

(** The check of the timers leaves nothing that is due. *)
Lemma signal_all_pending k (s : ES) : queues_ok s -> gEventPending s <= gEventPending (signal_all k s).
Proof.
  revert s. induction k as [|e k IH]; intros s Hq; [done|]. unfold signal_all in *. cbn [foldl]. pose proof (signalled_pending e s Hq).
  pose proof (IH _ (signalled_ok e s Hq)). lia.
Qed.

Lemma expiries_nil Now (s : ES) : timers_ok s -> expiries Now s = [] -> forall i, i ∈ mEfiTimerList s -> Now < due_time s i.
Proof.
  intros Ht He i Hi. pose proof (proj1 (t_in s Ht i) Hi) as (E & EE & HL). unfold due_time. rewrite EE. cbn. destruct (decide (TriggerTime E <= Now)); [|lia].
  assert (i ∈ expiries Now s) as Hin; [|rewrite He in Hin; by apply elem_of_nil in Hin]. apply list_elem_of_bind. exists i. split; [|done].
  unfold expiry. rewrite EE, decide_True by done. left.
Qed.

Lemma expired_rank l (s : ES) : events_ok s -> (forall i, i ∈ l -> now s < due_time (expired (now s) l s) i) ->
  (passive_rank (at_level TPL_TIMER (expired (now s) l s)) <= passive_rank s)%nat.
Proof.
  intros Hok Hl. set (s1 := expired (now s) l s) in *. set (Now := now s) in *. change (passive_rank (at_level TPL_TIMER s1)) with (passive_rank s1).
  assert (now s1 = now s) as HN by (apply (signal_all_fields (expiries Now s) s)).
  assert (size (events s1) = size (events s)) as Hsz.
  { unfold s1, expired. cbn [events set_timers set_events]. rewrite map_size_fmap. apply size_same, signal_all_static. }
  assert (expiries Now s1 = []) as He by (unfold expiries; change (mEfiTimerList s1) with l; by apply expiry_none).
  unfold passive_rank. rewrite HN. fold Now. rewrite He, Hsz. cbn [length]. destruct (expiries Now s) as [|x k] eqn:Ek.
  - assert (events s1 = events s) as Hev; [|unfold queued; rewrite Hev; lia].
    pose proof (expired_none Now s (ev_timers s Hok) (expiries_nil Now s (ev_timers s Hok) Ek)) as Hn.
    change (events s1) with (events (expired Now (mEfiTimerList s) s)). by rewrite Hn.
  - pose proof (queued_bound s1). cbn [length]. lia.
Qed.

Lemma expired_events_ok l (s : ES) : events_ok s -> checking gCpu gSmmBase2 (at_level TPL_TIMER (expired (now s) l s)) ->
  (forall i, i ∈ l -> now s < due_time (expired (now s) l s) i) -> events_ok (at_level TPL_TIMER (expired (now s) l s)).
Proof.
  intros Hok Hc Hl. set (s1 := at_level TPL_TIMER (expired (now s) l s)) in *. assert (now s1 = now s) as HN by (apply (signal_all_fields (expiries (now s) s) s)).
  split; [apply Hc|apply Hc|apply Hc| |].
  - intros e F EF. destruct (events s !! e) as [E|] eqn:EE.
    + destruct (expired_event (now s) l s e E EE) as (F' & EF' & Hst & _). change (events s1) with (events (expired (now s) l s)) in EF.
      assert (F' = F) as -> by congruence. apply static_fields in Hst as [-> ->].
      assert (forall X, NotifyFunction (rescheduled (now s) X) = NotifyFunction X /\ NotifyTpl (rescheduled (now s) X) = NotifyTpl X) as Hr.
      { intros X. unfold rescheduled. destruct (_ && _); [|done]. by destruct (decide (Period X = 0)). }
      destruct (Hr E) as [-> ->]. by apply (ev_level s Hok e).
    + pose proof (signal_all_static (expiries (now s) s) s e) as Hst. rewrite EE in Hst. cbn [events s1 DxeEventOk.at_level set_level] in EF.
      unfold s1, expired in EF. cbn [events set_timers set_events DxeEventOk.at_level set_level] in EF. rewrite lookup_fmap in EF.
      destruct (events (signal_all _ s) !! e); done.
  - intros e F EF HL HT. exfalso. rewrite HN in HT. pose proof (proj2 (t_in s1 (c_timers _ _ _ Hc) e) ltac:(by exists F)) as Hin.
    specialize (Hl e Hin). change (events s1) with (events (expired (now s) l s)) in EF. unfold due_time in Hl. rewrite EF in Hl. cbn in Hl. lia.
Qed.

Lemma highest_more t (s s' : ES) : queues_ok s -> queues_ok s' -> highest t s -> gEventPending s <= gEventPending s' -> t = TPL_TIMER -> highest t s'.
Proof.
  intros Hq Hq' [Hp Hl] Hle ->. pose proof (q_pending s' Hq'). split; [lia|]. pose proof (Z.log2_le_mono _ _ Hle) as Hm.
  pose proof (proj1 (Z.log2_lt_pow2 (gEventPending s') 31 ltac:(lia)) ltac:(lia)). rewrite Hl in Hm. unfold TPL_TIMER, TPL_HIGH_LEVEL in *. lia.
Qed.

(** Who is notified next, and what that does. *)
Lemma passive_run_cases t e q (s : ES) : events_ok s -> highest t s -> queue t s = e :: q ->
  let s0 := at_level t (dequeue t e q s) in
  exists s1, runs e s0 s1 /\ events_ok s1 /\ gEfiCurrentTpl s1 = t /\ highest t s1 /\ (passive_rank s1 < passive_rank s)%nat /\
    ((exists E, events s0 !! e = Some E /\ NotifyFunction E <> CheckTimersFunction /\ exists w, s1 = set_world w s0) \/
     (exists l, s1 = at_level TPL_TIMER (expired (now s0) l s0) /\ expiries (now s0) s1 = [])).
Proof.
  intros Hok Ht Eq s0. pose proof (ev_queues s Hok) as Hq. destruct (passive_dequeue t t e q s Hok Eq) as [Hok0 Hr0]. fold s0 in Hok0, Hr0.
  pose proof (same_dequeue t t e q s) as Hs0. fold s0 in Hs0. destruct (queue_exists t e q s Hq Eq) as [E EE].
  assert (NotifyTpl E = t) as HT.
  { assert (e ∈ queue t s) as Hin by (rewrite Eq; left). apply (q_in s Hq) in Hin as (F & EF & _ & HT). congruence. }
  assert (exists E0, events s0 !! e = Some E0 /\ static E0 = static E) as (E0 & EE0 & Hst).
  { pose proof (se_static _ _ Hs0 e) as Hi. rewrite EE in Hi. destruct (events s0 !! e) as [E0|]; [|done]. exists E0. split; [done|]. by apply (inj Some) in Hi. }
  apply static_fields in Hst as [Hf Htpl]. assert (highest t s0) as Ht0 by exact Ht. destruct (decide (NotifyFunction E0 = CheckTimersFunction)) as [Hck|Hck].
  - pose proof (ev_level s0 Hok0 e E0 EE0 Hck) as Hlt. assert (t = TPL_TIMER) as Ett by congruence.
    destruct (CoreCheckTimers_ok gCpu gSmmBase2 notify CheckTimersFunction s0) as (l & Hcode & Hc & _ & Hd); [apply Hok0|apply Hok0|apply Hok0|done|apply Hok0|].
    pose proof (expired_events_ok l s0 Hok0 Hc Hd) as Hok1. pose proof (expired_rank l s0 Hok0 Hd) as Hr1.
    exists (at_level TPL_TIMER (expired (now s0) l s0)). split_and!; [|done|done| |lia|].
    + exists (S (length (expiries (now s0) s0))). intros [|m] k Hm Hk; [lia|]. unfold call_notify. rewrite EE0. dred. rewrite decide_True by done.
      apply Hcode. lia.
    + apply (highest_more t s0); [apply Hok0|apply Hok1|done| |done]. apply (signal_all_pending _ s0). apply Hok0.
    + right. exists l. split; [done|]. unfold expiries. change (mEfiTimerList (at_level TPL_TIMER (expired (now s0) l s0))) with l. by apply expiry_none.
  - exists (set_world (act (NotifyFunction E0) e (NotifyContext E0) (world s0)) s0). split_and!; [|by destruct Hok0 as [[] [] ? ? ?]|done|done|exact Hr0|].
    + exists 0%nat. intros m k _ _. unfold call_notify. rewrite EE0. dred. by rewrite decide_False, Hact by done.
    + left. exists E0. split; [done|]. split; [done|]. by eexists.
Qed.

(** What is left of the queues if no timer is due. *)
Lemma passive_run t e q (s : ES) : events_ok s -> highest t s -> queue t s = e :: q ->
  exists s1, runs e (at_level t (dequeue t e q s)) s1 /\ events_ok s1 /\ gEfiCurrentTpl s1 = t /\ highest t s1 /\ (passive_rank s1 < passive_rank s)%nat /\
    (expiries (now s) s = [] -> expiries (now s1) s1 = [] /\ forall u, queue u s1 = if decide (u = t) then q else queue u s).
Proof.
  intros Hok Ht Eq. destruct (passive_run_cases t e q s Hok Ht Eq) as (s1 & Hr & Hok1 & Hl & Ht1 & Hrank & Hcase). exists s1. split_and!; try done.
  pose proof (same_dequeue t t e q s) as Hs0. set (s0 := at_level t (dequeue t e q s)) in *.
  assert (forall u, queue u s0 = if decide (u = t) then q else queue u s) as Hqu by (intros u; apply (queue_insert t q (gEventPending s) s u)).
  intros Hx. rewrite <- (expiries_same _ _ (now s) Hs0) in Hx. change (now s) with (now s0) in Hx.
  destruct Hcase as [(E & _ & _ & w & ->)|(l & -> & Hx1)]; [by split|]. split.
  - by replace (now (at_level TPL_TIMER (expired (now s0) l s0))) with (now s0) by (symmetry; apply (signal_all_fields (expiries (now s0) s0) s0)).
  - intros u. rewrite <- Hqu. unfold expired. by rewrite Hx.
Qed.

Lemma passive_ending : ending gCpu gSmmBase2 notify CheckTimersFunction events_ok passive_rank.
Proof.
  split.
  - apply ev_queues.
  - intros t b s Hok. split; [|done]. apply (events_ok_same s); [done|by apply queues_ok_level, ev_queues|done].
  - intros t s Hok Ht Eq. split; [|done]. apply (events_ok_same s); [done| |done]. destruct Hok as [Hq _ _ _ _]. pose proof (highest_range t s Hq Ht) as Hrange.
    pose proof (clear_less t s Ht ltac:(lia)) as Hless. destruct Hq as [Hh Hp1 Hb Hi Hn Hv Hs Ho Hz]. split; try done; [cbn; lia|].
    intros u Hu. change (queue u (drained t s)) with (queue u s) in Hu. cbn [gEventPending drained set_queue]. rewrite Z.clearbit_neq; [by apply Hb|].
    intros ->. done.
  - intros t e q s Hok Ht Eq. destruct (passive_run t e q s Hok Ht Eq) as (s1 & H1 & H2' & H3 & H4 & H5 & _). by exists s1.
Qed.

(** The events that are queued above a level, highest level first. *)
Definition queued_at (s : ES) (t : Z) : list (Z * Z) := (fun e => (t, e)) <$> queue t s.
Definition order (NewTpl : Z) (s : ES) : list (Z * Z) := rev (seqZ (NewTpl + 1) (30 - NewTpl)) ≫= queued_at s.

Lemma runs_functional e (s s1 s2 : ES) : runs e s s1 -> runs e s s2 -> s1 = s2.
Proof. intros [m1 H1'] [m2 H2']. specialize (H1' (max m1 m2) (max m1 m2)). specialize (H2' (max m1 m2) (max m1 m2)). rewrite H1' in H2' by lia. apply Done_inj, H2'; lia. Qed.

Lemma queue_above t u (s : ES) : queues_ok s -> gEventPending s < 2 ^ (t + 1) -> 0 <= t -> t < u -> queue u s = [].
Proof.
  intros Hq Hp Ht Hu. destruct (queue u s) as [|e q] eqn:Eq; [done|]. exfalso. assert (queue u s <> []) as Hne by (by rewrite Eq).
  pose proof (q_bit s Hq u Hne) as Hb. pose proof (q_pending s Hq). assert (2 ^ (t + 1) <= 2 ^ u) by (apply Z.pow_le_mono_r; lia).
  assert (0 <= gEventPending s < 2 ^ u) as Hlt by lia. rewrite <- (Z.mod_small _ _ Hlt), Z.mod_pow2_bits_high in Hb; [done|lia].
Qed.

Lemma levels_range u a n : u ∈ rev (seqZ a n) -> a <= u < a + n.
Proof. intros Hu. apply elem_of_seqZ. by apply list_elem_of_In, in_rev, list_elem_of_In in Hu. Qed.

(** The levels above [NewTpl] are those above [t], [t] and the rest. *)
Lemma order_split NewTpl t (s : ES) : 0 <= NewTpl < t -> t <= 30 -> (forall u, t < u -> queue u s = []) ->
  order NewTpl s = queued_at s t ++ (rev (seqZ (NewTpl + 1) (t - NewTpl - 1)) ≫= queued_at s).
Proof.
  intros HN Ht Hu. unfold order. replace (30 - NewTpl) with ((t - NewTpl - 1) + (1 + (30 - t))) by lia. rewrite seqZ_app by lia.
  replace (NewTpl + 1 + (t - NewTpl - 1)) with t by lia. rewrite (seqZ_app t 1 (30 - t)) by lia. rewrite !rev_app_distr, !bind_app.
  assert (rev (seqZ (t + 1) (30 - t)) ≫= queued_at s = []) as ->.
  { assert (forall l, (forall u, u ∈ l -> t < u) -> l ≫= queued_at s = []) as Hnil.
    { intros l Hl. induction l as [|u l IH]; [done|]. rewrite bind_cons, IH by (intros; apply Hl; by right). unfold queued_at. by rewrite Hu by (apply Hl; left). }
    apply Hnil. intros u Hin. apply levels_range in Hin. lia. }
  f_equal. change (rev (seqZ t 1)) with [0 + t]. cbn. rewrite app_nil_r. by replace (0 + t) with t by lia.
Qed.

Lemma delivered_order NewTpl (s s' : ES) tr : 0 <= NewTpl -> delivered NewTpl s tr s' -> events_ok s -> expiries (now s) s = [] -> tr = order NewTpl s.
Proof.
  intros HN Hd. induction Hd as [s Hc|s t e q s1 tr s2 Ht Hlt Eq Hr Hd IH|s t tr s2 Ht Hlt Eq Hd IH]; intros Hok Hx; pose proof (ev_queues s Hok) as Hq.
  - destruct (decide (NewTpl < 30)) as [H30|H30].
    + assert (queue (NewTpl + 1) s = []) as Hnil by (apply (queue_above NewTpl); [done|exact Hc|done|lia]).
      rewrite (order_split NewTpl (NewTpl + 1)); [|lia|lia|intros u Hu; apply (queue_above NewTpl); [done|exact Hc|done|lia]].
      replace (NewTpl + 1 - NewTpl - 1) with 0 by lia. unfold queued_at at 1. by rewrite Hnil.
    + unfold order. by rewrite seqZ_nil by lia.
  - pose proof (highest_range t s Hq Ht) as Hrange. destruct (passive_run t e q s Hok Ht Eq) as (s1' & Hr' & Hok1 & _ & Ht1 & _ & Hq1).
    assert (s1' = s1) as -> by (by apply (runs_functional e _ _ _ Hr')). destruct (Hq1 Hx) as [Hx1 Hqu]. rewrite (IH Hok1 Hx1).
    pose proof (highest_calm t s Hq Ht) as Hc. pose proof (highest_calm t s1 (ev_queues s1 Hok1) Ht1) as Hc1.
    rewrite (order_split NewTpl t s), (order_split NewTpl t s1); try lia; try (intros u Hu; by apply (queue_above t); [done || apply Hok1|done|lia|lia]).
    unfold queued_at at 1 3. rewrite Eq, Hqu, decide_True by done. cbn. do 2 f_equal. apply bind_pointwise. intros u Hu.
    apply levels_range in Hu. unfold queued_at. by rewrite Hqu, decide_False by lia.
  - destruct (e_drain _ _ _ _ _ _ passive_ending t s Hok Ht Eq) as [Hok1 _]. apply IH; [|exact Hx].
    by apply (e_level _ _ _ _ _ _ passive_ending).
Qed.
End passive.

(* ------------------------------------------------------------------ *)
(** ** Theorems *)

(** C20: lowering the level delivers what is pending.  The states are kept in
    [good], a set of well-formed states that draining a level and changing the
    level do not leave, and have a [rank].  Whatever the notification functions
    do, as long as each of them, called at the level of its event with nothing
    pending above it, comes to an end in such a state, at that level, and with
    a lower rank (so none can signal itself for ever), [CoreRestoreTpl] with
    enough fuel returns, and has notified the queued events as [delivered]
    says: always the first of the highest pending level above the new one, at
    its own level, until nothing is pending above the new level; then the level
    is the new one. *)
Theorem CoreRestoreTpl_refines {W} `{Heap W} gCpu gSmmBase2 notify CheckTimersFunction (good : EVENTS W -> Prop) rank NewTpl s
    (HE : ending gCpu gSmmBase2 notify CheckTimersFunction good rank) (HN : 0 <= NewTpl) (Hg : good s) :
  exists trace s', delivered gCpu gSmmBase2 notify CheckTimersFunction NewTpl s trace s' /\ good s' /\ calm NewTpl s' /\ gEfiCurrentTpl s' = NewTpl /\
    exists n0, forall n, (n0 <= n)%nat -> CoreRestoreTpl gCpu gSmmBase2 notify CheckTimersFunction n NewTpl s = Done s'.
Proof. by apply CoreRestoreTpl_ends with rank. Qed.

(** C21: with drivers whose notification functions do not call the services
    back, and queues and timers in order, among them no timer that is due and
    whose period added to the time would pass 2^64 ([events_ok]), lowering the
    level always comes to an end, in a state that is in order and in which no
    queue above the new level holds an event; the timers are checked on the way
    if their check is queued.  If no timer is due, what was queued above the
    new level is delivered exactly once, highest level first and in the order
    of the queue within a level. *)
Theorem CoreRestoreTpl_delivers {W} `{Heap W} gCpu gSmmBase2 notify CheckTimersFunction (act : Z -> Z -> Z -> W -> W) NewTpl (s : EVENTS W)
    (Hact : forall f e c s, notify f e c s = Done (set_world (act f e c (world s)) s)) (HN : 0 <= NewTpl) (Hok : events_ok CheckTimersFunction s) :
  exists trace s' n0, (forall n, (n0 <= n)%nat -> CoreRestoreTpl gCpu gSmmBase2 notify CheckTimersFunction n NewTpl s = Done s') /\
    delivered gCpu gSmmBase2 notify CheckTimersFunction NewTpl s trace s' /\ events_ok CheckTimersFunction s' /\ gEfiCurrentTpl s' = NewTpl /\
    (forall t, NewTpl < t -> queue t s' = []) /\ (expiries (mEfiSystemTime s) s = [] -> trace = order NewTpl s).
Proof.
  destruct (CoreRestoreTpl_ends _ _ _ _ _ _ (passive_ending gCpu gSmmBase2 notify CheckTimersFunction act Hact) NewTpl s HN Hok)
    as (tr & s' & Hd & Hok' & Hc & Hl & n0 & Hn). exists tr, s', n0. split_and!; try done.
  - intros t Ht. apply (queue_above NewTpl); [apply Hok'|exact Hc|done|done].
  - intros Hx. by apply (delivered_order gCpu gSmmBase2 notify CheckTimersFunction act Hact NewTpl s s').
Qed.
