(* ===== verification/DxeTick.v ===== *)
(** * DXE core: the tick of the clock

    [CoreTimerTick] of [DxeEvent.v], the signal it raises, the check of the
    timers that the signal queues and the lowering of the level that runs it,
    together: after a tick no timer that is due is forgotten. *)
From Stdlib Require Import ZArith Lia.
From stdpp Require Import base gmap list.
From S2P Require Import Prelude Pointer Firmware DxePage Heap DevicePath DxeHand DxeEvent DxeEventOk DxeTimer DxeDispatch.
#[local] Open Scope Z_scope.
#[local] Ltac dred := unfold deref; mred.

Section tick.
Context {W : Type} `{Heap W}.
#[local] Abbreviation ES := (EVENTS W).
Context (gCpu : bool) (gSmmBase2 : option (Z * bool)) (notify : Z -> Z -> Z -> ES -> outcome ES) (CheckTimersFunction : Z).
#[local] Abbreviation restore := (CoreRestoreTpl gCpu gSmmBase2 notify CheckTimersFunction).
#[local] Abbreviation at_level := (at_level gCpu gSmmBase2).
#[local] Abbreviation runs := (runs gCpu gSmmBase2 notify CheckTimersFunction).
#[local] Abbreviation delivered := (delivered gCpu gSmmBase2 notify CheckTimersFunction).
Context (act : Z -> Z -> Z -> W -> W) (Hact : forall f e c s, notify f e c s = Done (set_world (act f e c (world s)) s)).
#[local] Abbreviation now := mEfiSystemTime.

(** The event of the check of the timers is the one [CoreInitializeTimer]
    creates; it is queued when it is signalled. *)
Definition check_event (C : IEVENT) : Prop :=
  bits (EventType C) EVT_NOTIFY_SIGNAL = true /\ bits (ExFlag C) EVT_EXFLAG_EVENT_GROUP = false /\ NotifyFunction C = CheckTimersFunction.
Definition check_queued (s : ES) : Prop := exists C, events s !! mEfiCheckTimerEvent s = Some C /\ NotifyLinked C = true.

(** What is due, will be checked. *)
Record ticking (s : ES) : Prop := {
  tk_ok : events_ok CheckTimersFunction s;
  tk_check : exists C, events s !! mEfiCheckTimerEvent s = Some C /\ check_event C /\ (SignalCount C <> 0 -> NotifyLinked C = true);
  tk_due : expiries (now s) s <> [] -> check_queued s;
}.

(** Signalling keeps links, and queues the check. *)
Lemma enqueue_link e (s : ES) i E : events s !! i = Some E ->
  exists F, events (enqueue e s) !! i = Some F /\ (NotifyLinked E = true -> NotifyLinked F = true) /\ (i = e -> NotifyLinked F = true) /\
    SignalCount F = SignalCount E /\ static F = static E.
Proof.
  intros Ei. unfold enqueue. destruct (events s !! e) as [G|] eqn:Ee.
  - rewrite events_update. cbn [events set_queue]. destruct (decide (i = e)) as [->|Hne]; rewrite Ei; (eexists; split; [reflexivity|]); by repeat split.
  - exists E. split_and!; try done. intros ->. congruence.
Qed.

Lemma enqueue_all_link l (s : ES) i E : events s !! i = Some E ->
  exists F, events (enqueue_all l s) !! i = Some F /\ (NotifyLinked E = true -> NotifyLinked F = true) /\ (i ∈ l -> NotifyLinked F = true) /\
    SignalCount F = SignalCount E /\ static F = static E.
Proof.
  revert s E. induction l as [|e l IH]; intros s E Ei; [exists E; split_and!; try done; intros Hin; by apply elem_of_nil in Hin|].
  unfold enqueue_all in *. cbn [foldl]. destruct (enqueue_link e s i E Ei) as (F & EF & HL & He & Hc & Hst).
  destruct (IH _ F EF) as (G & EG & HL2 & He2 & Hc2 & Hst2). exists G. split_and!; [done|auto| |congruence|congruence].
  intros Hin. apply elem_of_cons in Hin as [->|Hin]; auto.
Qed.

Definition check_ok (s : ES) : Prop :=
  exists C, events s !! mEfiCheckTimerEvent s = Some C /\ check_event C /\ (SignalCount C <> 0 -> NotifyLinked C = true).

Lemma check_event_static E F : static F = static E -> check_event E -> check_event F.
Proof.
  intros Hst. assert (EventType F = EventType E /\ ExFlag F = ExFlag E /\ NotifyFunction F = NotifyFunction E) as (H1' & H2' & H3') by (by injection Hst).
  unfold check_event. by rewrite H1', H2', H3'.
Qed.

Lemma signalled_check e (s : ES) : check_ok s ->
  check_ok (signalled e s) /\ (check_queued s -> check_queued (signalled e s)) /\ (e = mEfiCheckTimerEvent s -> check_queued (signalled e s)).
Proof.
  intros (C & EC & Hce & Hlk). pose proof (signal_all_fields [e] s) as (_ & _ & Hck). cbn in Hck. unfold check_ok, check_queued. rewrite Hck.
  set (c := mEfiCheckTimerEvent s) in *. unfold signalled. destruct (events s !! e) as [E|] eqn:Ee.
  2:{ split; [by exists C|]. split; [done|]. intros ->. congruence. }
  destruct (decide (SignalCount E = 0)) as [Hz|Hz].
  2:{ split; [by exists C|]. split; [done|]. intros ->. exists C. split; [done|]. apply Hlk. congruence. }
  set (s' := update_event e (set_count 1) s).
  assert (exists C', events s' !! c = Some C' /\ check_event C' /\ NotifyLinked C' = NotifyLinked C /\ SignalCount C' = (if decide (c = e) then 1 else SignalCount C))
    as (C' & EC' & Hce' & HL' & Hcnt).
  { unfold s'. rewrite events_update. destruct (decide (c = e)) as [->|]; [rewrite EC; by eexists|by exists C]. }
  assert (c = e -> bits (EventType E) EVT_NOTIFY_SIGNAL = true /\ bits (ExFlag E) EVT_EXFLAG_EVENT_GROUP = false) as Hsame.
  { intros <-. assert (C = E) as -> by congruence. destruct Hce as (? & ? & _). done. }
  destruct (bits (EventType E) EVT_NOTIFY_SIGNAL) eqn:Hsig.
  - set (l := if bits (ExFlag E) EVT_EXFLAG_EVENT_GROUP then _ else _). destruct (enqueue_all_link l s' c C' EC') as (F & EF & HLF & HinF & HcF & HsF).
    assert (c = e -> NotifyLinked F = true) as HeF.
    { intros He. apply HinF. unfold l. destruct (Hsame He) as [_ ->]. rewrite He. left. }
    split; [exists F|split; [|intros ->; exists F; auto]].
    + split; [done|]. split; [by apply (check_event_static C')|].
      rewrite HcF, Hcnt. destruct (decide (c = e)) as [He|]; [auto|]. intros Hn. apply HLF. rewrite HL'. auto.
    + intros (D & ED & HD). exists F. split; [done|]. apply HLF. rewrite HL'. congruence.
  - assert (c <> e) as Hne by (intros He; by destruct (Hsame He)). rewrite decide_False in Hcnt by done. split; [|split; [|intros ->; done]].
    + exists C'. split; [done|]. split; [done|]. rewrite Hcnt, HL'. done.
    + intros (D & ED & HD). exists C'. split; [done|]. rewrite HL'. congruence.
Qed.

Lemma signal_all_check k (s : ES) : check_ok s -> check_ok (signal_all k s).
Proof. revert s. induction k as [|e k IH]; intros s Hs; [done|]. unfold signal_all in *. cbn [foldl]. apply IH. by apply signalled_check. Qed.

(** The check of the timers is in order after the first event is taken off a
    queue, and after the timers have been checked. *)
Lemma dequeue_check t e q (s : ES) : check_ok s -> check_ok (dequeue t e q s).
Proof.
  intros (C & EC & Hce & Hlk). unfold check_ok. change (mEfiCheckTimerEvent (dequeue t e q s)) with (mEfiCheckTimerEvent s).
  unfold dequeue. rewrite events_update. cbn [events set_queue]. rewrite EC. destruct (decide (mEfiCheckTimerEvent s = e)) as [He|]; [|by exists C].
  eexists. split; [reflexivity|]. destruct Hce as (Hs & Hg & Hf). split; [done|]. rewrite Hs. done.
Qed.

Lemma expired_check Now l (s : ES) : check_ok s -> check_ok (expired Now l s).
Proof.
  intros Hs. apply (signal_all_check (expiries Now s)) in Hs as (C & EC & Hce & Hlk). unfold check_ok, expired.
  change (mEfiCheckTimerEvent (set_timers l (set_events ?m ?x))) with (mEfiCheckTimerEvent x). cbn [events set_timers set_events]. rewrite lookup_fmap, EC.
  exists (rescheduled Now C). split; [done|]. unfold rescheduled. destruct (_ && _); [|done]. destruct (decide (Period C = 0)); [done|].
  by destruct (decide (Now < TriggerTime C + Period C)).
Qed.

(** The time does not pass while notifications run. *)
Definition ticking_at (Now : Z) (s : ES) : Prop := ticking s /\ now s = Now.

Lemma ticking_ending Now : ending gCpu gSmmBase2 notify CheckTimersFunction (ticking_at Now) passive_rank.
Proof.
  pose proof (passive_ending gCpu gSmmBase2 notify CheckTimersFunction act Hact) as HP. split.
  - intros s Hs. apply Hs.
  - intros t b s [[Hok Hck Hdue] HN]. split; [|done]. split; [|done]. split; [by apply (e_level _ _ _ _ _ _ HP)|done|done].
  - intros t s [[Hok Hck Hdue] HN] Ht Eq. destruct (e_drain _ _ _ _ _ _ HP t s Hok Ht Eq) as [Hok1 Hr]. split; [|done]. split; [|done]. by split.
  - intros t e q s [[Hok Hck Hdue] HN] Ht Eq.
    destruct (passive_run_cases gCpu gSmmBase2 notify CheckTimersFunction act Hact t e q s Hok Ht Eq) as (s1 & Hr & Hok1 & Hl & Ht1 & Hrank & Hcase).
    assert (now s1 = now s) as HN1.
    { destruct Hcase as [(E & _ & _ & w & ->)|(l & -> & _)]; [done|].
      apply (signal_all_fields (expiries (now s) (at_level t (dequeue t e q s))) (at_level t (dequeue t e q s))). }
    exists s1. split; [exact Hr|]. split; [|done]. split; [|congruence]. split; [done| |].
    + change (check_ok s1). destruct Hcase as [(E & _ & _ & w & ->)|(l & -> & _)]; [exact (dequeue_check t e q s Hck)|]. apply (expired_check _ l).
      exact (dequeue_check t e q s Hck).
    + destruct Hcase as [(E & EE & HE & w & ->)|(l & -> & Hx)].
      * intros Hx. destruct (Hdue) as (C & EC & HL).
        { intros Hnil. apply Hx. rewrite <- Hnil. apply (expiries_same _ _ (now s) (same_dequeue gCpu gSmmBase2 t t e q s)). }
        exists C. split; [|done]. change (events (dequeue t e q s) !! mEfiCheckTimerEvent s = Some C). unfold dequeue. rewrite events_update. cbn [events set_queue].
        rewrite decide_False; [done|]. intros He. destruct Hck as (C' & EC' & (_ & _ & HC') & _). apply HE.
        pose proof (dequeue_static t e q s e) as Hst. change (events (dequeue t e q s) !! e = Some E) in EE. rewrite EE in Hst. rewrite He in EC'. rewrite EC' in Hst.
        apply (inj Some) in Hst. apply static_fields in Hst as [-> _]. done.
      * intros Hne. exfalso. apply Hne. rewrite HN1. exact Hx.
Qed.

(** The time is set and the check of the timers is queued if it must be. *)
Lemma ticking_time Now (s : ES) : ticking s -> is_u64 Now -> no_overflow Now s -> events_ok CheckTimersFunction (set_time Now s) /\ check_ok (set_time Now s).
Proof. intros [[Hq [] Hc Hl Hp] Hck Hdue] HN Hno. split; [|exact Hck]. split; [by destruct Hq|by split|done|done|done]. Qed.

Lemma tick_signal Now (s : ES) : events_ok CheckTimersFunction s -> check_ok s -> now s = Now -> gEfiCurrentTpl s = TPL_HIGH_LEVEL ->
  exists s1, (forall n, match mEfiTimerList s with
              | [] => mret s
              | e :: _ =>
                  E ← deref (events s !! e);
                  if decide (TriggerTime E <= now s)
                  then '(_, s) ← CoreSignalEvent gCpu gSmmBase2 (restore (S n)) (mEfiCheckTimerEvent s) s; mret s else mret s
              end = Done s1) /\ ticking_at Now s1 /\ gEfiCurrentTpl s1 = TPL_HIGH_LEVEL.
Proof.
  intros Hok Hck HN Hl. pose proof (ev_timers _ s Hok) as Ht.
  assert ((forall i, i ∈ mEfiTimerList s -> now s < due_time s i) -> ticking s) as Hnone.
  { intros Hd. split; [done|done|]. intros Hx. exfalso. apply Hx. by apply expiry_none. }
  destruct (mEfiTimerList s) as [|e l] eqn:El.
  { exists s. split; [done|]. split; [|done]. split; [|done]. apply Hnone. intros i Hi. by apply elem_of_nil in Hi. }
  destruct (proj1 (t_in s Ht e)) as (E & Ee & HL); [rewrite El; left|]. rewrite Ee. unfold deref. destruct (decide (TriggerTime E <= now s)) as [Hd|Hd].
  - assert (is_Some (events s !! mEfiCheckTimerEvent s)) as Hev by apply (ev_check _ s Hok).
    assert (calm (gEfiCurrentTpl s) (signalled (mEfiCheckTimerEvent s) s)) as Hcalm.
    { pose proof (q_pending _ (signalled_ok (mEfiCheckTimerEvent s) s (ev_queues _ s Hok))). unfold calm. rewrite Hl. change (2 ^ (TPL_HIGH_LEVEL + 1)) with (2 ^ 32). lia. }
    set (s1 := signalled (mEfiCheckTimerEvent s) s) in *. exists (at_level TPL_HIGH_LEVEL s1).
    split; [intros n; mred; rewrite decide_True by done; rewrite CoreSignalEvent_ok; [mred; by rewrite Hl|apply Hok|done|by rewrite Hl|done]|]. split; [|done].
    destruct (signal_all_fields [mEfiCheckTimerEvent s] s) as (H1' & H2' & H3'). split; [|by rewrite <- HN].
    destruct (signalled_check (mEfiCheckTimerEvent s) s Hck) as (Hck1 & _ & Hqd). split; [|exact Hck1|intros _; by apply Hqd].
    apply (events_ok_same _ s); [|apply queues_ok_level, signalled_ok, Hok|done]. split; [|done..]. apply (signal_all_static [mEfiCheckTimerEvent s] s).
  - exists s. split; [intros n; mred; by rewrite decide_False|]. split; [|done]. split; [|done]. apply Hnone. rewrite <- El. apply (head_due (now s) s e l Ht El). unfold due_time. rewrite Ee. cbn. lia.
Qed.
End tick.

(* ------------------------------------------------------------------ *)
(** ** Theorem *)

(** C22: a tick of the clock, with drivers whose notification functions do not
    call the services back, events and timers in order and the check of the
    timers queued if one is due ([ticking]), and no timer that is due at the
    new time and whose period added to it would pass 2^64.  The tick comes to
    an end in such a state, the time has passed, the level is what it was, and
    every timer that is due is either on its way, the check of the timers being
    queued, or, below the level of the check, has been signalled already:
    nothing on the list of timers is due. *)
Theorem CoreTimerTick_correct {W} `{Heap W} gCpu gSmmBase2 notify CheckTimersFunction (act : Z -> Z -> Z -> W -> W) Duration (s : EVENTS W)
    (Hact : forall f e c s, notify f e c s = Done (set_world (act f e c (world s)) s)) (Hs : ticking CheckTimersFunction s)
    (Hl : 0 <= gEfiCurrentTpl s <= TPL_HIGH_LEVEL) (Hno : no_overflow (u64 (mEfiSystemTime s + Duration)) s) :
  let Now := u64 (mEfiSystemTime s + Duration) in
  exists s' n0, (forall n, (n0 <= n)%nat -> CoreTimerTick gCpu gSmmBase2 notify CheckTimersFunction n Duration s = Done s') /\
    ticking CheckTimersFunction s' /\ gEfiCurrentTpl s' = gEfiCurrentTpl s /\ mEfiSystemTime s' = Now /\
    (forall e, e ∈ mEfiTimerList s' -> due_time s' e <= Now -> check_queued s') /\
    (gEfiCurrentTpl s < TPL_TIMER -> forall e, e ∈ mEfiTimerList s' -> Now < due_time s' e).
Proof.
  intros Now. destruct (ticking_time CheckTimersFunction Now s Hs (u64_range _) Hno) as [Hok Hck].
  set (s0 := locked gCpu gSmmBase2 s). assert (events_ok CheckTimersFunction (set_time Now s0)) as Hok0
    by (apply (events_ok_same _ (set_time Now s)); [done|apply (queues_ok_level _ _ (set_time Now s)), Hok|done]).
  destruct (tick_signal gCpu gSmmBase2 notify CheckTimersFunction Now (set_time Now s0) Hok0 Hck eq_refl eq_refl) as (s1 & Hcode & Hs1 & Hl1).
  destruct (CoreRestoreTpl_ends _ _ _ _ _ _ (ticking_ending gCpu gSmmBase2 notify CheckTimersFunction act Hact Now) (gEfiCurrentTpl s) s1 ltac:(lia) Hs1)
    as (tr & s' & _ & [Hs' HN'] & Hcalm & Hl' & n0 & Hn0).
  assert (forall e, e ∈ mEfiTimerList s' -> due_time s' e <= Now -> check_queued s') as Hdue.
  { intros e He Hd. apply (tk_due _ s' Hs'). rewrite HN'. intros Hx. pose proof (expiries_nil Now s' (ev_timers _ s' (tk_ok _ s' Hs')) Hx e He). lia. }
  exists s', (S n0). split_and!; try done.
  - intros [|n] Hn; [lia|]. unfold CoreTimerTick, mEfiSystemTimeLock. rewrite acquire_locked. fold s0.
    change (u64 (mEfiSystemTime s0 + Duration)) with Now. rewrite Hcode. mred. unfold CoreReleaseLock. apply Hn0. lia.
  - intros Hlt e He. destruct (decide (due_time s' e <= Now)) as [Hd|]; [|lia]. exfalso. destruct (Hdue e He Hd) as (C & EC & HC).
    pose proof (tk_ok _ s' Hs') as Hok'. destruct (tk_check _ s' Hs') as (C' & EC' & (_ & _ & Hf) & _). assert (C' = C) as -> by congruence.
    pose proof (ev_level _ s' Hok' _ C EC Hf) as HT. assert (mEfiCheckTimerEvent s' ∈ queue TPL_TIMER s') as Hin.
    { apply (q_in s' (ev_queues _ s' Hok')). by exists C. }
    rewrite (queue_above (gEfiCurrentTpl s) TPL_TIMER) in Hin; [by apply elem_of_nil in Hin|apply Hok'|exact Hcalm|lia|done].
Qed.
