(* ===== verification/DxeEventUse.v ===== *)
(** * DXE core: creating, waiting for and closing events

    [CoreCreateEventInternal], [CoreCheckEvent], [CoreWaitForEvent] and
    [CoreCloseEvent] of [DxeEvent.v] from a level nothing is pending above. *)
From Stdlib Require Import ZArith Lia.
From stdpp Require Import base gmap list.
From S2P Require Import Prelude Pointer Firmware DxePage Heap DevicePath DxeHand DxeEvent DxeEventOk DxeTimer DxeDispatch DxeTick.
#[local] Open Scope Z_scope.
#[local] Ltac dred := unfold deref; mred.

Section use.
Context {W : Type} `{HeapWf W}.
#[local] Abbreviation ES := (EVENTS W).
Context (gCpu : bool) (gSmmBase2 : option (Z * bool)) (notify : Z -> Z -> Z -> ES -> outcome ES) (CheckTimersFunction : Z).
#[local] Abbreviation restore := (CoreRestoreTpl gCpu gSmmBase2 notify CheckTimersFunction).
#[local] Abbreviation at_level := (at_level gCpu gSmmBase2).
#[local] Abbreviation lowered := (lowered gCpu gSmmBase2).
#[local] Abbreviation locked := (locked gCpu gSmmBase2).
#[local] Abbreviation CheckEvent m := (CoreCheckEvent gCpu gSmmBase2 notify CheckTimersFunction (S m)).
#[local] Abbreviation CreateEvent m := (CoreCreateEventInternal gCpu gSmmBase2 notify CheckTimersFunction (S m)).

(** A lock of the queues is taken and released without anything becoming
    pending in between. *)
Lemma lock_calm m (s s' : ES) : 0 <= gEventPending s < 2 ^ 31 -> 0 <= gEfiCurrentTpl s <= TPL_HIGH_LEVEL -> calm (gEfiCurrentTpl s) s ->
  gEventPending s' = gEventPending s -> gEfiCurrentTpl s' = gEfiCurrentTpl s -> Interrupts s' = Interrupts s ->
  restore (S m) (gEfiCurrentTpl s) (set_level TPL_HIGH_LEVEL (Interrupts (locked s)) s') = Done (at_level (gEfiCurrentTpl s) s').
Proof.
  intros Hq Hl Hc Hp HT HI. rewrite release_calm; [|cbn; by rewrite Hp|done|unfold calm in *; cbn; by rewrite Hp|done]. do 2 f_equal. cbn. destruct s'. cbn in *. by subst.
Qed.

(* ------------------------------------------------------------------ *)
(** ** Waiting *)

(** An event without a notification to wait on: its status, and what a check
    leaves. *)
Definition plain (e : Z) (s : ES) : Prop := forall E, events s !! e = Some E -> bits (EventType E) EVT_NOTIFY_WAIT = false.
Definition check_status (e : Z) (s : ES) : Z :=
  match events s !! e with
  | Some E => if bits (EventType E) EVT_NOTIFY_SIGNAL then EFI_INVALID_PARAMETER
              else if decide (SignalCount E = 0) then EFI_NOT_READY else EFI_SUCCESS
  | None => EFI_INVALID_PARAMETER
  end.
Definition checked (e : Z) (s : ES) : ES :=
  if decide (check_status e s = EFI_SUCCESS) then at_level (gEfiCurrentTpl s) (update_event e (set_count 0) s) else s.

Lemma CoreCheckEvent_plain m e (s : ES) : queues_ok s -> 0 <= gEfiCurrentTpl s <= TPL_HIGH_LEVEL -> calm (gEfiCurrentTpl s) s -> plain e s ->
  CheckEvent m e s = Done (check_status e s, checked e s).
Proof.
  intros Hq Hl Hc Hplain. unfold CoreCheckEvent, checked, check_status. destruct (decide (e = 0)) as [->|Hne]; [by rewrite (q_null s Hq)|].
  destruct (events s !! e) as [E|] eqn:Ee; [|done]. destruct (bits (EventType E) EVT_NOTIFY_SIGNAL); [done|].
  rewrite decide_False by (rewrite (Hplain E Ee); naive_solver). mred. rewrite Ee. dred.
  destruct (decide (SignalCount E = 0)) as [Hz|Hz]; [by rewrite decide_False by tauto|]. rewrite decide_True by done. rewrite decide_True by done.
  unfold gEventQueueLock, CoreReleaseLock. rewrite acquire_locked.
  change (update_event e (set_count 0) (locked s)) with (set_level TPL_HIGH_LEVEL (Interrupts (locked s)) (update_event e (set_count 0) s)).
  rewrite lock_calm; [by mred|apply (q_pending s Hq)|done..].
Qed.

Lemma wait_round_ok m l1 : forall i e l2 (s : ES), queues_ok s -> 0 <= gEfiCurrentTpl s <= TPL_HIGH_LEVEL -> calm (gEfiCurrentTpl s) s ->
  (forall j, j ∈ l1 -> plain j s /\ check_status j s = EFI_NOT_READY) -> plain e s -> check_status e s <> EFI_NOT_READY ->
  wait_round gCpu gSmmBase2 notify CheckTimersFunction (S m) i (l1 ++ e :: l2) s = Done (Some (check_status e s, i + Z.of_nat (length l1)), checked e s).
Proof.
  induction l1 as [|j l1 IH]; intros i e l2 s Hq Hl Hc H1' He Hs; cbn [app wait_round].
  - rewrite CoreCheckEvent_plain by done. mred. rewrite decide_True by done. cbn. by rewrite Z.add_0_r.
  - destruct (H1' j) as [Hj Hjs]; [left|]. rewrite CoreCheckEvent_plain by done. mred. rewrite decide_False by tauto.
    assert (checked j s = s) as -> by (unfold checked; rewrite Hjs; by rewrite decide_False).
    rewrite IH; [|done..|intros k Hk; apply H1'; by right|done|done]. do 4 f_equal. cbn. lia.
Qed.

(** C28: waiting for events without notifications of their own.  It is refused
    above the level of applications and for no events; otherwise, the first
    event that has been signalled is the answer, its index is written and it
    is no longer signalled, and an event that is notified when it is signalled,
    or is no event, ends the wait with an error at its index. *)
Theorem CoreWaitForEvent_correct m n NumberOfEvents UserEvents (s : ES) (Hq : queues_ok s) (Hc : calm TPL_APPLICATION s) :
  let result := CoreWaitForEvent gCpu gSmmBase2 notify CheckTimersFunction (S m) (S n) NumberOfEvents UserEvents s in
  (gEfiCurrentTpl s <> TPL_APPLICATION -> result = Done (EFI_UNSUPPORTED, None, s)) /\
  (gEfiCurrentTpl s = TPL_APPLICATION -> NumberOfEvents = 0 \/ UserEvents = None -> result = Done (EFI_INVALID_PARAMETER, None, s)) /\
  (forall l l1 e l2, gEfiCurrentTpl s = TPL_APPLICATION -> NumberOfEvents <> 0 -> UserEvents = Some l -> take (Z.to_nat NumberOfEvents) l = l1 ++ e :: l2 ->
     (forall j, j ∈ l1 -> plain j s /\ check_status j s = EFI_NOT_READY) -> plain e s -> check_status e s <> EFI_NOT_READY ->
     result = Done (check_status e s, Some (Z.of_nat (length l1)), checked e s)).
Proof.
  intros result. unfold result, CoreWaitForEvent. split; [|split].
  - intros Hl. by rewrite decide_True.
  - intros Hl Hn. rewrite decide_False by tauto. destruct (decide (NumberOfEvents = 0)); [done|]. destruct Hn as [?| ->]; done.
  - intros l l1 e l2 Hl Hn -> El H1' He Hs. rewrite decide_False by tauto. rewrite decide_False by done. cbn [wait_loop]. rewrite El.
    rewrite wait_round_ok; [|done|rewrite Hl; unfold TPL_APPLICATION, TPL_HIGH_LEVEL; lia|by rewrite Hl|done..]. by mred.
Qed.

(* ------------------------------------------------------------------ *)
(** ** Creating and closing *)

(** The type and the group an event gets, and the requests that are served. *)
Definition effective_type (Type_ : Z) (Group : option EFI_GUID) : Z :=
  match Group with
  | Some g => if decide (g = gEfiEventExitBootServicesGuid) then EVT_SIGNAL_EXIT_BOOT_SERVICES
              else if decide (g = gEfiEventVirtualAddressChangeGuid) then EVT_SIGNAL_VIRTUAL_ADDRESS_CHANGE else Type_
  | None => Type_
  end.
Definition effective_group (Type_ : Z) (Group : option EFI_GUID) : option EFI_GUID :=
  match Group with
  | Some g => Some g
  | None => if decide (Type_ = EVT_SIGNAL_EXIT_BOOT_SERVICES) then Some gEfiEventExitBootServicesGuid
            else if decide (Type_ = EVT_SIGNAL_VIRTUAL_ADDRESS_CHANGE) then Some gEfiEventVirtualAddressChangeGuid else None
  end.
Definition type_notified (Type_ : Z) : bool := bits Type_ (Z.lor EVT_NOTIFY_WAIT EVT_NOTIFY_SIGNAL).
Definition request_ok (Type_ NotifyTpl0 NotifyFunction0 : Z) (Group : option EFI_GUID) : Prop :=
  Type_ ∈ mEventTable /\
  (Group = None \/ Type_ <> EVT_SIGNAL_EXIT_BOOT_SERVICES /\ Type_ <> EVT_SIGNAL_VIRTUAL_ADDRESS_CHANGE) /\
  (type_notified (effective_type Type_ Group) = true -> NotifyFunction0 <> 0 /\ TPL_APPLICATION < NotifyTpl0 < TPL_HIGH_LEVEL).

Definition new_event (Type_ NotifyTpl0 NotifyFunction0 NotifyContext0 : Z) (Group : option EFI_GUID) : IEVENT :=
  let T := effective_type Type_ Group in
  let n := type_notified T in
  mkEvent T 0 (bits T EVT_NOTIFY_SIGNAL) (if n then NotifyTpl0 else 0) (if n then NotifyFunction0 else 0) (if n then NotifyContext0 else 0)
    (default no_guid (effective_group Type_ Group)) false (match effective_group Type_ Group with Some _ => EVT_EXFLAG_EVENT_GROUP | None => 0 end)
    (bits T EVT_RUNTIME) false 0 0.

(** The event is on the lists its type puts it on. *)
Definition placed (e : Z) (E : IEVENT) (s : ES) : ES :=
  let s := set_events (<[e := E]> (events s)) s in if RuntimeLinked E then set_runtime (EventHead s ++ [e]) s else s.
Definition created (e : Z) (E : IEVENT) (s : ES) : ES :=
  if SignalLinked E then at_level (gEfiCurrentTpl s) (set_signal_queue (e :: gEventSignalQueue s) (placed e E s)) else placed e E s.

(** Events live in blocks of the pool, those of the run-time list are events. *)
Record places_ok (s : ES) : Prop := {
  pl_heap : heap_ok (world s);
  pl_live : forall e, is_Some (events s !! e) -> is_Some (heap_live (world s) !! e);
  pl_runtime : forall e, e ∈ EventHead s -> is_Some (events s !! e);
}.

#[local] Instance request_dec T N F G : Decision (request_ok T N F G).
Proof. unfold request_ok. apply _. Defined.

Lemma created_event e E (s : ES) i : events (created e E s) !! i = if decide (i = e) then Some E else events s !! i.
Proof.
  assert (<[e := E]> (events s) !! i = if decide (i = e) then Some E else events s !! i) as <-.
  { destruct (decide (i = e)) as [->|]; [by rewrite lookup_insert_eq|by rewrite lookup_insert_ne by done]. }
  unfold created, placed. by destruct (RuntimeLinked E), (SignalLinked E).
Qed.

(** The lists an event is put on when it is created. *)
Lemma created_lists e E (s : ES) :
  gEventSignalQueue (created e E s) = (if SignalLinked E then [e] else []) ++ gEventSignalQueue s /\
  EventHead (created e E s) = EventHead s ++ (if RuntimeLinked E then [e] else []) /\
  gEventQueue (created e E s) = gEventQueue s /\ mEfiTimerList (created e E s) = mEfiTimerList s.
Proof. unfold created, placed. by destruct (RuntimeLinked E), (SignalLinked E); cbn; rewrite ?app_nil_r. Qed.

Lemma created_queues e E (s : ES) : queues_ok s -> events s !! e = None -> e <> 0 -> 0 <= NotifyTpl E < 31 -> NotifyLinked E = false ->
  queues_ok (created e E s).
Proof.
  intros [Hh Hp Hb Hi Hn Hl Hs Ho Hz] He Hne HT HL.
  pose proof (created_event e E s) as Hev.
  assert (gEventSignalQueue (created e E s) = (if SignalLinked E then [e] else []) ++ gEventSignalQueue s) as Hsq by (unfold created, placed; by destruct (RuntimeLinked E), (SignalLinked E)).
  assert (gEventPending (created e E s) = gEventPending s /\ forall t, queue t (created e E s) = queue t s) as [Hpe Hqu]
    by (unfold created, placed; by destruct (RuntimeLinked E), (SignalLinked E)).
  assert (gEventQueue (created e E s) = gEventQueue s) as Hgq by (unfold created, placed; by destruct (RuntimeLinked E), (SignalLinked E)).
  split; rewrite ?Hpe; [by rewrite Hgq|done|intros t; rewrite Hqu; apply Hb| |intros t; rewrite Hqu; apply Hn| | | |rewrite Hev; by destruct (decide (0 = e))].
  - intros t i. rewrite Hqu, Hi, Hev. destruct (decide (i = e)) as [->|]; [|done]. rewrite He. split; [naive_solver|]. intros (F & [= <-] & HF & _). congruence.
  - intros i F. rewrite Hev. destruct (decide (i = e)); [|apply Hl]. by intros [= <-].
  - intros i. rewrite Hsq, elem_of_app, Hs, Hev. destruct (decide (i = e)) as [->|Hie].
    + rewrite He. destruct (SignalLinked E) eqn:HS; [split; [by eexists|intros _; left; left]|].
      split; [intros [Hin|(F & [=] & _)]; by apply elem_of_nil in Hin|]. intros (F & [= <-] & HF). congruence.
    + split; [|by right]. intros [Hin|Hin]; [|done]. destruct (SignalLinked E); [apply list_elem_of_singleton in Hin; done|by apply elem_of_nil in Hin].
  - rewrite Hsq. destruct (SignalLinked E); [|done]. cbn. apply NoDup_cons. split; [|done]. rewrite Hs, He. naive_solver.
Qed.

Lemma created_timers e E (s : ES) : timers_ok s -> events s !! e = None -> TimerLinked E = false -> is_u64 (TriggerTime E) -> is_u64 (Period E) ->
  timers_ok (created e E s).
Proof.
  intros [Hs Hi Ho Hr Hw] He HL HT HP.
  pose proof (created_event e E s) as Hev.
  assert (mEfiTimerList (created e E s) = mEfiTimerList s /\ mEfiSystemTime (created e E s) = mEfiSystemTime s) as [Hl Hn]
    by (unfold created, placed; by destruct (RuntimeLinked E), (SignalLinked E)).
  assert (e ∉ mEfiTimerList s) as Hne by (rewrite Hi, He; naive_solver).
  split; rewrite ?Hl, ?Hn; [| |done| |done].
  - apply (sorted_ext s); [|done]. intros i Hin. unfold due_time. rewrite Hev. by rewrite decide_False by (intros ->; done).
  - intros i. rewrite Hi, Hev. destruct (decide (i = e)) as [->|]; [|done]. rewrite He. split; [naive_solver|]. intros (F & [= <-] & HF). congruence.
  - intros i F. rewrite Hev. destruct (decide (i = e)); [|apply Hr]. by intros [= <-].
Qed.

(** The code of the creation: the request is checked, the event allocated and
    put on its lists. *)
Lemma CoreCreateEventInternal_ok m Type_ NotifyTpl0 Fn Ctx Group (s : ES) : queues_ok s -> places_ok s ->
  0 <= gEfiCurrentTpl s <= TPL_HIGH_LEVEL -> calm (gEfiCurrentTpl s) s ->
  let E := new_event Type_ NotifyTpl0 Fn Ctx Group in
  CreateEvent m Type_ NotifyTpl0 Fn Ctx Group true s =
    (if decide (request_ok Type_ NotifyTpl0 Fn Group) then
       match heap_alloc 184 (world s) with
       | (Some e, w) => Done (EFI_SUCCESS, Some e, created e E (set_world w s))
       | (None, w) => Done (EFI_OUT_OF_RESOURCES, None, set_world w s)
       end
     else Done (EFI_INVALID_PARAMETER, None, s)).
Proof.
  intros Hq Hpl Hl Hc E. unfold CoreCreateEventInternal. cbn [negb].
  assert (match Group with
    | Some g => (if decide (g = gEfiEventExitBootServicesGuid) then EVT_SIGNAL_EXIT_BOOT_SERVICES
                 else if decide (g = gEfiEventVirtualAddressChangeGuid) then EVT_SIGNAL_VIRTUAL_ADDRESS_CHANGE else Type_, Some g)
    | None => (Type_, if decide (Type_ = EVT_SIGNAL_EXIT_BOOT_SERVICES) then Some gEfiEventExitBootServicesGuid
                      else if decide (Type_ = EVT_SIGNAL_VIRTUAL_ADDRESS_CHANGE) then Some gEfiEventVirtualAddressChangeGuid else None)
    end = (effective_type Type_ Group, effective_group Type_ Group)) as -> by (by destruct Group).
  fold (type_notified (effective_type Type_ Group)). unfold request_ok, TPL_APPLICATION, TPL_HIGH_LEVEL.
  destruct (decide (Type_ ∉ mEventTable)) as [Hn1|Hy1]; [rewrite decide_False by tauto; done|].
  destruct (decide (Group <> None /\ _)) as [Hn2|Hy2]; [rewrite decide_False by tauto; done|].
  destruct (decide (type_notified _ = true /\ _)) as [Hn3|Hy3].
  { rewrite decide_False; [done|]. intros (_ & _ & Hr). destruct Hn3 as [Hn3 Hor]. apply Hr in Hn3. lia. }
  rewrite decide_True.
  2:{ split; [by apply dec_stable|]. split; [destruct Group; [right|by left]; split; intros ->; apply Hy2; naive_solver|].
      intros Hn. assert (~ (Fn = 0 \/ NotifyTpl0 <= 4 \/ 31 <= NotifyTpl0)) by tauto. lia. }
  destruct (heap_alloc 184 (world s)) as [[e|] w] eqn:Ea; [|done].
  destruct (alloc_some (world s) 184 e w (pl_heap s Hpl) ltac:(lia) Ea) as (_ & Hfresh & _ & _).
  destruct (alloc_range (world s) 184 e w (pl_heap s Hpl) ltac:(lia) Ea) as [Hpos _].
  assert (events s !! e = None) as He by (destruct (events s !! e) eqn:Ee; [|done]; destruct (pl_live s Hpl e ltac:(by eexists)); congruence).
  assert (queues_ok (created e E (set_world w s))) as Hcr.
  { apply created_queues; [by destruct Hq|done|lia| |done]. unfold E, new_event. cbn. destruct (type_notified _) eqn:Hn; [|lia].
    destruct (decide (NotifyTpl0 <= 4)) as [|]; [exfalso; tauto|]. destruct (decide (31 <= NotifyTpl0)) as [|]; [exfalso; tauto|]. lia. }
  change (bits (effective_type Type_ Group) EVT_RUNTIME) with (RuntimeLinked E).
  change (bits (effective_type Type_ Group) EVT_NOTIFY_SIGNAL) with (SignalLinked E).
  set (x := if RuntimeLinked E then _ else _). assert (x = placed e E (set_world w s)) as -> by done. unfold created in *.
  set (x := placed e E (set_world w s)) in *.
  assert (gEfiCurrentTpl x = gEfiCurrentTpl s /\ gEventPending x = gEventPending s /\ gEventSignalQueue x = gEventSignalQueue s) as (HxT & HxP & HxS)
    by (unfold x, placed; by destruct (RuntimeLinked E)).
  change (gEfiCurrentTpl (set_world w s)) with (gEfiCurrentTpl s) in *. change (gEventSignalQueue (set_world w s)) with (gEventSignalQueue s) in *.
  destruct (SignalLinked E); [|done]. unfold gEventQueueLock, CoreReleaseLock. rewrite acquire_locked.
  change (set_signal_queue (e :: gEventSignalQueue (locked x)) (locked x)) with
    (set_level TPL_HIGH_LEVEL (Interrupts (locked x)) (set_signal_queue (e :: gEventSignalQueue x) x)).
  rewrite HxS. rewrite lock_calm; [by rewrite HxT|rewrite HxP; apply (q_pending s Hq)|by rewrite HxT|unfold calm; by rewrite HxT, HxP|done..].
Qed.

Context (GetTimerPeriod : W -> Z) (CoreUnregisterProtocolNotify : Z -> W -> W).
#[local] Abbreviation CloseEvent m := (CoreCloseEvent gCpu gSmmBase2 notify GetTimerPeriod CoreUnregisterProtocolNotify CheckTimersFunction (S m)).

(** The event leaves the lists it is on, its registrations are forgotten and
    its block is given back. *)
Definition without (e : Z) (E : IEVENT) (s : ES) : ES :=
  let s := if RuntimeLinked E then set_runtime (filter (fun i => i <> e) (EventHead s)) s else s in
  let s := if NotifyLinked E
           then set_queue (alter (filter (fun i => i <> e)) (NotifyTpl E) (gEventQueue s)) (gEventPending s) s else s in
  if SignalLinked E then set_signal_queue (filter (fun i => i <> e) (gEventSignalQueue s)) s else s.
Definition closed (e : Z) (E : IEVENT) (s : ES) : ES :=
  let s := without e E (if bits (EventType E) EVT_TIMER then set_timers (unlinked e s) s else s) in
  let w := if bits (ExFlag E) EVT_EXFLAG_EVENT_PROTOCOL_NOTIFICATION then CoreUnregisterProtocolNotify e (world s) else world s in
  set_world (heap_free e w) (set_events (delete e (events s)) (at_level (gEfiCurrentTpl s) s)).

Lemma without_fields e E (s : ES) : gEfiCurrentTpl (without e E s) = gEfiCurrentTpl s /\ Interrupts (without e E s) = Interrupts s /\
  gEventPending (without e E s) = gEventPending s /\ events (without e E s) = events s.
Proof. unfold without. by destruct (RuntimeLinked E), (NotifyLinked E), (SignalLinked E). Qed.

Lemma without_level e E t b (s : ES) : without e E (set_level t b s) = set_level t b (without e E s).
Proof. unfold without. by destruct (RuntimeLinked E), (NotifyLinked E), (SignalLinked E). Qed.

Lemma without_events e E m (s : ES) : without e E (set_events m s) = set_events m (without e E s).
Proof. unfold without. by destruct (RuntimeLinked E), (NotifyLinked E), (SignalLinked E). Qed.

(** The rest of the closing, once the timer is cancelled. *)
Lemma close_rest m e E (s : ES) : 0 <= gEventPending s < 2 ^ 31 -> 0 <= gEfiCurrentTpl s <= TPL_HIGH_LEVEL -> calm (gEfiCurrentTpl s) s ->
  events s !! e = Some E ->
  (let '(Owner, s) := CoreAcquireLock gCpu gSmmBase2 gEventQueueLock s in
   s ← restore (S m) Owner (without e E s);
   E ← deref (events s !! e);
   let s := if bits (ExFlag E) EVT_EXFLAG_EVENT_PROTOCOL_NOTIFICATION then set_world (CoreUnregisterProtocolNotify e (world s)) s else s in
   mret (EFI_SUCCESS, set_world (heap_free e (world s)) (set_events (delete e (events s)) s))) =
  Done (EFI_SUCCESS, let s' := without e E s in
    let w := if bits (ExFlag E) EVT_EXFLAG_EVENT_PROTOCOL_NOTIFICATION then CoreUnregisterProtocolNotify e (world s') else world s' in
    set_world (heap_free e w) (set_events (delete e (events s')) (at_level (gEfiCurrentTpl s) s'))).
Proof.
  intros Hp Hl Hc Ee. destruct (without_fields e E s) as (HT & HI & HP & HV). unfold gEventQueueLock. rewrite acquire_locked.
  unfold DxeEventOk.locked at 1. rewrite without_level. rewrite lock_calm by done. mred.
  change (events (at_level (gEfiCurrentTpl s) (without e E s))) with (events (without e E s)).
  replace (events (without e E s) !! e) with (Some E) by (by rewrite HV). dred.
  by destruct (bits (ExFlag E) _).
Qed.

Lemma CoreCloseEvent_ok m e E (s : ES) : queues_ok s -> timers_ok s -> is_Some (events s !! mEfiCheckTimerEvent s) ->
  0 <= gEfiCurrentTpl s < TPL_HIGH_LEVEL -> calm (gEfiCurrentTpl s) s -> events s !! e = Some E ->
  CloseEvent m e s = Done (EFI_SUCCESS, closed e E s).
Proof.
  intros Hq Ht Hev Hl Hc Ee. unfold CoreCloseEvent. rewrite decide_False by (intros ->; by rewrite (q_null s Hq) in Ee). rewrite Ee.
  unfold closed. destruct (bits (EventType E) EVT_TIMER) eqn:Hb.
  - pose proof (CoreSetTimer_ok gCpu gSmmBase2 notify CheckTimersFunction m GetTimerPeriod e TimerCancel 0 E s Hq Ht Hev Hl ltac:(lia) Ee Hb ltac:(done)) as Hok.
    cbv zeta in Hok. rewrite decide_True in Hok by done. destruct Hok as [Hok _]. rewrite Hok.
    rewrite restore_calm; [|apply (q_pending s Hq)|apply Hl|exact Hc]. mred. set (s1 := lowered _ _).
    assert (events s1 !! e = Some (set_timer false 0 0 E)) as E1 by (change (events (timed e false 0 0 (unlinked e s) s) !! e = Some (set_timer false 0 0 E)); by rewrite timed_event, decide_True, Ee by done).
    rewrite E1. dred. etransitivity; [exact (close_rest m e (set_timer false 0 0 E) s1 (q_pending s Hq) ltac:(unfold TPL_HIGH_LEVEL in *; cbn; lia) Hc E1)|].
    cbv zeta. change (without e (set_timer false 0 0 E)) with (without e E). set (s2 := set_timers (unlinked e s) s).
    assert (s1 = set_level (gEfiCurrentTpl s) (switched gCpu gSmmBase2 true (Interrupts s)) (set_events (alter (set_timer false 0 0) e (events s)) s2)) as ->.
    { unfold s1, DxeEventOk.lowered. rewrite (proj2 (Z.ltb_lt _ _)) by apply Hl. done. }
    rewrite without_level, without_events. destruct (without_fields e E s2) as (HT & HI & HP & HV). rewrite HT. unfold DxeEventOk.at_level. cbn.
    rewrite (proj2 (Z.ltb_lt _ _)) by apply Hl. rewrite HI, HV. cbn. rewrite switched_off.
    assert (delete e (alter (set_timer false 0 0) e (events s)) = delete e (events s)) as ->; [|done].
    apply map_eq. intros i. destruct (decide (i = e)) as [->|]; [by rewrite !lookup_delete_eq|by rewrite !lookup_delete_ne, lookup_alter_ne by done].
  - mred. rewrite Ee. dred. etransitivity; [exact (close_rest m e E s (q_pending s Hq) ltac:(lia) Hc Ee)|]. cbv zeta.
    destruct (without_fields e E s) as (HT & HI & HP & HV). by rewrite HT.
Qed.

Lemma new_event_level Type_ NotifyTpl0 Fn Ctx Group : request_ok Type_ NotifyTpl0 Fn Group -> 0 <= NotifyTpl (new_event Type_ NotifyTpl0 Fn Ctx Group) < 31.
Proof.
  intros (_ & _ & Hr). unfold new_event, TPL_APPLICATION, TPL_HIGH_LEVEL in *. cbn. destruct (type_notified _); [specialize (Hr eq_refl); lia|lia].
Qed.

(** Closing an event that has just been created leaves what was there. *)
Lemma closed_created e E w (s : ES) : queues_ok s -> timers_ok s -> places_ok s -> gEfiCurrentTpl s < TPL_HIGH_LEVEL -> events s !! e = None ->
  NotifyLinked E = false -> bits (ExFlag E) EVT_EXFLAG_EVENT_PROTOCOL_NOTIFICATION = false ->
  closed e E (created e E (set_world w s)) = set_world (heap_free e w) (at_level (gEfiCurrentTpl s) s).
Proof.
  intros Hq Ht Hpl Hl He HN HX. unfold closed. rewrite HX.
  assert (e ∉ gEventSignalQueue s) as H1' by (rewrite (q_signal s Hq), He; naive_solver).
  assert (e ∉ EventHead s) as H2' by (intros Hin; apply (pl_runtime s Hpl) in Hin; rewrite He in Hin; by destruct Hin).
  assert (e ∉ mEfiTimerList s) as H3' by (rewrite (t_in s Ht), He; naive_solver).
  assert (unlinked e s = mEfiTimerList s) as Hu by (by apply filter_ne_id).
  assert (delete e (<[e := E]> (events s)) = events s) as Hd by (by rewrite delete_insert_id).
  assert ((if bits (EventType E) EVT_TIMER then set_timers (unlinked e (created e E (set_world w s))) (created e E (set_world w s)) else created e E (set_world w s)) =
    created e E (set_world w s)) as ->.
  { destruct (bits (EventType E) EVT_TIMER); [|done]. unfold created, placed, unlinked in *. destruct (RuntimeLinked E), (SignalLinked E); cbn; by rewrite Hu. }
  unfold without, created, placed. rewrite HN. unfold DxeEventOk.at_level. rewrite (proj2 (Z.ltb_lt _ _)) by done.
  destruct (RuntimeLinked E), (SignalLinked E); cbn;
    rewrite ?(filter_app (fun i => i <> e)), ?filter_cons, ?(decide_False (P := e <> e)) by tauto; rewrite ?filter_nil, ?app_nil_r, ?filter_ne_id by done;
    rewrite ?Hd, ?switched_off, ?(proj2 (Z.ltb_lt (gEfiCurrentTpl s) TPL_HIGH_LEVEL)) by done; done.
Qed.
End use.

(* ------------------------------------------------------------------ *)
(** ** Theorems *)

(** C26: creating an event and closing it at once, from a state in order, below
    the highest level and with nothing pending above the level.  A request with
    an unknown type, a group that does not go with the type, or a notification
    without a function or at a level events may not have is refused, and one
    the pool has no block for fails.  Otherwise the event is known, with its
    type and group, not signalled; it is at the front of the list of events
    that are notified when they are signalled if its type says so, at the end
    of the run-time list if its type says so, and neither queued nor a timer;
    queues and timers stay in order.  To close it gives its block back and
    leaves everything else as it was before. *)
Theorem CoreCreateEvent_CloseEvent_roundtrip {W} `{HeapWf W} gCpu gSmmBase2 notify GetTimerPeriod Unregister CheckTimersFunction m
    Type_ NotifyTpl0 Fn Ctx Group (s : EVENTS W) (Hq : queues_ok s) (Ht : timers_ok s) (Hev : is_Some (events s !! mEfiCheckTimerEvent s))
    (Hpl : places_ok s) (Hl : 0 <= gEfiCurrentTpl s < TPL_HIGH_LEVEL) (Hc : calm (gEfiCurrentTpl s) s) :
  let t := gEfiCurrentTpl s in
  let E := new_event Type_ NotifyTpl0 Fn Ctx Group in
  let result := CoreCreateEventInternal gCpu gSmmBase2 notify CheckTimersFunction (S m) Type_ NotifyTpl0 Fn Ctx Group true s in
  if decide (request_ok Type_ NotifyTpl0 Fn Group) then
    match heap_alloc 184 (world s) with
    | (Some e, w) =>
        exists s1, result = Done (EFI_SUCCESS, Some e, s1) /\ events s1 = <[e := E]> (events s) /\ queues_ok s1 /\ timers_ok s1 /\
          gEventSignalQueue s1 = (if bits (EventType E) EVT_NOTIFY_SIGNAL then [e] else []) ++ gEventSignalQueue s /\
          EventHead s1 = EventHead s ++ (if bits (EventType E) EVT_RUNTIME then [e] else []) /\
          gEventQueue s1 = gEventQueue s /\ mEfiTimerList s1 = mEfiTimerList s /\
          CoreCloseEvent gCpu gSmmBase2 notify GetTimerPeriod Unregister CheckTimersFunction (S m) e s1 =
            Done (EFI_SUCCESS, set_world (heap_free e w) (at_level gCpu gSmmBase2 t s))
    | (None, w) => result = Done (EFI_OUT_OF_RESOURCES, None, set_world w s)
    end
  else result = Done (EFI_INVALID_PARAMETER, None, s).
Proof.
  cbv zeta. rewrite (CoreCreateEventInternal_ok gCpu gSmmBase2 notify) by (done || lia). destruct (decide (request_ok Type_ NotifyTpl0 Fn Group)) as [Hr|]; [|done].
  destruct (heap_alloc 184 (world s)) as [[e|] w] eqn:Ea; [|done]. set (E := new_event Type_ NotifyTpl0 Fn Ctx Group).
  destruct (alloc_some (world s) 184 e w (pl_heap s Hpl) ltac:(lia) Ea) as (_ & Hfresh & _ & _).
  destruct (alloc_range (world s) 184 e w (pl_heap s Hpl) ltac:(lia) Ea) as [Hpos _].
  assert (events s !! e = None) as He by (destruct (events s !! e) eqn:Ee; [|done]; destruct (pl_live s Hpl e ltac:(by eexists)); congruence).
  set (s1 := created gCpu gSmmBase2 e E (set_world w s)).
  assert (queues_ok s1) as Hq1 by (apply (created_queues gCpu gSmmBase2 notify); [by destruct Hq|done|lia|by apply new_event_level|done]).
  assert (timers_ok s1) as Ht1 by (apply (created_timers gCpu gSmmBase2 notify); [by destruct Ht|done|done|cbn; lia..]).
  pose proof (created_event gCpu gSmmBase2 e E (set_world w s)) as Hevent. fold s1 in Hevent.
  assert (gEfiCurrentTpl s1 = gEfiCurrentTpl s /\ gEventPending s1 = gEventPending s /\ mEfiCheckTimerEvent s1 = mEfiCheckTimerEvent s) as (H1' & H2' & H3')
    by (unfold s1, created, placed; by destruct (RuntimeLinked E), (SignalLinked E)).
  exists s1. split; [done|]. split.
  { apply map_eq. intros i. rewrite Hevent. destruct (decide (i = e)) as [->|]; [by rewrite lookup_insert_eq|by rewrite lookup_insert_ne]. }
  split; [done|]. split; [done|]. 
  destruct (created_lists gCpu gSmmBase2 e E (set_world w s)) as (L1 & L2 & L3 & L4). do 4 (split; [done|]).
  rewrite (CoreCloseEvent_ok gCpu gSmmBase2 notify CheckTimersFunction GetTimerPeriod Unregister m e E s1); [|done|done| |by rewrite H1'| |by rewrite Hevent, decide_True].
  - f_equal. f_equal. apply (closed_created gCpu gSmmBase2 notify CheckTimersFunction GetTimerPeriod Unregister); try done; [apply Hl|]. unfold E, new_event. cbn. by destruct (effective_group _ _).
  - rewrite H3', Hevent. destruct (decide (mEfiCheckTimerEvent s = e)); [by eexists|exact Hev].
  - unfold calm in *. by rewrite H1', H2'.
Qed.

(* ------------------------------------------------------------------ *)
(** ** Starting up *)

Section start.
Context {W : Type} `{HeapWf W}.
#[local] Abbreviation ES := (EVENTS W).
(** The globals before the services are set up. *)
Definition initial (i : bool) (w : W) : ES := mkEvents TPL_APPLICATION i ∅ 0 [] 0 [] 0 0 [] ∅ w.

Lemma fresh_event e w (s : ES) : places_ok s -> heap_alloc 184 (world s) = (Some e, w) -> events s !! e = None /\ 0 < e.
Proof.
  intros Hpl Ea. destruct (alloc_some (world s) 184 e w (pl_heap s Hpl) ltac:(lia) Ea) as (_ & Hfresh & _ & _).
  destruct (alloc_range (world s) 184 e w (pl_heap s Hpl) ltac:(lia) Ea) as [Hpos _]. split; [|done].
  destruct (events s !! e) eqn:Ee; [|done]. destruct (pl_live s Hpl e ltac:(by eexists)). congruence.
Qed.

Lemma initial_ok i w q : heap_ok w -> (forall t, q !! t = if decide (0 <= t <= TPL_HIGH_LEVEL) then Some [] else None) ->
  queues_ok (set_queue q 0 (initial i w)) /\ timers_ok (set_queue q 0 (initial i w)) /\ places_ok (set_queue q 0 (initial i w)).
Proof.
  intros Hw Hq. assert (forall e, events (set_queue q 0 (initial i w)) !! e = None) as He by (intros e; apply lookup_empty).
  assert (forall t, queue t (set_queue q 0 (initial i w)) = []) as Hqu by (intros t; unfold queue; cbn; rewrite Hq; by destruct (decide _)).
  assert (forall (P : Z -> IEVENT -> Prop) e, e ∈ [] <-> exists E, events (set_queue q 0 (initial i w)) !! e = Some E /\ P e E) as Hnone.
  { intros P e. rewrite He. split; [intros Hn; by apply elem_of_nil in Hn|naive_solver]. }
  split; [split|split; split].
  - intros t Ht. cbn. rewrite Hq, decide_True by done. by eexists.
  - done.
  - intros t. by rewrite Hqu.
  - intros t e. rewrite Hqu. apply (Hnone (fun _ E => NotifyLinked E = true /\ NotifyTpl E = t)).
  - intros t. rewrite Hqu. constructor.
  - intros e E. by rewrite He.
  - apply (Hnone (fun _ E => SignalLinked E = true)).
  - constructor.
  - apply He.
  - constructor.
  - apply (Hnone (fun _ E => TimerLinked E = true)).
  - constructor.
  - intros e E. by rewrite He.
  - done.
  - done.
  - intros e. rewrite He. by intros [].
  - intros e Hn. by apply elem_of_nil in Hn.
Qed.

(** The two events of the core: the check of the timers and the idle loop. *)
Lemma core_request tpl f g : TPL_APPLICATION < tpl < TPL_HIGH_LEVEL -> f <> 0 -> request_ok EVT_NOTIFY_SIGNAL tpl f g.
Proof.
  intros Ht Hf. split; [apply list_elem_of_In; cbn; tauto|]. split; [right; split; by vm_compute|]. intros _. by split.
Qed.

(** The loop over the heads sets up those of all levels. *)
Lemma heads_loop l t : foldr (fun t q => <[t := []]> q) (∅ : gmap Z (list Z)) l !! t = if decide (t ∈ l) then Some [] else None.
Proof.
  induction l as [|i l IH]; cbn [foldr]; [by rewrite lookup_empty, decide_False by apply not_elem_of_nil|].
  destruct (decide (t = i)) as [->|Hne]; [by rewrite lookup_insert_eq, decide_True by left|].
  rewrite lookup_insert_ne, IH by done. apply decide_ext. rewrite elem_of_cons. tauto.
Qed.

Lemma heads_set_up t : foldr (fun t q => <[t := []]> q) (∅ : gmap Z (list Z)) (seqZ 0 (TPL_HIGH_LEVEL + 1)) !! t =
  if decide (0 <= t <= TPL_HIGH_LEVEL) then Some [] else None.
Proof. rewrite heads_loop. apply decide_ext. rewrite elem_of_seqZ. lia. Qed.

Context (gCpu : bool) (gSmmBase2 : option (Z * bool)) (notify : Z -> Z -> Z -> ES -> outcome ES) (CheckTimersFunction : Z).
#[local] Abbreviation created := (created gCpu gSmmBase2).

Lemma places_created e E w (s : ES) : places_ok s -> heap_alloc 184 (world s) = (Some e, w) -> places_ok (created e E (set_world w s)).
Proof.
  intros [Hh Hlive Hr] Ea. destruct (alloc_some (world s) 184 e w Hh ltac:(lia) Ea) as (Hh' & _ & Hl & _).
  pose proof (created_event gCpu gSmmBase2 e E (set_world w s)) as Hev.
  assert (world (created e E (set_world w s)) = w /\ EventHead (created e E (set_world w s)) = EventHead s ++ (if RuntimeLinked E then [e] else [])) as [Hw HH].
  { unfold DxeEventUse.created, placed. destruct (RuntimeLinked E), (SignalLinked E); cbn; by rewrite ?app_nil_r. }
  split; rewrite ?Hw, ?HH; [done| |].
  - intros i. rewrite Hev, Hl. destruct (decide (i = e)) as [->|Hne]; [intros _; rewrite lookup_insert_eq; by eexists|].
    rewrite lookup_insert_ne by done. apply Hlive.
  - intros i Hi. rewrite Hev. destruct (decide (i = e)); [by eexists|]. apply Hr. apply elem_of_app in Hi as [Hi|Hi]; [done|].
    destruct (RuntimeLinked E); [apply list_elem_of_singleton in Hi; done|by apply elem_of_nil in Hi].
Qed.

(** Creating one of them. *)
Lemma core_event_ok m tpl f g e w (s : ES) : queues_ok s -> timers_ok s -> places_ok s -> gEfiCurrentTpl s = TPL_APPLICATION -> gEventPending s = 0 ->
  TPL_APPLICATION < tpl < TPL_HIGH_LEVEL -> f <> 0 -> heap_alloc 184 (world s) = (Some e, w) ->
  let E := new_event EVT_NOTIFY_SIGNAL tpl f 0 g in
  let s' := created e E (set_world w s) in
  CoreCreateEventInternal gCpu gSmmBase2 notify CheckTimersFunction (S m) EVT_NOTIFY_SIGNAL tpl f 0 g true s = Done (EFI_SUCCESS, Some e, s') /\
  queues_ok s' /\ timers_ok s' /\ places_ok s' /\ gEfiCurrentTpl s' = TPL_APPLICATION /\ gEventPending s' = 0 /\ world s' = w /\
  mEfiTimerList s' = mEfiTimerList s /\ mEfiCheckTimerEvent s' = mEfiCheckTimerEvent s /\ gEventQueue s' = gEventQueue s /\ events s !! e = None.
Proof.
  intros Hq Ht Hpl Hl Hp Htpl Hf Ea E s'. destruct (fresh_event e w s Hpl Ea) as [He Hpos]. pose proof (core_request tpl f g Htpl Hf) as Hr.
  rewrite (CoreCreateEventInternal_ok gCpu gSmmBase2 notify); [|done|done|by rewrite Hl|unfold calm; by rewrite Hl, Hp].
  rewrite decide_True by done. rewrite Ea. split; [done|].
  split; [apply (created_queues gCpu gSmmBase2 notify); [by destruct Hq|done|lia|by apply new_event_level|done]|].
  split; [apply (created_timers gCpu gSmmBase2 notify); [by destruct Ht|done|done|cbn; lia..]|]. split; [by apply places_created|].
  unfold s', DxeEventUse.created, placed. by destruct (RuntimeLinked E), (SignalLinked E).
Qed.
End start.

(** C27: setting up the event services, when the pool has room for the two
    events of the core and the addresses of the two functions they notify are
    apart and not null.  It ends at the level of applications with the head of
    the queue of every level set up, the queues empty, nothing pending, and
    with the event of the check of the timers and the idle event known; the
    queues, the timers and the check are in order, as the theorems on ticks and
    on lowering the level ask. *)
Theorem CoreInitializeEventServices_correct {W} `{HeapWf W} gCpu gSmmBase2 notify CheckTimersFunction EfiEventEmptyFunction m i (w : W) e1 w1 e2 w2
    (Hw : heap_ok w) (H1 : heap_alloc 184 w = (Some e1, w1)) (H2 : heap_alloc 184 w1 = (Some e2, w2))
    (Hck : CheckTimersFunction <> 0) (Hid : EfiEventEmptyFunction <> 0) (Hne : EfiEventEmptyFunction <> CheckTimersFunction) :
  exists s, CoreInitializeEventServices gCpu gSmmBase2 notify CheckTimersFunction EfiEventEmptyFunction (S m) (initial i w) = Done (EFI_SUCCESS, s) /\
    ticking CheckTimersFunction s /\ places_ok s /\ mEfiCheckTimerEvent s = e1 /\ gIdleLoopEvent s = e2 /\
    (forall t, gEventQueue s !! t = if decide (0 <= t <= TPL_HIGH_LEVEL) then Some [] else None) /\
    gEfiCurrentTpl s = TPL_APPLICATION /\ gEventPending s = 0 /\ dom (events s) = {[e1; e2]}.
Proof.
  destruct (initial_ok i w (foldr (fun t q => <[t := []]> q) (gEventQueue (initial i w)) (seqZ 0 (TPL_HIGH_LEVEL + 1))) Hw heads_set_up) as (Hq0 & Ht0 & Hp0).
  set (s0 := set_queue _ 0 (initial i w)) in *.
  destruct (core_event_ok gCpu gSmmBase2 notify CheckTimersFunction m (TPL_HIGH_LEVEL - 1) CheckTimersFunction None e1 w1 s0)
    as (Hc1 & Hq1 & Ht1 & Hp1 & Hl1 & Hpd1 & Hw1 & Hlist1 & _ & Hgq1 & He1); [done..|].
  set (E1 := new_event EVT_NOTIFY_SIGNAL (TPL_HIGH_LEVEL - 1) CheckTimersFunction 0 None) in *. set (s1 := created gCpu gSmmBase2 e1 E1 (set_world w1 s0)) in *.
  assert (queues_ok (set_check_timer e1 s1) /\ timers_ok (set_check_timer e1 s1) /\ places_ok (set_check_timer e1 s1)) as (Hq1' & Ht1' & Hp1')
    by (split_and!; [by destruct Hq1|by destruct Ht1|by destruct Hp1]).
  destruct (core_event_ok gCpu gSmmBase2 notify CheckTimersFunction m TPL_NOTIFY EfiEventEmptyFunction (Some gIdleLoopEventGuid) e2 w2 (set_check_timer e1 s1))
    as (Hc2 & Hq2 & Ht2 & Hp2 & Hl2 & Hpd2 & Hw2 & Hlist2 & Hchk2 & Hgq2 & He2); [done..|by rewrite <- Hw1 in H2|].
  set (E2 := new_event EVT_NOTIFY_SIGNAL TPL_NOTIFY EfiEventEmptyFunction 0 (Some gIdleLoopEventGuid)) in *.
  set (s2 := created gCpu gSmmBase2 e2 E2 (set_world w2 (set_check_timer e1 s1))) in *.
  assert (forall j, events s2 !! j = if decide (j = e2) then Some E2 else if decide (j = e1) then Some E1 else None) as Hev.
  { intros j. unfold s2. rewrite created_event. destruct (decide (j = e2)); [done|]. change (events (set_world w2 (set_check_timer e1 s1)) !! j) with (events s1 !! j).
    unfold s1. rewrite created_event. destruct (decide (j = e1)); [done|]. apply lookup_empty. }
  assert (e1 <> e2) as Hneq.
  { intros ->. change (events s1 !! e2 = None) in He2. unfold s1 in He2. by rewrite created_event, decide_True in He2. }
  change (mEfiCheckTimerEvent (set_check_timer e1 s1)) with e1 in Hchk2. change (mEfiTimerList (set_check_timer e1 s1)) with (mEfiTimerList s1) in Hlist2.
  exists (set_idle e2 s2). split_and!; [| |by destruct Hp2|exact Hchk2|done| |exact Hl2|exact Hpd2|].
  - unfold CoreInitializeEventServices, CoreInitializeTimer. change (gEventPending (initial i w)) with 0. fold s0. rewrite Hc1. mred. cbn [default from_option].
    unfold CoreCreateEventEx. rewrite decide_False by tauto. change (id e1) with e1. by rewrite Hc2.
  - assert (events_ok CheckTimersFunction (set_idle e2 s2)) as Hok.
    { split; [by destruct Hq2|by destruct Ht2| | |].
      - change (is_Some (events s2 !! mEfiCheckTimerEvent s2)). rewrite Hchk2, Hev, decide_False, decide_True by done. by eexists.
      - intros e E HE. change (events s2 !! e = Some E) in HE. rewrite Hev in HE. destruct (decide (e = e2)); [by injection HE as <-|].
        destruct (decide (e = e1)); [by injection HE as <-|done].
      - intros e E HE. change (events s2 !! e = Some E) in HE. rewrite Hev in HE. destruct (decide (e = e2)); [by injection HE as <-|].
        destruct (decide (e = e1)); [by injection HE as <-|done]. }
    split; [done| |].
    + exists E1. change (events (set_idle e2 s2)) with (events s2). change (mEfiCheckTimerEvent (set_idle e2 s2)) with (mEfiCheckTimerEvent s2).
      rewrite Hchk2, Hev, decide_False, decide_True by done. by repeat split.
    + unfold expiries. change (mEfiTimerList (set_idle e2 s2)) with (mEfiTimerList s2). rewrite Hlist2, Hlist1. done.
  - intros t. change (gEventQueue (set_idle e2 s2)) with (gEventQueue s2). rewrite Hgq2. change (gEventQueue (set_check_timer e1 s1)) with (gEventQueue s1).
    rewrite Hgq1. apply heads_set_up.
  - apply set_eq. intros j. rewrite elem_of_dom, elem_of_union, !elem_of_singleton. change (events (set_idle e2 s2)) with (events s2). rewrite Hev.
    destruct (decide (j = e2)); [split; [by right|by eexists]|]. destruct (decide (j = e1)); [split; [by left|by eexists]|].
    split; [by intros []|tauto].
Qed.
