(* ===== verification/DxeEventDemo.v ===== *)
(** * DXE core: the theorems on events at concrete states

    A state with the event that checks the timers, a periodic timer, a
    notification and an event to wait for, and a checker of its invariants:
    the theorems of [DxeEventOk.v], [DxeTimer.v], [DxeDispatch.v], [DxeTick.v]
    and [DxeEventUse.v] apply to it. *)
From Stdlib Require Import ZArith Lia.
From stdpp Require Import base gmap list sorting.
From S2P Require Import Prelude Pointer Firmware DxePage Heap DevicePath DxeHand DxeEvent DxeEventOk DxeTimer DxeDispatch DxeTick DxeEventUse.
#[local] Open Scope Z_scope.

(* ------------------------------------------------------------------ *)
(** ** A checker *)

Section check.
Context {W : Type}.
#[local] Abbreviation ES := (EVENTS W).

Definition queue_check (s : ES) : Prop :=
  map_Forall (fun t q => (q = [] \/ Z.testbit (gEventPending s) t = true) /\ NoDup q /\
    Forall (fun e => (fun E => (NotifyLinked E, NotifyTpl E)) <$> events s !! e = Some (true, t)) q) (gEventQueue s).
Definition event_check (s : ES) : Prop :=
  map_Forall (fun e E => (0 <= NotifyTpl E < 31) /\ (NotifyLinked E = false \/ e ∈ queue (NotifyTpl E) s) /\
    (SignalLinked E = false \/ e ∈ gEventSignalQueue s) /\ (TimerLinked E = false \/ e ∈ mEfiTimerList s) /\
    (0 <= TriggerTime E < 2 ^ 64) /\ (0 <= Period E < 2 ^ 64)) (events s).
Definition list_check (s : ES) : Prop :=
  Forall (fun e => SignalLinked <$> events s !! e = Some true) (gEventSignalQueue s) /\ NoDup (gEventSignalQueue s) /\
  Forall (fun e => TimerLinked <$> events s !! e = Some true) (mEfiTimerList s) /\ NoDup (mEfiTimerList s) /\
  Forall (fun t => is_Some (gEventQueue s !! t)) (seqZ 0 (TPL_HIGH_LEVEL + 1)) /\
  (0 <= gEventPending s < 2 ^ 31) /\ events s !! 0 = None /\ (0 <= mEfiSystemTime s < 2 ^ 64).
Definition state_check (s : ES) : bool := bool_decide (queue_check s) && bool_decide (event_check s) && bool_decide (list_check s).

Lemma fmap_some {A B} (f : A -> B) (o : option A) b : f <$> o = Some b -> exists a, o = Some a /\ f a = b.
Proof. destruct o as [a|]; [|done]. intros [= <-]. by exists a. Qed.

Lemma check_queues (s : ES) : state_check s = true -> queues_ok s.
Proof.
  unfold state_check. rewrite !andb_true_iff, !bool_decide_eq_true. intros [[Hq He] (Hs & Hso & Ht & Hto & Hh & Hp & Hz & Hn)].
  assert (forall t, queue t s <> [] -> exists q, gEventQueue s !! t = Some q /\ queue t s = q) as Hqu.
  { intros t Hne. unfold queue in *. destruct (gEventQueue s !! t) as [q|]; [by exists q|done]. }
  split; try done.
  - intros t Hr. rewrite Forall_forall in Hh. apply Hh. apply elem_of_seqZ. lia.
  - intros t Hne. destruct (Hqu t Hne) as (q & Eq & Eqq). destruct (Hq t q Eq) as ([->|] & _); [congruence|done].
  - intros t e. split.
    + intros Hin. destruct (Hqu t ltac:(intros Hn'; rewrite Hn' in Hin; by apply elem_of_nil in Hin)) as (q & Eq & Eqq). rewrite Eqq in Hin.
      destruct (Hq t q Eq) as (_ & _ & Hall). rewrite Forall_forall in Hall. destruct (fmap_some _ _ _ (Hall e Hin)) as (E & EE & HE). exists E. by injection HE.
    + intros (E & EE & HL & <-). destruct (He e E EE) as (_ & [?|?] & _); [congruence|done].
  - intros t. destruct (decide (queue t s = [])) as [->|Hne]; [constructor|]. destruct (Hqu t Hne) as (q & Eq & ->). by destruct (Hq t q Eq) as (_ & ? & _).
  - intros e E EE. by destruct (He e E EE) as (? & _).
  - intros e. rewrite Forall_forall in Hs. split.
    + intros Hin. destruct (fmap_some _ _ _ (Hs e Hin)) as (E & EE & HE). by exists E.
    + intros (E & EE & HE). destruct (He e E EE) as (_ & _ & [?|?] & _); [congruence|done].
Qed.

Fixpoint sorted_check (s : ES) (l : list Z) : bool :=
  match l with [] => true | e :: l => forallb (fun i => due_time s e <=? due_time s i) l && sorted_check s l end.

Lemma check_timers (s : ES) : state_check s = true -> sorted_check s (mEfiTimerList s) = true -> timers_ok s.
Proof.
  unfold state_check. rewrite !andb_true_iff, !bool_decide_eq_true. intros [[Hq He] (Hs & Hso & Ht & Hto & Hh & Hp & Hz & Hn)] Hsorted. split; try done.
  - revert Hsorted. generalize (mEfiTimerList s). intros l. induction l as [|e l IH]; [constructor|]. cbn. rewrite andb_true_iff. intros [Hd Hl].
    constructor; [by apply IH|]. apply Forall_forall. intros i Hi. apply list_elem_of_In in Hi. rewrite forallb_forall in Hd. unfold by_time.
    specialize (Hd i Hi). lia.
  - intros e. rewrite Forall_forall in Ht. split.
    + intros Hin. destruct (fmap_some _ _ _ (Ht e Hin)) as (E & EE & HE). by exists E.
    + intros (E & EE & HE). destruct (He e E EE) as (_ & _ & _ & [?|?] & _); [congruence|done].
  - intros e E EE. destruct (He e E EE) as (_ & _ & _ & _ & ? & ?). lia.
Qed.
End check.

(* ------------------------------------------------------------------ *)
(** ** A state *)

(** The pool, and a log of what was notified. *)
#[local] Abbreviation LOG := (BUMP * list Z)%type.
#[export] Instance log_heap : Heap LOG := {
  heap_alloc n w := let '(p, h) := bump_alloc n w.1 in (p, (h, w.2));
  heap_free p w := (heap_free p w.1, w.2);
}.

(** Functions: that of the check, and those of drivers, which only log. *)
Definition demo_check : Z := 777.
Definition demo_log (f e c : Z) (w : LOG) : LOG := (w.1, w.2 ++ [e]).
Definition demo_notify (f e c : Z) (s : EVENTS LOG) : outcome (EVENTS LOG) := Done (set_world (demo_log f e c (world s)) s).
Definition demo_period (w : LOG) : Z := 10000.

(** The check at 16, a timer with a notification at 32, a notification at 48, an
    event to wait for at 64. *)
Definition demo_event (T tpl f : Z) (queued : bool) : IEVENT :=
  mkEvent T (if queued then 1 else 0) (bits T EVT_NOTIFY_SIGNAL) tpl f 0 no_guid queued 0 false false 0 0.
Definition demo_heads : gmap Z (list Z) := foldr (fun t q => <[t := []]> q) ∅ (seqZ 0 (TPL_HIGH_LEVEL + 1)).
Definition demo_state {W} (w : W) (level time : Z) (queued : bool) (linked : bool) (due period : Z) : EVENTS W :=
  mkEvents level false
    (if queued then <[8 := [32]]> (<[16 := [48]]> demo_heads) else demo_heads) (if queued then 0x10100 else 0) [48; 32; 16] 0
    (if linked then [32] else []) 16 time []
    (<[16 := demo_event EVT_NOTIFY_SIGNAL TPL_TIMER demo_check false]>
     (<[32 := set_timer linked due period (demo_event (Z.lor EVT_TIMER EVT_NOTIFY_SIGNAL) TPL_CALLBACK 1 queued)]>
      (<[48 := demo_event EVT_NOTIFY_SIGNAL TPL_NOTIFY 2 queued]>
       (<[64 := set_count 1 (demo_event EVT_TIMER 0 0 false)]> ∅)))) w.

(** No notification is due to anyone; one timer is due at 5. *)
Definition at_rest (level time : Z) : EVENTS LOG := demo_state (mkBump 0x1000 ∅ 100, []) level time false true 5 3.
Definition pending_state : EVENTS LOG := demo_state (mkBump 0x1000 ∅ 100, []) TPL_HIGH_LEVEL 4 true false 0 0.
Definition pool_state : EVENTS BUMP :=
  demo_state (mkBump 0x1000 (<[16 := 8]> (<[32 := 8]> (<[48 := 8]> (<[64 := 8]> ∅)))) 100) TPL_APPLICATION 4 false true 5 3.
Definition bad_period : EVENTS LOG := demo_state (mkBump 0x1000 ∅ 100, []) TPL_TIMER 5 false true 4 (2 ^ 64 - 1).

Lemma demo_events_ok {W} (s : EVENTS W) : state_check s = true -> sorted_check s (mEfiTimerList s) = true ->
  bool_decide (is_Some (events s !! mEfiCheckTimerEvent s)) = true ->
  bool_decide (map_Forall (fun _ E => NotifyFunction E = demo_check -> NotifyTpl E = TPL_TIMER) (events s)) = true ->
  bool_decide (map_Forall (fun _ E => TimerLinked E = false \/ mEfiSystemTime s < TriggerTime E \/ Period E = 0 \/ mEfiSystemTime s + Period E < 2 ^ 64)
    (events s)) = true -> events_ok demo_check s.
Proof.
  intros Hs Ht Hc Hf Hp. apply bool_decide_eq_true in Hc, Hf, Hp. split; [by apply check_queues|by apply check_timers|done| |].
  - intros e E EE. apply (Hf e E EE).
  - intros e E EE HL HT HP. destruct (Hp e E EE) as [?|[?|[?|?]]]; [congruence|lia|done|done].
Qed.

(* ------------------------------------------------------------------ *)
(** ** Witnesses *)

Lemma CoreSignalEvent_correct_witness :
  CoreSignalEvent true None (CoreRestoreTpl true None demo_notify demo_check 1) 48 (at_rest TPL_NOTIFY 4) =
  Done (EFI_SUCCESS, at_level true None TPL_NOTIFY (signalled 48 (at_rest TPL_NOTIFY 4))) /\
  queue TPL_NOTIFY (signalled 48 (at_rest TPL_NOTIFY 4)) = [48].
Proof.
  destruct (CoreSignalEvent_correct true None demo_notify demo_check 0 48 (at_rest TPL_NOTIFY 4)) as (H & _ & _ & _ & Hq).
  - apply check_queues. by vm_compute.
  - by vm_compute.
  - by vm_compute.
  - split; [exact H|]. rewrite (Hq _ eq_refl eq_refl eq_refl TPL_NOTIFY). reflexivity.
Defined.

Lemma CoreCheckTimers_correct_witness : exists s', CoreCheckTimers true None (CoreRestoreTpl true None demo_notify demo_check 1) 3 (at_rest TPL_TIMER 9) = Done s' /\
  forall e, e ∈ mEfiTimerList s' -> 9 < due_time s' e.
Proof.
  destruct (CoreCheckTimers_correct true None demo_notify demo_check 0 3 (at_rest TPL_TIMER 9)) as (l & s' & H & _ & _ & _ & _ & Hd & _).
  - apply check_queues. by vm_compute.
  - apply check_timers; by vm_compute.
  - eexists. reflexivity.
  - reflexivity.
  - apply (ev_period demo_check). apply demo_events_ok; by vm_compute.
  - cbn. lia.
  - exists s'. split; [exact H|exact Hd].
Defined.

Lemma CoreCheckTimers_never_ends_witness :
  CoreCheckTimers true None (CoreRestoreTpl true None demo_notify demo_check 1) 1000 bad_period = Fault Diverges.
Proof.
  apply (CoreCheckTimers_never_ends true None demo_notify demo_check 0 1000 32 bad_period).
  - apply check_queues. by vm_compute.
  - apply check_timers; by vm_compute.
  - eexists. reflexivity.
  - reflexivity.
  - eexists. split; [reflexivity|]. cbn. split; [done|]. split; [lia|]. split; [lia|]. split; [by vm_compute|lia].
Defined.

Lemma CoreSetTimer_correct_witness : exists l, CoreSetTimer true None demo_notify demo_period demo_check 1 32 TimerRelative 100 (at_rest TPL_APPLICATION 4) =
  Done (EFI_SUCCESS, at_level true None TPL_APPLICATION (timed 32 true 104 0 l (at_rest TPL_APPLICATION 4))).
Proof.
  pose proof (CoreSetTimer_correct true None demo_notify demo_check 0 demo_period 32 TimerRelative 100 (at_rest TPL_APPLICATION 4)) as H.
  cbv zeta in H. rewrite decide_True in H by (split; [reflexivity|by vm_compute]). rewrite decide_False in H by done.
  destruct H as (l1 & l2 & _ & _ & _ & _ & H & _).
  - apply check_queues. by vm_compute.
  - apply check_timers; by vm_compute.
  - eexists. reflexivity.
  - by vm_compute.
  - by vm_compute.
  - lia.
  - by vm_compute.
  - exists (l1 ++ 32 :: l2). apply H. by vm_compute.
Defined.

Lemma pending_ok : events_ok demo_check pending_state.
Proof. apply demo_events_ok; by vm_compute. Qed.

Lemma CoreRestoreTpl_refines_witness : exists trace s', delivered true None demo_notify demo_check TPL_APPLICATION pending_state trace s' /\
  exists n0, forall n, (n0 <= n)%nat -> CoreRestoreTpl true None demo_notify demo_check n TPL_APPLICATION pending_state = Done s'.
Proof.
  destruct (CoreRestoreTpl_refines true None demo_notify demo_check (events_ok demo_check) passive_rank TPL_APPLICATION pending_state) as (tr & s' & H & _ & _ & _ & Hn).
  - apply (passive_ending true None demo_notify demo_check demo_log). reflexivity.
  - by vm_compute.
  - exact pending_ok.
  - exists tr, s'. split; [exact H|exact Hn].
Defined.

Lemma CoreRestoreTpl_delivers_witness : exists s',
  delivered true None demo_notify demo_check TPL_APPLICATION pending_state [(TPL_NOTIFY, 48); (TPL_CALLBACK, 32)] s' /\
  exists n0, forall n, (n0 <= n)%nat -> CoreRestoreTpl true None demo_notify demo_check n TPL_APPLICATION pending_state = Done s'.
Proof.
  destruct (CoreRestoreTpl_delivers true None demo_notify demo_check demo_log TPL_APPLICATION pending_state) as (tr & s' & n0 & Hn & Hd & _ & _ & _ & Htr).
  - reflexivity.
  - by vm_compute.
  - exact pending_ok.
  - exists s'. rewrite Htr in Hd by (by vm_compute). split; [exact Hd|by exists n0].
Defined.

Lemma at_rest_ticking : ticking demo_check (at_rest TPL_APPLICATION 4).
Proof.
  split.
  - apply demo_events_ok; by vm_compute.
  - eexists. split; [reflexivity|]. split; [by repeat split|]. done.
  - intros Hx. exfalso. apply Hx. by vm_compute.
Qed.

Lemma CoreTimerTick_correct_witness : exists s' n0,
  (forall n, (n0 <= n)%nat -> CoreTimerTick true None demo_notify demo_check n 1 (at_rest TPL_APPLICATION 4) = Done s') /\
  (forall e, e ∈ mEfiTimerList s' -> 5 < due_time s' e).
Proof.
  destruct (CoreTimerTick_correct true None demo_notify demo_check demo_log 1 (at_rest TPL_APPLICATION 4)) as (s' & n0 & Hn & _ & _ & _ & _ & Hd).
  - reflexivity.
  - exact at_rest_ticking.
  - by vm_compute.
  - change (no_overflow 5 (set_time 5 (at_rest TPL_APPLICATION 4))). apply (ev_period demo_check). apply demo_events_ok; by vm_compute.
  - exists s', n0. split; [exact Hn|]. apply Hd. by vm_compute.
Defined.

Lemma CoreWaitForEvent_correct_witness : CoreWaitForEvent true None demo_notify demo_check 1 1 1 (Some [64]) (at_rest TPL_APPLICATION 4) =
  Done (EFI_SUCCESS, Some 0, checked true None 64 (at_rest TPL_APPLICATION 4)).
Proof.
  destruct (CoreWaitForEvent_correct true None demo_notify demo_check 0 0 1 (Some [64]) (at_rest TPL_APPLICATION 4)) as (_ & _ & H).
  - apply check_queues. by vm_compute.
  - by vm_compute.
  - apply (H [64] [] 64 []); try done.
    + intros j Hj. by apply elem_of_nil in Hj.
    + intros E HE. injection HE as <-. by vm_compute.
Defined.

Lemma pool_places : places_ok pool_state.
Proof.
  split.
  - split; [by vm_compute|]. intros p n Hp. cbn in Hp.
    repeat (apply lookup_insert_Some in Hp as [[<- <-]|[_ Hp]]; [cbn; lia|]). by rewrite lookup_empty in Hp.
  - assert (bool_decide (map_Forall (fun e _ => is_Some (heap_live (world pool_state) !! e)) (events pool_state)) = true) as Hb by (by vm_compute).
    apply bool_decide_eq_true in Hb. intros e [E EE]. exact (Hb e E EE).
  - intros e He. by apply elem_of_nil in He.
Qed.

Lemma callback_request : request_ok EVT_NOTIFY_SIGNAL TPL_CALLBACK 5 None.
Proof. split; [apply list_elem_of_In; cbn; tauto|]. split; [by left|]. intros _. split; [done|by vm_compute]. Qed.

Lemma CoreCreateEvent_CloseEvent_roundtrip_witness : exists e s1,
  CoreCreateEventInternal true None (fun _ _ _ s => Done s) demo_check 1 EVT_NOTIFY_SIGNAL TPL_CALLBACK 5 6 None true pool_state = Done (EFI_SUCCESS, Some e, s1) /\
  CoreCloseEvent true None (fun _ _ _ s => Done s) (fun _ => 0) (fun _ w => w) demo_check 1 e s1 =
    Done (EFI_SUCCESS, set_world (heap_free e (heap_alloc 184 (world pool_state)).2) (at_level true None TPL_APPLICATION pool_state)).
Proof.
  pose proof (CoreCreateEvent_CloseEvent_roundtrip true None (fun _ _ _ s => Done s) (fun _ => 0) (fun _ w => w) demo_check 0
    EVT_NOTIFY_SIGNAL TPL_CALLBACK 5 6 None pool_state) as H. cbv zeta in H. rewrite decide_True in H by exact callback_request.
  destruct H as (s1 & H1 & _ & _ & _ & _ & _ & _ & _ & H2).
  - apply check_queues. by vm_compute.
  - apply check_timers; by vm_compute.
  - eexists. reflexivity.
  - exact pool_places.
  - by vm_compute.
  - by vm_compute.
  - eexists. exists s1. split; [exact H1|exact H2].
Defined.

Lemma CoreInitializeEventServices_correct_witness : exists s,
  CoreInitializeEventServices true None (fun _ _ _ s => Done s) demo_check 778 1 (initial false (mkBump 0x1000 ∅ 100)) = Done (EFI_SUCCESS, s) /\
  mEfiCheckTimerEvent s = 0x1000.
Proof.
  destruct (CoreInitializeEventServices_correct true None (fun _ _ _ s => Done s) demo_check 778 0 false (mkBump 0x1000 ∅ 100) 0x1000
    (heap_alloc 184 (mkBump 0x1000 ∅ 100)).2 (0x1000 + 200) (heap_alloc 184 (heap_alloc 184 (mkBump 0x1000 ∅ 100)).2).2) as (s & H & _ & _ & Hc & _).
  - split; [by vm_compute|]. intros p n Hp. change ((∅ : gmap Z Z) !! p = Some n) in Hp. by rewrite lookup_empty in Hp.
  - by vm_compute.
  - by vm_compute.
  - by vm_compute.
  - by vm_compute.
  - by vm_compute.
  - exists s. split; [exact H|exact Hc].
Defined.
